(* ===== verification/_CoqProject ===== *)
-Q . S2P
Prelude.v
Chain.v
Memif.v
Packet.v
TcpCommon.v
Rng.v
Qman.v
QmanSpec.v
QmanPoll.v
QmanProps.v
FastCtx.v
FastFlows.v
FastRx.v
FastTx.v
FastFlowsSpec.v
FastFlowsProps.v
AppCtx.v
AppCtxSpec.v
Reta.v
RetaSpec.v
Loadmon.v
LoadmonSpec.v
Fastemu.v
FastemuSpec.v
Packetmem.v
PacketmemSpec.v
Timeout.v
TimeoutSpec.v
Timers.v
Arp.v
ArpSpec.v
Routing.v
Nicif.v
NicifSpec.v
NicifProps.v
Conn.v
Cc.v
CcSpec.v
CcProps.v
Tcp.v
TcpOptions.v
TcpSpec.v
TcpProps.v
TcpFail.v
Llring.v
LlringSpec.v
Vport.v
VportSpec.v
VportProps.v
KernelIf.v
Libtas.v
LibtasSpec.v
LibtasProps.v
LibtasPoll.v
WireSpec.v
WireProps.v
Appif.v
AppifSpec.v
AppifQueue.v
Doorbell.v
DoorbellSpec.v
Sockepoll.v
SockepollSpec.v
SockepollProps.v
Sockstream.v
SockstreamSpec.v
SockstreamProps.v
