(* ===== verification/Prelude.v ===== *)
(** * TAS, the TCP acceleration service of Backdraft

    Backdraft ([src/code/tas], [src/code/lib]) is built on TAS, a TCP stack that runs as a
    service of its own: cores of the fast path process the packets of established
    connections, a slow path thread opens and closes connections, resolves addresses,
    controls the rates and scales the number of cores, and applications exchange data with
    both through circular buffers and queues in shared memory.  Backdraft adds virtual ports
    between processes and queues of doorbells that announce packets.  The development models
    the two paths, the library on the side of the application, virtual ports and doorbells,
    and proves what each part promises to the others.

    ** Parts, files and sources

    Files of the service are under [src/code/tas], those of its two paths under its
    directory [tas].

    - [Prelude] (this file): machine integers with explicit wrap-around, record update,
      the results of functions ([outcome]: [Done], [Aborted] for a failed assertion,
      [abort] or a division by zero, [NoFuel] for a loop that is not finished), and
      tactics.  [Chain]: singly and doubly linked lists through next functions.
    - [Memif], [Packet]: the registers of flows and the packets
      ([include/tas_memif.h], [include/packet_defs.h]).
    - [TcpCommon]: sequence number arithmetic and option parsing
      ([fast/tcp_common.h]).
    - Queue manager ([fast/qman.c], [lib/utils/rng.c]): [Rng], [Qman] (data and
      operations), [QmanSpec] (invariant and refinement), [QmanPoll], [QmanProps].
    - Flow processing ([fast/fast_flows.c], [fast/dma.h]): [FastCtx] (the context of a
      core, and the interface [QueueManager]), [FastFlows] (the handlers), [FastRx] and
      [FastTx] (the two directions of a connection), [FastFlowsSpec] (whole handlers),
      [FastFlowsProps] (lookup, checks, runs).
    - Context queues ([fast/fast_appctx.c], [fast/fast_kernel.c]): [AppCtx],
      [AppCtxSpec].
    - Main loop and steering ([fast/fastemu.c], [fast/network.c]): [Fastemu],
      [FastemuSpec], [Reta], [RetaSpec]; the load monitor of the slow path that asks for
      more or fewer cores ([tas.c]): [Loadmon], [LoadmonSpec].
    - Slow path services: [Packetmem], [PacketmemSpec] ([slow/packetmem.c]);
      [Timeout], [TimeoutSpec] ([lib/utils/timeout.c]) and the interface [Timers] to
      them; [Arp], [ArpSpec] ([slow/arp.c], [include/utils_nbqueue.h]); [Routing]
      ([slow/routing.c]).
    - Interface of the slow path to the cores ([slow/nicif.c]): [Nicif], [NicifSpec],
      [NicifProps].
    - Congestion control ([slow/cc.c]): [Conn] ([struct connection] and the
      configuration), [Cc], [CcSpec] (the algorithms), [CcProps] (the loop).
    - Connections on the slow path ([slow/tcp.c]): [Tcp] (all handlers, with the
      notifications of [slow/appif_ctx.c]), [TcpOptions] (options written and read),
      [TcpSpec] (ports, the table of connections, the backlog), [TcpProps] (opening and
      accepting), [TcpFail] (timeouts and failures).
    - Requests of applications ([slow/appif.c], [slow/appif_ctx.c]): [KernelIf] (the
      queues, [include/kernel_appif.h]), [Appif] (the handlers), [AppifSpec], and
      [AppifQueue] (the queue between library and slow path).
    - Library of applications ([lib/tas/conn.c], [lib/tas/init.c]): [Libtas],
      [LibtasSpec] (pending updates), [LibtasProps] (the two streams), [LibtasPoll] (a
      whole poll of the context that finds received bytes); [WireSpec] and [WireProps]
      put the library and the fast path together.
    - Sockets on top of it: event polling ([lib/sockets/epoll.c]): [Sockepoll],
      [SockepollSpec], [SockepollProps]; events, receiving, sending and closing
      ([lib/sockets/context.c], [transfer.c], [control.c]): [Sockstream],
      [SockstreamSpec] (the pieces of the receive buffer), [SockstreamProps].
    - Virtual ports ([src/code/lib/bd_vport]): [Llring] (the ring, [llring.h]),
      [LlringSpec], [Vport] ([vport.c], [llring_pool.c]), [VportSpec], [VportProps].
    - Doorbells ([src/code/lib/bkdrft]): [Doorbell], [DoorbellSpec].

    A C function is the definition of the same name.  State the code keeps in static
    variables or in an object is a record that the definition takes and returns; objects
    on linked lists are addresses, their fields functions of the address.  Callbacks and
    interfaces are arguments or type classes: the flow handlers see the queue manager
    through [QueueManager], which [Qman] implements, ARP and TCP see the timers through
    [Timers], which [Timeout] implements.  What runs concurrently is a step relation or a
    list of steps: producer and consumer of a ring ([LlringSpec]), an application and the
    fast path on one connection ([WireProps]), an application and the slow path on one
    queue ([AppifQueue]), the load monitor, the applications and the first core
    ([LoadmonSpec]).

    ** What is shown

    - The queue manager: reachable states are well formed and no call aborts
      ([qman_never_aborts]); a poll conserves bytes, is work conserving and ends
      ([qman_poll_correct]); insertion into the skip list refines a sorted list; rate
      limited queues are paced; the sleep never passes a ready queue.
    - Flow processing, against streams of bytes: the application is told about exactly
      the bytes the peer sent, in order and once, which are all the new ones that fit
      ([rx_taken]), and the receive registers move on by their number; unread bytes are
      never overwritten; acknowledgements free exactly what they cover ([acked_bytes])
      ([fast_flows_packet_correct]); a segment carries exactly the bytes of the stream at
      its sequence number, as many as buffer, segment size and window allow
      ([sendable]; [fast_flows_qman_sends]); a retransmission goes back to the oldest byte
      that is not acknowledged; the flow invariant [flow_inv] is kept by every handler.
      Which packets are accepted is [packet_check_exact].  The composition with the queue
      manager and the buffer cache is [poll_qman_safe].
    - Queues to applications: notifications are delivered in order into free slots only.
    - Scaling keeps the table of the NIC, the counts and the steering table together;
      with the load monitor and the requests of applications, the number of cores stays
      in its bounds, provided that applications ask for at most [fp_cores_max]
      ([autoscale_safe]).
    - Packet memory is always partitioned; timers fire exactly when due, in order, also
      with handlers that arm timers; ARP answers every waiting requester exactly once;
      routing ends when the next hops are acyclic.
    - A connection that the slow path registers satisfies [flow_inv] and is found by the
      lookup of the fast path, and no other flow is lost, as long as an entry of the flow
      hash table can be had safely ([slot_safe]; the code does not make sure of that,
      [flow_slot_alloc_loses_flow]); after it is disabled it is not found any more
      ([NicifProps]).
    - Congestion control visits connections round robin, keeps windows and rates in
      bounds, cuts them on losses, marks and high or rising round trip times
      ([cc_algo_update_correct]), and puts the rate into the registers of the flow.
    - Connections are found under exactly their addresses; the backlog of a listener is a
      bounded queue of SYNs, of each as many bytes as its IP length says; the answer to a
      SYN and an accepted SYN register the connection with congestion control and the fast
      path, keeping the invariants of both, and any other answer leaves the connection
      waiting (a connection is opened under the hypothesis [slot_safe]); a lost SYN is repeated until the connection fails, and a failed connection
      leaves the table and the timers; options are read back by both parsers.
    - Requests of applications form a bounded queue in which none is lost, repeated or
      overtaken, whatever the interleaving ([requests_fifo]); moving a connection to
      another doorbell moves exactly its flow and is answered, as long as the list of the
      connections ends (see [reused_connection_cycle]).
    - The library and the fast path: in every state that they can reach together, updates
      arrive in order and are accepted as they are, and both agree on every byte of both
      buffers ([wire_safe]); updates become exactly the right events; pending updates are
      sent in the order in which they became pending.
    - Event polling loses no event and reports exactly the pending ones
      ([epoll_never_loses_events], [ep_poll_tas_correct]).  A socket delivers exactly the
      stream, whatever the sizes of the reads and wherever the circular buffer wraps
      around, and is readable while bytes are left ([socket_stream_correct]).  That is
      shown down to the queues in shared memory: a poll, also one of a read that waits,
      finds up to five updates for the connection ([placed]).  What is sent is in the transmit
      buffer and announced ([tas_sendmsg_correct]).
    - Rings are queues with wrapping counters, also for a producer and a consumer that
      interleave; virtual ports lose no packet, and keep their order while the reader is
      not on a segment that it has emptied.
    - Doorbells survive their packet; a poll of the doorbells counts exactly what they
      announce and returns the first announced packets, while packets arrive; it ends
      unless it blocks and there are none.

    Theorems about concrete states, or with few hypotheses, record where the code departs
    from what it means to do: [gap_segment_overwrites], [flow_id_truncated],
    [bump_checks_wrong_buffer], [short_ip_length_aborts],
    [timestamp_option_sticks_out], [short_syn_keeps_old_header], [core_min_saturates],
    [packetmem_free_fragments], [flow_slot_alloc_loses_flow], [connection_add_keeps_ooo],
    [dctcp_win_small_buffer], [actual_rate_overflows], [rate_step_wraps],
    [cc_conn_init_twice], [control_packet_overrun], [reused_connection_cycle],
    [close_only_pending_stalls], [full_ring_collected_twice], [vport_reorders],
    [vport_pool_exhausted], [announced_packets_stranded], [vport_poll_out_of_bounds],
    [failed_removal_counts], [sendbuf_after_close_aborts], [quota_at_watermark].

    ** Bounds and fuel

    Loops over C lists take fuel; the theorems ask for more fuel than the list has
    members and conclude [Done], so the loops end.  The polling loops of the queue
    manager get the fuel their theorems compute from the number of queues; the option
    parser 41 rounds (a header has at most 40 bytes of options); the insertion into the
    flow hash table 30 rounds (it looks at most 20 entries ahead).  Buffers are shorter
    than 2^30 bytes, timeouts shorter than half the range of a timestamp (2^27
    microseconds), round trip times as the fast path bounds them.  Rings have at most 2^30
    slots, the segments of virtual ports 2 to 32768; in [WireProps] both buffers of a
    connection are of one length; the counts of the doorbells stay below 2^62; there are at
    most 256 cores.

    ** Not modelled

    Memory ordering and the locks: a handler holds the lock of its flow from beginning to
    end and is modelled as one step; the fields that the hardware or another core writes
    concurrently are read when the handler starts; the calls of a virtual port run
    undisturbed, only its rings are also modelled as interleaved steps.  DPDK, the NIC, the
    CRC and checksum instructions, the parser of doorbells that the build generates, and
    [malloc] are arguments.  Not modelled are process start-up, option parsing and the
    set-up of queues ([adminq_init]), the Unix socket over which applications ask for
    contexts and the library's side of it ([lib/tas/kernel.c], [lib/tas/connect.c]), the
    kernel interface, sleeping and eventfds, statistics and tracing, the other calls of the
    socket library (descriptors, [poll], [select], moving a connection to another thread, and
    [tas_epoll_wait], which mixes Linux descriptors and time into the polling), freeing and
    publishing virtual ports, and the other projects in the repository (BESS, DPDK, Homa,
    the traffic generators and the benchmarks). *)

From Stdlib Require Export ZArith Lia List Bool Sorted.
From stdpp Require Export base tactics list option functions numbers sets.

#[export] Set Warnings "-clear-no-such-hyp".

#[global] Open Scope Z_scope.

(** ** Machine integers

    A C unsigned integer of [w] bits is a [Z]; arithmetic that may leave the
    width is wrapped explicitly with [u8], [u16], [u32] or [u64] where the C
    type of the result says so, and [s32]/[s64] is the two's complement reading
    of a conversion to a signed type. *)

Definition u8 (x : Z) : Z := x mod 256.
Definition u16 (x : Z) : Z := x mod 65536.
Definition u32 (x : Z) : Z := x mod 4294967296.
Definition u64 (x : Z) : Z := x mod 18446744073709551616.

Definition s32 (x : Z) : Z := (x + 2147483648) mod 4294967296 - 2147483648.
Definition s64 (x : Z) : Z :=
  (x + 9223372036854775808) mod 18446744073709551616 - 9223372036854775808.

Definition UINT16_MAX : Z := 65535.
Definition UINT32_MAX : Z := 4294967295.
Definition INT32_MAX : Z := 2147483647.
Definition INT16_MAX : Z := 32767.

Abbreviation in8 x := (0 <= x < 256).
Abbreviation in16 x := (0 <= x < 65536).
Abbreviation in32 x := (0 <= x < 4294967296).
Abbreviation in64 x := (0 <= x < 18446744073709551616).

(** [wrap_lia] is [lia] after the wrap-around operators are unfolded into
    divisions with remainder by a constant. *)
Ltac unwrap := unfold u8, u16, u32, u64, s32, s64 in *.
Ltac wrap_lia := unwrap; Z.div_mod_to_equations; lia.

Lemma u8_range x : in8 (u8 x).
Proof. wrap_lia. Qed.
Lemma u16_range x : in16 (u16 x).
Proof. wrap_lia. Qed.
Lemma u32_range x : in32 (u32 x).
Proof. wrap_lia. Qed.
Lemma u64_range x : in64 (u64 x).
Proof. wrap_lia. Qed.
Lemma s32_range x : -2147483648 <= s32 x <= INT32_MAX.
Proof. unfold INT32_MAX. wrap_lia. Qed.

Lemma u16_small x : in16 x -> u16 x = x.
Proof. intros; unfold u16; by apply Z.mod_small. Qed.
Lemma u32_small x : in32 x -> u32 x = x.
Proof. intros; unfold u32; by apply Z.mod_small. Qed.
Lemma u64_small x : in64 x -> u64 x = x.
Proof. intros; unfold u64; by apply Z.mod_small. Qed.
Lemma s32_small x : -2147483648 <= x < 2147483648 -> s32 x = x.
Proof. intros; unfold s32. rewrite Z.mod_small; lia. Qed.
Lemma u32_wrap x : 4294967296 <= x < 8589934592 -> u32 x = x - 4294967296.
Proof. wrap_lia. Qed.
Lemma u32_neg x : -4294967296 <= x < 0 -> u32 x = x + 4294967296.
Proof. wrap_lia. Qed.

Lemma u32_idem x : u32 (u32 x) = u32 x.
Proof. apply u32_small, u32_range. Qed.
Lemma u32_add_l x y : u32 (u32 x + y) = u32 (x + y).
Proof. unfold u32. apply Zplus_mod_idemp_l. Qed.
Lemma u32_add_r x y : u32 (x + u32 y) = u32 (x + y).
Proof. unfold u32. apply Zplus_mod_idemp_r. Qed.
Lemma u32_sub_l x y : u32 (u32 x - y) = u32 (x - y).
Proof. unfold u32. apply Zminus_mod_idemp_l. Qed.
Lemma u32_sub_r x y : u32 (x - u32 y) = u32 (x - y).
Proof. unfold u32. apply Zminus_mod_idemp_r. Qed.

(** The two readings of a wrapped sum or difference. *)
Lemma u32_add_cases a b : in32 a -> in32 b ->
  (a + b < 4294967296 /\ u32 (a + b) = a + b)
  \/ (4294967296 <= a + b /\ u32 (a + b) = a + b - 4294967296).
Proof. intros. wrap_lia. Qed.

(** The lemmas that push [u32] outwards, as one rewrite database, and the range
    facts as hints. *)
Create HintDb wrap_db.
Create Rewrite HintDb wrap_rw.
#[export] Hint Resolve u8_range u16_range u32_range u64_range : wrap_db.
#[export] Hint Rewrite u32_idem u32_add_l u32_add_r u32_sub_l u32_sub_r : wrap_rw.

(** Distinct places of a ring that are less than a turn apart are different. *)
Lemma mod_shift_inj n a i j : 0 < n -> (a + i) mod n = (a + j) mod n -> - n < i - j < n -> i = j.
Proof.
  intros Hn E Hd. assert (E' : (i - j) mod n = 0).
  { replace (i - j) with ((a + i) - (a + j)) by lia. rewrite Zminus_mod, E, Z.sub_diag. by apply Z.mod_0_l; lia. }
  apply Z.mod_divide in E' as [q Hq]; [|lia]. assert (q = 0) by nia. lia.
Qed.

(** ** Flag words

    [has fl bit] is the C test [(fl & bit) != 0]. *)
Definition has (fl bit : Z) : bool := negb (Z.eqb (Z.land fl bit) 0).

Lemma land_pow2 fl k : 0 <= k -> Z.land fl (2 ^ k) = if Z.testbit fl k then 2 ^ k else 0.
Proof.
  intros Hk. apply Z.bits_inj'. intros n Hn. rewrite Z.land_spec.
  destruct (decide (n = k)) as [->|Hne].
  - rewrite Z.pow2_bits_true by done. destruct (Z.testbit fl k) eqn:E; cbn.
    + by rewrite Z.pow2_bits_true.
    + by rewrite Z.bits_0.
  - rewrite Z.pow2_bits_false by lia. rewrite andb_false_r.
    destruct (Z.testbit fl k); [by rewrite Z.pow2_bits_false by lia|by rewrite Z.bits_0].
Qed.

Lemma has_pow2 fl k : 0 <= k -> has fl (2 ^ k) = Z.testbit fl k.
Proof.
  intros Hk. unfold has. rewrite land_pow2 by done.
  destruct (Z.testbit fl k); [|done].
  destruct (Z.eqb_spec (2 ^ k) 0); [|done]. pose proof (Z.pow_pos_nonneg 2 k). lia.
Qed.

Lemma has_lor fl b k : 0 <= k -> has (Z.lor fl b) (2 ^ k) = has fl (2 ^ k) || has b (2 ^ k).
Proof. intros. rewrite !has_pow2 by done. apply Z.lor_spec. Qed.

(** ** Record update

    [r <| f := v |>] is the record [r] with field [f] replaced, the model of the
    assignment [r->f = v].  A record type gives its eta expansion as an instance of
    [Eta]; the update function of a field is found from it. *)
Class Eta (R : Type) : Type := eta : R -> R.
Class Setter {R T : Type} (p : R -> T) : Type := setter : (T -> T) -> R -> R.

Ltac build_setter :=
  lazymatch goal with
  | |- @Setter ?R ?T ?p =>
    let e := constr:(_ : Eta R) in
    let f := fresh "f" in let r := fresh "r" in
    unfold Setter; intros f r;
    let body := eval hnf in (e r) in
    let pat := eval pattern (p r) in body in
    lazymatch pat with
    | ?F _ => let b := eval cbv beta in (F (f (p r))) in exact b
    end
  end.
#[export] Hint Extern 1 (Setter _) => build_setter : typeclass_instances.

Declare Scope update_scope.
Notation "r <| p := v |>" := (setter (p := p) (fun _ => v) r)
  (at level 1, left associativity, p at level 1, v at level 200,
   format "r  <| p  :=  v |>") : update_scope.
#[global] Open Scope update_scope.

(** ** Outcomes

    A C function that may call [abort] (or fail an [assert]) or that contains a
    loop is a function into [outcome]: [Done] is a return, [Aborted] the abort, and
    [NoFuel] says that the loop did not end within the fuel given to the model. *)
Inductive outcome (A : Type) : Type :=
  | Done (a : A)
  | Aborted
  | NoFuel.
Arguments Done {A} _.
Arguments Aborted {A}.
Arguments NoFuel {A}.

Global Instance outcome_ret : MRet outcome := fun A a => Done a.
Global Instance outcome_bind : MBind outcome := fun A B f m =>
  match m with Done a => f a | Aborted => Aborted | NoFuel => NoFuel end.
Global Instance outcome_fmap : FMap outcome := fun A B f m =>
  match m with Done a => Done (f a) | Aborted => Aborted | NoFuel => NoFuel end.

(** [assert b ;; m] is C's [assert(b); m]. *)
Definition assert_ (b : bool) : outcome unit := if b then Done tt else Aborted.

Lemma outcome_bind_Done {A B} (f : A -> outcome B) (m : outcome A) (b : B) :
  mbind f m = Done b <-> exists a, m = Done a /\ f a = Done b.
Proof.
  split.
  - destruct m; cbn; naive_solver.
  - intros (a & -> & ?); done.
Qed.

(** ** Tactics shared by the components *)

(** [breflect] turns boolean comparisons of [Z] in the context into propositions,
    splitting disjunctions; [split_ifs] case-splits the innermost conditionals of the
    goal, dropping the branches [lia] refutes. *)
Ltac breflect :=
  repeat match goal with
  | H : (_ && _)%bool = true |- _ => apply andb_true_iff in H as [? ?]
  | H : (_ || _)%bool = false |- _ => apply orb_false_iff in H as [? ?]
  | H : (_ && _)%bool = false |- _ => apply andb_false_iff in H as [?|?]
  | H : (_ || _)%bool = true |- _ => apply orb_true_iff in H as [?|?]
  | H : negb _ = true |- _ => apply negb_true_iff in H
  | H : negb _ = false |- _ => apply negb_false_iff in H
  | H : (_ <? _) = true |- _ => apply Z.ltb_lt in H
  | H : (_ <? _) = false |- _ => apply Z.ltb_ge in H
  | H : (_ <=? _) = true |- _ => apply Z.leb_le in H
  | H : (_ <=? _) = false |- _ => apply Z.leb_gt in H
  | H : (_ =? _) = true |- _ => apply Z.eqb_eq in H
  | H : (_ =? _) = false |- _ => apply Z.eqb_neq in H
  end.

Ltac split_ifs :=
  repeat match goal with
  | |- context [if ?c then _ else _] =>
      lazymatch c with
      | context [if _ then _ else _] => fail
      | _ => destruct c eqn:?; breflect; try (exfalso; lia)
      end
  end.

(** [run_handler] takes an equation that says that a handler has returned, in front of the
    goal, apart into the results of its calls. *)
Ltac run_step :=
  match goal with
  | E : mbind _ _ = Done _ |- _ => apply outcome_bind_Done in E as (? & ? & E)
  | E : (let '(_, _) := ?x in _) = Done _ |- _ => destruct x eqn:?
  | E : (match ?x with _ => _ end) = Done _ |- _ => destruct x eqn:?
  | E : Done _ = Done _ |- _ => injection E as E; subst
  | E : Aborted = Done _ |- _ => discriminate E
  | E : NoFuel = Done _ |- _ => discriminate E
  end.
Ltac run_handler := intros E; repeat (run_step || simplify_eq); try (done || by split).

(** [head_if E] splits the outermost conditional on the left of the goal's equation. *)
Ltac head_if E :=
  lazymatch goal with |- (if ?c then _ else _) = _ -> _ => destruct c eqn:E
  | |- (if ?c then _ else _) = _ => destruct c eqn:E end.
