(* ===== verification/Chain.v ===== *)
(** * Singly linked lists through a next-pointer function

    The components of the program thread their objects on linked lists: the queue
    manager by array indices, the packet memory, the timers, the ARP table and the
    congestion control by pointers.  [seg nx h L e] says that following [nx] from [h]
    visits exactly the objects [L] and arrives at [e]; [chain] is the case where it
    arrives at the null pointer. *)
From S2P Require Import Prelude.

Section Chain.
Context (null : Z).

Fixpoint seg (nx : Z -> Z) (h : Z) (L : list Z) (e : Z) : Prop :=
  match L with
  | [] => h = e
  | x :: L => h = x /\ x <> null /\ seg nx (nx x) L e
  end.

Definition chain (nx : Z -> Z) (h : Z) (L : list Z) : Prop := seg nx h L null.

Implicit Types (nx : Z -> Z) (L A B : list Z).

Lemma seg_app nx A B h e : seg nx h (A ++ B) e <-> exists m, seg nx h A m /\ seg nx m B e.
Proof.
  revert h. induction A as [|x A IH]; intros h; cbn.
  - naive_solver.
  - rewrite IH. naive_solver.
Qed.

Lemma seg_ext nx nx' L h e :
  (forall x, x ∈ L -> nx' x = nx x) -> seg nx h L e -> seg nx' h L e.
Proof.
  revert h. induction L as [|x L IH]; intros h Hx; cbn; [done|].
  intros (-> & ? & Hs). split_and!; [done..|]. rewrite Hx by set_solver.
  apply IH; [set_solver|done].
Qed.

Lemma seg_notin_null nx h L e : seg nx h L e -> null ∉ L.
Proof.
  revert h. induction L as [|x L IH]; intros h; cbn; [set_solver|].
  intros (-> & ? & ?%IH). set_solver.
Qed.

Lemma chain_null nx h L : chain nx h L -> (h = null <-> L = []).
Proof. destruct L as [|x L]; cbn; [done|]. intros (-> & ? & ?). naive_solver. Qed.

Lemma chain_inj nx h L L' : chain nx h L -> chain nx h L' -> L = L'.
Proof.
  revert h L'. induction L as [|x L IH]; intros h [|y L']; cbn; [done|naive_solver..|].
  intros (-> & ? & H1) (? & ? & H2); simplify_eq. f_equal. eapply IH; eauto.
Qed.

Lemma chain_cons nx h x L : chain nx h (x :: L) <-> h = x /\ x <> null /\ chain nx (nx x) L.
Proof. done. Qed.

(** The part of a chain that starts at one of its members. *)
Lemma chain_from nx h A x B : chain nx h (A ++ x :: B) -> chain nx x (x :: B).
Proof. intros (m & _ & Hm)%seg_app. cbn in *. naive_solver. Qed.

(** Linking a new object in front. *)
Lemma chain_push nx nx' h x L :
  chain nx h L -> x <> null -> x ∉ L -> nx' x = h -> (forall y, y ∈ L -> nx' y = nx y) ->
  chain nx' x (x :: L).
Proof.
  intros Hc Hx Hn E Ho. unfold chain; cbn. rewrite E. split_and!; [done..|]. by eapply seg_ext.
Qed.

(** Linking a new object [x] behind the member [p]. *)
Lemma seg_link nx nx' h A p B x e :
  seg nx h (A ++ p :: B) e -> NoDup (A ++ p :: B) -> x ∉ A ++ p :: B -> x <> null ->
  nx' p = x -> nx' x = nx p -> (forall y, y ∈ A ++ B -> nx' y = nx y) ->
  seg nx' h (A ++ p :: x :: B) e.
Proof.
  intros (m & HA & HB)%seg_app Hnd Hx Hx0 Ep Ex Ho. apply seg_app. exists m.
  split; [eapply seg_ext; [|done]; set_solver|]. cbn in *. destruct HB as (-> & ? & HB).
  rewrite Ep, Ex. split_and!; try done. eapply seg_ext; [|done]. set_solver.
Qed.

(** Unlinking the object [x] behind the member [p]. *)
Lemma seg_unlink nx nx' h A p x B e :
  seg nx h (A ++ p :: x :: B) e -> nx' p = nx x ->
  (forall y, y ∈ A ++ B -> nx' y = nx y) -> seg nx' h (A ++ p :: B) e.
Proof.
  intros (m & HA & HB)%seg_app Ep Ho. apply seg_app. exists m.
  split; [eapply seg_ext; [|done]; set_solver|]. cbn in *.
  destruct HB as (-> & ? & Hx & ? & HB). rewrite Ep. split_and!; try done.
  rewrite <-Hx in HB. eapply seg_ext; [|by rewrite Hx in HB]. set_solver.
Qed.

(** Appending a new object [x] at the end. *)
Lemma chain_snoc nx nx' h A p x :
  chain nx h (A ++ [p]) -> x <> null -> nx' p = x -> nx' x = null ->
  (forall y, y ∈ A -> nx' y = nx y) -> chain nx' h (A ++ [p; x]).
Proof.
  intros (m & HA & HB)%seg_app Hx Ep Ex Ho. apply seg_app. exists m.
  split; [eapply seg_ext; [|done]; set_solver|]. cbn in *. rewrite Ep, Ex. naive_solver.
Qed.

(** Inserting and removing at any place, in one statement: [A] is what lies before. *)
Lemma chain_insert nx nx' h h' A x B :
  chain nx h (A ++ B) -> NoDup (A ++ B) -> x ∉ A ++ B -> x <> null ->
  nx' x = hd null B ->
  (forall y, y ∈ A ++ B -> nx' y = if decide (last A = Some y) then x else nx y) ->
  h' = (if decide (A = []) then x else h) -> chain nx' h' (A ++ x :: B).
Proof.
  intros Hc Hnd Hx Hx0 Ex Ho ->. destruct (decide (A = [])) as [->|HA].
  - cbn [app] in *. eapply chain_push; [exact Hc|done|done| |].
    + rewrite Ex. destruct B as [|b B]; [by rewrite Hc|]. by destruct Hc as [-> _].
    + intros y Hy. by rewrite Ho.
  - destruct (last A) as [p|] eqn:El; [|by apply last_None in El]. apply last_Some in El as [A' ->].
    rewrite <-app_assoc in *. cbn [app] in *.
    assert (Hp : p ∉ A' ++ B).
    { assert (Hperm : A' ++ p :: B ≡ₚ p :: A' ++ B) by solve_Permutation. rewrite Hperm in Hnd.
      by apply NoDup_cons in Hnd as [? _]. }
    eapply (seg_link nx); [exact Hc|done|done|done| | |].
    + rewrite Ho, decide_True by (done || set_solver). done.
    + rewrite Ex. apply chain_from in Hc as (_ & _ & Hc). destruct B as [|b B]; [done|]. by destruct Hc.
    + intros y Hy. rewrite Ho by set_solver. rewrite decide_False; [done|]. intros [= ->]. done.
Qed.

Lemma chain_remove nx nx' h h' A x B :
  chain nx h (A ++ x :: B) -> NoDup (A ++ B) ->
  (forall y, y ∈ A ++ B -> nx' y = if decide (last A = Some y) then hd null B else nx y) ->
  h' = (if decide (A = []) then hd null B else h) -> chain nx' h' (A ++ B).
Proof.
  intros Hc Hnd Ho ->. 
  assert (Hx : nx x = hd null B).
  { apply chain_from in Hc as (_ & _ & Hc). destruct B as [|b B]; [done|]. by destruct Hc. }
  destruct (decide (A = [])) as [->|HA].
  - cbn [app] in *. destruct Hc as (_ & _ & Hc). rewrite <-Hx. eapply seg_ext; [|exact Hc].
    intros y Hy. by rewrite Ho.
  - destruct (last A) as [p|] eqn:El; [|by apply last_None in El]. apply last_Some in El as [A' ->].
    rewrite <-!app_assoc in *. cbn [app] in *.
    assert (Hp : p ∉ A' ++ B).
    { assert (Hperm : A' ++ p :: B ≡ₚ p :: A' ++ B) by solve_Permutation. rewrite Hperm in Hnd.
      by apply NoDup_cons in Hnd as [? _]. }
    eapply (seg_unlink nx); [exact Hc| |].
    + rewrite Ho, decide_True by (done || set_solver). done.
    + intros y Hy. rewrite Ho by set_solver. rewrite decide_False; [done|]. intros [= ->]. done.
Qed.

End Chain.

(** The last element of a list, with a default. *)
Definition lastd (d : Z) (L : list Z) : Z := default d (last L).

Lemma lastd_cons d x L : lastd d (x :: L) = lastd x L.
Proof. unfold lastd. rewrite last_cons. by destruct (last L). Qed.

Lemma lastd_app d A x B : lastd d (A ++ x :: B) = lastd x B.
Proof. unfold lastd. rewrite last_app, last_cons. by destruct (last B). Qed.

Lemma lastd_elem d L : L <> [] -> lastd d L ∈ L.
Proof.
  unfold lastd. destruct (last L) eqn:E; [|by apply last_None in E].
  intros _. cbn. by apply last_Some_elem_of.
Qed.

Lemma lastd_cases d L : (L = [] /\ lastd d L = d) \/ (exists A p, L = A ++ [p] /\ lastd d L = p).
Proof.
  destruct (last L) eqn:E; [right|left].
  - apply last_Some in E as [A ->]. exists A, z. split; [done|]. unfold lastd. by rewrite last_snoc.
  - apply last_None in E as ->. done.
Qed.

(** ** Doubly linked lists *)
Section Dlist.
Context (null : Z).
Implicit Types (nx pv : Z -> Z) (A B L : list Z).

Definition dlist nx pv (f l : Z) L : Prop := chain null nx f L /\ chain null pv l (reverse L).

Lemma hd_reverse A : hd null (reverse A) = lastd null A.
Proof.
  destruct (lastd_cases null A) as [[-> ->]|(B & p & -> & ->)]; [done|]. by rewrite reverse_snoc.
Qed.

Lemma last_reverse_head A y : last (reverse A) = Some y <-> head A = Some y.
Proof. destruct A as [|x A]; [done|]. by rewrite reverse_cons, last_snoc. Qed.

Lemma chain_next nx h A x B : chain null nx h (A ++ x :: B) -> nx x = hd null B.
Proof. intros (_ & _ & Hc)%chain_from. destruct B as [|b B]; [done|]. by destruct Hc. Qed.

Lemma dlist_next nx pv f l A x B : dlist nx pv f l (A ++ x :: B) ->
  nx x = hd null B /\ pv x = lastd null A.
Proof.
  intros [H1 H2]. split; [by eapply chain_next|]. rewrite reverse_app, reverse_cons, <-app_assoc in H2.
  rewrite (chain_next _ _ _ _ _ H2). by apply hd_reverse.
Qed.

Lemma dlist_first nx pv f l L : dlist nx pv f l L -> f = hd null L /\ l = lastd null L.
Proof.
  intros [H1 H2]. rewrite <-hd_reverse. split.
  - destruct L; [done|by destruct H1].
  - destruct (reverse L); [done|by destruct H2].
Qed.

Lemma dlist_ext nx nx' pv pv' f l L : (forall x, x ∈ L -> nx' x = nx x /\ pv' x = pv x) ->
  dlist nx pv f l L -> dlist nx' pv' f l L.
Proof.
  intros Hx [H1 H2]. split; (eapply seg_ext; [|done]); intros x Hin.
  - by apply Hx.
  - apply Hx. by rewrite elem_of_reverse in Hin.
Qed.

Lemma dlist_insert nx pv nx' pv' f l f' l' A x B :
  dlist nx pv f l (A ++ B) -> NoDup (A ++ B) -> x ∉ A ++ B -> x <> null ->
  nx' x = hd null B -> pv' x = lastd null A ->
  (forall y, y ∈ A ++ B -> nx' y = if decide (last A = Some y) then x else nx y) ->
  (forall y, y ∈ A ++ B -> pv' y = if decide (head B = Some y) then x else pv y) ->
  f' = (if decide (A = []) then x else f) -> l' = (if decide (B = []) then x else l) ->
  dlist nx' pv' f' l' (A ++ x :: B).
Proof.
  intros [H1 H2] Hnd Hx Hx0 En Ep Hn Hp Ef El. split.
  - by eapply chain_insert.
  - rewrite reverse_app, reverse_cons, <-app_assoc. cbn [app].
    eapply (chain_insert null pv pv' l).
    + by rewrite <-reverse_app.
    + rewrite <-reverse_app. by rewrite reverse_Permutation.
    + rewrite <-reverse_app. by rewrite elem_of_reverse.
    + done.
    + by rewrite hd_reverse.
    + intros y Hy. rewrite <-reverse_app, elem_of_reverse in Hy. rewrite (Hp y Hy).
      destruct (decide (head B = Some y)) as [E|E].
      * rewrite decide_True; [done|]. by apply last_reverse_head.
      * rewrite decide_False; [done|]. by intros ?%last_reverse_head.
    + rewrite El. destruct B as [|b B]; [done|]. rewrite !decide_False; [done| |done].
      rewrite reverse_cons. by destruct (reverse B).
Qed.

Lemma dlist_remove nx pv nx' pv' f l f' l' A x B :
  dlist nx pv f l (A ++ x :: B) -> NoDup (A ++ B) ->
  (forall y, y ∈ A ++ B -> nx' y = if decide (last A = Some y) then hd null B else nx y) ->
  (forall y, y ∈ A ++ B -> pv' y = if decide (head B = Some y) then lastd null A else pv y) ->
  f' = (if decide (A = []) then hd null B else f) -> l' = (if decide (B = []) then lastd null A else l) ->
  dlist nx' pv' f' l' (A ++ B).
Proof.
  intros [H1 H2] Hnd Hn Hp Ef El. split.
  - by eapply chain_remove.
  - rewrite reverse_app, reverse_cons, <-app_assoc in H2. cbn [app] in H2. rewrite reverse_app.
    eapply (chain_remove null pv pv' l); [exact H2| | |].
    + rewrite <-reverse_app. by rewrite reverse_Permutation.
    + intros y Hy. rewrite <-reverse_app, elem_of_reverse in Hy. rewrite (Hp y Hy), hd_reverse.
      destruct (decide (head B = Some y)) as [E|E].
      * rewrite decide_True; [done|]. by apply last_reverse_head.
      * rewrite decide_False; [done|]. by intros ?%last_reverse_head.
    + rewrite El, hd_reverse. destruct B as [|b B]; [done|]. rewrite !decide_False; [done| |done].
      rewrite reverse_cons. by destruct (reverse B).
Qed.

End Dlist.

(** ** Sorted lists cut at a key *)
Section Cut.
Context {A : Type} (f : A -> Z).

Definition below (k : Z) (L : list A) : list A := filter (fun x => f x <= k) L.
Definition above (k : Z) (L : list A) : list A := filter (fun x => ~ f x <= k) L.

Definition sorted_by (L : list A) : Prop := StronglySorted (fun x y => f x <= f y) L.

Lemma above_all k L : Forall (fun x => k < f x) L -> below k L = [] /\ above k L = L.
Proof.
  induction 1 as [|x L Hx HL [IH1 IH2]]; [done|]. unfold below, above in *.
  rewrite !filter_cons. rewrite decide_False, decide_True by lia. by rewrite IH1, IH2.
Qed.

Lemma sorted_cut k L : sorted_by L -> L = below k L ++ above k L.
Proof.
  induction 1 as [|x L HL IH Hx]; [done|]. unfold below, above in *. rewrite !filter_cons.
  destruct (decide (f x <= k)).
  - rewrite (decide_False (P := ~ f x <= k)) by tauto. cbn. by f_equal.
  - rewrite (decide_True (P := ~ f x <= k)) by done.
    destruct (above_all k L) as [E1 E2]; [eapply Forall_impl; [exact Hx|cbn; lia]|].
    unfold below, above in *. by rewrite E1, E2.
Qed.

Lemma below_spec k L x : x ∈ below k L <-> f x <= k /\ x ∈ L.
Proof. unfold below, above. by rewrite list_elem_of_filter. Qed.
Lemma above_spec k L x : x ∈ above k L <-> ~ f x <= k /\ x ∈ L.
Proof. unfold below, above. by rewrite list_elem_of_filter. Qed.

(** Insertion behind all elements that are not greater. *)
Definition insert_by (k : Z) (x : A) (L : list A) : list A := below k L ++ x :: above k L.

Lemma sorted_insert_by x L : sorted_by L -> sorted_by (insert_by (f x) x L).
Proof.
  intros HL. unfold insert_by, sorted_by.
  rewrite (sorted_cut (f x) L HL) in HL.
  revert HL. generalize (fun y => proj1 (below_spec (f x) L y)). 
  generalize (fun y => proj1 (above_spec (f x) L y)).
  generalize (below (f x) L), (above (f x) L). intros P S HS HP.
  induction P as [|y P IH]; cbn; intros HL.
  - constructor; [done|]. apply Forall_forall. intros y Hy%HS. lia.
  - apply StronglySorted_inv in HL as [HL Hy]. constructor.
    + apply IH; [set_solver|done].
    + rewrite Forall_app, Forall_cons in *. destruct Hy as [? ?]. split_and!; [done| |done].
      apply HP. set_solver.
Qed.

Lemma elem_of_insert_by k x L y : y ∈ insert_by k x L <-> y = x \/ y ∈ L.
Proof.
  unfold insert_by. rewrite elem_of_app, elem_of_cons, below_spec, above_spec.
  destruct (decide (f y <= k)); naive_solver.
Qed.

Lemma insert_by_Permutation k x L : insert_by k x L ≡ₚ x :: L.
Proof.
  unfold insert_by. rewrite <-Permutation_middle. f_equiv.
  unfold below, above. induction L as [|y L IH]; [done|]. rewrite !filter_cons.
  destruct (decide (f y <= k)).
  - rewrite (decide_False (P := ~ f y <= k)) by tauto. cbn. by f_equiv.
  - rewrite (decide_True (P := ~ f y <= k)) by done. rewrite <-Permutation_middle. by f_equiv.
Qed.

Lemma sorted_by_ext (g : A -> Z) d L :
  (forall x, x ∈ L -> g x = f x - d) -> sorted_by L ->
  StronglySorted (fun x y => g x <= g y) L.
Proof.
  intros Hg HL. induction HL as [|x L HL IH Hx]; constructor.
  - apply IH. set_solver.
  - rewrite Forall_forall in *. intros y Hy. rewrite !Hg by set_solver. specialize (Hx y Hy). lia.
Qed.
End Cut.

Lemma sublist_insert_both {A} (x : A) L1 L2 M1 M2 :
  L1 `sublist_of` M1 -> L2 `sublist_of` M2 -> L1 ++ x :: L2 `sublist_of` M1 ++ x :: M2.
Proof. intros. apply sublist_app; [done|]. by constructor. Qed.

Lemma sublist_insert_right {A} (x : A) L1 L2 M1 M2 :
  L1 `sublist_of` M1 -> L2 `sublist_of` M2 -> L1 ++ L2 `sublist_of` M1 ++ x :: M2.
Proof. intros. apply sublist_app; [done|]. by constructor. Qed.

Lemma sublist_elem {A} (L L' : list A) x : L `sublist_of` L' -> x ∈ L -> x ∈ L'.
Proof. intros H Hx. eapply elem_of_submseteq; [exact Hx|by apply sublist_submseteq]. Qed.

Lemma StronglySorted_sublist {A} (R : A -> A -> Prop) L L' :
  L `sublist_of` L' -> StronglySorted R L' -> StronglySorted R L.
Proof.
  induction 1 as [|x L L' Hsub IH|x L L' Hsub IH]; intros HS; [done|..];
    apply StronglySorted_inv in HS as [HS Hx]; [|auto].
  constructor; [auto|]. rewrite Forall_forall in *. eauto using sublist_elem.
Qed.

Lemma filter_sublist {A} (P : A -> Prop) `{forall x, Decision (P x)} (L L' : list A) :
  L `sublist_of` L' -> filter P L `sublist_of` filter P L'.
Proof.
  induction 1 as [|x L L' _ IH|x L L' _ IH]; [done|..]; rewrite !filter_cons;
    case_decide; auto using sublist_skip, sublist_cons.
Qed.

Lemma filter_ext_in {A} (P Q : A -> Prop) `{forall x, Decision (P x)} `{forall x, Decision (Q x)} (L : list A) :
  (forall x, x ∈ L -> (P x <-> Q x)) -> filter P L = filter Q L.
Proof.
  induction L as [|x L IH]; intros HPQ; [done|]. rewrite !filter_cons, IH by set_solver.
  assert (P x <-> Q x) by set_solver. repeat case_decide; tauto.
Qed.

Lemma insert_by_ext {A} (f g : A -> Z) k x L :
  (forall y, y ∈ L -> f y = g y) -> insert_by f k x L = insert_by g k x L.
Proof.
  intros H. unfold insert_by, below, above.
  f_equal; [|f_equal]; apply filter_ext_in; intros y Hy; by rewrite H.
Qed.
