(* ===== verification/Memif.v ===== *)
(** * Shared memory layout of the fast path ([tas/include/tas_memif.h])

    The flow state registers, the flow hash table entries and the constants the
    fast path uses.  Every field is a [Z] of the width the header gives it; the
    operations of the other files wrap the results of their arithmetic. *)
From S2P Require Import Prelude.

(** Flow state registers, [struct flextcp_pl_flowst].  The spin lock has no
    field: a handler holds it from its first to its last access, so a handler is
    one atomic step on its flow. *)
Record flowst : Type := mk_flowst {
  (* read-only fields *)
  fs_opaque : Z;
  fs_rx_base_sp : Z;
  fs_tx_base : Z;
  fs_rx_len : Z;
  fs_tx_len : Z;
  fs_local_ip : Z;
  fs_remote_ip : Z;
  fs_local_port : Z;
  fs_remote_port : Z;
  fs_remote_mac : Z;
  fs_db_id : Z;
  fs_flow_group : Z;
  fs_bump_seq : Z;
  (* read-write fields *)
  fs_rx_avail : Z;
  fs_rx_next_pos : Z;
  fs_rx_next_seq : Z;
  fs_rx_remote_avail : Z;
  fs_rx_dupack_cnt : Z;
  fs_rx_ooo_start : Z;
  fs_rx_ooo_len : Z;
  fs_tx_avail : Z;
  fs_tx_sent : Z;
  fs_tx_next_pos : Z;
  fs_tx_next_seq : Z;
  fs_tx_next_ts : Z;
  fs_tx_rate : Z;
  fs_cnt_tx_drops : Z;
  fs_cnt_rx_acks : Z;
  fs_cnt_rx_ack_bytes : Z;
  fs_cnt_rx_ecn_bytes : Z;
  fs_rtt_est : Z
}.

#[export] Instance eta_flowst : Eta flowst := fun r =>
  mk_flowst (fs_opaque r) (fs_rx_base_sp r) (fs_tx_base r) (fs_rx_len r) (fs_tx_len r)
    (fs_local_ip r) (fs_remote_ip r) (fs_local_port r) (fs_remote_port r)
    (fs_remote_mac r) (fs_db_id r) (fs_flow_group r) (fs_bump_seq r) (fs_rx_avail r)
    (fs_rx_next_pos r) (fs_rx_next_seq r) (fs_rx_remote_avail r) (fs_rx_dupack_cnt r)
    (fs_rx_ooo_start r) (fs_rx_ooo_len r) (fs_tx_avail r) (fs_tx_sent r)
    (fs_tx_next_pos r) (fs_tx_next_seq r) (fs_tx_next_ts r) (fs_tx_rate r)
    (fs_cnt_tx_drops r) (fs_cnt_rx_acks r) (fs_cnt_rx_ack_bytes r)
    (fs_cnt_rx_ecn_bytes r) (fs_rtt_est r).

Definition FLEXNIC_PL_FLOWST_NUM : Z := 128 * 1024.
Definition FLEXNIC_PL_FLOWHT_ENTRIES : Z := FLEXNIC_PL_FLOWST_NUM * 2.
Definition FLEXNIC_PL_FLOWHT_NBSZ : nat := 4.

Definition FLEXNIC_PL_FLOWST_SLOWPATH : Z := 1.
Definition FLEXNIC_PL_FLOWST_ECN : Z := 8.
Definition FLEXNIC_PL_FLOWST_TXFIN : Z := 16.
Definition FLEXNIC_PL_FLOWST_RXFIN : Z := 32.
(** [~63ULL] *)
Definition FLEXNIC_PL_FLOWST_RX_MASK : Z := 18446744073709551552.

Definition FLEXNIC_PL_FLOWHTE_VALID : Z := 2147483648.
Definition FLEXNIC_PL_FLOWHTE_POSSHIFT : Z := 29.

(** Flow lookup table entry, [struct flextcp_pl_flowhte]. *)
Record flowhte : Type := mk_flowhte {
  fe_flow_id : Z;
  fe_flow_hash : Z
}.

(** Application receive queue entry, [struct flextcp_pl_arx]. *)
Record arx : Type := mk_arx {
  arx_type : Z;
  arx_opaque : Z;
  arx_rx_bump : Z;
  arx_rx_pos : Z;
  arx_tx_bump : Z;
  arx_flags : Z
}.
Definition FLEXTCP_PL_ARX_CONNUPDATE : Z := 1.
Definition FLEXTCP_PL_ARX_FLRXDONE : Z := 1.

(** Application transmit queue entry, [struct flextcp_pl_atx]. *)
Record atx : Type := mk_atx {
  atx_type : Z;
  atx_rx_bump : Z;
  atx_tx_bump : Z;
  atx_flow_id : Z;
  atx_bump_seq : Z;
  atx_flags : Z
}.
#[export] Instance eta_atx : Eta atx := fun r =>
  mk_atx (atx_type r) (atx_rx_bump r) (atx_tx_bump r) (atx_flow_id r) (atx_bump_seq r) (atx_flags r).
Definition FLEXTCP_PL_ATX_CONNUPDATE : Z := 1.
Definition FLEXTCP_PL_ATX_FLTXDONE : Z := 1.

(** The value of every field fits the C type of its declaration. *)
Record flowst_typed (fs : flowst) : Prop := {
  ty_rx_base_sp : in64 (fs_rx_base_sp fs);
  ty_rx_len : in32 (fs_rx_len fs);
  ty_tx_len : in32 (fs_tx_len fs);
  ty_bump_seq : in16 (fs_bump_seq fs);
  ty_rx_avail : in32 (fs_rx_avail fs);
  ty_rx_next_pos : in32 (fs_rx_next_pos fs);
  ty_rx_next_seq : in32 (fs_rx_next_seq fs);
  ty_rx_remote_avail : in32 (fs_rx_remote_avail fs);
  ty_rx_dupack_cnt : in32 (fs_rx_dupack_cnt fs);
  ty_rx_ooo_start : in32 (fs_rx_ooo_start fs);
  ty_rx_ooo_len : in32 (fs_rx_ooo_len fs);
  ty_tx_avail : in32 (fs_tx_avail fs);
  ty_tx_sent : in32 (fs_tx_sent fs);
  ty_tx_next_pos : in32 (fs_tx_next_pos fs);
  ty_tx_next_seq : in32 (fs_tx_next_seq fs);
  ty_rtt_est : in32 (fs_rtt_est fs)
}.
