(* ===== verification/Packet.v ===== *)
(** * Packets and network buffers ([include/packet_defs.h], [tas/fast/network.h])

    The TCP packet a handler reads and rewrites in place.  Multi-byte numbers the code
    converts with [f_beui16]/[f_beui32] before it computes with them (EtherType, IP
    length, sequence numbers, window, flags) are kept in host order; addresses and
    ports, which the code only copies and compares, are kept as they are stored. *)
From S2P Require Import Prelude.

Module Packet.

Definition ETH_TYPE_IP : Z := 2048.
Definition ETH_TYPE_ARP : Z := 2054.
Definition IP_PROTO_TCP : Z := 6.
Definition IP_ECN_NONE : Z := 0.
Definition IP_ECN_ECT0 : Z := 2.
Definition IP_ECN_CE : Z := 3.
Definition TCP_FIN : Z := 1.
Definition TCP_SYN : Z := 2.
Definition TCP_RST : Z := 4.
Definition TCP_PSH : Z := 8.
Definition TCP_ACK : Z := 16.
Definition TCP_ECE : Z := 64.
Definition TCP_CWR : Z := 128.
Definition TCP_FLAGS : Z := 511.

(** Sizes of the packed structures. *)
Definition ETH_HDR_SIZE : Z := 14.
Definition IP_HDR_SIZE : Z := 20.
Definition TCP_HDR_SIZE : Z := 20.
Definition PKT_TCP_SIZE : Z := 54.

(** [struct pkt_tcp] with the bytes behind it: [p_body i] is the byte at offset
    [sizeof(struct pkt_tcp) + i]. *)
Record pkt_tcp : Type := mk_pkt {
  eth_dest : Z; eth_src : Z; eth_type : Z;
  ip_v : Z; ip_hl : Z; ip_tos : Z; ip_len : Z; ip_id : Z; ip_offset : Z; ip_ttl : Z;
  ip_proto : Z; ip_chksum : Z; ip_src : Z; ip_dest : Z;
  tcp_src : Z; tcp_dest : Z; tcp_seqno : Z; tcp_ackno : Z;
  tcp_hdrlen : Z; tcp_rsvd_flags : Z;
  tcp_wnd : Z; tcp_chksum : Z; tcp_urgp : Z;
  p_body : Z -> Z
}.
#[export] Instance eta_pkt : Eta pkt_tcp := fun r =>
  mk_pkt (eth_dest r) (eth_src r) (eth_type r) (ip_v r) (ip_hl r) (ip_tos r) (ip_len r) (ip_id r)
    (ip_offset r) (ip_ttl r) (ip_proto r) (ip_chksum r) (ip_src r) (ip_dest r) (tcp_src r)
    (tcp_dest r) (tcp_seqno r) (tcp_ackno r) (tcp_hdrlen r) (tcp_rsvd_flags r) (tcp_wnd r)
    (tcp_chksum r) (tcp_urgp r) (p_body r).

Definition TCPH_FLAGS (p : pkt_tcp) : Z := Z.land (tcp_rsvd_flags p) TCP_FLAGS.
Definition IPH_ECN (p : pkt_tcp) : Z := Z.land (ip_tos p) 3.

(** Bytes of a big-endian 32 bit number, and back. *)
Definition be32_byte (v i : Z) : Z := (v / 2 ^ (8 * (3 - i))) mod 256.
Definition be32 (b : Z -> Z) (off : Z) : Z :=
  b off * 16777216 + b (off + 1) * 65536 + b (off + 2) * 256 + b (off + 3).
Definition put_be32 (b : Z -> Z) (off v : Z) : Z -> Z := fun i =>
  if (off <=? i) && (i <? off + 4) then be32_byte v (i - off) else b i.

Lemma be32_put b off v : in32 v -> be32 (put_be32 b off v) off = v.
Proof.
  intros Hv. unfold be32, put_be32, be32_byte.
  rewrite !(proj2 (Z.leb_le _ _)), !(proj2 (Z.ltb_lt _ _)) by lia. cbn [andb].
  replace (off - off) with 0 by lia. replace (off + 1 - off) with 1 by lia.
  replace (off + 2 - off) with 2 by lia. replace (off + 3 - off) with 3 by lia.
  cbn [Z.sub Z.mul Z.pow Z.pow_pos Z.add Z.opp Pos.iter Z.pos_sub Pos.mul].
  change (2 ^ (8 * (3 - 0))) with 16777216. change (2 ^ (8 * (3 - 1))) with 65536.
  change (2 ^ (8 * (3 - 2))) with 256. change (2 ^ (8 * (3 - 3))) with 1.
  Z.div_mod_to_equations. lia.
Qed.

Lemma be32_put_other b off off' v : off + 4 <= off' \/ off' + 4 <= off ->
  be32 (put_be32 b off v) off' = be32 b off'.
Proof.
  intros H. unfold be32, put_be32.
  repeat match goal with |- context [(off <=? ?x) && (?x <? off + 4)] =>
    replace ((off <=? x) && (x <? off + 4)) with false by
      (symmetry; apply andb_false_iff; rewrite Z.leb_gt, Z.ltb_ge; lia) end.
  done.
Qed.

(** Network buffer: offset and length of the data, and the packet at the offset. *)
Record nbuf : Type := mk_nbuf { nb_off : Z; nb_len : Z; nb_pkt : pkt_tcp }.
#[export] Instance eta_nbuf : Eta nbuf := fun r => mk_nbuf (nb_off r) (nb_len r) (nb_pkt r).

Definition bswap16 (x : Z) : Z := Z.lor (Z.shiftl (Z.land x 255) 8) (Z.land (Z.shiftr x 8) 255).

(** [network_ip_phdr_xsum]. *)
Definition network_ip_phdr_xsum (src dst proto l3_paylen : Z) : Z :=
  let sum := u32 (Z.land src 65535 + Z.land (Z.shiftr src 16) 65535
    + Z.land dst 65535 + Z.land (Z.shiftr dst 16) 65535
    + Z.shiftl proto 8 + bswap16 l3_paylen) in
  let sum := u32 (Z.shiftr (Z.land sum 4294901760) 16 + Z.land sum 65535) in
  let sum := u32 (Z.shiftr (Z.land sum 4294901760) 16 + Z.land sum 65535) in
  u16 sum.

End Packet.
