(* ===== verification/TcpCommon.v ===== *)
(** * Sequence number arithmetic of the fast path ([tas/fast/tcp_common.h])

    Which part of a received segment fits the receive window, which
    acknowledgements are valid, and how much may be sent, all in 32 bit wrapping
    sequence numbers. *)
From S2P Require Import Prelude Memif.

Module TcpCommon.

(** [tcp_valid_rxseq]: [None] is the return value -1, [Some (trim_start, trim_end)]
    the return value 0 with its out parameters. *)
Definition tcp_valid_rxseq (fs : flowst) (pkt_seq pkt_bytes : Z) : option (Z * Z) :=
  let pkt_bytes := u16 pkt_bytes in
  let pseq_a := pkt_seq in
  let pseq_b := u32 (pkt_seq + pkt_bytes) in
  let sseq_a := fs_rx_next_seq fs in
  let sseq_b := u32 (fs_rx_next_seq fs + fs_rx_avail fs) in
  let trim_end_b := u16 (if sseq_b <? pseq_b then u32 (pseq_b - sseq_b) else 0) in
  if (pseq_a <=? pseq_b) && (sseq_a <=? sseq_b) then
    if pseq_b <? sseq_a then None
    else if sseq_a <? pseq_a then None
    else Some (u16 (u32 (sseq_a - pseq_a)), trim_end_b)
  else if (pseq_a <=? pseq_b) && (sseq_b <? sseq_a) then
    if (sseq_b <=? pseq_a) && (pseq_b <? sseq_a) then None
    else if (sseq_a <? pseq_a) || (pseq_a <? sseq_b) then None
    else Some (u16 (u32 (sseq_a - pseq_a)), 0)
  else if (pseq_b <? pseq_a) && (sseq_a <=? sseq_b) then
    if pseq_b <? sseq_a then None
    else if sseq_a <? pseq_a then None
    else Some (u16 (u32 (sseq_a - pseq_a)), trim_end_b)
  else
    if sseq_a <? pseq_a then None
    else Some (u16 (u32 (sseq_a - pseq_a)), trim_end_b).

(** [tcp_trim_rxbuf], with the same results. *)
Definition tcp_trim_rxbuf (fs : flowst) (pkt_seq pkt_bytes : Z) : option (Z * Z) :=
  let pkt_bytes := u16 pkt_bytes in
  let pseq_a := pkt_seq in
  let pseq_b := u32 (pkt_seq + pkt_bytes) in
  let sseq_a := fs_rx_next_seq fs in
  let sseq_b := u32 (fs_rx_next_seq fs + fs_rx_avail fs) in
  let start (c : bool) := u16 (if c then u32 (sseq_a - pseq_a) else 0) in
  let end_ (c : bool) := u16 (if c then u32 (pseq_b - sseq_b) else 0) in
  if (pseq_a <=? pseq_b) && (sseq_a <=? sseq_b) then
    if pseq_b <? sseq_a then None
    else if sseq_b <? pseq_a then None
    else Some (start (pseq_a <? sseq_a), end_ (sseq_b <? pseq_b))
  else if (pseq_a <=? pseq_b) && (sseq_b <? sseq_a) then
    if (sseq_b <? pseq_a) && (pseq_b <? sseq_a) then None
    else Some (start ((sseq_b <? pseq_a) && (pseq_a <? sseq_a)),
               end_ ((sseq_b <=? pseq_b) && (pseq_b <? sseq_a)))
  else if (pseq_b <? pseq_a) && (sseq_a <=? sseq_b) then
    if (sseq_b <? pseq_a) && (pseq_b <? sseq_a) then None
    else Some (start ((sseq_a <=? pseq_b) || (pseq_a <? sseq_a)),
               end_ ((sseq_b <? pseq_b) || (pseq_a <=? sseq_a)))
  else
    Some (start (pseq_a <? sseq_a), end_ (sseq_b <? pseq_b)).

(** [tcp_valid_rxack], compiled with [ALLOW_FUTURE_ACKS]: [Some bump] when the
    acknowledgement is valid. *)
Definition tcp_valid_rxack (fs : flowst) (ack : Z) : option Z :=
  let fsack_a := u32 (fs_tx_next_seq fs - fs_tx_sent fs) in
  let fsack_b := u32 (fs_tx_next_seq fs + fs_tx_avail fs) in
  if fsack_a <=? fsack_b then
    if (ack <? fsack_a) || (fsack_b <? ack) then None
    else Some (u32 (ack - fsack_a))
  else
    if (ack <? fsack_a) && (fsack_b <? ack) then None
    else Some (u32 (ack - fsack_a)).

(** [tcp_txavail]; [pavail] is the optional override of [tx_avail]. *)
Definition tcp_txavail (fs : flowst) (pavail : option Z) : Z :=
  let buf_avail := match pavail with Some a => a | None => fs_tx_avail fs end in
  let fc_avail := u32 (fs_rx_remote_avail fs - fs_tx_sent fs) in
  if fc_avail <? buf_avail then fc_avail else buf_avail.

(** ** TCP options

    [tcp_parse_options]: [hdrlen] is [TCPH_HDRLEN] of the packet, [len] the length of
    the buffer and [opt] the bytes behind the fixed headers.  The result [Done None]
    is the return value -1 and [Done (Some ts)] the return value 0 with the offset
    of the timestamp option, if one was seen.  [PKT_TCP_SIZE] is [sizeof(struct
    pkt_tcp)] and [fuel] bounds the option loop. *)
Definition PKT_TCP_SIZE : Z := 54.
Definition TCP_OPT_END_OF_OPTIONS : Z := 0.
Definition TCP_OPT_NO_OP : Z := 1.
Definition TCP_OPT_MSS : Z := 2.
Definition TCP_OPT_TIMESTAMP : Z := 8.
Definition TCP_TS_OPT_SIZE : Z := 10.

Fixpoint parse_options_loop (fuel : nat) (opt : Z -> Z) (opts_len off : Z)
    (ts : option Z) : outcome (option (option Z)) :=
  match fuel with
  | O => NoFuel
  | S fuel =>
    if off <? opts_len then
      let opt_kind := opt off in
      let opt_avail := u8 (opts_len - off) in
      if opt_kind =? TCP_OPT_END_OF_OPTIONS then Done (Some ts)
      else if opt_kind =? TCP_OPT_NO_OP then
        parse_options_loop fuel opt opts_len (u16 (off + 1)) ts
      else if opt_avail <? 2 then Done None
      else
        let opt_len := opt (off + 1) in
        if opt_kind =? TCP_OPT_TIMESTAMP then
          if negb (opt_len =? TCP_TS_OPT_SIZE) then Done None
          else parse_options_loop fuel opt opts_len (u16 (off + opt_len)) (Some off)
        else parse_options_loop fuel opt opts_len (u16 (off + opt_len)) ts
    else Done (Some ts)
  end.

Definition tcp_parse_options (fuel : nat) (hdrlen len : Z) (opt : Z -> Z)
    : outcome (option (option Z)) :=
  let opts_len := u16 (hdrlen * 4 - 20) in
  if (hdrlen <? 5) || (u64 (len - PKT_TCP_SIZE) <? opts_len) then Done None
  else parse_options_loop fuel opt opts_len 0 None.

(** ** Specifications *)

(** Position of a sequence number relative to the next expected one, in
    [-2^31 .. 2^31). *)
Definition seq_rel (seq next : Z) : Z := s32 (seq - next).

(** What [tcp_trim_rxbuf] promises: a segment at relative position [rel] with
    [bytes] bytes is cut down to its overlap with the window [0 .. avail], and
    refused when they do not even touch. *)
Definition trim_spec (rel bytes avail : Z) : option (Z * Z) :=
  if (rel + bytes <? 0) || (avail <? rel) then None
  else Some (Z.max 0 (- rel), Z.max 0 (rel + bytes - avail)).

(** The segments for which the function does not cut the tail: the segment wraps
    around the end of the sequence space, the window ends before it, and the
    segment starts strictly inside the window. *)
Definition trim_gap (seq bytes next avail : Z) : bool :=
  (4294967296 <=? seq + bytes) && (next + avail <? 4294967296)
  && (next <? seq) && (seq <=? next + avail).

Definition window_ok (fs : flowst) : Prop :=
  in32 (fs_rx_next_seq fs) /\ 0 <= fs_rx_avail fs < 1073741824.


Lemma seq_rel_cases a b : in32 a -> in32 b ->
  -2147483648 <= seq_rel a b < 2147483648 /\
  (seq_rel a b = a - b \/ seq_rel a b = a - b - 4294967296 \/ seq_rel a b = a - b + 4294967296).
Proof. intros. unfold seq_rel. wrap_lia. Qed.

Lemma trim_rxbuf_spec fs seq b :
  window_ok fs -> in32 seq -> in16 b ->
  trim_gap seq b (fs_rx_next_seq fs) (fs_rx_avail fs) = false ->
  tcp_trim_rxbuf fs seq b = trim_spec (seq_rel seq (fs_rx_next_seq fs)) b (fs_rx_avail fs).
Proof.
  intros [Hn Hav] Hseq Hb Hg.
  unfold tcp_trim_rxbuf, trim_spec, trim_gap in *. rewrite (u16_small b) by done.
  set (nxt := fs_rx_next_seq fs) in *. set (av := fs_rx_avail fs) in *.
  pose proof (u32_add_cases seq b) as Hpb. pose proof (u32_add_cases nxt av) as Hsb.
  pose proof (seq_rel_cases seq nxt Hseq Hn) as [Hr1 Hr2].
  pose proof (u32_range (seq + b)). pose proof (u32_range (nxt + av)).
  generalize dependent (u32 (nxt + av)). generalize dependent (u32 (seq + b)).
  generalize dependent (seq_rel seq nxt). intros r Hr1 Hr2 pb Hpb ? sb Hsb ?.
  specialize (Hpb ltac:(lia) ltac:(lia)). specialize (Hsb ltac:(lia) ltac:(lia)).
  split_ifs; try (f_equal; f_equal; wrap_lia).
Qed.

(** Which bytes of a segment the receive path keeps ([tcp_trim_rxbuf]).  For a
    window of less than 2^30 bytes the function returns exactly the overlap of the
    segment with the window in wrapping sequence arithmetic, except for a segment
    that starts inside a window which ends before sequence number 2^32 while the
    segment itself wraps: then nothing is cut off, although the segment sticks out of
    the window. *)
Theorem tcp_trim_rxbuf_exact fs seq b :
  window_ok fs -> in32 seq -> in16 b ->
  let rel := seq_rel seq (fs_rx_next_seq fs) in
  if trim_gap seq b (fs_rx_next_seq fs) (fs_rx_avail fs)
  then tcp_trim_rxbuf fs seq b = Some (0, 0) /\ 0 < rel <= fs_rx_avail fs
       /\ fs_rx_avail fs < rel + b
  else tcp_trim_rxbuf fs seq b = trim_spec rel b (fs_rx_avail fs).
Proof.
  intros Hw Hseq Hb rel. destruct (trim_gap _ _ _ _) eqn:Hg; [|by apply trim_rxbuf_spec].
  destruct Hw as [Hn Hav]. unfold trim_gap in Hg. breflect.
  pose proof (seq_rel_cases seq (fs_rx_next_seq fs) Hseq Hn) as [??]. subst rel.
  split; [|lia]. unfold tcp_trim_rxbuf. rewrite (u16_small b) by done.
  rewrite (u32_wrap (seq + b)) by lia. rewrite (u32_small (_ + fs_rx_avail fs)) by lia.
  split_ifs; done.
Qed.

Lemma rxack_spec fs ack :
  in32 (fs_tx_next_seq fs) -> 0 <= fs_tx_sent fs -> 0 <= fs_tx_avail fs ->
  fs_tx_sent fs + fs_tx_avail fs < 4294967296 -> in32 ack ->
  tcp_valid_rxack fs ack =
    let bump := u32 (ack - (fs_tx_next_seq fs - fs_tx_sent fs)) in
    if bump <=? fs_tx_sent fs + fs_tx_avail fs then Some bump else None.
Proof.
  intros Hn Hs Ha Hsum Hack. unfold tcp_valid_rxack. cbn zeta. rewrite u32_sub_r.
  set (n := fs_tx_next_seq fs) in *. set (s := fs_tx_sent fs) in *. set (a := fs_tx_avail fs) in *.
  assert (u32 (ack - (n - s)) = ack - u32 (n - s) \/
          u32 (ack - (n - s)) = ack - u32 (n - s) + 4294967296) by wrap_lia.
  assert (u32 (n + a) = u32 (n - s) + (s + a) \/
          u32 (n + a) = u32 (n - s) + (s + a) - 4294967296) by wrap_lia.
  pose proof (u32_range (ack - (n - s))). pose proof (u32_range (n - s)).
  pose proof (u32_range (n + a)).
  generalize dependent (u32 (ack - (n - s))). generalize dependent (u32 (n - s)).
  generalize dependent (u32 (n + a)). intros. split_ifs; done.
Qed.

(** An acknowledgement is accepted exactly when it lies between the oldest
    unacknowledged sequence number and the last byte the application has handed over,
    in wrapping arithmetic, and the number of bytes it acknowledges is returned. *)
Theorem tcp_valid_rxack_exact fs ack :
  in32 (fs_tx_next_seq fs) -> 0 <= fs_tx_sent fs -> 0 <= fs_tx_avail fs ->
  fs_tx_sent fs + fs_tx_avail fs < 4294967296 -> in32 ack ->
  forall bump,
  tcp_valid_rxack fs ack = Some bump <->
  0 <= bump <= fs_tx_sent fs + fs_tx_avail fs /\
  ack = u32 (fs_tx_next_seq fs - fs_tx_sent fs + bump).
Proof.
  intros Hn Hs Ha Hsum Hack bump. rewrite rxack_spec by done. cbn zeta.
  set (n := fs_tx_next_seq fs) in *. set (s := fs_tx_sent fs) in *. set (a := fs_tx_avail fs) in *.
  destruct (Z.leb_spec (u32 (ack - (n - s))) (s + a)); split.
  - intros [= <-]. pose proof (u32_range (ack - (n - s))). split; [lia|]. wrap_lia.
  - intros [? ->]. f_equal. rewrite u32_sub_l.
    replace (n - s + bump - (n - s)) with bump by lia. apply u32_small. lia.
  - done.
  - intros [? ->]. rewrite u32_sub_l in *.
    replace (n - s + bump - (n - s)) with bump in * by lia.
    rewrite u32_small in * by lia. lia.
Qed.

(** ** Flow control *)

Lemma txavail_le_avail fs p : tcp_txavail fs p <= default (fs_tx_avail fs) p.
Proof. unfold tcp_txavail. destruct p; cbn; split_ifs; lia. Qed.

(** The amount the sender may send ([tcp_txavail]).  As long as no more is in
    flight than the peer's window, it is the smaller of the unsent bytes and the unused
    window, so sending it stays within the window; once more is in flight than the
    window allows, the subtraction wraps and the window stops limiting the sender at
    all (for a send buffer of at most 2^31 bytes). *)
Theorem tcp_txavail_window fs :
  in32 (fs_rx_remote_avail fs) -> 0 <= fs_tx_sent fs ->
  0 <= fs_tx_avail fs -> fs_tx_sent fs + fs_tx_avail fs <= 2147483648 ->
  if fs_tx_sent fs <=? fs_rx_remote_avail fs
  then tcp_txavail fs None = Z.min (fs_tx_avail fs) (fs_rx_remote_avail fs - fs_tx_sent fs)
       /\ fs_tx_sent fs + tcp_txavail fs None <= fs_rx_remote_avail fs
  else tcp_txavail fs None = fs_tx_avail fs.
Proof.
  intros Hr Hs Ha Hsum. unfold tcp_txavail.
  destruct (Z.leb_spec (fs_tx_sent fs) (fs_rx_remote_avail fs)).
  - rewrite u32_small by lia. split_ifs; lia.
  - rewrite u32_neg by lia. split_ifs; lia.
Qed.

(** ** The option parser *)

(** With option bytes of one octet, a run that does not meet a zero-length option
    ends: the offset moves on in every round. *)
Definition zero_len_option (opt : Z -> Z) (opts_len : Z) : Prop :=
  exists off, 0 <= off < opts_len /\
    opt off <> TCP_OPT_END_OF_OPTIONS /\ opt off <> TCP_OPT_NO_OP /\
    opt off <> TCP_OPT_TIMESTAMP /\ opt (off + 1) = 0.

Definition octets (opt : Z -> Z) : Prop := forall i, in8 (opt i).

Lemma parse_loop_terminates opt opts_len :
  octets opt -> 0 <= opts_len <= 40 -> ~ zero_len_option opt opts_len ->
  forall fuel off ts, 0 <= off -> Z.max 0 (opts_len - off) < Z.of_nat fuel ->
  exists r, parse_options_loop fuel opt opts_len off ts = Done r.
Proof.
  intros Ho Hl Hz. induction fuel as [|fuel IH]; intros off ts Hoff Hf.
  - lia.
  - cbn [parse_options_loop]. destruct (Z.ltb_spec off opts_len) as [Hlt|]; [|eauto].
    pose proof (Ho off). pose proof (Ho (off + 1)) as Hlen.
    destruct (Z.eqb_spec (opt off) TCP_OPT_END_OF_OPTIONS); [eauto|].
    destruct (Z.eqb_spec (opt off) TCP_OPT_NO_OP).
    { rewrite u16_small by lia. apply IH; lia. }
    destruct (_ <? 2); [eauto|].
    destruct (Z.eqb_spec (opt off) TCP_OPT_TIMESTAMP).
    { destruct (Z.eqb_spec (opt (off + 1)) TCP_TS_OPT_SIZE) as [->|]; cbn [negb]; [|eauto].
      unfold TCP_TS_OPT_SIZE. rewrite u16_small by lia. apply IH; lia. }
    assert (opt (off + 1) <> 0) by (intros ?; apply Hz; exists off; done).
    rewrite u16_small by lia. apply IH; lia.
Qed.

(** The option parser of the fast path returns on every packet whose options
    contain no zero-length option, within one round per option byte; when an option of
    unknown kind with length zero comes first, no number of rounds is enough: the loop
    of [tcp_parse_options] does not end. *)
Theorem tcp_parse_options_termination hdrlen len opt :
  octets opt -> 5 <= hdrlen < 16 -> PKT_TCP_SIZE + (hdrlen * 4 - 20) <= len < 65536 ->
  (~ zero_len_option opt (hdrlen * 4 - 20) ->
   exists r, tcp_parse_options 41 hdrlen len opt = Done r) /\
  (2 <= hdrlen * 4 - 20 -> 2 < opt 0 -> opt 0 <> TCP_OPT_TIMESTAMP -> opt 1 = 0 ->
   forall fuel, tcp_parse_options fuel hdrlen len opt = NoFuel).
Proof.
  intros Ho Hh Hlen. unfold tcp_parse_options, PKT_TCP_SIZE in *.
  rewrite (u16_small (hdrlen * 4 - 20)), (u64_small (len - 54)) by lia.
  destruct (Z.ltb_spec hdrlen 5); [lia|]. destruct (Z.ltb_spec (len - 54) (hdrlen * 4 - 20)); [lia|].
  cbn [orb]. split.
  - intros Hz. apply parse_loop_terminates; try done; lia.
  - intros H2 Hk Hts H1. induction fuel as [|fuel IH]; [done|]. cbn [parse_options_loop].
    destruct (Z.ltb_spec 0 (hdrlen * 4 - 20)); [|lia].
    destruct (Z.eqb_spec (opt 0) TCP_OPT_END_OF_OPTIONS) as [E|]; [unfold TCP_OPT_END_OF_OPTIONS in E; lia|].
    destruct (Z.eqb_spec (opt 0) TCP_OPT_NO_OP) as [E|]; [unfold TCP_OPT_NO_OP in E; lia|].
    destruct (Z.ltb_spec (u8 (hdrlen * 4 - 20 - 0)) 2) as [E|]; [unfold u8 in E; rewrite Z.mod_small in E; lia|].
    destruct (Z.eqb_spec (opt 0) TCP_OPT_TIMESTAMP); [done|].
    change (0 + 1) with 1. rewrite H1. change (u16 (0 + 0)) with 0. exact IH.
Qed.

(** ** Concrete runs *)

Definition ex_fs (rx_next rx_avail tx_next sent avail remote : Z) : flowst :=
  mk_flowst 77 0 8192 8192 8192 167772161 167772162 80 4000 99 3 0 0
    rx_avail 4000 rx_next remote 0 0 0 avail sent 500 tx_next 0 0 0 0 0 0 0.

(** A segment of 100 bytes of which the first 40 have already arrived. *)
Lemma tcp_trim_rxbuf_exact_witness :
  tcp_trim_rxbuf (ex_fs 20 4096 0 0 0 0) 4294967276 100 = trim_spec (-40) 100 4096.
Proof.
  apply (tcp_trim_rxbuf_exact (ex_fs 20 4096 0 0 0 0) 4294967276 100); try (cbn; lia).
  split; cbn; lia.
Defined.

(** An acknowledgement of 30 bytes around the end of the sequence space. *)
Lemma tcp_valid_rxack_exact_witness : tcp_valid_rxack (ex_fs 0 4096 10 50 40 0) 4294967286 = Some 30.
Proof.
  apply (tcp_valid_rxack_exact (ex_fs 0 4096 10 50 40 0) 4294967286); try (cbn; lia).
  split; [cbn; lia|reflexivity].
Defined.

(** 100 bytes in flight and a window of 150: 50 of the 400 unsent bytes may be sent. *)
Lemma tcp_txavail_window_witness :
  tcp_txavail (ex_fs 0 4096 0 100 400 150) None = 50 /\
  100 + tcp_txavail (ex_fs 0 4096 0 100 400 150) None <= 150.
Proof. apply (tcp_txavail_window (ex_fs 0 4096 0 100 400 150)); cbn; lia. Defined.

(** A timestamp option of 12 bytes, and an unknown option of length zero. *)
Definition ex_opt (k l : Z) : Z -> Z := fun i => if i =? 0 then k else if i =? 1 then l else 1.

Lemma ex_opt_octets k l : in8 k -> in8 l -> octets (ex_opt k l).
Proof. intros Hk Hl i. unfold ex_opt. destruct (i =? 0), (i =? 1); lia. Qed.

Lemma tcp_parse_options_termination_witness :
  (exists r, tcp_parse_options 41 8 66 (ex_opt 8 10) = Done r) /\
  forall fuel, tcp_parse_options fuel 8 66 (ex_opt 253 0) = NoFuel.
Proof.
  split.
  - apply (tcp_parse_options_termination 8 66 (ex_opt 8 10)); try (unfold PKT_TCP_SIZE; lia);
      [apply ex_opt_octets; lia|]. unfold zero_len_option, ex_opt.
    intros (off & ? & H1 & H2 & H3 & H4).
    destruct (Z.eqb_spec off 0) as [->|]; [by apply H3|]. destruct (Z.eqb_spec off 1) as [->|]; [|by apply H2].
    done.
  - refine (proj2 (tcp_parse_options_termination 8 66 (ex_opt 253 0) _ _ _) _ _ _ _);
      [apply ex_opt_octets; lia|..]; try (unfold PKT_TCP_SIZE; lia); done.
Defined.

End TcpCommon.
