(* ===== verification/Rng.v ===== *)
(** * Pseudo random numbers ([tas/lib/utils/rng.c])

    A 48 bit linear congruential generator; the state is the seed. *)
From S2P Require Import Prelude.

Module Rng.

Definition a : Z := 25214903917. (* 0x5deece66d *)
Definition c : Z := 11.
Definition m : Z := 281474976710656. (* 2^48 *)

Definition utils_rng_init (seed : Z) : Z := Z.lxor seed a mod m.

(** Returns the number and the new state. *)
Definition utils_rng_gen32 (seed : Z) : Z * Z :=
  let next := u64 (a * seed + c) mod m in
  (u32 (Z.shiftr next 16), next).

(** The wrap-around of the 64 bit multiplication does not disturb the generator. *)
Lemma gen32_state seed : snd (utils_rng_gen32 seed) = (a * seed + c) mod m.
Proof.
  cbn. unfold u64, m. apply Z.mod_mod_divide. by exists 65536.
Qed.

Lemma gen32_range seed : in32 (fst (utils_rng_gen32 seed)).
Proof. apply u32_range. Qed.

End Rng.
