(* ===== verification/Qman.v ===== *)
(** * The queue manager of the fast path ([tas/fast/qman.c])

    One queue per flow.  Queues without a rate limit wait in a FIFO list; queues with
    a limit wait in a skip list ordered by the virtual time at which they may send
    next.  This file holds the data and the operations; [QmanSpec] holds their
    specification and the proofs. *)
From S2P Require Import Prelude Rng.

Module Qman.
Import Rng.

Definition FLAG_INSKIPLIST : Z := 1.
Definition FLAG_INNOLIMITL : Z := 2.
Definition SKIPLIST_BITS : Z := 3.
Definition QMAN_SKIPLIST_LEVELS : nat := 4.
(** [-1U] *)
Definition IDXLIST_INVAL : Z := 4294967295.
Definition RNG_SEED : Z := 305419896.
Definition FLEXNIC_NUM_QMQUEUES : Z := 128 * 1024.

Definition QMAN_SET_RATE : Z := 1.
Definition QMAN_SET_MAXCHUNK : Z := 2.
Definition QMAN_SET_AVAIL : Z := 8.
Definition QMAN_ADD_AVAIL : Z := 16.

(** Queue state, [struct queue]; [q_next_idxs l] is the next pointer at level [l]. *)
Record queue : Type := mk_queue {
  q_next_idxs : nat -> Z;
  q_next_ts : Z;
  q_rate : Z;
  q_avail : Z;
  q_max_chunk : Z;
  q_flags : Z
}.
#[export] Instance eta_queue : Eta queue := fun r =>
  mk_queue (q_next_idxs r) (q_next_ts r) (q_rate r) (q_avail r) (q_max_chunk r) (q_flags r).

(** [struct qman_thread]; the array of queues is a function of the index. *)
Record qman_thread : Type := mk_qman_thread {
  queues : Z -> queue;
  head_idx : nat -> Z;
  nolimit_head_idx : Z;
  nolimit_tail_idx : Z;
  ts_real : Z;
  ts_virtual : Z;
  rng : Z;
  nolimit_first : bool
}.
#[export] Instance eta_qman_thread : Eta qman_thread := fun r =>
  mk_qman_thread (queues r) (head_idx r) (nolimit_head_idx r) (nolimit_tail_idx r)
    (ts_real r) (ts_virtual r) (rng r) (nolimit_first r).

(** [t->queues[i] = q]. *)
Definition set_queue (t : qman_thread) (i : Z) (q : queue) : qman_thread :=
  t <| queues := <[i := q]> (queues t) |>.

(** [calloc]ed queue. *)
Definition queue_zero : queue := mk_queue (fun _ => 0) 0 0 0 0 0.

(** [qman_thread_init]: [ts] is the time read by [timestamp()], [nf] the value of
    [nolimit_first], which the function leaves alone.  The seed is computed as an [int]. *)
Definition qman_thread_init (id ts : Z) (nf : bool) : qman_thread :=
  mk_qman_thread (fun _ => queue_zero) (fun _ => IDXLIST_INVAL)
    IDXLIST_INVAL IDXLIST_INVAL ts 0 (utils_rng_init (u64 (s32 (RNG_SEED * id + id)))) nf.

(** [qman_timestamp]; [freq] is [rte_get_tsc_hz()]. *)
Definition qman_timestamp (freq cycles : Z) : Z := u32 (u64 (cycles * 1000000) / freq).

(** [timestamp]; [cycles] is [rte_get_tsc_cycles()]. *)
Definition timestamp (freq cycles : Z) : Z := u32 (u64 (cycles * 1000000000) / freq).

(** [rel_time]: the position of [ts_in] relative to [cur_ts], ignoring wrap-arounds. *)
Definition rel_time (cur_ts ts_in : Z) : Z :=
  let ts := ts_in in
  let middle := 2147483648 in
  if cur_ts <? middle then
    let start := u32 (cur_ts - middle) in
    let end_ := 4294967296 in
    if (start <=? ts) && (ts <? end_) then s64 (u64 (ts - start - middle))
    else s64 (u64 (ts - cur_ts))
  else if cur_ts =? middle then s64 (u64 (ts - cur_ts))
  else
    let start := 0 in
    let end_ := u32 (cur_ts + middle) + 1 in
    if (start <=? cur_ts) && (ts <? end_) then s64 (u64 (ts + (4294967296 - cur_ts)))
    else s64 (u64 (ts - cur_ts)).

Definition timestamp_lessthaneq (t : qman_thread) (a b : Z) : bool :=
  rel_time (ts_virtual t) a <=? rel_time (ts_virtual t) b.

(** [queue_new_ts]: when the queue may send again after sending [bytes]. *)
Definition queue_new_ts (t : qman_thread) (q : queue) (bytes : Z) : Z :=
  u32 (ts_virtual t + u64 (bytes * 8 * 1000000) / q_rate q).

(** [__builtin_ffs]: one plus the index of the least significant one bit, or 0. *)
Fixpoint ctz_pos (p : positive) : Z :=
  match p with xO p => 1 + ctz_pos p | _ => 0 end.
Definition ffs (x : Z) : Z := match x with Zpos p => 1 + ctz_pos p | _ => 0 end.

(** [queue_level]: a random level, with the advanced generator state. *)
Definition queue_level (t : qman_thread) : Z * Z :=
  let '(r, s) := utils_rng_gen32 (rng t) in
  let x := u8 (Z.quot (ffs r - 1) SKIPLIST_BITS) in
  ((if x <? Z.of_nat QMAN_SKIPLIST_LEVELS then x else Z.of_nat QMAN_SKIPLIST_LEVELS - 1), s).

(** ** Activating a queue *)

Definition inactive (q : queue) : bool :=
  Z.land (q_flags q) (Z.lor FLAG_INSKIPLIST FLAG_INNOLIMITL) =? 0.

(** [queue_activate_nolimit]: append to the FIFO list. *)
Definition queue_activate_nolimit (t : qman_thread) (idx : Z) : outcome qman_thread :=
  let q := queues t idx in
  if negb (inactive q) then Aborted else
  let q := q <| q_flags := Z.lor (q_flags q) FLAG_INNOLIMITL |>
             <| q_next_idxs := <[0%nat := IDXLIST_INVAL]> (q_next_idxs q) |> in
  let t := set_queue t idx q in
  if nolimit_tail_idx t =? IDXLIST_INVAL then
    Done (t <| nolimit_head_idx := idx |> <| nolimit_tail_idx := idx |>)
  else
    let q_tail := queues t (nolimit_tail_idx t) in
    let q_tail := q_tail <| q_next_idxs := <[0%nat := idx]> (q_next_idxs q_tail) |> in
    Done ((set_queue t (nolimit_tail_idx t) q_tail) <| nolimit_tail_idx := idx |>).

(** The inner [while] of the predecessor search: walk level [l] from [idx] as long as
    the entries are not later than [ts]; the result is the last entry passed. *)
Fixpoint scan (fuel : nat) (t : qman_thread) (l : nat) (ts pred idx : Z) : outcome Z :=
  match fuel with
  | O => NoFuel
  | S fuel =>
    if negb (idx =? IDXLIST_INVAL)
       && timestamp_lessthaneq t (q_next_ts (queues t idx)) ts
    then scan fuel t l ts idx (q_next_idxs (queues t idx) l)
    else Done pred
  end.

(** The [for] loop over the levels, from level [n - 1] down to 0. *)
Fixpoint find_preds (fuel : nat) (t : qman_thread) (ts : Z) (n : nat) (pred : Z)
    (preds : nat -> Z) : outcome (nat -> Z) :=
  match n with
  | O => Done preds
  | S l =>
    let idx := if negb (pred =? IDXLIST_INVAL) then pred else head_idx t l in
    pred' ← scan fuel t l ts pred idx;
    find_preds fuel t ts l pred' (<[l := pred']> preds)
  end.

(** The body of the insertion loop at level [l]. *)
Definition insert_level (t : qman_thread) (q_idx level : Z) (preds : nat -> Z) (l : nat)
    : qman_thread :=
  let q := queues t q_idx in
  if level <? Z.of_nat l then
    set_queue t q_idx (q <| q_next_idxs := <[l := IDXLIST_INVAL]> (q_next_idxs q) |>)
  else
    let idx := preds l in
    if negb (idx =? IDXLIST_INVAL) then
      let t := set_queue t q_idx
        (q <| q_next_idxs := <[l := q_next_idxs (queues t idx) l]> (q_next_idxs q) |>) in
      let p := queues t idx in
      set_queue t idx (p <| q_next_idxs := <[l := q_idx]> (q_next_idxs p) |>)
    else
      let t := set_queue t q_idx
        (q <| q_next_idxs := <[l := head_idx t l]> (q_next_idxs q) |>) in
      t <| head_idx := <[l := q_idx]> (head_idx t) |>.

(** The insertion loop, from level [n - 1] down to 0. *)
Fixpoint insert_levels (t : qman_thread) (q_idx level : Z) (preds : nat -> Z) (n : nat)
    : qman_thread :=
  match n with
  | O => t
  | S l => insert_levels (insert_level t q_idx level preds l) q_idx level preds l
  end.

(** The timestamp a queue gets when it is activated: not in the past, and not later
    than if it had just sent [max_chunk] at the current rate. *)
Definition clamp_ts (t : qman_thread) (q : queue) : Z :=
  let ts := q_next_ts q in
  let max_ts := queue_new_ts t q (q_max_chunk q) in
  if timestamp_lessthaneq t ts (ts_virtual t) then ts_virtual t
  else if negb (timestamp_lessthaneq t ts max_ts) then max_ts
  else ts.

(** [queue_activate_skiplist]. *)
Definition queue_activate_skiplist (fuel : nat) (t : qman_thread) (q_idx : Z)
    : outcome qman_thread :=
  let q := queues t q_idx in
  if negb (inactive q) then Aborted else
  let ts := clamp_ts t q in
  let t := set_queue t q_idx (q <| q_next_ts := ts |>) in
  preds ← find_preds fuel t ts QMAN_SKIPLIST_LEVELS IDXLIST_INVAL (fun _ => IDXLIST_INVAL);
  let '(level, s) := queue_level t in
  let t := insert_levels (t <| rng := s |>) q_idx level preds QMAN_SKIPLIST_LEVELS in
  let q := queues t q_idx in
  Done (set_queue t q_idx (q <| q_flags := Z.lor (q_flags q) FLAG_INSKIPLIST |>)).

Definition queue_activate (fuel : nat) (t : qman_thread) (idx : Z) : outcome qman_thread :=
  if q_rate (queues t idx) =? 0 then queue_activate_nolimit t idx
  else queue_activate_skiplist fuel t idx.

(** [set_impl]. *)
Definition set_impl (fuel : nat) (t : qman_thread) (idx rate avail max_chunk flags : Z)
    : outcome qman_thread :=
  let q := queues t idx in
  let q := if has flags QMAN_SET_RATE then q <| q_rate := rate |> else q in
  let q := if has flags QMAN_SET_MAXCHUNK then q <| q_max_chunk := max_chunk |> else q in
  let '(q, new_avail) :=
    if has flags QMAN_SET_AVAIL then (q <| q_avail := avail |>, true)
    else if has flags QMAN_ADD_AVAIL then (q <| q_avail := u32 (q_avail q + avail) |>, true)
    else (q, false) in
  let t := set_queue t idx q in
  if new_avail && (0 <? q_avail q) && inactive q then queue_activate fuel t idx
  else Done t.

(** [qman_set]: [false] is the return value -1. *)
Definition qman_set (fuel : nat) (t : qman_thread) (id rate avail max_chunk flags : Z)
    : outcome (bool * qman_thread) :=
  if FLEXNIC_NUM_QMQUEUES <=? id then Done (false, t)
  else t ← set_impl fuel t id rate avail max_chunk flags; Done (true, t).

(** ** Polling *)

(** The first half of [queue_fire]: charge the queue for [bytes]. *)
Definition queue_charge (t : qman_thread) (q : queue) (bytes : Z) : queue :=
  let q := q <| q_avail := u32 (q_avail q - bytes) |> in
  if 0 <? q_rate q then q <| q_next_ts := queue_new_ts t q bytes |> else q.

(** [queue_fire]: the number of bytes the queue may send now, and the new state. *)
Definition queue_fire (fuel : nat) (t : qman_thread) (idx : Z) : outcome (Z * qman_thread) :=
  let q := queues t idx in
  if negb (0 <? q_avail q) then Aborted else
  let bytes := if q_avail q <=? q_max_chunk q then q_avail q else q_max_chunk q in
  let q := queue_charge t q bytes in
  let t := set_queue t idx q in
  t ← (if 0 <? q_avail q then queue_activate fuel t idx else Done t);
  Done (u16 bytes, t).

(** The start of the loop body of [poll_nolimit]: unlink the first queue of the list. *)
Definition pop_nolimit (t : qman_thread) : qman_thread :=
  let idx := nolimit_head_idx t in
  let q := queues t idx in
  let t := t <| nolimit_head_idx := q_next_idxs q 0%nat |> in
  let t := if q_next_idxs q 0%nat =? IDXLIST_INVAL
           then t <| nolimit_tail_idx := IDXLIST_INVAL |> else t in
  set_queue t idx (q <| q_flags := Z.ldiff (q_flags q) FLAG_INNOLIMITL |>).

(** [poll_nolimit]: at most [num] entries of the FIFO list; the results are the queue
    ids and byte counts in the order they are stored. *)
Fixpoint poll_nolimit (fuel : nat) (t : qman_thread) (num : Z)
    : outcome (list (Z * Z) * qman_thread) :=
  match fuel with
  | O => NoFuel
  | S fuel' =>
    if (0 <? num) && negb (nolimit_head_idx t =? IDXLIST_INVAL) then
      let idx := nolimit_head_idx t in
      let t := pop_nolimit t in
      if 0 <? q_avail (queues t idx) then
        '(bytes, t) ← queue_fire fuel t idx;
        '(out, t) ← poll_nolimit fuel' t (num - 1);
        Done ((idx, bytes) :: out, t)
      else poll_nolimit fuel' t num
    else Done ([], t)
  end.

(** Remove the first queue [idx] from the levels [l .. l + n - 1] it is on. *)
Fixpoint unlink_head (t : qman_thread) (idx : Z) (l n : nat) : qman_thread :=
  match n with
  | O => t
  | S n =>
    if head_idx t l =? idx then
      unlink_head (t <| head_idx := <[l := q_next_idxs (queues t idx) l]> (head_idx t) |>)
        idx (S l) n
    else t
  end.

(** The middle of the loop body of [poll_skiplist]: unlink the first queue and advance
    the virtual time to its timestamp. *)
Definition pop_skiplist (t : qman_thread) (idx : Z) : qman_thread :=
  let q := queues t idx in
  let t := unlink_head t idx 0 QMAN_SKIPLIST_LEVELS in
  let t := set_queue t idx (q <| q_flags := Z.ldiff (q_flags q) FLAG_INSKIPLIST |>) in
  t <| ts_virtual := q_next_ts q |>.

(** The loop of [poll_skiplist]: the results and whether the loop ended because
    [num] entries were found. *)
Fixpoint poll_skiplist_loop (fuel : nat) (t : qman_thread) (max_vts num : Z)
    : outcome (list (Z * Z) * bool * qman_thread) :=
  match fuel with
  | O => NoFuel
  | S fuel' =>
    if negb (0 <? num) then Done ([], true, t) else
    let idx := head_idx t 0%nat in
    if idx =? IDXLIST_INVAL then Done ([], false, t <| ts_virtual := max_vts |>) else
    let q := queues t idx in
    if negb (timestamp_lessthaneq t (q_next_ts q) max_vts)
    then Done ([], false, t <| ts_virtual := max_vts |>) else
    if negb (has (q_flags q) FLAG_INSKIPLIST) then Aborted else
    let t := pop_skiplist t idx in
    if 0 <? q_avail (queues t idx) then
      '(bytes, t) ← queue_fire fuel t idx;
      '(out, full, t) ← poll_skiplist_loop fuel' t max_vts (num - 1);
      Done ((idx, bytes) :: out, full, t)
    else poll_skiplist_loop fuel' t max_vts num
  end.

(** [poll_skiplist]. *)
Definition poll_skiplist (fuel : nat) (t : qman_thread) (cur_ts num : Z)
    : outcome (list (Z * Z) * qman_thread) :=
  let max_vts := u32 (ts_virtual t + u32 (cur_ts - ts_real t)) in
  '(out, full, t) ← poll_skiplist_loop fuel t max_vts num;
  let t :=
    if (full : bool) then
      let idx := head_idx t 0%nat in
      if negb (idx =? IDXLIST_INVAL)
         && timestamp_lessthaneq t (q_next_ts (queues t idx)) max_vts
      then t <| ts_virtual := q_next_ts (queues t idx) |>
      else t <| ts_virtual := max_vts |>
    else t in
  Done (out, t <| ts_real := cur_ts |>).

(** [qman_poll]; [ts] is the time read by [timestamp()]. *)
Definition qman_poll (fuel : nat) (t : qman_thread) (ts num : Z)
    : outcome (list (Z * Z) * qman_thread) :=
  '(out, t) ←
    (if nolimit_first t then
       poll_nolimit fuel t num ≫= fun '(x, t) =>
       poll_skiplist fuel t ts (num - Z.of_nat (length x)) ≫= fun '(y, t) =>
       Done (x ++ y, t)
     else
       poll_skiplist fuel t ts num ≫= fun '(x, t) =>
       poll_nolimit fuel t (num - Z.of_nat (length x)) ≫= fun '(y, t) =>
       Done (x ++ y, t));
  Done (out, t <| nolimit_first := negb (nolimit_first t) |>).

(** [qman_next_ts]: the time until the next queue is due; [ts] is the time read by
    [timestamp()]. *)
Definition qman_next_ts (t : qman_thread) (ts : Z) : Z :=
  let ret_ts := u32 (ts_virtual t + u32 (ts - ts_real t)) in
  if negb (nolimit_head_idx t =? IDXLIST_INVAL) then 0
  else
    let idx := head_idx t 0%nat in
    if negb (idx =? IDXLIST_INVAL) then
      let q := queues t idx in
      if timestamp_lessthaneq t (q_next_ts q) ret_ts then 0
      else u32 (Z.quot (rel_time ret_ts (q_next_ts q)) 1000)
    else u32 (-1).

End Qman.
