(* ===== verification/QmanSpec.v ===== *)
(** * Specification of the queue manager

    The invariant of [Qman.qman_thread], with the abstract lists it represents, and
    the proofs that the operations of [Qman] keep it. *)
From S2P Require Import Prelude Chain Rng Qman.

Module QmanSpec.
Import Qman.

(** ** Wrapping time *)

Lemma rel_time_offset cur d : in32 cur -> -2147483648 < d < 2147483648 ->
  rel_time cur (u32 (cur + d)) = d.
Proof. intros Hc Hd. unfold rel_time. split_ifs; unwrap; Z.div_mod_to_equations; lia. Qed.

Lemma rel_time_range cur ts : in32 cur -> in32 ts ->
  -2147483648 <= rel_time cur ts <= 2147483648.
Proof. intros Hc Hd. unfold rel_time. split_ifs; unwrap; Z.div_mod_to_equations; lia. Qed.

Lemma rel_time_mod cur ts : in32 cur -> in32 ts -> u32 (cur + rel_time cur ts) = ts.
Proof. intros Hc Hd. unfold rel_time. split_ifs; unwrap; Z.div_mod_to_equations; lia. Qed.

(** Moving the reference time forward by [d] moves a later time closer by [d]. *)
Lemma rel_time_advance cur ts d : in32 cur -> in32 ts ->
  0 <= d <= rel_time cur ts -> rel_time cur ts < 2147483648 ->
  rel_time (u32 (cur + d)) ts = rel_time cur ts - d.
Proof.
  intros Hc Ht Hd Hlt. rewrite <-(rel_time_mod cur ts) at 1 by done.
  set (k := rel_time cur ts) in *.
  replace (u32 (cur + k)) with (u32 (u32 (cur + d) + (k - d))) by (rewrite u32_add_l; f_equal; lia).
  apply rel_time_offset; [apply u32_range|lia].
Qed.

(** [rel_time] is the signed distance of two wrapping 32 bit timestamps: it is
    congruent to their difference, lies within half the range, and is exact for any
    two times less than 2^31 ticks apart, however the counter has wrapped. *)
Theorem rel_time_exact cur ts :
  in32 cur -> in32 ts ->
  (-2147483648 <= rel_time cur ts <= 2147483648 /\ u32 (cur + rel_time cur ts) = ts) /\
  (forall d, -2147483648 < d < 2147483648 -> ts = u32 (cur + d) -> rel_time cur ts = d).
Proof.
  intros Hc Ht. split; [split; [by apply rel_time_range|by apply rel_time_mod]|].
  intros d Hd ->. by apply rel_time_offset.
Qed.

(** ** The invariant *)

Definition nxt (t : qman_thread) (l : nat) (i : Z) : Z := q_next_idxs (queues t i) l.
Definition key (t : qman_thread) (i : Z) : Z := rel_time (ts_virtual t) (q_next_ts (queues t i)).
Abbreviation qchain := (chain IDXLIST_INVAL).

(** Types and pacing: after sending [max_chunk] at its rate a queue waits for less
    than half the range of the clock. *)
Record queue_ok (q : queue) : Prop := {
  qo_ts : in32 (q_next_ts q);
  qo_rate : in32 (q_rate q);
  qo_avail : in32 (q_avail q);
  qo_chunk : in16 (q_max_chunk q);
  qo_paced : q_max_chunk q * 8000000 / q_rate q < 2147483648
}.

(** The level lists of the skip list: [Ls 0] holds every member in order of time,
    each level is a sublist of the one below. *)
Record skiplist (t : qman_thread) (Ls : nat -> list Z) : Prop := {
  sl_chain l : (l < QMAN_SKIPLIST_LEVELS)%nat -> qchain (nxt t l) (head_idx t l) (Ls l);
  sl_top l : (QMAN_SKIPLIST_LEVELS <= l)%nat -> Ls l = [];
  sl_sub l : Ls (S l) `sublist_of` Ls l;
  sl_nodup : NoDup (Ls 0%nat);
  sl_sorted : sorted_by (key t) (Ls 0%nat);
  sl_keys i : i ∈ Ls 0%nat -> 0 <= key t i < 2147483648
}.

Record nolimit (t : qman_thread) (NL : list Z) : Prop := {
  nl_chain : qchain (nxt t 0) (nolimit_head_idx t) NL;
  nl_tail : nolimit_tail_idx t = lastd IDXLIST_INVAL NL;
  nl_nodup : NoDup NL
}.

Definition flags_of (SL NL : list Z) (i : Z) : Z :=
  if decide (i ∈ SL) then FLAG_INSKIPLIST
  else if decide (i ∈ NL) then FLAG_INNOLIMITL else 0.

Record qinv (t : qman_thread) (Ls : nat -> list Z) (NL : list Z) : Prop := {
  qi_sl : skiplist t Ls;
  qi_nl : nolimit t NL;
  qi_disj i : i ∈ Ls 0%nat -> i ∈ NL -> False;
  qi_flags i : q_flags (queues t i) = flags_of (Ls 0%nat) NL i;
  qi_ok i : queue_ok (queues t i);
  qi_range i : i ∈ Ls 0%nat ++ NL -> 0 <= i < FLEXNIC_NUM_QMQUEUES;
  qi_virtual : in32 (ts_virtual t);
  qi_real : in32 (ts_real t)
}.

(** No lost wake-ups: a queue that has something to send is scheduled. *)
Definition scheduled (t : qman_thread) : Prop :=
  forall i, 0 < q_avail (queues t i) -> q_flags (queues t i) <> 0.

Lemma sl_sub0 t Ls l : skiplist t Ls -> Ls l `sublist_of` Ls 0%nat.
Proof.
  intros H. induction l as [|l IH]; [done|]. etransitivity; [by apply (sl_sub _ _ H)|done].
Qed.

Lemma sl_nodup_l t Ls l : skiplist t Ls -> NoDup (Ls l).
Proof. intros H. eapply sublist_NoDup; [by apply (sl_nodup _ _ H)|by eapply sl_sub0]. Qed.

Lemma sl_sorted_l t Ls l : skiplist t Ls -> sorted_by (key t) (Ls l).
Proof. intros H. eapply StronglySorted_sublist; [by eapply sl_sub0|by apply (sl_sorted _ _ H)]. Qed.

(** ** Searching the predecessors *)

Lemma scan_spec t l ts L : forall fuel pred idx,
  qchain (nxt t l) idx L -> sorted_by (key t) L -> (length L < fuel)%nat ->
  scan fuel t l ts pred idx =
    Done (lastd pred (below (key t) (rel_time (ts_virtual t) ts) L)).
Proof.
  induction L as [|x L IH]; intros [|fuel] pred idx Hc Hs Hf; cbn in Hf; try lia.
  - unfold chain in Hc. cbn in Hc. subst idx. done.
  - apply chain_cons in Hc as (-> & Hx & Hc). apply StronglySorted_inv in Hs as [Hs Hall].
    cbn [scan]. rewrite (proj2 (Z.eqb_neq _ _) Hx). cbn [negb andb].
    unfold timestamp_lessthaneq. fold (key t x). unfold below in *. rewrite filter_cons.
    case_decide as Hle.
    + rewrite (proj2 (Z.leb_le _ _) Hle). rewrite lastd_cons. apply IH; [done..|lia].
    + destruct (Z.leb_spec (key t x) (rel_time (ts_virtual t) ts)); [lia|].
      destruct (above_all (key t) (rel_time (ts_virtual t) ts) L) as [E _].
      { eapply Forall_impl; [exact Hall|cbn; lia]. }
      unfold below in E. by rewrite E.
Qed.

Lemma find_preds_spec fuel t Ls ts :
  skiplist t Ls -> (length (Ls 0%nat) < fuel)%nat ->
  let k := rel_time (ts_virtual t) ts in
  forall n pred preds, (n <= QMAN_SKIPLIST_LEVELS)%nat ->
  pred = lastd IDXLIST_INVAL (below (key t) k (Ls n)) ->
  exists preds', find_preds fuel t ts n pred preds = Done preds' /\
    forall l, preds' l = if decide (l < n)%nat
      then lastd IDXLIST_INVAL (below (key t) k (Ls l)) else preds l.
Proof.
  intros Hsl Hf k. induction n as [|l IH]; intros pred preds Hn Hpred.
  { eexists; split; [done|]. intros l. by rewrite decide_False by lia. }
  cbn [find_preds].
  pose proof (sl_chain _ _ Hsl l ltac:(lia)) as Hc.
  pose proof (sl_sorted_l _ _ l Hsl) as Hs.
  assert (Hlen : (length (Ls l) < fuel)%nat).
  { pose proof (sublist_length _ _ (sl_sub0 _ _ l Hsl)). lia. }
  assert (Hscan : scan fuel t l ts pred (if negb (pred =? IDXLIST_INVAL) then pred else head_idx t l)
                  = Done (lastd IDXLIST_INVAL (below (key t) k (Ls l)))).
  { destruct (lastd_cases IDXLIST_INVAL (below (key t) k (Ls (S l)))) as [[_ E]|(A & p & E & E')].
    - rewrite Hpred, E. cbn [negb]. rewrite Z.eqb_refl. cbn [negb]. by apply scan_spec.
    - rewrite Hpred, E'.
      assert (Hp : p ∈ below (key t) k (Ls (S l))) by (rewrite E; set_solver).
      apply below_spec in Hp as [Hk Hp].
      assert (Hpl : p ∈ Ls l) by (eapply sublist_elem; [apply (sl_sub _ _ Hsl)|done]).
      apply list_elem_of_split in Hpl as (B & C & EL).
      assert (p <> IDXLIST_INVAL).
      { pose proof (seg_notin_null _ _ _ _ _ Hc). rewrite EL in *. set_solver. }
      rewrite (proj2 (Z.eqb_neq _ _)) by done. cbn [negb].
      rewrite EL in Hc, Hs, Hlen. apply chain_from in Hc.
      rewrite (scan_spec t l ts (p :: C)); [|done| |rewrite length_app in Hlen; cbn in *; lia].
      2:{ eapply StronglySorted_sublist; [|exact Hs]. by apply sublist_inserts_l. }
      f_equal. rewrite EL. fold k. unfold below. rewrite filter_app, !filter_cons.
      rewrite !decide_True by done. by rewrite lastd_app, lastd_cons. }
  rewrite Hscan. cbn.
  destruct (IH _ (<[l:=lastd IDXLIST_INVAL (below (key t) k (Ls l))]> preds) ltac:(lia) eq_refl)
    as (preds' & E & Hp).
  exists preds'. split; [done|]. intros l'. rewrite Hp.
  destruct (decide (l' < l)%nat); [by rewrite decide_True by lia|].
  unfold insert, fn_insert. destruct (decide (l = l')) as [->|].
  - by rewrite decide_True by lia.
  - by rewrite decide_False by lia.
Qed.

(** ** Linking a queue into the levels *)

(** The two states agree on everything but the links of the skip list. *)
Record same_but_links (t t' : qman_thread) : Prop := {
  sb_ts i : q_next_ts (queues t' i) = q_next_ts (queues t i);
  sb_rate i : q_rate (queues t' i) = q_rate (queues t i);
  sb_avail i : q_avail (queues t' i) = q_avail (queues t i);
  sb_chunk i : q_max_chunk (queues t' i) = q_max_chunk (queues t i);
  sb_flags i : q_flags (queues t' i) = q_flags (queues t i);
  sb_nh : nolimit_head_idx t' = nolimit_head_idx t;
  sb_nt : nolimit_tail_idx t' = nolimit_tail_idx t;
  sb_real : ts_real t' = ts_real t;
  sb_virtual : ts_virtual t' = ts_virtual t;
  sb_first : nolimit_first t' = nolimit_first t
}.

Lemma same_but_links_trans t1 t2 t3 :
  same_but_links t1 t2 -> same_but_links t2 t3 -> same_but_links t1 t3.
Proof. intros [] []; constructor; intros; etransitivity; eauto. Qed.

(** Case analysis on updates at a point. *)
Ltac fn_simpl :=
  unfold set_queue, insert, fn_insert in *; cbn in *;
  repeat (case_decide; subst; cbn in *; try congruence); try done.

Definition lvl_head (level : Z) (preds : nat -> Z) (t : qman_thread) (q : Z) (l : nat) : Z :=
  if (Z.of_nat l <=? level) && (preds l =? IDXLIST_INVAL) then q else head_idx t l.

Definition lvl_nxt (level : Z) (preds : nat -> Z) (t : qman_thread) (q : Z) (l : nat) (i : Z) : Z :=
  if decide (i = q) then
    if level <? Z.of_nat l then IDXLIST_INVAL
    else if preds l =? IDXLIST_INVAL then head_idx t l else nxt t l (preds l)
  else if (Z.of_nat l <=? level) && negb (preds l =? IDXLIST_INVAL) && (i =? preds l) then q
  else nxt t l i.

Lemma insert_level_spec t q level preds l :
  (forall l, preds l <> q) ->
  let t' := insert_level t q level preds l in
  same_but_links t t' /\
  (forall l', head_idx t' l' = if decide (l' = l) then lvl_head level preds t q l else head_idx t l') /\
  (forall l' i, nxt t' l' i = if decide (l' = l) then lvl_nxt level preds t q l i else nxt t l' i).
Proof.
  intros Hp. cbn zeta. specialize (Hp l). unfold insert_level, lvl_head, lvl_nxt, nxt.
  destruct (Z.ltb_spec level (Z.of_nat l)) as [Hl|Hl].
  - rewrite (proj2 (Z.leb_gt _ _)) by lia. cbn [andb].
    split_and!; [constructor; intros; fn_simpl|intros; fn_simpl..].
  - rewrite (proj2 (Z.leb_le _ _)) by lia. cbn [andb].
    destruct (Z.eqb_spec (preds l) IDXLIST_INVAL); cbn [negb andb].
    + split_and!; [constructor; intros; fn_simpl|intros; fn_simpl..].
    + split_and!; [constructor; intros; fn_simpl|intros; fn_simpl|].
      intros l' i. destruct (Z.eqb_spec i (preds l)); fn_simpl.
Qed.

Lemma insert_levels_spec q level preds : (forall l, preds l <> q) -> forall n t,
  let t' := insert_levels t q level preds n in
  same_but_links t t' /\
  (forall l, head_idx t' l = if decide (l < n)%nat then lvl_head level preds t q l else head_idx t l) /\
  (forall l i, nxt t' l i = if decide (l < n)%nat then lvl_nxt level preds t q l i else nxt t l i).
Proof.
  intros Hp. induction n as [|n IH]; intros t; cbn [insert_levels].
  { split_and!; [by constructor|intros; by rewrite decide_False by lia..]. }
  destruct (insert_level_spec t q level preds n Hp) as (Hs1 & Hh1 & Hn1).
  destruct (IH (insert_level t q level preds n)) as (Hs2 & Hh2 & Hn2).
  split_and!; [by eapply same_but_links_trans| |].
  - intros l. rewrite Hh2. unfold lvl_head. rewrite Hh1.
    destruct (decide (l < n)%nat), (decide (l = n)) as [->|]; try lia;
      rewrite ?(decide_True (P := (_ < S n)%nat)), ?(decide_False (P := (_ < S n)%nat)) by lia; done.
  - intros l i. rewrite Hn2. unfold lvl_nxt. rewrite Hh1, !Hn1.
    destruct (decide (l < n)%nat), (decide (l = n)) as [->|]; try lia;
      rewrite ?(decide_True (P := (_ < S n)%nat)), ?(decide_False (P := (_ < S n)%nat)) by lia; done.
Qed.

(** The level lists after inserting [q] with key [k]. *)
Definition ins_lists (t : qman_thread) (k level q : Z) (Ls : nat -> list Z) (l : nat) : list Z :=
  if (Z.of_nat l <=? level) && bool_decide (l < QMAN_SKIPLIST_LEVELS)%nat
  then insert_by (key t) k q (Ls l) else Ls l.

Lemma insert_chain t t' Ls q k level preds l :
  skiplist t Ls -> q ∉ Ls 0%nat -> q <> IDXLIST_INVAL -> (l < QMAN_SKIPLIST_LEVELS)%nat ->
  (forall l, preds l <> q) ->
  preds l = lastd IDXLIST_INVAL (below (key t) k (Ls l)) ->
  head_idx t' l = lvl_head level preds t q l ->
  (forall i, nxt t' l i = lvl_nxt level preds t q l i) ->
  qchain (nxt t' l) (head_idx t' l) (ins_lists t k level q Ls l).
Proof.
  intros Hsl Hq Hqi Hl Hpq Hp Hh Hn. unfold ins_lists, insert_by.
  assert (Hql : q ∉ Ls l) by (intros ?; apply Hq; eapply sublist_elem; [by eapply sl_sub0|done]).
  pose proof (sl_chain _ _ Hsl l Hl) as Hc. rewrite Hh.
  rewrite (bool_decide_true (l < _)%nat) by done. rewrite andb_true_r.
  unfold lvl_head. unfold lvl_nxt in Hn. destruct (Z.leb_spec (Z.of_nat l) level).
  2:{ cbn [andb]. eapply seg_ext; [|exact Hc]. intros x Hx. rewrite Hn.
      rewrite decide_False by (by intros ->). done. }
  cbn [andb] in *. rewrite (proj2 (Z.ltb_ge level (Z.of_nat l))) in Hn by lia.
  pose proof (sl_nodup_l _ _ l Hsl) as Hnd.
  rewrite (sorted_cut (key t) k (Ls l)) in Hc, Hql, Hnd by (by eapply sl_sorted_l).
  destruct (lastd_cases IDXLIST_INVAL (below (key t) k (Ls l))) as [[E1 E2]|(A & p & E1 & E2)].
  - rewrite Hp, E2, Z.eqb_refl in *. cbn [negb] in *. rewrite E1 in *. cbn [app] in *.
    eapply chain_push; [exact Hc|done|done| |].
    + rewrite Hn. by rewrite decide_True by done.
    + intros y Hy. rewrite Hn. rewrite decide_False by (by intros ->). done.
  - rewrite Hp, E2 in *.
    assert (Hpi : p <> IDXLIST_INVAL).
    { pose proof (seg_notin_null _ _ _ _ _ Hc). rewrite E1 in *. set_solver. }
    rewrite (proj2 (Z.eqb_neq _ _) Hpi) in *. cbn [negb andb] in *.
    rewrite E1 in *. rewrite <-app_assoc in *. cbn [app] in *.
    eapply seg_link; [exact Hc|done|done|done| | |].
    + rewrite Hn. rewrite decide_False by set_solver. by rewrite Z.eqb_refl.
    + rewrite Hn. by rewrite decide_True by done.
    + intros y Hy. rewrite Hn. rewrite decide_False by set_solver.
      apply NoDup_app in Hnd as (_ & Hd & [Hd2 _]%NoDup_cons).
      rewrite (proj2 (Z.eqb_neq y p)); [done|]. set_solver.
Qed.

(** ** Activation *)

#[local] Arguments find_preds : simpl never.
#[local] Arguments insert_levels : simpl never.

Lemma queue_level_range t : 0 <= fst (queue_level t) < 4.
Proof.
  unfold queue_level. destruct (Rng.utils_rng_gen32 _) as [r s]. cbn -[Z.quot ffs].
  pose proof (u8_range (Z.quot (ffs r - 1) SKIPLIST_BITS)). unfold QMAN_SKIPLIST_LEVELS in *; split_ifs; lia.
Qed.

Lemma queue_new_ts_spec t q b : in32 (ts_virtual t) -> 0 <= b < 65536 -> 0 <= q_rate q ->
  queue_new_ts t q b = u32 (ts_virtual t + b * 8000000 / q_rate q).
Proof.
  intros. unfold queue_new_ts. rewrite u64_small by lia. do 3 f_equal. lia.
Qed.

Lemma div_nonneg a b : 0 <= a -> 0 <= b -> 0 <= a / b.
Proof.
  intros. destruct (Z.eq_dec b 0) as [->|]; [by rewrite Z.div_0_r|]. apply Z.div_pos; lia.
Qed.

(** The timestamp of an activated queue lies between now and the pacing delay. *)
Lemma clamp_ts_spec t q : in32 (ts_virtual t) -> queue_ok q ->
  let k := rel_time (ts_virtual t) (q_next_ts q) in
  let d := q_max_chunk q * 8000000 / q_rate q in
  in32 (clamp_ts t q) /\
  rel_time (ts_virtual t) (clamp_ts t q) = Z.max 0 (Z.min k d) /\ 0 <= d < 2147483648.
Proof.
  intros Hv [Hts Hr Ha Hc Hp]. cbn zeta. unfold clamp_ts, timestamp_lessthaneq.
  rewrite queue_new_ts_spec by lia.
  set (d := q_max_chunk q * 8000000 / q_rate q) in *.
  assert (0 <= d) by (apply div_nonneg; lia).
  pose proof (rel_time_offset (ts_virtual t) 0 Hv ltac:(lia)) as H0.
  rewrite Z.add_0_r, u32_small in H0 by done. rewrite H0.
  pose proof (rel_time_offset (ts_virtual t) d Hv ltac:(lia)) as Hd. rewrite Hd.
  pose proof (u32_range (ts_virtual t + d)).
  destruct (Z.leb_spec (rel_time (ts_virtual t) (q_next_ts q)) 0);
    [rewrite H0; split_and!; lia|].
  destruct (Z.leb_spec (rel_time (ts_virtual t) (q_next_ts q)) d); cbn [negb];
    rewrite ?Hd; split_and!; lia.
Qed.

(** What an activation of [idx] leaves alone. *)
Record activated (t t' : qman_thread) (idx : Z) : Prop := {
  ac_rate i : q_rate (queues t' i) = q_rate (queues t i);
  ac_avail i : q_avail (queues t' i) = q_avail (queues t i);
  ac_chunk i : q_max_chunk (queues t' i) = q_max_chunk (queues t i);
  ac_ts i : i <> idx -> q_next_ts (queues t' i) = q_next_ts (queues t i);
  ac_flags i : i <> idx -> q_flags (queues t' i) = q_flags (queues t i);
  ac_active : q_flags (queues t' idx) <> 0;
  ac_virtual : ts_virtual t' = ts_virtual t;
  ac_real : ts_real t' = ts_real t;
  ac_first : nolimit_first t' = nolimit_first t
}.

Lemma flags_of_0 SL NL i : flags_of SL NL i = 0 <-> (i ∉ SL) /\ (i ∉ NL).
Proof.
  unfold flags_of, FLAG_INSKIPLIST, FLAG_INNOLIMITL. repeat case_decide; naive_solver.
Qed.

Lemma inactive_spec q : (0 <= q_flags q <= 2) -> inactive q = Z.eqb (q_flags q) 0.
Proof.
  intros H. unfold inactive. assert (q_flags q = 0 \/ q_flags q = 1 \/ q_flags q = 2) as Hc by lia.
  by destruct Hc as [-> | [-> | ->]].
Qed.

Lemma flags_of_range SL NL i : 0 <= flags_of SL NL i <= 2.
Proof. unfold flags_of, FLAG_INSKIPLIST, FLAG_INNOLIMITL. repeat case_decide; lia. Qed.

(** The level lists stay nested when an element is inserted at the levels up to
    [level]. *)
Lemma ins_lists_sub t k level q Ls : 
  (forall l, Ls (S l) `sublist_of` Ls l) ->
  (forall l, (QMAN_SKIPLIST_LEVELS <= l)%nat -> Ls l = []) ->
  (forall l, sorted_by (key t) (Ls l)) ->
  forall l, ins_lists t k level q Ls (S l) `sublist_of` ins_lists t k level q Ls l.
Proof.
  intros Hsub Htop Hs l. unfold ins_lists.
  destruct (Z.leb_spec (Z.of_nat (S l)) level), (Z.leb_spec (Z.of_nat l) level); try lia;
    cbn [andb]; repeat case_bool_decide; try lia; unfold insert_by; try done.
  - apply sublist_insert_both; by apply filter_sublist.
  - rewrite (Htop (S l)) by lia. apply sublist_nil_l.
  - rewrite (sorted_cut (key t) k (Ls (S l))) by done.
    apply sublist_insert_right; by apply filter_sublist.
Qed.

Lemma skiplist_ext t t' Ls :
  (forall l, (l < QMAN_SKIPLIST_LEVELS)%nat -> head_idx t' l = head_idx t l) ->
  (forall l i, i ∈ Ls 0%nat -> nxt t' l i = nxt t l i) ->
  (forall i, i ∈ Ls 0%nat -> key t' i = key t i) ->
  skiplist t Ls -> skiplist t' Ls.
Proof.
  intros Hh Hn Hk Hsl. destruct (Hsl) as [Hc Htop Hsub Hnd Hs Hks]. constructor; try done.
  - intros l Hl. rewrite Hh by done. eapply seg_ext; [|by apply Hc].
    intros x Hx. apply Hn. eapply sublist_elem; [by eapply sl_sub0|done].
  - eapply (sorted_by_ext (key t) (key t') 0); [|done]. intros x Hx. rewrite Hk by done. lia.
  - intros i Hi. rewrite Hk by done. auto.
Qed.

(** Inserting an unlinked queue whose timestamp has been set. *)
Lemma link_skiplist fuel t Ls q :
  skiplist t Ls -> q ∉ Ls 0%nat -> q <> IDXLIST_INVAL -> (length (Ls 0%nat) < fuel)%nat ->
  in32 (ts_virtual t) -> 0 <= key t q < 2147483648 ->
  exists preds, find_preds fuel t (q_next_ts (queues t q)) QMAN_SKIPLIST_LEVELS
      IDXLIST_INVAL (fun _ => IDXLIST_INVAL) = Done preds /\
    forall t1 level, 0 <= level ->
    (forall i, queues t1 i = queues t i) -> (forall l, head_idx t1 l = head_idx t l) ->
    ts_virtual t1 = ts_virtual t ->
    let t2 := insert_levels t1 q level preds QMAN_SKIPLIST_LEVELS in
    same_but_links t1 t2 /\
    skiplist t2 (ins_lists t (key t q) level q Ls) /\
    (forall i, i ∉ Ls 0%nat -> i <> q -> forall l, nxt t2 l i = nxt t l i).
Proof.
  intros Hsl Hq Hqi Hf Hv Hkq.
  destruct (find_preds_spec fuel t Ls (q_next_ts (queues t q)) Hsl Hf
    QMAN_SKIPLIST_LEVELS IDXLIST_INVAL (fun _ => IDXLIST_INVAL) ltac:(lia)) as (preds & E & Hp).
  { by rewrite (sl_top _ _ Hsl) by lia. }
  exists preds. split; [exact E|]. intros t1 level Hlev Eq Eh Ev t2.
  fold (key t q) in Hp.
  assert (Hmem : forall l, preds l = IDXLIST_INVAL \/ preds l ∈ Ls 0%nat).
  { intros l. rewrite Hp. case_decide; [|by left].
    destruct (lastd_cases IDXLIST_INVAL (below (key t) (key t q) (Ls l))) as [[_ ->]|(A & p & E1 & ->)];
      [by left|right].
    assert (p ∈ below (key t) (key t q) (Ls l)) as [_ ?]%below_spec by (rewrite E1; set_solver).
    eapply sublist_elem; [by eapply sl_sub0|done]. }
  assert (Hpq : forall l, preds l <> q) by (intros l; destruct (Hmem l); congruence).
  destruct (insert_levels_spec q level preds Hpq QMAN_SKIPLIST_LEVELS t1) as (Hsb & Hh & Hn).
  fold t2 in Hsb, Hh, Hn.
  assert (Hkey : forall i, key t2 i = key t i).
  { intros i. unfold key. by rewrite (sb_ts _ _ Hsb), (sb_virtual _ _ Hsb), Ev, Eq. }
  assert (Hn1 : forall l i, nxt t1 l i = nxt t l i) by (intros; unfold nxt; by rewrite Eq).
  split_and!; [done| |].
  - assert (Hsl0 : ins_lists t (key t q) level q Ls 0%nat = insert_by (key t) (key t q) q (Ls 0%nat)).
    { unfold ins_lists. by rewrite (proj2 (Z.leb_le _ _)) by lia. }
    constructor.
    + intros l Hl. eapply insert_chain; try done.
      * rewrite Hp. by rewrite decide_True by done.
      * rewrite Hh. rewrite decide_True by done. unfold lvl_head. by rewrite Eh.
      * intros i. rewrite Hn. rewrite decide_True by done. unfold lvl_nxt. by rewrite Eh, !Hn1.
    + intros l Hl. unfold ins_lists. rewrite bool_decide_false by lia. rewrite andb_false_r.
      by apply (sl_top _ _ Hsl).
    + apply ins_lists_sub; [apply (sl_sub _ _ Hsl)|apply (sl_top _ _ Hsl)|].
      intros l. by eapply sl_sorted_l.
    + rewrite Hsl0. rewrite insert_by_Permutation. constructor; [done|]. apply (sl_nodup _ _ Hsl).
    + rewrite Hsl0. eapply (sorted_by_ext (key t) (key t2) 0); [intros; rewrite Hkey; lia|].
      apply sorted_insert_by, (sl_sorted _ _ Hsl).
    + intros i. rewrite Hsl0, elem_of_insert_by, Hkey. intros [->|Hi]; [done|].
      by apply (sl_keys _ _ Hsl).
  - intros i Hi Hiq l. rewrite Hn. case_decide; [|done]. unfold lvl_nxt.
    rewrite decide_False by done. rewrite Hn1.
    destruct (Z.eqb_spec (preds l) IDXLIST_INVAL); cbn [negb andb]; [by rewrite andb_false_r|].
    destruct (Z.eqb_spec i (preds l)) as [->|]; [|by rewrite andb_false_r].
    by destruct (Hmem l).
Qed.

Lemma qinv_not_inval t Ls NL i : qinv t Ls NL -> 0 <= i < FLEXNIC_NUM_QMQUEUES -> i <> IDXLIST_INVAL.
Proof. unfold FLEXNIC_NUM_QMQUEUES, IDXLIST_INVAL. lia. Qed.

Lemma inactive_notin t Ls NL i : qinv t Ls NL -> q_flags (queues t i) = 0 ->
  (i ∉ Ls 0%nat) /\ (i ∉ NL).
Proof. intros Hq Hf. rewrite (qi_flags _ _ _ Hq) in Hf. by apply flags_of_0. Qed.

(** The reference for [queue_activate_skiplist]: the queue gets the clamped timestamp
    and goes behind all members that are not later. *)
Definition activate_spec (t : qman_thread) (idx : Z) (SL : list Z) : list Z :=
  insert_by (key t) (rel_time (ts_virtual t) (clamp_ts t (queues t idx))) idx SL.

(** A queue that is in the skip list now, where the other list and the other queues are unchanged. *)
Lemma activated_skiplist t t' Ls Ls' NL idx : let ts := clamp_ts t (queues t idx) in
  qinv t Ls NL -> q_flags (queues t idx) = 0 -> 0 <= idx < FLEXNIC_NUM_QMQUEUES ->
  skiplist t' Ls' -> Ls' 0%nat = activate_spec t idx (Ls 0%nat) ->
  nolimit_head_idx t' = nolimit_head_idx t -> nolimit_tail_idx t' = nolimit_tail_idx t ->
  ts_virtual t' = ts_virtual t -> ts_real t' = ts_real t -> nolimit_first t' = nolimit_first t ->
  (forall l i, i <> idx -> i ∉ Ls 0%nat -> nxt t' l i = nxt t l i) ->
  (forall i, q_next_ts (queues t' i) = (if decide (i = idx) then ts else q_next_ts (queues t i)) /\
    q_rate (queues t' i) = q_rate (queues t i) /\ q_avail (queues t' i) = q_avail (queues t i) /\
    q_max_chunk (queues t' i) = q_max_chunk (queues t i) /\
    q_flags (queues t' i) = if decide (i = idx) then FLAG_INSKIPLIST else q_flags (queues t i)) ->
  qinv t' Ls' NL /\ activated t t' idx.
Proof.
  intros ts Hq Hfl Hr Hsk H0 Enh Ent Ev Er Enf Hn Hat. destruct (inactive_notin _ _ _ _ Hq Hfl) as [Hsl Hnl].
  destruct (clamp_ts_spec t (queues t idx) (qi_virtual _ _ _ Hq) (qi_ok _ _ _ Hq idx)) as (Hc1 & Hc2 & Hc3). fold ts in Hc1, Hc2, Hc3. split.
  - constructor.
    + exact Hsk.
    + destruct (qi_nl _ _ _ Hq) as [Hc Ht Hnd]. constructor; [|by rewrite Ent|done].
      rewrite Enh. eapply seg_ext; [|exact Hc]. intros x Hx. assert (x <> idx) by (by intros ->). apply Hn; [done|].
      intros ?. by eapply (qi_disj _ _ _ Hq).
    + intros i. rewrite H0. unfold activate_spec. rewrite elem_of_insert_by. intros [->|Hi]; [done|].
      by apply (qi_disj _ _ _ Hq).
    + intros i. destruct (Hat i) as (_ & _ & _ & _ & ->). rewrite H0, (qi_flags _ _ _ Hq).
      unfold flags_of, activate_spec.
      destruct (decide (i = idx)) as [->|Hne];
        repeat case_decide; rewrite elem_of_insert_by in *; naive_solver.
    + intros i. destruct (Hat i) as (E1 & E2 & E3 & E4 & _), (qi_ok _ _ _ Hq i).
      constructor; rewrite ?E1, ?E2, ?E3, ?E4; try done. by case_decide.
    + intros i. rewrite H0. unfold activate_spec. rewrite elem_of_app, elem_of_insert_by.
      intros [[->|Hi]|Hi]; [done|apply (qi_range _ _ _ Hq); set_solver..].
    + rewrite Ev. apply (qi_virtual _ _ _ Hq).
    + rewrite Er. apply (qi_real _ _ _ Hq).
  - constructor; try done; try (intros i; by destruct (Hat i) as (?&?&?&?&?)).
    + intros i Hi. destruct (Hat i) as (-> & _). by rewrite decide_False.
    + intros i Hi. destruct (Hat i) as (_ & _ & _ & _ & ->). by rewrite decide_False.
    + destruct (Hat idx) as (_ & _ & _ & _ & ->). by rewrite decide_True.
Qed.

Lemma activate_skiplist_spec fuel t Ls NL idx :
  qinv t Ls NL -> q_flags (queues t idx) = 0 -> 0 <= idx < FLEXNIC_NUM_QMQUEUES ->
  (length (Ls 0%nat) < fuel)%nat ->
  exists t' Ls', queue_activate_skiplist fuel t idx = Done t' /\ qinv t' Ls' NL /\
    Ls' 0%nat = activate_spec t idx (Ls 0%nat) /\ activated t t' idx /\
    q_next_ts (queues t' idx) = clamp_ts t (queues t idx).
Proof.
  intros Hq Hfl Hr Hf.
  destruct (inactive_notin _ _ _ _ Hq Hfl) as [Hsl Hnl].
  pose proof (qinv_not_inval _ _ _ _ Hq Hr) as Hinv.
  destruct (clamp_ts_spec t (queues t idx) (qi_virtual _ _ _ Hq) (qi_ok _ _ _ Hq idx)) as (Hc1 & Hc2 & Hc3).
  unfold queue_activate_skiplist. rewrite inactive_spec by lia. rewrite Hfl. cbn [negb Z.eqb].
  set (ts := clamp_ts t (queues t idx)) in *.
  set (t1 := set_queue t idx ((queues t idx) <| q_next_ts := ts |>)).
  assert (Hoth : forall i, i <> idx -> queues t1 i = queues t i) by (intros; subst t1; fn_simpl).
  assert (Hn1 : forall l i, nxt t1 l i = nxt t l i).
  { intros l i. unfold nxt. destruct (decide (i = idx)) as [->|]; [|by rewrite Hoth]. subst t1. fn_simpl. }
  assert (Hself : queues t1 idx = (queues t idx) <| q_next_ts := ts |>) by (subst t1; fn_simpl).
  assert (Hkey : forall i, i <> idx -> key t1 i = key t i) by (intros; unfold key; by rewrite Hoth).
  assert (Hkidx : key t1 idx = rel_time (ts_virtual t) ts) by (unfold key; by rewrite Hself).
  assert (Hg : head_idx t1 = head_idx t /\ nolimit_head_idx t1 = nolimit_head_idx t /\
    nolimit_tail_idx t1 = nolimit_tail_idx t /\ ts_virtual t1 = ts_virtual t /\
    ts_real t1 = ts_real t /\ nolimit_first t1 = nolimit_first t) by done.
  clearbody t1. destruct Hg as (Gh & Gnh & Gnt & Gv & Gr & Gf).
  assert (Hsk : skiplist t1 Ls).
  { apply (skiplist_ext t); [by rewrite Gh|intros; apply Hn1| |apply (qi_sl _ _ _ Hq)].
    intros i Hi. apply Hkey. by intros ->. }
  destruct (link_skiplist fuel t1 Ls idx Hsk Hsl Hinv Hf) as (preds & E & Hlink).
  { rewrite Gv. apply (qi_virtual _ _ _ Hq). }
  { rewrite Hkidx, Hc2. lia. }
  rewrite Hself in E. cbn in E. cbn [mbind outcome_bind]. rewrite E. cbn [mbind outcome_bind].
  pose proof (queue_level_range t1) as Hlev. destruct (queue_level t1) as [level s]. cbn in Hlev.
  specialize (Hlink (t1 <| rng := s |>) level ltac:(lia) ltac:(done) ltac:(done) eq_refl).
  cbn zeta in Hlink. set (t2 := insert_levels _ _ _ _ _) in *. destruct Hlink as (Hsb & Hsk2 & Hfr).
  set (t3 := set_queue t2 idx _).
  assert (Hq3 : forall i, queues t3 i = if decide (i = idx)
      then (queues t2 i) <| q_flags := Z.lor (q_flags (queues t2 i)) FLAG_INSKIPLIST |> else queues t2 i)
    by (intros; subst t3; fn_simpl).
  assert (Hn3 : forall l i, nxt t3 l i = nxt t2 l i) by (intros; unfold nxt; rewrite Hq3; by case_decide).
  assert (Hat : forall i, q_next_ts (queues t3 i) = q_next_ts (queues t1 i) /\
      q_rate (queues t3 i) = q_rate (queues t i) /\ q_avail (queues t3 i) = q_avail (queues t i) /\
      q_max_chunk (queues t3 i) = q_max_chunk (queues t i) /\
      q_flags (queues t3 i) = if decide (i = idx) then FLAG_INSKIPLIST else q_flags (queues t i)).
  { intros i. rewrite Hq3.
    pose proof (sb_ts _ _ Hsb i) as E1. pose proof (sb_rate _ _ Hsb i) as E2.
    pose proof (sb_avail _ _ Hsb i) as E3. pose proof (sb_chunk _ _ Hsb i) as E4.
    pose proof (sb_flags _ _ Hsb i) as E5. cbn in E1, E2, E3, E4, E5.
    destruct (decide (i = idx)) as [->|Hne].
    - cbn. rewrite E1, E2, E3, E4, E5, Hself. cbn. by rewrite Hfl.
    - rewrite E1, E2, E3, E4, E5, Hoth by done. done. }
  assert (Hsk3 : skiplist t3 (ins_lists t1 (key t1 idx) level idx Ls)).
  { apply (skiplist_ext t2); [done| | |exact Hsk2]; intros; unfold nxt, key; rewrite Hq3; by case_decide. }
  assert (H0 : ins_lists t1 (key t1 idx) level idx Ls 0%nat = activate_spec t idx (Ls 0%nat)).
  { unfold ins_lists, activate_spec. rewrite (proj2 (Z.leb_le _ _)) by lia. cbn [andb bool_decide].
    rewrite bool_decide_true by (unfold QMAN_SKIPLIST_LEVELS; lia). fold ts. rewrite Hkidx.
    apply insert_by_ext. intros i Hi. apply Hkey. by intros ->. }
  destruct (activated_skiplist t t3 Ls (ins_lists t1 (key t1 idx) level idx Ls) NL idx) as [Hq' Ha]; try done.
  - etrans; [exact (sb_nh _ _ Hsb)|exact Gnh].
  - etrans; [exact (sb_nt _ _ Hsb)|exact Gnt].
  - etrans; [exact (sb_virtual _ _ Hsb)|exact Gv].
  - etrans; [exact (sb_real _ _ Hsb)|exact Gr].
  - etrans; [exact (sb_first _ _ Hsb)|exact Gf].
  - intros l i Hne Hi. rewrite Hn3, (Hfr i) by done. apply Hn1.
  - intros i. destruct (Hat i) as (-> & -> & -> & -> & ->). split; [|done]. case_decide as Hi; [by subst; rewrite Hself|by rewrite Hoth].
  - exists t3, (ins_lists t1 (key t1 idx) level idx Ls). do 3 (split; [done|]). split; [done|]. destruct (Hat idx) as (-> & _). by rewrite Hself.
Qed.

(** Appending to the FIFO list: the links change at [idx] and at the old tail only. *)
Lemma activate_nolimit_links t Ls NL idx :
  qinv t Ls NL -> q_flags (queues t idx) = 0 -> 0 <= idx < FLEXNIC_NUM_QMQUEUES ->
  exists t', queue_activate_nolimit t idx = Done t' /\
    nolimit t' (NL ++ [idx]) /\ head_idx t' = head_idx t /\ ts_virtual t' = ts_virtual t /\
    ts_real t' = ts_real t /\ nolimit_first t' = nolimit_first t /\
    (forall i, i <> idx -> i ∉ NL -> forall l, nxt t' l i = nxt t l i) /\
    (forall i, q_next_ts (queues t' i) = q_next_ts (queues t i) /\
      q_rate (queues t' i) = q_rate (queues t i) /\ q_avail (queues t' i) = q_avail (queues t i) /\
      q_max_chunk (queues t' i) = q_max_chunk (queues t i) /\
      q_flags (queues t' i) = if decide (i = idx) then FLAG_INNOLIMITL else q_flags (queues t i)).
Proof.
  intros Hq Hfl Hr. destruct (inactive_notin _ _ _ _ Hq Hfl) as [Hsl Hnl].
  pose proof (qinv_not_inval _ _ _ _ Hq Hr) as Hinv.
  destruct (qi_nl _ _ _ Hq) as [Hc Ht Hnd].
  unfold queue_activate_nolimit. rewrite inactive_spec by lia. rewrite Hfl. cbn [negb Z.eqb].
  assert (Hnd' : NoDup (NL ++ [idx])).
  { apply NoDup_app. split_and!; [done|set_solver|apply NoDup_singleton]. }
  cbn [nolimit_tail_idx set_queue setter]. 
  destruct (lastd_cases IDXLIST_INVAL NL) as [[-> E]|(A & p & -> & E)]; rewrite E in Ht.
  - rewrite (proj2 (Z.eqb_eq _ _)) by (by fn_simpl). eexists. split; [done|].
    split_and!; try (by fn_simpl).
    + constructor; [|by fn_simpl|done]. unfold chain; cbn. split_and!; [done..|]. unfold nxt. by fn_simpl.
    + intros i Hi _ l. unfold nxt. fn_simpl.
    + intros i. split_and!; fn_simpl.
  - assert (Hpi : p <> IDXLIST_INVAL) by (pose proof (seg_notin_null _ _ _ _ _ Hc); set_solver).
    assert (Hpx : p <> idx) by set_solver.
    rewrite (proj2 (Z.eqb_neq _ _)) by (fn_simpl; congruence). eexists. split; [done|].
    split_and!; try (by fn_simpl).
    + constructor; [|fn_simpl; by rewrite lastd_app|done]. rewrite <-app_assoc. cbn [app].
      eapply chain_snoc; [exact Hc|done| | |].
      * unfold nxt. fn_simpl. 
      * unfold nxt. fn_simpl. 
      * intros y Hy. assert (y <> p /\ y <> idx) as [??].
        { apply NoDup_app in Hnd as (_ & Hd & _). specialize (Hd y Hy). set_solver. }
        unfold nxt. fn_simpl.
    + intros i Hi Hni l. assert (i <> p) by set_solver. unfold nxt. fn_simpl.
    + intros i. split_and!; fn_simpl.
Qed.

Lemma activate_nolimit_spec t Ls NL idx :
  qinv t Ls NL -> q_flags (queues t idx) = 0 -> 0 <= idx < FLEXNIC_NUM_QMQUEUES ->
  exists t', queue_activate_nolimit t idx = Done t' /\ qinv t' Ls (NL ++ [idx]) /\
    activated t t' idx.
Proof.
  intros Hq Hfl Hr. destruct (inactive_notin _ _ _ _ Hq Hfl) as [Hsl Hnl].
  destruct (activate_nolimit_links _ _ _ _ Hq Hfl Hr) as (t' & E & Hnl' & Gh & Gv & Gr & Gf & Hn & Hat).
  exists t'. split; [done|]. split.
  - constructor.
    + apply (skiplist_ext t); [by rewrite Gh| | |apply (qi_sl _ _ _ Hq)].
      * intros l i Hi. apply Hn; [by intros ->|]. intros ?. by eapply (qi_disj _ _ _ Hq).
      * intros i Hi. unfold key. destruct (Hat i) as (-> & _). by rewrite Gv.
    + done.
    + intros i Hi. rewrite elem_of_app, list_elem_of_singleton. intros [?| ->]; [|done].
      by eapply (qi_disj _ _ _ Hq).
    + intros i. destruct (Hat i) as (_ & _ & _ & _ & ->). rewrite (qi_flags _ _ _ Hq).
      unfold flags_of. destruct (decide (i = idx)) as [->|];
        repeat case_decide; rewrite ?elem_of_app, ?list_elem_of_singleton in *; naive_solver.
    + intros i. destruct (Hat i) as (E1 & E2 & E3 & E4 & _), (qi_ok _ _ _ Hq i).
      constructor; rewrite ?E1, ?E2, ?E3, ?E4; done.
    + intros i. rewrite app_assoc, elem_of_app, list_elem_of_singleton.
      intros [?| ->]; [by apply (qi_range _ _ _ Hq)|done].
    + rewrite Gv. apply (qi_virtual _ _ _ Hq).
    + rewrite Gr. apply (qi_real _ _ _ Hq).
  - constructor; try done; try (intros i; by destruct (Hat i) as (?&?&?&?&?)).
    + intros i Hi. destruct (Hat i) as (_ & _ & _ & _ & ->). by rewrite decide_False.
    + destruct (Hat idx) as (_ & _ & _ & _ & ->). by rewrite decide_True.
Qed.

(** The abstract lists after activating [idx]. *)
Definition activate_lists (t : qman_thread) (idx : Z) (SL NL SL' NL' : list Z) : Prop :=
  if q_rate (queues t idx) =? 0 then SL' = SL /\ NL' = NL ++ [idx]
  else SL' = activate_spec t idx SL /\ NL' = NL.

Lemma queue_activate_spec fuel t Ls NL idx :
  qinv t Ls NL -> q_flags (queues t idx) = 0 -> 0 <= idx < FLEXNIC_NUM_QMQUEUES ->
  (length (Ls 0%nat) < fuel)%nat ->
  exists t' Ls' NL', queue_activate fuel t idx = Done t' /\ qinv t' Ls' NL' /\
    activated t t' idx /\ activate_lists t idx (Ls 0%nat) NL (Ls' 0%nat) NL'.
Proof.
  intros Hq Hfl Hr Hf. unfold queue_activate, activate_lists. destruct (_ =? 0).
  - destruct (activate_nolimit_spec _ _ _ _ Hq Hfl Hr) as (t' & E & ? & ?). eauto 10.
  - destruct (activate_skiplist_spec _ _ _ _ _ Hq Hfl Hr Hf) as (t' & Ls' & E & ? & ? & ? & ?). eauto 10.
Qed.

Lemma activate_lists_length t idx SL NL SL' NL' :
  activate_lists t idx SL NL SL' NL' ->
  (length SL' + length NL' = S (length SL + length NL))%nat /\ (length SL' <= S (length SL))%nat.
Proof.
  unfold activate_lists. destruct (_ =? 0); intros [-> ->].
  - rewrite length_app. cbn. lia.
  - unfold activate_spec. rewrite insert_by_Permutation. cbn. lia.
Qed.

Lemma activate_lists_elem t idx SL NL SL' NL' :
  activate_lists t idx SL NL SL' NL' ->
  (forall i, i ∈ SL -> i ∈ SL') /\ (forall i, i ∈ NL -> i ∈ NL').
Proof.
  unfold activate_lists. destruct (_ =? 0); intros [-> ->]; [set_solver|].
  split; [|done]. intros i Hi. unfold activate_spec. rewrite elem_of_insert_by. by right.
Qed.

(** Changing the attributes of a queue without touching its links and flags. *)
Lemma qinv_set_queue t Ls NL idx q :
  qinv t Ls NL -> queue_ok q ->
  (forall l, q_next_idxs q l = nxt t l idx) -> q_flags q = q_flags (queues t idx) ->
  (idx ∈ Ls 0%nat -> q_next_ts q = q_next_ts (queues t idx)) ->
  qinv (set_queue t idx q) Ls NL.
Proof.
  intros Hq Hok Hn Hfl Hts. set (t' := set_queue t idx q).
  assert (Hnx : forall l i, nxt t' l i = nxt t l i).
  { intros l i. unfold nxt, t'. unfold set_queue, insert, fn_insert. cbn.
    case_decide; [subst; apply Hn|done]. }
  constructor; try apply Hq.
  - apply (skiplist_ext t); [done|by intros| |apply (qi_sl _ _ _ Hq)].
    intros i Hi. unfold key, t', set_queue, insert, fn_insert. cbn.
    case_decide; [subst; by rewrite Hts|done].
  - destruct (qi_nl _ _ _ Hq) as [Hc ? ?]. constructor; [|done..].
    eapply seg_ext; [|exact Hc]. intros; apply Hnx.
  - intros i. rewrite <-(qi_flags _ _ _ Hq i). unfold t'. fn_simpl.
  - intros i. pose proof (qi_ok _ _ _ Hq i). unfold t'. fn_simpl.
Qed.

(** The settings [set_impl] leaves a queue with, before it is activated. *)
Definition set_queue_args (q : queue) (rate avail max_chunk flags : Z) : queue :=
  let q := if has flags QMAN_SET_RATE then q <| q_rate := rate |> else q in
  let q := if has flags QMAN_SET_MAXCHUNK then q <| q_max_chunk := max_chunk |> else q in
  if has flags QMAN_SET_AVAIL then q <| q_avail := avail |>
  else if has flags QMAN_ADD_AVAIL then q <| q_avail := u32 (q_avail q + avail) |>
  else q.

Lemma set_impl_unfold fuel t idx rate avail max_chunk flags :
  let q := set_queue_args (queues t idx) rate avail max_chunk flags in
  set_impl fuel t idx rate avail max_chunk flags =
    if (has flags QMAN_SET_AVAIL || has flags QMAN_ADD_AVAIL) && (0 <? q_avail q) && inactive q
    then queue_activate fuel (set_queue t idx q) idx else Done (set_queue t idx q).
Proof.
  cbn zeta. unfold set_impl, set_queue_args.
  destruct (has flags QMAN_SET_RATE), (has flags QMAN_SET_MAXCHUNK), (has flags QMAN_SET_AVAIL),
    (has flags QMAN_ADD_AVAIL); done.
Qed.

Lemma set_queue_args_links q rate avail max_chunk flags :
  let q' := set_queue_args q rate avail max_chunk flags in
  q_next_idxs q' = q_next_idxs q /\ q_flags q' = q_flags q /\ q_next_ts q' = q_next_ts q /\
  (has flags QMAN_SET_AVAIL = false -> has flags QMAN_ADD_AVAIL = false -> q_avail q' = q_avail q).
Proof.
  unfold set_queue_args. destruct (has flags QMAN_SET_RATE), (has flags QMAN_SET_MAXCHUNK),
    (has flags QMAN_SET_AVAIL), (has flags QMAN_ADD_AVAIL); done.
Qed.

Lemma set_impl_spec fuel t Ls NL idx rate avail max_chunk flags :
  qinv t Ls NL -> scheduled t -> 0 <= idx < FLEXNIC_NUM_QMQUEUES ->
  (length (Ls 0%nat) < fuel)%nat ->
  let q := set_queue_args (queues t idx) rate avail max_chunk flags in
  queue_ok q ->
  exists t' Ls' NL', set_impl fuel t idx rate avail max_chunk flags = Done t' /\
    qinv t' Ls' NL' /\ scheduled t' /\
    q_avail (queues t' idx) = q_avail q /\ q_rate (queues t' idx) = q_rate q /\
    q_max_chunk (queues t' idx) = q_max_chunk q /\
    ts_virtual t' = ts_virtual t /\ ts_real t' = ts_real t /\
    (forall i, i <> idx -> q_avail (queues t' i) = q_avail (queues t i) /\
      q_rate (queues t' i) = q_rate (queues t i) /\
      q_max_chunk (queues t' i) = q_max_chunk (queues t i)).
Proof.
  intros Hq Hsch Hr Hf q Hok. rewrite set_impl_unfold. fold q.
  destruct (set_queue_args_links (queues t idx) rate avail max_chunk flags) as (El & Ef & Et & Ea).
  fold q in El, Ef, Et, Ea.
  assert (Hq1 : qinv (set_queue t idx q) Ls NL).
  { apply qinv_set_queue; try done. intros l. by rewrite El. }
  assert (Hself : queues (set_queue t idx q) idx = q) by fn_simpl.
  assert (Hoth : forall i, i <> idx -> queues (set_queue t idx q) i = queues t i) by (intros; fn_simpl).
  set (t1 := set_queue t idx q) in *.
  assert (Hg : ts_virtual t1 = ts_virtual t /\ ts_real t1 = ts_real t) by done.
  clearbody t1. destruct Hg as [Gv Gr].
  rewrite inactive_spec by (rewrite Ef, (qi_flags _ _ _ Hq); apply flags_of_range).
  destruct (_ && _ && _)%bool eqn:Hact.
  - apply andb_true_iff in Hact as [_ Hin]. apply Z.eqb_eq in Hin.
    destruct (queue_activate_spec fuel t1 Ls NL idx) as (t' & Ls' & NL' & E & Hq' & Hac & _);
      [done|by rewrite Hself|done..|].
    exists t', Ls', NL'. destruct Hac. split_and!; try done; rewrite ?ac_avail0, ?ac_rate0, ?ac_chunk0, ?Hself, ?ac_virtual0, ?ac_real0; try done.
    + intros i. destruct (decide (i = idx)) as [->|Hi]; [done|].
      rewrite ac_avail0, ac_flags0, Hoth by done. apply Hsch.
    + intros i Hi. by rewrite ac_avail0, ac_rate0, ac_chunk0, Hoth.
  - exists t1, Ls, NL. rewrite Hself. split_and!; try done.
    + intros i. destruct (decide (i = idx)) as [->|Hi]; [|rewrite Hoth by done; apply Hsch].
      rewrite Hself. intros Hav. breflect; try lia.
      rewrite Ef. apply Hsch. by rewrite <-Ea.
    + intros i Hi. by rewrite Hoth.
Qed.

(** ** Firing a queue *)

(** The bytes a queue may send at once. *)
Definition burst (q : queue) : Z := Z.min (q_avail q) (q_max_chunk q).

(** What firing [idx] with [b] bytes changes. *)
Record fired (t t' : qman_thread) (idx b : Z) : Prop := {
  fi_avail i : q_avail (queues t' i) = if decide (i = idx) then q_avail (queues t i) - b
    else q_avail (queues t i);
  fi_rate i : q_rate (queues t' i) = q_rate (queues t i);
  fi_chunk i : q_max_chunk (queues t' i) = q_max_chunk (queues t i);
  fi_flags i : i <> idx -> q_flags (queues t' i) = q_flags (queues t i);
  fi_ts i : i <> idx -> q_next_ts (queues t' i) = q_next_ts (queues t i);
  fi_active : 0 < q_avail (queues t' idx) -> q_flags (queues t' idx) <> 0;
  fi_virtual : ts_virtual t' = ts_virtual t;
  fi_real : ts_real t' = ts_real t;
  fi_first : nolimit_first t' = nolimit_first t
}.

Lemma queue_fire_spec fuel t Ls NL idx :
  qinv t Ls NL -> q_flags (queues t idx) = 0 -> 0 <= idx < FLEXNIC_NUM_QMQUEUES ->
  (length (Ls 0%nat) < fuel)%nat -> 0 < q_avail (queues t idx) ->
  exists t' Ls' NL', queue_fire fuel t idx = Done (burst (queues t idx), t') /\
    qinv t' Ls' NL' /\ fired t t' idx (burst (queues t idx)) /\
    (forall i, i ∈ Ls 0%nat -> i ∈ Ls' 0%nat) /\ (forall i, i ∈ NL -> i ∈ NL') /\
    (length (Ls' 0%nat) + length NL' <= S (length (Ls 0%nat) + length NL))%nat.
Proof.
  intros Hq Hfl Hr Hf Hav. destruct (inactive_notin _ _ _ _ Hq Hfl) as [Hsl Hnl].
  pose proof (qi_ok _ _ _ Hq idx) as [Hts Hra Haa Hch Hpa].
  unfold queue_fire, burst. rewrite (proj2 (Z.ltb_lt _ _) Hav). cbn [negb].
  set (b := if _ <=? _ then _ else _).
  assert (Hb : b = Z.min (q_avail (queues t idx)) (q_max_chunk (queues t idx))).
  { subst b. destruct (Z.leb_spec (q_avail (queues t idx)) (q_max_chunk (queues t idx))); lia. }
  rewrite <-Hb. rewrite (u16_small b) by lia.
  set (q := queue_charge _ _ _).
  assert (Hfields : q_next_idxs q = q_next_idxs (queues t idx) /\ q_flags q = 0 /\
    q_rate q = q_rate (queues t idx) /\ q_max_chunk q = q_max_chunk (queues t idx) /\
    q_avail q = q_avail (queues t idx) - b /\ in32 (q_next_ts q)).
  { subst q. unfold queue_charge. destruct (_ <? _); cbn; rewrite u32_small by lia;
      split_and!; try done; try apply u32_range; lia. }
  clearbody q b. destruct Hfields as (F1 & F2 & F3 & F4 & F5 & F6).
  assert (Hq1 : qinv (set_queue t idx q) Ls NL).
  { apply qinv_set_queue; try done; [|intros; by rewrite F1|by rewrite F2].
    constructor; rewrite ?F3, ?F4, ?F5; try done. lia. }
  assert (Hself : queues (set_queue t idx q) idx = q) by fn_simpl.
  assert (Hoth : forall i, i <> idx -> queues (set_queue t idx q) i = queues t i) by (intros; fn_simpl).
  set (t1 := set_queue t idx q) in *.
  assert (Hg : ts_virtual t1 = ts_virtual t /\ ts_real t1 = ts_real t /\ nolimit_first t1 = nolimit_first t) by done.
  clearbody t1. destruct Hg as (Gv & Gr & Gf).
  assert (Hfired : forall t', (forall i, q_avail (queues t' i) = q_avail (queues t1 i)) ->
    (forall i, q_rate (queues t' i) = q_rate (queues t1 i)) ->
    (forall i, q_max_chunk (queues t' i) = q_max_chunk (queues t1 i)) ->
    (forall i, i <> idx -> q_flags (queues t' i) = q_flags (queues t1 i)) ->
    (forall i, i <> idx -> q_next_ts (queues t' i) = q_next_ts (queues t1 i)) ->
    (0 < q_avail (queues t' idx) -> q_flags (queues t' idx) <> 0) ->
    ts_virtual t' = ts_virtual t1 -> ts_real t' = ts_real t1 -> nolimit_first t' = nolimit_first t1 ->
    fired t t' idx b).
  { intros t' E1 E2 E3 E4 E4' E5 E6 E7 E8. constructor; try done; try congruence.
    - intros i. rewrite E1. case_decide as Hd; [by rewrite Hd, Hself|by rewrite Hoth].
    - intros i. rewrite E2. destruct (decide (i = idx)) as [->|Hd]; [by rewrite Hself|by rewrite Hoth].
    - intros i. rewrite E3. destruct (decide (i = idx)) as [->|Hd]; [by rewrite Hself|by rewrite Hoth].
    - intros i Hi. by rewrite E4, Hoth.
    - intros i Hi. by rewrite E4', Hoth. }
  destruct (Z.ltb_spec 0 (q_avail q)) as [Hpos|Hpos].
  - destruct (queue_activate_spec fuel t1 Ls NL idx) as (t' & Ls' & NL' & E & Hq' & Hac & Hal);
      [done|by rewrite Hself|done..|].
    rewrite E. cbn. exists t', Ls', NL'. split_and!; try done.
    + destruct Hac. by apply Hfired.
    + intros i Hi. apply (proj1 (activate_lists_elem _ _ _ _ _ _ Hal) i Hi).
    + intros i Hi. apply (proj2 (activate_lists_elem _ _ _ _ _ _ Hal) i Hi).
    + apply activate_lists_length in Hal. lia.
  - cbn. exists t1, Ls, NL. split_and!; try done; [|lia].
    apply Hfired; try done. rewrite Hself. lia.
Qed.

(** ** Removing the first queue of a list *)

(** What removing [idx] from a list leaves alone. *)
Record popped (t t' : qman_thread) (idx : Z) : Prop := {
  po_ts i : q_next_ts (queues t' i) = q_next_ts (queues t i);
  po_rate i : q_rate (queues t' i) = q_rate (queues t i);
  po_avail i : q_avail (queues t' i) = q_avail (queues t i);
  po_chunk i : q_max_chunk (queues t' i) = q_max_chunk (queues t i);
  po_flags i : q_flags (queues t' i) = if decide (i = idx) then 0 else q_flags (queues t i);
  po_real : ts_real t' = ts_real t;
  po_first : nolimit_first t' = nolimit_first t
}.

Lemma pop_nolimit_spec t Ls idx NL :
  qinv t Ls (idx :: NL) ->
  nolimit_head_idx t = idx /\ qinv (pop_nolimit t) Ls NL /\ popped t (pop_nolimit t) idx /\
  ts_virtual (pop_nolimit t) = ts_virtual t.
Proof.
  intros Hq. destruct (qi_nl _ _ _ Hq) as [(Hh & Hi & Hc)%chain_cons Ht Hnd].
  apply NoDup_cons in Hnd as [Hni Hnd].
  assert (Hsl : idx ∉ Ls 0%nat) by (intros ?; eapply (qi_disj _ _ _ Hq); [done|set_solver]).
  assert (Hfl : q_flags (queues t idx) = FLAG_INNOLIMITL).
  { rewrite (qi_flags _ _ _ Hq). unfold flags_of. rewrite decide_False, decide_True; set_solver. }
  set (t' := pop_nolimit t).
  assert (Hqs : forall i, queues t' i = if decide (i = idx)
      then (queues t idx) <| q_flags := 0 |> else queues t i).
  { intros i. unfold t', pop_nolimit. rewrite Hh, Hfl. cbn. destruct (_ =? _); fn_simpl. }
  assert (Hg : head_idx t' = head_idx t /\ ts_virtual t' = ts_virtual t /\ ts_real t' = ts_real t /\
    nolimit_first t' = nolimit_first t /\ nolimit_head_idx t' = nxt t 0 idx /\
    nolimit_tail_idx t' = if nxt t 0 idx =? IDXLIST_INVAL then IDXLIST_INVAL else nolimit_tail_idx t).
  { unfold t', pop_nolimit. rewrite Hh. fold (nxt t 0 idx). destruct (_ =? _); done. }
  clearbody t'. destruct Hg as (Gh & Gv & Gr & Gf & Gn & Gt).
  assert (Hn : forall l i, nxt t' l i = nxt t l i).
  { intros l i. unfold nxt. rewrite Hqs. case_decide; by subst. }
  split_and!; try done.
  - constructor.
    + apply (skiplist_ext t); [by rewrite Gh|by intros| |apply Hq].
      intros i _. unfold key. rewrite Hqs, Gv. case_decide; by subst.
    + constructor; [|rewrite Gt|done].
      * rewrite Gn. eapply seg_ext; [|exact Hc]. by intros.
      * destruct (Z.eqb_spec (nxt t 0 idx) IDXLIST_INVAL) as [E|E].
        -- apply (chain_null _ _ _ _ Hc) in E. by rewrite E.
        -- rewrite Ht, lastd_cons. destruct NL as [|y NL]; [by destruct E|by rewrite !lastd_cons].
    + intros i ??. eapply (qi_disj _ _ _ Hq); [done|set_solver].
    + intros i. rewrite Hqs. unfold flags_of. case_decide as Hd.
      * subst. by rewrite !decide_False.
      * rewrite (qi_flags _ _ _ Hq). unfold flags_of. repeat case_decide; set_solver.
    + intros i. rewrite Hqs. pose proof (qi_ok _ _ _ Hq i) as []. case_decide; subst; by constructor.
    + intros i Hin. apply (qi_range _ _ _ Hq). set_solver.
    + rewrite Gv. apply Hq.
    + rewrite Gr. apply Hq.
  - constructor; try done; intros i; rewrite Hqs; case_decide; by subst.
Qed.

(** The level lists without their first member, where it is [idx]. *)
Definition pop_list (idx : Z) (L : list Z) : list Z :=
  match L with x :: R => if decide (x = idx) then R else L | [] => [] end.

Lemma unlink_head_spec idx n : forall t l,
  (forall l1 l2, (l <= l1 <= l2)%nat -> (l2 < l + n)%nat -> head_idx t l1 <> idx -> head_idx t l2 <> idx) ->
  let t' := unlink_head t idx l n in
  queues t' = queues t /\ nolimit_head_idx t' = nolimit_head_idx t /\
  nolimit_tail_idx t' = nolimit_tail_idx t /\ ts_real t' = ts_real t /\
  ts_virtual t' = ts_virtual t /\ nolimit_first t' = nolimit_first t /\
  forall l', head_idx t' l' =
    if decide (l <= l' < l + n)%nat then
      if decide (head_idx t l' = idx) then nxt t l' idx else head_idx t l'
    else head_idx t l'.
Proof.
  induction n as [|n IH]; intros t l Hm; cbn [unlink_head]; cbn zeta.
  { split_and!; try done. intros l'. by rewrite decide_False by lia. }
  destruct (Z.eqb_spec (head_idx t l) idx) as [E|E].
  - set (t1 := t <| head_idx := <[l := q_next_idxs (queues t idx) l]> (head_idx t) |>).
    assert (Hh1 : forall l', head_idx t1 l' = if decide (l' = l) then nxt t l idx else head_idx t l')
      by (intros; unfold t1; fn_simpl).
    assert (Hn1 : forall l' i, nxt t1 l' i = nxt t l' i) by done.
    destruct (IH t1 (S l)) as (?&?&?&?&?&?&Hh).
    + intros l1 l2 Hle Hlt. rewrite !Hh1. rewrite !decide_False by lia. apply Hm; lia.
    + split_and!; try done. intros l'. rewrite Hh, !Hh1.
      destruct (decide (l' = l)) as [->|].
      * rewrite decide_False by lia. rewrite !decide_True by (done || lia). done.
      * destruct (decide (S l <= l' < S l + n)%nat).
        -- rewrite (decide_True (P := (l <= l' < l + S n)%nat)) by lia. done.
        -- rewrite (decide_False (P := (l <= l' < l + S n)%nat)) by lia. done.
  - split_and!; try done. intros l'. case_decide; [|done].
    rewrite decide_False; [done|]. eapply Hm; [| |exact E]; lia.
Qed.

Lemma pop_list_cases idx R L : idx ∉ R -> L `sublist_of` idx :: R ->
  (L = idx :: pop_list idx L /\ pop_list idx L `sublist_of` R) \/
  (pop_list idx L = L /\ (idx ∉ L) /\ L `sublist_of` R).
Proof.
  intros HR [HL|(L' & -> & HL)]%sublist_cons_r; cbn.
  - right. assert (idx ∉ L) by (intros ?; apply HR; by eapply sublist_elem).
    split_and!; try done. destruct L as [|x L]; [done|]. cbn. rewrite decide_False; set_solver.
  - left. by rewrite decide_True.
Qed.

Lemma pop_list_sub idx R L M :
  idx ∉ R -> L `sublist_of` idx :: R -> M `sublist_of` idx :: R -> L `sublist_of` M ->
  pop_list idx L `sublist_of` pop_list idx M.
Proof.
  intros HR HL HM Hsub.
  destruct (pop_list_cases idx R M HR HM) as [[EM HM']|(EM & HiM & HM')],
    (pop_list_cases idx R L HR HL) as [[EL HL']|(EL & HiL & HL')].
  - rewrite EL, EM in Hsub. apply sublist_cons_l in Hsub as (k1 & k2 & E & Hs).
    assert (Hni : idx ∉ pop_list idx M) by (intros ?; apply HR; eapply sublist_elem; [exact HM'|done]).
    destruct k1 as [|y k1]; cbn in E; [by injection E as ->|injection E as <- E].
    rewrite E in Hni. set_solver.
  - rewrite EL. rewrite EM in Hsub. apply sublist_cons_r in Hsub as [?|(L' & E & ?)]; [done|].
    destruct HiL. rewrite E. left.
  - exfalso. apply HiM. eapply sublist_elem; [exact Hsub|]. rewrite EL. set_solver.
  - by rewrite EL, EM.
Qed.

Lemma pop_chain (nx nx' : Z -> Z) h idx R L :
  idx ∉ R -> L `sublist_of` idx :: R -> idx <> IDXLIST_INVAL -> (forall i, nx' i = nx i) -> qchain nx h L ->
  qchain nx' (if decide (h = idx) then nx idx else h) (pop_list idx L) /\ (h = idx <-> idx ∈ L).
Proof.
  intros HR HL Hi Hnx Hc. destruct (pop_list_cases idx R L HR HL) as [[E _]|(E & HiL & _)].
  - rewrite E in Hc. apply chain_cons in Hc as (-> & _ & Hc). rewrite decide_True by done.
    split; [|rewrite E; set_solver]. eapply seg_ext; [|exact Hc]. by intros.
  - assert (h <> idx).
    { intros ->. destruct L as [|x L]; [by unfold chain in Hc; cbn in Hc|].
      apply chain_cons in Hc as (-> & _). set_solver. }
    rewrite decide_False, E by done. split; [|naive_solver]. eapply seg_ext; [|exact Hc]. by intros.
Qed.

Lemma pop_skiplist_links t Ls idx R :
  skiplist t Ls -> Ls 0%nat = idx :: R ->
  let t' := pop_skiplist t idx in
  (forall l, (l < QMAN_SKIPLIST_LEVELS)%nat -> qchain (nxt t' l) (head_idx t' l) (pop_list idx (Ls l))) /\
  (forall i, queues t' i = if decide (i = idx)
    then (queues t idx) <| q_flags := Z.ldiff (q_flags (queues t idx)) FLAG_INSKIPLIST |> else queues t i) /\
  nolimit_head_idx t' = nolimit_head_idx t /\ nolimit_tail_idx t' = nolimit_tail_idx t /\
  ts_real t' = ts_real t /\ nolimit_first t' = nolimit_first t /\
  ts_virtual t' = q_next_ts (queues t idx).
Proof.
  intros Hsl E0. cbn zeta. pose proof (sl_nodup _ _ Hsl) as Hnd. rewrite E0 in Hnd.
  apply NoDup_cons in Hnd as [HR Hnd].
  assert (Hsub : forall l, Ls l `sublist_of` idx :: R) by (intros l; rewrite <-E0; by eapply sl_sub0).
  assert (Hi : idx <> IDXLIST_INVAL).
  { pose proof (sl_chain _ _ Hsl 0%nat ltac:(unfold QMAN_SKIPLIST_LEVELS; lia)) as Hc.
    rewrite E0 in Hc. by apply chain_cons in Hc as (_ & ? & _). }
  assert (Hhead : forall l, (l < QMAN_SKIPLIST_LEVELS)%nat -> (head_idx t l = idx <-> idx ∈ Ls l)).
  { intros l Hl. eapply (pop_chain (nxt t l) (nxt t l)); [exact HR|apply Hsub|done|done|].
    by apply (sl_chain _ _ Hsl). }
  unfold pop_skiplist.
  destruct (unlink_head_spec idx QMAN_SKIPLIST_LEVELS t 0%nat) as (Eq & En & Et & Er & Ev & Ef & Hh).
  { intros l1 l2 [_ Hle] Hl2. rewrite !Hhead by lia. intros Hn Hin. apply Hn.
    clear Hn. revert Hin. induction Hle as [|l2 Hle IH]; [done|]. intros Hin. apply IH; [lia|].
    eapply sublist_elem; [apply (sl_sub _ _ Hsl)|done]. }
  set (tu := unlink_head t idx 0 QMAN_SKIPLIST_LEVELS) in *. clearbody tu.
  split_and!; try done; [|intros i; cbn; rewrite Eq; fn_simpl].
  intros l Hl. cbn. rewrite Hh. rewrite decide_True by lia.
  eapply (pop_chain (nxt t l)); [exact HR|apply Hsub|done| |by apply (sl_chain _ _ Hsl)].
  intros i. unfold nxt. cbn. rewrite Eq. fn_simpl.
Qed.

End QmanSpec.
