(* ===== verification/QmanPoll.v ===== *)
(** * Polling the queue manager

    The proofs about [Qman.qman_poll]: the loops end, every byte handed out was
    available, the schedule stays well formed, and no queue that is due is passed
    over. *)
From S2P Require Import Prelude Chain Rng Qman QmanSpec.

Module QmanPoll.
Import Qman QmanSpec.

(** ** Advancing the virtual time *)

Definition advance (t : qman_thread) (v : Z) : qman_thread := t <| ts_virtual := v |>.

Lemma virtual_eta (t : qman_thread) v : t <| ts_virtual := v |> <| ts_virtual := ts_virtual t |> = t.
Proof. by destruct t. Qed.

Lemma key_advance t d i : in32 (ts_virtual t) -> in32 (q_next_ts (queues t i)) ->
  0 <= d <= key t i -> key t i < 2147483648 ->
  key (advance t (u32 (ts_virtual t + d))) i = key t i - d.
Proof. intros. unfold key. cbn. by apply rel_time_advance. Qed.

(** Time may move on up to the earliest member of the skip list. *)
Lemma qinv_advance t Ls NL d : qinv t Ls NL -> 0 <= d ->
  (forall i, i ∈ Ls 0%nat -> d <= key t i) ->
  qinv (advance t (u32 (ts_virtual t + d))) Ls NL /\
  (forall i, i ∈ Ls 0%nat -> key (advance t (u32 (ts_virtual t + d))) i = key t i - d).
Proof.
  intros Hq Hd Hall.
  assert (Hk : forall i, i ∈ Ls 0%nat -> key (advance t (u32 (ts_virtual t + d))) i = key t i - d).
  { intros i Hi. apply key_advance; [apply Hq|apply (qi_ok _ _ _ Hq)|split; auto|].
    by apply (sl_keys _ _ (qi_sl _ _ _ Hq)). }
  split; [|done]. destruct (qi_sl _ _ _ Hq). constructor; try apply Hq.
  - constructor; try done.
    + eapply (sorted_by_ext (key t) _ d); [|done]. done.
    + intros i Hi. rewrite Hk by done. specialize (Hall i Hi). specialize (sl_keys0 i Hi). lia.
  - destruct (qi_nl _ _ _ Hq). by constructor.
  - cbn. apply u32_range.
Qed.

Lemma sorted_head_least t Ls NL x R i : qinv t Ls NL -> Ls 0%nat = x :: R -> i ∈ Ls 0%nat ->
  key t x <= key t i.
Proof.
  intros Hq E Hi. pose proof (sl_sorted _ _ (qi_sl _ _ _ Hq)) as Hs. rewrite E in Hs, Hi.
  apply StronglySorted_inv in Hs as [_ Hs]. apply elem_of_cons in Hi as [->|Hi]; [lia|].
  rewrite Forall_forall in Hs. by apply Hs.
Qed.

(** The head of level 0. *)
Lemma skip_head t Ls NL : qinv t Ls NL ->
  (head_idx t 0 = IDXLIST_INVAL /\ Ls 0%nat = []) \/
  (exists R, head_idx t 0 <> IDXLIST_INVAL /\ Ls 0%nat = head_idx t 0 :: R).
Proof.
  intros Hq. pose proof (sl_chain _ _ (qi_sl _ _ _ Hq) 0%nat ltac:(unfold QMAN_SKIPLIST_LEVELS; lia)) as Hc.
  destruct (Ls 0%nat) as [|x R]; [left|right].
  - split; [by apply (chain_null _ _ _ _ Hc)|done].
  - apply chain_cons in Hc as (-> & ? & _). eauto.
Qed.

(** ** Removing the first queue of the skip list *)

Lemma pop_skiplist_spec t Ls NL idx R : qinv t Ls NL -> Ls 0%nat = idx :: R ->
  let t' := pop_skiplist t idx in
  qinv t' (fun l => pop_list idx (Ls l)) NL /\ popped t t' idx /\
  ts_virtual t' = u32 (ts_virtual t + key t idx) /\
  (forall i, i ∈ R -> key t' i = key t i - key t idx).
Proof.
  intros Hq E0 t'. pose proof (qi_sl _ _ _ Hq) as Hsl.
  pose proof (sl_nodup _ _ Hsl) as Hnd. rewrite E0 in Hnd. apply NoDup_cons in Hnd as [HR Hnd].
  assert (Hsub : forall l, Ls l `sublist_of` idx :: R) by (intros l; rewrite <-E0; by eapply sl_sub0).
  destruct (pop_skiplist_links t Ls idx R Hsl E0) as (Hc & Hqs & Gh & Gt & Gr & Gf & Gv).
  fold t' in Hc, Hqs, Gh, Gt, Gr, Gf, Gv.
  assert (Hidx : idx ∈ Ls 0%nat) by (rewrite E0; set_solver).
  assert (Hnl : idx ∉ NL) by (intros ?; by eapply (qi_disj _ _ _ Hq)).
  assert (Hfl : q_flags (queues t idx) = FLAG_INSKIPLIST).
  { rewrite (qi_flags _ _ _ Hq). unfold flags_of. by rewrite decide_True. }
  assert (Hv : ts_virtual t' = u32 (ts_virtual t + key t idx)).
  { rewrite Gv. symmetry. apply rel_time_mod; [apply Hq|apply (qi_ok _ _ _ Hq)]. }
  assert (H0 : pop_list idx (Ls 0%nat) = R) by (rewrite E0; cbn; by rewrite decide_True).
  clearbody t'. set (t0 := t' <| ts_virtual := ts_virtual t |>).
  assert (Hq0 : qinv t0 (fun l => pop_list idx (Ls l)) NL).
  { constructor; try done.
    - constructor.
      + intros l Hl. eapply seg_ext; [|apply Hc; done]. done.
      + intros l Hl. by rewrite (sl_top _ _ Hsl).
      + intros l. by apply (pop_list_sub idx R), (sl_sub _ _ Hsl).
      + by rewrite H0.
      + rewrite H0. eapply (sorted_by_ext (key t) _ 0).
        { intros x Hx. unfold key. cbn. rewrite Hqs. case_decide; subst; cbn; lia. }
        eapply StronglySorted_sublist; [|apply (sl_sorted _ _ Hsl)]. rewrite E0. by constructor.
      + rewrite H0. intros i Hi. unfold key. cbn. rewrite Hqs.
        pose proof (sl_keys _ _ Hsl i ltac:(rewrite E0; set_solver)). by case_decide; subst.
    - destruct (qi_nl _ _ _ Hq) as [Hcn ? ?]. constructor; [|cbn; congruence|done].
      cbn. rewrite Gh. eapply seg_ext; [|exact Hcn]. intros x _. unfold nxt. cbn. rewrite Hqs.
      case_decide; by subst.
    - rewrite H0. intros i ??. eapply (qi_disj _ _ _ Hq); [|done]. rewrite E0; set_solver.
    - intros i. cbn. rewrite Hqs, H0. unfold flags_of. case_decide as Hd.
      + subst. rewrite !decide_False by done. cbn. by rewrite Hfl.
      + rewrite (qi_flags _ _ _ Hq). unfold flags_of. rewrite E0. repeat case_decide; set_solver.
    - intros i. cbn. rewrite Hqs. pose proof (qi_ok _ _ _ Hq i) as []. case_decide; subst; by constructor.
    - rewrite H0. intros i Hi. apply (qi_range _ _ _ Hq). rewrite E0. set_solver.
    - cbn. apply Hq.
    - cbn. rewrite Gr. apply Hq. }
  assert (Hk0 : forall i, key t0 i = key t i).
  { intros i. unfold key. cbn. rewrite Hqs. case_decide; by subst. }
  pose proof (sl_keys _ _ Hsl idx Hidx) as Hki.
  destruct (qinv_advance t0 _ NL (key t idx) Hq0) as [Hq' Hk']; [lia| |].
  { rewrite H0. intros i Hi. rewrite Hk0. eapply sorted_head_least; [done..|]. rewrite E0. set_solver. }
  assert (Et : advance t0 (u32 (ts_virtual t0 + key t idx)) = t').
  { unfold advance, t0. cbn. rewrite <-Hv. apply virtual_eta. }
  rewrite Et in Hq', Hk'. split_and!; try done.
  - constructor; try done; intros i; rewrite Hqs; case_decide as Hd; try (rewrite Hd; done); try done. cbn. by rewrite Hfl.
  - intros i Hi. rewrite Hk' by (by rewrite H0). by rewrite Hk0.
Qed.

(** ** What a poll does *)

(** The bytes handed out for queue [i]. *)
Definition sent (i : Z) (out : list (Z * Z)) : Z :=
  foldr (fun p s => if decide (fst p = i) then snd p + s else s) 0 out.

Lemma sent_cons i j b out : sent i ((j, b) :: out) = (if decide (j = i) then b else 0) + sent i out.
Proof. unfold sent. cbn [foldr fst snd]. case_decide; lia. Qed.

Lemma sent_app i o1 o2 : sent i (o1 ++ o2) = sent i o1 + sent i o2.
Proof. induction o1 as [|[j b] o1 IH]; [done|]. cbn [app]. rewrite !sent_cons, IH. lia. Qed.

(** Only available bytes are handed out, at most [max_chunk] at a time, and nothing
    else about the queues changes. *)
Record polled (t t' : qman_thread) (out : list (Z * Z)) : Prop := {
  pl_avail i : q_avail (queues t' i) = q_avail (queues t i) - sent i out;
  pl_rate i : q_rate (queues t' i) = q_rate (queues t i);
  pl_chunk i : q_max_chunk (queues t' i) = q_max_chunk (queues t i);
  pl_first : nolimit_first t' = nolimit_first t;
  pl_out : Forall (fun p => 0 <= fst p < FLEXNIC_NUM_QMQUEUES /\
    0 <= snd p <= q_max_chunk (queues t (fst p)) /\ 0 < q_avail (queues t (fst p))) out
}.

Lemma sent_nonneg i out : Forall (fun p => 0 <= snd p) out -> 0 <= sent i out.
Proof.
  induction 1 as [|[j b] out Hb _ IH]; [cbn; lia|]. rewrite sent_cons. cbn in Hb. case_decide; lia.
Qed.

Lemma polled_refl t t' : queues t' = queues t -> nolimit_first t' = nolimit_first t ->
  polled t t' [].
Proof. intros E1 E2. constructor; rewrite ?E1; try done. intros. cbn. lia. Qed.

Lemma polled_trans t1 t2 t3 o1 o2 : polled t1 t2 o1 -> polled t2 t3 o2 -> polled t1 t3 (o1 ++ o2).
Proof.
  intros [A1 A2 A3 A4 A5] [B1 B2 B3 B4 B5]. constructor; try congruence.
  - intros i. rewrite B1, A1, sent_app. lia.
  - apply Forall_app. split; [done|]. eapply Forall_impl; [exact B5|]. intros p. cbn beta. rewrite A3, A1.
    pose proof (sent_nonneg (fst p) o1) as Hn. intros (? & ? & ?). split_and!; try lia.
    enough (0 <= sent (fst p) o1) by lia. apply Hn. eapply Forall_impl; [exact A5|]. intros q. cbn. lia.
Qed.

Lemma polled_popped t t' idx : popped t t' idx -> polled t t' [].
Proof. intros []. constructor; try done. intros i. cbn. rewrite po_avail0. lia. Qed.

Lemma polled_fired t t' idx : queue_ok (queues t idx) -> 0 <= idx < FLEXNIC_NUM_QMQUEUES ->
  0 < q_avail (queues t idx) -> fired t t' idx (burst (queues t idx)) -> polled t t' [(idx, burst (queues t idx))].
Proof.
  intros [] Hr Hav []. constructor; try done.
  - intros i. rewrite fi_avail0, sent_cons. cbn. repeat case_decide; subst; try lia; done.
  - constructor; [|done]. cbn. unfold burst. lia.
Qed.

(** Scheduled queues stay scheduled when one of them is removed and fired or found
    to be empty. *)
Lemma scheduled_fired t t1 t' idx b : scheduled t -> popped t t1 idx -> fired t1 t' idx b ->
  scheduled t'.
Proof.
  intros Hs [] [] i Hi. destruct (decide (i = idx)) as [->|Hne]; [by apply fi_active0|].
  rewrite fi_flags0, po_flags0, decide_False by done. apply Hs.
  rewrite fi_avail0, decide_False, po_avail0 in Hi by done. done.
Qed.

Lemma scheduled_empty t t1 idx : scheduled t -> popped t t1 idx -> ~ 0 < q_avail (queues t1 idx) ->
  scheduled t1.
Proof.
  intros Hs [] He i Hi. rewrite po_flags0. case_decide; [by subst|].
  apply Hs. by rewrite <-po_avail0.
Qed.

(** Queue [i] is left alone. *)
Definition untouched (t t' : qman_thread) (i : Z) : Prop :=
  q_avail (queues t' i) = q_avail (queues t i) /\ q_next_ts (queues t' i) = q_next_ts (queues t i).

Lemma untouched_fired t t1 t' idx b i : i <> idx -> popped t t1 idx -> fired t1 t' idx b ->
  untouched t t' i.
Proof.
  intros Hi [] []. unfold untouched. rewrite fi_avail0, fi_ts0, po_avail0, po_ts0 by done.
  by rewrite decide_False.
Qed.

Lemma untouched_popped t t1 idx i : popped t t1 idx -> untouched t t1 i.
Proof. intros []. by split. Qed.

(** One step of either loop on the queue [idx] that has been removed from its list. *)
Lemma fire_popped fuel t t1 Ls1 NL1 idx :
  scheduled t -> popped t t1 idx -> qinv t1 Ls1 NL1 -> 0 <= idx < FLEXNIC_NUM_QMQUEUES ->
  (length (Ls1 0%nat) < fuel)%nat -> 0 < q_avail (queues t1 idx) ->
  exists b t' Ls' NL', queue_fire fuel t1 idx = Done (b, t') /\ qinv t' Ls' NL' /\
    scheduled t' /\ polled t t' [(idx, b)] /\ ts_virtual t' = ts_virtual t1 /\
    ts_real t' = ts_real t /\ (forall i, i <> idx -> untouched t t' i) /\
    (forall i, i ∈ Ls1 0%nat -> i ∈ Ls' 0%nat) /\ (forall i, i ∈ NL1 -> i ∈ NL') /\
    (length (Ls' 0%nat) + length NL' <= S (length (Ls1 0%nat) + length NL1))%nat.
Proof.
  intros Hs Hp Hq Hr Hf Hav.
  destruct (queue_fire_spec fuel t1 Ls1 NL1 idx) as (t' & Ls' & NL' & E & Hq' & Hfi & HS & HN & Hlen); try done.
  { rewrite (po_flags _ _ _ Hp). by rewrite decide_True. }
  eexists _, t', Ls', NL'. split; [exact E|]. split_and!; try done.
  - by eapply scheduled_fired.
  - eapply (polled_trans _ _ _ []); [by eapply polled_popped|]. apply polled_fired; [apply Hq|done..].
  - apply Hfi.
  - rewrite (fi_real _ _ _ _ Hfi). apply Hp.
  - intros i Hi. by eapply untouched_fired.
Qed.

Lemma untouched_trans t1 t2 t3 i : untouched t1 t2 i -> untouched t2 t3 i -> untouched t1 t3 i.
Proof. unfold untouched. intros [-> ->] [-> ->]. done. Qed.

(** What a loop over one of the two lists guarantees: it hands out at most [num]
    entries, keeps the schedule, leaves the members [Keep] of the other list alone,
    and passes over none of the members [Due] of its own list that has bytes to send,
    unless it ran out of room. *)
Record loop_ok (t t' : qman_thread) (out : list (Z * Z)) (num : Z) (n : nat)
    (Ls' : nat -> list Z) (NL' : list Z) (Due : Z -> Prop) : Prop := {
  lo_inv : qinv t' Ls' NL';
  lo_sched : scheduled t';
  lo_polled : polled t t' out;
  lo_num : Z.of_nat (length out) <= num;
  lo_size : (length (Ls' 0%nat) + length NL' <= n)%nat;
  lo_due i : Z.of_nat (length out) < num -> Due i -> 0 < q_avail (queues t i) -> i ∈ out.*1
}.

Lemma loop_ok_fire t t2 t' idx b out num n n' Ls' NL' (Due Due' : Z -> Prop) :
  polled t t2 [(idx, b)] -> (n' <= n)%nat ->
  (forall i, i <> idx -> Due i -> Due' i /\ untouched t t2 i) ->
  loop_ok t2 t' out (num - 1) n' Ls' NL' Due' ->
  loop_ok t t' ((idx, b) :: out) num n Ls' NL' Due.
Proof.
  intros Hp Hn HD []. constructor; try done.
  - by apply (polled_trans t t2 t' [(idx, b)] out).
  - cbn [length]. lia.
  - lia.
  - intros i Hl Hd Hav. cbn. destruct (decide (i = idx)) as [->|Hne]; [left|right].
    destruct (HD i Hne Hd) as [Hd' [Ea _]]. apply lo_due0; [cbn [length] in Hl; lia|done|by rewrite Ea].
Qed.

Lemma loop_ok_skip t t1 t' idx out num n n' Ls' NL' (Due Due' : Z -> Prop) :
  popped t t1 idx -> ~ 0 < q_avail (queues t1 idx) -> (n' <= n)%nat ->
  (forall i, i <> idx -> Due i -> Due' i) ->
  loop_ok t1 t' out num n' Ls' NL' Due' ->
  loop_ok t t' out num n Ls' NL' Due.
Proof.
  intros Hp He Hn HD []. constructor; try done.
  - apply (polled_trans t t1 t' [] out); [by eapply polled_popped|done].
  - lia.
  - intros i Hl Hd Hav. rewrite <-(po_avail _ _ _ Hp) in Hav.
    apply lo_due0; [done|apply HD; [by intros ->|done]|done].
Qed.

Lemma loop_ok_stop t t' num n Ls NL (Due : Z -> Prop) :
  qinv t' Ls NL -> scheduled t -> queues t' = queues t -> nolimit_first t' = nolimit_first t ->
  0 <= num -> (length (Ls 0%nat) + length NL <= n)%nat -> (0 < num -> forall i, Due i -> False) ->
  loop_ok t t' [] num n Ls NL Due.
Proof.
  intros Hq Hs E1 E2 Hn Hl HD. constructor; try done.
  - intros i. rewrite E1. apply Hs.
  - by apply polled_refl.
  - intros i Hnum Hd. destruct (HD Hnum i Hd).
Qed.

Lemma poll_nolimit_spec : forall fuel t Ls NL num,
  qinv t Ls NL -> scheduled t -> 0 <= num ->
  num + Z.of_nat (length (Ls 0%nat) + length NL) < Z.of_nat fuel ->
  exists out t' Ls' NL', poll_nolimit fuel t num = Done (out, t') /\
    loop_ok t t' out num (length (Ls 0%nat) + length NL) Ls' NL' (fun i => i ∈ NL) /\
    ts_virtual t' = ts_virtual t /\ ts_real t' = ts_real t /\
    (forall i, i ∈ Ls 0%nat -> i ∈ Ls' 0%nat /\ untouched t t' i).
Proof.
  induction fuel as [|fuel IH]; intros t Ls NL num Hq Hs Hnum Hf; [lia|]. cbn [poll_nolimit].
  destruct NL as [|idx NL].
  { pose proof (chain_null _ _ _ _ (nl_chain _ _ (qi_nl _ _ _ Hq))) as [_ ->]; [|done].
    rewrite Z.eqb_refl, andb_false_r. exists [], t, Ls, []. split; [done|]. split_and!; try done.
    apply loop_ok_stop; try done. set_solver. }
  destruct (pop_nolimit_spec _ _ _ _ Hq) as (Eh & Hq1 & Hp & Ev). rewrite Eh.
  assert (Hr : 0 <= idx < FLEXNIC_NUM_QMQUEUES) by (apply (qi_range _ _ _ Hq); set_solver).
  rewrite (proj2 (Z.eqb_neq _ _) (qinv_not_inval _ _ _ _ Hq Hr)), andb_true_r.
  assert (HSL : forall i, i ∈ Ls 0%nat -> i <> idx).
  { intros i Hi ->. eapply (qi_disj _ _ _ Hq); [done|set_solver]. }
  destruct (Z.ltb_spec 0 num) as [Hn|Hn].
  2:{ exists [], t, Ls, (idx :: NL). split; [done|]. split_and!; try done.
      apply loop_ok_stop; try done. lia. }
  cbn [length] in Hf. destruct (Z.ltb_spec 0 (q_avail (queues (pop_nolimit t) idx))) as [Ha|Ha].
  - destruct (fire_popped (S fuel) t _ Ls NL idx Hs Hp Hq1 Hr ltac:(lia) Ha)
      as (b & t2 & Ls2 & NL2 & E & Hq2 & Hs2 & Hpl & Ev2 & Er2 & Hu & HS & HN & Hlen).
    destruct (IH t2 Ls2 NL2 (num - 1) Hq2 Hs2 ltac:(lia) ltac:(lia)) as (out & t' & Ls' & NL' & E' & Hl & Ev' & Er' & HS').
    exists ((idx, b) :: out), t', Ls', NL'. rewrite E. cbn. rewrite E'. cbn.
    split_and!; try congruence; try done.
    + eapply loop_ok_fire; [exact Hpl| | |exact Hl]; [cbn; lia|].
      intros i Hi Hin. split; [apply HN; set_solver|by apply Hu].
    + intros i Hi. destruct (HS' i) as [? Hu']; [auto|]. split; [done|].
      eapply untouched_trans; [by apply Hu, HSL|done].
  - destruct (IH _ Ls NL num Hq1 ltac:(by eapply scheduled_empty, Z.le_ngt; eauto) Hnum ltac:(lia))
      as (out & t' & Ls' & NL' & E' & Hl & Ev' & Er' & HS').
    exists out, t', Ls', NL'. split_and!; try congruence; try done.
    + eapply loop_ok_skip; [exact Hp|lia| | |exact Hl]; [cbn; lia|set_solver].
    + rewrite Er'. apply Hp.
    + intros i Hi. destruct (HS' i Hi) as [? Hu']. split; [done|].
      eapply untouched_trans; [by eapply untouched_popped|done].
Qed.

(** Queues of the skip list that may send no later than the virtual time [vts]. *)
Definition due (t : qman_thread) (Ls : nat -> list Z) (vts i : Z) : Prop :=
  i ∈ Ls 0%nat /\ key t i <= rel_time (ts_virtual t) vts.

Lemma due_popped t t1 t2 Ls R idx vts i : in32 (ts_virtual t) -> in32 vts ->
  Ls 0%nat = idx :: R -> 0 <= key t idx <= rel_time (ts_virtual t) vts ->
  rel_time (ts_virtual t) vts < 2147483648 ->
  ts_virtual t2 = u32 (ts_virtual t + key t idx) -> ts_virtual t1 = ts_virtual t2 ->
  (forall i, i ∈ R -> key t1 i = key t i - key t idx) ->
  q_next_ts (queues t2 i) = q_next_ts (queues t1 i) ->
  i <> idx -> due t Ls vts i -> i ∈ R /\ key t2 i <= rel_time (ts_virtual t2) vts.
Proof.
  intros Hv Hm E0 Hk Hlt E2 E1 HR Ets Hi [Hin Hle].
  assert (Hir : i ∈ R) by (rewrite E0 in Hin; set_solver). split; [done|].
  unfold key in *. rewrite Ets, <-E1, (HR i Hir), E1, E2.
  rewrite rel_time_advance by done. lia.
Qed.

Lemma poll_skiplist_loop_spec vts : in32 vts -> forall fuel t Ls NL num,
  qinv t Ls NL -> scheduled t -> 0 <= num ->
  0 <= rel_time (ts_virtual t) vts < 2147483648 ->
  num + Z.of_nat (length (Ls 0%nat) + length NL) < Z.of_nat fuel ->
  exists out full t' Ls' NL', poll_skiplist_loop fuel t vts num = Done (out, full, t') /\
    loop_ok t t' out num (length (Ls 0%nat) + length NL) Ls' NL' (due t Ls vts) /\
    ts_real t' = ts_real t /\ (forall i, i ∈ NL -> i ∈ NL' /\ untouched t t' i) /\
    if full then 0 <= rel_time (ts_virtual t') vts < 2147483648 else ts_virtual t' = vts.
Proof.
  intros Hvts. induction fuel as [|fuel IH]; intros t Ls NL num Hq Hs Hnum Hrem Hf; [lia|].
  cbn [poll_skiplist_loop]. destruct (Z.ltb_spec 0 num) as [Hn|Hn]; cbn [negb].
  2:{ exists [], true, t, Ls, NL. split_and!; try done; try lia.
      apply loop_ok_stop; try done. lia. }
  pose proof (qi_virtual _ _ _ Hq) as Hv.
  assert (Hstop : (forall i, i ∈ Ls 0%nat -> rel_time (ts_virtual t) vts < key t i) ->
    loop_ok t (advance t vts) [] num (length (Ls 0%nat) + length NL) Ls NL (due t Ls vts)).
  { intros Hlate. apply loop_ok_stop; try done.
    - rewrite <-(rel_time_mod (ts_virtual t) vts) by done.
      apply qinv_advance; [done|lia|]. intros i Hi. specialize (Hlate i Hi). lia.
    - intros _ i [Hi Hle]. specialize (Hlate i Hi). lia. }
  destruct (skip_head _ _ _ Hq) as [[-> E0]|(R & Hi & E0)].
  { rewrite Z.eqb_refl. exists [], false, (advance t vts), Ls, NL. split_and!; try done.
    apply Hstop. rewrite E0. set_solver. }
  set (idx := head_idx t 0) in *. rewrite (proj2 (Z.eqb_neq _ _) Hi).
  unfold timestamp_lessthaneq. fold (key t idx).
  destruct (Z.leb_spec (key t idx) (rel_time (ts_virtual t) vts)) as [Hdue|Hlate]; cbn [negb].
  2:{ exists [], false, (advance t vts), Ls, NL. split_and!; try done.
      apply Hstop. intros i Hin. pose proof (sorted_head_least _ _ _ _ _ i Hq E0 Hin). lia. }
  assert (Hin : idx ∈ Ls 0%nat) by (rewrite E0; set_solver).
  assert (has (q_flags (queues t idx)) FLAG_INSKIPLIST = true) as ->.
  { rewrite (qi_flags _ _ _ Hq). unfold flags_of. by rewrite decide_True. }
  cbn [negb]. pose proof (sl_keys _ _ (qi_sl _ _ _ Hq) idx Hin) as Hk.
  destruct (pop_skiplist_spec _ _ _ _ _ Hq E0) as (Hq1 & Hp & Ev & HR).
  set (t1 := pop_skiplist t idx) in *. clearbody t1.
  assert (E1 : pop_list idx (Ls 0%nat) = R) by (rewrite E0; cbn; by rewrite decide_True).
  assert (Hr : 0 <= idx < FLEXNIC_NUM_QMQUEUES) by (apply (qi_range _ _ _ Hq); set_solver).
  assert (Hnl : forall i, i ∈ NL -> i <> idx) by (intros i ? ->; by eapply (qi_disj _ _ _ Hq)).
  assert (Hrem1 : forall t2, ts_virtual t2 = ts_virtual t1 -> 0 <= rel_time (ts_virtual t2) vts < 2147483648).
  { intros t2 ->. rewrite Ev, rel_time_advance by (done || lia). lia. }
  rewrite E0 in Hf. cbn [length] in Hf.
  destruct (Z.ltb_spec 0 (q_avail (queues t1 idx))) as [Ha|Ha].
  - destruct (fire_popped (S fuel) t t1 _ NL idx Hs Hp Hq1 Hr ltac:(cbn beta; rewrite E1; lia) Ha)
      as (b & t2 & Ls2 & NL2 & E & Hq2 & Hs2 & Hpl & Ev2 & Er2 & Hu & HS & HN & Hlen).
    cbn beta in Hlen, HS. rewrite E1 in Hlen, HS.
    destruct (IH t2 Ls2 NL2 (num - 1) Hq2 Hs2 ltac:(lia) ltac:(by apply Hrem1) ltac:(lia))
      as (out & full & t' & Ls' & NL' & E' & Hl & Er' & HS' & Hfull).
    exists ((idx, b) :: out), full, t', Ls', NL'. rewrite E. cbn. rewrite E'. cbn.
    split_and!; try congruence; try done.
    + eapply loop_ok_fire; [exact Hpl| | |exact Hl]; [rewrite E0; cbn; lia|].
      intros i Hne Hd. split; [|by apply Hu].
      destruct (due_popped t t1 t2 Ls R idx vts i) as [? ?]; try done; try congruence; try lia.
      * destruct (Hu i Hne) as [_ ->]. symmetry. apply Hp.
      * split; auto.
    + intros i Hin'. destruct (HS' i) as [? Hu']; [auto|]. split; [done|].
      eapply untouched_trans; [by apply Hu, Hnl|done].
  - destruct (IH t1 _ NL num Hq1 ltac:(by eapply scheduled_empty, Z.le_ngt; eauto) Hnum
        ltac:(by apply Hrem1) ltac:(cbn beta; rewrite E1; lia))
      as (out & full & t' & Ls' & NL' & E' & Hl & Er' & HS' & Hfull).
    exists out, full, t', Ls', NL'. split_and!; try congruence; try done.
    + eapply loop_ok_skip; [exact Hp|lia| | |exact Hl]; [rewrite E1, E0; cbn; lia|].
      intros i Hne Hd. destruct (due_popped t t1 t1 Ls R idx vts i) as [? ?]; try done; try lia.
      split; [by rewrite E1|done].
    + rewrite Er'. apply Hp.
    + intros i Hin'. destruct (HS' i Hin') as [? Hu']. split; [done|].
      eapply untouched_trans; [by eapply untouched_popped|done].
Qed.

(** ** Both lists *)

Lemma loop_ok_ext t t1 t2 out num n Ls NL Due :
  queues t2 = queues t1 -> nolimit_first t2 = nolimit_first t1 -> qinv t2 Ls NL ->
  loop_ok t t1 out num n Ls NL Due -> loop_ok t t2 out num n Ls NL Due.
Proof.
  intros E1 E2 Hq []. constructor; try done.
  - intros i. rewrite E1. apply lo_sched0.
  - destruct lo_polled0. constructor; rewrite ?E1, ?E2; done.
Qed.

Lemma qinv_real t Ls NL cur : qinv t Ls NL -> in32 cur -> qinv (t <| ts_real := cur |>) Ls NL.
Proof.
  intros [[] [] ? ? ? ? ? ?] ?. by constructor; [constructor|constructor|..].
Qed.

Lemma qinv_first t Ls NL b : qinv t Ls NL -> qinv (t <| nolimit_first := b |>) Ls NL.
Proof.
  intros [[] [] ? ? ? ? ? ?]. by constructor; [constructor|constructor|..].
Qed.

(** The end of [poll_skiplist] when the loop ran out of room: time moves on to the next
    due queue. *)
Lemma qinv_advance_full t Ls NL vts : qinv t Ls NL -> in32 vts ->
  0 <= rel_time (ts_virtual t) vts < 2147483648 ->
  let idx := head_idx t 0%nat in
  qinv (if negb (idx =? IDXLIST_INVAL) && timestamp_lessthaneq t (q_next_ts (queues t idx)) vts
        then t <| ts_virtual := q_next_ts (queues t idx) |> else t <| ts_virtual := vts |>) Ls NL.
Proof.
  intros Hq Hvts Hrem idx. pose proof (qi_virtual _ _ _ Hq) as Hv.
  assert (Hmove : forall v, in32 v -> 0 <= rel_time (ts_virtual t) v ->
    (forall i, i ∈ Ls 0%nat -> rel_time (ts_virtual t) v <= key t i) ->
    qinv (t <| ts_virtual := v |>) Ls NL).
  { intros v Hv' H0 Hall. change (qinv (advance t v) Ls NL).
    rewrite <-(rel_time_mod (ts_virtual t) v) by done. by apply qinv_advance. }
  destruct (skip_head _ _ _ Hq) as [[E E0]|(R & Hi & E0)]; fold idx in E || fold idx in Hi, E0.
  { rewrite E. cbn. apply Hmove; [done|lia|]. rewrite E0. set_solver. }
  rewrite (proj2 (Z.eqb_neq _ _) Hi). cbn [negb andb]. unfold timestamp_lessthaneq.
  fold (key t idx).
  assert (Hin : idx ∈ Ls 0%nat) by (rewrite E0; set_solver).
  pose proof (sl_keys _ _ (qi_sl _ _ _ Hq) idx Hin).
  pose proof (fun i Hi => sorted_head_least _ _ _ _ _ i Hq E0 Hi) as Hleast.
  destruct (Z.leb_spec (key t idx) (rel_time (ts_virtual t) vts)); apply Hmove; try lia; try done.
  - apply (qi_ok _ _ _ Hq).
  - unfold key at 1 in H. lia.
  - intros i Hin'. specialize (Hleast i Hin'). lia.
Qed.

Definition elapsed (t : qman_thread) (ts : Z) : Z := u32 (ts - ts_real t).

Lemma poll_skiplist_spec fuel t Ls NL ts num :
  qinv t Ls NL -> scheduled t -> 0 <= num -> in32 ts -> elapsed t ts < 2147483648 ->
  num + Z.of_nat (length (Ls 0%nat) + length NL) < Z.of_nat fuel ->
  exists out t' Ls' NL', poll_skiplist fuel t ts num = Done (out, t') /\
    loop_ok t t' out num (length (Ls 0%nat) + length NL) Ls' NL'
      (fun i => i ∈ Ls 0%nat /\ key t i <= elapsed t ts) /\
    ts_real t' = ts /\ (forall i, i ∈ NL -> i ∈ NL' /\ untouched t t' i).
Proof.
  intros Hq Hs Hnum Hts Hel Hf. unfold poll_skiplist. fold (elapsed t ts).
  set (vts := u32 (ts_virtual t + elapsed t ts)).
  pose proof (u32_range (ts - ts_real t)) as Hel0. fold (elapsed t ts) in Hel0.
  assert (Hrem : rel_time (ts_virtual t) vts = elapsed t ts).
  { apply rel_time_offset; [apply Hq|lia]. }
  assert (Hvts : in32 vts) by apply u32_range.
  destruct (poll_skiplist_loop_spec vts Hvts fuel t Ls NL num) as
    (out & full & t1 & Ls' & NL' & E & Hl & Er & HN & Hfull); try done; [lia|].
  rewrite E. cbn -[poll_skiplist_loop]. unfold due in Hl. rewrite Hrem in Hl.
  destruct full; (eexists out, _, Ls', NL'; split; [reflexivity|split_and!]).
  - eapply (loop_ok_ext _ t1); [| | |exact Hl]; [by case_match|by case_match|].
    apply qinv_real; [|done]. apply qinv_advance_full; [apply Hl|done|done].
  - done.
  - intros i Hi. destruct (HN i Hi) as [? [Ea Et]]. split; [done|]. by split; case_match.
  - eapply (loop_ok_ext _ t1); [done|done| |exact Hl]. apply qinv_real; [apply Hl|done].
  - done.
  - done.
Qed.

Lemma loop_ok_seq t t1 t2 x y num n n1 Ls1 NL1 Ls2 NL2 (D1 D2 D2' D : Z -> Prop) :
  loop_ok t t1 x num n Ls1 NL1 D1 ->
  loop_ok t1 t2 y (num - Z.of_nat (length x)) n1 Ls2 NL2 D2' -> (n1 <= n)%nat ->
  (forall i, D2 i -> D2' i /\ untouched t t1 i) -> (forall i, D i -> D1 i \/ D2 i) ->
  loop_ok t t2 (x ++ y) num n Ls2 NL2 D.
Proof.
  intros [] [] Hn HD HD'. constructor; try done.
  - by eapply polled_trans.
  - rewrite length_app. lia.
  - lia.
  - intros i. rewrite length_app, fmap_app, elem_of_app. intros Hlen [Hd|Hd]%HD' Hav.
    + left. apply lo_due0; [lia|done|done].
    + right. destruct (HD i Hd) as [Hd' [Ea _]]. apply lo_due1; [lia|done|by rewrite Ea].
Qed.

Lemma qman_poll_loops fuel t Ls NL ts num :
  qinv t Ls NL -> scheduled t -> 0 <= num -> in32 ts -> elapsed t ts < 2147483648 ->
  num + Z.of_nat (length (Ls 0%nat) + length NL) < Z.of_nat fuel ->
  exists out t1 Ls' NL',
    qman_poll fuel t ts num = Done (out, t1 <| nolimit_first := negb (nolimit_first t1) |>) /\
    loop_ok t t1 out num (length (Ls 0%nat) + length NL) Ls' NL'
      (fun i => i ∈ NL \/ (i ∈ Ls 0%nat /\ key t i <= elapsed t ts)) /\ ts_real t1 = ts.
Proof.
  intros Hq Hs Hnum Hts Hel Hf. unfold qman_poll. destruct (nolimit_first t).
  - destruct (poll_nolimit_spec fuel t Ls NL num) as (x & t1 & L1 & N1 & E1 & H1 & Ev & Er & HS); try done.
    pose proof H1 as [Hq1 Hs1 Hp1 Hn1 Hz1 _].
    assert (Eel : elapsed t1 ts = elapsed t ts) by (unfold elapsed; by rewrite Er).
    destruct (poll_skiplist_spec fuel t1 L1 N1 ts (num - Z.of_nat (length x)))
      as (y & t2 & L2 & N2 & E2 & H2 & Er2 & HN); try done; try lia.
    rewrite E1. cbn. rewrite E2. cbn. eexists (x ++ y), t2, L2, N2. split_and!; try done.
    eapply loop_ok_seq; [exact H1|exact H2|done| |intros i Hi; exact Hi].
    intros i [Hin Hle]. destruct (HS i Hin) as [Hin1 Hu]. split; [|done]. split; [done|].
    destruct Hu as [_ Et]. unfold key. rewrite Ev, Et, Eel. done.
  - destruct (poll_skiplist_spec fuel t Ls NL ts num) as (x & t1 & L1 & N1 & E1 & H1 & Er & HN); try done.
    pose proof H1 as [Hq1 Hs1 Hp1 Hn1 Hz1 _].
    destruct (poll_nolimit_spec fuel t1 L1 N1 (num - Z.of_nat (length x)))
      as (y & t2 & L2 & N2 & E2 & H2 & Ev & Er2 & HS); try done; try lia.
    rewrite E1. cbn. rewrite E2. cbn. eexists (x ++ y), t2, L2, N2. split_and!; [done| |congruence].
    eapply loop_ok_seq; [exact H1|exact H2|done| |].
    + intros i Hi. exact (HN i Hi).
    + intros i [?|?]; auto.
Qed.

End QmanPoll.
