(* ===== verification/QmanProps.v ===== *)
(** * The properties of the queue manager

    The theorems about [Qman] that the rest of the development and its readers rely
    on, stated with the invariant of [QmanSpec]. *)
From S2P Require Import Prelude Chain Rng Qman QmanSpec QmanPoll.

Module QmanProps.
Import Qman QmanSpec QmanPoll.

(** The lists never hold more than one entry per queue. *)
Lemma qinv_size t Ls NL : qinv t Ls NL ->
  Z.of_nat (length (Ls 0%nat) + length NL) <= FLEXNIC_NUM_QMQUEUES.
Proof.
  intros Hq. rewrite <-length_app.
  assert (Hsub : Ls 0%nat ++ NL ⊆+ seqZ 0 FLEXNIC_NUM_QMQUEUES).
  { apply NoDup_submseteq.
    - apply NoDup_app. split_and!; [apply Hq|intros i ??; by eapply (qi_disj _ _ _ Hq)|apply Hq].
    - intros x Hx%(qi_range _ _ _ Hq). apply elem_of_seqZ. lia. }
  apply submseteq_length in Hsub. rewrite length_seqZ in Hsub.
  unfold FLEXNIC_NUM_QMQUEUES in *. lia.
Qed.

(** A state with the invariant for some lists. *)
Definition qman_ok (t : qman_thread) : Prop := (exists Ls NL, qinv t Ls NL) /\ scheduled t.

(** Queue [i] may send within [e] nanoseconds of virtual time: it is in the FIFO list,
    or its time comes. *)
Definition ready (t : qman_thread) (e i : Z) : Prop :=
  q_flags (queues t i) = FLAG_INNOLIMITL \/
  (q_flags (queues t i) = FLAG_INSKIPLIST /\ key t i <= e).

Lemma flags_in_nl t Ls NL i : qinv t Ls NL -> q_flags (queues t i) = FLAG_INNOLIMITL -> i ∈ NL.
Proof.
  intros Hq. rewrite (qi_flags _ _ _ Hq). unfold flags_of, FLAG_INNOLIMITL, FLAG_INSKIPLIST.
  repeat case_decide; done.
Qed.

Lemma flags_in_sl t Ls NL i : qinv t Ls NL -> q_flags (queues t i) = FLAG_INSKIPLIST -> i ∈ Ls 0%nat.
Proof.
  intros Hq. rewrite (qi_flags _ _ _ Hq). unfold flags_of, FLAG_INNOLIMITL, FLAG_INSKIPLIST.
  repeat case_decide; done.
Qed.

Lemma qman_thread_init_inv id ts nf : in32 ts -> qman_ok (qman_thread_init id ts nf).
Proof.
  intros Hts. split; [|intros i; cbn; lia]. exists (fun _ => []), []. constructor; try done.
  - constructor; [by intros..|constructor|constructor|set_solver].
  - constructor; try done. constructor.
  - set_solver.
  - set_solver.
Qed.

Lemma qman_set_inv fuel t id rate avail max_chunk flags :
  qman_ok t -> FLEXNIC_NUM_QMQUEUES < Z.of_nat fuel -> 0 <= id < FLEXNIC_NUM_QMQUEUES ->
  queue_ok (set_queue_args (queues t id) rate avail max_chunk flags) ->
  exists t', qman_set fuel t id rate avail max_chunk flags = Done (true, t') /\ qman_ok t' /\
    (let q := set_queue_args (queues t id) rate avail max_chunk flags in
     q_avail (queues t' id) = q_avail q /\ q_rate (queues t' id) = q_rate q /\
     q_max_chunk (queues t' id) = q_max_chunk q) /\
    ts_virtual t' = ts_virtual t /\ ts_real t' = ts_real t /\
    (forall i, i <> id -> q_avail (queues t' i) = q_avail (queues t i) /\
      q_rate (queues t' i) = q_rate (queues t i) /\
      q_max_chunk (queues t' i) = q_max_chunk (queues t i)).
Proof.
  intros [(Ls & NL & Hq) Hs] Hf Hid Hok. pose proof (qinv_size _ _ _ Hq).
  destruct (set_impl_spec fuel t Ls NL id rate avail max_chunk flags Hq Hs Hid ltac:(lia) Hok)
    as (t' & Ls' & NL' & E & Hq' & Hs' & ?&?&?&?&?&?).
  exists t'. unfold qman_set. rewrite (proj2 (Z.leb_gt _ _)) by lia. rewrite E.
  split_and!; try done. split; [by exists Ls', NL'|done].
Qed.

(** One poll: everything about the loops and the entries handed out. *)
Lemma qman_poll_inv fuel t ts num :
  qman_ok t -> 0 <= num -> in32 ts -> elapsed t ts < 2147483648 ->
  num + FLEXNIC_NUM_QMQUEUES < Z.of_nat fuel ->
  exists out t', qman_poll fuel t ts num = Done (out, t') /\ qman_ok t' /\ ts_real t' = ts /\
    Z.of_nat (length out) <= num /\
    (forall i, q_avail (queues t' i) + sent i out = q_avail (queues t i) /\
      q_rate (queues t' i) = q_rate (queues t i) /\
      q_max_chunk (queues t' i) = q_max_chunk (queues t i)) /\
    Forall (fun p => 0 <= fst p < FLEXNIC_NUM_QMQUEUES /\
      0 <= snd p <= q_max_chunk (queues t (fst p)) /\ 0 < q_avail (queues t (fst p))) out /\
    (forall i, Z.of_nat (length out) < num -> 0 < q_avail (queues t i) ->
      ready t (elapsed t ts) i -> i ∈ out.*1).
Proof.
  intros [(Ls & NL & Hq) Hs] Hnum Hts Hel Hf. pose proof (qinv_size _ _ _ Hq).
  destruct (qman_poll_loops fuel t Ls NL ts num) as (out & t1 & Ls' & NL' & E & [] & Er); try done; [lia|].
  destruct lo_polled0. eexists out, _. split; [exact E|].
  split_and!; try done.
  - split; [|done]. exists Ls', NL'. by apply qinv_first.
  - intros i. cbn. rewrite pl_avail0, pl_rate0, pl_chunk0. split_and!; [lia|done..].
  - intros i Hl Hav Hr. apply lo_due0; [done| |done]. destruct Hr as [Hr|[Hr Hk]]; [left|right].
    + by eapply flags_in_nl.
    + split; [by eapply flags_in_sl|done].
Qed.

(** C4: One poll of the queue manager ends within a fuel that only depends on the
    number of queues, hands out at most [num] entries, hands out for every queue only
    bytes it had available (what it sends and what stays available add up) and never
    more than its chunk size at once, leaves rates and chunk sizes alone, keeps the
    lists well formed and every queue with bytes scheduled, and serves every queue with
    bytes that is in the FIFO list or whose time has come, unless it ran out of
    room. *)
Theorem qman_poll_correct fuel t ts num :
  qman_ok t -> 0 <= num -> in32 ts -> elapsed t ts < 2147483648 ->
  num + FLEXNIC_NUM_QMQUEUES < Z.of_nat fuel ->
  exists out t', qman_poll fuel t ts num = Done (out, t') /\ qman_ok t' /\ ts_real t' = ts /\
    Z.of_nat (length out) <= num /\
    (forall i, q_avail (queues t' i) + sent i out = q_avail (queues t i) /\
      q_rate (queues t' i) = q_rate (queues t i) /\
      q_max_chunk (queues t' i) = q_max_chunk (queues t i)) /\
    (forall i b, (i, b) ∈ out -> 0 <= i < FLEXNIC_NUM_QMQUEUES /\
      0 <= b <= q_max_chunk (queues t i)) /\
    (forall i, Z.of_nat (length out) < num -> 0 < q_avail (queues t i) ->
      ready t (elapsed t ts) i -> i ∈ out.*1).
Proof.
  intros Hok Hnum Hts Hel Hf.
  destruct (qman_poll_inv fuel t ts num Hok Hnum Hts Hel Hf) as (out & t' & E & Hok' & Er & Hl & Ha & Ho & Hd).
  exists out, t'. split_and!; try done; intros i b Hin; 
    rewrite Forall_forall in Ho; by destruct (Ho (i, b) Hin) as (? & ? & ?).
Qed.

Lemma ex_queue_ok : queue_ok (set_queue_args (queues (qman_thread_init 1 5 true) 7) 0 3000 1448
  (Z.lor QMAN_SET_RATE (Z.lor QMAN_SET_MAXCHUNK QMAN_SET_AVAIL))).
Proof. constructor; vm_compute; intuition congruence. Qed.

Lemma qman_poll_correct_witness : exists t out t',
  qman_set (Z.to_nat 200000) (qman_thread_init 1 5 true) 7 0 3000 1448
    (Z.lor QMAN_SET_RATE (Z.lor QMAN_SET_MAXCHUNK QMAN_SET_AVAIL)) = Done (true, t) /\
  qman_poll (Z.to_nat 200000) t 1000 8 = Done (out, t') /\
  q_avail (queues t' 7) + sent 7 out = 3000.
Proof.
  destruct (qman_set_inv (Z.to_nat 200000) (qman_thread_init 1 5 true) 7 0 3000 1448
    (Z.lor QMAN_SET_RATE (Z.lor QMAN_SET_MAXCHUNK QMAN_SET_AVAIL)))
    as (t & E & Hok & (Ha & _) & _ & Er & _);
    [by apply qman_thread_init_inv|unfold FLEXNIC_NUM_QMQUEUES; lia..|exact ex_queue_ok|].
  destruct (qman_poll_correct (Z.to_nat 200000) t 1000 8) as (out & t' & E' & _ & _ & _ & Hq & _);
    [done|lia|lia|unfold elapsed; rewrite Er; reflexivity|unfold FLEXNIC_NUM_QMQUEUES; lia|].
  exists t, out, t'. split; [exact E|]. split; [exact E'|].
  rewrite (proj1 (Hq 7)), Ha. reflexivity.
Defined.

(** [qman_set] refuses an id outside of the table without changing anything; for
    any other id it returns, sets exactly the attributes its flags select (the new
    available count is the given one, or the wrapped sum for [QMAN_ADD_AVAIL]), leaves
    every other queue alone and keeps every queue with bytes scheduled. *)
Theorem qman_set_correct fuel t id rate avail max_chunk flags :
  qman_ok t -> FLEXNIC_NUM_QMQUEUES < Z.of_nat fuel -> 0 <= id ->
  queue_ok (set_queue_args (queues t id) rate avail max_chunk flags) ->
  exists t', qman_set fuel t id rate avail max_chunk flags =
      Done (bool_decide (id < FLEXNIC_NUM_QMQUEUES), t') /\ qman_ok t' /\
    (FLEXNIC_NUM_QMQUEUES <= id -> t' = t) /\
    (id < FLEXNIC_NUM_QMQUEUES ->
      q_avail (queues t' id) = (if has flags QMAN_SET_AVAIL then avail
        else if has flags QMAN_ADD_AVAIL then u32 (q_avail (queues t id) + avail)
        else q_avail (queues t id)) /\
      q_rate (queues t' id) = (if has flags QMAN_SET_RATE then rate else q_rate (queues t id)) /\
      q_max_chunk (queues t' id) =
        (if has flags QMAN_SET_MAXCHUNK then max_chunk else q_max_chunk (queues t id))) /\
    (forall i, i <> id -> q_avail (queues t' i) = q_avail (queues t i) /\
      q_rate (queues t' i) = q_rate (queues t i) /\
      q_max_chunk (queues t' i) = q_max_chunk (queues t i)).
Proof.
  intros Hok Hf Hid Hq. destruct (decide (id < FLEXNIC_NUM_QMQUEUES)) as [Hlt|Hge].
  - rewrite bool_decide_true by done.
    destruct (qman_set_inv fuel t id rate avail max_chunk flags) as (t' & E & Hok' & Hs & _ & _ & Ho); try done.
    exists t'. split_and!; try done; [lia|]. intros _. destruct Hs as (-> & -> & ->). unfold set_queue_args.
    by destruct (has flags QMAN_SET_RATE), (has flags QMAN_SET_MAXCHUNK), (has flags QMAN_SET_AVAIL),
      (has flags QMAN_ADD_AVAIL).
  - rewrite bool_decide_false by done. exists t. unfold qman_set. rewrite (proj2 (Z.leb_le _ _)) by lia.
    split_and!; try done; lia.
Qed.

Lemma qman_set_correct_witness : exists t,
  qman_set (Z.to_nat 200000) (qman_thread_init 1 5 true) 7 0 3000 1448
    (Z.lor QMAN_SET_RATE (Z.lor QMAN_SET_MAXCHUNK QMAN_SET_AVAIL)) = Done (true, t) /\
  q_avail (queues t 7) = 3000.
Proof.
  destruct (qman_set_correct (Z.to_nat 200000) (qman_thread_init 1 5 true) 7 0 3000 1448
    (Z.lor QMAN_SET_RATE (Z.lor QMAN_SET_MAXCHUNK QMAN_SET_AVAIL)))
    as (t & E & _ & _ & Ha & _);
    [by apply qman_thread_init_inv|unfold FLEXNIC_NUM_QMQUEUES; lia..|exact ex_queue_ok|].
  exists t. split; [exact E|]. by destruct Ha as [-> _].
Defined.

(** C12: Activating an idle queue with a rate limit is, on the abstract schedule, the
    insertion into a list sorted by time behind all queues that are not later; the time
    it is given is its old one, but not before now and not after the time it takes to
    send one chunk at its rate. *)
Theorem queue_activate_skiplist_sorted fuel t Ls NL idx :
  qinv t Ls NL -> q_flags (queues t idx) = 0 -> 0 <= idx < FLEXNIC_NUM_QMQUEUES ->
  (length (Ls 0%nat) < fuel)%nat ->
  let q := queues t idx in
  let k := Z.max 0 (Z.min (key t idx) (q_max_chunk q * 8000000 / q_rate q)) in
  exists t' Ls', queue_activate_skiplist fuel t idx = Done t' /\ qinv t' Ls' NL /\
    Ls' 0%nat = insert_by (key t) k idx (Ls 0%nat) /\ key t' idx = k /\
    Sorted (fun i j => key t' i <= key t' j) (Ls' 0%nat).
Proof.
  intros Hq Hfl Hr Hf q k.
  destruct (activate_skiplist_spec fuel t Ls NL idx) as (t' & Ls' & E & Hq' & EL & Hac & Et); try done.
  destruct (clamp_ts_spec t q (qi_virtual _ _ _ Hq) (qi_ok _ _ _ Hq idx)) as (_ & Hk & _).
  exists t', Ls'. split_and!; try done.
  - rewrite EL. unfold activate_spec. f_equal. exact Hk.
  - unfold key at 1. rewrite Et, (ac_virtual _ _ _ Hac). exact Hk.
  - apply StronglySorted_Sorted. apply (sl_sorted _ _ (qi_sl _ _ _ Hq')).
Qed.

Definition ex_limited (ts : Z) : qman_thread :=
  set_queue (qman_thread_init 1 ts true) 7 (mk_queue (fun _ => 0) 0 10000 5000 1448 0).

Lemma ex_limited_inv : qinv (ex_limited 5) (fun _ => []) [].
Proof.
  destruct (qman_thread_init_inv 1 5 true) as [(Ls & NL & Hq) _]; [lia|].
  assert (HL : Ls 0%nat = [] /\ NL = []) by (pose proof (sl_chain _ _ (qi_sl _ _ _ Hq) 0%nat
    ltac:(unfold QMAN_SKIPLIST_LEVELS; lia)) as Hc; split;
    [by apply (chain_null _ _ _ _ Hc)|by apply (chain_null _ _ _ _ (nl_chain _ _ (qi_nl _ _ _ Hq)))]).
  destruct HL as [HL ->].
  apply (qinv_set_queue (qman_thread_init 1 5 true)).
  - destruct Hq. constructor; try done; rewrite HL in *; try done.
    destruct qi_sl0. constructor; rewrite ?HL in *; try done.
  - constructor; vm_compute; intuition congruence.
  - done.
  - done.
  - done.
Qed.

Lemma queue_activate_skiplist_sorted_witness : exists t' Ls',
  queue_activate_skiplist 1 (ex_limited 5) 7 = Done t' /\ Ls' 0%nat = [7] /\ key t' 7 = 0 /\
  qinv t' Ls' [].
Proof.
  destruct (queue_activate_skiplist_sorted 1 (ex_limited 5) (fun _ => []) [] 7) as (t' & Ls' & ? & ? & ? & ? & _).
  - exact ex_limited_inv.
  - reflexivity.
  - unfold FLEXNIC_NUM_QMQUEUES; lia.
  - cbn; lia.
  - exists t', Ls'. by split_and!.
Defined.

(** Pacing.  When a queue with a rate limit is fired and has more than one chunk
    to send, it gets one chunk, stays scheduled for the rest, and may send again exactly
    [chunk * 8 * 10^6 / rate] nanoseconds of virtual time later (the rate is in
    kbit/s). *)
Theorem queue_fire_paced fuel t Ls NL idx :
  qinv t Ls NL -> q_flags (queues t idx) = 0 -> 0 <= idx < FLEXNIC_NUM_QMQUEUES ->
  (length (Ls 0%nat) < fuel)%nat ->
  let q := queues t idx in
  0 < q_rate q -> q_max_chunk q < q_avail q ->
  exists t' Ls', queue_fire fuel t idx = Done (q_max_chunk q, t') /\ qinv t' Ls' NL /\
    idx ∈ Ls' 0%nat /\ key t' idx = q_max_chunk q * 8000000 / q_rate q /\
    q_avail (queues t' idx) = q_avail q - q_max_chunk q.
Proof.
  intros Hq Hfl Hr Hf q Hrate Hav. pose proof (qi_ok _ _ _ Hq idx) as Hok. fold q in Hok.
  pose proof (qi_virtual _ _ _ Hq) as Hv. pose proof Hok as [Hts Hra Haa Hch Hpa].
  unfold queue_fire. fold q. rewrite (proj2 (Z.ltb_lt 0 _)) by lia. cbn [negb].
  rewrite (proj2 (Z.leb_gt _ _)) by lia. rewrite (u16_small (q_max_chunk q)) by lia.
  set (d := q_max_chunk q * 8000000 / q_rate q) in *.
  assert (Ec : queue_charge t q (q_max_chunk q) =
    q <| q_avail := q_avail q - q_max_chunk q |> <| q_next_ts := u32 (ts_virtual t + d) |>).
  { unfold queue_charge. rewrite u32_small by lia. cbn [q_rate setter].
    rewrite (proj2 (Z.ltb_lt 0 (q_rate _))) by done. by rewrite queue_new_ts_spec by (cbn; lia). }
  rewrite Ec. set (q' := _ <| q_next_ts := _ |>). set (t1 := set_queue t idx q').
  assert (Hok' : queue_ok q') by (constructor; cbn; try done; try lia; apply u32_range).
  destruct (inactive_notin _ _ _ _ Hq Hfl) as [Hsl Hnl].
  assert (Hq1 : qinv t1 Ls NL) by (by apply qinv_set_queue).
  assert (Hself : queues t1 idx = q').
  { unfold t1, set_queue, insert, fn_insert. cbn. by rewrite decide_True. }
  assert (Hv1 : ts_virtual t1 = ts_virtual t) by done. clearbody t1.
  cbn [q_avail setter]. rewrite (proj2 (Z.ltb_lt 0 _)) by (cbn; lia).
  unfold queue_activate. rewrite Hself. rewrite (proj2 (Z.eqb_neq _ 0)) by (cbn; lia).
  destruct (activate_skiplist_spec fuel t1 Ls NL idx) as (t' & Ls' & E & Hq' & EL & Hac & Et);
    [done|by rewrite Hself|done..|].
  rewrite Hself in Et. destruct (clamp_ts_spec t1 q') as (_ & Hk & Hd); [by rewrite Hv1|done|].
  exists t', Ls'. rewrite E. split_and!; try done.
  - rewrite EL. unfold activate_spec. rewrite elem_of_insert_by. by left.
  - unfold key. rewrite Et, (ac_virtual _ _ _ Hac), Hk. cbn [q_next_ts q_max_chunk q_rate setter q'].
    assert (rel_time (ts_virtual t1) (u32 (ts_virtual t1 + d)) = d) as Erd.
    { apply rel_time_offset; [by rewrite Hv1|]. cbn in Hd. fold d in Hd. lia. }
    cbn. rewrite <-Hv1, Erd. cbn in Hd. fold d in Hd. fold d. lia.
  - rewrite (ac_avail _ _ _ Hac), Hself. done.
Qed.

Lemma queue_fire_paced_witness : exists t' Ls',
  queue_fire 1 (ex_limited 5) 7 = Done (1448, t') /\ key t' 7 = 1158400 /\
  q_avail (queues t' 7) = 3552 /\ qinv t' Ls' [].
Proof.
  destruct (queue_fire_paced 1 (ex_limited 5) (fun _ => []) [] 7) as (t' & Ls' & ? & ? & ? & ? & ?);
    [exact ex_limited_inv|done|unfold FLEXNIC_NUM_QMQUEUES; lia|cbn; lia|reflexivity..|].
  exists t', Ls'. by split_and!.
Defined.

(** [qman_next_ts] answers how long the caller may sleep: it is [-1] exactly when
    nothing is scheduled; otherwise no queue becomes ready before the [r] microseconds
    it returns are over, and one is ready less than a microsecond after that. *)
Theorem qman_next_ts_correct t Ls NL ts :
  qinv t Ls NL -> in32 ts -> elapsed t ts < 2147483648 ->
  let r := qman_next_ts t ts in
  (r = UINT32_MAX <-> forall i, q_flags (queues t i) = 0) /\
  (r <> UINT32_MAX ->
    (forall i e, elapsed t ts <= e -> ready t e i -> elapsed t ts + 1000 * r <= e) /\
    exists i, ready t (elapsed t ts + 1000 * r + 999) i).
Proof.
  intros Hq Hts Hel. cbn zeta. unfold qman_next_ts. fold (elapsed t ts).
  pose proof (u32_range (ts - ts_real t)) as Hel0. fold (elapsed t ts) in Hel0.
  pose proof (chain_null _ _ _ _ (nl_chain _ _ (qi_nl _ _ _ Hq))) as Hnl.
  pose proof (qi_virtual _ _ _ Hq) as Hv.
  destruct (Z.eqb_spec (nolimit_head_idx t) IDXLIST_INVAL) as [E|E]; cbn [negb].
  2:{ destruct NL as [|x NL]; [by destruct E; apply Hnl|].
      assert (Hx : q_flags (queues t x) = FLAG_INNOLIMITL).
      { rewrite (qi_flags _ _ _ Hq). unfold flags_of. rewrite decide_False, decide_True; [done|set_solver|].
        intros ?. eapply (qi_disj _ _ _ Hq); [done|set_solver]. }
      split; [split; [done|intros H; by rewrite H in Hx]|]. intros _. split; [intros; lia|].
      exists x. by left. }
  apply Hnl in E as ->.
  assert (Hfl : forall i, q_flags (queues t i) = if decide (i ∈ Ls 0%nat) then FLAG_INSKIPLIST else 0).
  { intros i. rewrite (qi_flags _ _ _ Hq). unfold flags_of.
    case_decide; [done|]. rewrite decide_False; [done|set_solver]. }
  destruct (skip_head _ _ _ Hq) as [[-> E0]|(R & Hi & E0)].
  { rewrite Z.eqb_refl. cbn [negb]. split; [split; [|done]|done]. intros _ i.
    rewrite Hfl, E0, decide_False; [done|set_solver]. }
  set (x := head_idx t 0) in *. clearbody x. rewrite (proj2 (Z.eqb_neq _ _) Hi). cbn [negb].
  assert (Hx : x ∈ Ls 0%nat) by (rewrite E0; set_solver).
  pose proof (sl_keys _ _ (qi_sl _ _ _ Hq) x Hx) as Hk.
  assert (Hrdy : forall e i, ready t e i <-> i ∈ Ls 0%nat /\ key t i <= e).
  { intros e i. unfold ready. rewrite Hfl. case_decide; naive_solver. }
  assert (Hsome : ~ forall i, q_flags (queues t i) = 0).
  { intros H. specialize (H x). rewrite Hfl, decide_True in H; done. }
  assert (Hleast : forall i, i ∈ Ls 0%nat -> key t x <= key t i).
  { intros i Hin. exact (sorted_head_least _ _ _ _ _ i Hq E0 Hin). }
  unfold timestamp_lessthaneq. fold (key t x). rewrite rel_time_offset by (done || lia).
  destruct (Z.leb_spec (key t x) (elapsed t ts)) as [Hle|Hgt].
  - split; [split; [done|by intros]|]. intros _. split; [intros; lia|].
    exists x. apply Hrdy. split; [done|lia].
  - rewrite rel_time_advance; [|done|apply (qi_ok _ _ _ Hq)|unfold key in *; lia|unfold key in *; lia].
    fold (key t x). rewrite Z.quot_div_nonneg by lia.
    assert (Hd : 0 <= (key t x - elapsed t ts) / 1000 < 2147484) by (Z.div_mod_to_equations; lia).
    rewrite u32_small by lia.
    split; [split; [unfold UINT32_MAX; lia|by intros]|]. intros _. split.
    + intros i e He [Hin Hke]%Hrdy. specialize (Hleast i Hin). Z.div_mod_to_equations; lia.
    + exists x. apply Hrdy. split; [done|]. Z.div_mod_to_equations; lia.
Qed.

Lemma qman_next_ts_correct_witness :
  qman_next_ts (ex_limited 5) 9 = UINT32_MAX <-> forall i, q_flags (queues (ex_limited 5) i) = 0.
Proof.
  apply (qman_next_ts_correct (ex_limited 5) (fun _ => []) [] 9);
    [exact ex_limited_inv|lia|reflexivity].
Defined.

(** ** Histories *)

(** The calls the fast path makes. *)
Inductive call : Type :=
  | CSet (id rate avail max_chunk flags : Z)
  | CPoll (ts num : Z).

Definition run_call (fuel : nat) (t : qman_thread) (c : call) : outcome qman_thread :=
  match c with
  | CSet id rate avail max_chunk flags => snd <$> qman_set fuel t id rate avail max_chunk flags
  | CPoll ts num => snd <$> qman_poll fuel t ts num
  end.

(** What a caller has to respect. *)
Definition call_ok (t : qman_thread) (c : call) : Prop :=
  match c with
  | CSet id rate avail max_chunk flags =>
    0 <= id < FLEXNIC_NUM_QMQUEUES /\
    queue_ok (set_queue_args (queues t id) rate avail max_chunk flags)
  | CPoll ts num => in32 ts /\ elapsed t ts < 2147483648 /\ 0 <= num < 65536
  end.

Inductive reachable (fuel : nat) : qman_thread -> Prop :=
  | reach_init id ts nf : in32 ts -> reachable fuel (qman_thread_init id ts nf)
  | reach_call t c t' : reachable fuel t -> call_ok t c -> run_call fuel t c = Done t' ->
      reachable fuel t'.

Lemma run_call_ok fuel t c : 200000 <= Z.of_nat fuel -> qman_ok t -> call_ok t c ->
  exists t', run_call fuel t c = Done t' /\ qman_ok t'.
Proof.
  intros Hf Hok Hc. destruct c as [id rate avail ch fl|ts num]; cbn in *.
  - destruct Hc as [Hid Hq].
    destruct (qman_set_inv fuel t id rate avail ch fl) as (t' & -> & ? & _); try done.
    { unfold FLEXNIC_NUM_QMQUEUES; lia. }
    by exists t'.
  - destruct Hc as (Hts & Hel & Hn). destruct Hok as [(Ls & NL & Hq) Hs].
    pose proof (qinv_size _ _ _ Hq) as Hsz. unfold FLEXNIC_NUM_QMQUEUES in Hsz.
    destruct (qman_poll_loops fuel t Ls NL ts num) as (out & t1 & Ls' & NL' & -> & [] & Er); try done; [lia..|].
    eexists. split; [done|]. split; [|done]. exists Ls', NL'. by apply qinv_first.
Qed.

(** C3: In every state reached from [qman_thread_init] by calls of [qman_set] and
    [qman_poll], the lists are well formed, every queue with bytes is scheduled, and the
    next call returns: no loop runs on and no [abort] is reached. *)
Theorem qman_never_aborts fuel t : 200000 <= Z.of_nat fuel -> reachable fuel t ->
  qman_ok t /\ forall c, call_ok t c -> exists t', run_call fuel t c = Done t'.
Proof.
  intros Hf Hr. assert (Hok : qman_ok t).
  { induction Hr as [id ts nf Hts|t c t' Hr IH Hc E].
    - by apply qman_thread_init_inv.
    - destruct (run_call_ok fuel t c Hf IH Hc) as (t1 & E1 & Hok). congruence. }
  split; [done|]. intros c Hc. destruct (run_call_ok fuel t c Hf Hok Hc) as (t1 & E1 & _). eauto.
Qed.

Lemma qman_never_aborts_witness : exists t',
  run_call (Z.to_nat 200000) (qman_thread_init 1 5 true) (CPoll 1000 16) = Done t'.
Proof.
  apply (qman_never_aborts (Z.to_nat 200000) (qman_thread_init 1 5 true)); [lia|by constructor|].
  cbn. unfold elapsed. cbn. split_and!; try lia. reflexivity.
Defined.

End QmanProps.
