(* ===== verification/FastCtx.v ===== *)
(** * The fast path core context ([tas/include/fastpath.h], [fast/fastemu.h], [fast/dma.h])

    The state a fast path core works on: the flow state registers, shared memory, the
    caches of packets to send and of notifications to applications, and its queue
    manager, which the other components see through the interface [QueueManager]. *)
From S2P Require Import Prelude Memif Packet Qman QmanSpec QmanProps.

Module FastCtx.
Import Packet.

(** ** What the fast path needs of the queue manager

    [qm_set] is [qman_set]; [qm_avail] is the number of bytes scheduled for a queue.
    The law says that setting rate and chunk size together with a new or additional
    byte count succeeds for every queue of the table, as long as one chunk at that rate
    takes less than half the range of the nanosecond clock. *)
Definition SET_ALL : Z := Z.lor Qman.QMAN_SET_RATE (Z.lor Qman.QMAN_SET_MAXCHUNK Qman.QMAN_SET_AVAIL).
Definition ADD_ALL : Z := Z.lor Qman.QMAN_SET_RATE (Z.lor Qman.QMAN_SET_MAXCHUNK Qman.QMAN_ADD_AVAIL).

Definition pace_ok (rate chunk : Z) : Prop :=
  in32 rate /\ in16 chunk /\ chunk * 8000000 / rate < 2147483648.

Class QueueManager (Q : Type) := {
  qm_set : Q -> Z -> Z -> Z -> Z -> Z -> outcome (bool * Q);
  qm_avail : Q -> Z -> Z;
  qm_ok : Q -> Prop;
  qm_set_law q id rate avail chunk (add : bool) :
    qm_ok q -> 0 <= id < Qman.FLEXNIC_NUM_QMQUEUES -> pace_ok rate chunk -> in32 avail ->
    exists q', qm_set q id rate avail chunk (if add then ADD_ALL else SET_ALL) = Done (true, q') /\
      qm_ok q' /\
      qm_avail q' id = (if add then u32 (qm_avail q id + avail) else avail) /\
      (forall i, i <> id -> qm_avail q' i = qm_avail q i)
}.

(** The queue manager of [Qman] keeps the promise. *)
Definition QMAN_FUEL : nat := Z.to_nat 200000.

#[export, refine] Instance qman_manager : QueueManager Qman.qman_thread := {
  qm_set := Qman.qman_set QMAN_FUEL;
  qm_avail t i := Qman.q_avail (Qman.queues t i);
  qm_ok := QmanProps.qman_ok
}.
Proof.
  intros q id rate avail chunk add Hok Hid (Hr & Hc & Hp) Ha.
  assert (Hav : in32 (Qman.q_avail (Qman.queues q id))).
  { destruct Hok as [(Ls & NL & Hq) _]. apply (QmanSpec.qi_ok _ _ _ Hq). }
  destruct (QmanProps.qman_set_inv QMAN_FUEL q id rate avail chunk (if add then ADD_ALL else SET_ALL))
    as (q' & E & Hok' & (Ea & _) & _ & _ & Ho); [done| |done| |].
  - unfold QMAN_FUEL, Qman.FLEXNIC_NUM_QMQUEUES. lia.
  - destruct Hok as [(Ls & NL & Hq) _]. pose proof (QmanSpec.qi_ok _ _ _ Hq id) as [].
    destruct add; constructor; cbn; try done. apply u32_range.
  - exists q'. split; [exact E|]. split; [done|]. split; [by destruct add|].
    intros i Hi. by destruct (Ho i Hi).
Defined.

(** ** Shared memory *)

Definition memory : Type := Z -> Z.

(** The check of [dma_read], [dma_write] and [dma_pointer]. *)
Definition dma_check (shm_len addr len : Z) : bool :=
  (addr <=? u64 (addr + len)) && (u64 (addr + len) <=? shm_len).

(** [dma_read]: the bytes [addr .. addr + len - 1], as a function of the offset. *)
Definition dma_read (shm_len : Z) (m : memory) (addr len : Z) : outcome (Z -> Z) :=
  assert_ (dma_check shm_len addr len);;
  Done (fun i => m (addr + i)).

(** [dma_write]: [src i] is byte [i] of the source. *)
Definition dma_write (shm_len : Z) (m : memory) (addr len : Z) (src : Z -> Z) : outcome memory :=
  assert_ (dma_check shm_len addr len);;
  Done (fun a => if (addr <=? a) && (a <? addr + len) then src (a - addr) else m a).

(** ** The context *)

Definition BATCH_SIZE : Z := 16.
Definition TXBUF_SIZE : Z := 2 * BATCH_SIZE.

Section Context.
Context {Q : Type}.

(** [struct dataplane_context] and the shared state it works on.  [c_arx] is the arx
    cache with the context id of every entry, [c_tx] the packets to send, both in the
    order they were added; [c_fwd] the flows put on the forwarding rings of other
    cores, [c_notified] the cores woken up. *)
Record dp : Type := mk_dp {
  c_id : Z;
  c_qman : Q;
  c_arx : list (Z * arx);
  c_tx : list nbuf;
  c_fwd : list (Z * Z);
  c_notified : list Z;
  c_flowst : Z -> flowst;
  c_steering : Z -> Z;
  c_mem : memory
}.
#[export] Instance eta_dp : Eta dp := fun r =>
  mk_dp (c_id r) (c_qman r) (c_arx r) (c_tx r) (c_fwd r) (c_notified r) (c_flowst r)
    (c_steering r) (c_mem r).

(** [tx_send]. *)
Definition tx_send (c : dp) (nbh : nbuf) (off len : Z) : outcome dp :=
  if TXBUF_SIZE <=? Z.of_nat (length (c_tx c)) then Aborted else
  Done (c <| c_tx := c_tx c ++ [nbh <| nb_off := off |> <| nb_len := len |>] |>).

(** [arx_cache_add]. *)
Definition arx_cache_add (c : dp) (ctx_id opaque rx_bump rx_pos tx_bump type_flags : Z) : dp :=
  c <| c_arx := c_arx c ++ [(ctx_id, mk_arx (Z.land type_flags 255) opaque rx_bump rx_pos tx_bump
    (Z.shiftr type_flags 8))] |>.

End Context.
Arguments dp : clear implicits.

End FastCtx.
