(* ===== verification/FastFlows.v ===== *)
(** * Flow processing of the fast path ([tas/fast/fast_flows.c])

    Definitions only; [FastFlowsSpec] and the files after it hold the proofs.  A
    handler takes the context and the id of a flow and returns the C return value with
    the new context; the flow's lock is held throughout, so its state is read once and
    written back once. *)
From S2P Require Import Prelude Memif Packet TcpCommon FastCtx.

Module FastFlows.
Import Packet TcpCommon FastCtx.

Definition TCP_MSS : Z := 1448.
Definition TCP_MAX_RTT : Z := 100000.
(** [sizeof(struct tcp_timestamp_opt)], rounded up to a multiple of four. *)
Definition TS_OPTLEN : Z := 12.

(** [fs->rx_base_sp & FLEXNIC_PL_FLOWST_RX_MASK]. *)
Definition rx_base (fs : flowst) : Z := Z.land (fs_rx_base_sp fs) FLEXNIC_PL_FLOWST_RX_MASK.
Definition sp_set (fs : flowst) (bit : Z) : flowst :=
  fs <| fs_rx_base_sp := Z.lor (fs_rx_base_sp fs) bit |>.

Section FastFlows.
(** [config.shm_len], [config.fp_xsumoffload], the address of the port, and the DPDK
    functions the file calls: the two checksums and the enqueueing of a flow on the
    forwarding ring of a core. *)
Context (shm_len : Z) (fp_xsumoffload : bool) (eth_addr : Z).
Context (rte_ipv4_cksum rte_ipv4_udptcp_cksum : pkt_tcp -> Z).
Context (fwd_enqueue : Z -> Z -> bool).
Context {Q : Type} `{QueueManager Q}.

Implicit Types (c : dp Q) (fs : flowst) (m : memory).

(** ** Circular buffers *)

(** [flow_tx_read]: the bytes read, by their offset in [dst]. *)
Definition flow_tx_read m fs (pos len : Z) : outcome (Z -> Z) :=
  if u32 (pos + len) <=? fs_tx_len fs then dma_read shm_len m (u64 (fs_tx_base fs + pos)) len
  else
    let part := u32 (fs_tx_len fs - pos) in
    a ← dma_read shm_len m (u64 (fs_tx_base fs + pos)) part;
    b ← dma_read shm_len m (fs_tx_base fs) (u32 (len - part));
    Done (fun i => if i <? part then a i else b (i - part)).

(** [flow_rx_write]. *)
Definition flow_rx_write m fs (pos len : Z) (src : Z -> Z) : outcome memory :=
  let len := u16 len in
  if u32 (pos + len) <=? fs_rx_len fs then dma_write shm_len m (u64 (rx_base fs + pos)) len src
  else
    let part := u32 (fs_rx_len fs - pos) in
    m ← dma_write shm_len m (u64 (rx_base fs + pos)) part src;
    dma_write shm_len m (rx_base fs) (u32 (len - part)) (fun i => src (part + i)).

(** [flow_rx_seq_write]. *)
Definition flow_rx_seq_write m fs (seq len : Z) (src : Z -> Z) : outcome memory :=
  let diff := u32 (seq - fs_rx_next_seq fs) in
  let pos := u32 (fs_rx_next_pos fs + diff) in
  let pos := if fs_rx_len fs <=? pos then u32 (pos - fs_rx_len fs) else pos in
  assert_ (pos <? fs_rx_len fs);;
  flow_rx_write m fs pos len src.

(** ** Sending *)

(** [tcp_checksums]. *)
Definition tcp_checksums (p : pkt_tcp) (ip_s ip_d l3_paylen : Z) : pkt_tcp :=
  let p := p <| ip_chksum := 0 |> in
  if fp_xsumoffload then
    p <| tcp_chksum := network_ip_phdr_xsum ip_s ip_d IP_PROTO_TCP l3_paylen |>
  else
    let p := p <| tcp_chksum := 0 |> in
    let p := p <| ip_chksum := rte_ipv4_cksum p |> in
    p <| tcp_chksum := rte_ipv4_udptcp_cksum p |>.

(** [fast_flows_kernelxsums]. *)
Definition fast_flows_kernelxsums (p : pkt_tcp) : pkt_tcp :=
  tcp_checksums p (ip_src p) (ip_dest p) (u16 (ip_len p - IP_HDR_SIZE)).

(** The timestamp option [flow_tx_segment] writes behind the fixed headers. *)
Definition ts_option (b : Z -> Z) (ts_my ts_echo : Z) : Z -> Z :=
  let b : Z -> Z := fun i => if (0 <=? i) && (i <? TS_OPTLEN) then 0 else b i in
  let b := <[0 := TCP_OPT_TIMESTAMP]> b in
  let b := <[1 := TCP_TS_OPT_SIZE]> b in
  put_be32 (put_be32 b 2 ts_my) 6 ts_echo.

(** The headers of a segment; every field of the fixed headers is written. *)
Definition segment_headers (p : pkt_tcp) fs (seq ack rxwnd payload ts_echo ts_my : Z)
    (fin : bool) : pkt_tcp :=
  let hdrs_len := PKT_TCP_SIZE + TS_OPTLEN in
  let fin_fl := if fin then TCP_FIN else 0 in
  {| eth_dest := fs_remote_mac fs; eth_src := eth_addr; eth_type := ETH_TYPE_IP;
     ip_v := 4; ip_hl := 5;
     ip_tos := if Z.land (fs_rx_base_sp fs) FLEXNIC_PL_FLOWST_ECN =? FLEXNIC_PL_FLOWST_ECN
               then Z.lor (Z.land 0 252) IP_ECN_ECT0 else 0;
     ip_len := u16 (hdrs_len - ETH_HDR_SIZE + payload);
     ip_id := 3; ip_offset := 0; ip_ttl := 255; ip_proto := IP_PROTO_TCP; ip_chksum := 0;
     ip_src := fs_local_ip fs; ip_dest := fs_remote_ip fs;
     tcp_src := fs_local_port fs; tcp_dest := fs_remote_port fs;
     tcp_seqno := seq; tcp_ackno := ack;
     tcp_hdrlen := 5 + TS_OPTLEN / 4;
     tcp_rsvd_flags := Z.lor TCP_PSH (Z.lor TCP_ACK fin_fl);
     tcp_wnd := Z.min 65535 rxwnd; tcp_chksum := 0; tcp_urgp := 0;
     p_body := ts_option (p_body p) ts_my ts_echo |}.

(** [flow_tx_segment]. *)
Definition flow_tx_segment c (nbh : nbuf) fs (seq ack rxwnd payload payload_pos ts_echo ts_my : Z)
    (fin : bool) : outcome (dp Q) :=
  let hdrs_len := PKT_TCP_SIZE + TS_OPTLEN in
  let p := segment_headers (nb_pkt nbh) fs seq ack rxwnd payload ts_echo ts_my fin in
  p ← (if 0 <? payload then
         d ← flow_tx_read (c_mem c) fs payload_pos payload;
         let b := p_body p in
         Done (p <| p_body := fun i => if (TS_OPTLEN <=? i) && (i <? TS_OPTLEN + payload)
                                       then d (i - TS_OPTLEN) else b i |>)
       else Done p);
  let p := tcp_checksums p (fs_local_ip fs) (fs_remote_ip fs)
    (u16 (hdrs_len - (ETH_HDR_SIZE + IP_HDR_SIZE) + payload)) in
  tx_send c (nbh <| nb_pkt := p |>) 0 (u16 (hdrs_len + payload)).

(** The acknowledgement [flow_tx_ack] makes of a received packet, in place: addresses
    and ports are swapped, the fields listed with [p] stay; [ts_opt] is the offset of
    the timestamp option. *)
Definition ack_packet (p : pkt_tcp) (seq ack rxwnd echots myts ts_opt : Z) : pkt_tcp :=
  let hdrlen := u16 (PKT_TCP_SIZE + (tcp_hdrlen p - 5) * 4) in
  let ecn_flags := if IPH_ECN p =? IP_ECN_CE then TCP_ECE else 0 in
  {| eth_dest := eth_src p; eth_src := eth_dest p; eth_type := eth_type p;
     ip_v := ip_v p; ip_hl := ip_hl p; ip_tos := Z.lor (Z.land (ip_tos p) 252) IP_ECN_NONE;
     ip_len := u16 (hdrlen - ETH_HDR_SIZE);
     ip_id := ip_id p; ip_offset := ip_offset p; ip_ttl := 255; ip_proto := ip_proto p;
     ip_chksum := ip_chksum p; ip_src := ip_dest p; ip_dest := ip_src p;
     tcp_src := tcp_dest p; tcp_dest := tcp_src p; tcp_seqno := seq; tcp_ackno := ack;
     tcp_hdrlen := tcp_hdrlen p; tcp_rsvd_flags := Z.lor TCP_ACK ecn_flags;
     tcp_wnd := Z.min 65535 rxwnd; tcp_chksum := tcp_chksum p; tcp_urgp := 0;
     p_body := put_be32 (put_be32 (p_body p) (ts_opt + 2) myts) (ts_opt + 6) echots |}.

(** [flow_tx_ack]. *)
Definition flow_tx_ack c (seq ack rxwnd echots myts : Z) (nbh : nbuf) (ts_opt : Z)
    : outcome (dp Q) :=
  let p := nb_pkt nbh in
  let hdrlen := u16 (PKT_TCP_SIZE + (tcp_hdrlen p - 5) * 4) in
  let p := ack_packet p seq ack rxwnd echots myts ts_opt in
  let p := tcp_checksums p (ip_src p) (ip_dest p) (u16 (hdrlen - (ETH_HDR_SIZE + IP_HDR_SIZE))) in
  tx_send c (nbh <| nb_pkt := p |>) (nb_off nbh) hdrlen.

(** [flow_reset_retransmit]. *)
Definition flow_reset_retransmit fs : flowst :=
  let sent := fs_tx_sent fs in
  let fs := fs <| fs_rx_dupack_cnt := 0 |> <| fs_tx_next_seq := u32 (fs_tx_next_seq fs - sent) |> in
  let fs := if sent <=? fs_tx_next_pos fs
            then fs <| fs_tx_next_pos := u32 (fs_tx_next_pos fs - sent) |>
            else let x := u32 (sent - fs_tx_next_pos fs) in
                 fs <| fs_tx_next_pos := u32 (fs_tx_len fs - x) |> in
  let fs := fs <| fs_tx_avail := u32 (fs_tx_avail fs + sent) |>
               <| fs_rx_remote_avail := u32 (fs_rx_remote_avail fs + sent) |>
               <| fs_tx_sent := 0 |> in
  let fs := if fs_cnt_tx_drops fs =? 0 then fs <| fs_tx_rate := fs_tx_rate fs / 2 |> else fs in
  fs <| fs_cnt_tx_drops := u16 (fs_cnt_tx_drops fs + 1) |>.

(** A call of [qman_set] whose failure is fatal. *)
Definition qman_set_or_abort c (id rate avail chunk flags : Z) : outcome (dp Q) :=
  '(ok, q) ← qm_set (c_qman c) id rate avail chunk flags;
  if (ok : bool) then Done (c <| c_qman := q |>) else Aborted.

Definition set_flow c (fid : Z) fs : dp Q := c <| c_flowst := <[fid := fs]> (c_flowst c) |>.

(** [TXFIN], [RXFIN] and so on of a flow. *)
Definition sp_has fs (bit : Z) : bool := Z.land (fs_rx_base_sp fs) bit =? bit.

(** The update of the transmit state in [fast_flows_qman] for a segment of [len] bytes. *)
Definition tx_advance fs (len : Z) : flowst :=
  let pos := u32 (fs_tx_next_pos fs + len) in
  fs <| fs_tx_next_seq := u32 (fs_tx_next_seq fs + len) |>
     <| fs_tx_next_pos := if fs_tx_len fs <=? pos then u32 (pos - fs_tx_len fs) else pos |>
     <| fs_tx_sent := u32 (fs_tx_sent fs + len) |>
     <| fs_tx_avail := u32 (fs_tx_avail fs - len) |>.

(** [fast_flows_qman]. *)
Definition fast_flows_qman c (queue : Z) (nbh : nbuf) (ts : Z) : outcome (Z * dp Q) :=
  let flow_id := queue in
  let fs := c_flowst c flow_id in
  let new_core := c_steering c (fs_flow_group fs) in
  if negb (new_core =? c_id c) then
    if negb (fwd_enqueue new_core flow_id) then Aborted else
    let c := c <| c_fwd := c_fwd c ++ [(new_core, flow_id)] |> in
    c ← qman_set_or_abort c flow_id 0 0 0 SET_ALL;
    Done (-1, c <| c_notified := c_notified c ++ [new_core] |>)
  else
  let avail := tcp_txavail fs None in
  if avail =? 0 then Done (-1, c) else
  let len := Z.min avail TCP_MSS in
  let tx_seq := fs_tx_next_seq fs in
  let tx_pos := fs_tx_next_pos fs in
  let rx_wnd := fs_rx_avail fs in
  let ack := fs_rx_next_seq fs in
  let fs := tx_advance fs len in
  let fin := sp_has fs FLEXNIC_PL_FLOWST_TXFIN && (fs_tx_avail fs =? 0) in
  len ← (if fin then assert_ (0 <? len);; Done (len - 1) else Done len);
  c ← flow_tx_segment (set_flow c flow_id fs) nbh fs tx_seq ack rx_wnd len tx_pos
        (fs_tx_next_ts fs) ts fin;
  Done (0, c).

(** [fast_flows_qman_fwd]; the local [flow_id] has 16 bits. *)
Definition fast_flows_qman_fwd c (fid : Z) : outcome (Z * dp Q) :=
  let fs := c_flowst c fid in
  let flow_id := u16 fid in
  let avail := tcp_txavail fs None in
  c ← qman_set_or_abort c flow_id (fs_tx_rate fs) avail TCP_MSS SET_ALL;
  Done (0, c).

(** ** Receiving

    [fast_flows_packet], in the order of its parts. *)

(** Acknowledgement processing: whether the handler jumps to [unlock] (after the third
    duplicate acknowledgement), the flow, and [tx_bump]. *)
Definition packet_ack fs (flags ack orig_payload : Z) : bool * flowst * Z :=
  if negb (has flags TCP_ACK) then (false, fs, 0) else
  let fs := fs <| fs_cnt_rx_acks := u16 (fs_cnt_rx_acks fs + 1) |> in
  match tcp_valid_rxack fs ack with
  | None => (false, fs, 0)
  | Some tx_bump =>
    let fs := fs <| fs_cnt_rx_ack_bytes := u32 (fs_cnt_rx_ack_bytes fs + tx_bump) |> in
    let fs := if has flags TCP_ECE
              then fs <| fs_cnt_rx_ecn_bytes := u32 (fs_cnt_rx_ecn_bytes fs + tx_bump) |> else fs in
    let fs := if tx_bump <=? fs_tx_sent fs
              then fs <| fs_tx_sent := u32 (fs_tx_sent fs - tx_bump) |>
              else
                let d := u32 (tx_bump - fs_tx_sent fs) in
                let pos := u32 (fs_tx_next_pos fs + d) in
                fs <| fs_tx_next_seq := u32 (fs_tx_next_seq fs + d) |>
                   <| fs_tx_next_pos := if fs_tx_len fs <=? pos then u32 (pos - fs_tx_len fs) else pos |>
                   <| fs_tx_avail := u32 (fs_tx_avail fs - d) |> <| fs_tx_sent := 0 |> in
    if negb (tx_bump =? 0) then (false, fs <| fs_rx_dupack_cnt := 0 |>, tx_bump)
    else if orig_payload =? 0 then
      let cnt := u32 (fs_rx_dupack_cnt fs + 1) in
      let fs := fs <| fs_rx_dupack_cnt := cnt |> in
      if 3 <=? cnt then (true, flow_reset_retransmit fs, tx_bump) else (false, fs, tx_bump)
    else (false, fs, tx_bump)
  end.

(** Add an out of order segment to the out of order interval, if it fits on. *)
Definition packet_ooo m fs (seq bytes : Z) (src : Z -> Z) : outcome (flowst * memory) :=
  if fs_rx_ooo_len fs =? 0 then
    let fs := fs <| fs_rx_ooo_start := seq |> <| fs_rx_ooo_len := bytes |> in
    m ← flow_rx_seq_write m fs seq bytes src; Done (fs, m)
  else if u32 (seq + bytes) =? fs_rx_ooo_start fs then
    let fs := fs <| fs_rx_ooo_start := seq |> <| fs_rx_ooo_len := u32 (fs_rx_ooo_len fs + bytes) |> in
    m ← flow_rx_seq_write m fs seq bytes src; Done (fs, m)
  else if u32 (fs_rx_ooo_start fs + fs_rx_ooo_len fs) =? seq then
    let fs := fs <| fs_rx_ooo_len := u32 (fs_rx_ooo_len fs + bytes) |> in
    m ← flow_rx_seq_write m fs seq bytes src; Done (fs, m)
  else Done (fs, m).

(** The round trip time estimate and the peer's window. *)
Definition packet_rtt fs (flags ts_val ts_ecr wnd ts : Z) : flowst :=
  let fs := fs <| fs_tx_next_ts := ts_val |> in
  let fs :=
    if has flags TCP_ACK && negb (ts_ecr =? 0) then
      let rtt := u32 (ts - ts_ecr) in
      if rtt <? TCP_MAX_RTT then
        if negb (fs_rtt_est fs =? 0)
        then fs <| fs_rtt_est := u32 (u32 (fs_rtt_est fs * 7) + rtt) / 8 |>
        else fs <| fs_rtt_est := rtt |>
      else fs
    else fs in
  fs <| fs_rx_remote_avail := wnd |>.

(** Move the receive position and sequence number on by [n] bytes. *)
Definition rx_advance fs (n : Z) : outcome flowst :=
  let pos := u32 (fs_rx_next_pos fs + n) in
  let fs := fs <| fs_rx_avail := u32 (fs_rx_avail fs - n) |>
    <| fs_rx_next_pos := if fs_rx_len fs <=? pos then u32 (pos - fs_rx_len fs) else pos |> in
  assert_ (fs_rx_next_pos fs <? fs_rx_len fs);;
  Done (fs <| fs_rx_next_seq := u32 (fs_rx_next_seq fs + n) |>).

(** After in-order data: trim the out of order interval, and take it over when the
    data has caught up with it.  The second result is what is added to [rx_bump]. *)
Definition packet_merge_ooo fs : outcome (flowst * Z) :=
  if fs_rx_ooo_len fs =? 0 then Done (fs, 0) else
  match tcp_trim_rxbuf fs (fs_rx_ooo_start fs) (fs_rx_ooo_len fs) with
  | None => Done (fs <| fs_rx_ooo_len := 0 |>, 0)
  | Some (trim_start, trim_end) =>
    let fs := fs <| fs_rx_ooo_start := u32 (fs_rx_ooo_start fs + trim_start) |>
      <| fs_rx_ooo_len := u32 (fs_rx_ooo_len fs - (trim_start + trim_end)) |> in
    if (0 <? fs_rx_ooo_len fs) && (fs_rx_ooo_start fs =? fs_rx_next_seq fs) then
      let n := fs_rx_ooo_len fs in
      fs ← rx_advance fs n;
      Done (fs <| fs_rx_ooo_len := 0 |>, n)
    else Done (fs, 0)
  end.

(** In-order payload: copy it to the receive buffer.  The last result is [rx_bump]. *)
Definition packet_deliver m fs (bytes : Z) (src : Z -> Z) : outcome (flowst * memory * Z) :=
  m ← flow_rx_write m fs (fs_rx_next_pos fs) bytes src;
  fs ← rx_advance fs bytes;
  '(fs, more) ← packet_merge_ooo fs;
  Done (fs, m, u32 (bytes + more)).

(** The FIN flag; [end_seq] is the sequence number behind the untrimmed payload. *)
Definition packet_fin fs (flags end_seq : Z) : flowst * bool :=
  if has flags TCP_FIN && negb (has (fs_rx_base_sp fs) FLEXNIC_PL_FLOWST_RXFIN) then
    if (fs_rx_next_seq fs =? end_seq) && (fs_rx_ooo_len fs =? 0)
    then ((sp_set fs FLEXNIC_PL_FLOWST_RXFIN) <| fs_rx_next_seq := u32 (fs_rx_next_seq fs + 1) |>, true)
    else (fs, false)
  else (fs, false).

(** The results of the receive part: flow, memory, [rx_bump], [fin_bump] and
    [trigger_ack]. *)
Record rx_result : Type := mk_rx {
  rr_fs : flowst; rr_mem : memory; rr_rx_bump : Z; rr_fin_bump : bool; rr_trigger_ack : bool
}.

(** An in-order segment, after trimming: timestamps, payload, FIN flag.  [bytes] is
    what is left of the payload [payload]. *)
Definition packet_inorder m fs (p : pkt_tcp) (bytes ts_val ts_ecr ts end_seq : Z)
    (payload : Z -> Z) (trigger_ack : bool) : outcome rx_result :=
  let flags := TCPH_FLAGS p in
  let fs := packet_rtt fs flags ts_val ts_ecr (tcp_wnd p) ts in
  if sp_has fs FLEXNIC_PL_FLOWST_RXFIN && (0 <? bytes)
  then Done (mk_rx fs m 0 false trigger_ack) else
  '(fs, m, rx_bump) ←
    (if 0 <? bytes then packet_deliver m fs bytes payload else Done (fs, m, 0));
  let '(fs, fin_bump) := packet_fin fs flags end_seq in
  Done (mk_rx fs m rx_bump fin_bump (trigger_ack || (0 <? bytes) || fin_bump)).

(** From the check of the sequence number to the FIN flag: [bytes] is the payload
    length, [body] the packet from the payload on, [ts_val], [ts_ecr] the received
    timestamps. *)
Definition packet_data m fs (p : pkt_tcp) (bytes ts_val ts_ecr ts : Z) (body : Z -> Z)
    : outcome rx_result :=
  let seq := tcp_seqno p in
  let end_seq := u32 (seq + bytes) in
  let trigger_ack := 0 <? bytes in
  match tcp_trim_rxbuf fs seq bytes with
  | None => Done (mk_rx fs m 0 false true)
  | Some (trim_start, trim_end) =>
    let bytes := u32 (bytes - (trim_start + trim_end)) in
    let payload : Z -> Z := fun i => body (trim_start + i) in
    let seq := u32 (seq + trim_start) in
    if negb (seq =? fs_rx_next_seq fs) then
      if bytes =? 0 then Done (mk_rx fs m 0 false true)
      else '(fs, m) ← packet_ooo m fs seq bytes payload; Done (mk_rx fs m 0 false true)
    else packet_inorder m fs p bytes ts_val ts_ecr ts end_seq payload trigger_ack
  end.

(** Behind [unlock]: notify the application, tell the queue manager about additional
    bytes to send, and acknowledge. *)
Definition packet_finish c (flow_id : Z) (nbh : nbuf) fs (rx_pos rx_bump tx_bump : Z)
    (fin_bump trigger_ack : bool) (old_avail ts ts_opt : Z) : outcome (Z * dp Q) :=
  let type := if fin_bump then Z.lor FLEXTCP_PL_ARX_CONNUPDATE (Z.shiftl FLEXTCP_PL_ARX_FLRXDONE 8)
              else FLEXTCP_PL_ARX_CONNUPDATE in
  let c := if negb (rx_bump =? 0) || negb (tx_bump =? 0) || fin_bump
           then arx_cache_add c (fs_db_id fs) (fs_opaque fs) rx_bump rx_pos tx_bump type else c in
  let new_avail := tcp_txavail fs None in
  c ← (if old_avail <? new_avail
       then qman_set_or_abort c flow_id (fs_tx_rate fs) (u32 (new_avail - old_avail)) TCP_MSS ADD_ALL
       else Done c);
  if (trigger_ack : bool) then
    c ← flow_tx_ack c (fs_tx_next_seq fs) (fs_rx_next_seq fs) (fs_rx_avail fs) (fs_tx_next_ts fs)
          ts nbh ts_opt;
    Done (1, c)
  else Done (0, c).

(** The flags the fast path handles itself. *)
Definition FAST_FLAGS : Z := Z.lor TCP_ACK (Z.lor TCP_PSH (Z.lor TCP_ECE (Z.lor TCP_CWR TCP_FIN))).

(** [fast_flows_packet]: [fid] is the flow found for the packet, [ts_opt] the offset of
    the timestamp option behind the fixed headers.  The local [flow_id] has 16 bits. *)
Definition fast_flows_packet c (nbh : nbuf) (fid ts_opt ts : Z) : outcome (Z * dp Q) :=
  let p := nb_pkt nbh in
  let fs := c_flowst c fid in
  let flow_id := u16 fid in
  let tcp_extra_hlen := u16 ((tcp_hdrlen p - 5) * 4) in
  let payload_bytes := u32 (ip_len p - (IP_HDR_SIZE + TCP_HDR_SIZE + tcp_extra_hlen)) in
  let flags := TCPH_FLAGS p in
  let slowpath fs permanent :=
    Done (-1, if (permanent : bool) then set_flow c fid (sp_set fs FLEXNIC_PL_FLOWST_SLOWPATH) else c) in
  if has (fs_rx_base_sp fs) FLEXNIC_PL_FLOWST_SLOWPATH then slowpath fs true
  else if negb (Z.ldiff flags FAST_FLAGS =? 0) then slowpath fs (negb (has flags TCP_SYN))
  else
  let old_avail := tcp_txavail fs None in
  let rx_pos := fs_rx_next_pos fs in
  let ts_val := be32 (p_body p) (ts_opt + 2) in
  let ts_ecr := be32 (p_body p) (ts_opt + 6) in
  let '(stop, fs, tx_bump) := packet_ack fs flags (tcp_ackno p) payload_bytes in
  r ← (if (stop : bool) then Done (mk_rx fs (c_mem c) 0 false (0 <? payload_bytes))
       else packet_data (c_mem c) fs p payload_bytes ts_val ts_ecr ts
              (fun i => p_body p (tcp_extra_hlen + i)));
  let c := (set_flow c fid (rr_fs r)) <| c_mem := rr_mem r |> in
  packet_finish c flow_id nbh (rr_fs r) rx_pos (rr_rx_bump r) tx_bump (rr_fin_bump r)
    (rr_trigger_ack r) old_avail ts ts_opt.

(** ** Application updates and retransmission *)

(** The check for out of order bumps. *)
Definition bump_out_of_order (fs_seq bump_seq : Z) : bool :=
  ((fs_seq <=? bump_seq) && (UINT16_MAX / 2 <? bump_seq - fs_seq))
  || ((bump_seq <? fs_seq)
      && ((fs_seq <? (UINT16_MAX / 4) * 3) || (UINT16_MAX / 4 <? bump_seq))).

(** The validation of [fast_flows_bump]: [None] when the bump is refused, else the
    accepted [tx_bump] and the new [tx_avail]. *)
Definition bump_validate fs (rx_bump tx_bump flags : Z) : option (Z * Z) :=
  let txfin := sp_has fs FLEXNIC_PL_FLOWST_TXFIN in
  let eos := Z.land flags FLEXTCP_PL_ATX_FLTXDONE =? FLEXTCP_PL_ATX_FLTXDONE in
  if negb (txfin && negb (tx_bump =? 0))
     && (eos && negb (has (fs_rx_base_sp fs) FLEXNIC_PL_FLOWST_TXFIN) && (tx_bump =? 0)) then None
  else
  let tx_bump := if txfin && negb (tx_bump =? 0) then 0 else tx_bump in
  let tx_avail := u32 (fs_tx_avail fs + tx_bump) in
  if (fs_tx_len fs <? tx_bump) || (fs_tx_len fs <? tx_avail)
     || (fs_tx_len fs <? u32 (tx_avail + fs_tx_sent fs)) then None
  else if (fs_rx_len fs <? rx_bump) || (fs_tx_len fs <? u32 (rx_bump + fs_rx_avail fs)) then None
  else Some (tx_bump, tx_avail).

(** [fast_flows_bump]. *)
Definition fast_flows_bump c (flow_id bump_seq rx_bump tx_bump flags : Z) (nbh : nbuf) (ts : Z)
    : outcome (Z * dp Q) :=
  let fs := c_flowst c flow_id in
  if bump_out_of_order (fs_bump_seq fs) bump_seq then Done (-1, c) else
  let fs := fs <| fs_bump_seq := bump_seq |> in
  match bump_validate fs rx_bump tx_bump flags with
  | None => Done (-1, set_flow c flow_id fs)
  | Some (_, tx_avail) =>
    let old_avail := tcp_txavail fs None in
    let new_avail := tcp_txavail fs (Some tx_avail) in
    let eos := Z.land flags FLEXTCP_PL_ATX_FLTXDONE =? FLEXTCP_PL_ATX_FLTXDONE in
    let fs := if eos && negb (has (fs_rx_base_sp fs) FLEXNIC_PL_FLOWST_TXFIN)
              then sp_set fs FLEXNIC_PL_FLOWST_TXFIN else fs in
    c ← (if old_avail <? new_avail
         then qman_set_or_abort c flow_id (fs_tx_rate fs) (u32 (new_avail - old_avail)) TCP_MSS ADD_ALL
         else Done c);
    let fs := fs <| fs_tx_avail := tx_avail |> in
    let rx_avail_prev := fs_rx_avail fs in
    let fs := fs <| fs_rx_avail := u32 (fs_rx_avail fs + rx_bump) |> in
    let c := set_flow c flow_id fs in
    if (new_avail =? 0) && (rx_avail_prev =? 0) && negb (fs_rx_avail fs =? 0) then
      c ← flow_tx_segment c nbh fs (fs_tx_next_seq fs) (fs_rx_next_seq fs) (fs_rx_avail fs) 0 0
            (fs_tx_next_ts fs) ts false;
      Done (0, c)
    else Done (-1, c)
  end.

(** [fast_flows_retransmit]. *)
Definition fast_flows_retransmit c (flow_id : Z) : outcome (dp Q) :=
  let fs := c_flowst c flow_id in
  let old_avail := tcp_txavail fs None in
  if fs_tx_sent fs =? 0 then Done c else
  let fs := flow_reset_retransmit fs in
  let new_avail := tcp_txavail fs None in
  let c := set_flow c flow_id fs in
  if old_avail <? new_avail
  then qman_set_or_abort c flow_id (fs_tx_rate fs) (u32 (new_avail - old_avail)) TCP_MSS ADD_ALL
  else Done c.

End FastFlows.

(** ** From packets to flows *)

(** The checks of [fast_flows_packet_parse] on one packet: the offset of the timestamp
    option of a packet the fast path takes.  All conditions are evaluated, also the
    option parser on a packet the others have refused. *)
Definition packet_check (fuel : nat) (nbh : nbuf) : outcome (option Z) :=
  let p := nb_pkt nbh in
  let len := nb_len nbh in
  r ← tcp_parse_options fuel (tcp_hdrlen p) len (p_body p);
  let cond :=
    (len <? PKT_TCP_SIZE) || negb (eth_type p =? ETH_TYPE_IP) || negb (ip_proto p =? IP_PROTO_TCP)
    || negb (ip_v p =? 4) || negb (ip_hl p =? 5) || (tcp_hdrlen p <? 5)
    || (len <? ip_len p + ETH_HDR_SIZE) in
  Done (if cond then None else match r with Some (Some ts) => Some ts | _ => None end).

(** [fast_flows_packet_parse]: [fss] holds the flow found for each packet. *)
Fixpoint fast_flows_packet_parse (fuel : nat) (nbhs : list nbuf) (fss : list (option Z))
    : outcome (list (option (Z * Z))) :=
  match nbhs, fss with
  | nbh :: nbhs, fs :: fss =>
    x ← match fs with
        | None => Done None
        | Some fid => ts ← packet_check fuel nbh; Done ((fun o => (fid, o)) <$> (ts : option Z))
        end;
    xs ← fast_flows_packet_parse fuel nbhs fss;
    Done (x :: xs)
  | _, _ => Done []
  end.

Section Lookup.
(** The CRC instructions, [crc32c_sse42_u32] and [crc32c_sse42_u64]. *)
Context (crc32c_u32 crc32c_u64 : Z -> Z -> Z).
(** The flow hash table and the flow states. *)
Context (flowht : Z -> flowhte) (flowst_tbl : Z -> flowst).

Record flow_key : Type := mk_key { k_local_ip : Z; k_remote_ip : Z; k_local_port : Z; k_remote_port : Z }.

(** [flow_hash]. *)
Definition flow_hash (k : flow_key) : Z :=
  crc32c_u32 (Z.lor (k_local_port k) (Z.shiftl (k_remote_port k) 16))
    (crc32c_u64 (Z.lor (k_local_ip k) (Z.shiftl (k_remote_ip k) 32)) 0).

Definition packet_key (p : pkt_tcp) : flow_key :=
  mk_key (ip_dest p) (ip_src p) (tcp_dest p) (tcp_src p).

(** The tuple check of the last loop of [fast_flows_packet_fss]. *)
Definition flow_matches (fs : flowst) (p : pkt_tcp) : bool :=
  (fs_local_ip fs =? ip_dest p) && (fs_remote_ip fs =? ip_src p)
  && (fs_local_port fs =? tcp_dest p) && (fs_remote_port fs =? tcp_src p).

Definition entry_flow_id (e : flowhte) : Z :=
  Z.land (fe_flow_id e) (Z.shiftl 1 FLEXNIC_PL_FLOWHTE_POSSHIFT - 1).

(** The search of the bucket, from probe [j] on with [n] probes left. *)
Fixpoint fss_probe (p : pkt_tcp) (h j : Z) (n : nat) : option Z :=
  match n with
  | O => None
  | S n =>
    let k := u32 (h + j) mod FLEXNIC_PL_FLOWHT_ENTRIES in
    let e := flowht k in
    let fid := entry_flow_id e in
    if (Z.land (fe_flow_id e) FLEXNIC_PL_FLOWHTE_VALID =? 0) || negb (fe_flow_hash e =? h)
    then fss_probe p h (j + 1) n
    else if flow_matches (flowst_tbl fid) p then Some fid
    else fss_probe p h (j + 1) n
  end.

(** [fast_flows_packet_fss]. *)
Definition fast_flows_packet_fss (nbhs : list nbuf) : list (option Z) :=
  map (fun nbh => let p := nb_pkt nbh in
    fss_probe p (flow_hash (packet_key p)) 0 FLEXNIC_PL_FLOWHT_NBSZ) nbhs.

End Lookup.

End FastFlows.
