(* ===== verification/FastRx.v ===== *)
(** * Receiving data: the circular buffer and the reassembly of the stream

    The proofs about the receive part of [FastFlows]: what is written where, which
    bytes the application is told about, and that bytes it has not read yet are never
    overwritten. *)
From S2P Require Import Prelude Memif Packet TcpCommon FastCtx FastFlows.

Module FastRx.
Import Packet TcpCommon FastCtx FastFlows.

(** ** Arithmetic of circular buffers *)

Lemma mod_wrap x n : 0 < n -> 0 <= x < 2 * n -> x mod n = if n <=? x then x - n else x.
Proof.
  intros Hn Hx. destruct (Z.leb_spec n x).
  - symmetry. apply (Zmod_unique x n 1); lia.
  - by rewrite Z.mod_small by lia.
Qed.

(** Sequence numbers by their distance. *)
Lemma seq_rel_offset n d : -2147483648 <= d < 2147483648 -> seq_rel (u32 (n + d)) n = d.
Proof. intros. unfold seq_rel. wrap_lia. Qed.

Lemma seq_rel_of s n : in32 s -> u32 (n + seq_rel s n) = s.
Proof. intros. unfold seq_rel. wrap_lia. Qed.

Lemma seq_rel_zero s n : in32 s -> in32 n -> seq_rel s n = 0 <-> s = n.
Proof. intros. unfold seq_rel. wrap_lia. Qed.

Section Rx.
Context (shm_len : Z).

(** ** Well-formed receive state *)

Definition ooo_rel (fs : flowst) : Z := seq_rel (fs_rx_ooo_start fs) (fs_rx_next_seq fs).

(** The free part of the receive buffer starts at the next position and [rx_avail]
    bytes of it are free; the out of order interval, if there is one, lies inside the
    free part and not at its start. *)
Record rx_wf (fs : flowst) : Prop := {
  rw_len : 0 < fs_rx_len fs < 1073741824;
  rw_pos : 0 <= fs_rx_next_pos fs < fs_rx_len fs;
  rw_avail : 0 <= fs_rx_avail fs <= fs_rx_len fs;
  rw_seq : in32 (fs_rx_next_seq fs);
  rw_ooo_start : in32 (fs_rx_ooo_start fs);
  rw_ooo_len : 0 <= fs_rx_ooo_len fs;
  rw_ooo : fs_rx_ooo_len fs = 0 \/
    (0 < ooo_rel fs /\ ooo_rel fs + fs_rx_ooo_len fs <= fs_rx_avail fs);
  rw_base : 0 <= rx_base fs /\ rx_base fs + fs_rx_len fs <= shm_len < 18446744073709551616
}.

Lemma rx_window fs : rx_wf fs -> window_ok fs.
Proof. intros []. unfold window_ok. lia. Qed.

(** Address of the byte [k] bytes behind the next expected one. *)
Definition rx_slot (fs : flowst) (k : Z) : Z :=
  rx_base fs + (fs_rx_next_pos fs + k) mod fs_rx_len fs.

Lemma rx_slot_inj fs i j : rx_wf fs -> rx_slot fs i = rx_slot fs j ->
  - fs_rx_len fs < i - j < fs_rx_len fs -> i = j.
Proof. intros [] E. apply (mod_shift_inj _ (fs_rx_next_pos fs)); [lia|unfold rx_slot in E; lia]. Qed.

Lemma rx_slot_range fs k : rx_wf fs -> rx_base fs <= rx_slot fs k < rx_base fs + fs_rx_len fs.
Proof. intros []. unfold rx_slot. pose proof (Z.mod_pos_bound (fs_rx_next_pos fs + k) (fs_rx_len fs)). lia. Qed.

(** ** Writing to the buffer *)

Lemma dma_write_spec m addr len src : 0 <= addr -> 0 <= len -> addr + len <= shm_len ->
  shm_len < 18446744073709551616 ->
  exists m', dma_write shm_len m addr len src = Done m' /\
    (forall i, 0 <= i < len -> m' (addr + i) = src i) /\
    (forall a, ~ addr <= a < addr + len -> m' a = m a).
Proof.
  intros Ha Hl Hs H64. unfold dma_write, dma_check. rewrite u64_small by lia.
  rewrite !(proj2 (Z.leb_le _ _)) by lia. eexists. split; [done|]. split.
  - intros i Hi. cbn. rewrite (proj2 (Z.leb_le _ _)), (proj2 (Z.ltb_lt _ _)) by lia.
    cbn. f_equal. lia.
  - intros a Hni. cbn. destruct (_ && _)%bool eqn:E; [breflect; lia|done].
Qed.

Lemma rx_write_spec m fs pos len src : rx_wf fs -> 0 <= pos < fs_rx_len fs ->
  in16 len -> len <= fs_rx_len fs ->
  exists m', flow_rx_write shm_len m fs pos len src = Done m' /\
    (forall i, 0 <= i < len -> m' (rx_base fs + (pos + i) mod fs_rx_len fs) = src i) /\
    (forall a, (forall i, 0 <= i < len -> a <> rx_base fs + (pos + i) mod fs_rx_len fs) -> m' a = m a).
Proof.
  intros Hw Hp H16 Hl. pose proof (rw_len _ Hw). pose proof (rw_base _ Hw).
  unfold flow_rx_write. rewrite (u16_small len) by done. rewrite (u32_small (pos + len)) by lia.
  rewrite (u64_small (rx_base fs + pos)) by lia.
  destruct (Z.leb_spec (pos + len) (fs_rx_len fs)).
  - destruct (dma_write_spec m (rx_base fs + pos) len src) as (m' & E & Hin & Hout); try lia.
    exists m'. split; [done|]. split.
    + intros i Hi. rewrite Z.mod_small by lia. rewrite <-(Hin i Hi). f_equal. lia.
    + intros a Ha. apply Hout. intros Hr. apply (Ha (a - rx_base fs - pos)); [lia|].
      rewrite Z.mod_small; lia.
  - rewrite (u32_small (fs_rx_len fs - pos)) by lia.
    set (part := fs_rx_len fs - pos) in *. rewrite (u32_small (len - part)) by lia.
    destruct (dma_write_spec m (rx_base fs + pos) part src) as (m1 & -> & Hin1 & Hout1); try lia.
    destruct (dma_write_spec m1 (rx_base fs) (len - part) (fun i => src (part + i)))
      as (m2 & E & Hin2 & Hout2); try lia.
    exists m2. split; [done|]. split.
    + intros i Hi. rewrite mod_wrap by lia. destruct (Z.leb_spec (fs_rx_len fs) (pos + i)).
      * rewrite (Hin2 (pos + i - fs_rx_len fs)) by lia. f_equal. lia.
      * rewrite Hout2 by lia. rewrite <-(Hin1 i) by lia. f_equal. lia.
    + intros a Ha. rewrite Hout2; [apply Hout1|].
      * intros Hr. apply (Ha (a - rx_base fs - pos)); [lia|]. rewrite Z.mod_small; lia.
      * intros Hr. apply (Ha (a - rx_base fs + part)); [lia|].
        rewrite mod_wrap by lia. rewrite (proj2 (Z.leb_le _ _)); lia.
Qed.

(** Writing [bytes] bytes [rel] behind the next expected one, inside the free part. *)
Lemma rx_write_slots m fs pos rel bytes src : rx_wf fs -> in16 bytes ->
  0 <= rel -> rel + bytes <= fs_rx_avail fs -> 0 <= pos < fs_rx_len fs ->
  pos = (fs_rx_next_pos fs + rel) mod fs_rx_len fs ->
  exists m', flow_rx_write shm_len m fs pos bytes src = Done m' /\
    (forall i, 0 <= i < bytes -> m' (rx_slot fs (rel + i)) = src i) /\
    (forall k, fs_rx_avail fs - fs_rx_len fs <= k < fs_rx_avail fs ->
      ~ rel <= k < rel + bytes -> m' (rx_slot fs k) = m (rx_slot fs k)) /\
    (forall a, ~ rx_base fs <= a < rx_base fs + fs_rx_len fs -> m' a = m a).
Proof.
  intros Hw H16 Hr Hsum Hp Epos. pose proof (rw_len _ Hw). pose proof (rw_avail _ Hw).
  destruct (rx_write_spec m fs pos bytes src Hw Hp H16 ltac:(lia)) as (m' & E & Hin & Hout).
  assert (Hslot : forall i, rx_base fs + (pos + i) mod fs_rx_len fs = rx_slot fs (rel + i)).
  { intros i. unfold rx_slot. rewrite Epos, Zplus_mod_idemp_l. do 2 f_equal. lia. }
  exists m'. split_and!; [done| | |].
  - intros i Hi. rewrite <-Hslot. by apply Hin.
  - intros k Hk Hnot. apply Hout. intros i Hi Ea. rewrite Hslot in Ea.
    apply rx_slot_inj in Ea; [lia|done|lia].
  - intros a Ha. apply Hout. intros i Hi Ea. rewrite Hslot in Ea.
    pose proof (rx_slot_range fs (rel + i) Hw). lia.
Qed.

Lemma rx_seq_write_slots m fs seq bytes src : rx_wf fs -> in16 bytes -> in32 seq ->
  let rel := seq_rel seq (fs_rx_next_seq fs) in
  0 <= rel -> rel + bytes <= fs_rx_avail fs -> 0 < bytes ->
  exists m', flow_rx_seq_write shm_len m fs seq bytes src = Done m' /\
    (forall i, 0 <= i < bytes -> m' (rx_slot fs (rel + i)) = src i) /\
    (forall k, fs_rx_avail fs - fs_rx_len fs <= k < fs_rx_avail fs ->
      ~ rel <= k < rel + bytes -> m' (rx_slot fs k) = m (rx_slot fs k)) /\
    (forall a, ~ rx_base fs <= a < rx_base fs + fs_rx_len fs -> m' a = m a).
Proof.
  intros Hw H16 Hs rel Hr Hsum Hb. pose proof (rw_len _ Hw). pose proof (rw_avail _ Hw).
  pose proof (rw_pos _ Hw). unfold flow_rx_seq_write.
  assert (Ed : u32 (seq - fs_rx_next_seq fs) = rel).
  { rewrite <-(seq_rel_of seq (fs_rx_next_seq fs)) at 1 by done. fold rel. rewrite u32_sub_l.
    rewrite <-(u32_small rel) at 2 by lia. f_equal. lia. }
  rewrite Ed. rewrite (u32_small (_ + rel)) by lia.
  assert (Ep : (if fs_rx_len fs <=? fs_rx_next_pos fs + rel
    then u32 (fs_rx_next_pos fs + rel - fs_rx_len fs) else fs_rx_next_pos fs + rel)
    = (fs_rx_next_pos fs + rel) mod fs_rx_len fs).
  { rewrite mod_wrap by lia. destruct (Z.leb_spec (fs_rx_len fs) (fs_rx_next_pos fs + rel)); [|done].
    rewrite u32_small; lia. }
  rewrite Ep. pose proof (Z.mod_pos_bound (fs_rx_next_pos fs + rel) (fs_rx_len fs) ltac:(lia)).
  rewrite (proj2 (Z.ltb_lt _ _)) by lia. cbn. by apply rx_write_slots.
Qed.

(** ** The stream in the buffer

    [S n] is byte [n] of the stream the peer sends and [N] the index of the next byte
    expected in order. *)
Record rx_stream (m : memory) (fs : flowst) (S : Z -> Z) (N : Z) : Prop := {
  rs_unread k : 0 < k <= fs_rx_len fs - fs_rx_avail fs -> m (rx_slot fs (- k)) = S (N - k);
  rs_ooo k : has (fs_rx_base_sp fs) FLEXNIC_PL_FLOWST_RXFIN = false -> 0 <= k < fs_rx_ooo_len fs ->
    m (rx_slot fs (ooo_rel fs + k)) = S (N + ooo_rel fs + k)
}.

(** What the receive part never changes. *)
Record rx_frame (fs fs' : flowst) : Prop := {
  rf_base : rx_base fs' = rx_base fs;
  rf_len : fs_rx_len fs' = fs_rx_len fs;
  rf_tx_base : fs_tx_base fs' = fs_tx_base fs;
  rf_tx_len : fs_tx_len fs' = fs_tx_len fs;
  rf_tx_avail : fs_tx_avail fs' = fs_tx_avail fs;
  rf_tx_sent : fs_tx_sent fs' = fs_tx_sent fs;
  rf_tx_pos : fs_tx_next_pos fs' = fs_tx_next_pos fs;
  rf_tx_seq : fs_tx_next_seq fs' = fs_tx_next_seq fs;
  rf_tx_rate : fs_tx_rate fs' = fs_tx_rate fs
}.

Lemma rx_frame_refl fs : rx_frame fs fs.
Proof. by constructor. Qed.
Lemma rx_frame_trans a b c : rx_frame a b -> rx_frame b c -> rx_frame a c.
Proof. intros [] []. constructor; congruence. Qed.

(** Two flows with the same receive registers. *)
Record rx_same (fs fs' : flowst) : Prop := {
  rx_s_base : rx_base fs' = rx_base fs;
  rx_s_fin : has (fs_rx_base_sp fs') FLEXNIC_PL_FLOWST_RXFIN = has (fs_rx_base_sp fs) FLEXNIC_PL_FLOWST_RXFIN;
  rx_s_len : fs_rx_len fs' = fs_rx_len fs;
  rx_s_avail : fs_rx_avail fs' = fs_rx_avail fs;
  rx_s_pos : fs_rx_next_pos fs' = fs_rx_next_pos fs;
  rx_s_seq : fs_rx_next_seq fs' = fs_rx_next_seq fs;
  rx_s_start : fs_rx_ooo_start fs' = fs_rx_ooo_start fs;
  rx_s_olen : fs_rx_ooo_len fs' = fs_rx_ooo_len fs
}.

Lemma rx_same_trans a b c : rx_same a b -> rx_same b c -> rx_same a c.
Proof. intros [] []. constructor; congruence. Qed.

Lemma rx_same_wf fs fs' : rx_same fs fs' -> rx_wf fs -> rx_wf fs'.
Proof.
  intros [] []. unfold ooo_rel in *.
  constructor; unfold ooo_rel; rewrite ?rx_s_base0, ?rx_s_len0, ?rx_s_avail0, ?rx_s_pos0, ?rx_s_seq0,
    ?rx_s_start0, ?rx_s_olen0; done.
Qed.

Lemma rx_same_stream m fs fs' S N : rx_same fs fs' -> rx_stream m fs S N -> rx_stream m fs' S N.
Proof.
  intros [] []. unfold ooo_rel, rx_slot in *.
  constructor; unfold ooo_rel, rx_slot; rewrite ?rx_s_base0, ?rx_s_fin0, ?rx_s_len0, ?rx_s_avail0, ?rx_s_pos0,
    ?rx_s_seq0, ?rx_s_start0, ?rx_s_olen0; done.
Qed.

(** *** Moving on in the stream *)

Definition rx_moved (fs : flowst) (n : Z) : flowst :=
  fs <| fs_rx_avail := fs_rx_avail fs - n |>
     <| fs_rx_next_pos := (fs_rx_next_pos fs + n) mod fs_rx_len fs |>
     <| fs_rx_next_seq := u32 (fs_rx_next_seq fs + n) |>.

Lemma rx_advance_moved fs n : 0 < fs_rx_len fs < 1073741824 ->
  0 <= fs_rx_next_pos fs < fs_rx_len fs -> 0 <= n <= fs_rx_avail fs ->
  fs_rx_avail fs <= fs_rx_len fs -> rx_advance fs n = Done (rx_moved fs n).
Proof.
  intros Hl Hp Hn Ha. unfold rx_advance, rx_moved. rewrite (u32_small (fs_rx_avail fs - n)) by lia.
  rewrite (u32_small (fs_rx_next_pos fs + n)) by lia.
  assert (Ep : (if fs_rx_len fs <=? fs_rx_next_pos fs + n
    then u32 (fs_rx_next_pos fs + n - fs_rx_len fs) else fs_rx_next_pos fs + n)
    = (fs_rx_next_pos fs + n) mod fs_rx_len fs).
  { rewrite mod_wrap by lia. destruct (Z.leb_spec (fs_rx_len fs) (fs_rx_next_pos fs + n)); [|done].
    rewrite u32_small; lia. }
  pose proof (Z.mod_pos_bound (fs_rx_next_pos fs + n) (fs_rx_len fs) ltac:(lia)).
  cbn. rewrite Ep. rewrite (proj2 (Z.ltb_lt _ _)) by lia. done.
Qed.

Lemma rx_moved_slot fs n k : rx_wf fs -> rx_slot (rx_moved fs n) k = rx_slot fs (n + k).
Proof.
  intros []. unfold rx_slot, rx_moved, rx_base. cbn. rewrite Zplus_mod_idemp_l. do 2 f_equal. lia.
Qed.

Lemma rx_moved_rel fs n : rx_wf fs -> 0 <= n <= fs_rx_avail fs ->
  fs_rx_ooo_len fs <> 0 -> ooo_rel (rx_moved fs n) = ooo_rel fs - n.
Proof.
  intros [] Hn Ho. destruct rw_ooo0 as [?|[Hd Hd']]; [done|].
  unfold ooo_rel at 1. cbn. rewrite <-(seq_rel_of (fs_rx_ooo_start fs) (fs_rx_next_seq fs)) by done.
  fold (ooo_rel fs).
  replace (u32 (fs_rx_next_seq fs + ooo_rel fs)) with (u32 (u32 (fs_rx_next_seq fs + n) + (ooo_rel fs - n)))
    by (rewrite u32_add_l; f_equal; lia).
  apply seq_rel_offset. lia.
Qed.

(** The next [n] bytes of the stream are in the buffer: the receive state may move on
    over them.  The out of order interval is dropped or lies ahead. *)
Lemma rx_moved_ok m fs S N n o len : rx_wf fs -> rx_stream m fs S N -> 0 <= n <= fs_rx_avail fs ->
  (forall i, 0 <= i < n -> m (rx_slot fs i) = S (N + i)) ->
  in32 o -> 0 <= len ->
  (len = 0 \/ (0 < seq_rel o (u32 (fs_rx_next_seq fs + n)) /\
     seq_rel o (u32 (fs_rx_next_seq fs + n)) + len <= fs_rx_avail fs - n /\
     (has (fs_rx_base_sp fs) FLEXNIC_PL_FLOWST_RXFIN = false -> forall k, 0 <= k < len ->
        m (rx_slot fs (n + seq_rel o (u32 (fs_rx_next_seq fs + n)) + k)) =
        S (N + n + seq_rel o (u32 (fs_rx_next_seq fs + n)) + k)))) ->
  let fs' := (rx_moved fs n) <| fs_rx_ooo_start := o |> <| fs_rx_ooo_len := len |> in
  rx_wf fs' /\ rx_stream m fs' S (N + n).
Proof.
  intros Hw [Hun Hoo] Hn Hnew Ho Hl Hint fs'. pose proof Hw as [].
  assert (Hslot : forall k, rx_slot fs' k = rx_slot fs (n + k)).
  { intros k. rewrite <-rx_moved_slot by done. done. }
  pose proof (Z.mod_pos_bound (fs_rx_next_pos fs + n) (fs_rx_len fs) ltac:(lia)).
  split; constructor; try (cbn; done); try (cbn; lia).
  - cbn. apply u32_range.
  - unfold ooo_rel. cbn. destruct Hint as [->|(? & ? & _)]; [by left|by right].
  - cbn. intros k Hk. rewrite Hslot. destruct (Z.le_gt_cases k n).
    + replace (n + - k) with (n - k) by lia. rewrite Hnew by lia. f_equal. lia.
    + replace (n + - k) with (- (k - n)) by lia. rewrite Hun by lia. f_equal. lia.
  - cbn. intros Hfin k Hk. rewrite Hslot. unfold ooo_rel. cbn.
    destruct Hint as [->|(? & ? & Hm)]; [lia|]. rewrite Z.add_assoc. rewrite Hm by done. f_equal; lia.
Qed.

(** Writing bytes of the stream into the free part keeps what the buffer holds. *)
Lemma stream_write m m' fs S N rel bytes (src : Z -> Z) :
  rx_wf fs -> rx_stream m fs S N -> 0 <= rel -> rel + bytes <= fs_rx_avail fs ->
  (forall i, 0 <= i < bytes -> m' (rx_slot fs (rel + i)) = src i) ->
  (forall k, fs_rx_avail fs - fs_rx_len fs <= k < fs_rx_avail fs ->
      ~ rel <= k < rel + bytes -> m' (rx_slot fs k) = m (rx_slot fs k)) ->
  (has (fs_rx_base_sp fs) FLEXNIC_PL_FLOWST_RXFIN = false ->
    forall i, 0 <= i < bytes -> src i = S (N + rel + i)) ->
  rx_stream m' fs S N.
Proof.
  intros Hw [Hun Hoo] Hr Hsum Hin Hout Hsrc. pose proof Hw as []. constructor.
  - intros k Hk. rewrite Hout by lia. by apply Hun.
  - intros k Hfin Hk. destruct rw_ooo0 as [?|[Hd1 Hd2]]; [lia|].
    destruct (decide (rel <= ooo_rel fs + k < rel + bytes)).
    + replace (ooo_rel fs + k) with (rel + (ooo_rel fs + k - rel)) by lia.
      rewrite Hin by lia. rewrite Hsrc by (done || lia). f_equal. lia.
    + rewrite Hout by lia. by apply Hoo.
Qed.

(** *** Taking over the out of order interval *)

Definition rx_set_ooo (fs : flowst) (o len : Z) : flowst :=
  fs <| fs_rx_ooo_start := o |> <| fs_rx_ooo_len := len |>.

Lemma rx_set_ooo_same fs len : fs_rx_ooo_len fs = len -> rx_set_ooo fs (fs_rx_ooo_start fs) len = fs.
Proof. intros <-. by destruct fs. Qed.

Lemma rx_moved_twice fs a b o len : 0 < fs_rx_len fs ->
  rx_set_ooo (rx_moved (rx_set_ooo (rx_moved fs a) o len) b) o 0 = rx_set_ooo (rx_moved fs (a + b)) o 0.
Proof.
  intros. unfold rx_set_ooo, rx_moved. cbn. rewrite u32_add_l, Zplus_mod_idemp_l, !Z.add_assoc.
  replace (fs_rx_avail fs - a - b) with (fs_rx_avail fs - (a + b)) by lia. done.
Qed.

(** The trimming of the out of order interval after [n] bytes of in-order data. *)
Lemma trim_ooo fs n : rx_wf fs -> 0 <= n <= fs_rx_avail fs -> fs_rx_ooo_len fs <> 0 ->
  let d := ooo_rel fs - n in
  tcp_trim_rxbuf (rx_moved fs n) (fs_rx_ooo_start fs) (fs_rx_ooo_len fs) =
    if d + u16 (fs_rx_ooo_len fs) <? 0 then None else Some (Z.max 0 (- d), 0).
Proof.
  intros Hw Hn Ho d. pose proof Hw as []. destruct rw_ooo0 as [?|[Hd1 Hd2]]; [done|].
  pose proof (rx_moved_rel fs n Hw Hn Ho) as Er. fold d in Er. unfold ooo_rel in Er.
  change (fs_rx_ooo_start (rx_moved fs n)) with (fs_rx_ooo_start fs) in Er.
  set (b := u16 (fs_rx_ooo_len fs)). pose proof (u16_range (fs_rx_ooo_len fs)) as Hb. fold b in Hb.
  assert (b <= fs_rx_ooo_len fs) by (unfold b; wrap_lia).
  assert (Eb : tcp_trim_rxbuf (rx_moved fs n) (fs_rx_ooo_start fs) (fs_rx_ooo_len fs)
    = tcp_trim_rxbuf (rx_moved fs n) (fs_rx_ooo_start fs) b).
  { unfold tcp_trim_rxbuf. rewrite (u16_small b) by done. done. }
  rewrite Eb, trim_rxbuf_spec; [|split; cbn; [apply u32_range|lia]|done|done|].
  - rewrite Er. change (fs_rx_avail (rx_moved fs n)) with (fs_rx_avail fs - n).
    unfold trim_spec. split_ifs; try done; do 2 f_equal; lia.
  - unfold trim_gap. cbn [fs_rx_next_seq fs_rx_avail rx_moved setter].
    change (fs_rx_next_seq (rx_moved fs n)) with (u32 (fs_rx_next_seq fs + n)) in *.
    change (fs_rx_avail (rx_moved fs n)) with (fs_rx_avail fs - n).
    pose proof (seq_rel_cases (fs_rx_ooo_start fs) (u32 (fs_rx_next_seq fs + n)) rw_ooo_start0 (u32_range _)).
    apply not_true_iff_false. intros Hg. breflect. lia.
Qed.

(** How many bytes of the out of order interval become in-order data when [n] bytes
    arrive in order, and how long the interval is afterwards: an interval the data has
    caught up with is taken over, unless the data covers it (computed with its length
    cut to 16 bit, as [tcp_trim_rxbuf] takes it). *)
Definition ooo_taken (fs : flowst) (n : Z) : Z :=
  let d := ooo_rel fs - n in
  if (fs_rx_ooo_len fs =? 0) || (d + u16 (fs_rx_ooo_len fs) <? 0) || (0 <? d) then 0
  else d + fs_rx_ooo_len fs.
Definition ooo_left (fs : flowst) (n : Z) : Z :=
  if 0 <? ooo_rel fs - n then fs_rx_ooo_len fs else 0.

Lemma merge_ooo_ok m fs S N n : rx_wf fs -> rx_stream m fs S N -> 0 <= n <= fs_rx_avail fs ->
  has (fs_rx_base_sp fs) FLEXNIC_PL_FLOWST_RXFIN = false ->
  (forall i, 0 <= i < n -> m (rx_slot fs i) = S (N + i)) ->
  exists more o len, packet_merge_ooo (rx_moved fs n) = Done (rx_set_ooo (rx_moved fs (n + more)) o len, more) /\
    0 <= more /\ n + more <= fs_rx_avail fs /\
    (more = ooo_taken fs n /\ len = ooo_left fs n /\ (len <> 0 -> o = fs_rx_ooo_start fs)) /\
    rx_wf (rx_set_ooo (rx_moved fs (n + more)) o len) /\
    rx_stream m (rx_set_ooo (rx_moved fs (n + more)) o len) S (N + (n + more)).
Proof.
  intros Hw Hs Hn Hfin Hnew. pose proof Hw as []. unfold packet_merge_ooo, ooo_taken, ooo_left.
  change (fs_rx_ooo_len (rx_moved fs n)) with (fs_rx_ooo_len fs).
  change (fs_rx_ooo_start (rx_moved fs n)) with (fs_rx_ooo_start fs).
  destruct (Z.eqb_spec (fs_rx_ooo_len fs) 0) as [E|E].
  { exists 0, (fs_rx_ooo_start fs), 0. rewrite !Z.add_0_r, E. split_and!; try (done || lia).
    - by rewrite (rx_set_ooo_same (rx_moved fs n)).
    - by destruct (0 <? _).
    - apply (rx_moved_ok m fs S N n); try done; try lia; by left.
    - apply (rx_moved_ok m fs S N n); try done; try lia; by left. }
  rewrite trim_ooo by done. pose proof (rx_moved_rel fs n Hw Hn E) as Er. unfold ooo_rel at 1 in Er.
  cbn [fs_rx_ooo_start fs_rx_next_seq rx_moved setter] in Er.
  change (seq_rel (fs_rx_ooo_start fs) (u32 (fs_rx_next_seq fs + n)) = ooo_rel fs - n) in Er.
  set (d := ooo_rel fs - n) in *. destruct rw_ooo0 as [?|[Hd1 Hd2]]; [done|].
  destruct (Z.ltb_spec (d + u16 (fs_rx_ooo_len fs)) 0) as [Hlt|Hge].
  { pose proof (u16_range (fs_rx_ooo_len fs)). exists 0, (fs_rx_ooo_start fs), 0.
    rewrite orb_true_r, !Z.add_0_r, (proj2 (Z.ltb_ge 0 d)) by lia. split_and!; try (done || lia);
      apply (rx_moved_ok m fs S N n); try done; try lia; by left. }
  assert (Hu : u16 (fs_rx_ooo_len fs) <= fs_rx_ooo_len fs) by wrap_lia. cbn [orb].
  set (cut := Z.max 0 (- d)). rewrite Z.add_0_r. rewrite (u32_small (fs_rx_ooo_len fs - cut)) by lia.
  set (o := u32 (fs_rx_ooo_start fs + cut)). set (len := fs_rx_ooo_len fs - cut).
  change ((rx_moved fs n) <| fs_rx_ooo_start := o |> <| fs_rx_ooo_len := len |>)
    with (rx_set_ooo (rx_moved fs n) o len).
  change (fs_rx_ooo_len (rx_set_ooo (rx_moved fs n) o len)) with len.
  change (fs_rx_ooo_start (rx_set_ooo (rx_moved fs n) o len)) with o.
  change (fs_rx_next_seq (rx_set_ooo (rx_moved fs n) o len)) with (u32 (fs_rx_next_seq fs + n)).
  assert (Eo : seq_rel o (u32 (fs_rx_next_seq fs + n)) = d + cut).
  { unfold o. rewrite <-(seq_rel_of (fs_rx_ooo_start fs) (u32 (fs_rx_next_seq fs + n))) by done.
    rewrite Er, u32_add_l. rewrite <-Z.add_assoc. apply seq_rel_offset. lia. }
  assert (Ho : in32 o) by apply u32_range.
  assert (Hmem : forall k, 0 <= k < len -> m (rx_slot fs (n + (d + cut) + k)) = S (N + n + (d + cut) + k)).
  { intros k Hk. replace (n + (d + cut) + k) with (ooo_rel fs + (cut + k)) by lia.
    rewrite (rs_ooo _ _ _ _ Hs) by (done || lia). f_equal. lia. }
  pose proof (seq_rel_zero o (u32 (fs_rx_next_seq fs + n)) Ho (u32_range _)) as Hz. rewrite Eo in Hz.
  destruct (Z.ltb_spec 0 len), (Z.eqb_spec o (u32 (fs_rx_next_seq fs + n))) as [Eon|Eon]; cbn [andb].
  1:{ assert (d + cut = 0) by (by apply Hz).
    assert (Ead : rx_advance (rx_set_ooo (rx_moved fs n) o len) len
      = Done (rx_moved (rx_set_ooo (rx_moved fs n) o len) len)).
    { pose proof (Z.mod_pos_bound (fs_rx_next_pos fs + n) (fs_rx_len fs) ltac:(lia)).
      apply rx_advance_moved; cbn; lia. }
    rewrite Ead. cbn [mbind outcome_bind]. exists len, o, 0. rewrite <-rx_moved_twice with (len := len) by lia.
    assert (Hboth : rx_wf (rx_set_ooo (rx_moved fs (n + len)) o 0) /\
      rx_stream m (rx_set_ooo (rx_moved fs (n + len)) o 0) S (N + (n + len))).
    { apply (rx_moved_ok m fs S N (n + len)); try done; try lia; try by left.
      intros i Hi. destruct (Z.lt_ge_cases i n); [apply Hnew; lia|].
      specialize (Hmem (i - n) ltac:(lia)). replace (n + (d + cut) + (i - n)) with i in Hmem by lia.
      rewrite Hmem. f_equal. lia. }
    rewrite rx_moved_twice by lia. destruct Hboth.
    rewrite (proj2 (Z.ltb_ge 0 d)) by lia. split_and!; try done; try lia.
    f_equal. f_equal. rewrite <-rx_moved_twice with (len := len) by lia. done. }
  all: exists 0, o, len; rewrite !Z.add_0_r; destruct (Z.ltb_spec 0 d); split_and!; try done; try lia;
    try (intros _; unfold o, cut; rewrite Z.max_l, Z.add_0_r by lia; by apply u32_small);
    (apply (rx_moved_ok m fs S N n); try done; try lia; rewrite Eo;
     (destruct (decide (len = 0)); [by left|right; split_and!; try lia; intros _ k Hk; by apply Hmem])).
Qed.

(** *** Out of order segments *)

(** The new out of order interval consists of the old one and the segment. *)
Lemma ooo_extend m fs S N seq bytes (src : Z -> Z) o len :
  rx_wf fs -> rx_stream m fs S N -> in16 bytes -> in32 seq -> in32 o -> 0 < bytes ->
  let rel := seq_rel seq (fs_rx_next_seq fs) in
  let d := seq_rel o (fs_rx_next_seq fs) in
  0 < rel -> rel + bytes <= fs_rx_avail fs -> 0 < d -> 0 <= len -> d + len <= fs_rx_avail fs ->
  (has (fs_rx_base_sp fs) FLEXNIC_PL_FLOWST_RXFIN = false ->
    forall i, 0 <= i < bytes -> src i = S (N + rel + i)) ->
  (forall k, d <= k < d + len -> rel <= k < rel + bytes \/
    ooo_rel fs <= k < ooo_rel fs + fs_rx_ooo_len fs) ->
  exists m', flow_rx_seq_write shm_len m (rx_set_ooo fs o len) seq bytes src = Done m' /\
    rx_wf (rx_set_ooo fs o len) /\ rx_stream m' (rx_set_ooo fs o len) S N /\
    (forall a, ~ rx_base fs <= a < rx_base fs + fs_rx_len fs -> m' a = m a).
Proof.
  intros Hw Hs H16 Hseq Ho Hb rel d Hrel Hsum Hd Hl Hdl Hsrc Hcov. pose proof Hw as [].
  assert (Hw1 : rx_wf (rx_set_ooo fs o len)) by (constructor; try done; right; done).
  destruct (rx_seq_write_slots m (rx_set_ooo fs o len) seq bytes src Hw1 H16 Hseq ltac:(cbn; lia)
    ltac:(cbn; lia) Hb) as (m' & E & Hin & Hout & Houts).
  exists m'. split_and!; try done. constructor.
  - intros k Hk. rewrite Hout by (cbn in *; lia). by apply (rs_unread _ _ _ _ Hs).
  - intros k Hfin Hk. change (ooo_rel (rx_set_ooo fs o len)) with d.
    change (0 <= k < len) in Hk.
    destruct (decide (rel <= d + k < rel + bytes)).
    + replace (d + k) with (rel + (d + k - rel)) by lia. rewrite Hin by lia.
      rewrite Hsrc by (done || lia). f_equal. lia.
    + destruct (Hcov (d + k) ltac:(lia)) as [?|Hold]; [done|].
      change (fs_rx_next_seq (rx_set_ooo fs o len)) with (fs_rx_next_seq fs) in Hout. fold rel in Hout.
      rewrite Hout by (cbn; lia).
      replace (d + k) with (ooo_rel fs + (d + k - ooo_rel fs)) by lia.
      change (rx_slot (rx_set_ooo fs o len)) with (rx_slot fs).
      rewrite (rs_ooo _ _ _ _ Hs) by (done || lia). f_equal. lia.
Qed.

(** Where the out of order interval starts, relative to the next expected byte, and how
    long it is after a segment of [b] bytes at [rel] > 0 has been added to it: a first
    segment becomes the interval, a segment that touches it at either end extends it,
    and any other is left out. *)
Definition ooo_joined (fs : flowst) (rel b : Z) : Z * Z :=
  if fs_rx_ooo_len fs =? 0 then (rel, b)
  else if rel + b =? ooo_rel fs then (rel, fs_rx_ooo_len fs + b)
  else if ooo_rel fs + fs_rx_ooo_len fs =? rel then (ooo_rel fs, fs_rx_ooo_len fs + b)
  else (ooo_rel fs, fs_rx_ooo_len fs).

Lemma packet_ooo_ok m fs S N seq bytes (src : Z -> Z) :
  rx_wf fs -> rx_stream m fs S N -> in16 bytes -> in32 seq -> 0 < bytes ->
  let rel := seq_rel seq (fs_rx_next_seq fs) in
  0 < rel -> rel + bytes <= fs_rx_avail fs ->
  (has (fs_rx_base_sp fs) FLEXNIC_PL_FLOWST_RXFIN = false ->
    forall i, 0 <= i < bytes -> src i = S (N + rel + i)) ->
  exists o len m', packet_ooo shm_len m fs seq bytes src = Done (rx_set_ooo fs o len, m') /\
    (o = u32 (fs_rx_next_seq fs + (ooo_joined fs rel bytes).1) /\ len = (ooo_joined fs rel bytes).2) /\
    rx_wf (rx_set_ooo fs o len) /\ rx_stream m' (rx_set_ooo fs o len) S N /\
    (forall a, ~ rx_base fs <= a < rx_base fs + fs_rx_len fs -> m' a = m a).
Proof.
  intros Hw Hs H16 Hseq Hb rel Hrel Hsum Hsrc. pose proof Hw as []. unfold packet_ooo, ooo_joined.
  assert (Hst : u32 (fs_rx_next_seq fs + ooo_rel fs) = fs_rx_ooo_start fs) by (by apply seq_rel_of).
  assert (Hseq' : u32 (fs_rx_next_seq fs + rel) = seq) by (by apply seq_rel_of).
  assert (Hrun : forall o len, in32 o ->
    let d := seq_rel o (fs_rx_next_seq fs) in
    0 < d -> 0 <= len -> d + len <= fs_rx_avail fs ->
    (forall k, d <= k < d + len -> rel <= k < rel + bytes \/
      ooo_rel fs <= k < ooo_rel fs + fs_rx_ooo_len fs) ->
    exists m', (m ← flow_rx_seq_write shm_len m (rx_set_ooo fs o len) seq bytes src;
        Done (rx_set_ooo fs o len, m)) = Done (rx_set_ooo fs o len, m') /\
      rx_wf (rx_set_ooo fs o len) /\ rx_stream m' (rx_set_ooo fs o len) S N /\
      (forall a, ~ rx_base fs <= a < rx_base fs + fs_rx_len fs -> m' a = m a)).
  { intros o len Ho d Hd Hl Hdl Hcov.
    destruct (ooo_extend m fs S N seq bytes src o len) as (m' & -> & ? & ? & ?); try done. by exists m'. }
  destruct (Z.eqb_spec (fs_rx_ooo_len fs) 0) as [E|E].
  { destruct (Hrun seq bytes) as (m' & Em & ?); try done; fold rel; try (intros; lia). by exists seq, bytes, m'. }
  destruct rw_ooo0 as [?|[Hd1 Hd2]]; [done|].
  destruct (Z.eqb_spec (u32 (seq + bytes)) (fs_rx_ooo_start fs)) as [Es|Es].
  { assert (Ed : rel + bytes = ooo_rel fs).
    { symmetry. unfold ooo_rel. rewrite <-Es, <-Hseq', u32_add_l, <-Z.add_assoc. apply seq_rel_offset. lia. }
    rewrite (u32_small (fs_rx_ooo_len fs + bytes)), (proj2 (Z.eqb_eq _ _) Ed) by lia.
    destruct (Hrun seq (fs_rx_ooo_len fs + bytes)) as (m' & Em & ?);
      try done; fold rel; try (intros; lia).
    by exists seq, (fs_rx_ooo_len fs + bytes), m'. }
  destruct (Z.eqb_spec (u32 (fs_rx_ooo_start fs + fs_rx_ooo_len fs)) seq) as [Ee|Ee].
  { assert (Ed : ooo_rel fs + fs_rx_ooo_len fs = rel).
    { symmetry. unfold rel. rewrite <-Ee. rewrite <-(seq_rel_of (fs_rx_ooo_start fs) (fs_rx_next_seq fs)) by done.
      fold (ooo_rel fs). rewrite u32_add_l, <-Z.add_assoc. apply seq_rel_offset. lia. }
    rewrite (u32_small (fs_rx_ooo_len fs + bytes)), (proj2 (Z.eqb_eq _ _) Ed), (proj2 (Z.eqb_neq _ _)) by lia.
    destruct (Hrun (fs_rx_ooo_start fs) (fs_rx_ooo_len fs + bytes)) as (m' & Em & ?);
      try done; fold (ooo_rel fs); try (intros; lia).
    exists (fs_rx_ooo_start fs), (fs_rx_ooo_len fs + bytes), m'. split; [|done].
    rewrite <-Em. unfold rx_set_ooo. by destruct fs. }
  exists (fs_rx_ooo_start fs), (fs_rx_ooo_len fs), m. rewrite rx_set_ooo_same by done.
  split_and!; try done; (destruct (Z.eqb_spec (rel + bytes) (ooo_rel fs)) as [H1|_];
    [destruct Es; rewrite <-Hst, <-H1, <-Hseq', u32_add_l; f_equal; lia|]);
    (destruct (Z.eqb_spec (ooo_rel fs + fs_rx_ooo_len fs) rel) as [H2|_];
    [destruct Ee; rewrite <-Hst, <-Hseq', <-H2, u32_add_l; f_equal; lia|]); done.
Qed.

(** *** In-order data *)

Lemma packet_deliver_ok m fs S N bytes (src : Z -> Z) :
  rx_wf fs -> rx_stream m fs S N -> in16 bytes -> bytes <= fs_rx_avail fs ->
  has (fs_rx_base_sp fs) FLEXNIC_PL_FLOWST_RXFIN = false ->
  (forall i, 0 <= i < bytes -> src i = S (N + i)) ->
  exists n o len m', packet_deliver shm_len m fs bytes src = Done (rx_set_ooo (rx_moved fs n) o len, m', n) /\
    bytes <= n <= fs_rx_avail fs /\
    (n = bytes + ooo_taken fs bytes /\ len = ooo_left fs bytes /\ (len <> 0 -> o = fs_rx_ooo_start fs)) /\
    rx_wf (rx_set_ooo (rx_moved fs n) o len) /\
    rx_stream m' (rx_set_ooo (rx_moved fs n) o len) S (N + n) /\
    (forall a, ~ rx_base fs <= a < rx_base fs + fs_rx_len fs -> m' a = m a).
Proof.
  intros Hw Hs H16 Hav Hfin Hsrc. pose proof Hw as []. unfold packet_deliver.
  destruct (rx_write_slots m fs (fs_rx_next_pos fs) 0 bytes src)
    as (m' & -> & Hin & Hout & Houts); try done; try lia.
  { rewrite Z.add_0_r, Z.mod_small; lia. }
  cbn. rewrite rx_advance_moved by lia. cbn.
  assert (Hs' : rx_stream m' fs S N).
  { eapply (stream_write m m' fs S N 0 bytes src); try done; try lia.
    intros _ i Hi. rewrite Z.add_0_r. by apply Hsrc. }
  destruct (merge_ooo_ok m' fs S N bytes) as (more & o & len & -> & Hm0 & Hm & (Em & El & Eo) & Hw' & Hs''); try done; try lia.
  { intros i Hi. rewrite <-Hsrc by done. rewrite <-Hin by done. by rewrite Z.add_0_l. }
  cbn. rewrite (u32_small (bytes + more)) by lia.
  exists (bytes + more), o, len, m'. split_and!; try done; try lia.
Qed.

(** *** Timestamps and FIN *)

Lemma packet_rtt_same fs flags ts_val ts_ecr wnd ts :
  rx_same fs (packet_rtt fs flags ts_val ts_ecr wnd ts) /\
  rx_frame fs (packet_rtt fs flags ts_val ts_ecr wnd ts) /\
  fs_rx_remote_avail (packet_rtt fs flags ts_val ts_ecr wnd ts) = wnd /\
  fs_rx_base_sp (packet_rtt fs flags ts_val ts_ecr wnd ts) = fs_rx_base_sp fs.
Proof.
  unfold packet_rtt. destruct (_ && _)%bool; [destruct (_ <? _); [destruct (negb _)|]|];
    split_and!; try constructor; done.
Qed.

Lemma rx_base_sp_set fs bit : Z.land bit FLEXNIC_PL_FLOWST_RX_MASK = 0 ->
  rx_base (sp_set fs bit) = rx_base fs.
Proof. intros Hb. unfold rx_base, sp_set. cbn. by rewrite Z.land_lor_distr_l, Hb, Z.lor_0_r. Qed.

Lemma sp_has_rxfin fs : sp_has fs FLEXNIC_PL_FLOWST_RXFIN = has (fs_rx_base_sp fs) FLEXNIC_PL_FLOWST_RXFIN.
Proof.
  unfold sp_has, has. change FLEXNIC_PL_FLOWST_RXFIN with (2 ^ 5). rewrite land_pow2 by lia.
  by destruct (Z.testbit _ _).
Qed.

Lemma has_rxfin_set fs :
  has (fs_rx_base_sp (sp_set fs FLEXNIC_PL_FLOWST_RXFIN)) FLEXNIC_PL_FLOWST_RXFIN = true.
Proof.
  unfold sp_set. cbn. change FLEXNIC_PL_FLOWST_RXFIN with (2 ^ 5). rewrite has_lor by lia.
  rewrite orb_true_r by done. done.
Qed.

(** FIN is taken only when every byte before it has arrived. *)
Lemma packet_fin_ok m fs S N flags end_seq fs' fin :
  rx_wf fs -> rx_stream m fs S N -> packet_fin fs flags end_seq = (fs', fin) ->
  rx_wf fs' /\ rx_stream m fs' S N /\ rx_frame fs fs' /\
  fs_rx_avail fs' = fs_rx_avail fs /\ fs_rx_next_pos fs' = fs_rx_next_pos fs /\
  fs_rx_next_seq fs' = u32 (fs_rx_next_seq fs + if fin then 1 else 0) /\
  fs_rx_ooo_start fs' = fs_rx_ooo_start fs /\ fs_rx_ooo_len fs' = fs_rx_ooo_len fs /\
  fin = has flags TCP_FIN && negb (has (fs_rx_base_sp fs) FLEXNIC_PL_FLOWST_RXFIN) &&
    (fs_rx_next_seq fs =? end_seq) && (fs_rx_ooo_len fs =? 0) /\
  (fin = true -> has (fs_rx_base_sp fs') FLEXNIC_PL_FLOWST_RXFIN = true).
Proof.
  intros Hw Hs. unfold packet_fin. pose proof Hw as [].
  assert (Hid : fs_rx_next_seq fs = u32 (fs_rx_next_seq fs + 0)) by (rewrite Z.add_0_r, u32_small; done).
  destruct (has flags TCP_FIN) eqn:Hflag; [destruct (has (fs_rx_base_sp fs) _) eqn:Hold;
    [|destruct (Z.eqb_spec (fs_rx_next_seq fs) end_seq) as [Eq|];
      [destruct (Z.eqb_spec (fs_rx_ooo_len fs) 0)|]]|];
    cbn [negb andb]; intros [=]; subst fs' fin;
    try (split_and!; try done; apply rx_frame_refl).
  assert (Eb : rx_base ((sp_set fs FLEXNIC_PL_FLOWST_RXFIN) <| fs_rx_next_seq := u32 (fs_rx_next_seq fs + 1) |>)
    = rx_base fs) by (by apply rx_base_sp_set).
  pose proof (has_rxfin_set fs) as Hfin.
  split_and!; try done.
  - constructor; try done; [cbn; apply u32_range|cbn; by left|by rewrite Eb].
  - constructor.
    + intros k Hk. unfold rx_slot. rewrite Eb. by apply (rs_unread _ _ _ _ Hs).
    + intros k Hf. cbn in Hf, Hfin. congruence.
Qed.

(** *** The receive part *)

(** What the receive part promises for a flow that expects byte [N] next and a segment
    whose payload ends [tail] bytes behind that: the stream in the buffer is extended by
    the [rx_bump] bytes the application is told about. *)
Record rx_ok (m : memory) (fs : flowst) (S : Z -> Z) (N tail : Z) (r : rx_result) : Prop := {
  ro_wf : rx_wf (rr_fs r);
  ro_stream : rx_stream (rr_mem r) (rr_fs r) S (N + rr_rx_bump r);
  ro_bump : 0 <= rr_rx_bump r <= fs_rx_avail fs;
  ro_avail : fs_rx_avail (rr_fs r) = fs_rx_avail fs - rr_rx_bump r;
  ro_pos : fs_rx_next_pos (rr_fs r) = (fs_rx_next_pos fs + rr_rx_bump r) mod fs_rx_len fs;
  ro_seq : fs_rx_next_seq (rr_fs r) =
    u32 (fs_rx_next_seq fs + rr_rx_bump r + if rr_fin_bump r then 1 else 0);
  ro_frame : rx_frame fs (rr_fs r);
  ro_mem a : ~ rx_base fs <= a < rx_base fs + fs_rx_len fs -> rr_mem r a = m a;
  ro_fin : rr_fin_bump r = true -> rr_rx_bump r = tail /\
    has (fs_rx_base_sp fs) FLEXNIC_PL_FLOWST_RXFIN = false /\
    has (fs_rx_base_sp (rr_fs r)) FLEXNIC_PL_FLOWST_RXFIN = true
}.

(** How many bytes the application is told about when a segment of [bytes] bytes arrives
    [rel] behind the next expected one: the new bytes of a segment that covers the next
    expected byte, as far as they fit, and with them what they complete of the out of
    order interval.  Nothing, when the segment lies ahead or the stream has ended. *)
Definition rx_ended (fs : flowst) : bool := has (fs_rx_base_sp fs) FLEXNIC_PL_FLOWST_RXFIN.
Definition rx_taken (fs : flowst) (rel bytes : Z) : Z :=
  let n := Z.min (rel + bytes) (fs_rx_avail fs) in
  if rx_ended fs || (0 <? rel) || (n <=? 0) then 0 else n + ooo_taken fs n.

(** The out of order interval after the segment: its start, relative to the byte that
    was expected before, and its length. *)
Definition ooo_after (fs : flowst) (rel bytes : Z) : Z * Z :=
  let n := Z.min (rel + bytes) (fs_rx_avail fs) in
  if 0 <? rel then if n <=? rel then (ooo_rel fs, fs_rx_ooo_len fs) else ooo_joined fs rel (n - rel)
  else if rx_ended fs || (n <=? 0) then (ooo_rel fs, fs_rx_ooo_len fs) else (ooo_rel fs, ooo_left fs n).

(** The result of the receive part: the bytes taken, the end of the stream and the out
    of order interval.  The end ([fin] is the flag of the packet) is reported with the
    segment that carries it, when everything before it has arrived. *)
Record rx_exact (fs : flowst) (fin : bool) (rel bytes : Z) (r : rx_result) : Prop := {
  re_bump : rr_rx_bump r = rx_taken fs rel bytes;
  re_fin : rr_fin_bump r = fin && negb (rx_ended fs) && (rel <=? 0) &&
    (rr_rx_bump r =? rel + bytes) && (fs_rx_ooo_len (rr_fs r) =? 0);
  re_len : fs_rx_ooo_len (rr_fs r) = (ooo_after fs rel bytes).2;
  re_start : fs_rx_ooo_len (rr_fs r) <> 0 ->
    fs_rx_ooo_start (rr_fs r) = u32 (fs_rx_next_seq fs + (ooo_after fs rel bytes).1)
}.

Lemma rx_same_exact fs fs1 fin rel bytes r : rx_same fs fs1 ->
  rx_exact fs1 fin rel bytes r -> rx_exact fs fin rel bytes r.
Proof.
  intros [] []. unfold rx_taken, ooo_after, ooo_taken, ooo_left, ooo_joined, ooo_rel, rx_ended in *.
  rewrite ?rx_s_base0, ?rx_s_fin0, ?rx_s_len0, ?rx_s_avail0, ?rx_s_pos0, ?rx_s_seq0, ?rx_s_start0,
    ?rx_s_olen0 in *. by constructor; unfold rx_taken, ooo_after, ooo_taken, ooo_left, ooo_joined, ooo_rel, rx_ended.
Qed.

(** Nothing is taken and the out of order interval stays. *)
Lemma rx_exact_stay fs fs' m' fin rel bytes ack : rx_wf fs ->
  fs_rx_ooo_len fs' = fs_rx_ooo_len fs -> fs_rx_ooo_start fs' = fs_rx_ooo_start fs ->
  (fin && negb (rx_ended fs) && (rel <=? 0) && (0 =? rel + bytes) && (fs_rx_ooo_len fs =? 0)) = false ->
  rx_taken fs rel bytes = 0 -> ooo_after fs rel bytes = (ooo_rel fs, fs_rx_ooo_len fs) ->
  rx_exact fs fin rel bytes (mk_rx fs' m' 0 false ack).
Proof.
  intros [] El Es Hf Ht Ho. constructor; cbn; rewrite ?El, ?Ho; try done. intros _. cbn. rewrite Es.
  symmetry. by apply seq_rel_of.
Qed.

Lemma rx_ok_stay m m' fs fs' S N tail ack :
  rx_wf fs -> rx_wf fs' -> rx_stream m' fs' S N -> rx_frame fs fs' ->
  fs_rx_avail fs' = fs_rx_avail fs -> fs_rx_next_pos fs' = fs_rx_next_pos fs ->
  fs_rx_next_seq fs' = fs_rx_next_seq fs ->
  (forall a, ~ rx_base fs <= a < rx_base fs + fs_rx_len fs -> m' a = m a) ->
  rx_ok m fs S N tail (mk_rx fs' m' 0 false ack).
Proof.
  intros [] ? ? ? E1 E2 E3 ?. constructor; cbn; rewrite ?Z.add_0_r, ?E1, ?E2, ?E3; try done; try lia.
  - by rewrite Z.mod_small.
  - by rewrite u32_small.
Qed.

Lemma rx_frame_moved fs n o len : rx_frame fs (rx_set_ooo (rx_moved fs n) o len).
Proof. by constructor. Qed.

Lemma packet_inorder_ok m fs S N p rel orig ts_val ts_ecr ts end_seq payload ack :
  rx_wf fs -> rx_stream m fs S N -> rel <= 0 -> let tail := rel + orig in
  let bytes := Z.min tail (fs_rx_avail fs) in
  end_seq = u32 (fs_rx_next_seq fs + tail) -> 0 <= tail < 65536 ->
  (has (fs_rx_base_sp fs) FLEXNIC_PL_FLOWST_RXFIN = false ->
    forall i, 0 <= i < bytes -> payload i = S (N + i)) ->
  exists r, packet_inorder shm_len m fs p bytes ts_val ts_ecr ts end_seq payload ack = Done r /\
    rx_ok m fs S N tail r /\ rx_exact fs (has (TCPH_FLAGS p) TCP_FIN) rel orig r.
Proof.
  intros Hw Hs Hrel tail bytes Hend Htail Hpay. unfold packet_inorder.
  assert (H16 : in16 bytes) by (pose proof Hw as []; lia). assert (Hav : bytes <= fs_rx_avail fs) by lia.
  destruct (packet_rtt_same fs (TCPH_FLAGS p) ts_val ts_ecr (tcp_wnd p) ts) as (Hsame & Hfr & _ & Esp).
  set (fs1 := packet_rtt fs (TCPH_FLAGS p) ts_val ts_ecr (tcp_wnd p) ts) in *. clearbody fs1.
  pose proof (rx_same_wf _ _ Hsame Hw) as Hw1. pose proof (rx_same_stream _ _ _ _ _ Hsame Hs) as Hs1.
  rewrite sp_has_rxfin, Esp. pose proof Hsame as []. unfold rx_ended in *.
  assert (Ht : 0 < bytes -> rx_taken fs rel orig =
      (if rx_ended fs then 0 else bytes + ooo_taken fs1 bytes) /\
    ooo_after fs rel orig = (ooo_rel fs, if rx_ended fs then fs_rx_ooo_len fs else ooo_left fs1 bytes)).
  { intros Hb. unfold rx_taken, ooo_after, ooo_taken, ooo_left, ooo_rel. fold tail bytes.
    rewrite (proj2 (Z.ltb_ge 0 rel)), (proj2 (Z.leb_gt bytes 0)), rx_s_seq0, rx_s_start0, rx_s_olen0 by lia.
    by destruct (rx_ended fs). }
  assert (Ht0 : bytes <= 0 -> rx_taken fs rel orig = 0 /\ ooo_after fs rel orig = (ooo_rel fs, fs_rx_ooo_len fs)).
  { intros Hb. unfold rx_taken, ooo_after. fold tail bytes.
    by rewrite (proj2 (Z.ltb_ge 0 rel)), (proj2 (Z.leb_le bytes 0)), !orb_true_r by lia. }
  unfold rx_ended in Ht.
  destruct (has (fs_rx_base_sp fs) FLEXNIC_PL_FLOWST_RXFIN) eqn:Hfin; cbn [andb].
  { assert (Hex : forall fl, rx_exact fs fl rel orig (mk_rx fs1 m 0 false ack) /\
      rx_exact fs fl rel orig (mk_rx fs1 m 0 false (ack || (0 <? bytes) || false))).
    { intros fl. assert (rx_taken fs rel orig = 0 /\ ooo_after fs rel orig = (ooo_rel fs, fs_rx_ooo_len fs)) as []
        by (destruct (Z.lt_ge_cases 0 bytes); auto).
      split; apply rx_exact_stay; try done; unfold rx_ended; rewrite Hfin, andb_false_r; done. }
    destruct (Z.ltb_spec 0 bytes).
    - eexists. split; [done|]. split; [|apply Hex]. by apply rx_ok_stay.
    - cbn. unfold packet_fin. rewrite Esp, Hfin. cbn [negb]. rewrite andb_false_r.
      eexists. split; [done|]. split; [|apply Hex]. by apply rx_ok_stay. }
  assert (Hdel : exists n fs2 m2,
    (if 0 <? bytes then packet_deliver shm_len m fs1 bytes payload else Done (fs1, m, 0)) = Done (fs2, m2, n) /\
    bytes <= n <= fs_rx_avail fs /\ rx_wf fs2 /\ rx_stream m2 fs2 S (N + n) /\ rx_frame fs fs2 /\
    fs_rx_avail fs2 = fs_rx_avail fs - n /\ fs_rx_next_pos fs2 = (fs_rx_next_pos fs + n) mod fs_rx_len fs /\
    fs_rx_next_seq fs2 = u32 (fs_rx_next_seq fs + n) /\
    has (fs_rx_base_sp fs2) FLEXNIC_PL_FLOWST_RXFIN = false /\
    (n = rx_taken fs rel orig /\ fs_rx_ooo_len fs2 = (ooo_after fs rel orig).2 /\
     (fs_rx_ooo_len fs2 <> 0 -> fs_rx_ooo_start fs2 = u32 (fs_rx_next_seq fs + (ooo_after fs rel orig).1))) /\
    (forall a, ~ rx_base fs <= a < rx_base fs + fs_rx_len fs -> m2 a = m a)).
  { pose proof Hw as []. assert (Est : u32 (fs_rx_next_seq fs + ooo_rel fs) = fs_rx_ooo_start fs) by (by apply seq_rel_of).
    destruct (Z.ltb_spec 0 bytes).
    - destruct (packet_deliver_ok m fs1 S N bytes payload) as (n & o & len & m2 & E & Hn & (En & El & Eo) & Hw2 & Hs2 & Hm);
        try done; try (rewrite ?Esp, ?rx_s_avail0; done); [intros; by apply Hpay|].
      destruct (Ht ltac:(done)) as [-> ->].
      eexists n, _, m2. split; [exact E|]. rewrite <-rx_s_avail0, <-rx_s_pos0, <-rx_s_len0, <-rx_s_seq0.
      split_and!; try done; try lia.
      + eapply rx_frame_trans; [exact Hfr|apply rx_frame_moved].
      + cbn. rewrite rx_s_seq0, Est, <-rx_s_start0. done.
      + intros a Ha. apply Hm. by rewrite rx_s_base0.
    - destruct (Ht0 ltac:(lia)) as [-> ->].
      exists 0, fs1, m. cbn. rewrite !Z.add_0_r, rx_s_avail0, rx_s_pos0, rx_s_seq0, Esp, Est.
      split_and!; try done; try lia; [by rewrite Z.mod_small|by rewrite u32_small]. }
  destruct Hdel as (n & fs2 & m2 & -> & Hn & Hw2 & Hs2 & Hfr2 & Ea & Ep & Eq & Ef & (Et & El & Eo) & Hm). cbn.
  destruct (packet_fin fs2 (TCPH_FLAGS p) end_seq) as [fs3 fin] eqn:Efin.
  destruct (packet_fin_ok _ _ _ _ _ _ _ _ Hw2 Hs2 Efin) as (Hw3 & Hs3 & Hfr3 & Ea3 & Ep3 & Eq3 & Eo3 & El3 & Hf3).
  assert (Hiff : fs_rx_next_seq fs2 = end_seq <-> n = tail).
  { rewrite Eq, Hend. pose proof Hw as []. split; [|by intros ->]. intros E.
    apply (f_equal (fun x => seq_rel x (fs_rx_next_seq fs))) in E. rewrite !seq_rel_offset in E by lia. done. }
  eexists. split; [done|]. split; constructor; cbn; try done; try lia.
  - rewrite Eq3, Eq. by rewrite u32_add_l.
  - by eapply rx_frame_trans.
  - intros ->. destruct Hf3 as [Hf3 Hset]. symmetry in Hf3. rewrite Ef in Hf3.
    breflect. split_and!; [by apply Hiff|done|by apply Hset].
  - destruct Hf3 as [-> _]. unfold rx_ended. rewrite Ef, Hfin, El3, (proj2 (Z.leb_le rel 0)), !andb_true_r by done.
    destruct (Z.eqb_spec (fs_rx_next_seq fs2) end_seq) as [H1|H1], (Z.eqb_spec n (rel + orig)) as [H2|H2];
      try done; [destruct H2|destruct H1]; by apply Hiff.
Qed.

Lemma packet_data_ok m fs S N p bytes ts_val ts_ecr ts body :
  rx_wf fs -> rx_stream m fs S N -> in16 bytes -> in32 (tcp_seqno p) ->
  trim_gap (tcp_seqno p) bytes (fs_rx_next_seq fs) (fs_rx_avail fs) = false ->
  let rel := seq_rel (tcp_seqno p) (fs_rx_next_seq fs) in
  (has (fs_rx_base_sp fs) FLEXNIC_PL_FLOWST_RXFIN = false ->
    forall i, 0 <= i < bytes -> body i = S (N + rel + i)) ->
  exists r, packet_data shm_len m fs p bytes ts_val ts_ecr ts body = Done r /\
    rx_ok m fs S N (rel + bytes) r /\ rx_exact fs (has (TCPH_FLAGS p) TCP_FIN) rel bytes r.
Proof.
  intros Hw Hs H16 Hseq Hgap rel Hbody. pose proof Hw as []. pose proof (rx_window fs Hw) as Hwin.
  assert (Hrel : u32 (fs_rx_next_seq fs + rel) = tcp_seqno p) by (by apply seq_rel_of).
  assert (Hrr : -2147483648 <= rel < 2147483648) by (by apply seq_rel_cases).
  unfold packet_data. rewrite trim_rxbuf_spec by done. fold rel. unfold trim_spec.
  assert (Hstay : forall ack, rx_ok m fs S N (rel + bytes) (mk_rx fs m 0 false ack)).
  { intros ack. apply rx_ok_stay; done. }
  set (fin := has (TCPH_FLAGS p) TCP_FIN).
  assert (Hsx : forall ack, rel + bytes < 0 \/ fs_rx_avail fs <= rel /\ 0 < rel \/ 0 < rel /\ bytes = 0 ->
    rx_exact fs fin rel bytes (mk_rx fs m 0 false ack)).
  { intros ack Hc. apply rx_exact_stay; try done.
    - destruct (Z.leb_spec rel 0), (Z.eqb_spec 0 (rel + bytes)); try lia; by rewrite ?andb_false_r.
    - unfold rx_taken. split_ifs; breflect; lia.
    - unfold ooo_after. split_ifs; breflect; try done; lia. }
  destruct ((rel + bytes <? 0) || (fs_rx_avail fs <? rel)) eqn:Hout.
  { eexists. split; [done|]. split; [apply Hstay|]. apply Hsx. breflect; lia. }
  breflect. set (b := u32 (bytes - _)).
  assert (Hb : b = Z.min (rel + bytes) (fs_rx_avail fs) - Z.max 0 rel).
  { unfold b. rewrite u32_small; lia. }
  assert (Hseq2 : u32 (tcp_seqno p + Z.max 0 (- rel)) = u32 (fs_rx_next_seq fs + Z.max 0 rel)).
  { rewrite <-Hrel, u32_add_l. f_equal. lia. }
  rewrite Hseq2. clearbody b.
  assert (Hz : u32 (fs_rx_next_seq fs + Z.max 0 rel) = fs_rx_next_seq fs <-> rel <= 0).
  { rewrite <-seq_rel_zero by (done || apply u32_range). rewrite seq_rel_offset by lia. lia. }
  destruct (Z.eqb_spec (u32 (fs_rx_next_seq fs + Z.max 0 rel)) (fs_rx_next_seq fs)) as [E|E]; cbn [negb].
  - apply Hz in E. assert (Eb : b = Z.min (rel + bytes) (fs_rx_avail fs)) by lia. rewrite Eb in *.
    destruct (packet_inorder_ok m fs S N p rel bytes ts_val ts_ecr ts
      (u32 (tcp_seqno p + bytes)) (fun i => body (Z.max 0 (- rel) + i)) (0 <? bytes))
      as (r & Er & Hok & Hex); try done; try lia.
    + rewrite <-Hrel, u32_add_l. f_equal. lia.
    + intros Hf i Hi. rewrite Hbody by (done || lia). f_equal. lia.
    + by exists r.
  - assert (0 < rel) by lia. destruct (Z.eqb_spec b 0).
    { eexists. split; [done|]. split; [apply Hstay|]. apply Hsx. lia. }
    rewrite Z.max_r by lia. rewrite Z.max_l in * by lia.
    destruct (packet_ooo_ok m fs S N (u32 (fs_rx_next_seq fs + rel)) b (fun i => body (0 + i)))
      as (o & len & m' & -> & (Eo & El) & Hw' & Hs' & Hm); rewrite ?seq_rel_offset in * by lia;
      try apply u32_range; try done; try lia.
    + intros Hf i Hi. rewrite Hbody by (done || lia). f_equal.
    + cbn. eexists. split; [done|]. split; [by apply rx_ok_stay|].
      assert (Ea : ooo_after fs rel bytes = ooo_joined fs rel b).
      { unfold ooo_after. rewrite (proj2 (Z.ltb_lt 0 rel)), (proj2 (Z.leb_gt _ rel)) by lia. f_equal. lia. }
      constructor; cbn [rr_rx_bump rr_fin_bump rr_fs]; rewrite ?Ea; try done.
      * unfold rx_taken. by rewrite (proj2 (Z.ltb_lt 0 rel)), orb_true_r by lia.
      * by rewrite (proj2 (Z.leb_gt rel 0)), andb_false_r by lia.
Qed.

End Rx.
End FastRx.
