(* ===== verification/FastTx.v ===== *)
(** * Sending data: the transmit buffer and retransmission

    The proofs about the transmit side of [FastFlows]: sequence numbers and buffer
    positions stay aligned, so every transmission of a sequence number carries the same
    byte, and acknowledgements free exactly the acknowledged bytes. *)
From S2P Require Import Prelude Memif Packet TcpCommon FastCtx FastFlows FastRx.

Module FastTx.
Import Packet TcpCommon FastCtx FastFlows FastRx.

Section Tx.
Context (shm_len : Z).

(** ** Well-formed transmit state *)

(** Before the next position lie [tx_sent] bytes that are not acknowledged, behind it
    [tx_avail] bytes that are not sent, and together they fit the buffer. *)
Record tx_wf (fs : flowst) : Prop := {
  tw_len : 0 < fs_tx_len fs < 1073741824;
  tw_pos : 0 <= fs_tx_next_pos fs < fs_tx_len fs;
  tw_avail : 0 <= fs_tx_avail fs;
  tw_sent : 0 <= fs_tx_sent fs;
  tw_sum : fs_tx_avail fs + fs_tx_sent fs <= fs_tx_len fs;
  tw_seq : in32 (fs_tx_next_seq fs);
  tw_remote : in32 (fs_rx_remote_avail fs);
  tw_base : 0 <= fs_tx_base fs /\ fs_tx_base fs + fs_tx_len fs <= shm_len < 18446744073709551616
}.

Definition tx_slot (fs : flowst) (k : Z) : Z :=
  fs_tx_base fs + (fs_tx_next_pos fs + k) mod fs_tx_len fs.

Lemma tx_slot_range fs k : tx_wf fs -> fs_tx_base fs <= tx_slot fs k < fs_tx_base fs + fs_tx_len fs.
Proof. intros []. unfold tx_slot. pose proof (Z.mod_pos_bound (fs_tx_next_pos fs + k) (fs_tx_len fs)). lia. Qed.

(** The stream the application sends: byte [n] is [T n], its sequence number is
    [isn + n], and the next byte to send is byte [M].  The buffer holds all bytes that
    are not acknowledged. *)
Record tx_stream (m : memory) (fs : flowst) (T : Z -> Z) (isn M : Z) : Prop := {
  ts_bytes k : - fs_tx_sent fs <= k < fs_tx_avail fs -> m (tx_slot fs k) = T (M + k);
  ts_seq : fs_tx_next_seq fs = u32 (isn + M)
}.

(** Flows with the same transmit registers, but for the peer's window. *)
Record tx_same (fs fs' : flowst) : Prop := {
  tx_s_base : fs_tx_base fs' = fs_tx_base fs;
  tx_s_len : fs_tx_len fs' = fs_tx_len fs;
  tx_s_avail : fs_tx_avail fs' = fs_tx_avail fs;
  tx_s_sent : fs_tx_sent fs' = fs_tx_sent fs;
  tx_s_pos : fs_tx_next_pos fs' = fs_tx_next_pos fs;
  tx_s_seq : fs_tx_next_seq fs' = fs_tx_next_seq fs
}.

Lemma rx_frame_tx fs fs' : rx_frame fs fs' -> tx_same fs fs'.
Proof. intros []. by constructor. Qed.

Lemma tx_same_wf fs fs' : tx_same fs fs' -> in32 (fs_rx_remote_avail fs') -> tx_wf fs -> tx_wf fs'.
Proof.
  intros [] Hr [].
  constructor; rewrite ?tx_s_base0, ?tx_s_len0, ?tx_s_avail0, ?tx_s_sent0, ?tx_s_pos0, ?tx_s_seq0; done.
Qed.

Lemma tx_same_stream m fs fs' T isn M : tx_same fs fs' -> tx_stream m fs T isn M -> tx_stream m fs' T isn M.
Proof.
  intros [] []. unfold tx_slot in *.
  constructor; unfold tx_slot; rewrite ?tx_s_base0, ?tx_s_len0, ?tx_s_avail0, ?tx_s_sent0, ?tx_s_pos0, ?tx_s_seq0; done.
Qed.

Lemma tx_stream_mem m m' fs T isn M : tx_wf fs ->
  (forall a, fs_tx_base fs <= a < fs_tx_base fs + fs_tx_len fs -> m' a = m a) ->
  tx_stream m fs T isn M -> tx_stream m' fs T isn M.
Proof.
  intros Hw Hm []. constructor; [|done]. intros k Hk. rewrite Hm by (by apply tx_slot_range). auto.
Qed.

(** ** Moving the next position *)

(** The next position moved by [d], with [avail] bytes left to send and [sent] bytes
    behind it. *)
Definition tx_moved (fs : flowst) (d avail sent : Z) : flowst :=
  fs <| fs_tx_next_seq := u32 (fs_tx_next_seq fs + d) |>
     <| fs_tx_next_pos := (fs_tx_next_pos fs + d) mod fs_tx_len fs |>
     <| fs_tx_sent := sent |> <| fs_tx_avail := avail |>.

Lemma tx_moved_ok m fs T isn M d avail sent : tx_wf fs -> tx_stream m fs T isn M ->
  0 <= avail -> 0 <= sent -> d + avail <= fs_tx_avail fs -> - fs_tx_sent fs <= d - sent ->
  tx_wf (tx_moved fs d avail sent) /\ tx_stream m (tx_moved fs d avail sent) T isn (M + d).
Proof.
  intros [] [] Ha Hs H1 H2. pose proof (Z.mod_pos_bound (fs_tx_next_pos fs + d) (fs_tx_len fs) ltac:(lia)).
  split; constructor; try (cbn; done); try (cbn; lia).
  - cbn. apply u32_range.
  - cbn. intros k Hk. unfold tx_slot. cbn. rewrite Zplus_mod_idemp_l.
    replace (fs_tx_next_pos fs + d + k) with (fs_tx_next_pos fs + (d + k)) by lia.
    fold (tx_slot fs (d + k)). rewrite ts_bytes0 by lia. f_equal. lia.
  - cbn. rewrite ts_seq0, u32_add_l. f_equal. lia.
Qed.

Lemma pos_forward fs d : tx_wf fs -> 0 <= d <= fs_tx_len fs ->
  (if fs_tx_len fs <=? u32 (fs_tx_next_pos fs + d)
   then u32 (u32 (fs_tx_next_pos fs + d) - fs_tx_len fs) else u32 (fs_tx_next_pos fs + d))
  = (fs_tx_next_pos fs + d) mod fs_tx_len fs.
Proof.
  intros [] Hd. rewrite (u32_small (fs_tx_next_pos fs + d)) by lia. rewrite mod_wrap by lia.
  destruct (Z.leb_spec (fs_tx_len fs) (fs_tx_next_pos fs + d)); [|done]. by rewrite u32_small by lia.
Qed.

Lemma tx_advance_moved fs len : tx_wf fs -> 0 <= len <= fs_tx_avail fs ->
  tx_advance fs len = tx_moved fs len (fs_tx_avail fs - len) (fs_tx_sent fs + len).
Proof.
  intros Hw Hl. pose proof Hw as []. unfold tx_advance. rewrite pos_forward by (done || lia).
  rewrite (u32_small (fs_tx_sent fs + len)), (u32_small (fs_tx_avail fs - len)) by lia. done.
Qed.

(** [flow_reset_retransmit] moves back over everything in flight. *)
Lemma reset_moved fs : tx_wf fs ->
  let fs' := flow_reset_retransmit fs in
  tx_same (tx_moved fs (- fs_tx_sent fs) (fs_tx_avail fs + fs_tx_sent fs) 0) fs' /\
  rx_same fs fs' /\ fs_rx_remote_avail fs' = u32 (fs_rx_remote_avail fs + fs_tx_sent fs) /\
  (fs_tx_rate fs' = fs_tx_rate fs \/ fs_tx_rate fs' = fs_tx_rate fs / 2) /\
  fs_opaque fs' = fs_opaque fs /\ fs_db_id fs' = fs_db_id fs /\
  fs_tx_next_ts fs' = fs_tx_next_ts fs.
Proof.
  intros Hw. pose proof Hw as [].
  assert (Ep : (if fs_tx_sent fs <=? fs_tx_next_pos fs then u32 (fs_tx_next_pos fs - fs_tx_sent fs)
    else u32 (fs_tx_len fs - u32 (fs_tx_sent fs - fs_tx_next_pos fs)))
    = (fs_tx_next_pos fs + - fs_tx_sent fs) mod fs_tx_len fs).
  { destruct (Z.leb_spec (fs_tx_sent fs) (fs_tx_next_pos fs)).
    - rewrite u32_small by lia. rewrite Z.mod_small by lia. lia.
    - rewrite (u32_small (fs_tx_sent fs - fs_tx_next_pos fs)) by lia. rewrite u32_small by lia.
      apply (Zmod_unique _ _ (-1)); lia. }
  unfold flow_reset_retransmit.
  assert (Ea : u32 (fs_tx_avail fs + fs_tx_sent fs) = fs_tx_avail fs + fs_tx_sent fs) by (apply u32_small; lia).
  destruct (fs_tx_sent fs <=? fs_tx_next_pos fs) eqn:E1;
    change (fs_tx_next_pos (fs <| fs_rx_dupack_cnt := 0 |> <| fs_tx_next_seq := u32 (fs_tx_next_seq fs - fs_tx_sent fs) |>))
      with (fs_tx_next_pos fs); rewrite E1;
    split_and!; try (match goal with |- context [if ?c then _ else _] => destruct c end; constructor; try done);
    try (match goal with |- context [if ?c then _ else _] => destruct c end; auto);
    cbn; try exact Ep; try exact Ea; f_equal; lia.
Qed.

(** ** Acknowledgements *)

(** What is left of the state after an acknowledgement of [bump] bytes. *)
Definition acked (fs : flowst) (bump : Z) : flowst :=
  tx_moved fs (Z.max 0 (bump - fs_tx_sent fs)) (Z.min (fs_tx_avail fs) (fs_tx_avail fs + fs_tx_sent fs - bump))
    (Z.max 0 (fs_tx_sent fs - bump)).

Lemma txavail_u32 fs : tx_wf fs -> 0 <= tcp_txavail fs None <= fs_tx_avail fs.
Proof.
  intros []. unfold tcp_txavail. pose proof (u32_range (fs_rx_remote_avail fs - fs_tx_sent fs)).
  destruct (Z.ltb_spec (u32 (fs_rx_remote_avail fs - fs_tx_sent fs)) (fs_tx_avail fs)); lia.
Qed.

Lemma acked_ok m fs T isn M b : tx_wf fs -> tx_stream m fs T isn M ->
  0 <= b <= fs_tx_avail fs + fs_tx_sent fs ->
  tx_wf (acked fs b) /\ tx_stream m (acked fs b) T isn (M + Z.max 0 (b - fs_tx_sent fs)).
Proof. intros Hw Hs Hb. pose proof Hw as []. apply tx_moved_ok; try done; lia. Qed.

(** Fields the acknowledgement and the receive part do not touch. *)
Record ids_same (fs fs' : flowst) : Prop := {
  id_opaque : fs_opaque fs' = fs_opaque fs;
  id_db : fs_db_id fs' = fs_db_id fs;
  id_ts : fs_tx_next_ts fs' = fs_tx_next_ts fs
}.

(** The transmit update of [packet_ack], with the counters that surround it. *)
Definition ack_update (fs : flowst) (flags tx_bump : Z) : flowst :=
  let fs := fs <| fs_cnt_rx_ack_bytes := u32 (fs_cnt_rx_ack_bytes fs + tx_bump) |> in
  let fs := if has flags TCP_ECE
            then fs <| fs_cnt_rx_ecn_bytes := u32 (fs_cnt_rx_ecn_bytes fs + tx_bump) |> else fs in
  if tx_bump <=? fs_tx_sent fs
  then fs <| fs_tx_sent := u32 (fs_tx_sent fs - tx_bump) |>
  else
    let d := u32 (tx_bump - fs_tx_sent fs) in
    let pos := u32 (fs_tx_next_pos fs + d) in
    fs <| fs_tx_next_seq := u32 (fs_tx_next_seq fs + d) |>
       <| fs_tx_next_pos := if fs_tx_len fs <=? pos then u32 (pos - fs_tx_len fs) else pos |>
       <| fs_tx_avail := u32 (fs_tx_avail fs - d) |> <| fs_tx_sent := 0 |>.

Lemma ack_update_ok fs flags b : tx_wf fs -> 0 <= b <= fs_tx_avail fs + fs_tx_sent fs ->
  let fs' := ack_update fs flags b in
  tx_same (acked fs b) fs' /\ rx_same fs fs' /\ ids_same fs fs' /\
  fs_rx_remote_avail fs' = fs_rx_remote_avail fs /\ fs_tx_rate fs' = fs_tx_rate fs.
Proof.
  intros Hw Hb. pose proof Hw as [].
  set (fs0 := fs <| fs_cnt_rx_ack_bytes := u32 (fs_cnt_rx_ack_bytes fs + b) |>).
  assert (Hcase : ack_update fs flags b = ack_update fs0 flags b \/ True) by (by right).
  unfold ack_update. fold fs0.
  set (fs1 := if has flags TCP_ECE then _ else fs0).
  assert (H1 : tx_same fs fs1 /\ rx_same fs fs1 /\ ids_same fs fs1 /\
    fs_rx_remote_avail fs1 = fs_rx_remote_avail fs /\ fs_tx_rate fs1 = fs_tx_rate fs).
  { unfold fs1, fs0. destruct (has flags TCP_ECE); split_and!; try constructor; done. }
  clearbody fs1. clear Hcase. destruct H1 as ([E1 E2 E3 E4 E5 E6] & Hr & Hi & Ew & Er).
  pose proof Hr as []. pose proof Hi as []. cbn zeta. rewrite E4.
  destruct (Z.leb_spec b (fs_tx_sent fs)).
  - split_and!; try done; constructor; try done; unfold acked; cbn;
      rewrite ?E1, ?E2, ?E3, ?E5, ?E6, ?Z.max_l, ?Z.max_r, ?Z.min_l, ?Z.add_0_r by lia;
      rewrite ?u32_small by lia; rewrite ?Z.mod_small by lia; try done; lia.
  - rewrite (u32_small (b - fs_tx_sent fs)) by lia.
    assert (Ep : (if fs_tx_len fs1 <=? u32 (fs_tx_next_pos fs1 + (b - fs_tx_sent fs))
        then u32 (u32 (fs_tx_next_pos fs1 + (b - fs_tx_sent fs)) - fs_tx_len fs1)
        else u32 (fs_tx_next_pos fs1 + (b - fs_tx_sent fs)))
      = (fs_tx_next_pos fs + (b - fs_tx_sent fs)) mod fs_tx_len fs).
    { rewrite E2, E5. apply pos_forward; [done|lia]. }
    split_and!; try done; constructor; try done; unfold acked; cbn;
      rewrite ?E1, ?E2, ?E3, ?E4, ?E5, ?E6, ?Z.max_l, ?Z.max_r, ?Z.min_r by lia; try done.
    + rewrite u32_small by lia. lia.
    + rewrite E2, E5 in Ep. exact Ep.
Qed.

Lemma packet_ack_unfold fs flags ack orig :
  packet_ack fs flags ack orig =
    if negb (has flags TCP_ACK) then (false, fs, 0) else
    let fs := fs <| fs_cnt_rx_acks := u16 (fs_cnt_rx_acks fs + 1) |> in
    match tcp_valid_rxack fs ack with
    | None => (false, fs, 0)
    | Some b =>
      let fs := ack_update fs flags b in
      if negb (b =? 0) then (false, fs <| fs_rx_dupack_cnt := 0 |>, b)
      else if orig =? 0 then
        let cnt := u32 (fs_rx_dupack_cnt fs + 1) in
        let fs := fs <| fs_rx_dupack_cnt := cnt |> in
        if 3 <=? cnt then (true, flow_reset_retransmit fs, b) else (false, fs, b)
      else (false, fs, b)
    end.
Proof. done. Qed.

(** How many bytes a segment with acknowledgement [ack] newly acknowledges, when [una] is
    the sequence number of the oldest byte that is not acknowledged: those between the
    two, unless they are more than the application has handed over. *)
Definition acked_bytes (fs : flowst) (flags ack una : Z) : Z :=
  let b := u32 (ack - una) in
  if has flags TCP_ACK && (b <=? fs_tx_sent fs + fs_tx_avail fs) then b else 0.

(** The third empty segment in a row that acknowledges nothing new. *)
Definition third_dupack (fs : flowst) (flags ack una bytes : Z) : bool :=
  has flags TCP_ACK && (u32 (ack - una) =? 0) && (bytes =? 0) && (3 <=? u32 (fs_rx_dupack_cnt fs + 1)).

(** What acknowledgement processing promises: [b] more bytes are acknowledged. *)
Record ack_ok (m : memory) (fs fs' : flowst) (T : Z -> Z) (isn M M' flags ack orig b : Z) (stop : bool)
    : Prop := {
  ak_wf : tx_wf fs';
  ak_stream : tx_stream m fs' T isn M';
  ak_rx : rx_same fs fs';
  ak_ids : ids_same fs fs';
  ak_buf : fs_tx_base fs' = fs_tx_base fs /\ fs_tx_len fs' = fs_tx_len fs;
  ak_una : M' - fs_tx_sent fs' = M - fs_tx_sent fs + b;
  ak_end : M' + fs_tx_avail fs' = M + fs_tx_avail fs;
  ak_bump : 0 <= b <= fs_tx_avail fs + fs_tx_sent fs;
  ak_valid : 0 < b -> has flags TCP_ACK = true /\ ack = u32 (isn + (M - fs_tx_sent fs) + b);
  ak_exact : b = acked_bytes fs flags ack (isn + (M - fs_tx_sent fs));
  ak_third : stop = third_dupack fs flags ack (isn + (M - fs_tx_sent fs)) orig;
  ak_next : M' = if stop then M - fs_tx_sent fs else M + Z.max 0 (b - fs_tx_sent fs);
  ak_stop : stop = true -> b = 0 /\ fs_tx_sent fs' = 0;
  ak_rate : fs_tx_rate fs' = fs_tx_rate fs \/ fs_tx_rate fs' = fs_tx_rate fs / 2
}.

Lemma ack_ok_trivial m fs fs' T isn M flags ack orig : tx_wf fs -> tx_stream m fs T isn M ->
  acked_bytes fs flags ack (isn + (M - fs_tx_sent fs)) = 0 ->
  third_dupack fs flags ack (isn + (M - fs_tx_sent fs)) orig = false ->
  tx_same fs fs' -> rx_same fs fs' -> ids_same fs fs' ->
  fs_rx_remote_avail fs' = fs_rx_remote_avail fs -> fs_tx_rate fs' = fs_tx_rate fs ->
  ack_ok m fs fs' T isn M M flags ack orig 0 false.
Proof.
  intros Hw Hs ? ? Hsame ? ? Hr ?. pose proof Hw as []. pose proof Hsame as []. constructor; try done; try lia.
  - eapply tx_same_wf; [done|by rewrite Hr|done].
  - by eapply tx_same_stream.
Qed.

Lemma packet_ack_ok m fs T isn M flags ack orig : tx_wf fs -> tx_stream m fs T isn M -> in32 ack ->
  let '(stop, fs', b) := packet_ack fs flags ack orig in
  exists M', ack_ok m fs fs' T isn M M' flags ack orig b stop.
Proof.
  intros Hw Hs Hack. rewrite packet_ack_unfold. pose proof Hw as [].
  destruct (has flags TCP_ACK) eqn:Hfl; cbn [negb].
  2:{ exists M. apply ack_ok_trivial; try done; unfold acked_bytes, third_dupack; by rewrite Hfl. }
  cbn zeta. set (fs0 := fs <| fs_cnt_rx_acks := _ |>).
  assert (Hw0 : tx_wf fs0) by (by apply (tx_same_wf fs)).
  assert (Hs0 : tx_stream m fs0 T isn M) by (by apply (tx_same_stream m fs)).
  rewrite rxack_spec by (cbn; (done || lia)). cbn zeta.
  change (fs_tx_next_seq fs0) with (fs_tx_next_seq fs). change (fs_tx_sent fs0) with (fs_tx_sent fs).
  change (fs_tx_avail fs0) with (fs_tx_avail fs).
  set (b := u32 (ack - (fs_tx_next_seq fs - fs_tx_sent fs))). assert (Hb0 : in32 b) by apply u32_range.
  assert (Eb : u32 (ack - (isn + (M - fs_tx_sent fs))) = b).
  { unfold b. rewrite (ts_seq _ _ _ _ _ Hs).
    replace (ack - (u32 (isn + M) - fs_tx_sent fs)) with (ack + fs_tx_sent fs - u32 (isn + M)) by lia.
    rewrite u32_sub_r. f_equal. lia. }
  assert (Eab : acked_bytes fs flags ack (isn + (M - fs_tx_sent fs)) =
    if b <=? fs_tx_sent fs + fs_tx_avail fs then b else 0) by (unfold acked_bytes; by rewrite Hfl, Eb).
  assert (Eth : third_dupack fs flags ack (isn + (M - fs_tx_sent fs)) orig =
    (b =? 0) && (orig =? 0) && (3 <=? u32 (fs_rx_dupack_cnt fs + 1))) by (unfold third_dupack; by rewrite Hfl, Eb).
  destruct (Z.leb_spec b (fs_tx_sent fs + fs_tx_avail fs)) as [Hb|Hb].
  2:{ exists M. apply ack_ok_trivial; try done. by rewrite Eth, (proj2 (Z.eqb_neq b 0)) by lia. }
  assert (Eack : ack = u32 (isn + (M - fs_tx_sent fs) + b)).
  { pose proof (ts_seq _ _ _ _ _ Hs) as Eseq. unfold b. rewrite Eseq, u32_add_r.
    rewrite <-(u32_small ack) at 1 by done.
    replace (isn + (M - fs_tx_sent fs) + (ack - (u32 (isn + M) - fs_tx_sent fs)))
      with (isn + M + ack - u32 (isn + M)) by lia. rewrite u32_sub_r. f_equal. lia. }
  clearbody b.
  assert (Ecnt : fs_rx_dupack_cnt (ack_update fs0 flags b) = fs_rx_dupack_cnt fs).
  { unfold ack_update. by destruct (has flags TCP_ECE), (b <=? _). }
  destruct (ack_update_ok fs0 flags b Hw0 ltac:(cbn; lia)) as (Hsame & Hrx & Hid & Er & Ert).
  destruct (acked_ok m fs0 T isn M b Hw0 Hs0 ltac:(cbn; lia)) as [Hwa Hsa].
  set (fs1 := ack_update fs0 flags b) in *. clearbody fs1.
  assert (Hw1 : tx_wf fs1) by (eapply tx_same_wf; [exact Hsame|by rewrite Er|done]).
  pose proof (tx_same_stream _ _ _ _ _ _ Hsame Hsa) as Hs1. change (fs_tx_sent fs0) with (fs_tx_sent fs) in Hs1.
  assert (Hrx1 : rx_same fs fs1) by (destruct Hrx; by constructor).
  assert (Hid1 : ids_same fs fs1) by (destruct Hid; by constructor).
  assert (Hgen : forall fs2, tx_same fs1 fs2 -> rx_same fs1 fs2 -> ids_same fs1 fs2 ->
    fs_rx_remote_avail fs2 = fs_rx_remote_avail fs1 -> fs_tx_rate fs2 = fs_tx_rate fs1 ->
    third_dupack fs flags ack (isn + (M - fs_tx_sent fs)) orig = false ->
    ack_ok m fs fs2 T isn M (M + Z.max 0 (b - fs_tx_sent fs)) flags ack orig b false).
  { intros fs2 Ht Hr Hi Erm Err Hth.
    assert (Es : fs_tx_sent fs2 = Z.max 0 (fs_tx_sent fs - b)) by (by rewrite (tx_s_sent _ _ Ht), (tx_s_sent _ _ Hsame)).
    assert (Ea : fs_tx_avail fs2 = Z.min (fs_tx_avail fs) (fs_tx_avail fs + fs_tx_sent fs - b))
      by (by rewrite (tx_s_avail _ _ Ht), (tx_s_avail _ _ Hsame)).
    constructor; try done; try lia.
    - eapply tx_same_wf; [exact Ht|rewrite Erm; apply Hw1|done].
    - by eapply tx_same_stream.
    - by eapply rx_same_trans.
    - destruct Hi, Hid1; constructor; congruence.
    - by rewrite (tx_s_base _ _ Ht), (tx_s_base _ _ Hsame), (tx_s_len _ _ Ht), (tx_s_len _ _ Hsame).
    - left. by rewrite Err, Ert. }
  rewrite Eth in Hgen. rewrite Ecnt.
  destruct (Z.eqb_spec b 0) as [E0|]; cbn [negb]; [|eexists; by apply Hgen].
  destruct (orig =? 0); cbn [andb] in *; [|eexists; by apply Hgen].
  destruct (3 <=? _); [|eexists; by apply Hgen].
  set (fs2 := fs1 <| fs_rx_dupack_cnt := _ |>).
  assert (H2 : tx_wf fs2 /\ tx_stream m fs2 T isn (M + Z.max 0 (b - fs_tx_sent fs)) /\
    fs_tx_sent fs2 = fs_tx_sent fs /\ fs_tx_avail fs2 = fs_tx_avail fs).
  { pose proof (tx_s_sent _ _ Hsame) as E1. pose proof (tx_s_avail _ _ Hsame) as E2. cbn in E1, E2.
    assert (H12 : tx_same fs1 fs2) by (by constructor).
    split_and!; [by apply (tx_same_wf fs1 fs2 H12 (tw_remote _ Hw1) Hw1)|by apply (tx_same_stream m fs1)|..]; cbn; lia. }
  destruct H2 as (ak_wf0 & ak_stream0 & Esent2 & Eavail2).
  destruct (reset_moved fs2 ak_wf0) as (Hsame3 & Hrx3 & Erm3 & Hrate3 & Eo3 & Ed3 & Et3).
  destruct (tx_moved_ok m fs2 T isn _ (- fs_tx_sent fs2) (fs_tx_avail fs2 + fs_tx_sent fs2) 0
    ak_wf0 ak_stream0) as [Hw3 Hs3]; try (destruct ak_wf0; lia).
  pose proof (tx_same_stream _ _ _ _ _ _ Hsame3 Hs3) as Hs3'.
  assert (Es3 : fs_tx_sent (flow_reset_retransmit fs2) = 0) by (by destruct Hsame3).
  assert (Ea3 : fs_tx_avail (flow_reset_retransmit fs2) = fs_tx_avail fs2 + fs_tx_sent fs2) by (by destruct Hsame3).
  eexists. constructor; try exact Hs3'; try done; try lia.
  - eapply tx_same_wf; [exact Hsame3|rewrite Erm3; apply u32_range|done].
  - eapply rx_same_trans; [exact Hrx1|]. eapply rx_same_trans; [|exact Hrx3]. done.
  - destruct Hid1. constructor; [by rewrite Eo3|by rewrite Ed3|by rewrite Et3].
  - rewrite (tx_s_base _ _ Hsame3), (tx_s_len _ _ Hsame3). 
    exact (conj (tx_s_base _ _ Hsame) (tx_s_len _ _ Hsame)).
  - assert (Er2 : fs_tx_rate fs2 = fs_tx_rate fs) by (unfold fs2; cbn; rewrite Ert; done).
    rewrite Er2 in Hrate3. exact Hrate3.
Qed.

(** ** Reading the buffer *)

Lemma dma_read_spec (m : memory) addr len : 0 <= addr -> 0 <= len -> addr + len <= shm_len ->
  shm_len < 18446744073709551616 -> dma_read shm_len m addr len = Done (fun i => m (addr + i)).
Proof.
  intros. unfold dma_read, dma_check. rewrite u64_small by lia.
  by rewrite !(proj2 (Z.leb_le _ _)) by lia.
Qed.

Lemma tx_read_spec m fs pos len : tx_wf fs -> 0 <= pos < fs_tx_len fs -> 0 <= len <= fs_tx_len fs ->
  exists d, flow_tx_read shm_len m fs pos len = Done d /\
    forall i, 0 <= i < len -> d i = m (fs_tx_base fs + (pos + i) mod fs_tx_len fs).
Proof.
  intros [] Hp Hl. unfold flow_tx_read. rewrite (u32_small (pos + len)) by lia.
  rewrite (u64_small (fs_tx_base fs + pos)) by lia.
  destruct (Z.leb_spec (pos + len) (fs_tx_len fs)).
  - rewrite dma_read_spec by lia. eexists. split; [done|]. intros i Hi. cbn.
    rewrite Z.mod_small by lia. f_equal. lia.
  - rewrite (u32_small (fs_tx_len fs - pos)) by lia. set (part := fs_tx_len fs - pos) in *.
    rewrite (u32_small (len - part)) by lia. rewrite !dma_read_spec by lia. cbn.
    eexists. split; [done|]. intros i Hi. cbn. rewrite mod_wrap by lia.
    destruct (Z.ltb_spec i part).
    + rewrite (proj2 (Z.leb_gt _ _)) by lia. f_equal. lia.
    + rewrite (proj2 (Z.leb_le _ _)) by lia. f_equal. lia.
Qed.

(** ** Segments *)

Section Segment.
Context (fp_xsumoffload : bool) (eth_addr : Z).
Context (rte_ipv4_cksum rte_ipv4_udptcp_cksum : pkt_tcp -> Z).
Context {Q : Type}.
Abbreviation flow_tx_segment := (flow_tx_segment shm_len fp_xsumoffload eth_addr rte_ipv4_cksum rte_ipv4_udptcp_cksum).

(** The headers of a segment of [n] payload bytes sent for [fs]. *)
Record seg_headers (p : pkt_tcp) (fs : flowst) (seq ack rxwnd n ts_echo ts_my : Z) (fin : bool) : Prop := {
  sg_dest : eth_dest p = fs_remote_mac fs;
  sg_src : ip_src p = fs_local_ip fs /\ tcp_src p = fs_local_port fs;
  sg_dst : ip_dest p = fs_remote_ip fs /\ tcp_dest p = fs_remote_port fs;
  sg_ver : eth_type p = ETH_TYPE_IP /\ ip_v p = 4 /\ ip_hl p = 5 /\ ip_proto p = IP_PROTO_TCP;
  sg_len : ip_len p = 52 + n;
  sg_seq : tcp_seqno p = seq /\ tcp_ackno p = ack;
  sg_wnd : tcp_wnd p = Z.min 65535 rxwnd;
  sg_hdrlen : tcp_hdrlen p = 8;
  sg_flags : TCPH_FLAGS p = Z.lor TCP_PSH (Z.lor TCP_ACK (if fin then TCP_FIN else 0));
  sg_ts : p_body p 0 = TCP_OPT_TIMESTAMP /\ p_body p 1 = TCP_TS_OPT_SIZE /\
    be32 (p_body p) 2 = ts_my /\ be32 (p_body p) 6 = ts_echo
}.

Lemma tcp_checksums_fields p a b l :
  let p' := tcp_checksums fp_xsumoffload rte_ipv4_cksum rte_ipv4_udptcp_cksum p a b l in
  exists x y, p' = p <| ip_chksum := x |> <| tcp_chksum := y |>.
Proof.
  unfold tcp_checksums. destruct fp_xsumoffload; cbn.
  - by exists 0, (network_ip_phdr_xsum a b IP_PROTO_TCP l).
  - eexists _, _. reflexivity.
Qed.

Lemma segment_headers_ok p fs seq ack rxwnd n ts_echo ts_my fin : 0 <= n < 60000 ->
  in32 ts_echo -> in32 ts_my ->
  seg_headers (segment_headers eth_addr p fs seq ack rxwnd n ts_echo ts_my fin) fs seq ack rxwnd n ts_echo ts_my fin.
Proof.
  intros Hn He Hm. unfold segment_headers. constructor; cbn [ip_len tcp_rsvd_flags p_body]; try done.
  - rewrite u16_small; unfold PKT_TCP_SIZE, TS_OPTLEN, ETH_HDR_SIZE; lia.
  - by destruct fin.
  - unfold ts_option. split; [done|split; [done|split]].
    + rewrite be32_put_other by lia. by apply be32_put.
    + by apply be32_put.
Qed.

Lemma flow_tx_segment_ok (c : dp Q) nbh fs seq ack rxwnd n pos ts_echo ts_my fin :
  tx_wf fs -> 0 <= pos < fs_tx_len fs -> 0 <= n <= fs_tx_len fs -> n < 60000 ->
  in32 ts_echo -> in32 ts_my -> Z.of_nat (length (c_tx c)) < TXBUF_SIZE ->
  exists nb, flow_tx_segment c nbh fs seq ack rxwnd n pos ts_echo ts_my fin =
      Done (c <| c_tx := c_tx c ++ [nb] |>) /\
    nb_off nb = 0 /\ nb_len nb = 66 + n /\
    seg_headers (nb_pkt nb) fs seq ack rxwnd n ts_echo ts_my fin /\
    (forall i, 0 <= i < n -> p_body (nb_pkt nb) (TS_OPTLEN + i) =
      c_mem c (fs_tx_base fs + (pos + i) mod fs_tx_len fs)).
Proof.
  intros Hw Hp Hn Hn6 He Hm Htx. unfold FastFlows.flow_tx_segment. cbv zeta.
  pose proof (segment_headers_ok (nb_pkt nbh) fs seq ack rxwnd n ts_echo ts_my fin ltac:(lia) He Hm) as Hh.
  set (p := segment_headers _ _ _ _ _ _ _ _ _ _) in *. clearbody p.
  assert (Hpay : exists p', (if 0 <? n then
      d ← flow_tx_read shm_len (c_mem c) fs pos n;
      Done (p <| p_body := fun i => if (TS_OPTLEN <=? i) && (i <? TS_OPTLEN + n) then d (i - TS_OPTLEN) else p_body p i |>)
      else Done p) = Done p' /\ seg_headers p' fs seq ack rxwnd n ts_echo ts_my fin /\
      (forall i, 0 <= i < n -> p_body p' (TS_OPTLEN + i) = c_mem c (fs_tx_base fs + (pos + i) mod fs_tx_len fs))).
  { destruct (Z.ltb_spec 0 n); [|exists p; split_and!; [done..|lia]].
    destruct (tx_read_spec (c_mem c) fs pos n Hw Hp Hn) as (d & -> & Hd). cbn.
    eexists. split; [done|]. split; [by destruct Hh; constructor|].
    intros i Hi. cbn [p_body setter]. rewrite <-Hd by done. cbn.
    rewrite (proj2 (Z.leb_le _ _)), (proj2 (Z.ltb_lt _ _)) by lia. cbn. f_equal. lia. }
  destruct Hpay as (p' & -> & Hh' & Hb). cbn [mbind outcome_bind].
  destruct (tcp_checksums_fields p' (fs_local_ip fs) (fs_remote_ip fs)
    (u16 (PKT_TCP_SIZE + TS_OPTLEN - (ETH_HDR_SIZE + IP_HDR_SIZE) + n))) as (x & y & ->).
  unfold tx_send. rewrite (proj2 (Z.leb_gt _ _)) by lia.
  eexists. split; [done|]. split_and!; try done.
  - cbn. rewrite u16_small; unfold PKT_TCP_SIZE, TS_OPTLEN; lia.
  - destruct Hh'. by constructor.
Qed.

End Segment.

End Tx.
End FastTx.
