(* ===== verification/FastFlowsSpec.v ===== *)
(** * The handlers of the fast path

    The theorems about whole handlers of [FastFlows]: what they do to the flow, its
    buffers, the notifications, the packets sent and the queue manager, from the
    receive part ([FastRx]) and the transmit part ([FastTx]). *)
From S2P Require Import Prelude Memif Packet TcpCommon Qman FastCtx FastFlows FastRx FastTx.

Module FastFlowsSpec.
Import Packet TcpCommon FastCtx FastFlows FastRx FastTx.

Section Handlers.
Context (shm_len : Z) (fp_xsumoffload : bool) (eth_addr : Z).
Context (rte_ipv4_cksum rte_ipv4_udptcp_cksum : pkt_tcp -> Z).
Context (fwd_enqueue : Z -> Z -> bool).
Context {Q : Type} `{QM : QueueManager Q}.

Abbreviation fast_flows_qman :=
  (fast_flows_qman shm_len fp_xsumoffload eth_addr rte_ipv4_cksum rte_ipv4_udptcp_cksum fwd_enqueue).
Abbreviation fast_flows_packet :=
  (fast_flows_packet shm_len fp_xsumoffload rte_ipv4_cksum rte_ipv4_udptcp_cksum).
Abbreviation fast_flows_bump :=
  (fast_flows_bump shm_len fp_xsumoffload eth_addr rte_ipv4_cksum rte_ipv4_udptcp_cksum).
Abbreviation flow_tx_ack := (flow_tx_ack fp_xsumoffload rte_ipv4_cksum rte_ipv4_udptcp_cksum).

(** ** The invariant of a flow

    [S] is the stream from the peer, of which the application has been told [N] bytes;
    [T] is the stream to the peer, whose byte [M] is sent next with sequence number
    [isn + M]. *)
Record flow_inv (m : memory) (fs : flowst) (S T : Z -> Z) (N isn M : Z) : Prop := {
  fi_rx : rx_wf shm_len fs;
  fi_tx : tx_wf shm_len fs;
  fi_rxs : rx_stream m fs S N;
  fi_txs : tx_stream m fs T isn M;
  fi_disj : rx_base fs + fs_rx_len fs <= fs_tx_base fs \/ fs_tx_base fs + fs_tx_len fs <= rx_base fs;
  fi_ts : in32 (fs_tx_next_ts fs)
}.

(** Every byte that may be sent has been announced to the queue manager. *)
Definition credit (c : dp Q) (fid : Z) : Prop :=
  tcp_txavail (c_flowst c fid) None <= qm_avail (c_qman c) fid.

Lemma set_flow_self (c : dp Q) fid fs : c_flowst (set_flow c fid fs) fid = fs.
Proof. unfold set_flow, insert, fn_insert. cbn. by rewrite decide_True. Qed.

(** ** Sending *)

Lemma txavail_advance fs len : tx_wf shm_len fs -> 0 <= len <= tcp_txavail fs None ->
  tcp_txavail (tx_advance fs len) None = tcp_txavail fs None - len.
Proof.
  intros Hw Hl. pose proof (txavail_u32 shm_len fs Hw). pose proof Hw as [].
  rewrite (tx_advance_moved shm_len) by (done || lia). unfold tcp_txavail in *. cbn in *.
  destruct (Z.leb_spec (fs_tx_sent fs) (fs_rx_remote_avail fs)).
  - rewrite (u32_small (_ - fs_tx_sent fs)) in * by lia.
    destruct (Z.le_gt_cases (fs_tx_sent fs + len) (fs_rx_remote_avail fs)).
    + rewrite (u32_small (_ - (fs_tx_sent fs + len))) by lia. split_ifs; lia.
    + split_ifs; lia.
  - rewrite (u32_neg (_ - fs_tx_sent fs)), (u32_neg (_ - (fs_tx_sent fs + len))) in * by lia. split_ifs; lia.
Qed.

(** What may be sent: the unsent bytes, as far as the peer's window is not used up by
    what is in flight.  Once more is in flight than the window (the peer has taken space
    back), the subtraction in [tcp_txavail] wraps and the window does not limit the
    sender any more. *)
Definition sendable (fs : flowst) : Z :=
  if fs_tx_sent fs <=? fs_rx_remote_avail fs
  then Z.min (fs_tx_avail fs) (fs_rx_remote_avail fs - fs_tx_sent fs) else fs_tx_avail fs.

Lemma txavail_sendable fs : tx_wf shm_len fs -> tcp_txavail fs None = sendable fs.
Proof.
  intros []. unfold sendable. pose proof (tcp_txavail_window fs tw_remote0 ltac:(lia) ltac:(lia) ltac:(lia)).
  destruct (_ <=? _); [|done]. by destruct H.
Qed.

(** The segment sent, and the flow after it. *)
Lemma qman_sends_ok (c : dp Q) fid nbh ts S T N isn M :
  let fs := c_flowst c fid in
  flow_inv (c_mem c) fs S T N isn M -> c_steering c (fs_flow_group fs) = c_id c ->
  0 < tcp_txavail fs None -> Z.of_nat (length (c_tx c)) < TXBUF_SIZE -> in32 ts ->
  let len := Z.min (tcp_txavail fs None) TCP_MSS in
  let fin := sp_has fs FLEXNIC_PL_FLOWST_TXFIN && (fs_tx_avail fs - len =? 0) in
  let n := if fin then len - 1 else len in
  exists fs' nb, fast_flows_qman c fid nbh ts = Done (0, (set_flow c fid fs') <| c_tx := c_tx c ++ [nb] |>) /\
    flow_inv (c_mem c) fs' S T N isn (M + len) /\ fs_flow_group fs' = fs_flow_group fs /\ nb_len nb = 66 + n /\
    fs' = tx_moved fs len (fs_tx_avail fs - len) (fs_tx_sent fs + len) /\
    seg_headers (nb_pkt nb) fs (u32 (isn + M)) (fs_rx_next_seq fs) (fs_rx_avail fs) n
      (fs_tx_next_ts fs) ts fin /\
    (forall i, 0 <= i < n -> p_body (nb_pkt nb) (TS_OPTLEN + i) = T (M + i)) /\
    (forall q, tcp_txavail fs None <= q ->
      tcp_txavail fs' None <= q - Z.min q TCP_MSS).
Proof.
  intros fs [Hrx Htx Hrs Hts Hdis Hns] Hcore Hav Hroom H32 len fin n.
  pose proof (txavail_u32 shm_len fs Htx) as Hle. pose proof Htx as [].
  assert (Hlen : 0 < len <= tcp_txavail fs None /\ len <= 1448) by (unfold len, TCP_MSS; lia).
  unfold FastFlows.fast_flows_qman. fold fs. rewrite Hcore, Z.eqb_refl. cbn [negb].
  rewrite (proj2 (Z.eqb_neq _ 0)) by lia. fold len.
  pose proof (txavail_advance fs len Htx ltac:(lia)) as Etx.
  rewrite (tx_advance_moved shm_len fs len) in * by (done || lia).
  destruct (tx_moved_ok shm_len (c_mem c) fs T isn M len (fs_tx_avail fs - len) (fs_tx_sent fs + len))
    as [Hw' Hs']; try done; try lia.
  set (fs' := tx_moved fs len (fs_tx_avail fs - len) (fs_tx_sent fs + len)) in *.
  assert (Hfin : sp_has fs' FLEXNIC_PL_FLOWST_TXFIN && (fs_tx_avail fs' =? 0) = fin) by done.
  rewrite Hfin.
  assert (Hn : (if fin then assert_ (0 <? len);; Done (len - 1) else Done len) = Done n).
  { unfold n. destruct fin; [|done]. by rewrite (proj2 (Z.ltb_lt _ _)) by lia. }
  rewrite Hn. cbn [mbind outcome_bind].
  assert (Hnr : 0 <= n <= len) by (unfold n; destruct fin; lia).
  assert (Hframe : rx_frame fs fs -> rx_same fs fs') by (by constructor).
  specialize (Hframe (rx_frame_refl fs)).
  destruct (flow_tx_segment_ok shm_len fp_xsumoffload eth_addr rte_ipv4_cksum rte_ipv4_udptcp_cksum
    (set_flow c fid fs') nbh fs' (fs_tx_next_seq fs) (fs_rx_next_seq fs) (fs_rx_avail fs) n
    (fs_tx_next_pos fs) (fs_tx_next_ts fs) ts fin) as (nb & E & _ & Hl & Hh & Hp); try done; try (cbn; lia).
  change (fs_tx_next_ts fs') with (fs_tx_next_ts fs). rewrite E. cbn [mbind outcome_bind].
  exists fs', nb. split; [done|].
  split_and!; try done.
  - constructor; try done.
    + by eapply rx_same_wf.
    + by eapply rx_same_stream.
  - destruct Hh. constructor; try done. rewrite (ts_seq _ _ _ _ _ Hts) in *. done.
  - intros i Hi. rewrite Hp by lia. change (c_mem (set_flow c fid fs')) with (c_mem c).
    rewrite <-(ts_bytes _ _ _ _ _ Hts i) by lia. done.
  - intros q Hq. rewrite Etx. unfold len. lia.
Qed.

(** C2: Sending ([fast_flows_qman]).  When the queue manager fires a flow that lives on
    this core and has something to send, the handler emits exactly one segment: the next
    [len] bytes of the application's stream, which are as many as the buffer, one MSS and
    the peer's window allow, with the sequence number that belongs to them, the current
    acknowledgement and window; with FIN, when the stream ends, without the dummy byte.
    The flow moves on by [len] bytes: they are in flight now and no longer unsent.  If
    what is in flight was within the peer's window it still is; the window is not looked
    at when more was in flight than it allows already (see [sendable]), the one case in
    which the segment may exceed it.  What remains to be sent is still covered by what
    remains scheduled. *)
Theorem fast_flows_qman_sends (c : dp Q) fid nbh ts S T N isn M :
  let fs := c_flowst c fid in
  flow_inv (c_mem c) fs S T N isn M -> c_steering c (fs_flow_group fs) = c_id c ->
  0 < sendable fs -> Z.of_nat (length (c_tx c)) < TXBUF_SIZE -> in32 ts ->
  let len := Z.min (sendable fs) TCP_MSS in
  let fin := sp_has fs FLEXNIC_PL_FLOWST_TXFIN && (fs_tx_avail fs - len =? 0) in
  let n := if fin then len - 1 else len in
  exists c' nb, fast_flows_qman c fid nbh ts = Done (0, c') /\
    let fs' := c_flowst c' fid in
    flow_inv (c_mem c') fs' S T N isn (M + len) /\
    fs_tx_avail fs' = fs_tx_avail fs - len /\ fs_tx_sent fs' = fs_tx_sent fs + len /\
    fs_rx_remote_avail fs' = fs_rx_remote_avail fs /\
    (fs_tx_sent fs <= fs_rx_remote_avail fs -> fs_tx_sent fs' <= fs_rx_remote_avail fs') /\
    c_tx c' = c_tx c ++ [nb] /\ nb_len nb = 66 + n /\
    seg_headers (nb_pkt nb) fs (u32 (isn + M)) (fs_rx_next_seq fs) (fs_rx_avail fs) n
      (fs_tx_next_ts fs) ts fin /\
    (forall i, 0 <= i < n -> p_body (nb_pkt nb) (TS_OPTLEN + i) = T (M + i)) /\
    c_qman c' = c_qman c /\ c_arx c' = c_arx c /\ c_mem c' = c_mem c /\
    (forall i, i <> fid -> c_flowst c' i = c_flowst c i) /\
    (forall q, sendable fs <= q -> sendable fs' <= q - Z.min q TCP_MSS).
Proof.
  intros fs Hinv Hcore Hav Hroom H32 len fin n. pose proof (fi_tx _ _ _ _ _ _ _ Hinv) as Hw.
  pose proof (txavail_sendable fs Hw) as Es. unfold n, fin, len. rewrite <-Es in Hav |- *.
  destruct (qman_sends_ok c fid nbh ts S T N isn M Hinv Hcore Hav Hroom H32)
    as (fs' & nb & E & Hinv' & _ & Hl & Emv & Hh & Hp & Hq).
  exists ((set_flow c fid fs') <| c_tx := c_tx c ++ [nb] |>), nb. split; [exact E|].
  change (c_flowst ((set_flow c fid fs') <| c_tx := c_tx c ++ [nb] |>) fid)
    with (c_flowst (set_flow c fid fs') fid). rewrite set_flow_self. cbv zeta.
  rewrite <-(txavail_sendable fs' (fi_tx _ _ _ _ _ _ _ Hinv')).
  split_and!; try done; try (rewrite Emv; cbn; done).
  - intros Hle. rewrite Emv.
    change (fs_tx_sent fs + Z.min (tcp_txavail fs None) TCP_MSS <= fs_rx_remote_avail fs).
    rewrite Es. unfold sendable. rewrite (proj2 (Z.leb_le _ _)) by done. lia.
  - intros i Hi. unfold set_flow, insert, fn_insert. cbn. by rewrite decide_False.
Qed.

(** ** Receiving *)

(** The acknowledgement of packet [p]. *)
Record ack_headers (p p' : pkt_tcp) (seq ack rxwnd ts_echo ts_my ts_opt : Z) : Prop := {
  ah_eth : eth_dest p' = eth_src p /\ eth_src p' = eth_dest p;
  ah_ip : ip_dest p' = ip_src p /\ ip_src p' = ip_dest p;
  ah_port : tcp_dest p' = tcp_src p /\ tcp_src p' = tcp_dest p;
  ah_seq : tcp_seqno p' = seq /\ tcp_ackno p' = ack;
  ah_wnd : tcp_wnd p' = Z.min 65535 rxwnd;
  ah_flags : tcp_rsvd_flags p' = Z.lor TCP_ACK (if IPH_ECN p =? IP_ECN_CE then TCP_ECE else 0);
  ah_len : ip_len p' = 20 + tcp_hdrlen p * 4;
  ah_ts : be32 (p_body p') (ts_opt + 2) = ts_my /\ be32 (p_body p') (ts_opt + 6) = ts_echo
}.

Lemma flow_tx_ack_ok (c : dp Q) seq ack rxwnd ts_echo ts_my nbh ts_opt :
  5 <= tcp_hdrlen (nb_pkt nbh) < 16 -> in32 ts_echo -> in32 ts_my ->
  Z.of_nat (length (c_tx c)) < TXBUF_SIZE ->
  exists nb, flow_tx_ack c seq ack rxwnd ts_echo ts_my nbh ts_opt =
      Done (c <| c_tx := c_tx c ++ [nb] |>) /\
    ack_headers (nb_pkt nbh) (nb_pkt nb) seq ack rxwnd ts_echo ts_my ts_opt /\
    nb_len nb = ETH_HDR_SIZE + ip_len (nb_pkt nb) /\ nb_off nb = nb_off nbh.
Proof.
  intros Hh He Hm Hroom. unfold FastFlows.flow_tx_ack.
  set (p := nb_pkt nbh) in *. set (hl := u16 (PKT_TCP_SIZE + (tcp_hdrlen p - 5) * 4)).
  assert (Ehl : hl = 34 + tcp_hdrlen p * 4) by (unfold hl; rewrite u16_small; unfold PKT_TCP_SIZE; lia).
  destruct (tcp_checksums_fields fp_xsumoffload rte_ipv4_cksum rte_ipv4_udptcp_cksum
    (ack_packet p seq ack rxwnd ts_echo ts_my ts_opt)
    (ip_src (ack_packet p seq ack rxwnd ts_echo ts_my ts_opt))
    (ip_dest (ack_packet p seq ack rxwnd ts_echo ts_my ts_opt))
    (u16 (hl - (ETH_HDR_SIZE + IP_HDR_SIZE)))) as (x & y & ->).
  unfold tx_send. rewrite (proj2 (Z.leb_gt _ _)) by lia. eexists. split; [done|].
  assert (El : u16 (hl - ETH_HDR_SIZE) = 20 + tcp_hdrlen p * 4)
    by (rewrite u16_small; unfold ETH_HDR_SIZE; lia).
  split_and!; [|cbn; fold hl; rewrite El; unfold ETH_HDR_SIZE; lia|done].
  constructor; try done. cbn. split.
  - rewrite be32_put_other by lia. by apply be32_put.
  - by apply be32_put.
Qed.

(** What the end of the handler does: notification, queue manager, acknowledgement. *)
Record finished (c c' : dp Q) (fs : flowst) (flow_id rx_pos rx_bump tx_bump old_avail ts ts_opt : Z)
    (fin ack : bool) (p : pkt_tcp) : Prop := {
  fd_flowst : c_flowst c' = c_flowst c;
  fd_mem : c_mem c' = c_mem c;
  fd_arx : c_arx c' = c_arx c ++
    if negb (rx_bump =? 0) || negb (tx_bump =? 0) || fin
    then [(fs_db_id fs, mk_arx FLEXTCP_PL_ARX_CONNUPDATE (fs_opaque fs) rx_bump rx_pos tx_bump
            (if fin then FLEXTCP_PL_ARX_FLRXDONE else 0))] else [];
  fd_qok : qm_ok (c_qman c');
  fd_qavail : qm_avail (c_qman c') flow_id =
    qm_avail (c_qman c) flow_id + Z.max 0 (tcp_txavail fs None - old_avail);
  fd_qother i : i <> flow_id -> qm_avail (c_qman c') i = qm_avail (c_qman c) i;
  fd_tx : if ack then exists nb, c_tx c' = c_tx c ++ [nb] /\
      ack_headers p (nb_pkt nb) (fs_tx_next_seq fs) (fs_rx_next_seq fs) (fs_rx_avail fs)
        (fs_tx_next_ts fs) ts ts_opt
    else c_tx c' = c_tx c
}.

Lemma packet_finish_ok (c : dp Q) fs flow_id rx_pos rx_bump tx_bump old_avail ts ts_opt fin ack nbh :
  tx_wf shm_len fs -> in32 (fs_tx_next_ts fs) -> in32 ts -> 0 <= old_avail ->
  5 <= tcp_hdrlen (nb_pkt nbh) < 16 -> Z.of_nat (length (c_tx c)) < TXBUF_SIZE ->
  qm_ok (c_qman c) -> 0 <= flow_id < 65536 -> pace_ok (fs_tx_rate fs) TCP_MSS ->
  0 <= qm_avail (c_qman c) flow_id < 2147483648 ->
  exists c', packet_finish fp_xsumoffload rte_ipv4_cksum rte_ipv4_udptcp_cksum c flow_id nbh fs
      rx_pos rx_bump tx_bump fin ack old_avail ts ts_opt = Done (if ack then 1 else 0, c') /\
    finished c c' fs flow_id rx_pos rx_bump tx_bump old_avail ts ts_opt fin ack (nb_pkt nbh).
Proof.
  intros Hw Hts H32 Hold Hh Hroom Hqok Hid Hpace Hqa. unfold packet_finish.
  pose proof (txavail_u32 shm_len fs Hw) as Hav. pose proof Hw as [].
  set (type := if fin then _ else _).
  set (c1 := if negb (rx_bump =? 0) || negb (tx_bump =? 0) || fin then _ else c).
  assert (H1 : c_flowst c1 = c_flowst c /\ c_mem c1 = c_mem c /\ c_tx c1 = c_tx c /\ c_qman c1 = c_qman c /\
    c_arx c1 = c_arx c ++ if negb (rx_bump =? 0) || negb (tx_bump =? 0) || fin
    then [(fs_db_id fs, mk_arx FLEXTCP_PL_ARX_CONNUPDATE (fs_opaque fs) rx_bump rx_pos tx_bump
            (if fin then FLEXTCP_PL_ARX_FLRXDONE else 0))] else []).
  { unfold c1, type. destruct (negb (rx_bump =? 0) || negb (tx_bump =? 0) || fin) eqn:E.
    - by destruct fin.
    - by rewrite app_nil_r. }
  clearbody c1. destruct H1 as (E1 & E2 & E3 & E4 & E5).
  assert (Hset : exists c2, (if old_avail <? tcp_txavail fs None
      then qman_set_or_abort c1 flow_id (fs_tx_rate fs) (u32 (tcp_txavail fs None - old_avail)) TCP_MSS ADD_ALL
      else Done c1) = Done c2 /\
    c_flowst c2 = c_flowst c /\ c_mem c2 = c_mem c /\ c_tx c2 = c_tx c /\ c_arx c2 = c_arx c1 /\
    qm_ok (c_qman c2) /\
    qm_avail (c_qman c2) flow_id = qm_avail (c_qman c) flow_id + Z.max 0 (tcp_txavail fs None - old_avail) /\
    (forall i, i <> flow_id -> qm_avail (c_qman c2) i = qm_avail (c_qman c) i)).
  { destruct (Z.ltb_spec old_avail (tcp_txavail fs None)).
    - unfold qman_set_or_abort. rewrite E4, (u32_small (tcp_txavail fs None - old_avail)) by lia.
      destruct (qm_set_law (c_qman c) flow_id (fs_tx_rate fs) (tcp_txavail fs None - old_avail) TCP_MSS true)
        as (q' & -> & Hq' & Hqa' & Hqo'); [done|unfold Qman.FLEXNIC_NUM_QMQUEUES; lia|done|lia|].
      cbn. eexists. split; [done|]. cbn. split_and!; try done. rewrite Hqa'.
      rewrite u32_small by lia. lia.
    - exists c1. rewrite E4. split_and!; try done. lia. }
  destruct Hset as (c2 & -> & F1 & F2 & F3 & F4 & F5 & F6 & F7). cbn [mbind outcome_bind].
  destruct ack.
  - destruct (flow_tx_ack_ok c2 (fs_tx_next_seq fs) (fs_rx_next_seq fs) (fs_rx_avail fs) (fs_tx_next_ts fs)
      ts nbh ts_opt) as (nb & -> & Hah & _ & _); try done; [by rewrite F3|].
    cbn [mbind outcome_bind]. eexists. split; [done|]. constructor; try done.
    + by rewrite <-E5, <-F4.
    + exists nb. split; [|done]. by rewrite <-F3.
  - eexists. split; [done|]. constructor; try done. by rewrite <-E5, <-F4.
Qed.

Lemma packet_data_ack m fs p bytes ts_val ts_ecr ts body r : 0 < bytes ->
  packet_data shm_len m fs p bytes ts_val ts_ecr ts body = Done r -> rr_trigger_ack r = true.
Proof.
  intros Hb. unfold packet_data. rewrite (proj2 (Z.ltb_lt 0 bytes)) by done.
  destruct (tcp_trim_rxbuf _ _ _) as [[s e]|]; [|by intros [= <-]].
  destruct (negb _).
  - destruct (_ =? 0); [by intros [= <-]|].
    destruct (packet_ooo _ _ _ _ _ _) as [[? ?]| |]; cbn; [by intros [= <-]|done..].
  - unfold packet_inorder. destruct (_ && _)%bool; [by intros [= <-]|].
    destruct (if 0 <? _ then _ else _) as [[[? ?] ?]| |]; cbn; [|done..].
    destruct (packet_fin _ _ _). by intros [= <-].
Qed.

(** The fields the data path only sets from the packet. *)
Record misc_same (fs fs' : flowst) : Prop := {
  ms_ids : ids_same fs fs';
  ms_remote : fs_rx_remote_avail fs' = fs_rx_remote_avail fs
}.

Lemma misc_same_trans a b c : misc_same a b -> misc_same b c -> misc_same a c.
Proof. intros [[] ?] [[] ?]. constructor; [constructor|..]; congruence. Qed.

Lemma rx_advance_misc fs n fs' : rx_advance fs n = Done fs' -> misc_same fs fs'.
Proof. unfold rx_advance. intros (? & _ & [= <-])%outcome_bind_Done. done. Qed.

Lemma packet_merge_misc fs fs' n : packet_merge_ooo fs = Done (fs', n) -> misc_same fs fs'.
Proof.
  unfold packet_merge_ooo. destruct (_ =? 0); [intros [=]; by subst|].
  destruct (tcp_trim_rxbuf _ _ _) as [[s e]|]; [|intros [=]; by subst].
  destruct (_ && _)%bool; [|intros [=]; by subst].
  intros (fs1 & E%rx_advance_misc & [=])%outcome_bind_Done. subst.
  destruct E as [[] ?]. by constructor; [constructor|..].
Qed.

Lemma packet_ooo_misc m fs seq b src fs' m' : packet_ooo shm_len m fs seq b src = Done (fs', m') ->
  misc_same fs fs'.
Proof.
  unfold packet_ooo. repeat (destruct (_ =? _); [intros (? & _ & [=])%outcome_bind_Done; by subst|]).
  intros [=]. by subst.
Qed.

Lemma packet_fin_misc fs flags e fs' fin : packet_fin fs flags e = (fs', fin) -> misc_same fs fs'.
Proof.
  unfold packet_fin. destruct (has flags TCP_FIN && _); [destruct (_ && _)|]; intros [=]; by subst.
Qed.

Lemma packet_data_misc m fs p bytes ts_val ts_ecr ts body r :
  packet_data shm_len m fs p bytes ts_val ts_ecr ts body = Done r ->
  (fs_opaque (rr_fs r) = fs_opaque fs /\ fs_db_id (rr_fs r) = fs_db_id fs) /\
  (fs_tx_next_ts (rr_fs r) = fs_tx_next_ts fs \/ fs_tx_next_ts (rr_fs r) = ts_val) /\
  (fs_rx_remote_avail (rr_fs r) = fs_rx_remote_avail fs \/ fs_rx_remote_avail (rr_fs r) = tcp_wnd p).
Proof.
  unfold packet_data. destruct (tcp_trim_rxbuf _ _ _) as [[s e]|]; [|intros [= <-]; cbn; auto].
  destruct (negb _).
  - destruct (_ =? 0); [intros [= <-]; cbn; auto|].
    intros ([fs' m'] & E%packet_ooo_misc & [= <-])%outcome_bind_Done. destruct E as [[] ?]. cbn. auto.
  - unfold packet_inorder. set (fs1 := packet_rtt _ _ _ _ _ _).
    assert (H1 : (fs_opaque fs1 = fs_opaque fs /\ fs_db_id fs1 = fs_db_id fs) /\ fs_tx_next_ts fs1 = ts_val /\ fs_rx_remote_avail fs1 = tcp_wnd p).
    { unfold fs1, packet_rtt. by destruct (_ && _)%bool; [destruct (_ <? _); [destruct (negb _)|]|]. }
    clearbody fs1. destruct H1 as (Hi & Ht & Hr).
    destruct (_ && _)%bool; [intros [= <-]; cbn; rewrite Ht, Hr; auto|].
    intros ([[fs2 m2] n] & E & E3)%outcome_bind_Done.
    assert (H2 : misc_same fs1 fs2).
    { destruct (0 <? _); [|by injection E as -> ->]. unfold packet_deliver in E.
      apply outcome_bind_Done in E as (m3 & _ & E). apply outcome_bind_Done in E as (fs3 & E1%rx_advance_misc & E).
      apply outcome_bind_Done in E as ([fs4 k] & E2%packet_merge_misc & [=]). subst.
      by eapply misc_same_trans. }
    destruct (packet_fin fs2 _ _) as [fs3 fin] eqn:Ef. apply packet_fin_misc in Ef.
    injection E3 as <-. cbn. destruct (misc_same_trans _ _ _ H2 Ef) as [[] ?], Hi.
    split_and!; [congruence..|right; congruence|right; congruence].
Qed.

(** A well-formed packet for the fast path: lengths consistent, fields of their width,
    no flags the slow path has to see, and a segment the window check cuts correctly. *)
Record fast_packet (p : pkt_tcp) (fs : flowst) (bytes : Z) : Prop := {
  fp_hdrlen : 5 <= tcp_hdrlen p < 16;
  fp_len : ip_len p = IP_HDR_SIZE + tcp_hdrlen p * 4 + bytes;
  fp_bytes : 0 <= bytes < 65400;
  fp_seq : in32 (tcp_seqno p);
  fp_ack : in32 (tcp_ackno p);
  fp_wnd : in16 (tcp_wnd p);
  fp_octets : octets (p_body p);
  fp_flags : Z.ldiff (TCPH_FLAGS p) FAST_FLAGS = 0;
  fp_gap : trim_gap (tcp_seqno p) bytes (fs_rx_next_seq fs) (fs_rx_avail fs) = false
}.

Lemma be32_octets b off : octets b -> in32 (be32 b off).
Proof.
  intros Ho. unfold be32. pose proof (Ho off). pose proof (Ho (off + 1)).
  pose proof (Ho (off + 2)). pose proof (Ho (off + 3)). lia.
Qed.

(** The payload of the packet. *)
Definition payload (p : pkt_tcp) (i : Z) : Z := p_body p ((tcp_hdrlen p - 5) * 4 + i).

Lemma packet_ack_stop fs flags ack orig fs' b :
  packet_ack fs flags ack orig = (true, fs', b) -> orig = 0.
Proof.
  rewrite packet_ack_unfold. destruct (negb (has _ _)); [done|]. cbv zeta.
  destruct (tcp_valid_rxack _ _); [|done]. destruct (negb _); [done|].
  destruct (Z.eqb_spec orig 0); [done|done].
Qed.

(** The bytes told to the application are in the buffer, and those it has not read yet
    are still there. *)
Lemma bumped_mem m m' fs fs' S N n : rx_wf shm_len fs -> 0 <= n <= fs_rx_avail fs ->
  rx_base fs' = rx_base fs -> fs_rx_len fs' = fs_rx_len fs -> fs_rx_avail fs' = fs_rx_avail fs - n ->
  fs_rx_next_pos fs' = (fs_rx_next_pos fs + n) mod fs_rx_len fs ->
  rx_stream m fs S N -> rx_stream m' fs' S (N + n) ->
  (forall i, 0 <= i < n -> m' (rx_slot fs i) = S (N + i)) /\
  (forall k, 0 < k <= fs_rx_len fs - fs_rx_avail fs -> m' (rx_slot fs (- k)) = m (rx_slot fs (- k))).
Proof.
  intros [] Hn Eb El Ea Ep [Hold _] [Hnew _].
  assert (Hslot : forall k, rx_slot fs' k = rx_slot fs (n + k)).
  { intros k. unfold rx_slot. rewrite Eb, El, Ep, Zplus_mod_idemp_l. do 2 f_equal. lia. }
  rewrite Ea, El in Hnew. split.
  - intros i Hi. specialize (Hnew (n - i) ltac:(lia)). rewrite Hslot in Hnew.
    replace (n + - (n - i)) with i in Hnew by lia. rewrite Hnew. f_equal. lia.
  - intros k Hk. specialize (Hnew (n + k) ltac:(lia)). rewrite Hslot in Hnew.
    replace (n + - (n + k)) with (- k) in Hnew by lia. rewrite Hnew, Hold by done. f_equal. lia.
Qed.

(** The receive part on a whole packet. *)
Lemma packet_rx_ok m fs S T N isn M p bytes ts_val ts_ecr ts :
  flow_inv m fs S T N isn M -> fast_packet p fs bytes -> in32 ts_val ->
  (has (fs_rx_base_sp fs) FLEXNIC_PL_FLOWST_RXFIN = false -> forall i, 0 <= i < bytes ->
    payload p i = S (N + seq_rel (tcp_seqno p) (fs_rx_next_seq fs) + i)) ->
  let '(stop, fs1, b) := packet_ack fs (TCPH_FLAGS p) (tcp_ackno p) bytes in
  exists r M',
    (if (stop : bool) then Done (mk_rx fs1 m 0 false (0 <? bytes))
     else packet_data shm_len m fs1 p bytes ts_val ts_ecr ts (payload p)) = Done r /\
    ack_ok shm_len m fs fs1 T isn M M' (TCPH_FLAGS p) (tcp_ackno p) bytes b stop /\
    rx_ok shm_len m fs1 S N (seq_rel (tcp_seqno p) (fs_rx_next_seq fs) + bytes) r /\
    flow_inv (rr_mem r) (rr_fs r) S T (N + rr_rx_bump r) isn M' /\
    (fs_opaque (rr_fs r) = fs_opaque fs /\ fs_db_id (rr_fs r) = fs_db_id fs) /\ rr_trigger_ack r = (rr_trigger_ack r || (0 <? bytes)) /\
    rx_exact fs (has (TCPH_FLAGS p) TCP_FIN && negb stop) (seq_rel (tcp_seqno p) (fs_rx_next_seq fs)) bytes r.
Proof.
  intros [Hrx Htx Hrs Hts Hdis Hns] [] Htv Hpay.
  pose proof (packet_ack_ok shm_len m fs T isn M (TCPH_FLAGS p) (tcp_ackno p) bytes Htx Hts fp_ack0) as Hack.
  destruct (packet_ack fs (TCPH_FLAGS p) (tcp_ackno p) bytes) as [[stop fs1] b] eqn:Eack.
  destruct Hack as [M' Hack]. pose proof Hack as [].
  pose proof (rx_same_wf _ _ _ ak_rx0 Hrx) as Hrx1. pose proof (rx_same_stream _ _ _ _ _ ak_rx0 Hrs) as Hrs1.
  pose proof ak_rx0 as []. destruct ak_buf0 as [Hb1 Hb2]. pose proof (id_ts _ _ ak_ids0) as Hb3.
  assert (Hfin : forall r, rx_ok shm_len m fs1 S N (seq_rel (tcp_seqno p) (fs_rx_next_seq fs) + bytes) r ->
    in32 (fs_rx_remote_avail (rr_fs r)) -> in32 (fs_tx_next_ts (rr_fs r)) ->
    flow_inv (rr_mem r) (rr_fs r) S T (N + rr_rx_bump r) isn M').
  { intros r [] Hrem Htsr. pose proof (rx_frame_tx _ _ ro_frame0) as Hsame. destruct ro_frame0.
    assert (Hwr : tx_wf shm_len (rr_fs r)) by (by eapply tx_same_wf).
    constructor; try done.
    - eapply (tx_stream_mem shm_len m); [done| |by eapply tx_same_stream].
      intros a Ha. apply ro_mem0. rewrite rx_s_base0, rx_s_len0. rewrite rf_tx_base0, rf_tx_len0, Hb1, Hb2 in Ha. lia.
    - rewrite rf_base0, rf_len0, rf_tx_base0, rf_tx_len0, rx_s_base0, rx_s_len0, Hb1, Hb2. done. }
  destruct stop.
  - eexists _, M'. split; [done|]. split; [done|].
    assert (Hok : rx_ok shm_len m fs1 S N (seq_rel (tcp_seqno p) (fs_rx_next_seq fs) + bytes)
      (mk_rx fs1 m 0 false (0 <? bytes))) by (by apply rx_ok_stay).
    split; [done|]. split; [apply Hfin; [done|apply ak_wf0|cbn; by rewrite Hb3]|].
    cbn. destruct ak_ids0. split_and!; try done; [by destruct (0 <? bytes)|].
    apply packet_ack_stop in Eack. subst bytes. set (rel := seq_rel _ _). apply (rx_exact_stay shm_len); try done.
    + by rewrite andb_false_r.
    + unfold rx_taken. split_ifs; breflect; lia.
    + unfold ooo_after. split_ifs; breflect; try done; lia.
  - rewrite <-rx_s_seq0 in Hpay, Hfin, fp_gap0 |- *. rewrite <-rx_s_fin0 in Hpay. rewrite <-rx_s_avail0 in fp_gap0.
    destruct (packet_data_ok shm_len m fs1 S N p bytes ts_val ts_ecr ts (payload p))
      as (r & Er & Hok & Hex); try done; [lia|].
    destruct (packet_data_misc _ _ _ _ _ _ _ _ _ Er) as (Hids & Htsr & Hrem).
    exists r, M'. split; [done|]. split; [done|]. split; [done|]. split.
    { apply Hfin; [done| |].
      - destruct Hrem as [-> | ->]; [apply ak_wf0|lia].
      - destruct Htsr as [-> | ->]; [by rewrite Hb3|done]. }
    split_and!.
    + destruct Hids, ak_ids0. congruence.
    + destruct Hids, ak_ids0. congruence.
    + destruct (Z.ltb_spec 0 bytes); [|by rewrite orb_false_r].
      by rewrite (packet_data_ack _ _ _ _ _ _ _ _ _ ltac:(done) Er).
    + rewrite andb_true_r. by eapply rx_same_exact.
Qed.

(** C1: Receiving ([fast_flows_packet]), the central theorem of the fast path.  For a
    flow in its invariant and a well-formed packet whose payload is the peer's stream
    [S] at the packet's place, in or out of order, old, overlapping or new, the handler
    returns (no assertion fails, nothing is aborted) and:
    - exactly [rx_bump] more bytes of [S] are received: the new bytes of a segment that
      covers the next expected one, as far as they fit, and what they complete of the
      out of order interval ([rx_taken]).  They lie in the receive buffer at the
      announced position, the unread bytes before them are untouched, and the free
      space, the next position and the next sequence number move on by [rx_bump] (the
      last by one more for FIN).  A segment that lies ahead joins the out of order
      interval, if it touches it ([ooo_after]);
    - exactly the newly acknowledged [tx_bump] bytes ([acked_bytes]) leave the transmit
      buffer; every other byte stays where it can be sent again with the same sequence
      number, and the third duplicate acknowledgement moves the flow back to the oldest
      of them;
    - FIN is passed on with the packet that carries it, when all bytes before it have
      been received and nothing out of order is left;
    - the application is notified of [rx_bump], [tx_bump] and the FIN;
    - a packet with payload is answered by one acknowledgement for the new state;
    - bytes that have become sendable are announced to the queue manager, and no other
      flow and no memory outside of the receive buffer is touched. *)
Theorem fast_flows_packet_correct (c : dp Q) fid nbh ts_opt ts S T N isn M bytes :
  let fs := c_flowst c fid in
  let p := nb_pkt nbh in
  let rel := seq_rel (tcp_seqno p) (fs_rx_next_seq fs) in
  flow_inv (c_mem c) fs S T N isn M -> fast_packet p fs bytes ->
  has (fs_rx_base_sp fs) FLEXNIC_PL_FLOWST_SLOWPATH = false ->
  (has (fs_rx_base_sp fs) FLEXNIC_PL_FLOWST_RXFIN = false -> forall i, 0 <= i < bytes ->
    payload p i = S (N + rel + i)) ->
  0 <= fid < 65536 -> in32 ts -> Z.of_nat (length (c_tx c)) < TXBUF_SIZE ->
  qm_ok (c_qman c) -> 0 <= qm_avail (c_qman c) fid < 2147483648 ->
  pace_ok (fs_tx_rate fs) TCP_MSS -> pace_ok (fs_tx_rate fs / 2) TCP_MSS ->
  let una := isn + (M - fs_tx_sent fs) in
  let stop := third_dupack fs (TCPH_FLAGS p) (tcp_ackno p) una bytes in
  let rx_bump := rx_taken fs rel bytes in
  let tx_bump := acked_bytes fs (TCPH_FLAGS p) (tcp_ackno p) una in
  let fin := has (TCPH_FLAGS p) TCP_FIN && negb stop && negb (rx_ended fs) && (rel <=? 0) &&
    (rx_bump =? rel + bytes) && ((ooo_after fs rel bytes).2 =? 0) in
  let M' := if stop then M - fs_tx_sent fs else M + Z.max 0 (tx_bump - fs_tx_sent fs) in
  exists ret c', fast_flows_packet c nbh fid ts_opt ts = Done (ret, c') /\
    let fs' := c_flowst c' fid in
    flow_inv (c_mem c') fs' S T (N + rx_bump) isn M' /\
    0 <= rx_bump <= fs_rx_avail fs /\
    fs_rx_avail fs' = fs_rx_avail fs - rx_bump /\
    fs_rx_next_pos fs' = (fs_rx_next_pos fs + rx_bump) mod fs_rx_len fs /\
    fs_rx_next_seq fs' = u32 (fs_rx_next_seq fs + rx_bump + if fin then 1 else 0) /\
    (fin = true -> rx_ended fs' = true) /\
    fs_rx_ooo_len fs' = (ooo_after fs rel bytes).2 /\
    (fs_rx_ooo_len fs' <> 0 -> fs_rx_ooo_start fs' = u32 (fs_rx_next_seq fs + (ooo_after fs rel bytes).1)) /\
    (forall i, 0 <= i < rx_bump -> c_mem c' (rx_slot fs i) = S (N + i)) /\
    (forall k, 0 < k <= fs_rx_len fs - fs_rx_avail fs -> c_mem c' (rx_slot fs (- k)) = c_mem c (rx_slot fs (- k))) /\
    (forall a, ~ rx_base fs <= a < rx_base fs + fs_rx_len fs -> c_mem c' a = c_mem c a) /\
    M' - fs_tx_sent fs' = M - fs_tx_sent fs + tx_bump /\ M' + fs_tx_avail fs' = M + fs_tx_avail fs /\
    c_arx c' = c_arx c ++ (if negb (rx_bump =? 0) || negb (tx_bump =? 0) || fin
      then [(fs_db_id fs, mk_arx FLEXTCP_PL_ARX_CONNUPDATE (fs_opaque fs) rx_bump (fs_rx_next_pos fs)
              tx_bump (if fin then FLEXTCP_PL_ARX_FLRXDONE else 0))] else []) /\
    (0 < bytes -> ret = 1 /\ exists nb, c_tx c' = c_tx c ++ [nb] /\
      ack_headers p (nb_pkt nb) (fs_tx_next_seq fs') (fs_rx_next_seq fs') (fs_rx_avail fs')
        (fs_tx_next_ts fs') ts ts_opt) /\
    (credit c fid -> credit c' fid) /\
    (forall i, i <> fid -> c_flowst c' i = c_flowst c i /\
      qm_avail (c_qman c') i = qm_avail (c_qman c) i).
Proof.
  intros fs p rel Hinv Hp Hsp Hpay Hfid H32 Hroom Hqok Hqa Hpace Hpace2 una stop rx_bump tx_bump fin M'.
  pose proof Hp as [].
  unfold FastFlows.fast_flows_packet. fold fs p. rewrite Hsp, fp_flags0. cbn [Z.eqb negb].
  rewrite (u16_small fid), (u16_small ((tcp_hdrlen p - 5) * 4)) by lia.
  assert (Eb : u32 (ip_len p - (IP_HDR_SIZE + TCP_HDR_SIZE + (tcp_hdrlen p - 5) * 4)) = bytes).
  { rewrite fp_len0. unfold IP_HDR_SIZE, TCP_HDR_SIZE. rewrite u32_small; lia. }
  rewrite Eb. change (fun i => p_body p ((tcp_hdrlen p - 5) * 4 + i)) with (payload p).
  set (tsv := be32 (p_body p) (ts_opt + 2)). set (tse := be32 (p_body p) (ts_opt + 6)).
  pose proof (packet_rx_ok (c_mem c) fs S T N isn M p bytes tsv tse ts Hinv Hp
    (be32_octets _ _ fp_octets0) Hpay) as Hrx. cbv zeta.
  destruct (packet_ack fs (TCPH_FLAGS p) (tcp_ackno p) bytes) as [[stop' fs1] b].
  destruct Hrx as (r & M1 & -> & Hack & Hok & Hinv' & [Hop Hdb] & Hta & Hex). cbn [mbind outcome_bind].
  pose proof Hack as []. pose proof Hok as []. pose proof ro_frame0 as []. pose proof Hex as [].
  fold una in ak_exact0, ak_third0. fold tx_bump in ak_exact0. fold stop in ak_third0.
  rewrite ak_exact0, ak_third0 in ak_next0. fold M' in ak_next0. fold rel in re_bump0, re_fin0, re_len0, re_start0.
  fold rx_bump in re_bump0. rewrite ak_third0, re_bump0, re_len0 in re_fin0. fold fin in re_fin0.
  subst M1 b. pose proof (txavail_u32 shm_len fs (fi_tx _ _ _ _ _ _ _ Hinv)) as Hav.
  set (c1 := (set_flow c fid (rr_fs r)) <| c_mem := rr_mem r |>).
  destruct (packet_finish_ok c1 (rr_fs r) fid (fs_rx_next_pos fs) (rr_rx_bump r) tx_bump (tcp_txavail fs None)
    ts ts_opt (rr_fin_bump r) (rr_trigger_ack r) nbh) as (c' & Ec & []); try done; try lia; try apply Hinv'.
  { rewrite rf_tx_rate0. by destruct ak_rate0 as [-> | ->]. }
  rewrite Ec. exists (if rr_trigger_ack r then 1 else 0), c'. split; [done|]. cbv zeta.
  assert (Ef : c_flowst c' fid = rr_fs r) by (rewrite fd_flowst0; apply set_flow_self).
  pose proof ak_rx0 as []. rewrite Ef, fd_mem0, fd_arx0, Hop, Hdb. change (c_mem c1) with (rr_mem r).
  rewrite rx_s_len0, rx_s_avail0, rx_s_pos0, rx_s_seq0, re_bump0, ?re_fin0 in *.
  destruct (bumped_mem (c_mem c) (rr_mem r) fs (rr_fs r) S N rx_bump) as [Hm1 Hm2]; try done;
    try apply Hinv; try apply Hinv'; try congruence.
  split_and!; try done; try lia.
  - intros Hf. by destruct (ro_fin0 Hf) as (_ & _ & ?).
  - intros a Ha. apply ro_mem0. by rewrite rx_s_base0.
  - intros Hb. rewrite (proj2 (Z.ltb_lt 0 bytes)), orb_true_r in Hta by done. rewrite Hta in *. by split.
  - unfold credit. rewrite Ef, fd_qavail0. change (c_qman c1) with (c_qman c). fold fs. lia.
  - intros i Hi. rewrite fd_flowst0, fd_qother0 by done. split; [|done].
    unfold c1, set_flow, insert, fn_insert. cbn. by rewrite decide_False.
Qed.

(** ** Retransmission *)

Lemma qman_add_ok (c : dp Q) flow_id rate old new : 0 <= flow_id < Qman.FLEXNIC_NUM_QMQUEUES ->
  pace_ok rate TCP_MSS -> qm_ok (c_qman c) -> 0 <= old < 1073741824 -> 0 <= new < 1073741824 ->
  0 <= qm_avail (c_qman c) flow_id < 2147483648 ->
  exists q', (if old <? new then qman_set_or_abort c flow_id rate (u32 (new - old)) TCP_MSS ADD_ALL
              else Done c) = Done (c <| c_qman := q' |>) /\ qm_ok q' /\
    qm_avail q' flow_id = qm_avail (c_qman c) flow_id + Z.max 0 (new - old) /\
    (forall i, i <> flow_id -> qm_avail q' i = qm_avail (c_qman c) i).
Proof.
  intros Hid Hp Hq Ho Hn Ha. destruct (Z.ltb_spec old new).
  - unfold qman_set_or_abort. rewrite (u32_small (new - old)) by lia.
    destruct (qm_set_law (c_qman c) flow_id rate (new - old) TCP_MSS true)
      as (q' & -> & Hq' & Hqa' & Hqo'); try done; [lia|].
    cbn. exists q'. split_and!; try done. rewrite Hqa', u32_small by lia. lia.
  - exists (c_qman c). split_and!; try done; [by destruct c|lia].
Qed.

Lemma flow_inv_moved m fs fs' S T N isn M M' : flow_inv m fs S T N isn M ->
  rx_same fs fs' -> tx_wf shm_len fs' -> tx_stream m fs' T isn M' ->
  fs_tx_base fs' = fs_tx_base fs -> fs_tx_len fs' = fs_tx_len fs ->
  fs_tx_next_ts fs' = fs_tx_next_ts fs -> flow_inv m fs' S T N isn M'.
Proof.
  intros [] Hrx Hw Hs Eb El Et. pose proof Hrx as []. constructor; try done.
  - by eapply rx_same_wf.
  - by eapply rx_same_stream.
  - by rewrite rx_s_base0, rx_s_len0, Eb, El.
  - by rewrite Et.
Qed.

(** C7: Retransmission ([fast_flows_retransmit]).  A flow with nothing in flight is left
    alone.  Otherwise the flow goes back to the oldest byte that is not acknowledged:
    all bytes in flight become bytes to send, with the sequence numbers and the buffer
    positions they had before, nothing is sent or announced to the application yet, and
    the queue manager learns about what has become sendable. *)
Theorem fast_flows_retransmit_correct (c : dp Q) fid S T N isn M :
  let fs := c_flowst c fid in
  flow_inv (c_mem c) fs S T N isn M -> 0 <= fid < Qman.FLEXNIC_NUM_QMQUEUES ->
  qm_ok (c_qman c) -> 0 <= qm_avail (c_qman c) fid < 2147483648 ->
  pace_ok (fs_tx_rate fs) TCP_MSS -> pace_ok (fs_tx_rate fs / 2) TCP_MSS ->
  exists c', fast_flows_retransmit c fid = Done c' /\
    let fs' := c_flowst c' fid in
    (fs_tx_sent fs = 0 -> c' = c) /\
    flow_inv (c_mem c') fs' S T N isn (M - fs_tx_sent fs) /\
    fs_tx_sent fs' = 0 /\ fs_tx_avail fs' = fs_tx_avail fs + fs_tx_sent fs /\
    c_tx c' = c_tx c /\ c_arx c' = c_arx c /\ c_mem c' = c_mem c /\
    (credit c fid -> credit c' fid) /\
    (forall i, i <> fid -> c_flowst c' i = c_flowst c i /\
      qm_avail (c_qman c') i = qm_avail (c_qman c) i).
Proof.
  intros fs Hinv Hid Hqok Hqa Hp1 Hp2. pose proof Hinv as [].
  pose proof (txavail_u32 shm_len fs fi_tx0) as Hold. pose proof fi_tx0 as [].
  unfold fast_flows_retransmit. fold fs.
  destruct (Z.eqb_spec (fs_tx_sent fs) 0) as [E|E].
  { exists c. fold fs. rewrite E, Z.sub_0_r, Z.add_0_r. by split_and!. }
  destruct (reset_moved shm_len fs fi_tx0) as (Hsame & Hrx & Erm & Hrate & _ & _ & Et).
  destruct (tx_moved_ok shm_len (c_mem c) fs T isn M (- fs_tx_sent fs) (fs_tx_avail fs + fs_tx_sent fs) 0)
    as [Hw' Hs']; try done; try lia.
  set (fs' := flow_reset_retransmit fs) in *. clearbody fs'.
  assert (Hw2 : tx_wf shm_len fs') by (eapply tx_same_wf; [exact Hsame|rewrite Erm; apply u32_range|done]).
  pose proof (tx_same_stream _ _ _ _ _ _ Hsame Hs') as Hs2.
  pose proof (txavail_u32 shm_len fs' Hw2) as Hnew. pose proof (tw_sum _ _ Hw2). pose proof (tw_len _ _ Hw2).
  pose proof (tw_sent _ _ Hw2).
  assert (Hr : pace_ok (fs_tx_rate fs') TCP_MSS) by (by destruct Hrate as [-> | ->]).
  destruct (qman_add_ok (set_flow c fid fs') fid (fs_tx_rate fs') (tcp_txavail fs None) (tcp_txavail fs' None))
    as (q' & -> & Hqok' & Hqa' & Hqo'); try done; try lia.
  eexists. split; [done|]. cbv zeta.
  change (c_flowst ((set_flow c fid fs') <| c_qman := q' |>) fid) with (c_flowst (set_flow c fid fs') fid).
  rewrite set_flow_self. split_and!; try done.
  - apply (flow_inv_moved _ fs _ _ _ _ _ M); try done; by destruct Hsame.
  - by rewrite (tx_s_sent _ _ Hsame).
  - by rewrite (tx_s_avail _ _ Hsame).
  - unfold credit. change (c_flowst ((set_flow c fid fs') <| c_qman := q' |>) fid)
      with (c_flowst (set_flow c fid fs') fid). rewrite set_flow_self. fold fs.
    change (c_qman ((set_flow c fid fs') <| c_qman := q' |>)) with q'. rewrite Hqa'.
    change (c_qman (set_flow c fid fs')) with (c_qman c). lia.
  - intros i Hi. split; [|by apply Hqo']. unfold set_flow, insert, fn_insert. cbn.
    by rewrite decide_False.
Qed.

(** ** Updates from the application *)

Lemma bump_validate_ok fs rx_bump tx_bump flags tb ta :
  rx_wf shm_len fs -> tx_wf shm_len fs -> fs_tx_len fs <= fs_rx_len fs -> in32 rx_bump -> in32 tx_bump ->
  bump_validate fs rx_bump tx_bump flags = Some (tb, ta) ->
  0 <= rx_bump /\ rx_bump + fs_rx_avail fs <= fs_rx_len fs /\
  ta = fs_tx_avail fs + tb /\ 0 <= tb /\ ta + fs_tx_sent fs <= fs_tx_len fs /\
  (sp_has fs FLEXNIC_PL_FLOWST_TXFIN = true -> tb = 0) /\ (tb = tx_bump \/ tb = 0).
Proof.
  intros [] [] Hlen Hr Ht. unfold bump_validate. cbv zeta. head_if E0; [done|].
  set (b := if sp_has fs FLEXNIC_PL_FLOWST_TXFIN && negb (tx_bump =? 0) then 0 else tx_bump).
  assert (Hb : (b = tx_bump \/ b = 0) /\ (sp_has fs FLEXNIC_PL_FLOWST_TXFIN = true -> b = 0)).
  { unfold b. destruct (sp_has fs FLEXNIC_PL_FLOWST_TXFIN); cbn; [|naive_solver].
    destruct (Z.eqb_spec tx_bump 0); cbn; naive_solver. }
  clearbody b. destruct Hb as [Hb1 Hb2].
  head_if E1; [done|]. head_if E2; [done|]. intros [= <- <-]. clear E0. breflect.
  rewrite (u32_small (fs_tx_avail fs + b)) in * by lia.
  rewrite !u32_small in * by lia. split_and!; try done; lia.
Qed.

(** [set_flow] twice, and the flow after the whole update. *)
Definition bumped (fs : flowst) (eos : bool) (bump_seq rx_bump tx_avail : Z) : flowst :=
  let fs := fs <| fs_bump_seq := bump_seq |> in
  let fs := if eos && negb (has (fs_rx_base_sp fs) FLEXNIC_PL_FLOWST_TXFIN)
            then sp_set fs FLEXNIC_PL_FLOWST_TXFIN else fs in
  let fs := fs <| fs_tx_avail := tx_avail |> in
  fs <| fs_rx_avail := u32 (fs_rx_avail fs + rx_bump) |>.

Lemma bumped_fields fs eos seq rb ta : let fs' := bumped fs eos seq rb ta in
  rx_base fs' = rx_base fs /\
  has (fs_rx_base_sp fs') FLEXNIC_PL_FLOWST_RXFIN = has (fs_rx_base_sp fs) FLEXNIC_PL_FLOWST_RXFIN /\
  fs_rx_len fs' = fs_rx_len fs /\ fs_rx_next_pos fs' = fs_rx_next_pos fs /\
  fs_rx_next_seq fs' = fs_rx_next_seq fs /\ fs_rx_ooo_start fs' = fs_rx_ooo_start fs /\
  fs_rx_ooo_len fs' = fs_rx_ooo_len fs /\ fs_rx_avail fs' = u32 (fs_rx_avail fs + rb) /\
  fs_tx_base fs' = fs_tx_base fs /\ fs_tx_len fs' = fs_tx_len fs /\ fs_tx_avail fs' = ta /\
  fs_tx_sent fs' = fs_tx_sent fs /\ fs_tx_next_pos fs' = fs_tx_next_pos fs /\
  fs_tx_next_seq fs' = fs_tx_next_seq fs /\ fs_rx_remote_avail fs' = fs_rx_remote_avail fs /\
  fs_tx_next_ts fs' = fs_tx_next_ts fs /\ fs_tx_rate fs' = fs_tx_rate fs.
Proof.
  unfold bumped. cbn zeta.
  set (fs0 := fs <| fs_bump_seq := seq |>).
  destruct (eos && negb (has (fs_rx_base_sp fs0) FLEXNIC_PL_FLOWST_TXFIN)); split_and!; try done.
  - change (rx_base (sp_set fs0 FLEXNIC_PL_FLOWST_TXFIN) = rx_base fs). by rewrite rx_base_sp_set.
  - change (has (Z.lor (fs_rx_base_sp fs) FLEXNIC_PL_FLOWST_TXFIN) FLEXNIC_PL_FLOWST_RXFIN =
      has (fs_rx_base_sp fs) FLEXNIC_PL_FLOWST_RXFIN).
    change FLEXNIC_PL_FLOWST_RXFIN with (2 ^ 5). rewrite has_lor by lia.
    change (has FLEXNIC_PL_FLOWST_TXFIN (2 ^ 5)) with false. by rewrite orb_false_r.
Qed.

Lemma bumped_inv m fs S T N isn M eos seq rb tb :
  flow_inv m fs S T N isn M -> 0 <= rb -> rb + fs_rx_avail fs <= fs_rx_len fs ->
  0 <= tb -> fs_tx_avail fs + tb + fs_tx_sent fs <= fs_tx_len fs ->
  (forall k, fs_tx_avail fs <= k < fs_tx_avail fs + tb -> m (tx_slot fs k) = T (M + k)) ->
  flow_inv m (bumped fs eos seq rb (fs_tx_avail fs + tb)) S T N isn M.
Proof.
  intros [[] [] [] [] Hd Hns] Hrb Hr Htb Ht Hm.
  destruct (bumped_fields fs eos seq rb (fs_tx_avail fs + tb))
    as (E1&E2&E3&E4&E5&E6&E7&E8&E9&E10&E11&E12&E13&E14&E15&E16&_).
  set (fs' := bumped _ _ _ _ _) in *. clearbody fs'. rewrite u32_small in E8 by lia.
  constructor.
  - constructor; unfold ooo_rel in *; rewrite ?E1, ?E3, ?E4, ?E5, ?E6, ?E7, ?E8; try done; try lia.
  - constructor; rewrite ?E9, ?E10, ?E11, ?E12, ?E13, ?E14, ?E15; try done; lia.
  - constructor; unfold rx_slot, ooo_rel in *; rewrite ?E1, ?E2, ?E3, ?E4, ?E5, ?E6, ?E7, ?E8; [|done].
    intros k Hk. apply rs_unread0. lia.
  - constructor; unfold tx_slot in *; rewrite ?E9, ?E10, ?E11, ?E12, ?E13, ?E14; [|done].
    intros k Hk. destruct (Z.lt_ge_cases k (fs_tx_avail fs)); [apply ts_bytes0; lia|apply Hm; lia].
  - by rewrite E1, E3, E9, E10.
  - by rewrite E16.
Qed.

(** C6: Updates from the application ([fast_flows_bump]), for a transmit buffer that is
    not larger than the receive buffer.  An update that is out of order, or that claims
    more space or more data than the buffers have, changes nothing but the sequence
    number of updates.  An accepted one frees the [rx_bump] bytes the application has
    read, adds the [tx_bump] bytes it has written (the application promises that they
    are in the buffer), keeps the invariant of the flow, and announces to the queue
    manager what has become sendable; a receive window that opens from zero while there
    is nothing to send is advertised at once. *)
Theorem fast_flows_bump_correct (c : dp Q) fid bump_seq rx_bump tx_bump flags nbh ts S T N isn M :
  let fs := c_flowst c fid in
  flow_inv (c_mem c) fs S T N isn M -> fs_tx_len fs <= fs_rx_len fs ->
  0 <= fid < Qman.FLEXNIC_NUM_QMQUEUES -> in32 rx_bump -> in32 tx_bump -> in32 ts ->
  Z.of_nat (length (c_tx c)) < TXBUF_SIZE ->
  qm_ok (c_qman c) -> 0 <= qm_avail (c_qman c) fid < 2147483648 -> pace_ok (fs_tx_rate fs) TCP_MSS ->
  (forall k, fs_tx_avail fs <= k < fs_tx_avail fs + tx_bump ->
    c_mem c (tx_slot fs k) = T (M + k)) ->
  exists ret c', fast_flows_bump c fid bump_seq rx_bump tx_bump flags nbh ts = Done (ret, c') /\
    let fs' := c_flowst c' fid in
    flow_inv (c_mem c') fs' S T N isn M /\ (credit c fid -> credit c' fid) /\
    (if bump_out_of_order (fs_bump_seq fs) bump_seq then c' = c else
     match bump_validate fs rx_bump tx_bump flags with
     | None => ret = -1 /\ c' = set_flow c fid (fs <| fs_bump_seq := bump_seq |>)
     | Some (tb, ta) =>
       fs_tx_avail fs' = fs_tx_avail fs + tb /\ fs_rx_avail fs' = fs_rx_avail fs + rx_bump /\
       (tb = tx_bump \/ tb = 0) /\
       if (tcp_txavail fs' None =? 0) && (fs_rx_avail fs =? 0) && negb (rx_bump =? 0)
       then ret = 0 /\ exists nb, c_tx c' = c_tx c ++ [nb] /\
         seg_headers (nb_pkt nb) fs' (fs_tx_next_seq fs') (fs_rx_next_seq fs') (fs_rx_avail fs') 0
           (fs_tx_next_ts fs') ts false
       else ret = -1 /\ c_tx c' = c_tx c
     end).
Proof.
  intros fs Hinv Hlen Hid Hrb Htb H32 Hroom Hqok Hqa Hpace Hmem. pose proof Hinv as [].
  unfold FastFlows.fast_flows_bump. fold fs.
  destruct (bump_out_of_order (fs_bump_seq fs) bump_seq).
  { exists (-1), c. by split_and!. }
  set (fs0 := fs <| fs_bump_seq := bump_seq |>).
  change (bump_validate fs0 rx_bump tx_bump flags) with (bump_validate fs rx_bump tx_bump flags).
  assert (Hinv0 : flow_inv (c_mem c) fs0 S T N isn M).
  { apply (flow_inv_moved _ fs _ _ _ _ _ M); try done;
      [apply (tx_same_wf shm_len fs); [done|apply fi_tx0|done]|by apply (tx_same_stream _ fs)]. }
  destruct (bump_validate fs rx_bump tx_bump flags) as [[tb ta]|] eqn:Ev.
  2:{ exists (-1), (set_flow c fid fs0). split; [done|]. cbv zeta. rewrite set_flow_self.
      split_and!; try done. unfold credit. by rewrite set_flow_self. }
  destruct (bump_validate_ok fs rx_bump tx_bump flags tb ta) as (V1 & V2 & V3 & V4 & V5 & V6 & V7); try done.
  set (eos := Z.land flags FLEXTCP_PL_ATX_FLTXDONE =? FLEXTCP_PL_ATX_FLTXDONE).
  pose proof (bumped_inv (c_mem c) fs S T N isn M eos bump_seq rx_bump tb Hinv V1 V2 V4 ltac:(lia)
    ltac:(intros k Hk; apply Hmem; lia)) as Hinv'. rewrite <-V3 in Hinv'.
  destruct (bumped_fields fs eos bump_seq rx_bump ta)
    as (E1&E2&E3&E4&E5&E6&E7&E8&E9&E10&E11&E12&E13&E14&E15&E16&E17).
  set (fs1 := if eos && negb (has (fs_rx_base_sp fs0) FLEXNIC_PL_FLOWST_TXFIN)
    then sp_set fs0 FLEXNIC_PL_FLOWST_TXFIN else fs0).
  change (fs1 <| fs_tx_avail := ta |> <| fs_rx_avail := u32 (fs_rx_avail (fs1 <| fs_tx_avail := ta |>) + rx_bump) |>)
    with (bumped fs eos bump_seq rx_bump ta).
  assert (Hr1 : fs_tx_rate fs1 = fs_tx_rate fs /\ fs_rx_avail fs1 = fs_rx_avail fs)
    by (unfold fs1; by destruct (eos && _)).
  destruct Hr1 as [-> Hra1]. change (fs_rx_avail (fs1 <| fs_tx_avail := ta |>)) with (fs_rx_avail fs1).
  rewrite Hra1.
  set (fs' := bumped fs eos bump_seq rx_bump ta) in *. clearbody fs'.
  change (tcp_txavail fs0 None) with (tcp_txavail fs None).
  assert (Enew : tcp_txavail fs0 (Some ta) = tcp_txavail fs' None).
  { unfold tcp_txavail. by rewrite E11, E12, E15. }
  rewrite Enew. pose proof (txavail_u32 shm_len fs fi_tx0) as Ho. pose proof fi_tx0 as [].
  pose proof (txavail_u32 shm_len fs' (fi_tx _ _ _ _ _ _ _ Hinv')) as Hn.
  destruct (qman_add_ok c fid (fs_tx_rate fs) (tcp_txavail fs None) (tcp_txavail fs' None))
    as (q' & -> & Hqok' & Hqa' & Hqo'); try done; try lia.
  cbn [mbind outcome_bind]. pose proof fi_rx0 as [].
  assert (Erx : fs_rx_avail fs' = fs_rx_avail fs + rx_bump) by (rewrite E8, u32_small; lia).
  set (c1 := set_flow (c <| c_qman := q' |>) fid fs').
  assert (Hc1 : c_flowst c1 fid = fs') by apply set_flow_self.
  assert (Hcr : tcp_txavail fs None <= qm_avail (c_qman c) fid -> tcp_txavail fs' None <= qm_avail q' fid) by lia.
  destruct ((tcp_txavail fs' None =? 0) && (fs_rx_avail fs =? 0) && negb (fs_rx_avail fs' =? 0)) eqn:Esend.
  - destruct (flow_tx_segment_ok shm_len fp_xsumoffload eth_addr rte_ipv4_cksum rte_ipv4_udptcp_cksum
      c1 nbh fs' (fs_tx_next_seq fs') (fs_rx_next_seq fs') (fs_rx_avail fs') 0 0 (fs_tx_next_ts fs') ts false)
      as (nb & -> & _ & _ & Hh & _); try done; try lia; try apply Hinv'.
    cbn [mbind outcome_bind]. eexists 0, _. split; [done|]. cbv zeta.
    change (c_flowst (c1 <| c_tx := c_tx c1 ++ [nb] |>) fid) with (c_flowst c1 fid). rewrite Hc1.
    split_and!; try done; try lia.
    + unfold credit. change (c_flowst (c1 <| c_tx := c_tx c1 ++ [nb] |>) fid) with (c_flowst c1 fid).
      rewrite Hc1. exact Hcr.
    + breflect. rewrite (proj2 (Z.eqb_eq _ _)), (proj2 (Z.eqb_eq (fs_rx_avail fs) _)), (proj2 (Z.eqb_neq _ _)) by lia.
      split; [done|]. exists nb. done.
  - exists (-1), c1. split; [done|]. cbv zeta. rewrite Hc1. split_and!; try done; try lia.
    + unfold credit. rewrite Hc1. exact Hcr.
    + destruct ((tcp_txavail fs' None =? 0) && (fs_rx_avail fs =? 0) && negb (rx_bump =? 0)) eqn:E; [|done].
      breflect; lia.
Qed.

End Handlers.
End FastFlowsSpec.
