(* ===== verification/FastFlowsProps.v ===== *)
(** * Fast path: lookups, checks, and concrete runs

    The properties of [FastFlows] beside the main handlers: which packets are taken,
    which flow they belong to, the moving of flows between cores, and runs on concrete
    states: the witnesses of [FastFlowsSpec]'s theorems and the defects found. *)
From S2P Require Import Prelude Memif Packet TcpCommon Qman QmanSpec QmanProps FastCtx.
From S2P Require Import FastFlows FastRx FastTx FastFlowsSpec.

Module FastFlowsProps.
Import Packet TcpCommon FastCtx FastFlows FastRx FastTx FastFlowsSpec.

(** ** A concrete flow, packet and context *)

Definition ex_fs : flowst :=
  mk_flowst 77 0 8192 4096 4096 167772161 167772162 80 4000 99 3 0 0
    4096 4000 1000 65535 0 0 0 2000 500 500 5500 0 0 0 0 0 0 0.

Definition ex_body : Z -> Z := fun i => if i =? 0 then 8 else if i =? 1 then 10 else 0.

Definition ex_pkt (seq ack ip_len wnd : Z) : pkt_tcp :=
  mk_pkt 1 2 ETH_TYPE_IP 4 5 0 ip_len 0 0 64 IP_PROTO_TCP 0 167772162 167772161 4000 80 seq ack 8
    (Z.lor TCP_ACK TCP_PSH) wnd 0 0 ex_body.
Definition ex_nbuf (p : pkt_tcp) : nbuf := mk_nbuf 128 1514 p.

Definition ex_ctx (fs : flowst) (m : memory) : dp Qman.qman_thread :=
  mk_dp 0 (Qman.qman_thread_init 0 0 true) [] [] [] [] (fun _ => fs) (fun _ => 0) m.

Definition zeros : Z -> Z := fun _ => 0.
Definition SHM : Z := 65536.
Definition no_cksum : pkt_tcp -> Z := fun _ => 0.

Lemma ex_flow_inv : flow_inv SHM zeros ex_fs zeros zeros 0 5000 500.
Proof.
  constructor; [| | | |cbn; by left|cbn; lia].
  - constructor; try (cbn; lia); vm_compute; intuition discriminate.
  - constructor; try (cbn; lia); vm_compute; intuition discriminate.
  - by constructor.
  - by constructor.
Qed.

Lemma ex_qman_ok : qm_ok (Qman.qman_thread_init 0 0 true).
Proof. apply QmanProps.qman_thread_init_inv. lia. Qed.

Lemma ex_pace : pace_ok 0 TCP_MSS.
Proof. unfold pace_ok, TCP_MSS. split_and!; try lia. reflexivity. Qed.

Lemma ex_octets : octets ex_body.
Proof. intros i. unfold ex_body. destruct (i =? 0), (i =? 1); lia. Qed.

Lemma fast_flows_qman_sends_witness : exists c' nb,
  fast_flows_qman SHM true 7 no_cksum no_cksum (fun _ _ => true) (ex_ctx ex_fs zeros) 5 (ex_nbuf (ex_pkt 0 0 0 0)) 9
    = Done (0, c') /\ c_tx c' = [nb] /\ tcp_seqno (nb_pkt nb) = 5500 /\ nb_len nb = 1514 /\
  fs_tx_sent (c_flowst c' 5) = 1948 /\ fs_tx_avail (c_flowst c' 5) = 552.
Proof.
  destruct (fast_flows_qman_sends SHM true 7 no_cksum no_cksum (fun _ _ => true) (ex_ctx ex_fs zeros) 5
    (ex_nbuf (ex_pkt 0 0 0 0)) 9 zeros zeros 0 5000 500) as (c' & nb & E & _ & Ha & Hs & _ & _ & Htx & Hl & Hh & _).
  - exact ex_flow_inv.
  - reflexivity.
  - reflexivity.
  - reflexivity.
  - lia.
  - exists c', nb. split; [exact E|]. split; [exact Htx|].
    split; [|split; [rewrite Hl; reflexivity|split; [exact Hs|exact Ha]]].
    exact (proj1 (sg_seq _ _ _ _ _ _ _ _ _ Hh)).
Defined.

Lemma ex_fast_packet : fast_packet (ex_pkt 1000 5100 152 1000) ex_fs 100.
Proof. constructor; try exact ex_octets; try reflexivity; cbn; lia. Qed.

Lemma ex_payload_zero i : 0 <= i < 100 -> payload (ex_pkt 1000 5100 152 1000) i = 0.
Proof.
  intros Hi. unfold payload. cbn. unfold ex_body.
  rewrite !(proj2 (Z.eqb_neq _ _)) by lia. done.
Qed.

(** A segment of 100 bytes, in order and acknowledging 100 bytes. *)
Lemma fast_flows_packet_correct_witness : exists c',
  fast_flows_packet SHM true no_cksum no_cksum (ex_ctx ex_fs zeros) (ex_nbuf (ex_pkt 1000 5100 152 1000)) 5 0 9
    = Done (1, c') /\
  fs_rx_avail (c_flowst c' 5) = 3996 /\ fs_rx_next_seq (c_flowst c' 5) = 1100 /\
  500 - fs_tx_sent (c_flowst c' 5) = 100 /\
  flow_inv SHM (c_mem c') (c_flowst c' 5) zeros zeros 100 5000 500.
Proof.
  destruct (fast_flows_packet_correct SHM true no_cksum no_cksum (ex_ctx ex_fs zeros) 5
    (ex_nbuf (ex_pkt 1000 5100 152 1000)) 0 9 zeros zeros 0 5000 500 100)
    as (ret & c' & E & Hinv & _ & Ha & _ & Hq & _ & _ & _ & _ & _ & _ & Huna & _ & _ & Hack & _).
  - exact ex_flow_inv.
  - exact ex_fast_packet.
  - reflexivity.
  - intros _ i Hi. exact (ex_payload_zero i Hi).
  - lia.
  - lia.
  - reflexivity.
  - exact ex_qman_ok.
  - vm_compute. split; [discriminate|reflexivity].
  - exact ex_pace.
  - exact ex_pace.
  - destruct (Hack ltac:(lia)) as [-> _]. exists c'. split; [exact E|].
    split; [exact Ha|]. split; [exact Hq|]. split; [exact Huna|exact Hinv].
Defined.

Lemma fast_flows_retransmit_correct_witness : exists c',
  fast_flows_retransmit (ex_ctx ex_fs zeros) 5 = Done c' /\ fs_tx_sent (c_flowst c' 5) = 0 /\
  fs_tx_avail (c_flowst c' 5) = 2500 /\
  flow_inv SHM (c_mem c') (c_flowst c' 5) zeros zeros 0 5000 0.
Proof.
  destruct (fast_flows_retransmit_correct SHM
    (ex_ctx ex_fs zeros) 5 zeros zeros 0 5000 500)
    as (c' & E & _ & Hinv & Hs & Ha & _).
  - exact ex_flow_inv.
  - vm_compute. split; [discriminate|reflexivity].
  - exact ex_qman_ok.
  - vm_compute. split; [discriminate|reflexivity].
  - exact ex_pace.
  - exact ex_pace.
  - exists c'. split; [exact E|]. split; [exact Hs|]. split; [exact Ha|exact Hinv].
Defined.

Lemma fast_flows_bump_correct_witness : exists c',
  fast_flows_bump SHM true 7 no_cksum no_cksum (ex_ctx ex_fs zeros) 5 1 0 1000 0 (ex_nbuf (ex_pkt 0 0 0 0)) 9
    = Done (-1, c') /\ fs_tx_avail (c_flowst c' 5) = 3000 /\
  flow_inv SHM (c_mem c') (c_flowst c' 5) zeros zeros 0 5000 500.
Proof.
  destruct (fast_flows_bump_correct SHM true 7 no_cksum no_cksum (fun _ _ => true) (ex_ctx ex_fs zeros) 5 1 0 1000 0
    (ex_nbuf (ex_pkt 0 0 0 0)) 9 zeros zeros 0 5000 500) as (ret & c' & E & Hinv & _ & Hcase).
  - exact ex_flow_inv.
  - cbn. lia.
  - vm_compute. split; [discriminate|reflexivity].
  - lia.
  - lia.
  - lia.
  - reflexivity.
  - exact ex_qman_ok.
  - vm_compute. split; [discriminate|reflexivity].
  - exact ex_pace.
  - reflexivity.
  - change (bump_out_of_order (fs_bump_seq (c_flowst (ex_ctx ex_fs zeros) 5)) 1) with false in Hcase.
    change (bump_validate (c_flowst (ex_ctx ex_fs zeros) 5) 0 1000 0) with (Some (1000, 3000)) in Hcase.
    destruct Hcase as (Ha & _ & _ & Hret). rewrite andb_false_r in Hret. destruct Hret as [-> _].
    exists c'. split; [exact E|]. split; [exact Ha|exact Hinv].
Defined.

(** ** Which packets are taken *)

(** The options in the [n] bytes [opt] from [off] on, as a TCP header has them: where each
    begins, up to the end of the bytes or the end option. *)
Inductive options (opt : Z -> Z) (n : Z) : Z -> list Z -> Prop :=
| options_done off : n <= off -> options opt n off []
| options_end off : off < n -> opt off = TCP_OPT_END_OF_OPTIONS -> options opt n off []
| options_nop off l : off < n -> opt off = TCP_OPT_NO_OP -> options opt n (off + 1) l -> options opt n off (off :: l)
| options_long off l : off + 2 <= n -> opt off <> TCP_OPT_END_OF_OPTIONS -> opt off <> TCP_OPT_NO_OP ->
    (opt off = TCP_OPT_TIMESTAMP -> opt (off + 1) = TCP_TS_OPT_SIZE) ->
    options opt n (off + opt (off + 1)) l -> options opt n off (off :: l).

(** The last timestamp among them. *)
Definition last_ts (opt : Z -> Z) (l : list Z) : option Z := last (filter (fun i => opt i = TCP_OPT_TIMESTAMP) l).

Lemma last_ts_cons opt i l :
  last_ts opt (i :: l) = match last_ts opt l with
                         | Some t => Some t
                         | None => if opt i =? TCP_OPT_TIMESTAMP then Some i else None
                         end.
Proof.
  unfold last_ts. rewrite filter_cons. destruct (Z.eqb_spec (opt i) TCP_OPT_TIMESTAMP) as [E|E].
  - rewrite decide_True by done. by rewrite last_cons.
  - rewrite decide_False by done. by destruct (last _).
Qed.

(** The loop of the parser accepts exactly these option lists. *)
Lemma parse_loop_sound opt n : octets opt -> 0 <= n <= 40 -> forall fuel off acc r, 0 <= off ->
  parse_options_loop fuel opt n off acc = Done (Some r) ->
  exists l, options opt n off l /\ r = match last_ts opt l with Some t => Some t | None => acc end.
Proof.
  intros Ho Hn. induction fuel as [|fuel IH]; intros off acc r Hoff; [done|]. cbn [parse_options_loop].
  destruct (Z.ltb_spec off n) as [Hlt|]; [|intros [= <-]; exists []; split; [by constructor|done]].
  pose proof (Ho off). pose proof (Ho (off + 1)).
  destruct (Z.eqb_spec (opt off) TCP_OPT_END_OF_OPTIONS); [intros [= <-]; exists []; split; [by apply options_end|done]|].
  destruct (Z.eqb_spec (opt off) TCP_OPT_NO_OP) as [E1|].
  { rewrite u16_small by lia. intros (l & Hl & ->)%IH; [|lia]. exists (off :: l). split; [by apply options_nop|].
    rewrite last_ts_cons, E1. by destruct (last_ts opt l). }
  unfold u8. rewrite (Z.mod_small (n - off)) by lia. destruct (Z.ltb_spec (n - off) 2); [done|].
  destruct (Z.eqb_spec (opt off) TCP_OPT_TIMESTAMP) as [Ets|Ets].
  - destruct (Z.eqb_spec (opt (off + 1)) TCP_TS_OPT_SIZE) as [E10|]; cbn [negb]; [|done].
    rewrite u16_small by lia. intros (l & Hl & ->)%IH; [|lia]. exists (off :: l).
    split; [apply options_long; try done; lia|]. rewrite last_ts_cons, Ets. by destruct (last_ts opt l).
  - rewrite u16_small by lia. intros (l & Hl & ->)%IH; [|lia]. exists (off :: l).
    split; [apply options_long; try done; lia|]. rewrite last_ts_cons, (proj2 (Z.eqb_neq _ _) Ets). by destruct (last_ts opt l).
Qed.

Lemma parse_loop_complete opt n off l : octets opt -> 0 <= n <= 40 -> options opt n off l -> 0 <= off ->
  forall fuel acc x, parse_options_loop fuel opt n off acc = Done x ->
  x = Some (match last_ts opt l with Some t => Some t | None => acc end).
Proof.
  intros Ho Hn. induction 1 as [off H|off H E|off l H E Hl IH|off l H E1 E2 E3 Hl IH]; intros Hoff [|fuel] acc x;
    try done; cbn [parse_options_loop]; pose proof (Ho off); pose proof (Ho (off + 1)).
  - rewrite (proj2 (Z.ltb_ge _ _)) by done. by intros [= <-].
  - rewrite (proj2 (Z.ltb_lt _ _)), E by done. by intros [= <-].
  - rewrite (proj2 (Z.ltb_lt _ _)), E by done. cbn [Z.eqb TCP_OPT_NO_OP TCP_OPT_END_OF_OPTIONS Pos.eqb].
    rewrite u16_small by lia. intros ->%IH; [|lia]. rewrite last_ts_cons, E. by destruct (last_ts opt l).
  - rewrite (proj2 (Z.ltb_lt off n)), (proj2 (Z.eqb_neq _ _) E1), (proj2 (Z.eqb_neq _ _) E2) by lia.
    unfold u8. rewrite (Z.mod_small (n - off)), (proj2 (Z.ltb_ge _ 2)) by lia.
    rewrite last_ts_cons, u16_small by lia. destruct (Z.eqb_spec (opt off) TCP_OPT_TIMESTAMP) as [Ets|Ets].
    + rewrite (E3 Ets) at 1. rewrite Z.eqb_refl. cbn [negb]. intros ->%IH; [|lia]. by destruct (last_ts opt l).
    + intros ->%IH; [|lia]. by destruct (last_ts opt l).
Qed.

(** The places in the bytes where an option begins, as far as the lengths tell. *)
Inductive option_at (opt : Z -> Z) (n : Z) : Z -> Prop :=
| option_first : option_at opt n 0
| option_nop off : option_at opt n off -> off < n -> opt off = TCP_OPT_NO_OP -> option_at opt n (off + 1)
| option_long off : option_at opt n off -> off + 2 <= n -> opt off <> TCP_OPT_END_OF_OPTIONS -> opt off <> TCP_OPT_NO_OP ->
    option_at opt n (off + opt (off + 1)).

(** None of them is an option of an unknown kind with the length zero, for which the
    parser does not return. *)
Definition no_empty_option (opt : Z -> Z) (n : Z) : Prop := forall off, option_at opt n off -> off + 2 <= n ->
  opt off <> TCP_OPT_END_OF_OPTIONS -> opt off <> TCP_OPT_NO_OP -> opt (off + 1) <> 0.

Lemma parse_loop_returns opt n : octets opt -> 0 <= n <= 40 -> no_empty_option opt n ->
  forall fuel off acc, option_at opt n off -> 0 <= off -> Z.max 0 (n - off) < Z.of_nat fuel ->
  exists r, parse_options_loop fuel opt n off acc = Done r.
Proof.
  intros Ho Hn Hne. induction fuel as [|fuel IH]; intros off acc Hat Hoff Hf; [lia|]. cbn [parse_options_loop].
  destruct (Z.ltb_spec off n) as [Hlt|]; [|eauto]. pose proof (Ho off). pose proof (Ho (off + 1)).
  destruct (Z.eqb_spec (opt off) TCP_OPT_END_OF_OPTIONS); [eauto|].
  destruct (Z.eqb_spec (opt off) TCP_OPT_NO_OP).
  { rewrite u16_small by lia. apply IH; [by apply option_nop|lia|lia]. }
  unfold u8. rewrite (Z.mod_small (n - off)) by lia. destruct (Z.ltb_spec (n - off) 2); [eauto|].
  assert (Hgo : forall acc, exists r, parse_options_loop fuel opt n (u16 (off + opt (off + 1))) acc = Done r).
  { intros acc'. pose proof (Hne off Hat ltac:(lia) n0 n1). rewrite u16_small by lia.
    apply IH; [apply option_long; try done; lia|lia|lia]. }
  destruct (_ =? TCP_OPT_TIMESTAMP); [destruct (negb _)|]; eauto.
Qed.

(** A TCP/IPv4 packet without IP options, whose headers and everything the IP length claims
    lie inside the buffer. *)
Definition headers_inside (nb : nbuf) : Prop :=
  let p := nb_pkt nb in
  eth_type p = ETH_TYPE_IP /\ ip_proto p = IP_PROTO_TCP /\ ip_v p = 4 /\ ip_hl p = 5 /\ 5 <= tcp_hdrlen p /\
  PKT_TCP_SIZE + (tcp_hdrlen p - 5) * 4 <= nb_len nb /\ ETH_HDR_SIZE + ip_len p <= nb_len nb.

(** C16: Which packets the fast path takes ([fast_flows_packet_parse]).  The check returns
    for every packet that is free of unknown options of length zero, and accepts it if and
    only if it is a TCP/IPv4 packet without IP options, its headers and everything the IP
    length claims lie inside the buffer, and its options can be taken apart and have a
    timestamp option of the right length, whose place (that of the last one) is the
    result.  Nothing else is checked: the IP length may be smaller than the headers
    ([short_ip_length_aborts]), and only the first two bytes of the timestamp option have
    to lie inside the options ([timestamp_option_sticks_out]). *)
Theorem packet_check_exact nb : let p := nb_pkt nb in let n := (tcp_hdrlen p - 5) * 4 in
  octets (p_body p) -> 0 <= tcp_hdrlen p < 16 -> 0 <= ip_len p -> 0 <= nb_len nb < 65536 ->
  no_empty_option (p_body p) n ->
  exists r, packet_check 41 nb = Done r /\ forall ts, r = Some ts <->
    headers_inside nb /\ exists l, options (p_body p) n 0 l /\ last_ts (p_body p) l = Some ts.
Proof.
  intros p n Ho Hh Hip Hl Hz. unfold packet_check. fold p. unfold headers_inside. fold p n. cbv zeta.
  assert (Hp : exists x, tcp_parse_options 41 (tcp_hdrlen p) (nb_len nb) (p_body p) = Done x /\
    (5 <= tcp_hdrlen p -> PKT_TCP_SIZE + n <= nb_len nb -> forall ts, x = Some (Some ts) <->
      exists l, options (p_body p) n 0 l /\ last_ts (p_body p) l = Some ts) /\
    (5 <= tcp_hdrlen p -> PKT_TCP_SIZE <= nb_len nb -> nb_len nb < PKT_TCP_SIZE + n -> x = None)).
  { unfold tcp_parse_options, PKT_TCP_SIZE, TcpCommon.PKT_TCP_SIZE.
    destruct (Z.ltb_spec (tcp_hdrlen p) 5); cbn [orb]; [eexists; split; [done|]; split; lia|].
    assert (En : u16 (tcp_hdrlen p * 4 - 20) = n) by (unfold n; rewrite u16_small; lia). rewrite En.
    destruct (Z.ltb_spec (u64 (nb_len nb - 54)) n) as [H54|H54].
    { exists None. split; [done|]. split; [|done]. intros _ Hle. rewrite u64_small in H54 by lia. lia. }
    destruct (parse_loop_returns (p_body p) n Ho ltac:(unfold n; lia) Hz 41 0 None) as [x E];
      [constructor|lia|unfold n; lia|]. exists x. split; [done|]. split.
    - intros _ _ ts. split.
      + intros ->. destruct (parse_loop_sound (p_body p) n Ho ltac:(unfold n; lia) _ _ _ _ (Z.le_refl 0) E) as (l & Hl1 & E1).
        exists l. split; [done|]. by destruct (last_ts (p_body p) l).
      + intros (l & Hl1 & E1). rewrite (parse_loop_complete (p_body p) n 0 l Ho ltac:(unfold n; lia) Hl1 (Z.le_refl 0) _ _ _ E).
        by rewrite E1.
    - intros _ H1 H2. rewrite u64_small in H54 by lia. lia. }
  destruct Hp as (x & -> & Hx & Hx2). cbn [mbind outcome_bind]. eexists. split; [reflexivity|]. intros ts.
  unfold PKT_TCP_SIZE, ETH_HDR_SIZE in *.
  destruct (_ || _)%bool eqn:Ec.
  - split; [done|]. intros ((E1 & E2 & E3 & E4 & H5 & H6 & H7) & _). unfold n in *. rewrite E1, E2, E3, E4 in Ec.
    breflect; lia.
  - breflect. destruct (Z.lt_ge_cases (nb_len nb) (54 + n)) as [Hlt|Hge].
    + rewrite Hx2 by lia. split; [done|]. lia.
    + specialize (Hx ltac:(lia) ltac:(lia) ts). rewrite <-Hx. split.
      * destruct x as [[t|]|]; try done. intros [= ->]. split; [|done]. split_and!; try done; lia.
      * by intros [_ ->].
Qed.

Lemma packet_check_exact_witness :
  packet_check 41 (ex_nbuf (ex_pkt 1000 5100 152 1000)) = Done (Some 0) /\
  headers_inside (ex_nbuf (ex_pkt 1000 5100 152 1000)).
Proof.
  destruct (packet_check_exact (ex_nbuf (ex_pkt 1000 5100 152 1000))) as (r & E & Hr).
  - exact ex_octets.
  - cbn. lia.
  - cbn. lia.
  - cbn. lia.
  - assert (Hat : forall off, option_at ex_body 12 off -> off = 0 \/ off = 10).
    { induction 1 as [|off _ IH Hlt E|off _ IH Hlt E1 E2]; [by left| |].
      - destruct IH as [->| ->]; discriminate E.
      - destruct IH as [->| ->]; [by right|]. by destruct E1. }
    intros off Ha _ Hne _. destruct (Hat off Ha) as [->| ->]; [done|]. by destruct Hne.
  - assert (E0 : packet_check 41 (ex_nbuf (ex_pkt 1000 5100 152 1000)) = Done (Some 0)) by reflexivity.
    split; [exact E0|]. rewrite E0 in E. injection E as <-. exact (proj1 (proj1 (Hr 0) eq_refl)).
Defined.

(** ** Which flow a packet belongs to *)

(** Probe [j] of hash [h] holds flow [fid] for packet [p]. *)
Definition bucket_hit (flowht : Z -> flowhte) (tbl : Z -> flowst) (p : pkt_tcp) (h j fid : Z) : Prop :=
  let e := flowht (u32 (h + j) mod FLEXNIC_PL_FLOWHT_ENTRIES) in
  Z.land (fe_flow_id e) FLEXNIC_PL_FLOWHTE_VALID <> 0 /\ fe_flow_hash e = h /\ entry_flow_id e = fid /\
  flow_matches (tbl fid) p = true.

Lemma fss_probe_spec flowht tbl p h n : forall j,
  match fss_probe flowht tbl p h j n with
  | Some fid => exists i, j <= i < j + Z.of_nat n /\ bucket_hit flowht tbl p h i fid /\
      forall k g, j <= k < i -> ~ bucket_hit flowht tbl p h k g
  | None => forall k g, j <= k < j + Z.of_nat n -> ~ bucket_hit flowht tbl p h k g
  end.
Proof.
  induction n as [|n IH]; intros j; cbn [fss_probe]; [intros; lia|]. cbv zeta.
  set (e := flowht (u32 (h + j) mod FLEXNIC_PL_FLOWHT_ENTRIES)).
  assert (Hskip : (forall g, ~ bucket_hit flowht tbl p h j g) ->
    match fss_probe flowht tbl p h (j + 1) n with
    | Some fid => exists i, j <= i < j + Z.of_nat (S n) /\ bucket_hit flowht tbl p h i fid /\
        forall k g, j <= k < i -> ~ bucket_hit flowht tbl p h k g
    | None => forall k g, j <= k < j + Z.of_nat (S n) -> ~ bucket_hit flowht tbl p h k g
    end).
  { intros Hj. specialize (IH (j + 1)). destruct (fss_probe _ _ _ _ _ _).
    - destruct IH as (i & Hi & Hh & Hb). exists i. split; [lia|]. split; [done|].
      intros k g Hk. destruct (Z.eq_dec k j) as [->|]; [apply Hj|apply Hb; lia].
    - intros k g Hk. destruct (Z.eq_dec k j) as [->|]; [apply Hj|apply IH; lia]. }
  destruct (Z.eqb_spec (Z.land (fe_flow_id e) FLEXNIC_PL_FLOWHTE_VALID) 0); cbn [orb].
  { apply Hskip. intros g [? _]. done. }
  destruct (Z.eqb_spec (fe_flow_hash e) h); cbn [negb].
  2:{ apply Hskip. intros g (_ & ? & _). done. }
  destruct (flow_matches (tbl (entry_flow_id e)) p) eqn:Em.
  - exists j. split; [lia|]. split; [by split_and!|lia].
  - apply Hskip. intros g (_ & _ & Eg & Hm). fold e in Eg. subst g. by rewrite Em in Hm.
Qed.

(** C17: Flow lookup ([fast_flows_packet_fss]).  For every packet of a batch the result
    is the first of the four probes of its hash whose entry is valid, carries the hash
    and belongs to a flow with the packet's addresses and ports; in particular a flow
    that is found has the packet's 4-tuple, and a packet is left to the slow path only
    when no probe fits. *)
Theorem fast_flows_packet_fss_correct crc32 crc64 flowht tbl nbhs :
  length (fast_flows_packet_fss crc32 crc64 flowht tbl nbhs) = length nbhs /\
  forall i nb, nbhs !! i = Some nb ->
  let p := nb_pkt nb in
  let h := flow_hash crc32 crc64 (packet_key p) in
  exists r, fast_flows_packet_fss crc32 crc64 flowht tbl nbhs !! i = Some r /\
    match r with
    | Some fid => (fs_local_ip (tbl fid) = ip_dest p /\ fs_remote_ip (tbl fid) = ip_src p /\
        fs_local_port (tbl fid) = tcp_dest p /\ fs_remote_port (tbl fid) = tcp_src p) /\
        exists j, 0 <= j < 4 /\ bucket_hit flowht tbl p h j fid /\
          forall k g, 0 <= k < j -> ~ bucket_hit flowht tbl p h k g
    | None => forall k g, 0 <= k < 4 -> ~ bucket_hit flowht tbl p h k g
    end.
Proof.
  split; [apply length_map|]. intros i nb Hi p h. unfold fast_flows_packet_fss.
  eexists. split; [by rewrite list_lookup_fmap, Hi|]. cbv zeta. fold p h.
  pose proof (fss_probe_spec flowht tbl p h FLEXNIC_PL_FLOWHT_NBSZ 0) as Hs.
  change (0 + Z.of_nat FLEXNIC_PL_FLOWHT_NBSZ) with 4 in Hs.
  destruct (fss_probe _ _ _ _ _ _) as [fid|]; [|done].
  destruct Hs as (j & Hj & Hhit & Hfirst). split; [|by exists j].
  destruct Hhit as (_ & _ & _ & Hm). unfold flow_matches in Hm. by breflect.
Qed.

Lemma fast_flows_packet_fss_correct_witness : exists r,
  fast_flows_packet_fss (fun a b => a) (fun a b => b) (fun _ => mk_flowhte 2147483653 262144080) (fun _ => ex_fs)
    [ex_nbuf (ex_pkt 1000 5100 152 1000)] !! 0%nat = Some r.
Proof.
  destruct (fast_flows_packet_fss_correct (fun a b => a) (fun a b => b)
    (fun _ => mk_flowhte 2147483653 262144080) (fun _ => ex_fs) [ex_nbuf (ex_pkt 1000 5100 152 1000)]) as [_ H].
  destruct (H 0%nat (ex_nbuf (ex_pkt 1000 5100 152 1000)) eq_refl) as (r & E & _). by exists r.
Defined.

(** ** Moving a flow to another core *)

(** A flow that is fired on a core it has been moved away from is handed to the
    ring of its new core, which is woken up, its queue is emptied, and nothing is sent;
    when the ring is full the program aborts.  The new core then schedules exactly what
    may be sent, so no byte to send is lost on the way (for flow ids of 16 bits). *)
Theorem flow_migration {Q} `{QueueManager Q} shm x mac ck uck fwd (c c2 : dp Q) fid nbh ts :
  let fs := c_flowst c fid in
  c_steering c (fs_flow_group fs) <> c_id c -> 0 <= fid < 65536 -> qm_ok (c_qman c) ->
  tx_wf shm fs -> c_flowst c2 = c_flowst c -> qm_ok (c_qman c2) -> pace_ok (fs_tx_rate fs) TCP_MSS ->
  (fwd (c_steering c (fs_flow_group fs)) fid = false ->
    fast_flows_qman shm x mac ck uck fwd c fid nbh ts = Aborted) /\
  (fwd (c_steering c (fs_flow_group fs)) fid = true ->
    exists c', fast_flows_qman shm x mac ck uck fwd c fid nbh ts = Done (-1, c') /\
      c_fwd c' = c_fwd c ++ [(c_steering c (fs_flow_group fs), fid)] /\
      c_notified c' = c_notified c ++ [c_steering c (fs_flow_group fs)] /\
      c_flowst c' = c_flowst c /\ c_tx c' = c_tx c /\ qm_avail (c_qman c') fid = 0) /\
  exists c2', fast_flows_qman_fwd c2 fid = Done (0, c2') /\
    qm_avail (c_qman c2') fid = tcp_txavail fs None /\ credit c2' fid.
Proof.
  intros fs Hcore Hfid Hq Hw E2 Hq2 Hp.
  assert (Hid : 0 <= fid < Qman.FLEXNIC_NUM_QMQUEUES) by (unfold Qman.FLEXNIC_NUM_QMQUEUES; lia).
  unfold fast_flows_qman. fold fs. rewrite (proj2 (Z.eqb_neq _ _) Hcore). cbn [negb].
  split; [by intros ->|]. split.
  - intros ->. cbn [negb]. unfold qman_set_or_abort. cbn [c_qman setter].
    destruct (qm_set_law (c_qman c) fid 0 0 0 false) as (q' & E & Hq' & Ha & _); try done.
    change (c_qman (c <| c_fwd := c_fwd c ++ [(c_steering c (fs_flow_group fs), fid)] |>)) with (c_qman c).
    rewrite E. cbn [mbind outcome_bind]. eexists. split; [done|]. by split_and!.
  - unfold fast_flows_qman_fwd. rewrite E2. fold fs. rewrite (u16_small fid) by done.
    pose proof (txavail_u32 shm fs Hw). pose proof Hw as []. unfold qman_set_or_abort.
    destruct (qm_set_law (c_qman c2) fid (fs_tx_rate fs) (tcp_txavail fs None) TCP_MSS false)
      as (q' & -> & Hq' & Ha & _); try done; [lia|].
    cbn [mbind outcome_bind]. eexists. split; [done|]. split; [exact Ha|].
    unfold credit. cbn. rewrite E2. fold fs. rewrite Ha. lia.
Qed.

Lemma flow_migration_witness : exists c',
  fast_flows_qman SHM true 7 no_cksum no_cksum (fun _ _ => true)
    ((ex_ctx ex_fs zeros) <| c_steering := fun _ => 3 |>) 5 (ex_nbuf (ex_pkt 0 0 0 0)) 9 = Done (-1, c') /\
  c_fwd c' = [(3, 5)].
Proof.
  destruct (flow_migration SHM true 7 no_cksum no_cksum (fun _ _ => true)
    ((ex_ctx ex_fs zeros) <| c_steering := fun _ => 3 |>) (ex_ctx ex_fs zeros) 5 (ex_nbuf (ex_pkt 0 0 0 0)) 9)
    as (_ & Hgo & _).
  - discriminate.
  - lia.
  - exact ex_qman_ok.
  - apply ex_flow_inv.
  - reflexivity.
  - exact ex_qman_ok.
  - exact ex_pace.
  - destruct (Hgo eq_refl) as (c' & E & Ef & _). by exists c'.
Defined.

(** ** The order of updates *)

(** Of the 16 bit sequence numbers of application updates, one that is at most
    2^14 ahead of the last accepted one, around the wrap or not, is accepted, and one
    that is 2^15 + 3 or more ahead, that is behind, is refused. *)
Theorem bump_order_window last seq : in16 last -> in16 seq ->
  (u16 (seq - last) <= 16384 -> bump_out_of_order last seq = false) /\
  (32771 <= u16 (seq - last) -> bump_out_of_order last seq = true).
Proof.
  intros Hl Hs. unfold bump_out_of_order, UINT16_MAX.
  change (65535 / 2) with 32767. change (65535 / 4 * 3) with 49149. change (65535 / 4) with 16383.
  split; intros H; unfold u16 in H.
  - apply not_true_iff_false. intros E. breflect; Z.div_mod_to_equations; lia.
  - apply not_false_iff_true. intros E. breflect; Z.div_mod_to_equations; lia.
Qed.

Lemma bump_order_window_witness : bump_out_of_order 65000 100 = false.
Proof. apply (bump_order_window 65000 100); [lia|lia|vm_compute; discriminate]. Defined.

(** ** Defects, on concrete states *)

(** A packet that passes the checks of [fast_flows_packet_parse] but whose IP length
    is smaller than its headers makes [payload_bytes] wrap, and the handler runs into
    the assertion on the receive position: a peer can stop the fast path. *)
Theorem short_ip_length_aborts :
  packet_check 41 (ex_nbuf (ex_pkt 1000 5100 40 1000)) = Done (Some 0) /\
  fast_flows_packet SHM true no_cksum no_cksum (ex_ctx ex_fs zeros) (ex_nbuf (ex_pkt 1000 5100 40 1000)) 5 0 9
    = Aborted.
Proof. split; vm_compute; reflexivity. Qed.

(** The parser only looks at the first two bytes of the timestamp option: it accepts one of
    ten bytes that begins two bytes before the end of the options, and the handler takes
    the timestamps from the payload. *)
Theorem timestamp_option_sticks_out :
  let p := (ex_pkt 1000 5100 144 1000) <| tcp_hdrlen := 6 |>
    <| p_body := fun i => if i <? 2 then TCP_OPT_NO_OP else if i =? 2 then 8 else if i =? 3 then 10 else 0 |> in
  packet_check 41 (ex_nbuf p) = Done (Some 2) /\ (tcp_hdrlen p - 5) * 4 < 2 + TCP_TS_OPT_SIZE.
Proof. split; [vm_compute; reflexivity|reflexivity]. Qed.

(** The flow of [gap_segment_overwrites]: 4000 free bytes from sequence number
    2^32 - 5000 on, 96 unread bytes. *)
Definition ex_gap_fs : flowst :=
  ex_fs <| fs_rx_avail := 4000 |> <| fs_rx_next_seq := 4294962296 |>.
Definition ones : Z -> Z := fun _ => 1.

(** A segment that wraps around the end of the sequence space and starts inside a
    window that ends before it is not cut at the end of the window
    ([tcp_trim_rxbuf_exact]): on this state the handler overwrites bytes the application
    has not read. *)
Theorem gap_segment_overwrites :
  rx_wf SHM ex_gap_fs /\
  exists c', fast_flows_packet SHM true no_cksum no_cksum (ex_ctx ex_gap_fs ones)
      (ex_nbuf (ex_pkt 4294965296 5100 3052 1000)) 5 0 9 = Done (1, c') /\
    ones (rx_slot ex_gap_fs (-1)) = 1 /\ c_mem c' (rx_slot ex_gap_fs (-1)) = 0.
Proof.
  split.
  - constructor; try (cbn; lia); vm_compute; intuition discriminate.
  - eexists. split; [vm_compute; reflexivity|]. split; vm_compute; reflexivity.
Qed.

(** The queue id of a received packet is truncated to 16 bits: bytes that become
    sendable on flow 65543 are announced to the queue of flow 7, and flow 65543 has
    bytes to send that nothing schedules. *)
Theorem flow_id_truncated : exists c',
  fast_flows_packet SHM true no_cksum no_cksum (ex_ctx (ex_fs <| fs_rx_remote_avail := 500 |>) zeros)
    (ex_nbuf (ex_pkt 1000 5000 52 3000)) 65543 0 9 = Done (0, c') /\
  tcp_txavail (c_flowst c' 65543) None = 2000 /\
  qm_avail (c_qman c') 65543 = 0 /\ qm_avail (c_qman c') 7 = 2000.
Proof. eexists. split; [vm_compute; reflexivity|]. split_and!; vm_compute; reflexivity. Qed.

(** [fast_flows_bump] checks the freed receive space against the length of the
    transmit buffer: with a larger transmit buffer an update is accepted after which
    more receive space is available than the buffer has. *)
Theorem bump_checks_wrong_buffer : exists c',
  fast_flows_bump SHM true 7 no_cksum no_cksum (ex_ctx (ex_fs <| fs_tx_len := 8192 |>) zeros) 5 1 4096 0 0
    (ex_nbuf (ex_pkt 0 0 0 0)) 9 = Done (-1, c') /\
  fs_rx_len (c_flowst c' 5) = 4096 /\ fs_rx_avail (c_flowst c' 5) = 8192.
Proof. eexists. split; [vm_compute; reflexivity|]. split; vm_compute; reflexivity. Qed.

End FastFlowsProps.
