(* ===== verification/AppCtx.v ===== *)
(** * Context queues of the fast path ([tas/fast/fast_appctx.c], [tas/fast/fast_kernel.c])

    The queues between the fast path and the applications and the slow path.  A queue is
    a ring of fixed-size entries in shared memory with a type byte; a zero type marks a
    free entry.  The entries are modelled as typed memories, functions from the address
    of an entry to its contents. *)
From S2P Require Import Prelude Memif Packet TcpCommon FastCtx FastFlows.

Module AppCtx.
Import Packet TcpCommon FastCtx FastFlows.

Definition FLEXNIC_PL_APPCTX_NUM : Z := 16.
Definition ATX_SIZE : Z := 16.
Definition ARX_SIZE : Z := 32.
Definition KTX_SIZE : Z := 64.
Definition KRX_SIZE : Z := 64.
Definition FLEXTCP_PL_KTX_PACKET : Z := 1.
Definition FLEXTCP_PL_KTX_CONNRETRAN : Z := 2.
Definition FLEXTCP_PL_KTX_PACKET_NOTS : Z := 3.
Definition FLEXTCP_PL_KRX_PACKET : Z := 1.

(** Application context registers, [struct flextcp_pl_appctx]. *)
Record appctx : Type := mk_appctx {
  ac_rx_base : Z; ac_tx_base : Z; ac_rx_len : Z; ac_tx_len : Z;
  ac_rx_head : Z; ac_tx_head : Z; ac_rx_avail : Z
}.
#[export] Instance eta_appctx : Eta appctx := fun r =>
  mk_appctx (ac_rx_base r) (ac_tx_base r) (ac_rx_len r) (ac_tx_len r) (ac_rx_head r) (ac_tx_head r)
    (ac_rx_avail r).

(** Kernel transmit queue entry, [struct flextcp_pl_ktx]. *)
Record ktx : Type := mk_ktx { ktx_type : Z; ktx_addr : Z; ktx_len : Z; ktx_flow_id : Z }.
#[export] Instance eta_ktx : Eta ktx := fun r =>
  mk_ktx (ktx_type r) (ktx_addr r) (ktx_len r) (ktx_flow_id r).

(** Kernel receive queue entry, [struct flextcp_pl_krx]. *)
Record krx : Type := mk_krx { krx_type : Z; krx_addr : Z; krx_len : Z; krx_fn_core : Z; krx_flow_group : Z }.
#[export] Instance eta_krx : Eta krx := fun r =>
  mk_krx (krx_type r) (krx_addr r) (krx_len r) (krx_fn_core r) (krx_flow_group r).

Definition move_head (head len size : Z) : Z :=
  let h := u32 (head + size) in if len <=? h then u32 (h - len) else h.

Section AppCtx.
Context (shm_len : Z) (fp_xsumoffload : bool) (eth_addr : Z).
Context (rte_ipv4_cksum rte_ipv4_udptcp_cksum : pkt_tcp -> Z).
Context {Q : Type} `{QueueManager Q}.

(** What a core works on: its context, the registers of the application contexts and
    of the kernel context, the entries of the queues, the applications and the slow path
    it has notified, and the count of packets dropped for the slow path. *)
Record core : Type := mk_core {
  k_dp : dp Q;
  k_appctx : Z -> appctx;
  k_kctx : appctx;
  k_atx : Z -> atx;
  k_arx : Z -> arx;
  k_ktx : Z -> ktx;
  k_krx : Z -> krx;
  k_app_notified : list Z;
  k_slow_notified : Z;
  k_kernel_drop : Z
}.
#[export] Instance eta_core : Eta core := fun r =>
  mk_core (k_dp r) (k_appctx r) (k_kctx r) (k_atx r) (k_arx r) (k_ktx r) (k_krx r) (k_app_notified r)
    (k_slow_notified r) (k_kernel_drop r).

(** ** Updates from applications *)

(** [fast_appctx_poll_fetch]: the address of the next entry, [None] for the return
    value -1. *)
Definition fast_appctx_poll_fetch (k : core) (id : Z) : outcome (option Z * core) :=
  let actx := k_appctx k id in
  if ac_tx_len actx =? 0 then Done (None, k) else
  let addr := u64 (ac_tx_base actx + ac_tx_head actx) in
  assert_ (dma_check shm_len addr ATX_SIZE);;
  let e := k_atx k addr in
  if atx_type e =? 0 then Done (None, k)
  else if negb (atx_type e =? FLEXTCP_PL_ATX_CONNUPDATE) then Aborted
  else if FLEXNIC_PL_FLOWST_NUM <=? atx_flow_id e then Aborted
  else
    let actx := actx <| ac_tx_head := move_head (ac_tx_head actx) (ac_tx_len actx) ATX_SIZE |> in
    Done (Some addr, k <| k_appctx := <[id := actx]> (k_appctx k) |>).

(** [fast_appctx_poll_bump]. *)
Definition fast_appctx_poll_bump (k : core) (pqe : Z) (nbh : nbuf) (ts : Z) : outcome (Z * core) :=
  let e := k_atx k pqe in
  '(ret, c) ← fast_flows_bump shm_len fp_xsumoffload eth_addr rte_ipv4_cksum rte_ipv4_udptcp_cksum
    (k_dp k) (atx_flow_id e) (atx_bump_seq e) (atx_rx_bump e) (atx_tx_bump e) (atx_flags e) nbh ts;
  let ret := if negb (ret =? 0) then 1 else ret in
  Done (ret, k <| k_dp := c |> <| k_atx := <[pqe := (k_atx k pqe) <| atx_type := 0 |>]> (k_atx k) |>).

(** ** Notifications to applications *)

(** [fast_actx_rxq_alloc]: the address of the allocated entry, [None] for -1. *)
Definition fast_actx_rxq_alloc (actx : appctx) : outcome (option Z * appctx) :=
  if ac_rx_avail actx =? 0 then Done (None, actx) else
  let addr := u64 (ac_rx_base actx + ac_rx_head actx) in
  assert_ (dma_check shm_len addr ARX_SIZE);;
  Done (Some addr, actx <| ac_rx_head := move_head (ac_rx_head actx) (ac_rx_len actx) ARX_SIZE |>
                        <| ac_rx_avail := u32 (ac_rx_avail actx - ARX_SIZE) |>).

(** The loop of [fast_actx_rxq_probe]: at most [n] more entries. *)
Fixpoint rxq_probe_loop (arxs : Z -> arx) (actx : appctx) (pos : Z) (n : nat) : outcome appctx :=
  match n with
  | O => Done actx
  | S n =>
    if ac_rx_avail actx <? ac_rx_len actx then
      let addr := u64 (ac_rx_base actx + pos) in
      assert_ (dma_check shm_len addr ARX_SIZE);;
      if negb (arx_type (arxs addr) =? 0) then Done actx
      else
        rxq_probe_loop arxs (actx <| ac_rx_avail := u32 (ac_rx_avail actx + ARX_SIZE) |>)
          (move_head pos (ac_rx_len actx) ARX_SIZE) n
    else Done actx
  end.

(** [fast_actx_rxq_probe]. *)
Definition fast_actx_rxq_probe (arxs : Z -> arx) (actx : appctx) : outcome appctx :=
  if ac_rx_len actx / 2 <? ac_rx_avail actx then Done actx
  else
    let pos := u32 (ac_rx_head actx + ac_rx_avail actx) in
    let pos := if ac_rx_len actx <=? pos then u32 (pos - ac_rx_len actx) else pos in
    rxq_probe_loop arxs actx pos (Z.to_nat (2 * BATCH_SIZE)).

(** The first loop of [arx_cache_flush]: allocate an entry for every notification. *)
Fixpoint arx_alloc_all (appctxs : Z -> appctx) (l : list (Z * arx))
    : outcome (list Z * (Z -> appctx)) :=
  match l with
  | [] => Done ([], appctxs)
  | (x, _) :: l =>
    '(a, actx) ← fast_actx_rxq_alloc (appctxs x);
    match a with
    | None => Aborted
    | Some a =>
      '(ps, appctxs) ← arx_alloc_all (<[x := actx]> appctxs) l;
      Done (a :: ps, appctxs)
    end
  end.

(** The loop that writes the entries. *)
Fixpoint arx_write_all (arxs : Z -> arx) (ps : list Z) (l : list (Z * arx)) : Z -> arx :=
  match ps, l with
  | a :: ps, (_, e) :: l => arx_write_all (<[a := e]> arxs) ps l
  | _, _ => arxs
  end.

(** [arx_cache_flush] of [fastemu.c]. *)
Definition arx_cache_flush (k : core) : outcome core :=
  let l := c_arx (k_dp k) in
  '(ps, appctxs) ← arx_alloc_all (k_appctx k) l;
  Done (k <| k_appctx := appctxs |> <| k_arx := arx_write_all (k_arx k) ps l |>
          <| k_app_notified := k_app_notified k ++ l.*1 |>
          <| k_dp := (k_dp k) <| c_arx := [] |> |>).

(** ** The slow path's queues *)

Section Kernel.
(** Reading a packet back from the bytes the slow path wrote, and writing one out: the
    typed view of packet memory. *)
Context (packet_of : memory -> Z -> pkt_tcp) (packet_bytes : pkt_tcp -> Z -> Z).

(** [inject_tcp_ts]. *)
Definition inject_tcp_ts (fuel : nat) (p : pkt_tcp) (len ts : Z) : outcome pkt_tcp :=
  if (len <? Packet.PKT_TCP_SIZE) || negb (eth_type p =? ETH_TYPE_IP) || negb (ip_proto p =? IP_PROTO_TCP)
  then Done p
  else
    r ← tcp_parse_options fuel (tcp_hdrlen p) len (p_body p);
    match r with
    | Some (Some off) =>
      let p := p <| p_body := put_be32 (p_body p) (off + 2) ts |> in
      Done (fast_flows_kernelxsums fp_xsumoffload rte_ipv4_cksum rte_ipv4_udptcp_cksum p)
    | _ => Done p
    end.

(** [fast_kernel_poll]. *)
Definition fast_kernel_poll (fuel : nat) (k : core) (nbh : nbuf) (ts : Z) : outcome (Z * core) :=
  let kctx := k_kctx k in
  if ac_tx_len kctx =? 0 then Done (-1, k) else
  let addr := u64 (ac_tx_base kctx + ac_tx_head kctx) in
  assert_ (dma_check shm_len addr KTX_SIZE);;
  let e := k_ktx k addr in
  if ktx_type e =? 0 then Done (-1, k) else
  '(ret, c) ←
    (if ktx_type e =? FLEXTCP_PL_KTX_PACKET then
       assert_ (dma_check shm_len (ktx_addr e) (ktx_len e));;
       p ← inject_tcp_ts fuel (packet_of (c_mem (k_dp k)) (ktx_addr e)) (ktx_len e) ts;
       c ← tx_send (k_dp k) (nbh <| nb_pkt := p |>) 0 (ktx_len e);
       Done (0, c)
     else if ktx_type e =? FLEXTCP_PL_KTX_PACKET_NOTS then
       assert_ (dma_check shm_len (ktx_addr e) (ktx_len e));;
       c ← tx_send (k_dp k) (nbh <| nb_pkt := packet_of (c_mem (k_dp k)) (ktx_addr e) |>) 0 (ktx_len e);
       Done (0, c)
     else if ktx_type e =? FLEXTCP_PL_KTX_CONNRETRAN then
       if FLEXNIC_PL_FLOWST_NUM <=? ktx_flow_id e then Aborted
       else c ← fast_flows_retransmit (k_dp k) (ktx_flow_id e); Done (1, c)
     else Aborted);
  Done (ret, k <| k_dp := c |> <| k_ktx := <[addr := e <| ktx_type := 0 |>]> (k_ktx k) |>
    <| k_kctx := kctx <| ac_tx_head := move_head (ac_tx_head kctx) (ac_tx_len kctx) KTX_SIZE |> |>).

(** [fast_kernel_packet]; [flow_group] is the result of [network_buf_flowgroup], which
    does not fail. *)
Definition fast_kernel_packet (k : core) (nbh : nbuf) (flow_group : Z) : outcome core :=
  let kctx := k_kctx k in
  if ac_rx_len kctx =? 0 then Done k else
  let addr := u64 (ac_rx_base kctx + ac_rx_head kctx) in
  assert_ (dma_check shm_len addr KRX_SIZE);;
  let e := k_krx k addr in
  if negb (krx_type e =? 0) then Done (k <| k_kernel_drop := u64 (k_kernel_drop k + 1) |>)
  else
    let len := nb_len nbh in
    m ← dma_write shm_len (c_mem (k_dp k)) (krx_addr e) len (packet_bytes (nb_pkt nbh));
    let e := e <| krx_flow_group := flow_group |> <| krx_len := len |>
      <| krx_fn_core := c_id (k_dp k) |> <| krx_type := FLEXTCP_PL_KRX_PACKET |> in
    Done (k <| k_kctx := kctx <| ac_rx_head := move_head (ac_rx_head kctx) (ac_rx_len kctx) KRX_SIZE |> |>
            <| k_dp := (k_dp k) <| c_mem := m |> |> <| k_krx := <[addr := e]> (k_krx k) |>
            <| k_slow_notified := k_slow_notified k + 1 |>).

End Kernel.
End AppCtx.
Arguments core : clear implicits.
End AppCtx.
