(* ===== verification/AppCtxSpec.v ===== *)
(** * Notifications are delivered in order and never overwrite each other

    The proofs about the rings of [AppCtx]. *)
From S2P Require Import Prelude Memif Packet TcpCommon Qman FastCtx FastFlows FastRx FastFlowsProps AppCtx.

Module AppCtxSpec.
Import Packet FastCtx FastRx FastFlowsProps AppCtx.

Section Rings.
Context (shm_len : Z).

(** ** The ring of an application's receive queue *)

Definition arx_slot (x : appctx) (j : Z) : Z :=
  ac_rx_base x + (ac_rx_head x + ARX_SIZE * j) mod ac_rx_len x.

(** [n] entries, of which [a] from the head on are known to be free. *)
Record arx_ring (arxs : Z -> arx) (x : appctx) (n a : Z) : Prop := {
  ar_len : ac_rx_len x = ARX_SIZE * n /\ 0 < n < 33554432;
  ar_head : exists h, ac_rx_head x = ARX_SIZE * h /\ 0 <= h < n;
  ar_avail : ac_rx_avail x = ARX_SIZE * a /\ 0 <= a <= n;
  ar_base : 0 <= ac_rx_base x /\ ac_rx_base x + ac_rx_len x <= shm_len < 18446744073709551616;
  ar_free j : 0 <= j < a -> arx_type (arxs (arx_slot x j)) = 0
}.

(** The registers after [k] allocations. *)
Definition arx_advance (x : appctx) (k : Z) : appctx :=
  x <| ac_rx_head := (ac_rx_head x + ARX_SIZE * k) mod ac_rx_len x |>
    <| ac_rx_avail := ac_rx_avail x - ARX_SIZE * k |>.

Lemma mul_mod_size a n : 0 < n -> (ARX_SIZE * a) mod (ARX_SIZE * n) = ARX_SIZE * (a mod n).
Proof. intros. unfold ARX_SIZE. by rewrite Z.mul_mod_distr_l by lia. Qed.

Lemma arx_slot_at arxs x n a j : arx_ring arxs x n a -> exists h, 0 <= h < n /\
  ac_rx_head x = ARX_SIZE * h /\ arx_slot x j = ac_rx_base x + ARX_SIZE * ((h + j) mod n).
Proof.
  intros [[El Hn] (h & Eh & Hh) _ _ _]. exists h. split_and!; try done; try lia.
  unfold arx_slot. rewrite Eh, El, <-Z.mul_add_distr_l, mul_mod_size by lia. done.
Qed.

Lemma arx_slot_range arxs x n a j : arx_ring arxs x n a ->
  ac_rx_base x <= arx_slot x j /\ arx_slot x j + ARX_SIZE <= ac_rx_base x + ac_rx_len x.
Proof.
  intros Hr. destruct (arx_slot_at _ _ _ _ j Hr) as (h & Hh & _ & ->). destruct Hr as [[-> Hn] _ _ _ _].
  pose proof (Z.mod_pos_bound (h + j) n). unfold ARX_SIZE. lia.
Qed.

Lemma arx_slot_inj arxs x n a i j : arx_ring arxs x n a -> 0 <= i < n -> 0 <= j < n ->
  arx_slot x i = arx_slot x j -> i = j.
Proof.
  intros Hr Hi Hj E. destruct (arx_slot_at _ _ _ _ i Hr) as (h & Hh & Eh & Ei).
  destruct (arx_slot_at _ _ _ _ j Hr) as (h' & Hh' & Eh' & Ej).
  assert (h = h') as <- by (unfold ARX_SIZE in *; lia). rewrite Ei, Ej in E. destruct Hr as [[_ Hn] _ _ _ _].
  apply (mod_shift_inj n h); [lia|unfold ARX_SIZE in *; lia|lia].
Qed.

Lemma arx_slot_advance arxs x n a k j : arx_ring arxs x n a ->
  arx_slot (arx_advance x k) j = arx_slot x (k + j).
Proof.
  intros _. unfold arx_slot, arx_advance. cbn. rewrite Zplus_mod_idemp_l. do 2 f_equal. lia.
Qed.

Lemma arx_advance_ring arxs x n a k : arx_ring arxs x n a -> 0 <= k <= a ->
  arx_ring arxs (arx_advance x k) n (a - k).
Proof.
  intros Hr Hk. pose proof Hr as [[El Hn] (h & Eh & Hh) [Ea Ha] Hb Hf].
  constructor; try done.
  - exists ((h + k) mod n). cbn. rewrite Eh, El, <-Z.mul_add_distr_l, mul_mod_size by lia.
    split; [done|]. apply Z.mod_pos_bound. lia.
  - cbn. rewrite Ea. unfold ARX_SIZE. lia.
  - intros j Hj. rewrite (arx_slot_advance _ _ _ _ _ _ Hr). apply Hf. lia.
Qed.

Lemma move_head_mod arxs x n a : arx_ring arxs x n a -> 0 <= a ->
  move_head (ac_rx_head x) (ac_rx_len x) ARX_SIZE = (ac_rx_head x + ARX_SIZE * 1) mod ac_rx_len x.
Proof.
  intros [[El Hn] (h & Eh & Hh) _ _ _] _. unfold move_head. unfold ARX_SIZE in *.
  rewrite u32_small by lia. rewrite mod_wrap by lia. rewrite Z.mul_1_r.
  destruct (Z.leb_spec (ac_rx_len x) (ac_rx_head x + 32)); [|done]. by rewrite u32_small by lia.
Qed.

Lemma rxq_alloc_ok arxs x n a : arx_ring arxs x n a -> 0 < a ->
  fast_actx_rxq_alloc shm_len x = Done (Some (arx_slot x 0), arx_advance x 1).
Proof.
  intros Hr Ha. pose proof Hr as [[El Hn] (h & Eh & Hh) [Ea Ha'] Hb Hf].
  unfold fast_actx_rxq_alloc. rewrite (proj2 (Z.eqb_neq _ 0)) by (unfold ARX_SIZE in *; lia).
  assert (E0 : arx_slot x 0 = ac_rx_base x + ac_rx_head x).
  { unfold arx_slot. rewrite Z.mul_0_r, Z.add_0_r, Z.mod_small by (unfold ARX_SIZE in *; lia). done. }
  pose proof (arx_slot_range _ _ _ _ 0 Hr) as Hrange. rewrite E0 in Hrange.
  rewrite (u64_small (ac_rx_base x + ac_rx_head x)) by (unfold ARX_SIZE in *; lia).
  unfold dma_check. rewrite u64_small by (unfold ARX_SIZE in *; lia).
  rewrite !(proj2 (Z.leb_le _ _)) by (unfold ARX_SIZE in *; lia). cbn [andb assert_ mbind outcome_bind].
  rewrite <-E0. do 2 f_equal. unfold arx_advance.
  rewrite (move_head_mod _ _ _ _ Hr ltac:(lia)). rewrite u32_small by (unfold ARX_SIZE in *; lia).
  by rewrite Z.mul_1_r.
Qed.

(** ** Allocating entries for all notifications *)

(** How many of the notifications are for context [x]. *)
Definition count (x : Z) (l : list (Z * arx)) : Z :=
  Z.of_nat (length (filter (fun p => p.1 = x) l)).

Lemma count_cons x y e l : count x ((y, e) :: l) = (if decide (y = x) then 1 else 0) + count x l.
Proof. unfold count. rewrite filter_cons. cbn [fst]. case_decide; cbn [length]; lia. Qed.

Lemma count_nonneg x l : 0 <= count x l.
Proof. unfold count. lia. Qed.

Lemma arx_advance_add arxs x n a k : arx_ring arxs x n a ->
  arx_advance (arx_advance x 1) k = arx_advance x (1 + k).
Proof.
  intros _. unfold arx_advance. destruct x as [rb tb rl tl rh th ra]. cbn. rewrite Zplus_mod_idemp_l.
  unfold ARX_SIZE. replace (rh + 32 * 1 + 32 * k) with (rh + 32 * (1 + k)) by lia.
  by replace (ra - 32 * 1 - 32 * k) with (ra - 32 * (1 + k)) by lia.
Qed.

Lemma arx_advance_0 arxs x n a : arx_ring arxs x n a -> arx_advance x 0 = x.
Proof.
  intros [[El Hn] (h & Eh & Hh) _ _ _]. unfold arx_advance. rewrite Z.mul_0_r, Z.add_0_r, Z.sub_0_r.
  rewrite Z.mod_small by (unfold ARX_SIZE in *; lia). by destruct x.
Qed.

(** [D] is the set of contexts in use. *)
Lemma arx_alloc_all_ok arxs (D : Z -> Prop) : forall l xs (n a : Z -> Z),
  (forall x, D x -> arx_ring arxs (xs x) (n x) (a x)) -> (forall x, D x -> count x l <= a x) ->
  Forall (fun p => D p.1) l ->
  exists ps xs', arx_alloc_all shm_len xs l = Done (ps, xs') /\ length ps = length l /\
    (forall i x e, l !! i = Some (x, e) -> ps !! i = Some (arx_slot (xs x) (count x (take i l)))) /\
    (forall x, D x -> xs' x = arx_advance (xs x) (count x l)) /\
    (forall x, count x l = 0 -> xs' x = xs x).
Proof.
  induction l as [|[x e] l IH]; intros xs n a Hr Hc HD; cbn [arx_alloc_all].
  { exists [], xs. split_and!; try done. intros x Hx. by rewrite <-(arx_advance_0 _ _ _ _ (Hr x Hx)) at 1. }
  apply Forall_cons in HD as [Dx HD]. cbn in Dx. pose proof (Hc x Dx) as Hx. rewrite count_cons, decide_True in Hx by done. pose proof (count_nonneg x l).
  rewrite (rxq_alloc_ok _ _ _ _ (Hr x Dx)) by lia. cbn [mbind outcome_bind].
  set (xs1 := <[x := arx_advance (xs x) 1]> xs).
  assert (Hxs1 : forall y, xs1 y = if decide (y = x) then arx_advance (xs x) 1 else xs y).
  { intros y. unfold xs1, insert, fn_insert. repeat case_decide; congruence. }
  destruct (IH xs1 n (fun y => if decide (y = x) then a x - 1 else a y))
    as (ps & xs' & -> & Hl & Hps & Hxs' & Hxs0); [| |done|].
  - intros y Dy. rewrite Hxs1. destruct (decide (y = x)) as [Hd|Hd]; [|by apply Hr].
    subst; apply arx_advance_ring; [by apply Hr|lia].
  - intros y Dy. specialize (Hc y Dy). rewrite count_cons in Hc.
    destruct (decide (y = x)) as [Hd|Hd]; subst.
    + rewrite decide_True in Hc by done. lia.
    + rewrite decide_False in Hc by congruence. lia.
  - cbn [mbind outcome_bind]. exists (arx_slot (xs x) 0 :: ps), xs'. split_and!; try done.
    + cbn. lia.
    + intros [|i] y e' Hi; [by injection Hi as <- <-|]. change (l !! i = Some (y, e')) in Hi.
      change (ps !! i = Some (arx_slot (xs y) (count y ((x, e) :: take i l)))).
      rewrite (Hps i y e' Hi), Hxs1, count_cons. destruct (decide (y = x)) as [Hd|Hd].
      * subst. rewrite decide_True by done. by rewrite (arx_slot_advance _ _ _ _ _ _ (Hr x Dx)).
      * rewrite decide_False by congruence. done.
    + intros y Dy. rewrite Hxs', Hxs1, count_cons by done. destruct (decide (y = x)) as [Hd|Hd].
      * subst. rewrite decide_True by done. by apply (arx_advance_add _ _ _ _ _ (Hr x Dx)).
      * rewrite decide_False by congruence. done.
    + intros y Hy. rewrite count_cons in Hy. pose proof (count_nonneg y l).
      destruct (decide (x = y)) as [->|Hd]; [lia|]. rewrite Hxs0, Hxs1, decide_False by (congruence || lia). done.
Qed.

Lemma arx_write_all_lookup : forall ps l arxs, NoDup ps -> length ps = length l ->
  (forall i p x e, ps !! i = Some p -> l !! i = Some (x, e) -> arx_write_all arxs ps l p = e) /\
  (forall p, p ∉ ps -> arx_write_all arxs ps l p = arxs p).
Proof.
  induction ps as [|p ps IH]; intros [|[x e] l] arxs Hnd Hl; try done.
  apply NoDup_cons in Hnd as [Hp Hnd]. injection Hl as Hl. cbn [arx_write_all].
  destruct (IH l (<[p := e]> arxs) Hnd Hl) as [H1 H2]. split.
  - intros [|i] q y e' Hi Hli; [|by eapply H1]. injection Hi as <-. injection Hli as <- <-.
    rewrite H2 by done. unfold insert, fn_insert. by rewrite decide_True.
  - intros q Hq. rewrite H2 by set_solver. unfold insert, fn_insert. rewrite decide_False; [done|]. set_solver.
Qed.

Lemma count_take x i l : count x (take i l) <= count x l.
Proof.
  unfold count. apply inj_le. rewrite <-(take_drop i l) at 2. rewrite filter_app, length_app. lia.
Qed.

Lemma count_take_lt i j x e e' l : (i < j)%nat -> l !! i = Some (x, e) -> l !! j = Some (x, e') ->
  count x (take i l) < count x (take j l).
Proof.
  intros Hij Hi _. assert (Hs : take j l = take i l ++ (x, e) :: take (j - S i) (drop (S i) l)).
  { rewrite <-(take_drop i (take j l)), take_take, Nat.min_l by lia. f_equal.
    rewrite skipn_firstn_comm. rewrite (drop_S l (x, e) i) by done.
    replace (j - i)%nat with (S (j - S i)) by lia. done. }
  rewrite Hs. unfold count. rewrite filter_app, length_app, filter_cons, decide_True by done. cbn [length]. lia.
Qed.


(** ** Reclaiming the entries the application has read *)

Lemma arx_slot_check arxs x n a j : arx_ring arxs x n a -> 0 <= j ->
  u64 (ac_rx_base x + (ac_rx_head x + ARX_SIZE * j) mod ac_rx_len x) = arx_slot x j /\
  dma_check shm_len (arx_slot x j) ARX_SIZE = true.
Proof.
  intros Hr Hj. pose proof (arx_slot_range _ _ _ _ j Hr) as Hs. pose proof (ar_base _ _ _ _ Hr).
  fold (arx_slot x j). unfold ARX_SIZE in *. split; [apply u64_small; lia|].
  unfold dma_check. rewrite (u64_small (arx_slot x j + 32)) by lia.
  apply andb_true_iff. split; apply Z.leb_le; lia.
Qed.

Lemma arx_more arxs x n a : arx_ring arxs x n a -> a < n -> arx_type (arxs (arx_slot x a)) = 0 ->
  arx_ring arxs (x <| ac_rx_avail := ac_rx_avail x + ARX_SIZE |>) n (a + 1).
Proof.
  intros [Hl Hh [Ea Ha] Hb Hf] Han H0. constructor; try done.
  - cbn. rewrite Ea. unfold ARX_SIZE. lia.
  - intros j Hj. change (arx_type (arxs (arx_slot x j)) = 0).
    destruct (decide (j = a)) as [->|]; [done|]. apply Hf. lia.
Qed.

(** Where the probe stops after at most [m] more entries. *)
Definition probe_stop (arxs : Z -> arx) (x : appctx) (n a a' m : Z) : Prop :=
  a <= a' <= n /\ a' <= a + m /\
  (a' = n \/ a' = a + m \/ arx_type (arxs (arx_slot x a')) <> 0).

Lemma rxq_probe_loop_ok arxs n : forall m x a, arx_ring arxs x n a ->
  exists a', rxq_probe_loop shm_len arxs x ((ac_rx_head x + ARX_SIZE * a) mod ac_rx_len x) m
      = Done (x <| ac_rx_avail := ARX_SIZE * a' |>) /\
    arx_ring arxs (x <| ac_rx_avail := ARX_SIZE * a' |>) n a' /\
    probe_stop arxs x n a a' (Z.of_nat m).
Proof.
  induction m as [|m IH]; intros x a Hr; pose proof Hr as [[El Hn] (h & Eh & Hh) [Ea Ha] Hb Hf];
    cbn [rxq_probe_loop].
  { exists a. rewrite <-Ea. do 2 (split; [by destruct x|]). split; [lia|split; [lia|]]. right. left. lia. }
  destruct (Z.ltb_spec (ac_rx_avail x) (ac_rx_len x)) as [Hlt|Hge].
  2:{ exists a. rewrite <-Ea. do 2 (split; [by destruct x|]). split; [lia|split; [lia|]]. left. unfold ARX_SIZE in *. lia. }
  destruct (arx_slot_check _ _ _ _ a Hr) as [-> ->]; [lia|]. cbn [assert_ mbind outcome_bind].
  destruct (Z.eqb_spec (arx_type (arxs (arx_slot x a))) 0) as [E0|E0]; cbn [negb].
  2:{ exists a. rewrite <-Ea. do 2 (split; [by destruct x|]). split; [lia|split; [lia|]]. right. by right. }
  rewrite u32_small by (unfold ARX_SIZE in *; lia).
  set (x1 := x <| ac_rx_avail := ac_rx_avail x + ARX_SIZE |>).
  assert (Hr1 : arx_ring arxs x1 n (a + 1)) by (apply arx_more; [done|unfold ARX_SIZE in *; lia|done]).
  assert (Ep : move_head ((ac_rx_head x + ARX_SIZE * a) mod ac_rx_len x) (ac_rx_len x) ARX_SIZE
    = (ac_rx_head x1 + ARX_SIZE * (a + 1)) mod ac_rx_len x1).
  { change (ac_rx_head x1) with (ac_rx_head x). change (ac_rx_len x1) with (ac_rx_len x).
    rewrite Eh, El, <-!Z.mul_add_distr_l, !mul_mod_size by lia.
    pose proof (Z.mod_pos_bound (h + a) n). unfold move_head, ARX_SIZE.
    rewrite (u32_small (32 * _ + 32)) by lia.
    assert (E : (h + (a + 1)) mod n = ((h + a) mod n + 1) mod n) by (rewrite Zplus_mod_idemp_l; f_equal; lia).
    rewrite E, (mod_wrap ((h + a) mod n + 1)) by lia.
    destruct (Z.leb_spec (32 * n) (32 * ((h + a) mod n) + 32)), (Z.leb_spec n ((h + a) mod n + 1)); try lia.
    rewrite u32_small by lia. lia. }
  rewrite Ep. destruct (IH x1 (a + 1) Hr1) as (a' & -> & Hr' & Hs1 & Hs2 & Hs3). exists a'.
  split; [by destruct x|]. split; [by destruct x|].
  split; [lia|]. split; [lia|]. destruct Hs3 as [?|[?|?]]; [by left|right; left; lia|by right; right].
Qed.

(** [fast_actx_rxq_probe] reclaims the entries the application has read: the ring
    invariant is kept with at least as many known-free entries, and when at most half of
    the queue is known to be free the probe only stops at the end of the ring, after
    [2 * BATCH_SIZE] entries, or at an entry that the application has not read yet. *)
Theorem fast_actx_rxq_probe_reclaims arxs x n a : arx_ring arxs x n a ->
  exists a', fast_actx_rxq_probe shm_len arxs x = Done (x <| ac_rx_avail := ARX_SIZE * a' |>) /\
    arx_ring arxs (x <| ac_rx_avail := ARX_SIZE * a' |>) n a' /\ a <= a' /\
    (2 * a <= n -> probe_stop arxs x n a a' (2 * BATCH_SIZE)).
Proof.
  intros Hr. pose proof Hr as [[El Hn] (h & Eh & Hh) [Ea Ha] Hb Hf]. unfold fast_actx_rxq_probe.
  destruct (Z.ltb_spec (ac_rx_len x / 2) (ac_rx_avail x)) as [Hlt|Hge].
  - exists a. rewrite <-Ea. split; [by destruct x|]. split; [by destruct x|]. split; [lia|].
    intros H2. exfalso. rewrite El, Ea in Hlt. unfold ARX_SIZE in Hlt. Z.div_mod_to_equations. lia.
  - assert (Ep : (let pos := u32 (ac_rx_head x + ac_rx_avail x) in
        if ac_rx_len x <=? pos then u32 (pos - ac_rx_len x) else pos)
      = (ac_rx_head x + ARX_SIZE * a) mod ac_rx_len x).
    { cbn zeta. rewrite Eh, Ea, El. unfold ARX_SIZE. rewrite (u32_small (32 * h + 32 * a)) by lia.
      rewrite mod_wrap by lia. destruct (Z.leb_spec (32 * n) (32 * h + 32 * a)); [|done].
      by rewrite u32_small by lia. }
    cbn zeta in Ep |- *. rewrite Ep.
    destruct (rxq_probe_loop_ok arxs n (Z.to_nat (2 * BATCH_SIZE)) x a Hr) as (a' & E & Hr' & Hs).
    exists a'. split; [exact E|]. split; [done|]. rewrite Z2Nat.id in Hs by (unfold BATCH_SIZE; lia).
    split; [apply Hs|done].
Qed.

(** ** The flush *)

Context {Q : Type} `{QueueManager Q}.

(** The contexts in use; the rings of different contexts lie apart. *)
Context (D : Z -> Prop).
Definition rings_apart (xs : Z -> appctx) : Prop := forall x y, D x -> D y -> x <> y ->
  ac_rx_base (xs x) + ac_rx_len (xs x) <= ac_rx_base (xs y) \/
  ac_rx_base (xs y) + ac_rx_len (xs y) <= ac_rx_base (xs x).

Lemma arx_slot_apart arxs xs (n a : Z -> Z) x y i j :
  (forall z, D z -> arx_ring arxs (xs z) (n z) (a z)) -> rings_apart xs -> D x -> D y ->
  0 <= i < n x -> 0 <= j < n y -> arx_slot (xs x) i = arx_slot (xs y) j -> x = y /\ i = j.
Proof.
  intros Hr Hap Dx Dy Hi Hj E. destruct (decide (x = y)) as [<-|Hne].
  - split; [done|]. by apply (arx_slot_inj _ _ _ _ _ _ (Hr x Dx)).
  - pose proof (arx_slot_range _ _ _ _ i (Hr x Dx)). pose proof (arx_slot_range _ _ _ _ j (Hr y Dy)).
    specialize (Hap x y Dx Dy Hne). unfold ARX_SIZE in *. lia.
Qed.

(** Entry [i] of the notifications goes to slot [count x (take i l)] of its context. *)
Lemma count_take_bound i x e l : l !! i = Some (x, e) -> 0 <= count x (take i l) < count x l.
Proof.
  intros Hi. split; [apply count_nonneg|]. rewrite <-(take_drop i l) at 2.
  rewrite (drop_S _ _ _ Hi). unfold count. rewrite filter_app, length_app, filter_cons, decide_True by done.
  cbn [length]. lia.
Qed.

Lemma count_slot x j l : 0 <= j < count x l ->
  exists i e, l !! i = Some (x, e) /\ count x (take i l) = j.
Proof.
  revert j. induction l as [|[y e] l IH]; intros j Hj.
  - unfold count in Hj. cbn in Hj. lia.
  - rewrite count_cons in Hj. destruct (decide (y = x)) as [->|Hne].
    + destruct (decide (j = 0)) as [->|Hj0]; [by exists 0%nat, e|].
      destruct (IH (j - 1)) as (i & e' & Hi & Hc); [lia|]. exists (S i), e'. split; [done|].
      cbn [take]. rewrite count_cons, decide_True by done. lia.
    + destruct (IH j) as (i & e' & Hi & Hc); [lia|]. exists (S i), e'. split; [done|].
      cbn [take]. rewrite count_cons, decide_False by done. lia.
Qed.

Lemma alloc_NoDup arxs xs (n a : Z -> Z) l ps :
  (forall x, D x -> arx_ring arxs (xs x) (n x) (a x)) -> rings_apart xs ->
  (forall x, D x -> count x l <= a x) -> Forall (fun p => D p.1) l -> length ps = length l ->
  (forall i x e, l !! i = Some (x, e) -> ps !! i = Some (arx_slot (xs x) (count x (take i l)))) ->
  NoDup ps.
Proof.
  intros Hr Hap Hc HD Hl Hps. apply NoDup_alt. intros i j p Hi Hj.
  assert (Hlk : forall k, ps !! k = Some p -> exists x e, l !! k = Some (x, e)).
  { intros k Hk. apply lookup_lt_Some in Hk. rewrite Hl in Hk.
    destruct (lookup_lt_is_Some_2 l k Hk) as [[x e] ?]. by exists x, e. }
  destruct (Hlk i Hi) as (x & e & Hx). destruct (Hlk j Hj) as (y & e' & Hy).
  pose proof (count_take_bound _ _ _ _ Hx) as Bx. pose proof (count_take_bound _ _ _ _ Hy) as By.
  pose proof (Forall_lookup_1 _ _ _ _ HD Hx) as Dx. pose proof (Forall_lookup_1 _ _ _ _ HD Hy) as Dy.
  cbn in Dx, Dy. pose proof (ar_avail _ _ _ _ (Hr x Dx)) as [_ Ax].
  pose proof (ar_avail _ _ _ _ (Hr y Dy)) as [_ Ay]. pose proof (Hc x Dx). pose proof (Hc y Dy).
  rewrite (Hps _ _ _ Hx) in Hi. rewrite (Hps _ _ _ Hy) in Hj.
  destruct (arx_slot_apart arxs xs n a x y (count x (take i l)) (count y (take j l)) Hr Hap)
    as [<- E]; [done|done|lia|lia|congruence|].
  destruct (Nat.lt_trichotomy i j) as [Hlt|[->|Hlt]]; [|done|].
  - pose proof (count_take_lt _ _ _ _ _ _ Hlt Hx Hy). lia.
  - pose proof (count_take_lt _ _ _ _ _ _ Hlt Hy Hx). lia.
Qed.

(** C15: [arx_cache_flush] delivers every notification: with enough known-free entries it
    does not abort, notification [i] is stored in the next free entry of its context's
    queue, behind the earlier notifications for that context; the entry it takes was free,
    every other entry of every queue is left as it was, and the registers of every
    context again describe a ring whose remaining entries are free. *)
Theorem arx_cache_flush_delivers (k : core Q) (n a : Z -> Z) :
  (forall x, D x -> arx_ring (k_arx k) (k_appctx k x) (n x) (a x)) ->
  rings_apart (k_appctx k) -> Forall (fun p => D p.1) (c_arx (k_dp k)) ->
  (forall x, D x -> count x (c_arx (k_dp k)) <= a x) ->
  exists k', arx_cache_flush shm_len k = Done k' /\
    (forall i x e, c_arx (k_dp k) !! i = Some (x, e) ->
       let p := arx_slot (k_appctx k x) (count x (take i (c_arx (k_dp k)))) in
       k_arx k' p = e /\ arx_type (k_arx k p) = 0) /\
    (forall p, (forall x j, 0 <= j < count x (c_arx (k_dp k)) -> p <> arx_slot (k_appctx k x) j) ->
       k_arx k' p = k_arx k p) /\
    (forall x, D x -> arx_ring (k_arx k') (k_appctx k' x) (n x) (a x - count x (c_arx (k_dp k)))) /\
    (forall x, count x (c_arx (k_dp k)) = 0 -> k_appctx k' x = k_appctx k x) /\
    c_arx (k_dp k') = [] /\ k_app_notified k' = k_app_notified k ++ (c_arx (k_dp k)).*1.
Proof.
  set (l := c_arx (k_dp k)). intros Hr Hap HD Hc. unfold arx_cache_flush. fold l.
  destruct (arx_alloc_all_ok (k_arx k) D l (k_appctx k) n a Hr Hc HD) as (ps & xs' & -> & Hl & Hps & Hxs' & Hxs0).
  pose proof (alloc_NoDup _ _ _ _ _ _ Hr Hap Hc HD Hl Hps) as Hnd.
  destruct (arx_write_all_lookup ps l (k_arx k) Hnd Hl) as [W1 W2].
  assert (Hout : forall p, (forall x j, 0 <= j < count x l -> p <> arx_slot (k_appctx k x) j) ->
    arx_write_all (k_arx k) ps l p = k_arx k p).
  { intros p Hp. apply W2. intros Hin. apply list_elem_of_lookup in Hin as [i Hi].
    pose proof (lookup_lt_Some _ _ _ Hi) as Hlt. rewrite Hl in Hlt.
    destruct (lookup_lt_is_Some_2 l i Hlt) as [[x e] Hx]. rewrite (Hps _ _ _ Hx) in Hi. injection Hi as Hi.
    by apply (Hp x (count x (take i l)) (count_take_bound _ _ _ _ Hx)). }
  eexists. split; [reflexivity|]. cbn [k_arx k_appctx k_dp k_app_notified c_arx setter].
  split; [|split; [exact Hout|split; [|split; [exact Hxs0|done]]]].
  - intros i x e Hx. split; [exact (W1 _ _ _ _ (Hps _ _ _ Hx) Hx)|].
    pose proof (Forall_lookup_1 _ _ _ _ HD Hx) as Dx. cbn in Dx. apply (ar_free _ _ _ _ (Hr x Dx)).
    pose proof (count_take_bound _ _ _ _ Hx). specialize (Hc x Dx). lia.
  - intros x Dx. change (arx_ring (arx_write_all (k_arx k) ps l) (xs' x) (n x) (a x - count x l)).
    rewrite Hxs' by done. pose proof (count_nonneg x l). specialize (Hc x Dx) as Hcx.
    pose proof (arx_advance_ring _ _ _ _ (count x l) (Hr x Dx) ltac:(lia)) as [R1 R2 R3 R4 R5].
    constructor; try done. intros j Hj. rewrite (arx_slot_advance _ _ _ _ _ _ (Hr x Dx)), Hout.
    + apply (ar_free _ _ _ _ (Hr x Dx)). lia.
    + intros y i Hi E. destruct (count_slot y i l Hi) as (i' & e & Hl' & _).
      pose proof (Forall_lookup_1 _ _ _ _ HD Hl') as Dy. cbn in Dy.
      pose proof (ar_avail _ _ _ _ (Hr x Dx)) as [_ ?]. pose proof (ar_avail _ _ _ _ (Hr y Dy)) as [_ ?].
      specialize (Hc y Dy). destruct (arx_slot_apart (k_arx k) (k_appctx k) n a x y (count x l + j) i Hr Hap) as [<- ?]; [done|done|lia|lia|done|lia].
Qed.


(** ** Fetching an update of an application *)

(** [fast_appctx_poll_fetch] on a transmit queue of [n] entries hands out the entry at
    the head only when the application has filled it in, and moves the head to the next
    entry modulo the ring; on a free entry it changes nothing, so an update is neither
    lost nor fetched out of order. *)
Theorem fast_appctx_poll_fetch_fifo (k : core Q) id n h :
  let actx := k_appctx k id in
  let addr := ac_tx_base actx + ATX_SIZE * h in
  let e := k_atx k addr in
  ac_tx_len actx = ATX_SIZE * n -> 0 <= h < n -> n < 67108864 ->
  ac_tx_head actx = ATX_SIZE * h -> 0 <= ac_tx_base actx ->
  ac_tx_base actx + ac_tx_len actx <= shm_len < 18446744073709551616 ->
  (atx_type e = 0 -> fast_appctx_poll_fetch shm_len k id = Done (None, k)) /\
  (atx_type e = FLEXTCP_PL_ATX_CONNUPDATE -> 0 <= atx_flow_id e < FLEXNIC_PL_FLOWST_NUM ->
    exists k', fast_appctx_poll_fetch shm_len k id = Done (Some addr, k') /\
      k_appctx k' id = actx <| ac_tx_head := ATX_SIZE * ((h + 1) mod n) |> /\
      (forall i, i <> id -> k_appctx k' i = k_appctx k i) /\ k_atx k' = k_atx k).
Proof using Type.
  intros actx addr e El Hh Hn Eh Hb Hs. unfold fast_appctx_poll_fetch. fold actx.
  unfold ATX_SIZE in *.
  rewrite (proj2 (Z.eqb_neq (ac_tx_len actx) 0)) by lia. rewrite Eh.
  rewrite (u64_small (ac_tx_base actx + 16 * h)) by lia. fold addr. fold e.
  assert (Hd : dma_check shm_len addr 16 = true).
  { unfold dma_check, addr. rewrite u64_small by lia. apply andb_true_iff. split; apply Z.leb_le; lia. }
  assert (Em : move_head (16 * h) (16 * n) 16 = 16 * ((h + 1) mod n)).
  { unfold move_head. rewrite u32_small by lia. rewrite (mod_wrap (h + 1)) by lia.
    destruct (Z.leb_spec (16 * n) (16 * h + 16)), (Z.leb_spec n (h + 1)); try lia.
    rewrite u32_small by lia. lia. }
  rewrite Hd. cbn [assert_ mbind outcome_bind]. split; [by intros ->|].
  intros -> Hf. cbn [negb Z.eqb FLEXTCP_PL_ATX_CONNUPDATE Pos.eqb].
  rewrite (proj2 (Z.leb_gt _ _)) by lia. eexists. split; [reflexivity|]. split_and!; try done.
  - cbn. unfold insert, fn_insert. rewrite decide_True by done.
    by rewrite El, Em.
  - intros i Hi. cbn. unfold insert, fn_insert. by rewrite decide_False.
Qed.

End Rings.

(** ** Two contexts with a queue of four entries each *)

Definition ex_arx (flow : Z) : arx := mk_arx FLEXTCP_PL_ARX_CONNUPDATE flow 100 0 0 0.
Definition ex_appctx (x : Z) : appctx := mk_appctx (4096 + 128 * x) 8192 128 64 96 16 64.
Definition ex_core : core Qman.qman_thread :=
  mk_core ((ex_ctx ex_fs zeros) <| c_arx := [(0, ex_arx 7); (1, ex_arx 8); (0, ex_arx 9)] |>)
    ex_appctx (ex_appctx 9) (fun a => if a =? 8208 then mk_atx 1 100 200 5 1 0 else mk_atx 0 0 0 0 0 0)
    (fun _ => mk_arx 0 0 0 0 0 0) (fun _ => mk_ktx 0 0 0 0) (fun _ => mk_krx 0 0 0 0 0) [] 0 0.
Definition ex_contexts (x : Z) : Prop := x = 0 \/ x = 1.

Lemma ex_ring x : ex_contexts x -> arx_ring SHM (k_arx ex_core) (ex_appctx x) 4 2.
Proof.
  intros Hx. assert (0 <= x <= 1) by (unfold ex_contexts in Hx; lia). constructor; try done.
  - exists 3. split; [done|lia].
  - cbn. unfold SHM. lia.
Qed.

Lemma arx_cache_flush_delivers_witness : exists k', arx_cache_flush SHM ex_core = Done k' /\
  k_arx k' 4192 = ex_arx 7 /\ k_arx k' 4320 = ex_arx 8 /\ k_arx k' 4096 = ex_arx 9 /\
  arx_ring SHM (k_arx k') (k_appctx k' 0) 4 0.
Proof.
  destruct (arx_cache_flush_delivers SHM ex_contexts ex_core (fun _ => 4) (fun _ => 2))
    as (k' & E & Hd & _ & Hr & _).
  - intros x Hx. exact (ex_ring x Hx).
  - intros x y [->| ->] [->| ->] Hne; try (exfalso; by apply Hne); cbn; lia.
  - repeat apply Forall_cons_2; try apply Forall_nil_2; unfold ex_contexts; cbn; lia.
  - intros x [->| ->]; vm_compute; discriminate.
  - exists k'. split; [exact E|].
    split; [exact (proj1 (Hd 0%nat 0 (ex_arx 7) eq_refl))|].
    split; [exact (proj1 (Hd 1%nat 1 (ex_arx 8) eq_refl))|].
    split; [exact (proj1 (Hd 2%nat 0 (ex_arx 9) eq_refl))|].
    exact (Hr 0 (or_introl eq_refl)).
Defined.

Lemma fast_actx_rxq_probe_reclaims_witness : exists a',
  fast_actx_rxq_probe SHM (k_arx ex_core) (ex_appctx 0) = Done ((ex_appctx 0) <| ac_rx_avail := ARX_SIZE * a' |>)
  /\ probe_stop (k_arx ex_core) (ex_appctx 0) 4 2 a' (2 * BATCH_SIZE).
Proof.
  destruct (fast_actx_rxq_probe_reclaims SHM (k_arx ex_core) (ex_appctx 0) 4 2
    (ex_ring 0 (or_introl eq_refl))) as (a' & E & _ & _ & Hs).
  exists a'. split; [exact E|]. apply Hs. lia.
Defined.

Lemma fast_appctx_poll_fetch_fifo_witness : exists k',
  fast_appctx_poll_fetch SHM ex_core 0 = Done (Some 8208, k') /\ ac_tx_head (k_appctx k' 0) = 32.
Proof.
  destruct (fast_appctx_poll_fetch_fifo SHM ex_core 0 4 1) as [_ Hf].
  - reflexivity.
  - lia.
  - lia.
  - reflexivity.
  - cbn. lia.
  - cbn. unfold SHM. lia.
  - destruct Hf as (k' & E & Ha & _); [reflexivity|vm_compute; split; [discriminate|reflexivity]|].
    exists k'. split; [exact E|]. rewrite Ha. reflexivity.
Defined.

End AppCtxSpec.
