(* ===== verification/Reta.v ===== *)
(** * Flow steering and the scaling of the fast path ([tas/fast/network.c])

    The redirection table of the NIC sends every flow group to the receive queue of one
    core.  When the number of cores changes, [network_scale_up] and
    [network_scale_down] move flow groups and keep the NIC's table, the counts per core
    and the steering table of the fast path in step. *)
From S2P Require Import Prelude.

Module Reta.

Definition RTE_RETA_GROUP_SIZE : Z := 64.
Definition UINT8_MAX : Z := 255.

(** The state: [r_reta k] is entry [k % 64] of group [k / 64], [r_mask] the update mask
    of every group, [r_buckets] the number of flow groups of every core. *)
Record rss : Type := mk_rss {
  r_reta : Z -> Z;
  r_mask : Z -> Z;
  r_buckets : Z -> Z;
  r_steering : Z -> Z
}.
#[export] Instance eta_rss : Eta rss := fun r =>
  mk_rss (r_reta r) (r_mask r) (r_buckets r) (r_steering r).

(** The loops over cores, from core [i] on with [n] cores left. *)
Fixpoint core_min_loop (b : Z -> Z) (i i_min v_min : Z) (n : nat) : Z :=
  match n with
  | O => i_min
  | S n => if b i <? v_min then core_min_loop b (i + 1) i (b i) n
           else core_min_loop b (i + 1) i_min v_min n
  end.
Definition core_min (b : Z -> Z) (num : Z) : Z := core_min_loop b 0 0 UINT8_MAX (Z.to_nat num).

Fixpoint core_max_loop (b : Z -> Z) (i i_max v_max : Z) (n : nat) : Z :=
  match n with
  | O => i_max
  | S n => if v_max <=? b i then core_max_loop b (i + 1) i (b i) n
           else core_max_loop b (i + 1) i_max v_max n
  end.
Definition core_max (b : Z -> Z) (num : Z) : Z := core_max_loop b 0 0 0 (Z.to_nat num).

Section Scale.
Context (rss_reta_size : Z).
(** [rte_eth_dev_rss_reta_update]: whether the driver accepts the table and the mask. *)
Context (reta_update : (Z -> Z) -> (Z -> Z) -> bool).

Definition clear_mask (r : rss) : rss :=
  r <| r_mask := fun g => if g <? (rss_reta_size + RTE_RETA_GROUP_SIZE - 1) / RTE_RETA_GROUP_SIZE
                          then 0 else r_mask r g |>.

(** Redirect flow group [k] to core [j]: the three tables, and the counts of the core it
    leaves ([c]) and of [j]. *)
Definition set_group (r : rss) (k j : Z) : rss :=
  let outer := k / RTE_RETA_GROUP_SIZE in
  let inner := k mod RTE_RETA_GROUP_SIZE in
  r <| r_mask := <[outer := Z.lor (r_mask r outer) (Z.shiftl 1 inner)]> (r_mask r) |>
    <| r_reta := <[k := j]> (r_reta r) |>
    <| r_steering := <[k := u8 j]> (r_steering r) |>.
Definition move_bucket (b : Z -> Z) (c j : Z) : Z -> Z :=
  let b := <[c := u16 (b c - 1)]> b in <[j := u16 (b j + 1)]> b.

(** The inner loop of [network_scale_up]: from [k] on, the next entry of core [c]. *)
Fixpoint find_group (reta : Z -> Z) (c k : Z) (fuel : nat) : outcome Z :=
  match fuel with
  | O => NoFuel
  | S fuel => if reta k =? c then Done k else find_group reta c ((k + 1) mod rss_reta_size) fuel
  end.

(** One round of the loop over [i]: a flow group of the fullest of the first [old] cores
    goes to core [j]. *)
Definition scale_up_one (fuel : nat) (old j : Z) (s : rss * Z) : outcome (rss * Z) :=
  let '(r, k) := s in
  let c := core_max (r_buckets r) old in
  k ← find_group (r_reta r) c k fuel;
  let r := set_group r k j in
  Done (r <| r_buckets := move_bucket (r_buckets r) c j |>, k).

Fixpoint scale_up_share (fuel : nat) (old j : Z) (n : nat) (s : rss * Z) : outcome (rss * Z) :=
  match n with
  | O => Done s
  | S n => s ← scale_up_one fuel old j s; scale_up_share fuel old j n s
  end.

Fixpoint scale_up_cores (fuel : nat) (old share j : Z) (n : nat) (s : rss * Z) : outcome (rss * Z) :=
  match n with
  | O => Done s
  | S n => s ← scale_up_share fuel old j (Z.to_nat share) s;
           scale_up_cores fuel old share (j + 1) n s
  end.

(** [network_scale_up]: [true] is the return value 0. *)
Definition network_scale_up (fuel : nat) (r : rss) (old new : Z) : outcome (bool * rss) :=
  let share := rss_reta_size / new in
  '(r, _) ← scale_up_cores fuel old share old (Z.to_nat (new - old)) (clear_mask r, 0);
  Done (reta_update (r_reta r) (r_mask r), r).

(** The loop of [network_scale_down], from entry [i] on with [n] entries left. *)
Fixpoint scale_down_loop (new i : Z) (n : nat) (r : rss) : rss :=
  match n with
  | O => r
  | S n =>
    let o_c := r_reta r i in
    let r :=
      if new <=? o_c then
        let n_c := core_min (r_buckets r) new in
        (set_group r i n_c) <| r_buckets := move_bucket (r_buckets r) o_c n_c |>
      else r in
    scale_down_loop new (i + 1) n r
  end.

(** [network_scale_down]. *)
Definition network_scale_down (r : rss) (old new : Z) : bool * rss :=
  let r := scale_down_loop new 0 (Z.to_nat rss_reta_size) (clear_mask r) in
  (reta_update (r_reta r) (r_mask r), r).

(** The loop of [reta_setup]; all counts are zero before ([rte_calloc]). *)
Fixpoint reta_setup_loop (fp_cores_cur i c : Z) (n : nat) (r : rss) : rss :=
  match n with
  | O => r
  | S n =>
    reta_setup_loop fp_cores_cur (i + 1) ((c + 1) mod fp_cores_cur) n
      (r <| r_buckets := <[c := u16 (r_buckets r c + 1)]> (r_buckets r) |>
         <| r_mask := <[i / RTE_RETA_GROUP_SIZE := u64 (-1)]> (r_mask r) |>
         <| r_reta := <[i := c]> (r_reta r) |>
         <| r_steering := <[i := u8 c]> (r_steering r) |>)
  end.

Definition FLEXNIC_PL_MAX_FLOWGROUPS : Z := 4096.

(** [reta_setup], after the allocations succeeded. *)
Definition reta_setup (steering : Z -> Z) (fp_cores_cur : Z) : outcome (bool * rss) :=
  if FLEXNIC_PL_MAX_FLOWGROUPS <? rss_reta_size then Aborted else
  let r := reta_setup_loop fp_cores_cur 0 0 (Z.to_nat rss_reta_size)
    (mk_rss (fun _ => 0) (fun _ => 0) (fun _ => 0) steering) in
  Done (reta_update (r_reta r) (r_mask r), r).

(** [poll_scale] of [fastemu.c]: [cur] and [st] are [fp_cores_cur] and [fp_scale_to]. *)
Definition poll_scale (fuel : nat) (r : rss) (cur st : Z) : outcome (rss * Z * Z) :=
  if st =? 0 then Done (r, cur, st) else
  r ← (if st <? cur then
         let '(ok, r) := network_scale_down r cur st in assert_ ok;; Done r
       else if cur <? st then
         '(ok, r) ← network_scale_up fuel r cur st; assert_ ok;; Done r
       else Done r);
  Done (r, st, 0).

End Scale.
End Reta.
