(* ===== verification/RetaSpec.v ===== *)
(** * Scaling keeps the steering tables in step

    The proofs about [Reta]: whatever the number of cores, the table of the NIC, the
    counts and the steering table agree, scaling up terminates and gives every new core
    its share, and only the flow groups that have to move are moved. *)
From S2P Require Import Prelude Reta.

Module RetaSpec.
Import Reta.

Section Scale.
Context (size : Z).

(** ** Counting flow groups *)

Definition cnt (f : Z -> Z) (c : Z) : Z := Z.of_nat (length (filter (fun k => f k = c) (seqZ 0 size))).

Lemma filter_insert_length (f : Z -> Z) k j c (L : list Z) : NoDup L ->
  Z.of_nat (length (filter (fun x => (<[k := j]> f) x = c) L)) =
  Z.of_nat (length (filter (fun x => f x = c) L))
    + (if decide (k ∈ L) then (if decide (j = c) then 1 else 0) - (if decide (f k = c) then 1 else 0) else 0).
Proof.
  induction L as [|y L IH]; intros Hnd; [done|].
  apply NoDup_cons in Hnd as [Hy Hnd]. specialize (IH Hnd). rewrite !filter_cons.
  assert (Hi : (<[k := j]> f) y = if decide (k = y) then j else f y) by done.
  destruct (decide (k = y)) as [<-|Hky].
  - rewrite (decide_False (P := k ∈ L)) in IH by done.
    rewrite (decide_True (P := k ∈ k :: L)) by set_solver.
    destruct (decide ((<[k := j]> f) k = c)), (decide (f k = c)), (decide (j = c)); cbn [length];
      first [lia | congruence].
  - assert (E : (if decide (k ∈ L) then (if decide (j = c) then 1 else 0) - (if decide (f k = c) then 1 else 0) else 0)
      = (if decide (k ∈ y :: L) then (if decide (j = c) then 1 else 0) - (if decide (f k = c) then 1 else 0) else 0)).
    { destruct (decide (k ∈ L)), (decide (k ∈ y :: L)); try done; set_solver. }
    rewrite <-E. destruct (decide ((<[k := j]> f) y = c)), (decide (f y = c)); cbn [length];
      first [lia | congruence].
Qed.

Lemma cnt_insert f k j c : 0 <= k < size ->
  cnt (<[k := j]> f) c = cnt f c + (if decide (j = c) then 1 else 0) - (if decide (f k = c) then 1 else 0).
Proof.
  intros Hk. unfold cnt. rewrite filter_insert_length by apply NoDup_seqZ.
  rewrite decide_True by (apply elem_of_seqZ; lia). lia.
Qed.

Lemma cnt_nonneg f c : 0 <= cnt f c.
Proof. unfold cnt. lia. Qed.
Lemma cnt_le f c : 0 <= size -> cnt f c <= size.
Proof.
  intros Hs. unfold cnt. pose proof (length_filter (fun k => f k = c) (seqZ 0 size)) as Hl.
  rewrite length_seqZ in Hl. lia.
Qed.

Lemma cnt_pos f c : 0 < cnt f c <-> exists k, 0 <= k < size /\ f k = c.
Proof.
  unfold cnt. split.
  - intros Hp. destruct (filter _ _) as [|k L] eqn:E; [cbn in Hp; lia|].
    assert (Hin : k ∈ filter (fun k => f k = c) (seqZ 0 size)) by (rewrite E; set_solver).
    apply list_elem_of_filter in Hin as [<- Hin]. apply elem_of_seqZ in Hin. exists k. split; [lia|done].
  - intros (k & Hk & Hf). assert (Hin : k ∈ filter (fun k => f k = c) (seqZ 0 size)).
    { apply list_elem_of_filter. split; [done|]. apply elem_of_seqZ. lia. }
    destruct (filter _ _) as [|y L]; [by apply elem_of_nil in Hin|cbn; lia].
Qed.

(** ** The invariant while groups are moved: [r0] is the state before *)

Definition masked (m : Z -> Z) (k : Z) : bool :=
  Z.testbit (m (k / RTE_RETA_GROUP_SIZE)) (k mod RTE_RETA_GROUP_SIZE).

Record moved (r0 r : rss) (cores : Z) : Prop := {
  mv_size : 0 < size <= 4096;
  mv_range k : 0 <= k < size -> 0 <= r_reta r k < cores;
  mv_cnt c : r_buckets r c = cnt (r_reta r) c;
  mv_steer k : 0 <= k < size -> r_steering r k = r_reta r k;
  mv_mask k : 0 <= k < size -> r_reta r k = r_reta r0 k \/ masked (r_mask r) k = true
}.

(** The tables agree, and all flow groups belong to the first [cores] cores. *)
Definition reta_ok (r : rss) (cores : Z) : Prop := moved r r cores.

Lemma masked_set m k k' : 0 <= k -> 0 <= k' ->
  masked (<[k / RTE_RETA_GROUP_SIZE :=
    Z.lor (m (k / RTE_RETA_GROUP_SIZE)) (Z.shiftl 1 (k mod RTE_RETA_GROUP_SIZE))]> m) k'
  = masked m k' || (k' =? k).
Proof.
  intros Hk Hk'. unfold masked, insert, fn_insert, RTE_RETA_GROUP_SIZE.
  pose proof (Z.div_mod k 64). pose proof (Z.div_mod k' 64).
  pose proof (Z.mod_pos_bound k 64). pose proof (Z.mod_pos_bound k' 64).
  case_decide as Hd.
  - rewrite Hd, Z.lor_spec, Z.shiftl_spec by lia. f_equal.
    destruct (Z.eqb_spec k' k) as [->|Hne]; [by rewrite Z.sub_diag|].
    destruct (Z_lt_le_dec (k' mod 64) (k mod 64)); [apply Z.testbit_neg_r; lia|].
    apply Z.bits_above_log2; cbn; lia.
  - destruct (Z.eqb_spec k' k) as [->|]; [done|]. by rewrite orb_false_r.
Qed.

Lemma move_bucket_spec b f c j k : 0 < size <= 4096 -> (forall x, b x = cnt f x) ->
  0 <= k < size -> f k = c -> c <> j -> forall x, move_bucket b c j x = cnt (<[k := j]> f) x.
Proof.
  intros Hs Hb Hk <- Hne x. rewrite cnt_insert by done. unfold move_bucket, insert, fn_insert.
  assert (0 < cnt f (f k)) by (apply cnt_pos; by exists k).
  pose proof (cnt_le f (f k)). pose proof (cnt_le f j). pose proof (cnt_nonneg f j).
  rewrite (decide_False (P := f k = j)) by done.
  destruct (decide (j = x)) as [<-|].
  - rewrite (decide_False (P := f k = j)), Hb, u16_small by (done || lia). lia.
  - destruct (decide (f k = x)) as [<-|]; rewrite Hb; [rewrite u16_small by lia|]; lia.
Qed.

Lemma set_group_moved r0 r cores k j : moved r0 r cores -> cores <= 256 -> 0 <= k < size ->
  0 <= j < cores -> r_reta r k <> j ->
  moved r0 ((set_group r k j) <| r_buckets := move_bucket (r_buckets r) (r_reta r k) j |>) cores.
Proof.
  intros [Hs Hr Hc Ht Hm] H256 Hk Hj Hne. constructor; cbn; [done| | | |].
  - intros x Hx. unfold insert, fn_insert. case_decide; [done|by apply Hr].
  - by apply move_bucket_spec.
  - intros x Hx. unfold insert, fn_insert. case_decide; [unfold u8; by rewrite Z.mod_small by lia|by apply Ht].
  - intros x Hx. rewrite masked_set by lia. unfold insert, fn_insert.
    destruct (decide (k = x)) as [<-|].
    + right. by rewrite Z.eqb_refl, orb_true_r.
    + destruct (Hm x Hx) as [?| ->]; [by left|by right].
Qed.

Lemma clear_mask_moved r cores : reta_ok r cores -> moved r (clear_mask size r) cores.
Proof. intros [Hs Hr Hc Ht Hm]. constructor; cbn; try done. intros k Hk. by left. Qed.

Lemma moved_ok r0 r cores : moved r0 r cores -> reta_ok r cores.
Proof. intros []. constructor; try done. intros; by left. Qed.

(** ** The emptiest and the fullest core *)

Lemma core_min_loop_ok b : forall n i m v, 0 <= m < i -> v <= UINT8_MAX ->
  (forall x, 0 <= x < i -> v <= b x) -> (v < UINT8_MAX -> v = b m) ->
  let c := core_min_loop b i m v n in
  0 <= c < i + Z.of_nat n /\
  ((exists x, 0 <= x < i + Z.of_nat n /\ b x < UINT8_MAX) -> forall x, 0 <= x < i + Z.of_nat n -> b c <= b x).
Proof.
  induction n as [|n IH]; intros i m v Hm Hv Hlow Hb; cbn [core_min_loop].
  { cbn zeta. split; [lia|]. intros (y & Hy & Hby) x Hx. rewrite Z.add_0_r in *.
    rewrite <-Hb; [by apply Hlow|]. specialize (Hlow y Hy). lia. }
  replace (i + Z.of_nat (S n)) with (i + 1 + Z.of_nat n) by lia.
  destruct (Z.ltb_spec (b i) v).
  - apply IH; [lia|lia| |done]. intros x Hx. destruct (decide (x = i)) as [->|]; [lia|].
    specialize (Hlow x). lia.
  - apply IH; [lia|lia| |done]. intros x Hx. destruct (decide (x = i)) as [->|]; [lia|]. apply Hlow. lia.
Qed.

Lemma core_min_range b num : 0 < num -> 0 <= core_min b num < num.
Proof.
  intros Hn. unfold core_min. destruct (Z.to_nat num) as [|n] eqn:En; [lia|]. cbn [core_min_loop].
  change (0 + 1) with 1. destruct (Z.ltb_spec (b 0) UINT8_MAX).
  - destruct (core_min_loop_ok b n 1 0 (b 0)) as [? _]; try lia.
    intros x Hx. replace x with 0 by lia. lia.
  - destruct (core_min_loop_ok b n 1 0 UINT8_MAX) as [? _]; try lia.
    intros x Hx. replace x with 0 by lia. lia.
Qed.

Lemma core_max_loop_ok b : (forall x, 0 <= b x) -> forall n i m v, 0 <= m < i ->
  (forall x, 0 <= x < i -> b x <= v) -> v = b m ->
  let c := core_max_loop b i m v n in
  0 <= c < i + Z.of_nat n /\ forall x, 0 <= x < i + Z.of_nat n -> b x <= b c.
Proof.
  intros Hpos. induction n as [|n IH]; intros i m v Hm Hup ->; cbn [core_max_loop].
  { cbn zeta. rewrite Z.add_0_r. split; [lia|done]. }
  replace (i + Z.of_nat (S n)) with (i + 1 + Z.of_nat n) by lia.
  destruct (Z.leb_spec (b m) (b i)).
  - apply IH; [lia| |done]. intros x Hx. destruct (decide (x = i)) as [->|]; [lia|].
    specialize (Hup x). lia.
  - apply IH; [lia| |done]. intros x Hx. destruct (decide (x = i)) as [->|]; [lia|]. apply Hup. lia.
Qed.

Lemma core_max_ok b num : (forall x, 0 <= b x) -> 0 < num ->
  0 <= core_max b num < num /\ forall x, 0 <= x < num -> b x <= b (core_max b num).
Proof.
  intros Hpos Hn. unfold core_max. destruct (Z.to_nat num) as [|n] eqn:En; [lia|]. cbn [core_max_loop].
  rewrite (proj2 (Z.leb_le 0 _)) by apply Hpos. replace num with (0 + 1 + Z.of_nat n) by lia.
  apply core_max_loop_ok; [done|lia| |done]. intros x Hx. replace x with 0 by lia. lia.
Qed.


(** ** Scaling up *)

Lemma find_group_ok f c : forall fuel k d, 0 <= k < size -> 0 <= d < Z.of_nat fuel ->
  f ((k + d) mod size) = c -> exists k', find_group size f c k fuel = Done k' /\ 0 <= k' < size /\ f k' = c.
Proof.
  induction fuel as [|fuel IH]; intros k d Hk Hd Hf; [lia|]. cbn [find_group].
  destruct (Z.eqb_spec (f k) c) as [E|E]; [by exists k|].
  destruct (decide (d = 0)) as [->|]; [rewrite Z.add_0_r, Z.mod_small in Hf by lia; done|].
  apply (IH _ (d - 1)); [apply Z.mod_pos_bound; lia|lia|].
  rewrite Zplus_mod_idemp_l. by replace (k + 1 + (d - 1)) with (k + d) by lia.
Qed.

(** How many groups belong to the first [old] cores. *)
Definition low (f : Z -> Z) (old : Z) : Z := cnt (fun k => if f k <? old then 0 else 1) 0.

Lemma cnt_ext f g c : (forall k, 0 <= k < size -> f k = c <-> g k = c) -> cnt f c = cnt g c.
Proof.
  intros Hfg. unfold cnt. f_equal. f_equal.
  assert (Hall : forall L : list Z, (forall k, k ∈ L -> f k = c <-> g k = c) ->
    filter (fun k => f k = c) L = filter (fun k => g k = c) L).
  { induction L as [|y L IH]; intros HL; [done|]. rewrite !filter_cons, IH by set_solver.
    specialize (HL y ltac:(set_solver)). destruct (decide (f y = c)), (decide (g y = c)); tauto. }
  apply Hall. intros k Hk. apply Hfg. apply elem_of_seqZ in Hk. lia.
Qed.

Lemma low_insert f old k j : 0 <= k < size -> f k < old -> old <= j ->
  low (<[k := j]> f) old = low f old - 1.
Proof.
  intros Hk Hf Hj. unfold low.
  rewrite (cnt_ext _ (<[k := 1]> (fun x => if f x <? old then 0 else 1))).
  - rewrite cnt_insert by done. rewrite (proj2 (Z.ltb_lt _ _)) by done.
    rewrite (decide_False (P := 1 = 0)), (decide_True (P := 0 = 0)) by done. lia.
  - intros x Hx. unfold insert, fn_insert. case_decide; [|done].
    rewrite (proj2 (Z.ltb_ge _ _)) by done. done.
Qed.

Lemma low_pos f old : 0 < low f old -> exists k, 0 <= k < size /\ f k < old.
Proof.
  intros (k & Hk & E)%cnt_pos. exists k. split; [done|]. destruct (Z.ltb_spec (f k) old); [done|discriminate].
Qed.

Lemma low_all f old : 0 <= size -> (forall k, 0 <= k < size -> f k < old) -> low f old = size.
Proof.
  intros Hs Hf. unfold low. rewrite (cnt_ext _ (fun _ => 0)).
  - unfold cnt. assert (E : forall L : list Z, filter (fun _ => 0 = 0) L = L).
    { induction L as [|y L IH]; [done|]. rewrite filter_cons, decide_True, IH by done. done. }
    rewrite E, length_seqZ. lia.
  - intros k Hk. rewrite (proj2 (Z.ltb_lt _ _)) by auto. done.
Qed.

(** What a number of rounds of the loops has done. *)
Definition up (r0 r : rss) (old : Z) : Prop :=
  forall k, 0 <= k < size -> r_reta r k = r_reta r0 k \/ old <= r_reta r k.

Section Up.
Context (r0 : rss) (old new : Z) (fuel : nat).
Context (Hcores : 0 < old < new /\ new <= 256) (Hfuel : size <= Z.of_nat fuel).

Lemma scale_up_one_ok j r k : moved r0 r new -> up r0 r old -> 0 <= k < size -> old <= j < new ->
  0 < low (r_reta r) old ->
  exists r' k', scale_up_one size fuel old j (r, k) = Done (r', k') /\ 0 <= k' < size /\
    moved r0 r' new /\ up r0 r' old /\ low (r_reta r') old = low (r_reta r) old - 1 /\
    forall c, old <= c -> cnt (r_reta r') c = cnt (r_reta r) c + (if decide (j = c) then 1 else 0).
Proof.
  intros Hm Hup Hk Hj Hlow. unfold scale_up_one.
  assert (Hb : forall x, 0 <= r_buckets r x) by (intros x; rewrite (mv_cnt _ _ _ Hm); apply cnt_nonneg).
  destruct (core_max_ok (r_buckets r) old Hb) as [Hc Hmax]; [lia|].
  set (c := core_max (r_buckets r) old) in *.
  destruct (low_pos _ _ Hlow) as (k0 & Hk0 & Hf0).
  assert (Hcpos : 0 < cnt (r_reta r) c).
  { rewrite <-(mv_cnt _ _ _ Hm). pose proof (mv_range _ _ _ Hm k0 Hk0).
    specialize (Hmax (r_reta r k0) ltac:(lia)). rewrite (mv_cnt _ _ _ Hm (r_reta r k0)) in Hmax.
    assert (0 < cnt (r_reta r) (r_reta r k0)) by (apply cnt_pos; by exists k0). lia. }
  apply cnt_pos in Hcpos as (k1 & Hk1 & Ek1).
  destruct (find_group_ok (r_reta r) c fuel k ((k1 - k) mod size)) as (k' & -> & Hk' & Ek'); [done| | |].
  { pose proof (Z.mod_pos_bound (k1 - k) size). lia. }
  { rewrite Zplus_mod_idemp_r. replace (k + (k1 - k)) with k1 by lia. by rewrite Z.mod_small by lia. }
  cbn [mbind outcome_bind]. rewrite <-Ek'.
  eexists _, k'. split; [reflexivity|]. split; [done|].
  split; [exact (set_group_moved r0 r new k' j Hm ltac:(lia) Hk' ltac:(lia) ltac:(lia))|].
  cbn. split; [|split].
  - intros x Hx. cbn. unfold insert, fn_insert. case_decide; [right; lia|by apply Hup].
  - apply low_insert; lia.
  - intros x Hx. rewrite cnt_insert by done. rewrite (decide_False (P := r_reta r k' = x)) by lia. lia.
Qed.

Lemma scale_up_share_ok j : forall n r k, moved r0 r new -> up r0 r old -> 0 <= k < size -> old <= j < new ->
  Z.of_nat n <= low (r_reta r) old ->
  exists r' k', scale_up_share size fuel old j n (r, k) = Done (r', k') /\ 0 <= k' < size /\
    moved r0 r' new /\ up r0 r' old /\ low (r_reta r') old = low (r_reta r) old - Z.of_nat n /\
    forall c, old <= c -> cnt (r_reta r') c = cnt (r_reta r) c + (if decide (j = c) then Z.of_nat n else 0).
Proof.
  induction n as [|n IH]; intros r k Hm Hup Hk Hj Hl; cbn [scale_up_share].
  { exists r, k. split_and!; try done; try lia. intros c _. case_decide; lia. }
  destruct (scale_up_one_ok j r k) as (r1 & k1 & -> & Hk1 & Hm1 & Hup1 & Hl1 & Hc1); [done..|lia|].
  cbn [mbind outcome_bind].
  destruct (IH r1 k1) as (r2 & k2 & -> & Hk2 & Hm2 & Hup2 & Hl2 & Hc2); [done..|lia|].
  exists r2, k2. split_and!; try done; try lia.
  intros c Hc. rewrite Hc2, Hc1 by done. case_decide; lia.
Qed.

Lemma scale_up_cores_ok share : 0 <= share -> forall n j r k, moved r0 r new -> up r0 r old -> 0 <= k < size ->
  old <= j -> j + Z.of_nat n <= new -> share * Z.of_nat n <= low (r_reta r) old ->
  exists r' k', scale_up_cores size fuel old share j n (r, k) = Done (r', k') /\
    moved r0 r' new /\ up r0 r' old /\
    forall c, old <= c -> cnt (r_reta r') c = cnt (r_reta r) c +
      (if decide (j <= c < j + Z.of_nat n) then share else 0).
Proof.
  intros Hs. induction n as [|n IH]; intros j r k Hm Hup Hk Hj Hn Hl; cbn [scale_up_cores].
  { exists r, k. split_and!; try done. intros c _. rewrite decide_False by lia. lia. }
  destruct (scale_up_share_ok j (Z.to_nat share) r k) as (r1 & k1 & -> & Hk1 & Hm1 & Hup1 & Hl1 & Hc1);
    [done..|lia|nia|]. cbn [mbind outcome_bind].
  destruct (IH (j + 1) r1 k1) as (r2 & k2 & -> & Hm2 & Hup2 & Hc2); [done..|lia|lia|nia|].
  exists r2, k2. split_and!; try done.
  intros c Hc. rewrite Hc2, Hc1 by done. rewrite Z2Nat.id by lia.
  destruct (decide (j = c)), (decide (j + 1 <= c < j + 1 + Z.of_nat n)),
    (decide (j <= c < j + Z.of_nat (S n))); lia.
Qed.

End Up.

Context (reta_update : (Z -> Z) -> (Z -> Z) -> bool).

(** [network_scale_up] from [old] to [new] cores terminates, and leaves the NIC's
    table, the counts and the steering table in agreement; every new core gets exactly
    its share of the flow groups, a group that stays on an old core stays where it was,
    and every entry that has changed is marked in the update mask. *)
Theorem network_scale_up_correct r old new fuel :
  reta_ok r old -> 0 < old < new -> new <= 256 -> size <= Z.of_nat fuel ->
  exists r', network_scale_up size reta_update fuel r old new
      = Done (reta_update (r_reta r') (r_mask r'), r') /\
    reta_ok r' new /\ moved r r' new /\
    (forall j, old <= j < new -> r_buckets r' j = size / new) /\
    (forall k, 0 <= k < size -> r_reta r' k = r_reta r k \/ old <= r_reta r' k).
Proof.
  intros Hok Ho Hn Hf. unfold network_scale_up.
  pose proof (clear_mask_moved _ _ Hok) as Hm. pose proof (mv_size _ _ _ Hok) as Hs.
  assert (Hm0 : moved r (clear_mask size r) new).
  { destruct Hm as [? Hr ? ? ?]. constructor; try done. intros k Hk. specialize (Hr k Hk). lia. }
  assert (Hshare : 0 <= size / new) by (apply Z.div_pos; lia).
  assert (Hl : low (r_reta (clear_mask size r)) old = size)
    by (apply low_all; [lia|]; intros k Hk; apply (mv_range _ _ _ Hok k Hk)).
  destruct (scale_up_cores_ok r old new fuel (conj Ho Hn) Hf (size / new) Hshare (Z.to_nat (new - old)) old
    (clear_mask size r) 0) as (r' & k' & -> & Hm' & Hup & Hc); try done; try lia.
  { intros k Hk. by left. }
  { rewrite Hl, Z2Nat.id by lia. pose proof (Z.mul_div_le size new). nia. }
  cbn [mbind outcome_bind]. exists r'. split; [done|]. split; [by eapply moved_ok|]. split; [done|].
  split; [|done]. intros j Hj. rewrite (mv_cnt _ _ _ Hm'), Hc, decide_True by lia.
  assert (E : cnt (r_reta (clear_mask size r)) j = 0).
  { pose proof (cnt_nonneg (r_reta (clear_mask size r)) j). 
    destruct (Z.eq_dec (cnt (r_reta (clear_mask size r)) j) 0) as [|Hne]; [done|].
    assert (Hp : 0 < cnt (r_reta (clear_mask size r)) j) by lia. apply cnt_pos in Hp as (k & Hk & Ek).
    pose proof (mv_range _ _ _ Hok k Hk). change (r_reta r k = j) in Ek. lia. }
  lia.
Qed.

(** ** Scaling down *)

Lemma scale_down_loop_ok r0 old new : 0 < new <= 256 -> old <= 256 -> new <= old ->
  forall n i r, 0 <= i -> i + Z.of_nat n = size ->
  moved r0 r old -> (forall k, 0 <= k < i -> r_reta r k < new) ->
  (forall k, 0 <= k < size -> r_reta r0 k < new -> r_reta r k = r_reta r0 k) ->
  let r' := scale_down_loop new i n r in
  moved r0 r' new /\ (forall k, 0 <= k < size -> r_reta r0 k < new -> r_reta r' k = r_reta r0 k).
Proof.
  intros Hn Ho Hno. induction n as [|n IH]; intros i r Hi Hin Hm Hlt Hkeep; cbn [scale_down_loop].
  { split; [|done]. destruct Hm as [? Hr ? ? ?]. constructor; try done.
    intros k Hk. specialize (Hr k Hk). specialize (Hlt k). lia. }
  destruct (Z.leb_spec new (r_reta r i)) as [Hge|Hge].
  - pose proof (core_min_range (r_buckets r) new) as Hc. set (c := core_min (r_buckets r) new) in *.
    apply IH; [lia|lia| | |].
    + exact (set_group_moved r0 r old i c Hm Ho ltac:(lia) ltac:(lia) ltac:(lia)).
    + intros k Hk. cbn. unfold insert, fn_insert. case_decide; [lia|]. apply Hlt. lia.
    + intros k Hk Hk0. cbn. unfold insert, fn_insert. case_decide as Hd; [|by apply Hkeep].
      subst. specialize (Hkeep k Hk Hk0). lia.
  - apply IH; [lia|lia|done| |done]. intros k Hk. destruct (decide (k = i)) as [->|]; [done|apply Hlt; lia].
Qed.

(** [network_scale_down] leaves only the first [new] cores with flow groups, keeps
    the three tables in agreement, does not move any flow group that already belongs to
    one of these cores, and marks every changed entry in the update mask. *)
Theorem network_scale_down_correct r old new :
  reta_ok r old -> 0 < new < old -> old <= 256 ->
  exists r', network_scale_down size reta_update r old new
      = (reta_update (r_reta r') (r_mask r'), r') /\
    reta_ok r' new /\ moved r r' new /\
    (forall k, 0 <= k < size -> r_reta r k < new -> r_reta r' k = r_reta r k).
Proof.
  intros Hok Hn Ho. pose proof (mv_size _ _ _ Hok).
  destruct (scale_down_loop_ok r old new ltac:(lia) Ho ltac:(lia) (Z.to_nat size) 0 (clear_mask size r))
    as [Hm Hk]; [lia|lia|by apply clear_mask_moved|lia|done|].
  eexists. split; [reflexivity|]. split; [by eapply moved_ok|]. by split.
Qed.

End Scale.

(** ** Setting up the table *)

Lemma cnt_S i f c : 0 <= i -> cnt (i + 1) f c = cnt i f c + (if decide (f i = c) then 1 else 0).
Proof.
  intros Hi. unfold cnt. rewrite (seqZ_app 0 i 1) by lia. rewrite filter_app, length_app.
  cbn [seqZ]. change (seqZ (0 + i) 1) with [0 + i]. rewrite Z.add_0_l, filter_cons.
  case_decide; cbn; lia.
Qed.

Lemma reta_setup_loop_ok cores : 0 < cores <= 256 -> forall n i r, 0 <= i -> i + Z.of_nat n <= 4096 ->
  (forall k, 0 <= k < i -> 0 <= r_reta r k < cores /\ r_steering r k = r_reta r k) ->
  (forall c, r_buckets r c = cnt i (r_reta r) c) ->
  let r' := reta_setup_loop cores i (i mod cores) n r in
  (forall k, 0 <= k < i + Z.of_nat n -> 0 <= r_reta r' k < cores /\ r_steering r' k = r_reta r' k) /\
  (forall c, r_buckets r' c = cnt (i + Z.of_nat n) (r_reta r') c).
Proof.
  intros Hc. induction n as [|n IH]; intros i r Hi Hn Hr Hb; cbn [reta_setup_loop].
  { rewrite Z.add_0_r. by split. }
  replace (i + Z.of_nat (S n)) with (i + 1 + Z.of_nat n) by lia.
  rewrite Zplus_mod_idemp_l. pose proof (Z.mod_pos_bound i cores ltac:(lia)) as Hm. apply IH; [lia|lia| |].
  - intros k Hk. cbn. unfold insert, fn_insert, u8. rewrite (Z.mod_small _ 256) by lia.
    case_decide; [by split|]. apply Hr. lia.
  - intros c. cbn [r_buckets r_reta setter]. rewrite cnt_S by lia.
    rewrite (cnt_ext i (<[i := i mod cores]> (r_reta r)) (r_reta r)).
    2:{ intros k Hk. unfold insert, fn_insert. rewrite decide_False by lia. done. }
    unfold insert, fn_insert. rewrite (decide_True (P := i = i)) by done.
    pose proof (cnt_le i (r_reta r) (i mod cores)). pose proof (cnt_nonneg i (r_reta r) (i mod cores)).
    destruct (decide (i mod cores = c)) as [<-|].
    + rewrite Hb, u16_small by lia. lia.
    + rewrite Hb. lia.
Qed.

(** [reta_setup] spreads the flow groups over the cores in use and establishes the
    agreement of the three tables; a table that is larger than the steering table is
    refused. *)
Theorem reta_setup_correct size reta_update steering cores : 0 < size -> 0 < cores <= 256 ->
  (size <= FLEXNIC_PL_MAX_FLOWGROUPS ->
    exists r, reta_setup size reta_update steering cores = Done (reta_update (r_reta r) (r_mask r), r) /\
      reta_ok size r cores) /\
  (FLEXNIC_PL_MAX_FLOWGROUPS < size -> reta_setup size reta_update steering cores = Aborted).
Proof.
  intros Hs Hc. unfold reta_setup. destruct (Z.ltb_spec FLEXNIC_PL_MAX_FLOWGROUPS size) as [|Hle].
  { split; [lia|done]. }
  split; [intros _|lia]. eexists. split; [reflexivity|].
  destruct (reta_setup_loop_ok cores Hc (Z.to_nat size) 0 (mk_rss (fun _ => 0) (fun _ => 0) (fun _ => 0) steering))
    as [Hr Hb]; [lia|unfold FLEXNIC_PL_MAX_FLOWGROUPS in *; lia|lia| |].
  - intros c. unfold cnt. done.
  - rewrite Z.mod_0_l in Hr, Hb by lia. rewrite Z2Nat.id in Hr, Hb by lia.
    constructor; [unfold FLEXNIC_PL_MAX_FLOWGROUPS in *; lia| |exact Hb| |intros; by left].
    + intros k Hk. by apply Hr.
    + intros k Hk. by apply Hr.
Qed.

(** ** Concrete runs *)

Definition ex_update : (Z -> Z) -> (Z -> Z) -> bool := fun _ _ => true.

(** 128 groups over three cores. *)
Definition ex_rss : rss := mk_rss (fun k => k mod 3) (fun _ => 0)
  (fun c => cnt 128 (fun k => k mod 3) c) (fun k => k mod 3).

Lemma ex_rss_ok : reta_ok 128 ex_rss 3.
Proof. constructor; cbn; try done; [|intros; by left]. intros k Hk. apply Z.mod_pos_bound. lia. Qed.

Lemma network_scale_up_correct_witness : exists r',
  network_scale_up 128 ex_update 128 ex_rss 3 4 = Done (true, r') /\ reta_ok 128 r' 4 /\ r_buckets r' 3 = 32.
Proof.
  destruct (network_scale_up_correct 128 ex_update ex_rss 3 4 128 ex_rss_ok) as (r' & E & Hok & _ & Hb & _).
  - lia.
  - lia.
  - lia.
  - exists r'. split; [exact E|]. split; [exact Hok|]. exact (Hb 3 ltac:(lia)).
Defined.

Lemma network_scale_down_correct_witness : exists r',
  network_scale_down 128 ex_update ex_rss 3 2 = (true, r') /\ reta_ok 128 r' 2.
Proof.
  destruct (network_scale_down_correct 128 ex_update ex_rss 3 2 ex_rss_ok) as (r' & E & Hok & _).
  - lia.
  - lia.
  - exists r'. split; [exact E|exact Hok].
Defined.

Lemma reta_setup_correct_witness : exists r,
  reta_setup 128 ex_update (fun _ => 0) 3 = Done (true, r) /\ reta_ok 128 r 3.
Proof.
  destruct (reta_setup_correct 128 ex_update (fun _ => 0) 3) as [H _].
  - lia.
  - lia.
  - exact (H ltac:(vm_compute; discriminate)).
Defined.

(** The search for the emptiest core starts from [UINT8_MAX] although the counts have
    16 bits: when every remaining core has 255 flow groups or more it always answers core
    0.  Scaling 1024 groups down from three cores to two gives all groups of the removed
    core to core 0, which ends with twice the load of core 1. *)
Theorem core_min_saturates :
  (forall b num, (forall i, 0 <= i < num -> UINT8_MAX <= b i) -> core_min b num = 0) /\
  let counts f := map (fun c => cnt 1024 f c) [0; 1; 2] in
  let r := mk_rss (fun k => k mod 3) (fun _ => 0) (fun c => if c =? 0 then 342 else 341) (fun k => k mod 3) in
  counts (r_reta r) = [342; 341; 341] /\
  counts (r_reta (snd (network_scale_down 1024 ex_update r 3 2))) = [683; 341; 0].
Proof.
  split; [|vm_compute; by split].
  intros b num Hb. unfold core_min.
  assert (Hl : forall n i, 0 <= i -> i + Z.of_nat n <= num -> core_min_loop b i 0 UINT8_MAX n = 0).
  { induction n as [|n IH]; intros i Hi Hn; cbn [core_min_loop]; [done|].
    rewrite (proj2 (Z.ltb_ge _ _)) by (apply Hb; lia). apply IH; lia. }
  destruct (Z_lt_le_dec num 0); [|apply Hl; lia]. by destruct num.
Qed.

End RetaSpec.
