(* ===== verification/Loadmon.v ===== *)
(** * Load monitor of the fast path ([tas/tas.c])

    The main loop of the slow path measures how busy the cores of the fast path are, and
    asks for one core more or less.  The request is one word, [fp_scale_to], which the first core
    of the fast path takes ([Reta.poll_scale]) and sets back to 0; applications write it too. *)
From S2P Require Import Prelude.
#[local] Open Scope Z_scope.

Module Loadmon.

(** [flexnic_scale_to] on [fp_scale_to]: [false] is the return value -1. *)
Definition flexnic_scale_to (fp_scale_to cores : Z) : bool * Z :=
  if negb (fp_scale_to =? 0) then (false, fp_scale_to) else (true, cores).

(** What the monitor reads and clears in the contexts of the cores. *)
Record core : Type := mk_core { loadmon_cyc_busy : Z; kernel_drop : Z }.
#[export] Instance eta_core : Eta core := fun c => mk_core (loadmon_cyc_busy c) (kernel_drop c).

(** [core_loads] and the static variables of [flexnic_loadmon]. *)
Record monitor : Type := mk_monitor {
  core_loads : Z -> Z; ewma_busy : Z; ewma_cycles : Z; last_tsc : Z; kdrops : Z; waiting : bool; waiting_n : Z; count : Z
}.
#[export] Instance eta_monitor : Eta monitor := fun m =>
  mk_monitor (core_loads m) (ewma_busy m) (ewma_cycles m) (last_tsc m) (kdrops m) (waiting m) (waiting_n m) (count m).

Definition monitor_init : monitor := mk_monitor (fun _ => 0) 0 0 0 0 true 0 0.

(** The loop over the cores from [i] on, with [n] cores left: [None] when a core has no
    context yet ([ctxs[i] == NULL]). *)
Fixpoint sum_busy (n : nat) (i : Z) (m : monitor) (ctxs : Z -> option core) (cyc_busy : Z) : option Z * monitor * (Z -> option core) :=
  match n with
  | O => (Some cyc_busy, m, ctxs)
  | S n =>
    match ctxs i with
    | None => (None, m, ctxs)
    | Some c =>
      let x := loadmon_cyc_busy c in
      let cyc_busy := u64 (cyc_busy + (x - core_loads m i)) in
      let m := m <| core_loads := <[i := x]> (core_loads m) |> <| kdrops := u64 (kdrops m + kernel_drop c) |> in
      sum_busy n (i + 1) m (<[i := Some (c <| kernel_drop := 0 |>)]> ctxs) cyc_busy
    end
  end.

(** The two moving averages, and the statistics that are printed every 100 calls; the
    counters of calls are of type [int]. *)
Definition averages (m : monitor) (cyc_busy cycles : Z) : monitor :=
  let m := m <| ewma_busy := u64 (u64 (7 * ewma_busy m) + cyc_busy) / 8 |>
             <| ewma_cycles := u64 (u64 (7 * ewma_cycles m) + cycles) / 8 |> in
  let print := Z.rem (count m) 100 =? 0 in
  let m := m <| count := s32 (count m + 1) |> in
  if print then m <| kdrops := 0 |> else m.

(** The cycles the cores did not need. *)
Definition idle_cycles (m : monitor) (num_cores : Z) : Z :=
  if ewma_busy m <? u64 (num_cores * ewma_cycles m) then u64 (num_cores * ewma_cycles m) - ewma_busy m else 0.

(** [flexnic_loadmon]: the result is the monitor, the contexts and [fp_scale_to]. *)
Definition flexnic_loadmon (fp_cores_max : Z) (m : monitor) (ctxs : Z -> option core) (fp_cores_cur fp_scale_to tsc : Z)
    : monitor * (Z -> option core) * Z :=
  let num_cores := fp_cores_cur in
  let '(busy, m, ctxs) := sum_busy (Z.to_nat num_cores) 0 m ctxs 0 in
  match busy with
  | None => (m, ctxs, fp_scale_to)
  | Some cyc_busy =>
    if last_tsc m =? 0 then (m <| last_tsc := tsc |>, ctxs, fp_scale_to)
    else
      let cycles := u64 (tsc - last_tsc m) in
      let m := averages (m <| last_tsc := tsc |>) cyc_busy cycles in
      let m := if waiting m then m <| waiting_n := s32 (waiting_n m + 1) |> else m in
      if waiting m && (waiting_n m <? 10) then (m, ctxs, fp_scale_to)
      else
        let id_cyc := idle_cycles m num_cores in
        let decided cores := (m <| waiting := true |> <| waiting_n := 0 |>, ctxs, snd (flexnic_scale_to fp_scale_to cores)) in
        if (1 <? num_cores) && (u64 (ewma_cycles m * 5) / 4 <? id_cyc) then decided (u32 (num_cores - 1))
        else if (num_cores <? fp_cores_max) && (id_cyc <? ewma_cycles m / 5) then decided (u32 (num_cores + 1))
        else (m, ctxs, fp_scale_to)
  end.

End Loadmon.
