(* ===== verification/LoadmonSpec.v ===== *)
(** * Automatic scaling of the fast path

    The load monitor, the requests of applications and the scaling of the fast path
    together: the steering of flow groups always fits the number of cores, which stays within
    its bounds, and decisions of the monitor are at least ten calls apart. *)
From S2P Require Import Prelude Reta RetaSpec Loadmon.
From stdpp Require Import relations.
#[local] Open Scope Z_scope.

Module LoadmonSpec.
Import Reta RetaSpec Loadmon.

#[local] Set Default Proof Using "Type*".

(** ** One call of the monitor *)
Section Monitor.
Context (fp_cores_max : Z).
Implicit Types (m : monitor) (ctxs : Z -> option core).

Lemma sum_busy_same : forall n i m ctxs b r m' ctxs', sum_busy n i m ctxs b = (r, m', ctxs') ->
  waiting m' = waiting m /\ waiting_n m' = waiting_n m /\ last_tsc m' = last_tsc m.
Proof.
  induction n as [|n IH]; intros i m ctxs b r m' ctxs' E; cbn [sum_busy] in E; [by simplify_eq|].
  destruct (ctxs i); [|by simplify_eq]. by apply IH in E.
Qed.

Lemma averages_same m b c : waiting (averages m b c) = waiting m /\ waiting_n (averages m b c) = waiting_n m.
Proof. unfold averages. cbv zeta. by destruct (_ =? 0). Qed.

(** A call leaves the target alone, or it asks for the neighbouring number of cores and starts to wait. *)
Lemma loadmon_target m ctxs cur st tsc : 0 < cur <= fp_cores_max -> fp_cores_max < 4294967295 ->
  let '(m', _, st') := flexnic_loadmon fp_cores_max m ctxs cur st tsc in
  st' = st \/ (st = 0 /\ 1 <= st' <= fp_cores_max /\ (st' = cur - 1 \/ st' = cur + 1) /\ waiting m' = true /\ waiting_n m' = 0).
Proof.
  intros Hc Hm. unfold flexnic_loadmon. destruct (sum_busy _ _ _ _ _) as [[[b|] m1] ctxs1]; [|by left].
  destruct (_ =? 0); [by left|]. cbv zeta. set (m2 := averages _ _ _). set (m3 := if waiting m2 then _ else _).
  destruct (waiting m3 && _); [by left|]. unfold flexnic_scale_to.
  destruct (Z.ltb_spec 1 cur), (_ <? idle_cycles m3 cur); cbn [andb].
  2-4: destruct (Z.ltb_spec cur fp_cores_max), (idle_cycles m3 cur <? _); cbn [andb]; try by left.
  all: destruct (Z.eqb_spec st 0); cbn [negb snd]; [|by left]; right; rewrite u32_small by lia; cbn; lia.
Qed.

(** The monitor waits, and has been called at most [k] times since its last decision. *)
Definition waits m (k : Z) : Prop := waiting m = true /\ 0 <= waiting_n m <= k.

Lemma loadmon_waits m ctxs cur st tsc k : waits m k -> k < 9 ->
  let '(m', _, st') := flexnic_loadmon fp_cores_max m ctxs cur st tsc in st' = st /\ waits m' (k + 1).
Proof.
  intros [Hw Hn] Hk. unfold flexnic_loadmon. destruct (sum_busy _ _ _ _ _) as [[b m1] ctxs1] eqn:E.
  apply sum_busy_same in E as (Ew & En & _). unfold waits.
  destruct b as [b|]; [|split; [done|]; split; [congruence|lia]].
  destruct (_ =? 0); [split; [done|]; split; [cbn; congruence|cbn; lia]|]. cbv zeta.
  set (m2 := averages _ _ _). assert (Hm2 : waiting m2 = true /\ waiting_n m2 = waiting_n m).
  { destruct (averages_same (m1 <| last_tsc := tsc |>) b (u64 (tsc - last_tsc m1))) as [E1 E2]. unfold m2. rewrite E1, E2. cbn. by split; congruence. }
  destruct Hm2 as [E1 E2]. clearbody m2. set (m3 := if waiting m2 then _ else m2).
  assert (Hm3 : waiting m3 = true /\ waiting_n m3 = waiting_n m + 1).
  { unfold m3. rewrite E1. split; [done|]. rewrite <-E2. apply s32_small. lia. }
  clearbody m3. destruct Hm3 as [E3 E4]. rewrite E3, E4, (proj2 (Z.ltb_lt (waiting_n m + 1) 10)) by lia. cbn [andb].
  split; [done|]. split; [done|]. lia.
Qed.

(** A sequence of calls, each with the contexts, the number of cores, the target and the
    time it finds: whether a call has changed the target. *)
Fixpoint calls m (l : list ((Z -> option core) * Z * Z * Z)) : list bool * monitor :=
  match l with
  | [] => ([], m)
  | (ctxs, cur, st, tsc) :: l =>
    let '(m', _, st') := flexnic_loadmon fp_cores_max m ctxs cur st tsc in
    let '(r, m'') := calls m' l in (negb (st' =? st) :: r, m'')
  end.

Lemma calls_wait : forall l m k, waits m k -> k + Z.of_nat (length l) <= 9 -> Forall (fun b => b = false) (fst (calls m l)).
Proof.
  induction l as [|[[[ctxs cur] st] tsc] l IH]; intros m k Hw Hk; cbn [length] in Hk; cbn [calls fst]; [constructor|].
  pose proof (loadmon_waits m ctxs cur st tsc k Hw ltac:(lia)) as Hc. destruct (flexnic_loadmon _ _ _ _ _ _) as [[m' c'] st'].
  destruct Hc as [-> Hw']. specialize (IH m' (k + 1) Hw' ltac:(lia)). destruct (calls m' l) as [r m'']. cbn [fst] in *.
  constructor; [by rewrite Z.eqb_refl|done].
Qed.

(** Decisions of the load monitor are at least ten of its calls apart, whatever it measures:
    when a call changes the target, none of the next nine does.  The new target is the
    neighbouring number of cores, it lies between one and the most that are allowed, and
    no request that is still pending is overwritten. *)
Theorem loadmon_paced m ctxs cur st tsc l : 0 < cur <= fp_cores_max -> fp_cores_max < 4294967295 -> (length l <= 9)%nat ->
  let '(m', _, st') := flexnic_loadmon fp_cores_max m ctxs cur st tsc in
  st' <> st -> st = 0 /\ 1 <= st' <= fp_cores_max /\ (st' = cur - 1 \/ st' = cur + 1) /\ Forall (fun b => b = false) (fst (calls m' l)).
Proof.
  intros Hc Hm Hl. pose proof (loadmon_target m ctxs cur st tsc Hc Hm) as Ht. destruct (flexnic_loadmon _ _ _ _ _ _) as [[m' c'] st'].
  intros Hne. destruct Ht as [?|(? & ? & ? & Hw & Hn)]; [done|]. do 3 (split; [done|]). apply (calls_wait l m' 0); [|lia].
  split; [done|]. lia.
Qed.
End Monitor.

(** ** The loop: the monitor, applications and the first core *)
Section Autoscale.
Context (size fp_cores_max : Z) (fuel : nat) (max_cores : 0 < fp_cores_max <= 256) (fuel_enough : size <= Z.of_nat fuel).
(** The driver of the NIC accepts new tables. *)
Context (reta_update : (Z -> Z) -> (Z -> Z) -> bool) (update_accepts : forall t m, reta_update t m = true).

(** The steering of flow groups, [fp_cores_cur], [fp_scale_to], and the monitor with what it
    reads. *)
Record world : Type := mk_world { w_rss : rss; w_cur : Z; w_scale_to : Z; w_mon : monitor; w_ctxs : Z -> option core }.

(** The slow path calls the monitor or passes the request of an application on; the first core
    scales; the cores count their cycles. *)
Inductive astep : world -> world -> Prop :=
  | A_monitor r cur st m ctxs tsc m' ctxs' st' : flexnic_loadmon fp_cores_max m ctxs cur st tsc = (m', ctxs', st') ->
      astep (mk_world r cur st m ctxs) (mk_world r cur st' m' ctxs')
  | A_request r cur st m ctxs cores : 0 <= cores <= fp_cores_max ->
      astep (mk_world r cur st m ctxs) (mk_world r cur (snd (flexnic_scale_to st cores)) m ctxs)
  | A_scale r cur st m ctxs r' cur' st' : poll_scale size reta_update fuel r cur st = Done (r', cur', st') ->
      astep (mk_world r cur st m ctxs) (mk_world r' cur' st' m ctxs)
  | A_cores r cur st m ctxs ctxs' : astep (mk_world r cur st m ctxs) (mk_world r cur st m ctxs').

Definition scale_inv (w : world) : Prop :=
  reta_ok size (w_rss w) (w_cur w) /\ 1 <= w_cur w <= fp_cores_max /\ 0 <= w_scale_to w <= fp_cores_max.

(** Scaling never fails, and reaches the number of cores asked for. *)
Lemma poll_scale_ok r cur st : reta_ok size r cur -> 1 <= cur <= fp_cores_max -> 0 <= st <= fp_cores_max ->
  exists r', poll_scale size reta_update fuel r cur st = Done (r', if st =? 0 then cur else st, 0) /\
    reta_ok size r' (if st =? 0 then cur else st).
Proof.
  intros Hr Hc Hs. unfold poll_scale. destruct (Z.eqb_spec st 0) as [->|H0]; [by exists r|].
  destruct (Z.ltb_spec st cur).
  - destruct (network_scale_down_correct size reta_update r cur st Hr ltac:(lia) ltac:(lia)) as (r' & E & Hr' & _).
    exists r'. by rewrite E, update_accepts.
  - destruct (Z.ltb_spec cur st); [|exists r; by replace st with cur by lia].
    destruct (network_scale_up_correct size reta_update r cur st fuel Hr ltac:(lia) ltac:(lia) ltac:(lia)) as (r' & E & Hr' & _).
    exists r'. by rewrite E, update_accepts.
Qed.

Lemma astep_inv w w' : astep w w' -> scale_inv w -> scale_inv w'.
Proof.
  intros Hs (Hr & Hc & Ht). destruct Hs as [r cur st m ctxs tsc m' ctxs' st' E|r cur st m ctxs cores Hn|r cur st m ctxs r' cur' st' E|];
    cbn in *; [| | |done].
  - pose proof (loadmon_target fp_cores_max m ctxs cur st tsc ltac:(lia) ltac:(lia)) as H. rewrite E in H.
    split; [done|]. cbn. split; [lia|]. destruct H as [->|H]; lia.
  - split; [done|]. cbn. split; [lia|]. unfold flexnic_scale_to. destruct (negb _); cbn; lia.
  - destruct (poll_scale_ok r cur st Hr Hc Ht) as (r1 & E1 & Hr1). rewrite E in E1. injection E1 as -> -> ->.
    split; [done|]. cbn. destruct (Z.eqb_spec st 0); lia.
Qed.

(** C10: automatic scaling, under every interleaving of the load monitor, of requests of applications
    for an allowed number of cores and of the scaling of the fast path.  There are always
    between one and [fp_cores_max] cores; the table of the NIC, the counts per core and the steering table
    agree, and send every flow group to a core that runs; and when the first core looks at the
    request, it never aborts and the number of cores becomes what was asked for. *)
Theorem autoscale_safe w w' : rtc astep w w' -> scale_inv w ->
  1 <= w_cur w' <= fp_cores_max /\ reta_ok size (w_rss w') (w_cur w') /\
  let cores := if w_scale_to w' =? 0 then w_cur w' else w_scale_to w' in
  exists r', poll_scale size reta_update fuel (w_rss w') (w_cur w') (w_scale_to w') = Done (r', cores, 0) /\ reta_ok size r' cores.
Proof.
  intros Hs Hi. assert (Hi' : scale_inv w') by (induction Hs; [done|eauto using astep_inv]).
  destruct Hi' as (Hr & Hc & Ht). split; [done|]. split; [done|]. by apply poll_scale_ok.
Qed.
End Autoscale.

(** ** Examples *)

(** A monitor that has measured two busy cores, and a third core that may run. *)
Definition ex_monitor : monitor := mk_monitor (fun _ => 0) 1600000 800000 5000 0 true 9 7.
Definition ex_cores : Z -> option core := fun _ => Some (mk_core 900000 0).

Lemma loadmon_paced_witness :
  let '(m', _, st') := flexnic_loadmon 3 ex_monitor ex_cores 2 0 905000 in
  st' = 3 /\ Forall (fun b => b = false) (fst (calls 3 m' [(ex_cores, 2, 0, 1805000); (ex_cores, 3, 0, 2705000)])).
Proof.
  pose proof (loadmon_paced 3 ex_monitor ex_cores 2 0 905000 [(ex_cores, 2, 0, 1805000); (ex_cores, 3, 0, 2705000)]
    ltac:(lia) ltac:(lia) ltac:(cbn; lia)) as H.
  destruct (flexnic_loadmon _ _ _ _ _ _) as [[m' c'] st'] eqn:E.
  assert (Est : st' = 3) by (change (snd (m', c', st') = 3); rewrite <-E; vm_compute; reflexivity).
  split; [exact Est|]. apply H. rewrite Est. discriminate.
Defined.

Lemma autoscale_safe_witness : exists r', poll_scale 128 ex_update 128 ex_rss 3 4 = Done (r', 4, 0) /\ reta_ok 128 r' 4.
Proof.
  destruct (autoscale_safe 128 4 128 ltac:(lia) ltac:(lia) ex_update (fun _ _ => eq_refl)
    (mk_world ex_rss 3 0 ex_monitor ex_cores) (mk_world ex_rss 3 4 ex_monitor ex_cores)) as (_ & _ & H).
  - apply rtc_once. by apply (A_request 128 4 128 ex_update ex_rss 3 0 ex_monitor ex_cores 4).
  - split; [exact ex_rss_ok|]. cbn. lia.
  - exact H.
Defined.

End LoadmonSpec.
