(* ===== verification/Fastemu.v ===== *)
(** * The main loop of a fast path core ([tas/fast/fastemu.c])

    The cache of packet buffers, the transmit batch, and the rounds of polling: received
    packets, flows forwarded by other cores, the queue manager, the queues of the
    applications and the queue of the slow path. *)
From S2P Require Import Prelude Memif Packet TcpCommon Qman FastCtx FastFlows AppCtx Reta.

Module Fastemu.
Import Packet TcpCommon FastCtx FastFlows AppCtx.

Definition BUFCACHE_SIZE : Z := 128.

(** ** The buffer cache *)

Section Bufcache.
(** Buffers and the state of the buffer pool; the two allocation functions of the pool,
    [rte_pktmbuf_alloc_bulk] (all [num] buffers or none) and [rte_pktmbuf_alloc]. *)
Context {B P : Type}.
Context (pktmbuf_alloc_bulk : P -> Z -> option (list B * P)) (pktmbuf_alloc : P -> option (B * P)).

(** [bufcache_handles], [bufcache_num] and [bufcache_head]; [None] is a null pointer. *)
Record bufcache : Type := mk_bc { bc_handles : Z -> option B; bc_num : Z; bc_head : Z }.
#[export] Instance eta_bufcache : Eta bufcache := fun r =>
  mk_bc (bc_handles r) (bc_num r) (bc_head r).

(** Writing a list of pointers to consecutive places. *)
Fixpoint store (hs : Z -> option B) (at_ : Z) (l : list (option B)) : Z -> option B :=
  match l with
  | [] => hs
  | x :: l => store (<[at_ := x]> hs) (at_ + 1) l
  end.

(** The loop of [network_buf_alloc]: the pointers written and the number of buffers. *)
Fixpoint alloc_each (p : P) (n : nat) : list (option B) * Z * P :=
  match n with
  | O => ([], 0, p)
  | S n => match pktmbuf_alloc p with
           | None => ([None], 0, p)
           | Some (b, p) => let '(l, k, p) := alloc_each p n in (Some b :: l, k + 1, p)
           end
  end.

(** [network_buf_alloc] of [network.h]. *)
Definition network_buf_alloc (p : P) (num : Z) : list (option B) * Z * P :=
  match pktmbuf_alloc_bulk p num with
  | Some (l, p) => (map Some l, num, p)
  | None => alloc_each p (Z.to_nat num)
  end.

(** The first part of [bufcache_prealloc]: refilling a cache with fewer than [num]
    buffers. *)
Definition bufcache_refill (bc : bufcache) (p : P) (num : Z) : bufcache * P :=
  if bc_num bc <? num then
    let grow := u16 (BUFCACHE_SIZE - bc_num bc) in
    let head := Z.land (bc_head bc + bc_num bc) (BUFCACHE_SIZE - 1) in
    if head + grow <=? BUFCACHE_SIZE then
      let '(l, res, p) := network_buf_alloc p grow in
      (bc <| bc_handles := store (bc_handles bc) head l |> <| bc_num := u16 (bc_num bc + res) |>, p)
    else
      let g := BUFCACHE_SIZE - head in
      let '(l, res, p) := network_buf_alloc p g in
      let hs := store (bc_handles bc) head l in
      if res =? g then
        let '(l, res', p) := network_buf_alloc p (grow - g) in
        (bc <| bc_handles := store hs 0 l |> <| bc_num := u16 (bc_num bc + u16 (res + res')) |>, p)
      else (bc <| bc_handles := hs |> <| bc_num := u16 (bc_num bc + res) |>, p)
  else (bc, p).

(** [bufcache_prealloc]: the number of buffers, and the handles from the head on. *)
Definition bufcache_prealloc (bc : bufcache) (p : P) (num : Z) : Z * (Z -> option B) * bufcache * P :=
  let '(bc, p) := bufcache_refill bc p num in
  let avail := if bc_head bc + bc_num bc <=? BUFCACHE_SIZE then bc_num bc else BUFCACHE_SIZE - bc_head bc in
  (u8 (Z.min num avail), fun i => bc_handles bc (bc_head bc + i), bc, p).

(** [bufcache_alloc]. *)
Definition bufcache_alloc (bc : bufcache) (num : Z) : outcome bufcache :=
  assert_ (num <=? bc_num bc);;
  Done (bc <| bc_head := Z.land (bc_head bc + num) (BUFCACHE_SIZE - 1) |>
           <| bc_num := u16 (bc_num bc - num) |>).

(** [bufcache_free]: [Some] is a buffer handed to [network_free]. *)
Definition bufcache_free (bc : bufcache) (h : B) : bufcache * option B :=
  if bc_num bc <? BUFCACHE_SIZE then
    let head := Z.land (bc_head bc + bc_num bc) (BUFCACHE_SIZE - 1) in
    (bc <| bc_handles := <[head := Some h]> (bc_handles bc) |> <| bc_num := bc_num bc + 1 |>, None)
  else (bc, Some h).

End Bufcache.
Arguments bufcache : clear implicits.

(** ** The polling rounds *)

Section Loop.
Context (shm_len : Z) (fp_xsumoffload fp_command_data_queue : bool) (eth_addr : Z).
Context (rte_ipv4_cksum rte_ipv4_udptcp_cksum : pkt_tcp -> Z) (fwd_enqueue : Z -> Z -> bool).
Context (packet_of : memory -> Z -> pkt_tcp) (packet_bytes : pkt_tcp -> Z -> Z).
Context (crc32c_u32 crc32c_u64 : Z -> Z -> Z) (network_buf_flowgroup : nbuf -> Z).
Context {P : Type}.
Context (pktmbuf_alloc_bulk : P -> Z -> option (list nbuf * P)) (pktmbuf_alloc : P -> option (nbuf * P)).
(** The NIC: a burst of received packets, through the command queue or not, and the
    number of packets of a batch that were sent. *)
Context (poll_ctrl_queue rx_burst : Z -> list nbuf) (send_pkt : list nbuf -> Z).
(** The flow lookup table, which the slow path maintains. *)
Context (flowht : Z -> flowhte).
Context (fuel : nat).

Abbreviation core := (AppCtx.core Qman.qman_thread).

(** [struct dataplane_context] with the parts of the core: [e_fwd] is its forwarding
    ring, [e_freed] collects the buffers given back to the pool and [e_wire] the packets
    sent. *)
Record engine : Type := mk_engine {
  e_core : core;
  e_bc : bufcache nbuf;
  e_pool : P;
  e_poll_next_ctx : Z;
  e_fwd : list Z;
  e_freed : list nbuf;
  e_wire : list nbuf
}.
#[export] Instance eta_engine : Eta engine := fun r =>
  mk_engine (e_core r) (e_bc r) (e_pool r) (e_poll_next_ctx r) (e_fwd r) (e_freed r) (e_wire r).

Implicit Types (e : engine) (k : core).

Definition tx_num (k : core) : Z := Z.of_nat (length (c_tx (k_dp k))).
Definition tx_room (k : core) : Z := Z.min BATCH_SIZE (TXBUF_SIZE - tx_num k).

(** [network_poll] and [network_send] of [network.h]. *)
Definition network_poll (num : Z) : list nbuf :=
  if fp_command_data_queue then poll_ctrl_queue num else rx_burst num.
Definition network_send (l : list nbuf) : Z := send_pkt l.

(** [tx_flush]. *)
Definition tx_flush e : engine :=
  let c := k_dp (e_core e) in
  if tx_num (e_core e) =? 0 then e else
  let ret := network_send (c_tx c) in
  if ret =? tx_num (e_core e) then
    e <| e_core := (e_core e) <| k_dp := c <| c_tx := [] |> |> |> <| e_wire := e_wire e ++ c_tx c |>
  else if 0 <? ret then
    e <| e_core := (e_core e) <| k_dp := c <| c_tx := drop (Z.to_nat ret) (c_tx c) |> |> |>
      <| e_wire := e_wire e ++ take (Z.to_nat ret) (c_tx c) |>
  else e.

(** The loop of [poll_rx] over the packets; the result tells for every packet whether
    its buffer has been used to send ([freebuf]). *)
Fixpoint rx_packets (l : list (nbuf * option (Z * Z))) (k : core) (ts : Z) : outcome (list bool * core) :=
  match l with
  | [] => Done ([], k)
  | (nbh, fss) :: l =>
    '(ret, k) ←
      (match fss with
       | Some (fid, ts_opt) =>
         '(ret, c) ← fast_flows_packet shm_len fp_xsumoffload rte_ipv4_cksum rte_ipv4_udptcp_cksum
           (k_dp k) nbh fid ts_opt ts;
         Done (ret, k <| k_dp := c |>)
       | None => Done (-1, k)
       end : outcome (Z * core));
    k ← (if ret <? 0 then fast_kernel_packet shm_len packet_bytes k nbh (network_buf_flowgroup nbh)
         else Done k);
    '(fb, k) ← rx_packets l k ts;
    Done ((0 <? ret) :: fb, k)
  end.

(** Freeing the buffers that were not used. *)
Fixpoint free_unused (l : list (nbuf * bool)) (bc : bufcache nbuf) (freed : list nbuf)
    : bufcache nbuf * list nbuf :=
  match l with
  | [] => (bc, freed)
  | (nbh, true) :: l => free_unused l bc freed
  | (nbh, false) :: l =>
    let '(bc, o) := bufcache_free bc nbh in
    free_unused l bc (freed ++ match o with Some b => [b] | None => [] end)
  end.

(** [poll_rx]. *)
Definition poll_rx e (ts : Z) : outcome (Z * engine) :=
  let k := e_core e in
  let bhs := network_poll (tx_room k) in
  if Z.of_nat (length bhs) <=? 0 then Done (0, e) else
  let fss := fast_flows_packet_fss crc32c_u32 crc32c_u64 flowht (c_flowst (k_dp k)) bhs in
  fss ← fast_flows_packet_parse fuel bhs fss;
  '(fb, k) ← rx_packets (zip bhs fss) k ts;
  k ← arx_cache_flush shm_len k;
  let '(bc, freed) := free_unused (zip bhs fb) (e_bc e) (e_freed e) in
  Done (Z.of_nat (length bhs), e <| e_core := k |> <| e_bc := bc |> <| e_freed := freed |>).

(** [poll_qman_fwd]: a burst of at most [4 * BATCH_SIZE] flows. *)
Fixpoint qman_fwd_all (l : list Z) (c : dp Qman.qman_thread) : outcome (dp Qman.qman_thread) :=
  match l with
  | [] => Done c
  | fid :: l => '(_, c) ← fast_flows_qman_fwd c fid; qman_fwd_all l c
  end.
Definition poll_qman_fwd e : outcome (Z * engine) :=
  let n := Z.to_nat (4 * BATCH_SIZE) in
  let burst := take n (e_fwd e) in
  c ← qman_fwd_all burst (k_dp (e_core e));
  Done (Z.of_nat (length burst),
    e <| e_core := (e_core e) <| k_dp := c |> |> <| e_fwd := drop n (e_fwd e) |>).

(** A handle taken from the array of the buffer cache; a null pointer crashes. *)
Definition handle (hs : Z -> option nbuf) (i : Z) : outcome nbuf :=
  match hs i with Some h => Done h | None => Aborted end.

(** The loop of [poll_qman]: [off] counts the buffers used. *)
Fixpoint qman_fire_all (l : list (Z * Z)) (hs : Z -> option nbuf) (off : Z) (c : dp Qman.qman_thread) (ts : Z)
    : outcome (Z * dp Qman.qman_thread) :=
  match l with
  | [] => Done (off, c)
  | (q, _) :: l =>
    nbh ← handle hs off;
    '(use, c) ← fast_flows_qman shm_len fp_xsumoffload eth_addr rte_ipv4_cksum rte_ipv4_udptcp_cksum
      fwd_enqueue c q nbh ts;
    qman_fire_all l hs (if use =? 0 then off + 1 else off) c ts
  end.

(** [poll_qman]; [ts] is the time the queue manager reads, in nanoseconds. *)
Definition poll_qman e (qman_ts ts : Z) : outcome (Z * engine) :=
  let k := e_core e in
  let '(max, hs, bc, pool) := bufcache_prealloc pktmbuf_alloc_bulk pktmbuf_alloc (e_bc e) (e_pool e) (tx_room k) in
  let e := e <| e_bc := bc |> <| e_pool := pool |> in
  '(l, q) ← Qman.qman_poll fuel (c_qman (k_dp k)) qman_ts max;
  let c := (k_dp k) <| c_qman := q |> in
  if Z.of_nat (length l) <=? 0 then Done (0, e <| e_core := k <| k_dp := c |> |>) else
  '(off, c) ← qman_fire_all l hs 0 c ts;
  bc ← bufcache_alloc bc off;
  Done (Z.of_nat (length l), e <| e_core := k <| k_dp := c |> |> <| e_bc := bc |>).

(** The inner loop of [poll_queues]: up to [n] entries of context [id], while fewer than
    [max] are fetched. *)
Fixpoint fetch_ctx (k : core) (id : Z) (aqes : list Z) (max : Z) (n : nat) : outcome (list Z * core) :=
  match n with
  | O => Done (aqes, k)
  | S n =>
    if Z.of_nat (length aqes) <? max then
      '(a, k) ← fast_appctx_poll_fetch shm_len k id;
      match a with
      | Some a => fetch_ctx k id (aqes ++ [a]) max n
      | None => Done (aqes, k)
      end
    else Done (aqes, k)
  end.

(** The loop over the contexts, from [id] on. *)
Fixpoint fetch_all (k : core) (id : Z) (aqes : list Z) (max : Z) (n : nat) : outcome (list Z * Z * core) :=
  match n with
  | O => Done (aqes, id, k)
  | S n =>
    if Z.of_nat (length aqes) <? max then
      '(aqes, k) ← fetch_ctx k id aqes max (Z.to_nat BATCH_SIZE);
      fetch_all k ((id + 1) mod FLEXNIC_PL_APPCTX_NUM) aqes max n
    else Done (aqes, id, k)
  end.

(** The updates: [num_bufs] counts the buffers used. *)
Fixpoint bump_all (k : core) (aqes : list Z) (hs : Z -> option nbuf) (num_bufs ts : Z) : outcome (Z * core) :=
  match aqes with
  | [] => Done (num_bufs, k)
  | a :: aqes =>
    nbh ← handle hs num_bufs;
    '(ret, k) ← fast_appctx_poll_bump shm_len fp_xsumoffload eth_addr rte_ipv4_cksum rte_ipv4_udptcp_cksum
      k a nbh ts;
    bump_all k aqes hs (if ret =? 0 then num_bufs + 1 else num_bufs) ts
  end.

(** [fast_actx_rxq_probe] for the contexts from [id] on. *)
Fixpoint probe_all (k : core) (id : Z) (n : nat) : outcome core :=
  match n with
  | O => Done k
  | S n => actx ← fast_actx_rxq_probe shm_len (k_arx k) (k_appctx k id);
           probe_all (k <| k_appctx := <[id := actx]> (k_appctx k) |>) (id + 1) n
  end.

(** [poll_queues]. *)
Definition poll_queues e (ts : Z) : outcome (Z * engine) :=
  let k := e_core e in
  let '(max, hs, bc, pool) := bufcache_prealloc pktmbuf_alloc_bulk pktmbuf_alloc (e_bc e) (e_pool e) (tx_room k) in
  '(aqes, next, k) ← fetch_all k (e_poll_next_ctx e) [] max (Z.to_nat FLEXNIC_PL_APPCTX_NUM);
  '(num_bufs, k) ← bump_all k aqes hs 0 ts;
  bc ← bufcache_alloc bc num_bufs;
  k ← probe_all k 0 (Z.to_nat FLEXNIC_PL_APPCTX_NUM);
  Done (Z.of_nat (length aqes),
    e <| e_core := k |> <| e_bc := bc |> <| e_pool := pool |> <| e_poll_next_ctx := next |>).

(** The loop of [poll_kernel]: [k_] buffers are used so far, [total] commands done. *)
Fixpoint kernel_poll_all (n : nat) (k : core) (hs : Z -> option nbuf) (k_ max total ts : Z)
    : outcome (Z * Z * core) :=
  match n with
  | O => NoFuel
  | S n =>
    if k_ <? max then
      nbh ← handle hs k_;
      '(ret, k) ← fast_kernel_poll shm_len fp_xsumoffload rte_ipv4_cksum rte_ipv4_udptcp_cksum packet_of
        fuel k nbh ts;
      if ret <? 0 then Done (k_, total, k)
      else kernel_poll_all n k hs (if ret =? 0 then k_ + 1 else k_) max (total + 1) ts
    else Done (k_, total, k)
  end.

(** [poll_kernel]. *)
Definition poll_kernel e (ts : Z) : outcome (Z * engine) :=
  let k := e_core e in
  let room := Z.min (tx_room k) 8 in
  let '(max, hs, bc, pool) := bufcache_prealloc pktmbuf_alloc_bulk pktmbuf_alloc (e_bc e) (e_pool e) room in
  '(used, total, k) ← kernel_poll_all fuel k hs 0 max 0 ts;
  bc ← bufcache_alloc bc used;
  Done (total, e <| e_core := k |> <| e_bc := bc |> <| e_pool := pool |>).

(** One iteration of [dataplane_loop], up to the scaling of core 0: the number of items
    of work done (an iteration without any lets the core block). *)
Definition dataplane_iteration e (qman_ts ts : Z) : outcome (Z * engine) :=
  '(n1, e) ← poll_rx e ts;
  let e := tx_flush e in
  '(n2, e) ← poll_qman_fwd e;
  '(n3, e) ← poll_qman e qman_ts ts;
  '(n4, e) ← poll_queues e ts;
  '(n5, e) ← poll_kernel e ts;
  Done (n1 + n2 + n3 + n4 + n5, tx_flush e).

End Loop.

(** [dataplane_init]: whether the sizes fit. *)
Definition FLEXNIC_INTERNAL_MEM_SIZE : Z := 1024 * 1024 * 1024.
Definition FLEXNIC_PL_APPST_CTX_MCS : Z := 16.
Definition dataplane_init (sizeof_pl_mem fp_cores_max : Z) : bool :=
  if FLEXNIC_INTERNAL_MEM_SIZE <? sizeof_pl_mem then false
  else if FLEXNIC_PL_APPST_CTX_MCS <? fp_cores_max then false
  else if Qman.FLEXNIC_NUM_QMQUEUES <? FLEXNIC_PL_FLOWST_NUM then false
  else true.

End Fastemu.
