(* ===== verification/FastemuSpec.v ===== *)
(** * The main loop neither loses nor duplicates buffers and never overruns the transmit batch

    The proofs about [Fastemu]. *)
From S2P Require Import Prelude Memif Packet TcpCommon Qman QmanSpec QmanPoll QmanProps.
From S2P Require Import FastCtx FastFlows FastTx FastFlowsSpec FastFlowsProps AppCtx AppCtxSpec Fastemu.

Module FastemuSpec.
Import Packet TcpCommon FastCtx FastFlows FastTx FastFlowsSpec AppCtx Fastemu.

(** ** The buffer cache is a queue *)

Section Bufcache.
Context {B P : Type}.
Context (bulk : P -> Z -> option (list B * P)) (single : P -> option (B * P)).
(** [rte_pktmbuf_alloc_bulk] allocates all buffers or none. *)
Context (bulk_all : forall p n l p', bulk p n = Some (l, p') -> Z.of_nat (length l) = n).

Implicit Types (bc : bufcache B) (l bs : list B) (hs : Z -> option B).

Definition slots hs (head : Z) l : Prop :=
  forall i b, l !! i = Some b -> hs ((head + Z.of_nat i) mod BUFCACHE_SIZE) = Some b.

(** The cache holds the buffers [l], the oldest first. *)
Record bc_rep bc l : Prop := {
  br_head : 0 <= bc_head bc < BUFCACHE_SIZE;
  br_num : bc_num bc = Z.of_nat (length l);
  br_max : bc_num bc <= BUFCACHE_SIZE;
  br_slots : slots (bc_handles bc) (bc_head bc) l
}.

Lemma land_mask x : Z.land x (BUFCACHE_SIZE - 1) = x mod BUFCACHE_SIZE.
Proof. change (BUFCACHE_SIZE - 1) with (Z.ones 7). by rewrite Z.land_ones by lia. Qed.

Lemma store_out : forall (ws : list (option B)) hs at_ x, ~ (at_ <= x < at_ + Z.of_nat (length ws)) -> store hs at_ ws x = hs x.
Proof.
  induction ws as [|w ws IH]; intros hs at_ x Hx; cbn [store length] in *; [done|].
  rewrite IH by lia. unfold insert, fn_insert. rewrite decide_False by lia. done.
Qed.

Lemma store_in : forall (ws : list (option B)) hs at_ j w, ws !! j = Some w -> store hs at_ ws (at_ + Z.of_nat j) = w.
Proof.
  induction ws as [|y ws IH]; intros hs at_ j w Hj; [done|]. destruct j as [|j]; cbn [store].
  - injection Hj as ->. rewrite store_out by lia. unfold insert, fn_insert.
    rewrite decide_True by lia. done.
  - replace (at_ + Z.of_nat (S j)) with (at_ + 1 + Z.of_nat j) by lia. by apply IH.
Qed.

(** The pointers [ws] written by an allocation of at most [num] buffers that yields [bs]. *)
Definition alloced (ws : list (option B)) (res num : Z) bs : Prop :=
  res = Z.of_nat (length bs) /\ Z.of_nat (length ws) <= num /\ (length bs <= length ws)%nat /\
  forall j b, bs !! j = Some b -> ws !! j = Some (Some b).

Lemma alloc_each_ok : forall n p, exists ws res p' bs,
  alloc_each single p n = (ws, res, p') /\ alloced ws res (Z.of_nat n) bs.
Proof.
  induction n as [|n IH]; intros p; cbn [alloc_each].
  { exists [], 0, p, []. split; [done|]. split_and!; try done. }
  destruct (single p) as [[b p']|].
  - destruct (IH p') as (ws & res & p'' & bs & -> & Hr & Hw & Hl & Hj).
    eexists _, _, _, (b :: bs). split; [reflexivity|]. split_and!; cbn [length]; try lia.
    intros [|j] c Hc; [by injection Hc as ->|by apply (Hj j)].
  - eexists _, _, _, []. split; [reflexivity|]. split_and!; cbn; try lia. done.
Qed.

Lemma network_buf_alloc_ok p num : 0 <= num -> exists ws res p' bs,
  network_buf_alloc bulk single p num = (ws, res, p') /\ alloced ws res num bs.
Proof.
  intros Hn. unfold network_buf_alloc. destruct (bulk p num) as [[l p']|] eqn:E.
  - pose proof (bulk_all _ _ _ _ E) as Hl. eexists _, _, _, l. split; [reflexivity|].
    split_and!; rewrite ?length_map; try lia. intros j b Hj. change (map Some l) with (Some <$> l).
    by rewrite list_lookup_fmap, Hj.
  - destruct (alloc_each_ok (Z.to_nat num) p) as (ws & res & p' & bs & -> & Ha).
    rewrite Z2Nat.id in Ha by lia. eauto 10.
Qed.

(** Adding what was allocated behind the buffers of the cache, up to the end of the
    array. *)
Lemma slots_store hs head l ws res num bs pos : 0 <= head < BUFCACHE_SIZE ->
  slots hs head l -> alloced ws res num bs -> pos = (head + Z.of_nat (length l)) mod BUFCACHE_SIZE ->
  pos + num <= BUFCACHE_SIZE -> Z.of_nat (length l) + num <= BUFCACHE_SIZE ->
  slots (store hs pos ws) head (l ++ bs).
Proof.
  intros Hh Hs (Hr & Hw & Hbl & Hb) -> Hp Hlen i b Hi. unfold BUFCACHE_SIZE in *.
  apply lookup_app_Some in Hi as [Hi|[Hge Hi]].
  - rewrite store_out; [by apply Hs|]. apply lookup_lt_Some in Hi. intros Hin.
    destruct (Z_lt_le_dec (head + Z.of_nat i) 128), (Z_lt_le_dec (head + Z.of_nat (length l)) 128);
      Z.div_mod_to_equations; lia.
  - pose proof (lookup_lt_Some _ _ _ Hi) as Hlt. apply Hb in Hi.
    replace ((head + Z.of_nat i) mod 128) with ((head + Z.of_nat (length l)) mod 128 + Z.of_nat (i - length l));
      [by apply store_in|]. Z.div_mod_to_equations. lia.
Qed.

Lemma refill_ok bc p num l : bc_rep bc l -> 0 <= num <= BUFCACHE_SIZE ->
  exists bc' p' bs, bufcache_refill bulk single bc p num = (bc', p') /\
    bc_rep bc' (l ++ bs) /\ bc_head bc' = bc_head bc.
Proof.
  intros [Hh Hn Hm Hs] Hnum. unfold bufcache_refill, BUFCACHE_SIZE in *.
  destruct (Z.ltb_spec (bc_num bc) num) as [Hlt|].
  2:{ exists bc, p, []. rewrite app_nil_r. by split_and!. }
  rewrite u16_small by lia. change (128 - 1) with (BUFCACHE_SIZE - 1). rewrite land_mask.
  set (pos := (bc_head bc + bc_num bc) mod BUFCACHE_SIZE).
  assert (Hpos : pos = (bc_head bc + Z.of_nat (length l)) mod BUFCACHE_SIZE) by (unfold pos; by rewrite Hn).
  pose proof (Z.mod_pos_bound (bc_head bc + bc_num bc) BUFCACHE_SIZE eq_refl) as Hb. fold pos in Hb.
  unfold BUFCACHE_SIZE in Hb. destruct (Z.leb_spec (pos + (128 - bc_num bc)) 128) as [Hle|Hgt].
  - destruct (network_buf_alloc_ok p (128 - bc_num bc)) as (ws & res & p' & bs & -> & Ha); [lia|].
    pose proof Ha as (Hr & Hw & Hbl & _). exists (mk_bc (store (bc_handles bc) pos ws) (bc_num bc + res) (bc_head bc)), p', bs.
    rewrite u16_small by lia. split; [done|]. split; [|done]. constructor; cbn; try done.
    + rewrite length_app. lia.
    + unfold BUFCACHE_SIZE. lia.
    + apply (slots_store _ _ _ _ res (128 - bc_num bc)); unfold BUFCACHE_SIZE; (done || lia).
  - destruct (network_buf_alloc_ok p (128 - pos)) as (ws & res & p' & bs & -> & Ha); [lia|].
    pose proof Ha as (Hr & Hw & Hbl & _).
    assert (H1 : slots (store (bc_handles bc) pos ws) (bc_head bc) (l ++ bs)).
    { apply (slots_store _ _ _ _ res (128 - pos)); unfold BUFCACHE_SIZE; (done || lia). }
    destruct (Z.eqb_spec res (128 - pos)) as [E|E].
    + destruct (network_buf_alloc_ok p' (128 - bc_num bc - (128 - pos))) as (ws2 & res2 & p2 & bs2 & -> & Ha2); [lia|].
      pose proof Ha2 as (Hr2 & Hw2 & Hbl2 & _).
      exists (mk_bc (store (store (bc_handles bc) pos ws) 0 ws2) (bc_num bc + (res + res2)) (bc_head bc)), p2, (bs ++ bs2).
      rewrite (u16_small (res + res2)), u16_small by lia. split; [done|]. split; [|done].
      rewrite app_assoc. constructor; cbn; try done.
      * rewrite !length_app. lia.
      * unfold BUFCACHE_SIZE. lia.
      * eapply slots_store; [done|done|exact Ha2| |unfold BUFCACHE_SIZE; lia|].
        -- rewrite length_app. replace (bc_head bc + Z.of_nat (length l + length bs)) with (BUFCACHE_SIZE * 1 + 0)
             by (unfold pos, BUFCACHE_SIZE in *; Z.div_mod_to_equations; lia).
           by rewrite Z.mul_comm, Z.add_comm, Z.mod_add.
        -- rewrite length_app. unfold BUFCACHE_SIZE. lia.
    + exists (mk_bc (store (bc_handles bc) pos ws) (bc_num bc + res) (bc_head bc)), p', bs.
      rewrite u16_small by lia. split; [done|]. split; [|done]. constructor; cbn; try done.
      * rewrite length_app. lia.
      * unfold BUFCACHE_SIZE. lia.
Qed.

Lemma prealloc_ok bc l p num : bc_rep bc l -> 0 <= num <= BUFCACHE_SIZE ->
  exists n hs bc' p' bs, bufcache_prealloc bulk single bc p num = (n, hs, bc', p') /\
    bc_rep bc' (l ++ bs) /\ bc_head bc' = bc_head bc /\
    0 <= n <= num /\ n <= Z.of_nat (length (l ++ bs)) /\
    (forall i, 0 <= i < n -> hs i = (l ++ bs) !! Z.to_nat i) /\
    (n = num \/ n = Z.of_nat (length (l ++ bs)) \/ bc_head bc + n = BUFCACHE_SIZE).
Proof.
  intros Hr Hnum. destruct (refill_ok bc p num l Hr Hnum) as (bc' & p' & bs & E & Hr' & Eh).
  unfold bufcache_prealloc. rewrite E. pose proof Hr' as [Hh Hn Hm Hs]. pose proof Hr as [Hh0 _ _ _].
  unfold BUFCACHE_SIZE in *.
  set (n := Z.min num (if bc_head bc' + bc_num bc' <=? 128 then bc_num bc' else 128 - bc_head bc')).
  assert (Hn' : 0 <= n <= num /\ n <= bc_num bc' /\ bc_head bc' + n <= 128 /\
    (n = num \/ n = bc_num bc' \/ bc_head bc' + n = 128)).
  { unfold n. destruct (Z.leb_spec (bc_head bc' + bc_num bc') 128); lia. }
  eexists _, _, bc', p', bs. split; [reflexivity|]. unfold u8. rewrite Z.mod_small by lia.
  split; [done|]. split; [done|]. split; [lia|]. split; [lia|]. split; [|rewrite <-Hn, <-Eh; lia].
  intros i Hi. destruct (lookup_lt_is_Some_2 (l ++ bs) (Z.to_nat i)) as [b Hb]; [lia|].
  rewrite Hb. specialize (Hs _ _ Hb). rewrite Z2Nat.id in Hs by lia. unfold BUFCACHE_SIZE in Hs.
  rewrite Z.mod_small in Hs by lia. exact Hs.
Qed.

(** The buffer cache is a queue of buffers.  [bufcache_prealloc] only adds buffers
    from the pool at its end and then shows the first [n] of them, consecutively in the
    array; fewer than asked for only at the end of the array, or when the cache cannot
    be filled. *)
Theorem bufcache_prealloc_refines bc l p num : bc_rep bc l -> 0 <= num <= BUFCACHE_SIZE ->
  exists n hs bc' p' bs, bufcache_prealloc bulk single bc p num = (n, hs, bc', p') /\
    bc_rep bc' (l ++ bs) /\ bc_head bc' = bc_head bc /\
    0 <= n <= num /\ n <= Z.of_nat (length (l ++ bs)) /\
    (forall i, 0 <= i < n -> hs i = (l ++ bs) !! Z.to_nat i) /\
    (n = num \/ n = Z.of_nat (length (l ++ bs)) \/ bc_head bc + n = BUFCACHE_SIZE).
Proof. apply prealloc_ok. Qed.

Lemma slots_drop hs head l n : 0 <= head < BUFCACHE_SIZE -> (n <= length l)%nat ->
  slots hs head l -> slots hs ((head + Z.of_nat n) mod BUFCACHE_SIZE) (drop n l).
Proof.
  intros Hh Hn Hs i b Hi. rewrite lookup_drop in Hi. rewrite Zplus_mod_idemp_l.
  apply Hs in Hi. rewrite <-Hi. f_equal. f_equal. lia.
Qed.

Lemma bc_alloc_ok bc l n : bc_rep bc l -> 0 <= n <= Z.of_nat (length l) ->
  exists bc', bufcache_alloc bc n = Done bc' /\ bc_rep bc' (drop (Z.to_nat n) l).
Proof.
  intros [Hh Hn Hm Hs] Hn0. unfold bufcache_alloc. rewrite (proj2 (Z.leb_le _ _)) by lia.
  eexists. split; [reflexivity|]. rewrite land_mask. unfold BUFCACHE_SIZE in Hm. constructor; cbn.
  - apply Z.mod_pos_bound. done.
  - rewrite u16_small by lia. rewrite length_drop. lia.
  - rewrite u16_small by lia. unfold BUFCACHE_SIZE. lia.
  - replace n with (Z.of_nat (Z.to_nat n)) at 1 by lia. apply slots_drop; (done || lia).
Qed.

(** [bufcache_alloc] takes the first [n] buffers out of the cache (it aborts when
    there are fewer), and [bufcache_free] puts a buffer at the end of it, or gives it
    back to the pool when the cache is full: no buffer is lost or kept twice. *)
Theorem bufcache_alloc_free_refines bc l : bc_rep bc l ->
  (forall n, 0 <= n ->
    match bufcache_alloc bc n with
    | Done bc' => n <= Z.of_nat (length l) /\ bc_rep bc' (drop (Z.to_nat n) l)
    | Aborted => Z.of_nat (length l) < n
    | NoFuel => False
    end) /\
  (forall h, let '(bc', o) := bufcache_free bc h in
    exists l', bc_rep bc' l' /\ l' ++ match o with Some b => [b] | None => [] end = l ++ [h]).
Proof.
  intros Hr. pose proof Hr as [Hh Hn Hm Hs]. split.
  - intros n Hn0. destruct (Z.le_gt_cases n (Z.of_nat (length l))).
    + destruct (bc_alloc_ok bc l n Hr) as (bc' & -> & Hr'); [lia|]. by split.
    + unfold bufcache_alloc. rewrite (proj2 (Z.leb_gt _ _)) by lia. cbn. lia.
  - intros h. unfold bufcache_free. destruct (Z.ltb_spec (bc_num bc) BUFCACHE_SIZE).
    2:{ exists l. by split. }
    exists (l ++ [h]). split; [|by rewrite app_nil_r]. rewrite land_mask. constructor; cbn; try done.
    + rewrite length_app. cbn. lia.
    + lia.
    + apply (slots_store _ _ _ [Some h] 1 1); try done.
      * split_and!; try done. intros [|j] b Hb; [by injection Hb as ->|by destruct j].
      * by rewrite Hn.
      * pose proof (Z.mod_pos_bound (bc_head bc + bc_num bc) BUFCACHE_SIZE eq_refl). lia.
      * lia.
Qed.

End Bufcache.

(** ** Sending what the queue manager fires *)

Section Sending.
Context (shm_len : Z) (fp_xsumoffload : bool) (eth_addr : Z).
Context (rte_ipv4_cksum rte_ipv4_udptcp_cksum : pkt_tcp -> Z) (fwd_enqueue : Z -> Z -> bool).

Abbreviation dpq := (dp Qman.qman_thread).
Abbreviation fast_flows_qman :=
  (fast_flows_qman shm_len fp_xsumoffload eth_addr rte_ipv4_cksum rte_ipv4_udptcp_cksum fwd_enqueue).
Abbreviation qman_fire_all :=
  (qman_fire_all shm_len fp_xsumoffload eth_addr rte_ipv4_cksum rte_ipv4_udptcp_cksum fwd_enqueue).

(** The flows [D] of this core, with the streams of each of them. *)
Context (D : Z -> Prop) (S T : Z -> Z -> Z) (N isn : Z -> Z).

Record flows_ok (c : dpq) (M : Z -> Z) : Prop := {
  fo_inv i : D i -> flow_inv shm_len (c_mem c) (c_flowst c i) (S i) (T i) (N i) (isn i) (M i);
  fo_core i : D i -> c_steering c (fs_flow_group (c_flowst c i)) = c_id c
}.

(** The parts of the context that sending does not touch. *)
Record send_frame (c c' : dpq) : Prop := {
  sf_mem : c_mem c' = c_mem c;
  sf_qman : c_qman c' = c_qman c;
  sf_arx : c_arx c' = c_arx c;
  sf_other i : ~ D i -> c_flowst c' i = c_flowst c i
}.

(** One entry: a segment for a flow that has something to send, nothing otherwise. *)
Lemma fire_one c fid nbh ts M q : flows_ok c M -> D fid -> in32 ts ->
  Z.of_nat (length (c_tx c)) < TXBUF_SIZE -> tcp_txavail (c_flowst c fid) None <= q ->
  exists (sends : bool) c' M' new,
    fast_flows_qman c fid nbh ts = Done (if sends then 0 else -1, c') /\
    flows_ok c' M' /\ send_frame c c' /\ c_tx c' = c_tx c ++ new /\
    length new = (if sends then 1 else 0)%nat /\ (forall i, M i <= M' i) /\
    tcp_txavail (c_flowst c' fid) None <= Z.max 0 (q - Z.min q TCP_MSS) /\
    (forall i, i <> fid -> c_flowst c' i = c_flowst c i).
Proof.
  intros [Hinv Hcore] HD H32 Hroom Hq. pose proof (Hinv fid HD) as Hf.
  pose proof (txavail_u32 shm_len _ (fi_tx _ _ _ _ _ _ _ _ Hf)) as Hr.
  destruct (decide (tcp_txavail (c_flowst c fid) None = 0)) as [E0|E0].
  - exists false, c, M, []. unfold FastFlows.fast_flows_qman. rewrite (Hcore fid HD), Z.eqb_refl, E0. cbn.
    rewrite app_nil_r. split_and!; try done. lia.
  - destruct (qman_sends_ok shm_len fp_xsumoffload eth_addr rte_ipv4_cksum rte_ipv4_udptcp_cksum fwd_enqueue
      c fid nbh ts _ _ _ _ _ Hf (Hcore fid HD)) as (fs' & nb & E & Hinv' & Hg & _ & _ & _ & _ & Hq'); [lia|done|done|].
    set (len := Z.min (tcp_txavail (c_flowst c fid) None) TCP_MSS) in *.
    assert (Hlen : 0 <= len) by (unfold len, TCP_MSS; lia).
    exists true, ((set_flow c fid fs') <| c_tx := c_tx c ++ [nb] |>), (<[fid := M fid + len]> M), [nb].
    split; [exact E|].
    assert (Hfl : forall i, c_flowst ((set_flow c fid fs') <| c_tx := c_tx c ++ [nb] |>) i =
      if decide (fid = i) then fs' else c_flowst c i) by done.
    split_and!; try done.
    + constructor; intros i Hi; rewrite Hfl; cbn; unfold insert, fn_insert.
      * case_decide; [by subst|by apply Hinv].
      * case_decide; [|by apply Hcore]. subst. rewrite Hg. by apply Hcore.
    + constructor; try done. intros i Hi. rewrite Hfl, decide_False by congruence. done.
    + intros i. unfold insert, fn_insert. case_decide; [subst; lia|lia].
    + rewrite Hfl, decide_True by done. specialize (Hq' q Hq). lia.
    + intros i Hi. rewrite Hfl, decide_False by congruence. done.
Qed.

(** What [poll_qman]'s loop does to all entries, from [off] buffers used on: [A i] bytes of flow
    [i] stay scheduled. *)
Lemma qman_fire_all_ok hs max ts A : in32 ts -> (forall i, 0 <= i < max -> is_Some (hs i)) ->
  (forall i, 0 <= A i) -> forall l off c M,
  flows_ok c M -> Forall (fun p => D (fst p) /\ 0 <= snd p <= TCP_MSS) l ->
  (forall i, D i -> tcp_txavail (c_flowst c i) None <= A i + QmanPoll.sent i l) ->
  0 <= off -> off + Z.of_nat (length l) <= max ->
  Z.of_nat (length (c_tx c) + length l) <= TXBUF_SIZE ->
  exists c' M' new, qman_fire_all l hs off c ts = Done (off + Z.of_nat (length new), c') /\
    (length new <= length l)%nat /\ c_tx c' = c_tx c ++ new /\
    flows_ok c' M' /\ send_frame c c' /\ (forall i, M i <= M' i) /\
    (forall i, D i -> tcp_txavail (c_flowst c' i) None <= A i).
Proof.
  intros H32 Hhs HA. induction l as [|[q b] l IH]; intros off c M Hok Hl Hcr Hoff Hmax Htx;
    cbn [Fastemu.qman_fire_all].
  { exists c, M, []. rewrite app_nil_r. cbn. rewrite Z.add_0_r. split_and!; try done.
    intros i Hi. specialize (Hcr i Hi). cbn in Hcr. lia. }
  apply Forall_cons in Hl as [[HD Hb] Hl]. cbn [fst snd length] in *.
  destruct (Hhs off) as [nbh Hnb]; [lia|]. unfold handle. rewrite Hnb. cbn [mbind outcome_bind].
  assert (Hnn : forall i, 0 <= QmanPoll.sent i l).
  { intros i. apply QmanPoll.sent_nonneg. eapply Forall_impl; [exact Hl|]. cbn. lia. }
  pose proof (Hcr q HD) as Hq. rewrite QmanPoll.sent_cons, decide_True in Hq by done.
  destruct (fire_one c q nbh ts M _ Hok HD H32 ltac:(lia) Hq)
    as (sends & c1 & M1 & new & -> & Hok1 & Hf1 & Htx1 & Hn1 & HM1 & Hav1 & Ho1).
  cbn [mbind outcome_bind].
  destruct (IH (if (if sends then 0 else -1) =? 0 then off + 1 else off) c1 M1 Hok1 Hl)
    as (c2 & M2 & new2 & -> & Hn2 & Htx2 & Hok2 & Hf2 & HM2 & Hav2).
  - intros i Hi. specialize (Hcr i Hi). rewrite QmanPoll.sent_cons in Hcr. specialize (Hnn i). specialize (HA i).
    destruct (decide (q = i)) as [->|Hne]; [lia|]. rewrite Ho1 by congruence. lia.
  - destruct sends; cbn; lia.
  - destruct sends; cbn; lia.
  - rewrite Htx1, length_app, Hn1. destruct sends; lia.
  - exists c2, M2, (new ++ new2). rewrite length_app, Hn1. split.
    { do 2 f_equal. destruct sends; cbn; lia. }
    split; [destruct sends; lia|]. split; [by rewrite Htx2, Htx1, app_assoc|].
    split; [done|]. split; [|split; [|done]].
    + destruct Hf1, Hf2. constructor; try congruence. intros i Hi. rewrite sf_other1, sf_other0 by done. done.
    + intros i. specialize (HM1 i). specialize (HM2 i). lia.
Qed.

Context {P : Type} (bulk : P -> Z -> option (list nbuf * P)) (single : P -> option (nbuf * P)).
Context (bulk_all : forall p n l p', bulk p n = Some (l, p') -> Z.of_nat (length l) = n).

(** C5: [poll_qman] in a state where the flows of this core satisfy their invariant and
    every byte that may be sent is scheduled: no matter what the pool yields, the round
    returns (no assertion, no overflow of the transmit batch, no missing buffer), it
    appends the segments it builds to the batch and takes exactly as many buffers out of
    the cache, and every flow keeps its invariant with all sendable bytes scheduled. *)
Theorem poll_qman_safe fuel (e : engine (P := P)) qman_ts ts l M :
  let c := k_dp (e_core e) in
  bc_rep (e_bc e) l -> tx_num (e_core e) <= TXBUF_SIZE -> flows_ok c M ->
  QmanProps.qman_ok (c_qman c) -> QmanPoll.elapsed (c_qman c) qman_ts < 2147483648 ->
  in32 qman_ts -> in32 ts -> BATCH_SIZE + Qman.FLEXNIC_NUM_QMQUEUES < Z.of_nat fuel ->
  (forall i, 0 < Qman.q_avail (Qman.queues (c_qman c) i) ->
    D i /\ Qman.q_max_chunk (Qman.queues (c_qman c) i) <= TCP_MSS) ->
  (forall i, D i -> credit c i) ->
  exists n e' M' new bs,
    poll_qman shm_len fp_xsumoffload eth_addr rte_ipv4_cksum rte_ipv4_udptcp_cksum fwd_enqueue
      bulk single fuel e qman_ts ts = Done (n, e') /\
    let c' := k_dp (e_core e') in
    n <= tx_room (e_core e) /\ Z.of_nat (length new) <= n /\
    c_tx c' = c_tx c ++ new /\ tx_num (e_core e') <= TXBUF_SIZE /\
    bc_rep (e_bc e') (drop (length new) (l ++ bs)) /\
    flows_ok c' M' /\ (forall i, M i <= M' i) /\ QmanProps.qman_ok (c_qman c') /\
    (forall i, D i -> credit c' i).
Proof.
  intros c Hbc Htx Hok Hq Hel Hqts H32 Hfuel Hch Hcr. unfold poll_qman. fold c.
  assert (Hroom : 0 <= tx_room (e_core e) <= 16 /\ tx_num (e_core e) + tx_room (e_core e) <= TXBUF_SIZE)
    by (unfold tx_room, tx_num, TXBUF_SIZE, BATCH_SIZE in *; lia).
  destruct (prealloc_ok bulk single bulk_all (e_bc e) l (e_pool e) (tx_room (e_core e)) Hbc)
    as (max & hs & bc1 & p1 & bs1 & -> & Hbc1 & _ & Hmax & Hlen & Hhs & _); [unfold BUFCACHE_SIZE; lia|].
  destruct (QmanProps.qman_poll_inv fuel (c_qman c) qman_ts max Hq)
    as (out & q & -> & Hq' & _ & Hn & Hav & Hout & _); [lia|done|done|unfold BATCH_SIZE in Hfuel; lia|].
  cbn [mbind outcome_bind].
  set (c1 := c <| c_qman := q |>).
  assert (Hok1 : flows_ok c1 M) by (destruct Hok; by constructor).
  destruct (Z.leb_spec (Z.of_nat (length out)) 0) as [H0|H0].
  - exists 0, (e <| e_bc := bc1 |> <| e_pool := p1 |> <| e_core := (e_core e) <| k_dp := c1 |> |>), M, [], bs1.
    split; [done|]. split_and!; cbn; rewrite ?app_nil_r, ?drop_0; try done; try lia.
    intros i Hi. specialize (Hcr i Hi). unfold credit in *. cbn in Hcr |- *.
    destruct out; [|cbn in H0; lia]. pose proof (proj1 (Hav i)) as Ha. cbn in Ha. lia.
  - destruct (qman_fire_all_ok hs max ts (fun i => Qman.q_avail (Qman.queues q i)) H32) with
      (l := out) (off := 0) (c := c1) (M := M) as (c2 & M2 & new & -> & Hnew & Htx2 & Hok2 & Hf2 & HM2 & Hav2).
    + intros i Hi. rewrite Hhs by done. apply lookup_lt_is_Some_2. lia.
    + intros i. destruct Hq' as [(Ls & NL & Hqi) _]. apply (QmanSpec.qi_ok _ _ _ Hqi).
    + done.
    + eapply Forall_impl; [exact Hout|]. intros [i b]. cbn. intros (_ & Hb & Hi).
      destruct (Hch i Hi). split; [done|lia].
    + intros i Hi. specialize (Hcr i Hi). unfold credit in Hcr. cbn in Hcr |- *. rewrite (proj1 (Hav i)). done.
    + lia.
    + lia.
    + change (c_tx c1) with (c_tx c). unfold tx_num in *. fold c in Hroom. lia.
    + cbn [mbind outcome_bind]. rewrite Z.add_0_l. destruct (bc_alloc_ok bc1 (l ++ bs1) (Z.of_nat (length new)) Hbc1)
        as (bc2 & -> & Hbc2); [lia|]. cbn [mbind outcome_bind]. rewrite Nat2Z.id in Hbc2.
      eexists _, _, M2, new, bs1. split; [reflexivity|]. cbn. split_and!; try done; try lia.
      * unfold tx_num. cbn. rewrite Htx2, length_app. unfold tx_num in *. fold c in Hroom.
        change (c_tx c1) with (c_tx c). lia.
      * by rewrite (sf_qman _ _ Hf2).
      * intros i Hi. unfold credit. cbn. rewrite (sf_qman _ _ Hf2). by apply Hav2.
Qed.

End Sending.


(** [tx_flush], when the NIC takes between none and all packets of the batch: the
    packets go out in the order in which they were added, and what is on the wire
    followed by what is still in the batch is what it was before. *)
Theorem tx_flush_fifo {P : Type} (send_pkt : list nbuf -> Z) (e : engine (P := P)) :
  let batch e := c_tx (k_dp (e_core e)) in
  (forall l, 0 <= send_pkt l <= Z.of_nat (length l)) ->
  let e' := tx_flush send_pkt e in
  e_wire e' ++ batch e' = e_wire e ++ batch e /\
  Z.of_nat (length (batch e')) = Z.of_nat (length (batch e)) - send_pkt (batch e) /\
  e_bc e' = e_bc e /\ k_arx (e_core e') = k_arx (e_core e).
Proof.
  intros batch Hs. unfold tx_flush, network_send, tx_num, batch. specialize (Hs (c_tx (k_dp (e_core e)))).
  set (l := c_tx (k_dp (e_core e))) in *. destruct (Z.eqb_spec (Z.of_nat (length l)) 0).
  { fold l. split_and!; try done. lia. }
  destruct (Z.eqb_spec (send_pkt l) (Z.of_nat (length l))) as [E|E]; [|destruct (Z.ltb_spec 0 (send_pkt l))].
  - cbn. fold l. rewrite app_nil_r. split_and!; try done. lia.
  - cbn. fold l. rewrite <-app_assoc, take_drop, length_drop. split_and!; try done. lia.
  - fold l. split_and!; try done. lia.
Qed.

(** ** Concrete runs *)

Definition ex_bulk : Z -> Z -> option (list nbuf * Z) := fun p n =>
  Some (replicate (Z.to_nat n) (FastFlowsProps.ex_nbuf (FastFlowsProps.ex_pkt 0 0 0 0)), p + n).
Definition ex_single : Z -> option (nbuf * Z) := fun p => None.
Definition ex_bulk' (p n : Z) : option (list nbuf * Z) := if n <? 0 then None else ex_bulk p n.

Lemma ex_bulk_all p n l p' : ex_bulk' p n = Some (l, p') -> Z.of_nat (length l) = n.
Proof.
  unfold ex_bulk', ex_bulk. destruct (Z.ltb_spec n 0); [done|]. intros E. injection E as <- <-.
  rewrite length_replicate. lia.
Qed.

Definition ex_bc : bufcache nbuf := mk_bc (fun _ => None) 0 120.

Lemma ex_bc_rep : bc_rep ex_bc [].
Proof. constructor; cbn; try done; unfold BUFCACHE_SIZE; lia. Qed.

Lemma bufcache_prealloc_refines_witness : exists n hs bc' p',
  bufcache_prealloc ex_bulk' ex_single ex_bc 0 16 = (n, hs, bc', p') /\ 0 <= n <= 16.
Proof.
  destruct (bufcache_prealloc_refines ex_bulk' ex_single ex_bulk_all ex_bc [] 0 16 ex_bc_rep)
    as (n & hs & bc' & p' & bs & E & _ & _ & Hn & _); [unfold BUFCACHE_SIZE; lia|].
  exists n, hs, bc', p'. split; [exact E|exact Hn].
Defined.

Lemma bufcache_alloc_free_refines_witness : exists l',
  bc_rep (fst (bufcache_free ex_bc (FastFlowsProps.ex_nbuf (FastFlowsProps.ex_pkt 0 0 0 0)))) l'.
Proof.
  destruct (bufcache_alloc_free_refines ex_bc [] ex_bc_rep) as [_ Hf].
  specialize (Hf (FastFlowsProps.ex_nbuf (FastFlowsProps.ex_pkt 0 0 0 0))).
  destruct (bufcache_free ex_bc _) as [bc' o]. destruct Hf as (l' & Hr & _). exists l'. exact Hr.
Defined.

Definition ex_engine (q : Qman.qman_thread) : engine (P := Z) :=
  mk_engine (AppCtxSpec.ex_core <| k_dp := (FastFlowsProps.ex_ctx FastFlowsProps.ex_fs FastFlowsProps.zeros)
    <| c_qman := q |> |>) ex_bc 0 0 [] [] [].

Lemma tx_flush_fifo_witness :
  let send l := Z.of_nat (length l) in
  let nb := FastFlowsProps.ex_nbuf (FastFlowsProps.ex_pkt 0 0 0 0) in
  let e := ex_engine (Qman.qman_thread_init 0 0 true) in
  let e := e <| e_core := (e_core e) <| k_dp := (k_dp (e_core e)) <| c_tx := [nb; nb] |> |> |> in
  e_wire (tx_flush send e) ++ c_tx (k_dp (e_core (tx_flush send e))) = [nb; nb].
Proof.
  intros send nb e0 e. destruct (tx_flush_fifo send e) as [E _].
  - intros l. unfold send. lia.
  - exact E.
Defined.

Lemma poll_qman_safe_witness : exists q n e',
  Qman.qman_set (Z.to_nat 200000) (Qman.qman_thread_init 1 5 true) 5 0 3000 TCP_MSS SET_ALL = Done (true, q) /\
  poll_qman FastFlowsProps.SHM true 7 FastFlowsProps.no_cksum FastFlowsProps.no_cksum (fun _ _ => true)
    ex_bulk' ex_single (Z.to_nat 200000) (ex_engine q) 1000 9 = Done (n, e') /\ n <= 16.
Proof.
  destruct (QmanProps.qman_set_inv (Z.to_nat 200000) (Qman.qman_thread_init 1 5 true) 5 0 3000 TCP_MSS SET_ALL)
    as (q & E & Hok & (Ha & _ & Hc) & _ & Er & Ho).
  { apply QmanProps.qman_thread_init_inv. lia. }
  { unfold Qman.FLEXNIC_NUM_QMQUEUES. lia. }
  { unfold Qman.FLEXNIC_NUM_QMQUEUES. lia. }
  { constructor; vm_compute; intuition congruence. }
  destruct (poll_qman_safe FastFlowsProps.SHM true 7 FastFlowsProps.no_cksum FastFlowsProps.no_cksum
    (fun _ _ => true) (fun i => i = 5) (fun _ => FastFlowsProps.zeros) (fun _ => FastFlowsProps.zeros)
    (fun _ => 0) (fun _ => 5000) ex_bulk' ex_single ex_bulk_all (Z.to_nat 200000) (ex_engine q) 1000 9 []
    (fun _ => 500)) as (n & e' & _ & _ & _ & Ep & Hn & _).
  - exact ex_bc_rep.
  - vm_compute. discriminate.
  - constructor; [intros i _; exact FastFlowsProps.ex_flow_inv|done].
  - exact Hok.
  - change (QmanPoll.elapsed q 1000 < 2147483648). unfold QmanPoll.elapsed. rewrite Er. reflexivity.
  - lia.
  - lia.
  - unfold BATCH_SIZE, Qman.FLEXNIC_NUM_QMQUEUES. lia.
  - intros i Hi. change (0 < Qman.q_avail (Qman.queues q i)) in Hi.
    change (i = 5 /\ Qman.q_max_chunk (Qman.queues q i) <= TCP_MSS). destruct (decide (i = 5)) as [->|Hne].
    + split; [reflexivity|]. rewrite Hc. vm_compute. discriminate.
    + exfalso. rewrite (proj1 (Ho i Hne)) in Hi. vm_compute in Hi. discriminate.
  - intros i ->. unfold credit. change (tcp_txavail FastFlowsProps.ex_fs None <= Qman.q_avail (Qman.queues q 5)).
    rewrite Ha. vm_compute. discriminate.
  - exists q, n, e'. split; [exact E|]. split; [exact Ep|]. change (n <= 16) in Hn. exact Hn.
Defined.

End FastemuSpec.
