(* ===== verification/Packetmem.v ===== *)
(** * Allocation of packet memory ([tas/slow/packetmem.c])

    A first-fit allocator whose free list is a linked list of handles in the C heap.  A
    handle is an address with the fields [base], [len] and [next]; [live] are the
    addresses that [malloc] has given out and that have not been freed. *)
From S2P Require Import Prelude Chain.
From stdpp Require Import gmap.
#[local] Open Scope Z_scope.

Module Packetmem.

Definition NULL : Z := 0.

Record pmem : Type := mk_pmem {
  ph_base : Z -> Z;
  ph_len : Z -> Z;
  ph_next : Z -> Z;
  freelist : Z;
  live : gset Z
}.
#[export] Instance eta_pmem : Eta pmem := fun r =>
  mk_pmem (ph_base r) (ph_len r) (ph_next r) (freelist r) (live r).

(** [ph_alloc]: [m] is the result of [malloc]. *)
Definition ph_alloc (st : pmem) (m : option Z) : option (Z * pmem) :=
  (fun x => (x, st <| live := {[x]} ∪ live st |>)) <$> m.
Definition ph_free (st : pmem) (ph : Z) : pmem := st <| live := live st ∖ {[ph]} |>.

(** [packetmem_init]: [true] is the return value 0. *)
Definition packetmem_init (st : pmem) (dma_mem_size : Z) (m : option Z) : bool * pmem :=
  match ph_alloc st m with
  | None => (false, st)
  | Some (ph, st) =>
    (true, st <| ph_base := <[ph := 0]> (ph_base st) |> <| ph_len := <[ph := dma_mem_size]> (ph_len st) |>
              <| ph_next := <[ph := NULL]> (ph_next st) |> <| freelist := ph |>)
  end.

(** The first loop of [packetmem_alloc]: the first handle that is large enough, and its
    predecessor. *)
Fixpoint find_fit (fuel : nat) (st : pmem) (length ph_prev ph : Z) : outcome (Z * Z) :=
  match fuel with
  | O => NoFuel
  | S fuel =>
    if negb (ph =? NULL) && (ph_len st ph <? length) then find_fit fuel st length ph (ph_next st ph)
    else Done (ph_prev, ph)
  end.

(** [packetmem_alloc]: the handle, whose [base] is the offset returned. *)
Definition packetmem_alloc (fuel : nat) (st : pmem) (length : Z) (m : option Z) : outcome (option Z * pmem) :=
  '(ph_prev, ph) ← find_fit fuel st length NULL (freelist st);
  if ph =? NULL then Done (None, st)
  else if ph_len st ph =? length then
    let st := if ph_prev =? NULL then st <| freelist := ph_next st ph |>
              else st <| ph_next := <[ph_prev := ph_next st ph]> (ph_next st) |> in
    Done (Some ph, st)
  else
    match ph_alloc st m with
    | None => Done (None, st)
    | Some (ph_new, st) =>
      let st := st <| ph_base := <[ph_new := ph_base st ph]> (ph_base st) |>
                   <| ph_len := <[ph_new := length]> (ph_len st) |>
                   <| ph_next := <[ph_new := NULL]> (ph_next st) |> in
      let st := st <| ph_base := <[ph := u64 (ph_base st ph + length)]> (ph_base st) |>
                   <| ph_len := <[ph := u64 (ph_len st ph - length)]> (ph_len st) |> in
      Done (Some ph_new, st)
    end.

(** Handle [x], which follows [ph], becomes a part of [ph]. *)
Definition absorb (st : pmem) (ph x : Z) : pmem :=
  ph_free (st <| ph_next := <[ph := ph_next st x]> (ph_next st) |>
              <| ph_len := <[ph := u64 (ph_len st ph + ph_len st x)]> (ph_len st) |>) x.

(** [merge_items]. *)
Definition merge_items (st : pmem) (ph_prev : Z) : pmem :=
  let '(ph, st) :=
    if negb (ph_prev =? NULL) then
      let ph := ph_next st ph_prev in
      if u64 (ph_base st ph_prev + ph_len st ph_prev) =? ph_base st ph
      then (ph_prev, absorb st ph_prev ph) else (ph, st)
    else (freelist st, st) in
  let ph_next_ := ph_next st ph in
  if negb (ph_next_ =? NULL) && (u64 (ph_base st ph + ph_len st ph) =? ph_base st ph_next_)
  then absorb st ph ph_next_ else st.

(** The loop of [packetmem_free]. *)
Fixpoint find_succ (fuel : nat) (st : pmem) (base ph_prev ph : Z) : outcome (Z * Z) :=
  match fuel with
  | O => NoFuel
  | S fuel =>
    if negb (ph =? NULL) && negb (ph_next st ph =? NULL) && (ph_base st (ph_next st ph) <? base)
    then find_succ fuel st base ph (ph_next st ph)
    else Done (ph_prev, ph)
  end.

(** [packetmem_free]. *)
Definition packetmem_free (fuel : nat) (st : pmem) (handle : Z) : outcome pmem :=
  '(ph_prev, _) ← find_succ fuel st (ph_base st handle) NULL (freelist st);
  let st :=
    if ph_prev =? NULL then
      st <| ph_next := <[handle := freelist st]> (ph_next st) |> <| freelist := handle |>
    else
      let st := st <| ph_next := <[handle := ph_next st ph_prev]> (ph_next st) |> in
      st <| ph_next := <[ph_prev := handle]> (ph_next st) |> in
  Done (merge_items st ph_prev).

End Packetmem.
