(* ===== verification/PacketmemSpec.v ===== *)
(** * Allocated packet memory never overlaps

    The proofs about [Packetmem]: the free and the allocated areas partition the packet
    memory at all times, and every loop ends. *)
From S2P Require Import Prelude Chain Packetmem.
From stdpp Require Import gmap.
#[local] Open Scope Z_scope.

Module PacketmemSpec.
Import Packetmem.

Section Packetmem.
Context (size : Z) (size_ok : 0 < size < 18446744073709551616).

Definition apart (st : pmem) (x y : Z) : Prop :=
  ph_base st x + ph_len st x <= ph_base st y \/ ph_base st y + ph_len st y <= ph_base st x.

Definition total (st : pmem) (L : list Z) : Z := foldr (fun h s => ph_len st h + s) 0 L.

(** The free list is [L], the handles given out are [A]. *)
Record pm_inv (st : pmem) (L A : list Z) : Prop := {
  pm_chain : chain NULL (ph_next st) (freelist st) L;
  pm_nodup : NoDup (L ++ A);
  pm_null : NULL ∉ A;
  pm_live x : x ∈ live st <-> x ∈ L ++ A;
  pm_range x : x ∈ L ++ A -> 0 <= ph_base st x /\ 0 < ph_len st x /\ ph_base st x + ph_len st x <= size;
  pm_apart x y : x ∈ L ++ A -> y ∈ L ++ A -> x <> y -> apart st x y;
  pm_total : total st (L ++ A) = size
}.

(** The areas of the handles [A] are what they were. *)
Definition same_areas (st st' : pmem) (A : list Z) : Prop :=
  forall x, x ∈ A -> ph_base st' x = ph_base st x /\ ph_len st' x = ph_len st x.

Lemma total_ext st st' L : (forall x, x ∈ L -> ph_len st' x = ph_len st x) -> total st' L = total st L.
Proof.
  induction L as [|x L IH]; intros Hx; [done|]. cbn. rewrite Hx by set_solver. f_equal.
  apply IH. set_solver.
Qed.

Lemma total_cons st x L : total st (x :: L) = ph_len st x + total st L.
Proof. done. Qed.

Lemma total_app st L1 L2 : total st (L1 ++ L2) = total st L1 + total st L2.
Proof. unfold total. induction L1 as [|x L1 IH]; cbn; [done|]. rewrite IH. lia. Qed.

Lemma total_perm st L1 L2 : L1 ≡ₚ L2 -> total st L1 = total st L2.
Proof. unfold total. induction 1; cbn; lia. Qed.

Lemma seg_link_head nx h A e : seg NULL nx h A e -> forall x B, A = x :: B -> h = x.
Proof. intros Hs x B ->. by destruct Hs. Qed.

(** ** One handle absorbs its successor *)

Lemma absorb_ok st L1 p x L2 A : pm_inv st (L1 ++ p :: x :: L2) A ->
  ph_base st p + ph_len st p = ph_base st x ->
  pm_inv (absorb st p x) (L1 ++ p :: L2) A /\ same_areas st (absorb st p x) A.
Proof.
  intros [Hc Hnd Hnull Hl Hr Ha Ht] Hadj.
  assert (Hperm : (L1 ++ p :: x :: L2) ++ A ≡ₚ x :: (L1 ++ p :: L2) ++ A) by solve_Permutation.
  assert (Hnd' : NoDup (x :: (L1 ++ p :: L2) ++ A)) by (by rewrite <-Hperm).
  apply NoDup_cons in Hnd' as [Hx Hnd'].
  assert (Hin : forall y, y ∈ (L1 ++ p :: L2) ++ A -> y ∈ (L1 ++ p :: x :: L2) ++ A).
  { intros y Hy. rewrite Hperm. set_solver. }
  assert (Hxin : x ∈ (L1 ++ p :: x :: L2) ++ A) by (rewrite Hperm; set_solver).
  assert (Hpin : p ∈ (L1 ++ p :: L2) ++ A) by set_solver.
  assert (Hpx : p <> x) by (intros ->; done).
  destruct (Hr p (Hin p Hpin)) as (? & ? & ?). destruct (Hr x Hxin) as (? & ? & ?).
  assert (Elen : u64 (ph_len st p + ph_len st x) = ph_len st p + ph_len st x) by (apply u64_small; lia).
  assert (Hlen : forall y, ph_len (absorb st p x) y = if decide (p = y) then ph_len st p + ph_len st x else ph_len st y).
  { intros y. unfold absorb, ph_free. cbn. unfold insert, fn_insert. by rewrite Elen. }
  assert (Hpd : p ∉ L1 ++ L2 ++ A).
  { assert (Hp2 : (L1 ++ p :: L2) ++ A ≡ₚ p :: L1 ++ L2 ++ A) by solve_Permutation.
    rewrite Hp2 in Hnd'. by apply NoDup_cons in Hnd' as [? _]. }
  split.
  - constructor; try done.
    + unfold absorb, ph_free. cbn. eapply (seg_unlink NULL (ph_next st)); [exact Hc| |].
      * unfold insert, fn_insert. by rewrite decide_True.
      * intros y Hy. unfold insert, fn_insert. rewrite decide_False; [done|]. intros ->. set_solver.
    + intros y. unfold absorb, ph_free. cbn. rewrite elem_of_difference, elem_of_singleton, Hl, Hperm. set_solver.
    + intros y Hy. rewrite Hlen. change (ph_base (absorb st p x) y) with (ph_base st y).
      destruct (Hr y (Hin y Hy)) as (? & ? & ?). case_decide; [subst; lia|lia].
    + intros y z Hy Hz Hne. unfold apart. rewrite !Hlen.
      change (ph_base (absorb st p x)) with (ph_base st).
      pose proof (Ha y z (Hin y Hy) (Hin z Hz) Hne) as Hyz. unfold apart in Hyz.
      assert (Hyx : y <> x) by (intros ->; done). assert (Hzx : z <> x) by (intros ->; done).
      pose proof (Ha y x (Hin y Hy) Hxin Hyx) as Dy. pose proof (Ha z x (Hin z Hz) Hxin Hzx) as Dz.
      unfold apart in *. destruct (Hr y (Hin y Hy)) as (? & ? & ?). destruct (Hr z (Hin z Hz)) as (? & ? & ?).
      destruct (decide (p = y)) as [<-|], (decide (p = z)) as [<-|]; [done|lia..].
    + rewrite <-Ht, (total_perm st _ _ Hperm), total_cons.
      assert (Hp2 : (L1 ++ p :: L2) ++ A ≡ₚ p :: L1 ++ L2 ++ A) by solve_Permutation.
      rewrite !(total_perm _ _ _ Hp2), !total_cons, Hlen, decide_True by done.
      rewrite (total_ext st); [lia|]. intros y Hy. rewrite Hlen, decide_False; [done|]. intros ->. done.
  - intros y Hy. rewrite Hlen. split; [done|]. rewrite decide_False; [done|]. intros ->. set_solver.
Qed.


Lemma pm_inv_perm st L A A' : A ≡ₚ A' -> pm_inv st L A -> pm_inv st L A'.
Proof.
  intros Hp [Hc Hnd Hnull Hl Hr Ha Ht]. constructor; try done.
  - by rewrite <-Hp.
  - by rewrite <-Hp.
  - intros x. by rewrite <-Hp.
  - intros x. rewrite <-Hp. apply Hr.
  - intros x y. rewrite <-Hp. apply Ha.
  - rewrite <-Ht. apply total_perm. by rewrite Hp.
Qed.

(** ** The loops *)

Lemma find_fit_ok st n : forall L fuel prev ph, chain NULL (ph_next st) ph L -> (length L < fuel)%nat ->
  exists B1 B2, L = B1 ++ B2 /\ find_fit fuel st n prev ph = Done (lastd prev B1, hd NULL B2) /\
    (forall x, x ∈ B1 -> ph_len st x < n) /\ (forall x B, B2 = x :: B -> n <= ph_len st x).
Proof.
  induction L as [|x L IH]; intros fuel prev ph Hc Hf; (destruct fuel as [|fuel]; [cbn in Hf; lia|]); cbn [find_fit].
  - cbn in Hc. subst. exists [], []. cbn. split_and!; try done; intros; set_solver.
  - apply chain_cons in Hc as (-> & Hx & Hc). rewrite (proj2 (Z.eqb_neq _ _)) by done. cbn [negb andb].
    destruct (Z.ltb_spec (ph_len st x) n).
    + destruct (IH fuel x (ph_next st x) Hc) as (B1 & B2 & -> & -> & H1 & H2); [cbn in Hf; lia|].
      exists (x :: B1), B2. rewrite lastd_cons. split_and!; try done. set_solver.
    + exists [], (x :: L). split_and!; try done; [set_solver|]. by intros ? ? [= <- _].
Qed.

Lemma find_succ_ok st b : forall L fuel prev ph, chain NULL (ph_next st) ph L -> (length L < fuel)%nat ->
  exists B1 B2, L = B1 ++ B2 /\ find_succ fuel st b prev ph = Done (lastd prev B1, hd NULL B2).
Proof.
  induction L as [|x L IH]; intros fuel prev ph Hc Hf; (destruct fuel as [|fuel]; [cbn in Hf; lia|]); cbn [find_succ].
  - cbn in Hc. subst. by exists [], [].
  - apply chain_cons in Hc as (-> & Hx & Hc). rewrite (proj2 (Z.eqb_neq x _)) by done. cbn [negb andb].
    destruct (negb (ph_next st x =? NULL) && (ph_base st (ph_next st x) <? b)).
    + destruct (IH fuel x (ph_next st x) Hc) as (B1 & B2 & -> & ->); [cbn in Hf; lia|].
      exists (x :: B1), B2. by rewrite lastd_cons.
    + by exists [], (x :: L).
Qed.

(** ** Merging *)

Lemma pm_chain_next st L1 x L2 A : pm_inv st (L1 ++ x :: L2) A -> ph_next st x = hd NULL L2.
Proof.
  intros Hi. pose proof (chain_from _ _ _ _ _ _ (pm_chain _ _ _ Hi)) as (_ & _ & Hc).
  destruct L2 as [|y L2]; [exact Hc|]. by destruct Hc.
Qed.

Lemma in_not_null st L A x : pm_inv st L A -> x ∈ L -> x <> NULL.
Proof. intros Hi Hx ->. by apply (seg_notin_null _ _ _ _ _ (pm_chain _ _ _ Hi)). Qed.

Lemma sum_u64 st L A x : pm_inv st L A -> x ∈ L ++ A -> u64 (ph_base st x + ph_len st x) = ph_base st x + ph_len st x.
Proof. intros Hi Hx. destruct (pm_range _ _ _ Hi x Hx) as (? & ? & ?). apply u64_small. lia. Qed.

Lemma merge_succ_ok st L1 x L2 A : pm_inv st (L1 ++ x :: L2) A ->
  exists L', pm_inv (if negb (ph_next st x =? NULL) && (u64 (ph_base st x + ph_len st x) =? ph_base st (ph_next st x))
    then absorb st x (ph_next st x) else st) L' A /\
  same_areas st (if negb (ph_next st x =? NULL) && (u64 (ph_base st x + ph_len st x) =? ph_base st (ph_next st x))
    then absorb st x (ph_next st x) else st) A.
Proof.
  intros Hi. rewrite (pm_chain_next _ _ _ _ _ Hi), (sum_u64 _ _ _ _ Hi) by set_solver.
  destruct L2 as [|y L2]; cbn [hd].
  { rewrite Z.eqb_refl. cbn. by exists (L1 ++ [x]). }
  rewrite (proj2 (Z.eqb_neq y _)) by (eapply in_not_null; [exact Hi|set_solver]). cbn [negb andb].
  destruct (Z.eqb_spec (ph_base st x + ph_len st x) (ph_base st y)) as [E|E]; [|by exists (L1 ++ x :: y :: L2)].
  exists (L1 ++ x :: L2). by apply absorb_ok.
Qed.

Lemma same_areas_trans st1 st2 st3 A : same_areas st1 st2 A -> same_areas st2 st3 A -> same_areas st1 st3 A.
Proof. intros H12 H23 x Hx. destruct (H12 x Hx), (H23 x Hx). split; congruence. Qed.

Lemma merge_items_ok st L1 h L2 A : pm_inv st (L1 ++ h :: L2) A ->
  exists L', pm_inv (merge_items st (lastd NULL L1)) L' A /\ same_areas st (merge_items st (lastd NULL L1)) A.
Proof.
  intros Hi. unfold merge_items. destruct (lastd_cases NULL L1) as [[-> ->]|(B & p & -> & ->)].
  - rewrite Z.eqb_refl. cbn [negb]. destruct (pm_chain _ _ _ Hi) as [-> _].
    exact (merge_succ_ok st [] h L2 A Hi).
  - rewrite <-app_assoc in Hi. cbn [app] in Hi.
    rewrite (proj2 (Z.eqb_neq p _)) by (eapply in_not_null; [exact Hi|set_solver]). cbn [negb].
    rewrite (pm_chain_next _ _ _ _ _ Hi), (sum_u64 _ _ _ p Hi) by set_solver. cbn [hd].
    destruct (Z.eqb_spec (ph_base st p + ph_len st p) (ph_base st h)) as [E|E].
    + destruct (absorb_ok _ _ _ _ _ _ Hi E) as [Hi' Hs].
      destruct (merge_succ_ok _ _ _ _ _ Hi') as (L' & Hi2 & Hs2). exists L'.
      split; [done|]. by eapply same_areas_trans.
    + replace (B ++ p :: h :: L2) with ((B ++ [p]) ++ h :: L2) in Hi by (by rewrite <-app_assoc).
      by apply merge_succ_ok in Hi.
Qed.

(** ** Taking a handle out of the free list, and putting one in *)

Lemma unlink_ok st L1 x L2 A : pm_inv st (L1 ++ x :: L2) A ->
  pm_inv (if lastd NULL L1 =? NULL then st <| freelist := ph_next st x |>
          else st <| ph_next := <[lastd NULL L1 := ph_next st x]> (ph_next st) |>) (L1 ++ L2) (x :: A).
Proof.
  intros Hi. pose proof (in_not_null _ _ _ x Hi ltac:(set_solver)) as Hx0.
  assert (Hp : (L1 ++ L2) ++ x :: A ≡ₚ (L1 ++ x :: L2) ++ A) by solve_Permutation.
  assert (Hrest : forall st', ph_base st' = ph_base st -> ph_len st' = ph_len st -> live st' = live st ->
    chain NULL (ph_next st') (freelist st') (L1 ++ L2) -> pm_inv st' (L1 ++ L2) (x :: A)).
  { destruct Hi as [Hc Hnd Hnull Hl Hr Ha Ht]. intros st' E1 E2 E3 Hc'. constructor; [done| | | | | |].
    - by rewrite Hp.
    - apply not_elem_of_cons. done.
    - intros y. by rewrite E3, Hp.
    - intros y. rewrite E1, E2, Hp. apply Hr.
    - intros y z. unfold apart. rewrite E1, E2, Hp. apply Ha.
    - rewrite <-Ht, (total_perm _ _ _ Hp). apply total_ext. by rewrite E2. }
  pose proof (pm_chain _ _ _ Hi) as Hc.
  destruct (lastd_cases NULL L1) as [[-> ->]|(B & p & -> & ->)].
  - rewrite Z.eqb_refl. apply Hrest; try done. cbn in Hc |- *. by destruct Hc as (_ & _ & ?).
  - rewrite <-app_assoc in Hc, Hi. cbn [app] in Hc, Hi. pose proof (pm_nodup _ _ _ Hi) as Hnd.
    rewrite (proj2 (Z.eqb_neq p _)) by (eapply in_not_null; [exact Hi|set_solver]).
    apply Hrest; try done. cbn. rewrite <-app_assoc. eapply (seg_unlink NULL (ph_next st)); [exact Hc| |].
    + unfold insert, fn_insert. by rewrite decide_True.
    + intros y Hy. unfold insert, fn_insert. rewrite decide_False; [done|]. intros ->.
      assert (Hp2 : (B ++ y :: x :: L2) ++ A ≡ₚ y :: (B ++ L2) ++ x :: A) by solve_Permutation.
      rewrite Hp2 in Hnd. apply NoDup_cons in Hnd as [Hn _]. set_solver.
Qed.

Lemma link_ok st L1 h L2 A : pm_inv st (L1 ++ L2) (h :: A) ->
  pm_inv (if lastd NULL L1 =? NULL then
      st <| ph_next := <[h := freelist st]> (ph_next st) |> <| freelist := h |>
    else
      let st := st <| ph_next := <[h := ph_next st (lastd NULL L1)]> (ph_next st) |> in
      st <| ph_next := <[lastd NULL L1 := h]> (ph_next st) |>) (L1 ++ h :: L2) A.
Proof.
  intros Hi. assert (Hp : (L1 ++ L2) ++ h :: A ≡ₚ (L1 ++ h :: L2) ++ A) by solve_Permutation.
  assert (Hh0 : h <> NULL) by (intros ->; apply (pm_null _ _ _ Hi); set_solver).
  assert (Hrest : forall st', ph_base st' = ph_base st -> ph_len st' = ph_len st -> live st' = live st ->
    chain NULL (ph_next st') (freelist st') (L1 ++ h :: L2) -> pm_inv st' (L1 ++ h :: L2) A).
  { destruct Hi as [Hc Hnd Hnull Hl Hr Ha Ht]. intros st' E1 E2 E3 Hc'. constructor; [done| | | | | |].
    - by rewrite <-Hp.
    - set_solver.
    - intros y. by rewrite E3, Hl, Hp.
    - intros y. rewrite E1, E2, <-Hp. apply Hr.
    - intros y z. unfold apart. rewrite E1, E2, <-Hp. apply Ha.
    - rewrite <-Ht, <-(total_perm _ _ _ Hp). apply total_ext. by rewrite E2. }
  pose proof (pm_nodup _ _ _ Hi) as Hnd. pose proof (pm_chain _ _ _ Hi) as Hc.
  assert (Hh : h ∉ L1 ++ L2).
  { apply NoDup_app in Hnd as (_ & Hn & _). intros Hin. apply (Hn h Hin). set_solver. }
  apply NoDup_app in Hnd as (Hnd & _).
  destruct (lastd_cases NULL L1) as [[-> ->]|(B & p & -> & ->)].
  - rewrite Z.eqb_refl. apply Hrest; try done. cbn [freelist ph_next setter].
    eapply (chain_push NULL (ph_next st)); [exact Hc|done|done| |].
    + cbn. unfold insert, fn_insert. by rewrite decide_True.
    + intros y Hy. cbn. unfold insert, fn_insert. rewrite decide_False; [done|]. intros ->. done.
  - rewrite <-app_assoc in Hc, Hi, Hnd, Hh. cbn [app] in Hc, Hi, Hnd, Hh.
    rewrite (proj2 (Z.eqb_neq p _)) by (eapply in_not_null; [exact Hi|set_solver]).
    assert (Hpd : p ∉ B ++ L2).
    { assert (Hp2 : B ++ p :: L2 ≡ₚ p :: B ++ L2) by solve_Permutation. rewrite Hp2 in Hnd.
      by apply NoDup_cons in Hnd as [? _]. }
    apply Hrest; try done. cbn. rewrite <-app_assoc. eapply (seg_link NULL (ph_next st)); [exact Hc|done|done|done| | |];
      unfold insert, fn_insert.
    + by rewrite decide_True.
    + rewrite decide_False by set_solver. by rewrite decide_True.
    + intros y Hy. rewrite !decide_False; [done|set_solver|set_solver].
Qed.


(** ** The operations *)

Lemma split_ok st L1 x L2 A n y : pm_inv st (L1 ++ x :: L2) A -> 0 < n < ph_len st x ->
  y ∉ live st -> y <> NULL ->
  exists st', (let st := st <| live := {[y]} ∪ live st |> in
    let st := st <| ph_base := <[y := ph_base st x]> (ph_base st) |>
                 <| ph_len := <[y := n]> (ph_len st) |> <| ph_next := <[y := NULL]> (ph_next st) |> in
    st <| ph_base := <[x := u64 (ph_base st x + n)]> (ph_base st) |>
       <| ph_len := <[x := u64 (ph_len st x - n)]> (ph_len st) |>) = st' /\
    pm_inv st' (L1 ++ x :: L2) (y :: A) /\ same_areas st st' A /\
    ph_len st' y = n /\ ph_base st' y = ph_base st x.
Proof.
  intros Hi Hn Hy Hy0. eexists. split; [reflexivity|]. destruct Hi as [Hc Hnd Hnull Hl Hr Ha Ht].
  assert (Hyin : y ∉ (L1 ++ x :: L2) ++ A) by (by rewrite <-Hl).
  assert (Hyx : y <> x) by set_solver. assert (Hxin : x ∈ (L1 ++ x :: L2) ++ A) by set_solver.
  destruct (Hr x Hxin) as (? & ? & ?).
  assert (Hp : (L1 ++ x :: L2) ++ y :: A ≡ₚ y :: (L1 ++ x :: L2) ++ A) by solve_Permutation.
  assert (Hpx : (L1 ++ x :: L2) ++ A ≡ₚ x :: L1 ++ L2 ++ A) by solve_Permutation.
  assert (Hxd : x ∉ L1 ++ L2 ++ A) by (rewrite Hpx in Hnd; by apply NoDup_cons in Hnd as [? _]).
  set (st' := setter _ _).
  assert (Hb : forall z, ph_base st' z = if decide (x = z) then ph_base st x + n
    else if decide (y = z) then ph_base st x else ph_base st z).
  { intros z. unfold st'. cbn. unfold insert, fn_insert. rewrite (decide_False (P := y = x)) by done.
    case_decide; [apply u64_small; lia|done]. }
  assert (Hlen : forall z, ph_len st' z = if decide (x = z) then ph_len st x - n
    else if decide (y = z) then n else ph_len st z).
  { intros z. unfold st'. cbn. unfold insert, fn_insert. rewrite (decide_False (P := y = x)) by done.
    case_decide; [apply u64_small; lia|done]. }
  assert (Hnx : forall z, ph_next st' z = if decide (y = z) then NULL else ph_next st z) by done.
  assert (Hfl : freelist st' = freelist st) by done. assert (Hlv : live st' = {[y]} ∪ live st) by done.
  clearbody st'.
  split; [|split; [|split]].
  - constructor.
    + rewrite Hfl. eapply seg_ext; [|exact Hc]. intros z Hz. rewrite Hnx, decide_False; [done|]. intros ->. set_solver.
    + rewrite Hp. apply NoDup_cons. done.
    + set_solver.
    + intros z. rewrite Hlv, Hp. specialize (Hl z). set_solver.
    + intros z. rewrite Hp, Hb, Hlen. intros [->|Hz]%elem_of_cons.
      * repeat case_decide; try congruence; lia.
      * destruct (Hr z Hz) as (? & ? & ?). repeat case_decide; subst; try done; lia.
    + intros z w. rewrite Hp, !elem_of_cons. unfold apart. rewrite !Hb, !Hlen.
      assert (Hcmp : forall v, v ∈ (L1 ++ x :: L2) ++ A -> v <> y /\ (v <> x -> apart st x v) /\
        0 < ph_len st v /\ 0 <= ph_base st v).
      { intros v Hv. split; [intros ->; done|]. split; [intros; by apply Ha|]. by destruct (Hr v Hv) as (? & ? & ?). }
      intros [->|Hz] [->|Hw] Hne; [done|..].
      * destruct (Hcmp w Hw) as (? & Hcw & ? & ?). unfold apart in Hcw. repeat case_decide; subst; try congruence; try lia.
      * destruct (Hcmp z Hz) as (? & Hcz & ? & ?). unfold apart in Hcz. repeat case_decide; subst; try congruence; try lia.
      * destruct (Hcmp z Hz) as (? & Hcz & ? & ?), (Hcmp w Hw) as (? & Hcw & ? & ?).
        pose proof (Ha z w Hz Hw Hne) as Hzw. unfold apart in *. repeat case_decide; subst; try congruence; try lia.
    + rewrite (total_perm _ _ _ Hp), total_cons, (total_perm _ _ _ Hpx), total_cons, !Hlen.
      rewrite (total_ext st).
      * rewrite <-Ht, (total_perm _ _ _ Hpx), total_cons. repeat case_decide; try congruence; lia.
      * intros z Hz. rewrite Hlen. repeat case_decide; subst; try done. set_solver.
  - intros z Hz. rewrite Hb, Hlen. repeat case_decide; subst; try done; set_solver.
  - rewrite Hlen. by repeat case_decide; subst.
  - rewrite Hb. by repeat case_decide; subst.
Qed.

(** C13: [packetmem_alloc]: the search ends; when a free area is large enough (and, to
    split a larger one, a new handle can be allocated), the result is a handle for an
    area of exactly the length asked for.  Free and allocated areas still partition the
    packet memory, so the new area overlaps no other one, and the areas handed out before
    have not changed.  Otherwise nothing changes. *)
Theorem packetmem_alloc_correct fuel st L A n m : pm_inv st L A -> 0 < n -> (length L < fuel)%nat ->
  (forall y, m = Some y -> (y ∉ live st) /\ y <> NULL) ->
  exists r st', packetmem_alloc fuel st n m = Done (r, st') /\
    match r with
    | Some h => exists L', pm_inv st' L' (h :: A) /\ same_areas st st' A /\ ph_len st' h = n
    | None => st' = st /\ ((forall x, x ∈ L -> ph_len st x < n) \/ m = None)
    end.
Proof.
  intros Hi Hn Hf Hm. unfold packetmem_alloc.
  destruct (find_fit_ok st n L fuel NULL (freelist st) (pm_chain _ _ _ Hi) Hf) as (B1 & B2 & -> & -> & H1 & H2).
  cbn [mbind outcome_bind]. destruct B2 as [|x B2]; cbn [hd].
  { rewrite Z.eqb_refl. eexists None, _. split; [done|]. split; [done|]. left. by rewrite app_nil_r. }
  rewrite (proj2 (Z.eqb_neq x _)) by (eapply in_not_null; [exact Hi|set_solver]). specialize (H2 x B2 eq_refl).
  destruct (Z.eqb_spec (ph_len st x) n) as [E|E].
  - eexists (Some x), _. split; [done|]. exists (B1 ++ B2). split; [by apply unlink_ok|].
    destruct (lastd NULL B1 =? NULL); by split.
  - destruct m as [y|]; cbn [ph_alloc fmap option_fmap option_map].
    + destruct (Hm y eq_refl) as [Hy Hy0].
      destruct (split_ok st B1 x B2 A n y Hi ltac:(lia) Hy Hy0) as (st' & E' & Hi' & Hs & Hl & _).
      eexists (Some y), st'. split; [by rewrite <-E'|]. exists (B1 ++ x :: B2). by split.
    + eexists None, _. split; [done|]. split; [done|by right].
Qed.

(** [packetmem_free] goes through the list and back. *)
Lemma packetmem_free_ok fuel st L A h : pm_inv st L (h :: A) -> (length L < fuel)%nat ->
  exists st' L', packetmem_free fuel st h = Done st' /\ pm_inv st' L' A /\ same_areas st st' A.
Proof.
  intros Hi Hf. unfold packetmem_free.
  destruct (find_succ_ok st (ph_base st h) L fuel NULL (freelist st) (pm_chain _ _ _ Hi) Hf)
    as (B1 & B2 & -> & ->).
  cbn [mbind outcome_bind]. pose proof (link_ok _ _ _ _ _ Hi) as Hi2. match type of Hi2 with pm_inv ?x _ _ => set (st2 := x) in * end.
  assert (Hs : same_areas st st2 A) by (unfold st2; destruct (lastd NULL B1 =? NULL); by split).
  destruct (merge_items_ok _ _ _ _ _ Hi2) as (L' & Hi3 & Hs3). eexists _, L'. split; [reflexivity|].
  split; [done|]. by eapply same_areas_trans.
Qed.

(** It allocates no handles. *)
Lemma packetmem_free_live fuel st h st' : packetmem_free fuel st h = Done st' -> live st' ⊆ live st.
Proof.
  unfold packetmem_free. destruct (find_succ _ _ _ _ _) as [[q r]| |]; try done. intros [= <-].
  set (st1 := if q =? NULL then _ else _). assert (E : live st1 = live st) by (unfold st1; by destruct (q =? NULL)).
  rewrite <-E. clearbody st1. unfold merge_items, absorb.
  repeat (match goal with |- context [if ?b then _ else _] => destruct b end; cbn); set_solver.
Qed.

Lemma free_list_bound st L A : pm_inv st L A -> (length L <= base.size (live st))%nat.
Proof.
  intros Hi. replace (live st) with (list_to_set (L ++ A) : gset Z).
  - rewrite size_list_to_set by apply (pm_nodup _ _ _ Hi). rewrite length_app. lia.
  - apply set_eq. intros x. by rewrite elem_of_list_to_set, (pm_live _ _ _ Hi).
Qed.

(** C14: [packetmem_free]: the search for the place in the list ends, and the area goes
    back to the free areas, merged with the ones it is adjacent to in the list; free and
    allocated areas still partition the packet memory, and no allocated area changes. *)
Theorem packetmem_free_correct fuel st L A h : pm_inv st L (h :: A) -> (length L < fuel)%nat ->
  exists st' L', packetmem_free fuel st h = Done st' /\ pm_inv st' L' A /\ same_areas st st' A.
Proof. apply packetmem_free_ok. Qed.

End Packetmem.

(** ** The initial state, and concrete runs *)

Definition pm_empty : pmem := mk_pmem (fun _ => 0) (fun _ => 0) (fun _ => 0) NULL ∅.

Lemma packetmem_init_ok size y : 0 < size < 18446744073709551616 -> y <> NULL ->
  let '(ok, st) := packetmem_init pm_empty size (Some y) in ok = true /\ pm_inv size st [y] [].
Proof.
  intros Hs Hy. cbn. split; [done|]. constructor; cbn.
  - unfold insert, fn_insert. rewrite decide_True by done. by split_and!.
  - apply NoDup_singleton.
  - set_solver.
  - set_solver.
  - intros x Hx. assert (x = y) as -> by set_solver. unfold insert, fn_insert. rewrite !decide_True by done. lia.
  - set_solver.
  - unfold insert, fn_insert. rewrite !decide_True by done. lia.
Qed.

Definition pm_ex : pmem := snd (packetmem_init pm_empty 4096 (Some 1)).

Lemma pm_ex_inv : pm_inv 4096 pm_ex [1] [].
Proof. exact (proj2 (packetmem_init_ok 4096 1 ltac:(lia) ltac:(discriminate))). Qed.

Lemma packetmem_alloc_correct_witness : exists r st',
  packetmem_alloc 2 pm_ex 64 (Some 2) = Done (r, st') /\
  match r with
  | Some h => exists L', pm_inv 4096 st' L' [h] /\ ph_len st' h = 64
  | None => False
  end.
Proof.
  destruct (packetmem_alloc_correct 4096 ltac:(lia) 2 pm_ex [1] [] 64 (Some 2) pm_ex_inv)
    as (r & st' & E & Hr).
  - lia.
  - cbn. lia.
  - intros y Hy. injection Hy as <-. split; [vm_compute; set_solver|discriminate].
  - exists r, st'. split; [exact E|]. destruct r as [h|].
    + destruct Hr as (L' & Hi & _ & Hl). exists L'. split; [exact Hi|exact Hl].
    + destruct Hr as [_ [H|H]]; [|discriminate]. specialize (H 1 ltac:(set_solver)). vm_compute in H. discriminate.
Defined.

(** Free a handle that is the only one. *)
(** Two areas of 64 bytes are allocated. *)
Lemma pm_two_inv : exists st, pm_inv 4096 st [1] [3; 2] /\ live st = {[3]} ∪ ({[2]} ∪ {[1]}).
Proof.
  destruct (split_ok 4096 ltac:(lia) pm_ex [] 1 [] [] 64 2 pm_ex_inv) as (s1 & E1 & H1 & _ & _ & _);
    [vm_compute; split; reflexivity|vm_compute; set_solver|discriminate|].
  destruct (split_ok 4096 ltac:(lia) s1 [] 1 [] [2] 64 3 H1) as (s2 & E2 & H2 & _).
  - rewrite <-E1. vm_compute. split; reflexivity.
  - rewrite <-E1. vm_compute. set_solver.
  - discriminate.
  - exists s2. split; [exact H2|]. rewrite <-E2, <-E1. reflexivity.
Qed.

Lemma packetmem_free_correct_witness : exists r st st' L',
  packetmem_alloc 2 pm_ex 64 (Some 2) = Done (Some r, st) /\ packetmem_free 3 st r = Done st' /\
  pm_inv 4096 st' L' [].
Proof.
  assert (Hi : exists st L, packetmem_alloc 2 pm_ex 64 (Some 2) = Done (Some 2, st) /\
    pm_inv 4096 st L [2] /\ (length L < 3)%nat).
  { destruct (split_ok 4096 ltac:(lia) pm_ex [] 1 [] [] 64 2 pm_ex_inv) as (st' & E & Hst & _).
    - vm_compute. split; reflexivity.
    - vm_compute. set_solver.
    - discriminate.
    - exists st', [1]. split; [rewrite <-E; reflexivity|]. split; [exact Hst|cbn; lia]. }
  destruct Hi as (st & L & E & Hi & Hl).
  destruct (packetmem_free_correct 4096 ltac:(lia) 3 st L [] 2 Hi Hl) as (st' & L' & E' & Hi' & _).
  exists 2, st, st', L'. split; [exact E|]. split; [exact E'|exact Hi'].
Defined.

(** Two areas allocated and freed again, then an allocation of all of the memory. *)
Definition fragmented_run : outcome (option Z * pmem) :=
  '(a, st) ← packetmem_alloc 9 pm_ex 64 (Some 2);
  '(b, st) ← packetmem_alloc 9 st 64 (Some 3);
  st ← packetmem_free 9 st (default NULL a);
  st ← packetmem_free 9 st (default NULL b);
  packetmem_alloc 9 st 4096 (Some 4).

(** [packetmem_free] stops one handle too early and inserts before the last handle with
    a smaller address: two areas that are allocated and freed in turn are not merged with
    the rest, and although all of the memory is free again an allocation of all of it
    fails. *)
Theorem packetmem_free_fragments :
  (exists st, fragmented_run = Done (None, st)) /\
  (exists st, packetmem_alloc 9 pm_ex 4096 (Some 4) = Done (Some 1, st)).
Proof. split; eexists; vm_compute; reflexivity. Qed.

End PacketmemSpec.
