(* ===== verification/Timeout.v ===== *)
(** * Timeouts ([lib/utils/timeout.c])

    Timeouts are C objects in two doubly linked lists: the pending ones, ordered by
    time, and the due ones.  A timestamp has 28 bits. *)
From S2P Require Import Prelude Chain.

Module Timeout.

Definition NULL : Z := 0.
Definition TIMEOUT_BITS : Z := 28.
Definition TIMEOUT_MASK : Z := Z.shiftl 1 TIMEOUT_BITS - 1.
Definition MAX_TIMEOUTS : nat := 64.

(** The manager, with the fields of the timeout objects. *)
Record tmgr : Type := mk_tmgr {
  to_timeout_type : Z -> Z;
  to_next : Z -> Z;
  to_prev : Z -> Z;
  timeouts_first : Z;
  timeouts_last : Z;
  due_first : Z;
  due_last : Z
}.
#[export] Instance eta_tmgr : Eta tmgr := fun r =>
  mk_tmgr (to_timeout_type r) (to_next r) (to_prev r) (timeouts_first r) (timeouts_last r)
    (due_first r) (due_last r).

(** [rel_time]: the result is a signed 32 bit number. *)
Definition rel_time (cur_ts : Z) (timeout_type : Z) : Z :=
  let middle := Z.shiftl 1 (TIMEOUT_BITS - 1) in
  let to_ts := Z.land timeout_type TIMEOUT_MASK in
  if cur_ts <? middle then
    let start := Z.land (u32 (cur_ts - middle)) TIMEOUT_MASK in
    let end_ := Z.shiftl 1 TIMEOUT_BITS in
    if (start <=? to_ts) && (to_ts <? end_) then s32 (u32 (u32 (to_ts - start) - middle))
    else s32 (u32 (to_ts - cur_ts))
  else if cur_ts =? middle then s32 (u32 (to_ts - cur_ts))
  else
    let start := 0 in
    let end_ := Z.land (u32 (cur_ts + middle)) TIMEOUT_MASK + 1 in
    if (start <=? cur_ts) && (to_ts <? end_) then
      s32 (u32 (to_ts + u32 (Z.shiftl 1 TIMEOUT_BITS - cur_ts)))
    else s32 (u32 (to_ts - cur_ts)).

(** [timeout_due]. *)
Definition timeout_due (mgr : tmgr) (to ts : Z) : bool := rel_time ts (to_timeout_type mgr to) <=? 0.

(** [move_due_timeouts]. *)
Definition move_one (mgr : tmgr) (to : Z) : tmgr :=
  let next := to_next mgr to in
  let mgr := mgr <| timeouts_first := next |> in
  let mgr := if negb (next =? NULL) then mgr <| to_prev := <[next := NULL]> (to_prev mgr) |>
             else mgr <| timeouts_last := NULL |> in
  let mgr := mgr <| to_next := <[to := NULL]> (to_next mgr) |> in
  let mgr := mgr <| to_prev := <[to := due_last mgr]> (to_prev mgr) |> in
  let mgr := if due_last mgr =? NULL then mgr <| due_first := to |>
             else mgr <| to_next := <[due_last mgr := to]> (to_next mgr) |> in
  mgr <| due_last := to |>.

Fixpoint move_due_timeouts (fuel : nat) (mgr : tmgr) (cur_ts : Z) : outcome tmgr :=
  match fuel with
  | O => NoFuel
  | S fuel =>
    let to := timeouts_first mgr in
    if negb (to =? NULL) && timeout_due mgr to cur_ts then move_due_timeouts fuel (move_one mgr to) cur_ts
    else Done mgr
  end.

(** Step 2 of [util_timeout_arm_ts]; [rel_time] is converted to an unsigned number for
    the comparison with [us]. *)
Fixpoint find_pred (fuel : nat) (mgr : tmgr) (cur_ts us tp : Z) : outcome Z :=
  match fuel with
  | O => NoFuel
  | S fuel =>
    if negb (tp =? NULL) && (us <? u32 (rel_time cur_ts (to_timeout_type mgr tp)))
    then find_pred fuel mgr cur_ts us (to_prev mgr tp)
    else Done tp
  end.

(** Step 3: inserting between [tp] and [tn]. *)
Definition insert_between (mgr : tmgr) (to tp tn : Z) : tmgr :=
  let mgr := mgr <| to_next := <[to := tn]> (to_next mgr) |> in
  let mgr := mgr <| to_prev := <[to := tp]> (to_prev mgr) |> in
  let mgr := if tp =? NULL then mgr <| timeouts_first := to |>
             else mgr <| to_next := <[tp := to]> (to_next mgr) |> in
  if tn =? NULL then mgr <| timeouts_last := to |>
  else mgr <| to_prev := <[tn := to]> (to_prev mgr) |>.

(** [util_timeout_arm_ts]. *)
Definition util_timeout_arm_ts (fuel : nat) (mgr : tmgr) (to us type cur_ts : Z) : outcome tmgr :=
  let cur_ts := Z.land cur_ts TIMEOUT_MASK in
  if Z.shiftl 1 (TIMEOUT_BITS - 1) <=? us then Aborted else
  mgr ← move_due_timeouts fuel mgr cur_ts;
  tp ← find_pred fuel mgr cur_ts us (timeouts_last mgr);
  let tn := if negb (tp =? NULL) then to_next mgr tp else timeouts_first mgr in
  let tt := Z.lor (u32 (Z.shiftl type TIMEOUT_BITS)) (Z.land (u32 (cur_ts + us)) TIMEOUT_MASK) in
  Done (insert_between (mgr <| to_timeout_type := <[to := tt]> (to_timeout_type mgr) |>) to tp tn).

(** [util_timeout_disarm]. *)
Definition disarm_next (mgr : tmgr) (to prev next : Z) : outcome tmgr :=
  if prev =? NULL then
    if timeouts_first mgr =? to then Done (mgr <| timeouts_first := next |>)
    else if due_first mgr =? to then Done (mgr <| due_first := next |>)
    else Aborted
  else Done (mgr <| to_next := <[prev := next]> (to_next mgr) |>).
Definition disarm_prev (mgr : tmgr) (to prev next : Z) : outcome tmgr :=
  if next =? NULL then
    if timeouts_last mgr =? to then Done (mgr <| timeouts_last := prev |>)
    else if due_last mgr =? to then Done (mgr <| due_last := prev |>)
    else Aborted
  else Done (mgr <| to_prev := <[next := prev]> (to_prev mgr) |>).
Definition util_timeout_disarm (mgr : tmgr) (to : Z) : outcome tmgr :=
  let prev := to_prev mgr to in
  let next := to_next mgr to in
  mgr ← disarm_next mgr to prev next;
  disarm_prev mgr to prev next.

(** [util_timeout_next]. *)
Definition util_timeout_next (mgr : tmgr) (cur_ts : Z) : Z :=
  if negb (due_first mgr =? NULL) then 0
  else if timeouts_first mgr =? NULL then u32 (-1)
  else
    let cur_ts := Z.land cur_ts TIMEOUT_MASK in
    let next := rel_time cur_ts (to_timeout_type mgr (timeouts_first mgr)) in
    if next <? 0 then 0 else u32 next.

Section Poll.
(** The handler runs on the state [W] of the rest of the program and on the manager, in
    which it may arm and disarm timeouts. *)
Context {W : Type} (handler : Z -> Z -> tmgr * W -> outcome (tmgr * W)).

(** Taking the first due timeout off the list. *)
Definition pop_due (mgr : tmgr) (to : Z) : tmgr :=
  let mgr := mgr <| due_first := to_next mgr to |> in
  if negb (due_first mgr =? NULL) then mgr <| to_prev := <[due_first mgr := NULL]> (to_prev mgr) |>
  else mgr <| due_last := NULL |>.

(** The loop of [util_timeout_poll_ts] with [num] timeouts left to handle. *)
Fixpoint poll_due (num : nat) (mgr : tmgr) (w : W) : outcome (tmgr * W) :=
  match num with
  | O => Done (mgr, w)
  | S num =>
    let to := due_first mgr in
    if to =? NULL then Done (mgr, w) else
    let mgr := pop_due mgr to in
    '(mgr, w) ← handler to (u8 (Z.shiftr (to_timeout_type mgr to) TIMEOUT_BITS)) (mgr, w);
    poll_due num mgr w
  end.

(** [util_timeout_poll_ts]. *)
Definition util_timeout_poll_ts (fuel : nat) (mgr : tmgr) (w : W) (cur_ts : Z) : outcome (tmgr * W) :=
  let cur_ts := Z.land cur_ts TIMEOUT_MASK in
  mgr ← move_due_timeouts fuel mgr cur_ts;
  poll_due MAX_TIMEOUTS mgr w.
End Poll.

(** [util_timeout_init]. *)
Definition util_timeout_init (mgr : tmgr) : tmgr :=
  mgr <| timeouts_first := NULL |> <| timeouts_last := NULL |> <| due_first := NULL |> <| due_last := NULL |>.

End Timeout.
