(* ===== verification/TimeoutSpec.v ===== *)
(** * Timeouts fire in order, and none fires early

    The proofs about [Timeout].  The 28 bit timestamps are read against an unbounded
    clock [now] and unbounded deadlines, less than half the range of a timestamp
    apart. *)
From S2P Require Import Prelude Chain Timeout.

Module TimeoutSpec.
Import Timeout.

Definition MIDDLE : Z := 134217728.      (* 2^27 *)
Definition RANGE : Z := 268435456.       (* 2^28 *)

Lemma ts_land_mask x : Z.land x TIMEOUT_MASK = x mod RANGE.
Proof. change TIMEOUT_MASK with (Z.ones 28). by rewrite Z.land_ones by lia. Qed.

(** The time that is left, across the wrap-around of the timestamps. *)
Lemma rel_time_ok cur tt now dl : 0 <= cur < RANGE -> cur = now mod RANGE ->
  Z.land tt TIMEOUT_MASK = dl mod RANGE -> - MIDDLE < dl - now < MIDDLE -> rel_time cur tt = dl - now.
Proof.
  intros Hcur Ec Et Hd. unfold rel_time. rewrite Et, !ts_land_mask.
  change (Z.shiftl 1 (TIMEOUT_BITS - 1)) with MIDDLE. change (Z.shiftl 1 TIMEOUT_BITS) with RANGE.
  pose proof (Z.mod_pos_bound dl RANGE eq_refl) as Ht. unfold MIDDLE, RANGE in *.
  set (to := dl mod 268435456) in *.
  assert (Hk : exists k, dl - now = to - cur + 268435456 * k /\ -1 <= k <= 1).
  { exists (dl / 268435456 - now / 268435456). unfold to. rewrite Ec. Z.div_mod_to_equations. lia. }
  destruct Hk as (k & Ek & Hk). clearbody to.
  assert (Hs : forall z, -2147483648 <= z < 2147483648 -> s32 (u32 z) = z).
  { intros z Hz. wrap_lia. }
  destruct (Z.ltb_spec cur 134217728); [|destruct (Z.eqb_spec cur 134217728)].
  - assert (Es : u32 (cur - 134217728) mod 268435456 = cur + 134217728) by wrap_lia. rewrite Es.
    rewrite (proj2 (Z.ltb_lt to 268435456)) by lia. rewrite andb_true_r.
    destruct (Z.leb_spec (cur + 134217728) to).
    + rewrite u32_sub_l, Hs; lia.
    + rewrite Hs; lia.
  - rewrite Hs; lia.
  - rewrite (proj2 (Z.leb_le 0 cur)) by lia. cbn [andb].
    assert (Es : u32 (cur + 134217728) mod 268435456 = cur - 134217728) by wrap_lia. rewrite Es.
    destruct (Z.ltb_spec to (cur - 134217728 + 1)).
    + rewrite u32_add_r, Hs; lia.
    + rewrite Hs; lia.
Qed.

(** ** The invariant: [T] are the pending timeouts, [D] the due ones *)
Record tm_inv (mgr : tmgr) (dl : Z -> Z) (now : Z) (T D : list Z) : Prop := {
  ti_pending : dlist NULL (to_next mgr) (to_prev mgr) (timeouts_first mgr) (timeouts_last mgr) T;
  ti_due : dlist NULL (to_next mgr) (to_prev mgr) (due_first mgr) (due_last mgr) D;
  ti_nodup : NoDup (T ++ D);
  ti_sorted : sorted_by dl T;
  ti_ts x : x ∈ T -> Z.land (to_timeout_type mgr x) TIMEOUT_MASK = dl x mod RANGE;
  ti_range x : x ∈ T -> - MIDDLE < dl x - now < MIDDLE
}.

Lemma ti_notnull mgr dl now T D x : tm_inv mgr dl now T D -> x ∈ T ++ D -> x <> NULL.
Proof.
  intros Hi [Hx|Hx]%elem_of_app ->.
  - by apply (seg_notin_null _ _ _ _ _ (proj1 (ti_pending _ _ _ _ _ Hi))).
  - by apply (seg_notin_null _ _ _ _ _ (proj1 (ti_due _ _ _ _ _ Hi))).
Qed.

Lemma due_ok mgr dl now cur T D x : tm_inv mgr dl now T D -> cur = now mod RANGE -> x ∈ T ->
  rel_time cur (to_timeout_type mgr x) = dl x - now.
Proof.
  intros Hi Hc Hx. apply rel_time_ok; [subst; by apply Z.mod_pos_bound|done|by apply (ti_ts _ _ _ _ _ Hi)|].
  by apply (ti_range _ _ _ _ _ Hi).
Qed.

(** The invariant is kept while time passes, as long as a due timeout does not wait for
    half the range of a timestamp. *)
Lemma tm_inv_later mgr dl now now' T D : tm_inv mgr dl now T D -> now <= now' ->
  (forall x, x ∈ T -> now' - MIDDLE < dl x) -> tm_inv mgr dl now' T D.
Proof.
  intros [HT HD Hnd Hs Hts Hr] Hn Hx. constructor; try done. intros x Hin. specialize (Hr x Hin).
  specialize (Hx x Hin). lia.
Qed.

(** ** Moving the due timeouts *)

Lemma move_one_ok mgr dl now x T D : tm_inv mgr dl now (x :: T) D ->
  tm_inv (move_one mgr x) dl now T (D ++ [x]) /\ to_timeout_type (move_one mgr x) = to_timeout_type mgr.
Proof.
  intros Hi. pose proof Hi as [HT HD Hnd Hs Hts Hr].
  destruct (dlist_next _ _ _ _ _ [] x T HT) as [En _]. destruct (dlist_first _ _ _ _ _ _ HD) as [_ El].
  pose proof (ti_notnull _ _ _ _ _ x Hi ltac:(set_solver)) as Hx0.
  cbn [app] in Hnd. apply NoDup_cons in Hnd as [Hx Hnd].
  pose proof (proj1 (NoDup_app _ _) Hnd) as (HndT & HTD & HndD).
  (* the pointers after the move *)
  set (nx := fun y => if decide (y = x) then NULL
    else if decide (last D = Some y) then x else to_next mgr y).
  set (pv := fun y => if decide (y = x) then lastd NULL D
    else if decide (head T = Some y) then NULL else to_prev mgr y).
  assert (HlastD : last D = Some x -> False).
  { intros ?%last_Some_elem_of. set_solver. }
  assert (HheadT : head T = Some x -> False).
  { intros Hh. apply head_Some_elem_of in Hh. set_solver. }
  assert (Hm : move_one mgr x = mk_tmgr (to_timeout_type mgr) (to_next (move_one mgr x)) (to_prev (move_one mgr x))
      (hd NULL T) (if decide (T = []) then NULL else timeouts_last mgr)
      (if decide (D = []) then x else due_first mgr) x /\
    (forall y, to_next (move_one mgr x) y = nx y) /\ (forall y, to_prev (move_one mgr x) y = pv y)).
  { unfold move_one. rewrite En. destruct T as [|t T]; cbn [hd].
    - rewrite Z.eqb_refl. cbn [negb]. destruct (lastd_cases NULL D) as [[-> E]|(B & p & -> & E)]; rewrite E in El.
      + cbn. rewrite El. cbn. split; [done|]. unfold nx, pv, insert, fn_insert. cbn.
        split; intros y; repeat case_decide; congruence.
      + assert (Hp0 : p <> NULL) by (eapply ti_notnull; [exact Hi|set_solver]).
        cbn. rewrite El, (proj2 (Z.eqb_neq p _)) by done. cbn. split.
        { f_equal. by destruct B. }
        unfold nx, pv, insert, fn_insert. rewrite last_snoc. rewrite E.
        split; intros y; cbn; repeat case_decide; subst; try congruence; try done. set_solver.
    - assert (Ht0 : t <> NULL) by (eapply ti_notnull; [exact Hi|set_solver]).
      assert (Htx : t <> x) by set_solver.
      rewrite (proj2 (Z.eqb_neq t _)) by done. cbn [negb].
      destruct (lastd_cases NULL D) as [[-> E]|(B & p & -> & E)]; rewrite E in El.
      + cbn. rewrite El. cbn. split; [done|]. unfold nx, pv, insert, fn_insert. cbn.
        split; intros y; repeat case_decide; congruence.
      + assert (Hp0 : p <> NULL) by (eapply ti_notnull; [exact Hi|set_solver]).
        cbn. rewrite El, (proj2 (Z.eqb_neq p _)) by done. cbn. split.
        { f_equal. by destruct B. }
        unfold nx, pv, insert, fn_insert. rewrite last_snoc. rewrite E.
        split; intros y; cbn; repeat case_decide; subst; try congruence; try done; set_solver. }
  destruct Hm as (Hm & Hnx & Hpv). revert Hm Hnx Hpv.
  generalize (to_next (move_one mgr x)) (to_prev (move_one mgr x)). intros nx' pv' Hm Hnx Hpv. rewrite Hm. split; [|done].
  constructor; cbn.
  - eapply (dlist_remove NULL (to_next mgr) (to_prev mgr) _ _ _ _ _ _ [] x T); [exact HT|done| | |done|done].
    + intros y Hy. cbn in Hy. rewrite Hnx. unfold nx. rewrite (decide_False (P := y = x)) by set_solver.
      rewrite (decide_False (P := last D = Some y)); [done|]. intros Hl%last_Some_elem_of. set_solver.
    + intros y Hy. rewrite Hpv. unfold pv. rewrite decide_False by set_solver. done.
  - eapply (dlist_insert NULL (to_next mgr) (to_prev mgr) _ _ _ _ _ _ D x []); rewrite ?app_nil_r; try done.
    + set_solver.
    + rewrite Hnx. unfold nx. by rewrite decide_True.
    + rewrite Hpv. unfold pv. by rewrite decide_True.
    + intros y Hy. rewrite Hnx. unfold nx. rewrite decide_False by set_solver. done.
    + intros y Hy. rewrite Hpv. unfold pv. rewrite (decide_False (P := y = x)) by set_solver.
      rewrite (decide_False (P := head T = Some y)); [done|]. intros Hh%head_Some_elem_of. set_solver.
  - rewrite app_assoc. apply NoDup_app. split; [done|]. split; [set_solver|apply NoDup_singleton].
  - by apply StronglySorted_inv in Hs as [? _].
  - intros y Hy. apply Hts. set_solver.
  - intros y Hy. apply Hr. set_solver.
Qed.


Lemma below_cons {A} (f : A -> Z) k x L : f x <= k -> below f k (x :: L) = x :: below f k L.
Proof. intros Hx. unfold below. rewrite filter_cons. by rewrite decide_True. Qed.
Lemma above_cons {A} (f : A -> Z) k x L : f x <= k -> above f k (x :: L) = above f k L.
Proof. intros Hx. unfold above. rewrite filter_cons. by rewrite decide_False by tauto. Qed.

Lemma sorted_above (dl : Z -> Z) x T now : sorted_by dl (x :: T) -> now < dl x ->
  below dl now (x :: T) = [] /\ above dl now (x :: T) = x :: T.
Proof.
  intros [Hs Hx]%StronglySorted_inv Hlt. apply above_all. constructor; [done|].
  eapply Forall_impl; [exact Hx|]. intros y. cbn. lia.
Qed.

(** Exactly the timeouts whose deadline has come are moved, in their order. *)
Lemma move_due_ok dl now cur : cur = now mod RANGE -> forall fuel T D mgr,
  tm_inv mgr dl now T D -> (length T < fuel)%nat ->
  exists mgr', move_due_timeouts fuel mgr cur = Done mgr' /\
    tm_inv mgr' dl now (above dl now T) (D ++ below dl now T) /\ to_timeout_type mgr' = to_timeout_type mgr.
Proof.
  intros Hc. induction fuel as [|fuel IH]; intros T D mgr Hi Hf; [lia|]. cbn [move_due_timeouts].
  destruct (dlist_first _ _ _ _ _ _ (ti_pending _ _ _ _ _ Hi)) as [-> _].
  destruct T as [|x T]; cbn [hd].
  { rewrite Z.eqb_refl. cbn. exists mgr. unfold below, above. cbn. rewrite app_nil_r. by split_and!. }
  rewrite (proj2 (Z.eqb_neq x _)) by (eapply ti_notnull; [exact Hi|set_solver]). cbn [negb andb].
  unfold timeout_due. rewrite (due_ok _ _ _ _ _ _ x Hi Hc) by set_solver.
  destruct (Z.leb_spec (dl x - now) 0).
  - destruct (move_one_ok _ _ _ _ _ _ Hi) as [Hi' Et].
    destruct (IH T (D ++ [x]) (move_one mgr x) Hi') as (mgr' & -> & Hi2 & Et2); [cbn in Hf; lia|].
    exists mgr'. rewrite below_cons, above_cons by lia. rewrite <-app_assoc in Hi2. split_and!; try done. congruence.
  - destruct (sorted_above dl x T now (ti_sorted _ _ _ _ _ Hi)) as [-> ->]; [lia|].
    exists mgr. rewrite app_nil_r. by split_and!.
Qed.

(** ** Inserting a timeout *)

Lemma below_snoc {A} (f : A -> Z) k x L :
  below f k (L ++ [x]) = below f k L ++ (if decide (f x <= k) then [x] else []).
Proof. unfold below. rewrite filter_app, filter_cons. done. Qed.

Lemma sorted_app_le (dl : Z -> Z) A x B y : sorted_by dl (A ++ x :: B) -> y ∈ A -> dl y <= dl x.
Proof.
  induction A as [|z A IH]; intros Hs Hy; [set_solver|].
  cbn in Hs. apply StronglySorted_inv in Hs as [Hs Hz]. apply elem_of_cons in Hy as [->|Hy]; [|by apply IH].
  rewrite Forall_forall in Hz. apply Hz. set_solver.
Qed.

Lemma below_all (dl : Z -> Z) k A : (forall y, y ∈ A -> dl y <= k) -> below dl k A = A.
Proof.
  induction A as [|x A IH]; intros Hy; [done|]. rewrite below_cons by (apply Hy; set_solver).
  f_equal. apply IH. set_solver.
Qed.

Lemma find_pred_ok mgr dl now cur us T D : tm_inv mgr dl now T D -> cur = now mod RANGE -> 0 <= us < MIDDLE ->
  (forall x, x ∈ T -> now < dl x) -> forall A B fuel, T = A ++ B -> (length A < fuel)%nat ->
  find_pred fuel mgr cur us (lastd NULL A) = Done (lastd NULL (below dl (now + us) A)).
Proof.
  intros Hi Hc Hus Hpos A. induction A as [|x A IH] using rev_ind; intros B fuel HT Hf;
    (destruct fuel as [|fuel]; [lia|]); cbn [find_pred].
  { done. }
  rewrite lastd_app. cbn [lastd]. unfold lastd at 1 2 3. cbn [last default].
  rewrite <-app_assoc in HT. cbn [app] in HT. rewrite length_app in Hf. cbn in Hf.
  rewrite (proj2 (Z.eqb_neq x _)) by (eapply ti_notnull; [exact Hi|subst; set_solver]). cbn [negb andb].
  rewrite (due_ok _ _ _ _ _ _ x Hi Hc) by (subst; set_solver).
  pose proof (Hpos x ltac:(subst; set_solver)). pose proof (ti_range _ _ _ _ _ Hi x ltac:(subst; set_solver)).
  rewrite u32_small by (unfold MIDDLE in *; lia). rewrite below_snoc.
  destruct (Z.ltb_spec us (dl x - now)).
  - rewrite decide_False by lia. rewrite app_nil_r.
    pose proof (ti_pending _ _ _ _ _ Hi) as Hp. rewrite HT in Hp.
    destruct (dlist_next _ _ _ _ _ _ _ _ Hp) as [_ ->]. by apply (IH (x :: B)); [|lia].
  - rewrite decide_True by lia. by rewrite lastd_app.
Qed.

Lemma insert_between_ok mgr dl now A B D to us tt : tm_inv mgr dl now (A ++ B) D -> 
  to <> NULL -> to ∉ (A ++ B) ++ D -> 0 <= us < MIDDLE ->
  Z.land tt TIMEOUT_MASK = (now + us) mod RANGE ->
  sorted_by (<[to := now + us]> dl) (A ++ to :: B) ->
  tm_inv (insert_between (mgr <| to_timeout_type := <[to := tt]> (to_timeout_type mgr) |>) to (lastd NULL A) (hd NULL B))
    (<[to := now + us]> dl) now (A ++ to :: B) D.
Proof.
  intros Hi Hto0 Hto Hus Htt Hs. pose proof Hi as [HT HD Hnd _ Hts Hr].
  pose proof (proj1 (NoDup_app _ _) Hnd) as (HndT & HTD & HndD).
  assert (HlA : lastd NULL A <> NULL -> last A = Some (lastd NULL A)).
  { unfold lastd. by destruct (last A). }
  assert (HlA0 : lastd NULL A = NULL -> A = []).
  { destruct (lastd_cases NULL A) as [[-> _]|(A' & p & -> & E)]; [done|]. rewrite E. intros ->.
    exfalso. eapply ti_notnull; [exact Hi| |done]. set_solver. }
  assert (HhB0 : hd NULL B = NULL -> B = []).
  { destruct B as [|b B]; [done|]. cbn. intros ->. exfalso. eapply ti_notnull; [exact Hi| |done]. set_solver. }
  set (tp := lastd NULL A) in *. set (tn := hd NULL B) in *.
  assert (Htp : tp <> NULL -> tp ∈ A) by (intros Hn; apply last_Some_elem_of; by apply HlA).
  assert (Htn : tn <> NULL -> tn ∈ B /\ head B = Some tn) by (unfold tn; destruct B; [done|set_solver]).
  assert (Hm : insert_between (mgr <| to_timeout_type := <[to := tt]> (to_timeout_type mgr) |>) to tp tn
    = mk_tmgr (<[to := tt]> (to_timeout_type mgr))
        (if decide (tp = NULL) then <[to := tn]> (to_next mgr) else <[tp := to]> (<[to := tn]> (to_next mgr)))
        (if decide (tn = NULL) then <[to := tp]> (to_prev mgr) else <[tn := to]> (<[to := tp]> (to_prev mgr)))
        (if decide (tp = NULL) then to else timeouts_first mgr)
        (if decide (tn = NULL) then to else timeouts_last mgr) (due_first mgr) (due_last mgr)).
  { unfold insert_between. destruct (Z.eqb_spec tp NULL) as [E|E], (Z.eqb_spec tn NULL) as [E'|E'];
      repeat case_decide; done. }
  assert (HA : A = [] -> tp = NULL) by (by intros ->). assert (HB : B = [] -> tn = NULL) by (by intros ->).
  assert (Htpto : tp <> to) by (intros E; apply Hto; rewrite <-E; rewrite <-E in Hto0; specialize (Htp Hto0); set_solver).
  assert (Htnto : tn <> to) by (intros E; apply Hto; rewrite <-E; rewrite <-E in Hto0; destruct (Htn Hto0); set_solver).
  rewrite Hm. constructor; cbn.
  - eapply (dlist_insert NULL (to_next mgr) (to_prev mgr)); [exact HT|done|set_solver|done| | | | |repeat case_decide; naive_solver..].
    + unfold insert, fn_insert. repeat case_decide; done.
    + unfold insert, fn_insert. repeat case_decide; done.
    + intros y Hy. unfold insert, fn_insert. assert (to <> y) by set_solver.
      destruct (decide (tp = NULL)) as [E|E].
      * rewrite (HlA0 E). cbn. by rewrite decide_False.
      * rewrite (HlA E). destruct (decide (tp = y)) as [->|]; [by rewrite decide_True|].
        rewrite !decide_False; [done|congruence|done].
    + intros y Hy. unfold insert, fn_insert. assert (to <> y) by set_solver.
      destruct (decide (tn = NULL)) as [E|E].
      * rewrite (HhB0 E). cbn. by rewrite decide_False.
      * destruct (Htn E) as [_ ->]. destruct (decide (tn = y)) as [->|]; [by rewrite decide_True|].
        rewrite !decide_False; [done|congruence|done].
  - eapply dlist_ext; [|exact HD]. intros y Hy. unfold insert, fn_insert.
    assert (to <> y) by set_solver.
    split; repeat case_decide; try done; subst; exfalso; (eapply HTD; [|exact Hy]); set_solver.
  - assert (Hp : (A ++ to :: B) ++ D ≡ₚ to :: (A ++ B) ++ D) by solve_Permutation.
    rewrite Hp. by apply NoDup_cons.
  - done.
  - intros y Hy. unfold insert, fn_insert. destruct (decide (to = y)); [done|]. apply Hts. set_solver.
  - intros y Hy. unfold insert, fn_insert. unfold MIDDLE in *.
    destruct (decide (to = y)); [lia|]. apply Hr. set_solver.
Qed.


(** ** Arming and disarming *)

Lemma timeout_type_ok type cur us now : 0 <= type < 16 -> cur = now mod RANGE -> 0 <= us < MIDDLE ->
  let tt := Z.lor (u32 (Z.shiftl type TIMEOUT_BITS)) (Z.land (u32 (cur + us)) TIMEOUT_MASK) in
  Z.land tt TIMEOUT_MASK = (now + us) mod RANGE /\ u8 (Z.shiftr tt TIMEOUT_BITS) = type.
Proof.
  intros Ht Hc Hus tt. unfold tt. rewrite !ts_land_mask. unfold MIDDLE, RANGE, TIMEOUT_BITS in *.
  assert (E : u32 (cur + us) mod 268435456 = (now + us) mod 268435456).
  { unfold u32. rewrite Z.mod_mod_divide by (by exists 16). subst cur.
    by rewrite Zplus_mod_idemp_l. }
  rewrite E. pose proof (Z.mod_pos_bound (now + us) 268435456 eq_refl) as Hb.
  set (b := (now + us) mod 268435456) in *. clearbody b.
  rewrite Z.shiftl_mul_pow2 by lia. change (2 ^ 28) with 268435456. rewrite u32_small by lia. split.
  - rewrite <-ts_land_mask, Z.land_lor_distr_l, !ts_land_mask. unfold RANGE.
    rewrite Z.mod_mul, Z.lor_0_l by lia. by apply Z.mod_small.
  - rewrite Z.shiftr_lor, !Z.shiftr_div_pow2 by lia. change (2 ^ 28) with 268435456.
    rewrite Z.div_mul, (Z.div_small b), Z.lor_0_r by lia. unfold u8. by apply Z.mod_small; lia.
Qed.

Lemma above_gt (dl : Z -> Z) now T x : x ∈ above dl now T -> now < dl x.
Proof. intros [? _]%above_spec. lia. Qed.

Lemma arm_ok fuel mgr dl now T D to us type cur_ts : tm_inv mgr dl now T D ->
  to <> NULL -> (to ∉ T ++ D) -> 0 <= us < MIDDLE -> 0 <= type < 16 -> cur_ts mod RANGE = now mod RANGE ->
  (length T < fuel)%nat ->
  exists mgr', util_timeout_arm_ts fuel mgr to us type cur_ts = Done mgr' /\
    tm_inv mgr' (<[to := now + us]> dl) now (insert_by dl (now + us) to (above dl now T)) (D ++ below dl now T) /\
    u8 (Z.shiftr (to_timeout_type mgr' to) TIMEOUT_BITS) = type /\
    (forall y, y <> to -> to_timeout_type mgr' y = to_timeout_type mgr y).
Proof.
  intros Hi Hto0 Hto Hus Htype Hcur Hf. unfold util_timeout_arm_ts.
  change (Z.shiftl 1 (TIMEOUT_BITS - 1)) with MIDDLE. rewrite (proj2 (Z.leb_gt _ _)) by lia.
  rewrite (ts_land_mask cur_ts), Hcur.
  destruct (move_due_ok dl now (now mod RANGE) eq_refl fuel T D mgr Hi Hf) as (mgr1 & -> & Hi1 & Et).
  cbn [mbind outcome_bind]. set (T1 := above dl now T) in *. set (D1 := D ++ below dl now T) in *.
  assert (Hperm : T1 ++ D1 ⊆ T ++ D).
  { intros y. unfold T1, D1. rewrite !elem_of_app, below_spec, above_spec. tauto. }
  assert (Hlen : (length T1 <= length T)%nat) by (unfold T1, above; apply length_filter).
  destruct (dlist_first _ _ _ _ _ _ (ti_pending _ _ _ _ _ Hi1)) as [E1 E2]. rewrite E2.
  rewrite (find_pred_ok _ _ _ _ us _ _ Hi1 eq_refl Hus (above_gt dl now T) T1 []) by (rewrite ?app_nil_r; (done || lia)).
  cbn [mbind outcome_bind]. set (A := below dl (now + us) T1). set (B := above dl (now + us) T1).
  pose proof (sorted_cut dl (now + us) T1 (ti_sorted _ _ _ _ _ Hi1)) as Hcut. fold A B in Hcut.
  assert (Htn : (if negb (lastd NULL A =? NULL) then to_next mgr1 (lastd NULL A) else timeouts_first mgr1) = hd NULL B).
  { rewrite Hcut in Hi1, E1. destruct (lastd_cases NULL A) as [[EA ->]|(A' & p & EA & ->)]; rewrite EA in Hi1, E1.
    - rewrite Z.eqb_refl. exact E1.
    - rewrite (proj2 (Z.eqb_neq p _)) by (eapply ti_notnull; [exact Hi1|set_solver]). cbn [negb].
      pose proof (ti_pending _ _ _ _ _ Hi1) as Hp. rewrite <-app_assoc in Hp. by apply dlist_next in Hp as [? _]. }
  rewrite Htn. destruct (timeout_type_ok type (now mod RANGE) us now Htype eq_refl Hus) as [Htt Hty].
  eexists. split; [reflexivity|]. split.
  - change (insert_by dl (now + us) to T1) with (A ++ to :: B). rewrite Hcut in Hi1.
    apply insert_between_ok; try done.
    + rewrite <-Hcut. set_solver.
    + assert (Hext : forall y, y ∈ T1 -> dl y = (<[to := now + us]> dl) y).
      { intros y Hy. unfold insert, fn_insert. rewrite decide_False; [done|]. intros ->. set_solver. }
      change (A ++ to :: B) with (insert_by dl (now + us) to T1).
      rewrite (insert_by_ext dl (<[to := now + us]> dl)) by done.
      assert (Hdl : (<[to := now + us]> dl) to = now + us) by (unfold insert, fn_insert; by rewrite decide_True).
      rewrite <-Hcut in Hi1. pose proof (ti_sorted _ _ _ _ _ Hi1) as Hs.
      set (dl' := <[to := now + us]> dl) in *.
      assert (Hs' : sorted_by dl' T1).
      { eapply (sorted_by_ext dl dl' 0); [|exact Hs]. intros y Hy. rewrite <-Hext by done. lia. }
      pose proof (sorted_insert_by dl' to T1 Hs') as Hins. by rewrite Hdl in Hins.
  - rewrite <-Et. unfold insert_between. split; [|intros y Hy];
      repeat (case_match; cbn); unfold insert, fn_insert; (by rewrite decide_True) || by rewrite decide_False.
Qed.

(** [util_timeout_arm_ts], for less than half the range of a timestamp (a longer
    timeout is refused by an abort): the timeout is inserted in the order of the
    deadlines, behind those with the same deadline, with its type; the timeouts that are
    due are moved to the due list before, in order, and no other timeout is touched. *)
Theorem util_timeout_arm_correct fuel mgr dl now T D to us type cur_ts : tm_inv mgr dl now T D ->
  to <> NULL -> (to ∉ T ++ D) -> 0 <= us -> 0 <= type < 16 -> cur_ts mod RANGE = now mod RANGE ->
  (length T < fuel)%nat ->
  (MIDDLE <= us -> util_timeout_arm_ts fuel mgr to us type cur_ts = Aborted) /\
  (us < MIDDLE -> exists mgr', util_timeout_arm_ts fuel mgr to us type cur_ts = Done mgr' /\
    tm_inv mgr' (<[to := now + us]> dl) now (insert_by dl (now + us) to (above dl now T)) (D ++ below dl now T) /\
    u8 (Z.shiftr (to_timeout_type mgr' to) TIMEOUT_BITS) = type /\
    (forall y, y <> to -> to_timeout_type mgr' y = to_timeout_type mgr y)).
Proof.
  intros Hi Hto0 Hto Hus Hty Hc Hf. split; intros H.
  - unfold util_timeout_arm_ts. change (Z.shiftl 1 (TIMEOUT_BITS - 1)) with MIDDLE.
    by rewrite (proj2 (Z.leb_le _ _)).
  - by apply arm_ok.
Qed.


(** The pointers after [x] between [p] and [n] has been taken out. *)
Definition cut_next (mgr : tmgr) (p n : Z) : Z -> Z :=
  if decide (p = NULL) then to_next mgr else <[p := n]> (to_next mgr).
Definition cut_prev (mgr : tmgr) (p n : Z) : Z -> Z :=
  if decide (n = NULL) then to_prev mgr else <[n := p]> (to_prev mgr).

(** The ends of a list after the removal. *)
Definition cut_first (p n f : Z) : Z := if decide (p = NULL) then n else f.
Definition cut_last (p n l : Z) : Z := if decide (n = NULL) then p else l.

Lemma lastd_null (A : list Z) : NULL ∉ A -> (lastd NULL A = NULL <-> A = []).
Proof.
  intros HA. destruct (lastd_cases NULL A) as [[-> E]|(A' & p & -> & E)]; [done|]. rewrite E.
  split; [intros ->; exfalso; set_solver|]. intros Ha. by destruct A'.
Qed.

Lemma hd_null (B : list Z) : NULL ∉ B -> (hd NULL B = NULL <-> B = []).
Proof. intros HB. destruct B as [|b B]; [done|]. cbn. split; [intros ->; exfalso; set_solver|done]. Qed.

Lemma dlist_cut mgr f l A x B : dlist NULL (to_next mgr) (to_prev mgr) f l (A ++ x :: B) -> NoDup (A ++ x :: B) ->
  let p := lastd NULL A in let n := hd NULL B in
  dlist NULL (cut_next mgr p n) (cut_prev mgr p n) (cut_first p n f) (cut_last p n l) (A ++ B).
Proof.
  intros Hd Hnd p n. assert (Hperm : A ++ x :: B ≡ₚ x :: A ++ B) by solve_Permutation.
  pose proof Hnd as Hnd'. rewrite Hperm in Hnd'. apply NoDup_cons in Hnd' as [Hx Hnd'].
  pose proof (seg_notin_null _ _ _ _ _ (proj1 Hd)) as Hnn.
  pose proof (lastd_null A ltac:(set_solver)) as HA. pose proof (hd_null B ltac:(set_solver)) as HB.
  fold p in HA. fold n in HB.
  eapply (dlist_remove NULL (to_next mgr) (to_prev mgr)); [exact Hd|done| | | |].
  - intros y Hy. unfold cut_next. destruct (decide (p = NULL)) as [E|E].
    + apply HA in E as ->. cbn. done.
    + assert (Hl : last A = Some p) by (unfold p, lastd in *; by destruct (last A)).
      rewrite Hl. unfold insert, fn_insert. fold n. destruct (decide (p = y)) as [->|].
      * by rewrite decide_True.
      * rewrite decide_False; [done|congruence].
  - intros y Hy. unfold cut_prev. destruct (decide (n = NULL)) as [E|E].
    + apply HB in E as ->. done.
    + assert (Hl : head B = Some n) by (unfold n in *; by destruct B).
      rewrite Hl. unfold insert, fn_insert. fold p. destruct (decide (n = y)) as [->|].
      * by rewrite decide_True.
      * rewrite decide_False; [done|congruence].
  - unfold cut_first. destruct (decide (p = NULL)), (decide (A = [])); tauto.
  - unfold cut_last. destruct (decide (n = NULL)), (decide (B = [])); tauto.
Qed.

(** A list that does not contain the neighbours is not affected. *)
Lemma dlist_cut_other mgr f l L A x B : dlist NULL (to_next mgr) (to_prev mgr) f l L ->
  (forall y, y ∈ A ++ x :: B -> y ∉ L) ->
  dlist NULL (cut_next mgr (lastd NULL A) (hd NULL B)) (cut_prev mgr (lastd NULL A) (hd NULL B)) f l L.
Proof.
  intros Hd Hdis. eapply dlist_ext; [|exact Hd]. intros y Hy. unfold cut_next, cut_prev, insert, fn_insert. split.
  - destruct (decide (lastd NULL A = NULL)) as [|E]; [done|]. destruct (decide (lastd NULL A = y)) as [<-|]; [|done].
    exfalso. apply (Hdis (lastd NULL A)); [|done]. apply elem_of_app. left. apply lastd_elem. intros ->. by apply E.
  - destruct (decide (hd NULL B = NULL)) as [|E]; [done|]. destruct (decide (hd NULL B = y)) as [<-|]; [|done].
    exfalso. apply (Hdis (hd NULL B)); [|done]. destruct B; [done|set_solver].
Qed.

Lemma cut_inv mgr dl now A x B T D f l df dl_ : 
  (T = A ++ x :: B /\ tm_inv mgr dl now T D /\ f = cut_first (lastd NULL A) (hd NULL B) (timeouts_first mgr) /\
     l = cut_last (lastd NULL A) (hd NULL B) (timeouts_last mgr) /\ df = due_first mgr /\ dl_ = due_last mgr ->
   tm_inv (mk_tmgr (to_timeout_type mgr) (cut_next mgr (lastd NULL A) (hd NULL B))
     (cut_prev mgr (lastd NULL A) (hd NULL B)) f l df dl_) dl now (A ++ B) D) /\
  (D = A ++ x :: B /\ tm_inv mgr dl now T D /\ f = timeouts_first mgr /\ l = timeouts_last mgr /\
     df = cut_first (lastd NULL A) (hd NULL B) (due_first mgr) /\ dl_ = cut_last (lastd NULL A) (hd NULL B) (due_last mgr) ->
   tm_inv (mk_tmgr (to_timeout_type mgr) (cut_next mgr (lastd NULL A) (hd NULL B))
     (cut_prev mgr (lastd NULL A) (hd NULL B)) f l df dl_) dl now T (A ++ B)).
Proof.
  split.
  - intros (-> & Hi & -> & -> & -> & ->). destruct Hi as [HT HD Hnd Hs Hts Hr].
    pose proof (proj1 (NoDup_app _ _) Hnd) as (HndT & HTD & HndD).
    assert (Hin : forall y, y ∈ A ++ B -> y ∈ A ++ x :: B) by set_solver.
    constructor; cbn.
    + by apply (dlist_cut _ _ _ _ x).
    + by apply (dlist_cut_other _ _ _ _ _ x).
    + assert (Hp : (A ++ x :: B) ++ D ≡ₚ x :: (A ++ B) ++ D) by solve_Permutation.
      rewrite Hp in Hnd. by apply NoDup_cons in Hnd as [_ ?].
    + eapply StronglySorted_sublist; [|exact Hs]. apply sublist_insert_right; done.
    + intros y Hy. apply Hts. by apply Hin.
    + intros y Hy. apply Hr. by apply Hin.
  - intros (-> & Hi & -> & -> & -> & ->). destruct Hi as [HT HD Hnd Hs Hts Hr].
    pose proof (proj1 (NoDup_app _ _) Hnd) as (HndT & HTD & HndD). constructor; cbn; try done.
    + apply (dlist_cut_other _ _ _ _ _ x); [done|]. intros y Hy Hy'. by apply (HTD y).
    + by apply (dlist_cut _ _ _ _ x).
    + assert (Hp : T ++ (A ++ x :: B) ≡ₚ x :: T ++ (A ++ B)) by solve_Permutation.
      rewrite Hp in Hnd. by apply NoDup_cons in Hnd as [_ ?].
Qed.


Lemma ti_ends mgr dl now T D : tm_inv mgr dl now T D ->
  timeouts_first mgr = hd NULL T /\ timeouts_last mgr = lastd NULL T /\
  due_first mgr = hd NULL D /\ due_last mgr = lastd NULL D.
Proof. intros [HT HD _ _ _ _]. apply dlist_first in HT as [-> ->]. by apply dlist_first in HD as [-> ->]. Qed.

Lemma hd_in (L : list Z) x : x <> NULL -> hd NULL L = x -> x ∈ L.
Proof. destruct L; cbn; [congruence|set_solver]. Qed.
Lemma lastd_in (L : list Z) x : x <> NULL -> lastd NULL L = x -> x ∈ L.
Proof. intros Hx <-. apply lastd_elem. intros ->. by apply Hx. Qed.

Lemma disarm_ok mgr dl now T D x : tm_inv mgr dl now T D -> x ∈ T ++ D ->
  exists mgr', util_timeout_disarm mgr x = Done mgr' /\ to_timeout_type mgr' = to_timeout_type mgr /\
    exists A B, (T = A ++ x :: B /\ tm_inv mgr' dl now (A ++ B) D) \/
      (D = A ++ x :: B /\ tm_inv mgr' dl now T (A ++ B)).
Proof.
  intros Hi Hin. pose proof (ti_notnull _ _ _ _ _ x Hi Hin) as Hx0.
  destruct (ti_ends _ _ _ _ _ Hi) as (E1 & E2 & E3 & E4).
  pose proof (proj1 (NoDup_app _ _) (ti_nodup _ _ _ _ _ Hi)) as (HndT & HTD & HndD).
  unfold util_timeout_disarm, disarm_next, disarm_prev.
  apply elem_of_app in Hin as [Hin|Hin]; pose proof Hin as (A & B & EL)%list_elem_of_split.
  - pose proof (ti_pending _ _ _ _ _ Hi) as Hd. rewrite EL in Hd. destruct (dlist_next _ _ _ _ _ _ _ _ Hd) as [-> ->].
    assert (Hf : lastd NULL A = NULL -> timeouts_first mgr = x).
    { intros HA. rewrite E1, EL. apply lastd_null in HA as ->; [done|].
      intros Hn. by apply (seg_notin_null _ _ _ _ _ (proj1 Hd)), elem_of_app; left. }
    assert (Hl : hd NULL B = NULL -> timeouts_last mgr = x).
    { intros HB. rewrite E2, EL. apply hd_null in HB as ->; [by rewrite lastd_app|].
      intros Hn. apply (seg_notin_null _ _ _ _ _ (proj1 Hd)). set_solver. }
    eexists (mk_tmgr (to_timeout_type mgr) (cut_next mgr (lastd NULL A) (hd NULL B))
      (cut_prev mgr (lastd NULL A) (hd NULL B)) (cut_first (lastd NULL A) (hd NULL B) (timeouts_first mgr))
      (cut_last (lastd NULL A) (hd NULL B) (timeouts_last mgr)) (due_first mgr) (due_last mgr)).
    split; [|split; [done|exists A, B; left; split; [done|]; by eapply (proj1 (cut_inv _ _ _ _ _ _ _ _ _ _ _ _))]].
    unfold cut_next, cut_prev, cut_first, cut_last.
    destruct (Z.eqb_spec (lastd NULL A) NULL) as [EA|EA], (Z.eqb_spec (hd NULL B) NULL) as [EB|EB];
      rewrite ?(Hf EA), ?Z.eqb_refl; cbn; rewrite ?(Hl EB), ?Z.eqb_refl; rewrite ?EA, ?EB; cbn;
      repeat (destruct (decide _)); try done.
  - pose proof (ti_due _ _ _ _ _ Hi) as Hd. rewrite EL in Hd. destruct (dlist_next _ _ _ _ _ _ _ _ Hd) as [-> ->].
    assert (Hf : lastd NULL A = NULL -> timeouts_first mgr <> x /\ due_first mgr = x).
    { intros HA. split.
      - rewrite E1. intros Hx. by apply (HTD x); [apply hd_in|].
      - rewrite E3, EL. apply lastd_null in HA as ->; [done|].
        intros Hn. by apply (seg_notin_null _ _ _ _ _ (proj1 Hd)), elem_of_app; left. }
    assert (Hl : hd NULL B = NULL -> timeouts_last mgr <> x /\ due_last mgr = x).
    { intros HB. split.
      - rewrite E2. intros Hx. by apply (HTD x); [apply lastd_in|].
      - rewrite E4, EL. apply hd_null in HB as ->; [by rewrite lastd_app|].
        intros Hn. apply (seg_notin_null _ _ _ _ _ (proj1 Hd)). set_solver. }
    eexists (mk_tmgr (to_timeout_type mgr) (cut_next mgr (lastd NULL A) (hd NULL B))
      (cut_prev mgr (lastd NULL A) (hd NULL B)) (timeouts_first mgr) (timeouts_last mgr)
      (cut_first (lastd NULL A) (hd NULL B) (due_first mgr)) (cut_last (lastd NULL A) (hd NULL B) (due_last mgr))).
    split; [|split; [done|exists A, B; right; split; [done|]; by eapply (proj2 (cut_inv _ _ _ _ _ _ _ _ _ _ _ _))]].
    unfold cut_next, cut_prev, cut_first, cut_last.
    destruct (Z.eqb_spec (lastd NULL A) NULL) as [EA|EA], (Z.eqb_spec (hd NULL B) NULL) as [EB|EB];
      try (destruct (Hf EA) as [Hf1 Hf2]; rewrite (proj2 (Z.eqb_neq _ _) Hf1), Hf2, Z.eqb_refl); cbn;
      try (destruct (Hl EB) as [Hl1 Hl2]; rewrite (proj2 (Z.eqb_neq _ _) Hl1), Hl2, Z.eqb_refl); cbn;
      rewrite ?EA, ?EB; repeat (destruct (decide _)); try done.
Qed.

(** [util_timeout_disarm] takes an armed timeout out of the list it is in, the
    pending or the due one, and leaves all others, and their order, alone; it does not
    abort. *)
Theorem util_timeout_disarm_correct mgr dl now T D x : tm_inv mgr dl now T D -> x ∈ T ++ D ->
  exists mgr', util_timeout_disarm mgr x = Done mgr' /\ to_timeout_type mgr' = to_timeout_type mgr /\
    exists A B, (T = A ++ x :: B /\ tm_inv mgr' dl now (A ++ B) D) \/
      (D = A ++ x :: B /\ tm_inv mgr' dl now T (A ++ B)).
Proof. intros Hi Hin. destruct (disarm_ok _ _ _ _ _ _ Hi Hin) as (mgr' & E & H). by exists mgr'. Qed.

(** ** Polling *)

Lemma pop_due_ok mgr dl now T x D : tm_inv mgr dl now T (x :: D) ->
  tm_inv (pop_due mgr x) dl now T D /\ to_timeout_type (pop_due mgr x) = to_timeout_type mgr.
Proof.
  intros Hi. destruct (dlist_next _ _ _ _ _ [] x D (ti_due _ _ _ _ _ Hi)) as [En _].
  pose proof (proj2 (cut_inv mgr dl now [] x D T (x :: D) (timeouts_first mgr) (timeouts_last mgr)
    (hd NULL D) (cut_last NULL (hd NULL D) (due_last mgr))) ltac:(by split_and!)) as Hc.
  assert (E : pop_due mgr x = mk_tmgr (to_timeout_type mgr) (cut_next mgr NULL (hd NULL D)) (cut_prev mgr NULL (hd NULL D))
    (timeouts_first mgr) (timeouts_last mgr) (hd NULL D) (cut_last NULL (hd NULL D) (due_last mgr))).
  { unfold pop_due, cut_next, cut_prev, cut_last. cbn. rewrite En.
    destruct (Z.eqb_spec (hd NULL D) NULL) as [E|E]; cbn; repeat (destruct (decide _)); try done. }
  rewrite E. by split.
Qed.


(** The type byte a handler gets. *)
Definition type_of (mgr : tmgr) (x : Z) : Z := u8 (Z.shiftr (to_timeout_type mgr x) TIMEOUT_BITS).

Section PollSpec.
Context {W : Type} (handler : Z -> Z -> tmgr * W -> outcome (tmgr * W)).

(** A handler that only works on its own state. *)
Lemma poll_due_passive h dl now T : (forall x ty m w, handler x ty (m, w) = Done (m, h x ty w)) ->
  forall n D mgr w, tm_inv mgr dl now T D ->
  exists mgr', poll_due handler n mgr w
      = Done (mgr', fold_left (fun w x => h x (type_of mgr x) w) (take n D) w) /\
    tm_inv mgr' dl now T (drop n D).
Proof.
  intros Hh. induction n as [|n IH]; intros D mgr w Hi; cbn [poll_due take drop].
  { by exists mgr. }
  destruct (ti_ends _ _ _ _ _ Hi) as (_ & _ & -> & _). destruct D as [|x D]; cbn [hd].
  { rewrite Z.eqb_refl. by exists mgr. }
  rewrite (proj2 (Z.eqb_neq x _)) by (eapply ti_notnull; [exact Hi|set_solver]).
  destruct (pop_due_ok _ _ _ _ _ _ Hi) as [Hi' Et]. rewrite Hh, Et. cbn [mbind outcome_bind].
  destruct (IH D (pop_due mgr x) (h x (type_of mgr x) w) Hi') as (mgr' & E & Hi2). exists mgr'.
  fold (type_of mgr x). rewrite E. split; [|done]. cbn [fold_left]. unfold type_of. by rewrite Et.
Qed.

(** A handler that may arm and disarm timeouts, the one that has fired included; [J]
    is what it keeps true of its own state and the armed timeouts. *)
Lemma poll_due_inv (J : tmgr -> W -> (Z -> Z) -> list Z -> Prop) now :
  (forall x m w dl T D, tm_inv m dl now T (x :: D) -> J m w dl (T ++ x :: D) ->
    exists m' w' dl' T' D', handler x (type_of m x) (pop_due m x, w) = Done (m', w') /\
      tm_inv m' dl' now T' D' /\ J m' w' dl' (T' ++ D')) ->
  forall n mgr w dl T D, tm_inv mgr dl now T D -> J mgr w dl (T ++ D) ->
  exists mgr' w' dl' T' D', poll_due handler n mgr w = Done (mgr', w') /\ tm_inv mgr' dl' now T' D' /\
    J mgr' w' dl' (T' ++ D').
Proof.
  intros Hh. induction n as [|n IH]; intros mgr w dl T D Hi HJ; cbn [poll_due].
  { by exists mgr, w, dl, T, D. }
  destruct (ti_ends _ _ _ _ _ Hi) as (_ & _ & -> & _). destruct D as [|x D]; cbn [hd].
  { rewrite Z.eqb_refl. by exists mgr, w, dl, T, []. }
  rewrite (proj2 (Z.eqb_neq x _)) by (eapply ti_notnull; [exact Hi|set_solver]).
  destruct (pop_due_ok _ _ _ _ _ _ Hi) as [_ Et].
  destruct (Hh x _ w _ _ _ Hi HJ) as (m' & w' & dl' & T' & D' & E & Hi2 & HJ2).
  unfold type_of in E. rewrite Et, E. cbn [mbind outcome_bind]. by eapply IH.
Qed.

Lemma popped_fresh mgr dl now T x D : tm_inv mgr dl now T (x :: D) -> x ∉ T ++ D.
Proof.
  intros Hi. pose proof (ti_nodup _ _ _ _ _ Hi) as Hnd. rewrite <-Permutation_middle in Hnd.
  by apply NoDup_cons in Hnd as [? _].
Qed.

(** C11: [util_timeout_poll_ts], for handlers that keep the timeout lists well formed
    while they arm and disarm timeouts, always returns with well formed lists.  With a
    handler that leaves the lists alone exactly the timeouts whose deadline has come are
    fired, with their types, the earlier due ones first and then in the order of the
    deadlines, up to the limit of one call; none fires early, none is lost. *)
Theorem util_timeout_poll_correct fuel mgr dl now T D w cur_ts : tm_inv mgr dl now T D ->
  cur_ts mod RANGE = now mod RANGE -> (length T < fuel)%nat ->
  ((forall x ty m w dl T D, tm_inv m dl now T D -> (x ∉ T ++ D) ->
     exists m' w' dl' T' D', handler x ty (m, w) = Done (m', w') /\ tm_inv m' dl' now T' D') ->
   exists mgr' w' dl' T' D', util_timeout_poll_ts handler fuel mgr w cur_ts = Done (mgr', w') /\
     tm_inv mgr' dl' now T' D') /\
  (forall h, (forall x ty m w, handler x ty (m, w) = Done (m, h x ty w)) ->
   let due := D ++ below dl now T in
   exists mgr', util_timeout_poll_ts handler fuel mgr w cur_ts
       = Done (mgr', fold_left (fun w x => h x (type_of mgr x) w) (take MAX_TIMEOUTS due) w) /\
     tm_inv mgr' dl now (above dl now T) (drop MAX_TIMEOUTS due)).
Proof.
  intros Hi Hcur Hf. unfold util_timeout_poll_ts. rewrite ts_land_mask, Hcur.
  destruct (move_due_ok dl now _ eq_refl fuel T D mgr Hi Hf) as (mgr1 & -> & Hi1 & Et).
  cbn [mbind outcome_bind]. split.
  - intros Hh. destruct (poll_due_inv (fun _ _ _ _ => True) now) with (n := MAX_TIMEOUTS) (w := w) (2 := Hi1)
      as (m' & w' & dl' & T' & D' & E & Hi' & _); [|done|by exists m', w', dl', T', D'].
    intros x m v dl0 T0 D0 Hx _. destruct (Hh x (type_of m x) _ v _ _ _ (proj1 (pop_due_ok _ _ _ _ _ _ Hx))
      (popped_fresh _ _ _ _ _ _ Hx)) as (m' & w' & dl' & T' & D' & E & Hi'). by exists m', w', dl', T', D'.
  - intros h Hh. destruct (poll_due_passive h _ _ _ Hh MAX_TIMEOUTS _ _ w Hi1) as (mgr' & E & Hi').
    exists mgr'. rewrite E. unfold type_of. by rewrite Et.
Qed.
End PollSpec.

(** [util_timeout_next] is the time until the next timeout fires: nothing is due and
    no deadline comes before that time has passed, and [UINT32_MAX] only when nothing is
    armed. *)
Theorem util_timeout_next_correct mgr dl now T D cur_ts : tm_inv mgr dl now T D ->
  cur_ts mod RANGE = now mod RANGE ->
  (T ++ D = [] -> util_timeout_next mgr cur_ts = UINT32_MAX) /\
  (T ++ D <> [] -> 0 <= util_timeout_next mgr cur_ts < MIDDLE /\
    (D <> [] -> util_timeout_next mgr cur_ts = 0) /\
    (forall x, x ∈ T -> now <= dl x -> util_timeout_next mgr cur_ts <= dl x - now) /\
    (0 < util_timeout_next mgr cur_ts -> exists x, x ∈ T /\ dl x = now + util_timeout_next mgr cur_ts)).
Proof.
  intros Hi Hcur. unfold util_timeout_next. rewrite ts_land_mask, Hcur.
  destruct (ti_ends _ _ _ _ _ Hi) as (-> & _ & -> & _).
  destruct D as [|y D]; cbn [hd].
  2:{ rewrite (proj2 (Z.eqb_neq y _)) by (eapply ti_notnull; [exact Hi|set_solver]). cbn [negb].
      unfold MIDDLE. split; [by destruct T|]. intros _. split_and!; try done; try lia. }
  rewrite Z.eqb_refl. cbn [negb]. destruct T as [|x T]; cbn [hd].
  { rewrite Z.eqb_refl. by split. }
  rewrite (proj2 (Z.eqb_neq x _)) by (eapply ti_notnull; [exact Hi|set_solver]).
  rewrite (due_ok _ _ _ _ _ _ x Hi eq_refl) by set_solver.
  pose proof (ti_range _ _ _ _ _ Hi x ltac:(set_solver)) as Hr. split; [done|]. intros _.
  assert (Hs : forall z, z ∈ x :: T -> dl x <= dl z).
  { intros z Hz. pose proof (ti_sorted _ _ _ _ _ Hi) as [_ Hx]%StronglySorted_inv.
    rewrite Forall_forall in Hx. apply elem_of_cons in Hz as [->|Hz]; [lia|by apply Hx]. }
  unfold MIDDLE in *. destruct (Z.ltb_spec (dl x - now) 0).
  - split_and!; try done; lia.
  - rewrite u32_small by lia. split_and!; try done; try lia.
    + intros z Hz _. specialize (Hs z Hz). lia.
    + intros _. exists x. split; [set_solver|lia].
Qed.


(** ** Concrete runs *)

Definition ex_mgr : tmgr := util_timeout_init (mk_tmgr (fun _ => 0) (fun _ => 0) (fun _ => 0) 0 0 0 0).

Lemma util_timeout_init_ok mgr dl now : tm_inv (util_timeout_init mgr) dl now [] [].
Proof. constructor; try done; [constructor|constructor|set_solver|set_solver]. Qed.

(** At time 1000 timeout 5 is armed for 100 microseconds. *)
Lemma ex_armed : exists mgr, util_timeout_arm_ts 1 ex_mgr 5 100 3 1000 = Done mgr /\
  tm_inv mgr (<[5 := 1100]> (fun _ => 0)) 1000 [5] [].
Proof.
  destruct (arm_ok 1 ex_mgr (fun _ => 0) 1000 [] [] 5 100 3 1000 (util_timeout_init_ok _ _ _))
    as (mgr & E & Hi & _); try done; [set_solver|cbn; lia|]. by exists mgr.
Qed.

Lemma util_timeout_arm_correct_witness : exists mgr,
  util_timeout_arm_ts 1 ex_mgr 5 100 3 1000 = Done mgr /\ type_of mgr 5 = 3.
Proof.
  destruct (util_timeout_arm_correct 1 ex_mgr (fun _ => 0) 1000 [] [] 5 100 3 1000 (util_timeout_init_ok _ _ _))
    as [_ H].
  - discriminate.
  - set_solver.
  - lia.
  - lia.
  - reflexivity.
  - cbn. lia.
  - destruct (H ltac:(reflexivity)) as (mgr & E & _ & Ht & _). exists mgr. split; [exact E|exact Ht].
Defined.

Lemma util_timeout_disarm_correct_witness : exists mgr mgr',
  util_timeout_arm_ts 1 ex_mgr 5 100 3 1000 = Done mgr /\ util_timeout_disarm mgr 5 = Done mgr'.
Proof.
  destruct ex_armed as (mgr & E & Hi).
  destruct (util_timeout_disarm_correct mgr _ 1000 [5] [] 5 Hi) as (mgr' & E' & _); [set_solver|].
  exists mgr, mgr'. split; [exact E|exact E'].
Defined.

Lemma util_timeout_poll_correct_witness : exists mgr mgr',
  util_timeout_arm_ts 1 ex_mgr 5 100 3 1000 = Done mgr /\
  util_timeout_poll_ts (fun x ty s => Done (fst s, snd s ++ [x])) 2 mgr [] 268436456 = Done (mgr', []).
Proof.
  destruct ex_armed as (mgr & E & Hi).
  destruct (util_timeout_poll_correct (fun x ty s => Done (fst s, snd s ++ [x])) 2 mgr _ 1000 [5] [] [] 268436456 Hi)
    as [_ H].
  - reflexivity.
  - cbn. lia.
  - destruct (H (fun x _ w => w ++ [x]) ltac:(reflexivity)) as (mgr' & E' & _).
    exists mgr, mgr'. split; [exact E|exact E'].
Defined.

Lemma util_timeout_next_correct_witness : exists mgr,
  util_timeout_arm_ts 1 ex_mgr 5 100 3 1000 = Done mgr /\ util_timeout_next mgr 1000 <= 100.
Proof.
  destruct ex_armed as (mgr & E & Hi). exists mgr. split; [exact E|].
  destruct (util_timeout_next_correct mgr _ 1000 [5] [] 1000 Hi eq_refl) as [_ H].
  destruct (H ltac:(discriminate)) as (_ & _ & Hx & _). exact (Hx 5 ltac:(set_solver) ltac:(vm_compute; discriminate)).
Defined.

End TimeoutSpec.
