(* ===== verification/Timers.v ===== *)
(** * What the slow path relies on from the timeout manager

    ARP and TCP arm, disarm and receive timeouts.  They are verified against this
    interface; the manager of [Timeout] implements it by the lemmas of [TimeoutSpec]. *)
From S2P Require Import Prelude Chain Timeout TimeoutSpec.
From stdpp Require Import gmap.
#[local] Open Scope Z_scope.

Abbreviation MIDDLE := TimeoutSpec.MIDDLE.
Abbreviation RANGE := TimeoutSpec.RANGE.

Lemma MIDDLE_val : MIDDLE = 134217728.
Proof. done. Qed.

(** [tm_rep m now A dl ty]: at time [now] the timeouts [A] are armed in [m], with the
    deadlines [dl] and the types [ty].  The first argument of the operations is the fuel
    of their loops. *)
Class Timers (M : Type) := {
  tm_arm : nat -> M -> Z -> Z -> Z -> Z -> outcome M;
  tm_disarm : M -> Z -> outcome M;
  tm_poll : forall W, (Z -> Z -> M * W -> outcome (M * W)) -> nat -> M -> W -> Z -> outcome (M * W);
  tm_rep : M -> Z -> gset Z -> (Z -> Z) -> (Z -> Z) -> Prop;
  tm_arm_law fuel m now A dl ty to us type ts :
    tm_rep m now A dl ty -> to <> 0 -> to ∉ A -> 0 <= us < MIDDLE -> 0 <= type < 16 ->
    ts mod RANGE = now mod RANGE -> (size A < fuel)%nat ->
    exists m', tm_arm fuel m to us type ts = Done m' /\
      tm_rep m' now ({[to]} ∪ A) (<[to := now + us]> dl) (<[to := type]> ty);
  tm_disarm_law m now A dl ty to :
    tm_rep m now A dl ty -> to ∈ A ->
    exists m', tm_disarm m to = Done m' /\ tm_rep m' now (A ∖ {[to]}) dl ty;
  tm_later_law m now now' A dl ty :
    tm_rep m now A dl ty -> now <= now' -> (forall x, x ∈ A -> now' - MIDDLE < dl x) ->
    tm_rep m now' A dl ty;
  tm_poll_law W handler (J : W -> gset Z -> (Z -> Z) -> (Z -> Z) -> Prop) fuel m now A dl ty w ts :
    (forall x m w A dl ty, tm_rep m now A dl ty -> x ∉ A -> x <> 0 -> J w ({[x]} ∪ A) dl ty ->
      exists m' w' A' dl' ty', handler x (ty x) (m, w) = Done (m', w') /\
        tm_rep m' now A' dl' ty' /\ J w' A' dl' ty') ->
    tm_rep m now A dl ty -> J w A dl ty -> ts mod RANGE = now mod RANGE -> (size A < fuel)%nat ->
    exists m' w' A' dl' ty', tm_poll W handler fuel m w ts = Done (m', w') /\
      tm_rep m' now A' dl' ty' /\ J w' A' dl' ty'
}.

Module Timers.
Import Timeout TimeoutSpec.

(** The abstract state of a manager. *)
Definition rep (m : tmgr) (now : Z) (A : gset Z) (dl ty : Z -> Z) : Prop :=
  exists T D, tm_inv m dl now T D /\ A = list_to_set (T ++ D) /\ (forall x, x ∈ A -> type_of m x = ty x).

Lemma rep_size m now dl (T D : list Z) : tm_inv m dl now T D ->
  (length T <= size (list_to_set (T ++ D) : gset Z))%nat.
Proof.
  intros Hi. rewrite size_list_to_set by apply (ti_nodup _ _ _ _ _ Hi). rewrite length_app. lia.
Qed.

Lemma arm_rep fuel m now A dl ty to us type ts :
  rep m now A dl ty -> to <> NULL -> to ∉ A -> 0 <= us < MIDDLE -> 0 <= type < 16 ->
  ts mod RANGE = now mod RANGE -> (size A < fuel)%nat ->
  exists m', util_timeout_arm_ts fuel m to us type ts = Done m' /\
    rep m' now ({[to]} ∪ A) (<[to := now + us]> dl) (<[to := type]> ty).
Proof.
  intros (T & D & Hi & -> & Hty) Hto0 Hto Hus Htype Hts Hf. pose proof (rep_size _ _ _ _ _ Hi).
  destruct (arm_ok fuel m dl now T D to us type ts Hi) as (m' & E & Hi' & Et & Eo); try done; [set_solver|lia|].
  exists m'. split; [done|]. eexists _, _. split; [exact Hi'|]. split.
  - apply set_eq. intros y. rewrite elem_of_union, !elem_of_list_to_set, !elem_of_app, elem_of_insert_by.
    rewrite above_spec, below_spec, elem_of_singleton. destruct (decide (dl y <= now)); tauto.
  - intros x Hx. unfold insert, fn_insert. destruct (decide (to = x)) as [<-|Hne]; [done|].
    unfold type_of. rewrite Eo by done. apply Hty. set_solver.
Qed.

Lemma disarm_rep m now A dl ty to : rep m now A dl ty -> to ∈ A ->
  exists m', util_timeout_disarm m to = Done m' /\ rep m' now (A ∖ {[to]}) dl ty.
Proof.
  intros (T & D & Hi & -> & Hty) Hto. rewrite elem_of_list_to_set in Hto.
  destruct (disarm_ok _ _ _ _ _ _ Hi Hto) as (m' & E & Et & A & B & Hor). exists m'. split; [done|].
  pose proof (ti_nodup _ _ _ _ _ Hi) as Hnd.
  assert (Hty' : forall x, x ∈ (list_to_set (T ++ D) ∖ {[to]} : gset Z) -> type_of m' x = ty x).
  { intros x Hx. unfold type_of. rewrite Et. apply Hty. set_solver. }
  destruct Hor as [[-> Hi']|[-> Hi']]; eexists _, _; (split; [exact Hi'|]); (split; [|done]).
  - assert (Hp : (A ++ to :: B) ++ D ≡ₚ to :: (A ++ B) ++ D) by solve_Permutation.
    rewrite Hp in Hnd. apply NoDup_cons in Hnd as [Hn _]. set_solver.
  - assert (Hp : T ++ (A ++ to :: B) ≡ₚ to :: T ++ (A ++ B)) by solve_Permutation.
    rewrite Hp in Hnd. apply NoDup_cons in Hnd as [Hn _]. set_solver.
Qed.

Lemma later_rep m now now' A dl ty : rep m now A dl ty -> now <= now' ->
  (forall x, x ∈ A -> now' - MIDDLE < dl x) -> rep m now' A dl ty.
Proof.
  intros (T & D & Hi & -> & Hty) Hn Hx. exists T, D. split; [|done]. eapply tm_inv_later; [exact Hi|done|].
  intros x HT. apply Hx. set_solver.
Qed.

Lemma poll_rep W handler (J : W -> gset Z -> (Z -> Z) -> (Z -> Z) -> Prop) fuel m now A dl ty w ts :
  (forall x m w A dl ty, rep m now A dl ty -> x ∉ A -> x <> NULL -> J w ({[x]} ∪ A) dl ty ->
    exists m' w' A' dl' ty', handler x (ty x) (m, w) = Done (m', w') /\
      rep m' now A' dl' ty' /\ J w' A' dl' ty') ->
  rep m now A dl ty -> J w A dl ty -> ts mod RANGE = now mod RANGE -> (size A < fuel)%nat ->
  exists m' w' A' dl' ty', util_timeout_poll_ts handler fuel m w ts = Done (m', w') /\
    rep m' now A' dl' ty' /\ J w' A' dl' ty'.
Proof.
  intros Hh (T & D & Hi & -> & Hty) HJ Hts Hf. unfold util_timeout_poll_ts. rewrite ts_land_mask, Hts.
  pose proof (rep_size _ _ _ _ _ Hi).
  destruct (move_due_ok dl now _ eq_refl fuel T D m Hi ltac:(lia)) as (m1 & -> & Hi1 & Et).
  cbn [mbind outcome_bind].
  set (K (m : tmgr) (w : W) (dl : Z -> Z) (L : list Z) := exists ty,
    (forall x, x ∈ L -> type_of m x = ty x) /\ J w (list_to_set L) dl ty).
  destruct (poll_due_inv handler K now) with (n := MAX_TIMEOUTS) (w := w) (2 := Hi1)
    as (m' & w' & dl' & T' & D' & E & Hi' & ty' & Hty' & HJ').
  - intros x m2 w2 dl2 T2 D2 Hx (ty2 & Hty2 & HJ2). destruct (pop_due_ok _ _ _ _ _ _ Hx) as [Hp Ept].
    pose proof (popped_fresh _ _ _ _ _ _ Hx) as Hfr.
    destruct (Hh x (pop_due m2 x) w2 (list_to_set (T2 ++ D2)) dl2 ty2) as (m' & w' & A' & dl' & ty' & E & (T' & D' & Hi' & -> & Hty') & HJ').
    + exists T2, D2. split; [done|]. split; [done|]. intros y Hy. unfold type_of. rewrite Ept. apply Hty2. set_solver.
    + set_solver.
    + eapply ti_notnull; [exact Hx|set_solver].
    + by replace ({[x]} ∪ list_to_set (T2 ++ D2) : gset Z) with (list_to_set (T2 ++ x :: D2) : gset Z) by set_solver.
    + rewrite Hty2 by set_solver. exists m', w', dl', T', D'. split; [done|]. split; [done|].
      exists ty'. split; [|done]. intros y Hy. apply Hty'. by apply elem_of_list_to_set.
  - exists ty. split.
    + intros x Hx. unfold type_of. rewrite Et. apply Hty. apply elem_of_list_to_set.
      rewrite !elem_of_app, above_spec, below_spec in *. tauto.
    + replace (list_to_set (above dl now T ++ D ++ below dl now T) : gset Z) with (list_to_set (T ++ D) : gset Z); [done|].
      apply set_eq. intros y. rewrite !elem_of_list_to_set, !elem_of_app, above_spec, below_spec.
      destruct (decide (dl y <= now)); tauto.
  - exists m', w', (list_to_set (T' ++ D')), dl', ty'. split; [done|]. split; [|done].
    exists T', D'. split; [done|]. split; [done|]. intros x Hx. apply Hty'. by apply elem_of_list_to_set in Hx.
Qed.

End Timers.

#[export] Instance timeout_timers : Timers Timeout.tmgr := {
  tm_arm := Timeout.util_timeout_arm_ts;
  tm_disarm := Timeout.util_timeout_disarm;
  tm_poll W handler := Timeout.util_timeout_poll_ts handler;
  tm_rep := Timers.rep;
  tm_arm_law := Timers.arm_rep;
  tm_disarm_law := Timers.disarm_rep;
  tm_later_law := Timers.later_rep;
  tm_poll_law := Timers.poll_rep
}.

(** No timeout is armed after the initialisation. *)
Lemma timers_init mgr now dl ty : tm_rep (Timeout.util_timeout_init mgr) now ∅ dl ty.
Proof. exists [], []. split; [apply TimeoutSpec.util_timeout_init_ok|]. split; [done|]. set_solver. Qed.
