(* ===== verification/Arp.v ===== *)
(** * Address resolution of the slow path ([tas/slow/arp.c], [include/utils_nbqueue.h])

    The ARP table is a doubly linked list of entries; the requests waiting for an entry
    are a singly linked list of completions through the same link ([el.next]) that later
    threads them on the queue of their owner.  All objects are addresses, their fields
    functions of the address. *)
From S2P Require Import Prelude Chain Timers.
From S2P Require Packet.

(** ** The queue of completions ([utils_nbqueue.h])

    [nx] are the links of all elements, [head] is the head of one queue. *)
Module Nbqueue.

Definition NULL : Z := 0.

Definition nbqueue_enq (nx : Z -> Z) (head el : Z) : (Z -> Z) * Z := (<[el := head]> nx, el).

(** The loop of [nbqueue_deq]: the last element and the one before it, [NULL] when there
    is none. *)
Fixpoint deq_last (fuel : nat) (nx : Z -> Z) (el el_p : Z) : outcome (Z * Z) :=
  match fuel with
  | O => NoFuel
  | S fuel => if negb (el =? NULL) && negb (nx el =? NULL) then deq_last fuel nx (nx el) el else Done (el, el_p)
  end.

(** [nbqueue_deq]: [None] when the queue is empty. *)
Definition nbqueue_deq (fuel : nat) (nx : Z -> Z) (head : Z) : outcome (option Z * (Z -> Z) * Z) :=
  if head =? NULL then Done (None, nx, head) else
  '(el, el_p) ← deq_last fuel nx head NULL;
  if negb (el_p =? NULL) then Done (Some el, <[el_p := NULL]> nx, head)
  else Done (Some el, nx, NULL).

End Nbqueue.

Module Arp.
Import Nbqueue.

Definition ARP_OPER_REQUEST : Z := 1.
Definition ARP_OPER_REPLY : Z := 2.
Definition ARP_HTYPE_ETHERNET : Z := 1.
Definition ARP_PTYPE_IPV4 : Z := 2048.
Definition ETH_BROADCAST : Z := 281474976710655.
Definition TO_ARP_REQ : Z := 0.

(** [offsetof(struct arp_entry, to)], and the entry of a timeout. *)
Definition TO_OFFSET : Z := 32.
Definition ae_to (ae : Z) : Z := ae + TO_OFFSET.

(** [struct pkt_arp]; MAC addresses are 48 bit numbers. *)
Record pkt_arp : Type := mk_pkt_arp {
  pa_eth_dest : Z; pa_eth_src : Z; pa_eth_type : Z;
  htype : Z; ptype : Z; hlen : Z; plen : Z; oper : Z; sha : Z; spa : Z; tha : Z; tpa : Z
}.

(** The table with the fields of the entries, the fields of the completions, the heads of
    their queues, the addresses requesters read the result from, and, as histories, the
    packets sent and the descriptors written to. *)
Record arp_state : Type := mk_arp {
  arp_table : Z;
  ae_status : Z -> Z;
  ae_ip : Z -> Z;
  ae_mac : Z -> Z;
  ae_compl : Z -> Z;
  ae_timeout : Z -> Z;
  ae_prev : Z -> Z;
  ae_next : Z -> Z;
  cp_next : Z -> Z;
  cp_q : Z -> Z;
  cp_fd : Z -> Z;
  cp_status : Z -> Z;
  cp_ptr : Z -> Z;
  nbq_head : Z -> Z;
  mac_cells : Z -> Z;
  arp_sent : list pkt_arp;
  arp_notified : list Z
}.
#[export] Instance eta_arp : Eta arp_state := fun r =>
  mk_arp (arp_table r) (ae_status r) (ae_ip r) (ae_mac r) (ae_compl r) (ae_timeout r) (ae_prev r)
    (ae_next r) (cp_next r) (cp_q r) (cp_fd r) (cp_status r) (cp_ptr r) (nbq_head r) (mac_cells r)
    (arp_sent r) (arp_notified r).

Section Arp.
(** The configuration; whether a transmit buffer is free at a time and after the packets
    sent so far. *)
Context (cfg_ip eth_addr arp_to arp_to_max : Z) (nicif_tx_alloc : Z -> list pkt_arp -> bool).
Context {M : Type} `{Timers M}.

(** [memcpy] of 6 bytes to the start of an 8 byte number. *)
Definition memcpy6 (cell mac : Z) : Z := cell - cell mod 281474976710656 + mac.

(** [arp_init]: [lb] is the allocated entry. *)
Definition arp_init (lb : Z) (st : arp_state) : arp_state :=
  st <| ae_status := <[lb := 0]> (ae_status st) |>
     <| ae_ip := <[lb := cfg_ip]> (ae_ip st) |>
     <| ae_mac := <[lb := eth_addr]> (ae_mac st) |>
     <| ae_compl := <[lb := NULL]> (ae_compl st) |>
     <| ae_next := <[lb := NULL]> (ae_next st) |>
     <| ae_prev := <[lb := NULL]> (ae_prev st) |>
     <| arp_table := lb |>.

(** [ae_lookup], from the entry [ae] on. *)
Fixpoint ae_lookup (fuel : nat) (st : arp_state) (ip ae : Z) : outcome (option Z) :=
  match fuel with
  | O => NoFuel
  | S fuel =>
    if ae =? NULL then Done None
    else if ae_ip st ae =? ip then Done (Some ae)
    else ae_lookup fuel st ip (ae_next st ae)
  end.

(** [response_tx] and [request_tx]: [false] is the return value -1. *)
Definition arp_tx (ts : Z) (st : arp_state) (p : pkt_arp) : bool * arp_state :=
  if negb (nicif_tx_alloc ts (arp_sent st)) then (false, st)
  else (true, st <| arp_sent := arp_sent st ++ [p] |>).
Definition response_tx (ts : Z) (st : arp_state) (dst_mac dst_ip : Z) : bool * arp_state :=
  arp_tx ts st (mk_pkt_arp dst_mac eth_addr Packet.Packet.ETH_TYPE_ARP ARP_HTYPE_ETHERNET ARP_PTYPE_IPV4 6 4
    ARP_OPER_REPLY eth_addr cfg_ip dst_mac dst_ip).
Definition request_tx (ts : Z) (st : arp_state) (dst_ip : Z) : bool * arp_state :=
  arp_tx ts st (mk_pkt_arp ETH_BROADCAST eth_addr Packet.Packet.ETH_TYPE_ARP ARP_HTYPE_ETHERNET ARP_PTYPE_IPV4 6 4
    ARP_OPER_REQUEST eth_addr cfg_ip ETH_BROADCAST dst_ip).

(** Linking a new entry in front of the table. *)
Definition ae_link (st : arp_state) (ae : Z) : arp_state :=
  let st := st <| ae_prev := <[ae := NULL]> (ae_prev st) |> <| ae_next := <[ae := arp_table st]> (ae_next st) |> in
  let st := if negb (arp_table st =? NULL)
            then st <| ae_prev := <[arp_table st := ae]> (ae_prev st) |> else st in
  st <| arp_table := ae |>.

(** [arp_request]: [mac] is the address of the result, [new] the result of [malloc]. *)
Definition arp_request (fuel : nat) (ts : Z) (m : M) (st : arp_state) (comp ip mac : Z) (new : option Z)
    : outcome (Z * M * arp_state) :=
  let st := st <| mac_cells := <[mac := 0]> (mac_cells st) |> in
  r ← ae_lookup fuel st ip (arp_table st);
  match r with
  | Some ae =>
    if ae_status st ae =? 0 then
      Done (0, m, st <| mac_cells := <[mac := memcpy6 (mac_cells st mac) (ae_mac st ae)]> (mac_cells st) |>)
    else
      Done (1, m, st <| cp_ptr := <[comp := mac]> (cp_ptr st) |>
                     <| cp_next := <[comp := ae_compl st ae]> (cp_next st) |>
                     <| ae_compl := <[ae := comp]> (ae_compl st) |>)
  | None =>
    match new with
    | None => Done (-1, m, st)
    | Some ae =>
      let st := st <| ae_status := <[ae := 1]> (ae_status st) |> <| ae_ip := <[ae := ip]> (ae_ip st) |>
                   <| ae_compl := <[ae := comp]> (ae_compl st) |>
                   <| cp_next := <[comp := NULL]> (cp_next st) |>
                   <| cp_ptr := <[comp := mac]> (cp_ptr st) |> in
      let '(_, st) := request_tx ts st ip in
      let st := st <| ae_timeout := <[ae := arp_to]> (ae_timeout st) |> in
      m ← tm_arm fuel m (ae_to ae) (ae_timeout st ae) TO_ARP_REQ ts;
      Done (1, m, ae_link st ae)
    end
  end.

(** Notifying the waiting connections from [comp] on, in [arp_packet] ([mac] is the
    address to report) and in [arp_timeout] ([None]). *)
Fixpoint notify (fuel : nat) (st : arp_state) (status : Z) (mac : option Z) (comp : Z) : outcome arp_state :=
  match fuel with
  | O => NoFuel
  | S fuel =>
    if comp =? NULL then Done st else
    let comp_next := cp_next st comp in
    let st := match mac with
              | Some a => st <| mac_cells := <[cp_ptr st comp := memcpy6 (mac_cells st (cp_ptr st comp)) a]> (mac_cells st) |>
              | None => st
              end in
    let st := st <| cp_status := <[comp := status]> (cp_status st) |> in
    let fd := cp_fd st comp in
    let '(nx, head) := nbqueue_enq (cp_next st) (nbq_head st (cp_q st comp)) comp in
    let st := st <| cp_next := nx |> <| nbq_head := <[cp_q st comp := head]> (nbq_head st) |> in
    let st := if negb (fd =? -1) then st <| arp_notified := arp_notified st ++ [fd] |> else st in
    notify fuel st status mac comp_next
  end.

(** [arp_packet]. *)
Definition arp_packet (fuel : nat) (ts : Z) (m : M) (st : arp_state) (p : pkt_arp) : outcome (M * arp_state) :=
  if negb (htype p =? ARP_HTYPE_ETHERNET) || negb (ptype p =? ARP_PTYPE_IPV4) || negb (hlen p =? 6)
     || negb (plen p =? 4) then Done (m, st)
  else if oper p =? ARP_OPER_REQUEST then
    if negb (tpa p =? cfg_ip) then Done (m, st)
    else Done (m, snd (response_tx ts st (sha p) (spa p)))
  else if oper p =? ARP_OPER_REPLY then
    r ← ae_lookup fuel st (spa p) (arp_table st);
    match r with
    | None => Done (m, st)
    | Some ae =>
      m ← (if ae_status st ae =? 1 then tm_disarm m (ae_to ae) else Done m);
      let st := st <| ae_mac := <[ae := sha p]> (ae_mac st) |> <| ae_status := <[ae := 0]> (ae_status st) |> in
      st ← notify fuel st 0 (Some (ae_mac st ae)) (ae_compl st ae);
      Done (m, st <| ae_compl := <[ae := NULL]> (ae_compl st) |>)
    end
  else Done (m, st).

(** The removal of an entry from the table. *)
Definition ae_unlink (st : arp_state) (ae : Z) : arp_state :=
  let st := if negb (ae_prev st ae =? NULL)
            then st <| ae_next := <[ae_prev st ae := ae_next st ae]> (ae_next st) |>
            else st <| arp_table := ae_next st ae |> in
  if negb (ae_next st ae =? NULL)
  then st <| ae_prev := <[ae_next st ae := ae_prev st ae]> (ae_prev st) |> else st.

(** [arp_timeout]; [to] is the timeout that has fired. *)
Definition arp_timeout (fuel : nat) (ts to : Z) (m : M) (st : arp_state) : outcome (M * arp_state) :=
  let ae := to - TO_OFFSET in
  if ae_status st ae =? 0 then Aborted else
  if arp_to_max <=? u32 (ae_timeout st ae * 2) then
    st ← notify fuel st (-1) None (ae_compl st ae);
    Done (m, ae_unlink st ae)
  else
    let '(_, st) := request_tx ts st (ae_ip st ae) in
    let st := st <| ae_timeout := <[ae := u32 (ae_timeout st ae * 2)]> (ae_timeout st) |> in
    m ← tm_arm fuel m to (ae_timeout st ae) TO_ARP_REQ ts;
    Done (m, st).

End Arp.
End Arp.
