(* ===== verification/ArpSpec.v ===== *)
(** * Every waiting connection is answered once

    The proofs about [Arp] and the queue of completions, against the interface of the
    timeout manager. *)
From S2P Require Import Prelude Chain Timers Arp.
From stdpp Require Import gmap.
#[local] Open Scope Z_scope.

Module ArpSpec.
Import Nbqueue Arp.

(** ** Queues of completions *)

Lemma deq_last_ok nx L : forall fuel el p x, chain NULL nx el (L ++ [x]) -> (length L < fuel)%nat ->
  deq_last fuel nx el p = Done (x, lastd p L).
Proof.
  induction L as [|y L IH]; intros fuel el p x Hc Hf; destruct fuel as [|fuel]; try (cbn in Hf; lia); cbn [deq_last].
  - destruct Hc as (-> & Hx & E). cbn in E. rewrite E. cbn. by rewrite andb_false_r.
  - destruct Hc as (-> & Hy & Hc). rewrite (proj2 (Z.eqb_neq y NULL)) by done.
    assert (Hn : nx y <> NULL).
    { intros E. apply chain_null in Hc as [Hc _]. specialize (Hc E). by destruct L. }
    rewrite (proj2 (Z.eqb_neq _ _)) by done. cbn [negb andb]. rewrite lastd_cons.
    apply IH; [done|cbn in Hf; lia].
Qed.

(** [nbqueue_enq] puts an element at the front of the list, [nbqueue_deq] takes the last
    one: the elements come out in the order they went in. *)
Lemma nbqueue_enq_ok nx head L el : chain NULL nx head L -> el <> NULL -> el ∉ L ->
  chain NULL (nbqueue_enq nx head el).1 (nbqueue_enq nx head el).2 (el :: L).
Proof.
  intros Hc He Hn. eapply chain_push; [exact Hc|done|done|apply fn_lookup_insert|].
  intros y Hy. cbn. apply fn_lookup_insert_ne. set_solver.
Qed.

Lemma nbqueue_deq_ok fuel nx head L : chain NULL nx head L -> NoDup L -> (length L < fuel)%nat ->
  match reverse L with
  | [] => nbqueue_deq fuel nx head = Done (None, nx, head)
  | x :: R => exists nx' head', nbqueue_deq fuel nx head = Done (Some x, nx', head') /\
      chain NULL nx' head' (reverse R) /\ (forall y, y ∉ L -> nx' y = nx y)
  end.
Proof.
  intros Hc Hnd Hf. unfold nbqueue_deq. destruct L as [|x L] using rev_ind.
  { cbn in Hc. subst. by rewrite Z.eqb_refl. }
  clear IHL. rewrite reverse_snoc, reverse_involutive.
  assert (Hh : head <> NULL). { intros E. apply chain_null in Hc as [Hc _]. specialize (Hc E). by destruct L. }
  rewrite (proj2 (Z.eqb_neq _ _)) by done. rewrite length_app in Hf. cbn in Hf.
  rewrite (deq_last_ok _ L _ _ _ x Hc) by lia. cbn [mbind outcome_bind].
  pose proof (seg_notin_null _ _ _ _ _ Hc) as Hnn.
  destruct (lastd_cases NULL L) as [[-> ->]|(A & p & -> & ->)].
  - rewrite Z.eqb_refl. cbn [negb]. by exists nx, NULL.
  - rewrite (proj2 (Z.eqb_neq p NULL)) by set_solver. cbn [negb]. eexists _, _. split; [reflexivity|]. split.
    + rewrite <-(app_nil_r (A ++ [p])). eapply (chain_remove NULL nx _ head head (A ++ [p]) x []); [exact Hc| | |by destruct A].
      * rewrite app_nil_r. by apply NoDup_app in Hnd as (? & _).
      * intros y Hy. rewrite app_nil_r in Hy. rewrite last_snoc. unfold insert, fn_insert. cbn [hd].
        destruct (decide (p = y)) as [->|]; [by rewrite decide_True|]. rewrite decide_False by congruence. done.
    + intros y Hy. apply fn_lookup_insert_ne. set_solver.
Qed.

(** ** The invariant of the table *)
Section Spec.
Context (cfg_ip eth_addr arp_to arp_to_max : Z) (nicif_tx_alloc : Z -> list pkt_arp -> bool).
Context {M : Type} `{Timers M}.

Abbreviation in48 x := (0 <= x < 281474976710656).

(** [L] are the entries, [Wt e] the completions waiting for [e], [Qs q] those on the queue
    [q]; [own] says where a completion is; [A] and [ty] are the armed timeouts and their
    types. *)
Record arp_inv (st : arp_state) (L : list Z) (Wt Qs : Z -> list Z) (own : Z -> option (Z + Z))
    (A : gset Z) (ty : Z -> Z) : Prop := {
  ai_list : dlist NULL (ae_next st) (ae_prev st) (arp_table st) (lastd NULL L) L;
  ai_nodup : NoDup L;
  ai_ips e e' : e ∈ L -> e' ∈ L -> ae_ip st e = ae_ip st e' -> e = e';
  ai_armed e : e ∈ L -> (ae_to e ∈ A <-> ae_status st e = 1);
  ai_status e : e ∈ L -> ae_status st e = 0 \/ ae_status st e = 1;
  ai_type e : e ∈ L -> ae_to e ∈ A -> ty (ae_to e) = TO_ARP_REQ;
  ai_only x : x ∈ A -> ty x = TO_ARP_REQ -> exists e, e ∈ L /\ x = ae_to e;
  ai_mac e : e ∈ L -> ae_status st e = 0 -> in48 (ae_mac st e);
  ai_backoff e : e ∈ L -> ae_status st e = 1 ->
    exists k, ae_timeout st e = arp_to * 2 ^ Z.of_nat k /\ ae_timeout st e < MIDDLE;
  ai_wait e : e ∈ L -> chain NULL (cp_next st) (ae_compl st e) (Wt e) /\ NoDup (Wt e);
  ai_ready e : e ∈ L -> ae_status st e = 0 -> Wt e = [];
  ai_own_wait e c : e ∈ L -> c ∈ Wt e -> own c = Some (inl e);
  ai_cell e c : e ∈ L -> c ∈ Wt e -> in48 (mac_cells st (cp_ptr st c));
  ai_queue q : chain NULL (cp_next st) (nbq_head st q) (Qs q) /\ NoDup (Qs q);
  ai_own_queue q c : c ∈ Qs q -> own c = Some (inr q)
}.

Lemma ae_lookup_ok st ip L : forall fuel h, chain NULL (ae_next st) h L -> (length L < fuel)%nat ->
  exists r, ae_lookup fuel st ip h = Done r /\
    match r with Some e => e ∈ L /\ ae_ip st e = ip | None => forall e, e ∈ L -> ae_ip st e <> ip end.
Proof.
  induction L as [|x L IH]; intros [|fuel] h Hc Hf; try (cbn in Hf; lia); cbn [ae_lookup].
  - cbn in Hc. subst. rewrite Z.eqb_refl. exists None. split; [done|set_solver].
  - destruct Hc as (-> & Hx & Hc). rewrite (proj2 (Z.eqb_neq x NULL)) by done.
    destruct (Z.eqb_spec (ae_ip st x) ip) as [E|E]; [exists (Some x); set_solver|].
    destruct (IH fuel _ Hc ltac:(cbn in Hf; lia)) as (r & -> & Hr). exists r. split; [done|].
    destruct r as [e|]; set_solver.
Qed.

(** ** Notifying *)

(** The completions of [Wl] that belong to the queue [q]. *)
Definition for_queue (st : arp_state) (Wl : list Z) (q : Z) : list Z := filter (fun c => cp_q st c = q) Wl.

Record notified (st st' : arp_state) (status : Z) (mac : option Z) (Wl : list Z) (Qs : Z -> list Z) : Prop := {
  no_same : st' = st <| cp_next := cp_next st' |> <| cp_status := cp_status st' |> <| nbq_head := nbq_head st' |>
    <| mac_cells := mac_cells st' |> <| arp_notified := arp_notified st' |>;
  no_queue q : chain NULL (cp_next st') (nbq_head st' q) (reverse (for_queue st Wl q) ++ Qs q);
  no_other c : c ∉ Wl -> cp_next st' c = cp_next st c /\ cp_status st' c = cp_status st c;
  no_status c : c ∈ Wl -> cp_status st' c = status;
  no_cells x : mac_cells st' x = match mac with
    | Some a => if decide (x ∈ cp_ptr st <$> Wl) then memcpy6 (mac_cells st x) a else mac_cells st x
    | None => mac_cells st x end;
  no_fds : arp_notified st' = arp_notified st ++ filter (fun fd => fd <> -1) (cp_fd st <$> Wl)
}.

Lemma memcpy6_idem v a : in48 a -> memcpy6 (memcpy6 v a) a = memcpy6 v a.
Proof.
  intros Ha. unfold memcpy6. set (k := 281474976710656) in *.
  assert (E : (v - v mod k + a) mod k = a).
  { replace (v - v mod k + a) with (a + (v / k) * k) by (rewrite (Z.mod_eq v k) by lia; ring).
    rewrite Z_mod_plus_full. apply Z.mod_small. lia. }
  rewrite E. lia.
Qed.

Lemma memcpy6_small v a : in48 v -> memcpy6 v a = a.
Proof. intros Hv. unfold memcpy6. rewrite Z.mod_small by done. lia. Qed.

Lemma notify_ok status mac : (forall a, mac = Some a -> in48 a) ->
  forall Wl fuel st comp Qs, chain NULL (cp_next st) comp Wl -> NoDup Wl ->
  (forall q, chain NULL (cp_next st) (nbq_head st q) (Qs q)) -> (forall q c, c ∈ Wl -> c ∉ Qs q) ->
  (length Wl < fuel)%nat ->
  exists st', notify fuel st status mac comp = Done st' /\ notified st st' status mac Wl Qs.
Proof.
  intros Hmac. induction Wl as [|c Wl IH]; intros [|fuel] st comp Qs Hc Hnd HQ Hdis Hf;
    try (cbn in Hf; lia); cbn [notify].
  { cbn in Hc. subst. rewrite Z.eqb_refl. exists st. split; [done|].
    constructor; [by destruct st|done|done|set_solver| |by rewrite app_nil_r].
    intros x. destruct mac; [|done]. rewrite decide_False by set_solver. done. }
  destruct Hc as (-> & Hc0 & Hc). rewrite (proj2 (Z.eqb_neq c NULL)) by done.
  apply NoDup_cons in Hnd as [Hcn Hnd]. cbn [nbqueue_enq].
  set (st1 := match mac with Some a => _ | None => st end).
  assert (E1 : st1 = st <| mac_cells := mac_cells st1 |>) by (unfold st1; destruct mac; [done|by destruct st]).
  set (st2 := st1 <| cp_status := <[c := status]> (cp_status st1) |>).
  set (st3 := st2 <| cp_next := _ |> <| nbq_head := _ |>).
  set (st4 := if negb (cp_fd st2 c =? -1) then _ else st3).
  assert (E4 : st4 = mk_arp (arp_table st) (ae_status st) (ae_ip st) (ae_mac st) (ae_compl st) (ae_timeout st)
      (ae_prev st) (ae_next st) (<[c := nbq_head st (cp_q st c)]> (cp_next st)) (cp_q st) (cp_fd st)
      (<[c := status]> (cp_status st)) (cp_ptr st) (<[cp_q st c := c]> (nbq_head st)) (mac_cells st1)
      (arp_sent st) (arp_notified st ++ (if decide (cp_fd st c <> -1) then [cp_fd st c] else []))).
  { unfold st4, st3, st2. rewrite E1. cbn. destruct (Z.eqb_spec (cp_fd st c) (-1)) as [->|]; cbn.
    - by rewrite app_nil_r.
    - by rewrite decide_True. }
  clearbody st4. clear st3 st2.
  set (Qs1 := <[cp_q st c := c :: Qs (cp_q st c)]> Qs).
  assert (Hc' : forall L, c ∉ L -> forall h, chain NULL (cp_next st) h L -> chain NULL (cp_next st4) h L).
  { intros L HL h. apply seg_ext. intros y Hy. rewrite E4. cbn. apply fn_lookup_insert_ne. set_solver. }
  destruct (IH fuel st4 (cp_next st c) Qs1) as (st' & E' & [Hs Hq Ho Hst Hce Hfd]).
  - by apply Hc'.
  - done.
  - intros q. unfold Qs1. destruct (decide (cp_q st c = q)) as [<-|Hne].
    + rewrite fn_lookup_insert, E4. cbn. rewrite fn_lookup_insert. split_and!; [done|done|].
      rewrite fn_lookup_insert. specialize (Hc' (Qs (cp_q st c)) (Hdis _ c ltac:(set_solver)) _ (HQ _)).
      by rewrite E4 in Hc'.
    + rewrite fn_lookup_insert_ne by done. rewrite E4 at 2. cbn. rewrite fn_lookup_insert_ne by done.
      apply Hc'; [apply Hdis; set_solver|done].
  - intros q y Hy. unfold Qs1. destruct (decide (cp_q st c = q)) as [<-|Hne].
    + rewrite fn_lookup_insert. pose proof (Hdis (cp_q st c) y). set_solver.
    + rewrite fn_lookup_insert_ne by done. apply Hdis. set_solver.
  - cbn in Hf. lia.
  - exists st'. split; [done|].
    assert (Ec : cp_q st4 = cp_q st /\ cp_ptr st4 = cp_ptr st /\ cp_fd st4 = cp_fd st) by by rewrite E4.
    destruct Ec as (Ecq & Ecp & Ecf). constructor.
    + rewrite Hs, E4. by destruct st, st'.
    + intros q. specialize (Hq q). unfold for_queue in *. rewrite Ecq in Hq. rewrite filter_cons. unfold Qs1 in Hq.
      destruct (decide (cp_q st c = q)) as [<-|Hne].
      * rewrite fn_lookup_insert in Hq. by rewrite reverse_cons, <-app_assoc.
      * by rewrite fn_lookup_insert_ne in Hq.
    + intros y Hy. destruct (Ho y ltac:(set_solver)) as [-> ->]. rewrite E4. cbn.
      rewrite !fn_lookup_insert_ne by set_solver. done.
    + intros y [->|Hy]%elem_of_cons; [|by apply Hst]. destruct (Ho c Hcn) as [_ ->]. rewrite E4. cbn.
      apply fn_lookup_insert.
    + intros x. rewrite (Hce x), Ecp. assert (E : mac_cells st4 = mac_cells st1) by by rewrite E4. rewrite E.
      unfold st1. destruct mac as [a|]; [|done]. cbn. unfold insert, fn_insert.
      destruct (decide (cp_ptr st c = x)) as [->|Hne].
      * rewrite (decide_True (P := x ∈ _ :: _)) by set_solver.
        destruct (decide (x ∈ _)); [|done]. apply memcpy6_idem. by apply Hmac.
      * destruct (decide (x ∈ cp_ptr st <$> Wl)); [rewrite decide_True by set_solver|rewrite decide_False by set_solver]; done.
    + rewrite Hfd, Ecf, E4. cbn -[filter fmap]. rewrite <-app_assoc. f_equal.
      change (cp_fd st <$> c :: Wl) with (cp_fd st c :: (cp_fd st <$> Wl)). rewrite filter_cons.
      destruct (decide (cp_fd st c <> -1)); done.
Qed.

(** ** What the requests and answers keep true *)

(** After the completions of the entry [e] have been put on their queues. *)
Definition answered_own (st : arp_state) (Wt : Z -> list Z) (own : Z -> option (Z + Z)) (e c : Z) : option (Z + Z) :=
  if decide (c ∈ Wt e) then Some (inr (cp_q st c)) else own c.
Definition answered_queue (st : arp_state) (Wt Qs : Z -> list Z) (e q : Z) : list Z :=
  reverse (for_queue st (Wt e) q) ++ Qs q.

Lemma for_queue_elem st Wl q c : c ∈ for_queue st Wl q <-> cp_q st c = q /\ c ∈ Wl.
Proof. unfold for_queue. by rewrite list_elem_of_filter. Qed.

Lemma wait_not_queued st L Wt Qs own A ty e q c : arp_inv st L Wt Qs own A ty -> e ∈ L -> c ∈ Wt e -> c ∉ Qs q.
Proof.
  intros Hi He Hc Hq. pose proof (ai_own_wait _ _ _ _ _ _ _ Hi e c He Hc).
  pose proof (ai_own_queue _ _ _ _ _ _ _ Hi q c Hq). congruence.
Qed.

Lemma answered_ok st L Wt Qs own A ty e st1 st' status mac : arp_inv st L Wt Qs own A ty -> e ∈ L ->
  cp_next st1 = cp_next st -> cp_q st1 = cp_q st -> notified st1 st' status mac (Wt e) Qs ->
  (forall q, (chain NULL (cp_next st') (nbq_head st' q) (answered_queue st Wt Qs e q) /\
     NoDup (answered_queue st Wt Qs e q)) /\
     forall c, c ∈ answered_queue st Wt Qs e q -> answered_own st Wt own e c = Some (inr q)) /\
  (forall e', e' ∈ L -> e' <> e -> (forall c, c ∈ Wt e' -> answered_own st Wt own e c = Some (inl e')) /\
     (forall h, chain NULL (cp_next st) h (Wt e') -> chain NULL (cp_next st') h (Wt e'))).
Proof.
  intros Hi He En Eq Hn. split.
  - intros q. assert (Ef : for_queue st1 (Wt e) q = for_queue st (Wt e) q) by (unfold for_queue; by rewrite Eq).
    assert (Hown : forall c, c ∈ answered_queue st Wt Qs e q -> answered_own st Wt own e c = Some (inr q)).
    { intros c. unfold answered_queue, answered_own. rewrite elem_of_app, elem_of_reverse, for_queue_elem.
      intros [[<- Hc]|Hc]; [by rewrite decide_True|].
      rewrite decide_False; [by apply (ai_own_queue _ _ _ _ _ _ _ Hi)|]. intros Hw.
      by apply (wait_not_queued _ _ _ _ _ _ _ e q c Hi). }
    split; [|done]. unfold answered_queue. split.
    + rewrite <-Ef. apply (no_queue _ _ _ _ _ _ Hn).
    + apply NoDup_app. split_and!.
      * rewrite reverse_Permutation. apply NoDup_filter. by apply (ai_wait _ _ _ _ _ _ _ Hi).
      * intros c. rewrite elem_of_reverse, for_queue_elem. intros [_ Hw]. by apply (wait_not_queued _ _ _ _ _ _ _ e q c Hi).
      * apply (ai_queue _ _ _ _ _ _ _ Hi).
  - intros e' He' Hne. assert (Hc : forall c, c ∈ Wt e' -> c ∉ Wt e).
    { intros c Hc Hw. pose proof (ai_own_wait _ _ _ _ _ _ _ Hi e c He Hw).
      pose proof (ai_own_wait _ _ _ _ _ _ _ Hi e' c He' Hc). congruence. }
    split.
    + intros c Hw. unfold answered_own. rewrite decide_False by by apply Hc. by apply (ai_own_wait _ _ _ _ _ _ _ Hi).
    + intros h. apply seg_ext. intros c Hw. destruct (no_other _ _ _ _ _ _ Hn c (Hc c Hw)) as [-> _]. by rewrite En.
Qed.

(** The broadcast asking for [ip]. *)
Definition request_pkt (ip : Z) : pkt_arp :=
  mk_pkt_arp ETH_BROADCAST eth_addr Packet.Packet.ETH_TYPE_ARP ARP_HTYPE_ETHERNET ARP_PTYPE_IPV4 6 4
    ARP_OPER_REQUEST eth_addr cfg_ip ETH_BROADCAST ip.
Definition sent_if (b : bool) (l : list pkt_arp) (p : pkt_arp) : list pkt_arp := if b then l ++ [p] else l.

Lemma request_tx_ok ts st ip :
  request_tx cfg_ip eth_addr nicif_tx_alloc ts st ip = (nicif_tx_alloc ts (arp_sent st),
    st <| arp_sent := sent_if (nicif_tx_alloc ts (arp_sent st)) (arp_sent st) (request_pkt ip) |>).
Proof.
  unfold request_tx, arp_tx, sent_if. destruct (nicif_tx_alloc ts (arp_sent st)); cbn; [done|].
  f_equal. by destruct st.
Qed.

Lemma memcpy6_range v a : in48 v -> in48 a -> in48 (memcpy6 v a).
Proof. intros. by rewrite memcpy6_small. Qed.

(** Setting the result cell of a request to a value of 48 bits. *)
Lemma arp_inv_cell st L Wt Qs own A ty x v : arp_inv st L Wt Qs own A ty -> in48 v ->
  arp_inv (st <| mac_cells := <[x := v]> (mac_cells st) |>) L Wt Qs own A ty.
Proof.
  intros [] Hv. constructor; try done. intros e c He Hc. cbn. unfold insert, fn_insert.
  destruct (decide (x = cp_ptr st c)); [done|by eapply ai_cell0].
Qed.

(** ** Requests *)

Lemma arp_inv_wait st L Wt Qs own A ty e comp mac : arp_inv st L Wt Qs own A ty -> e ∈ L ->
  ae_status st e <> 0 -> own comp = None -> comp <> NULL -> in48 (mac_cells st mac) ->
  arp_inv (st <| cp_ptr := <[comp := mac]> (cp_ptr st) |> <| cp_next := <[comp := ae_compl st e]> (cp_next st) |>
              <| ae_compl := <[e := comp]> (ae_compl st) |>)
    L (<[e := comp :: Wt e]> Wt) Qs (<[comp := Some (inl e)]> own) A ty.
Proof.
  intros Hi He Hst Hown Hc0 Hcell.
  assert (Hfree : forall e' c, e' ∈ L -> c ∈ Wt e' -> comp <> c).
  { intros e' c He' Hc ->. pose proof (ai_own_wait _ _ _ _ _ _ _ Hi e' c He' Hc). congruence. }
  assert (Hfree' : forall q c, c ∈ Qs q -> comp <> c).
  { intros q c Hc ->. pose proof (ai_own_queue _ _ _ _ _ _ _ Hi q c Hc). congruence. }
  destruct Hi. constructor; cbn; try done.
  - intros e' He'. destruct (ai_wait0 e' He') as [Hch Hnd]. unfold insert, fn_insert.
    destruct (decide (e = e')) as [<-|Hne].
    + split; [|apply NoDup_cons; split; [|done]; intros Hc; by eapply Hfree].
      eapply chain_push; [exact Hch|done| |by rewrite decide_True|].
      * intros Hc. by eapply Hfree.
      * intros y Hy. rewrite decide_False; [done|]. by eapply Hfree.
    + split; [|done]. eapply seg_ext; [|exact Hch]. intros y Hy. rewrite decide_False; [done|]. by eapply Hfree.
  - intros e' He' Hs'. rewrite fn_lookup_insert_ne by congruence. by apply ai_ready0.
  - intros e' c He' Hc. unfold insert, fn_insert in *. destruct (decide (e = e')) as [<-|Hne].
    + apply elem_of_cons in Hc as [->|Hc]; [by rewrite decide_True|]. rewrite decide_False; [by apply ai_own_wait0|].
      by eapply Hfree.
    + rewrite decide_False; [by apply ai_own_wait0|]. by eapply Hfree.
  - intros e' c He' Hc. unfold insert, fn_insert in *. destruct (decide (comp = c)) as [|Hne]; [done|].
    destruct (decide (e = e')) as [<-|]; [|by eapply ai_cell0]. apply (ai_cell0 e); [done|set_solver].
  - intros q. destruct (ai_queue0 q) as [Hch Hnd]. split; [|done]. eapply seg_ext; [|exact Hch].
    intros y Hy. rewrite fn_lookup_insert_ne; [done|]. by eapply Hfree'.
  - intros q c Hc. rewrite fn_lookup_insert_ne; [by apply ai_own_queue0|]. by eapply Hfree'.
Qed.

Lemma ae_link_ok st L ae : dlist NULL (ae_next st) (ae_prev st) (arp_table st) (lastd NULL L) L -> NoDup L ->
  ae ∉ L -> ae <> NULL ->
  ae_link st ae = st <| ae_prev := ae_prev (ae_link st ae) |> <| ae_next := ae_next (ae_link st ae) |> <| arp_table := ae |> /\
  dlist NULL (ae_next (ae_link st ae)) (ae_prev (ae_link st ae)) ae (lastd NULL (ae :: L)) (ae :: L).
Proof.
  intros Hd Hnd Hn H0. pose proof (dlist_first _ _ _ _ _ _ Hd) as [Ef _].
  assert (El : lastd NULL (ae :: L) = if decide (L = []) then ae else lastd NULL L).
  { rewrite lastd_cons. destruct (lastd_cases NULL L) as [[-> _]|(B & p & -> & ->)]; [done|].
    rewrite decide_False by by destruct B. unfold lastd. by rewrite last_snoc. }
  unfold ae_link. cbn -[lastd]. split; [destruct st as [tb]; cbn; by destruct (tb =? NULL)|].
  eapply (dlist_insert NULL _ _ _ _ _ _ _ _ [] ae L Hd); try done.
  - rewrite <-Ef. destruct (Z.eqb_spec (arp_table st) NULL); cbn; by rewrite fn_lookup_insert.
  - destruct (Z.eqb_spec (arp_table st) NULL) as [|E]; cbn; [apply fn_lookup_insert|].
    rewrite fn_lookup_insert_ne; [apply fn_lookup_insert|]. rewrite Ef in *. destruct L; [done|set_solver].
  - intros y Hy. destruct (Z.eqb_spec (arp_table st) NULL); cbn; (rewrite fn_lookup_insert_ne; [done|set_solver]).
  - intros y Hy. cbn in Hy. rewrite Ef. destruct L as [|x L]; [set_solver|]. cbn [hd head].
    assert (x <> NULL). { intros ->. by apply (seg_notin_null _ _ _ _ _ (proj1 Hd)); set_solver. }
    rewrite (proj2 (Z.eqb_neq x NULL)) by done. cbn. unfold insert, fn_insert.
    destruct (decide (x = y)) as [->|]; [by rewrite decide_True|]. rewrite (decide_False (P := Some x = Some y)) by congruence.
    rewrite decide_False; [done|set_solver].
Qed.

(** The new entry and its completion before they are linked. *)
Definition pending_entry (st : arp_state) (ae comp mac ip : Z) (l : list pkt_arp) : arp_state :=
  st <| ae_status := <[ae := 1]> (ae_status st) |> <| ae_ip := <[ae := ip]> (ae_ip st) |>
    <| ae_compl := <[ae := comp]> (ae_compl st) |> <| cp_next := <[comp := NULL]> (cp_next st) |>
    <| cp_ptr := <[comp := mac]> (cp_ptr st) |> <| arp_sent := l |> <| ae_timeout := <[ae := arp_to]> (ae_timeout st) |>.

Lemma arp_inv_new st L Wt Qs own A ty ae comp mac ip : arp_inv st L Wt Qs own A ty ->
  (forall e, e ∈ L -> ae_ip st e <> ip) -> 0 < arp_to < MIDDLE ->
  own comp = None -> comp <> NULL -> ae ∉ L -> ae <> NULL -> ae_to ae ∉ A -> in48 (mac_cells st mac) ->
  forall l, arp_inv (ae_link (pending_entry st ae comp mac ip l) ae) (ae :: L) (<[ae := [comp]]> Wt) Qs (<[comp := Some (inl ae)]> own)
    ({[ae_to ae]} ∪ A) (<[ae_to ae := TO_ARP_REQ]> ty).
Proof.
  intros Hi Hip Hto Hown Hc0 Hae Hae0 Hfresh Hcell l. set (st1 := pending_entry st ae comp mac ip l).
  assert (Hfree : forall e' c, e' ∈ L -> c ∈ Wt e' -> comp <> c).
  { intros e' c He' Hc ->. pose proof (ai_own_wait _ _ _ _ _ _ _ Hi e' c He' Hc). congruence. }
  assert (Hfree' : forall q c, c ∈ Qs q -> comp <> c).
  { intros q c Hc ->. pose proof (ai_own_queue _ _ _ _ _ _ _ Hi q c Hc). congruence. }
  destruct (ae_link_ok st1 L ae) as [El Hd]; [by apply Hi|apply Hi|done|done|].
  assert (Hne : forall e, e ∈ L -> ae <> e) by set_solver.
  assert (Hto' : forall e, e ∈ L -> ae_to e <> ae_to ae) by (intros e He; unfold ae_to; specialize (Hne e He); lia).
  assert (Hins : forall (f : Z -> Z) v e, e ∈ L -> (<[ae := v]> f) e = f e) by (intros; apply fn_lookup_insert_ne; by apply Hne).
  destruct Hi. rewrite El. constructor; try exact Hd; unfold st1, pending_entry; cbn -[ae_link] in *.
  - by apply NoDup_cons.
  - intros e e' [->|He]%elem_of_cons [->|He']%elem_of_cons; rewrite ?fn_lookup_insert, ?Hins by done; auto.
    + intros E. by destruct (Hip e' He').
    + intros E. by destruct (Hip e He).
  - intros e [->|He]%elem_of_cons; rewrite ?fn_lookup_insert, ?Hins by done; [set_solver|].
    rewrite <-ai_armed0 by done. specialize (Hto' e He). set_solver.
  - intros e [->|He]%elem_of_cons; rewrite ?fn_lookup_insert, ?Hins by done; auto.
  - intros e [->|He]%elem_of_cons Hin; [apply fn_lookup_insert|]. specialize (Hto' e He).
    rewrite fn_lookup_insert_ne by done. apply ai_type0; [done|set_solver].
  - intros x Hx. destruct (decide (x = ae_to ae)) as [->|Hxe]; [exists ae; set_solver|].
    rewrite fn_lookup_insert_ne by done. intros Hty. destruct (ai_only0 x) as (e & He & ->); [set_solver|done|].
    exists e. set_solver.
  - intros e [->|He]%elem_of_cons; rewrite ?fn_lookup_insert, ?Hins by done; auto. done.
  - intros e [->|He]%elem_of_cons; rewrite ?fn_lookup_insert, ?Hins by done; auto.
    intros _. exists 0%nat. cbn. lia.
  - intros e [->|He]%elem_of_cons; rewrite ?fn_lookup_insert, ?Hins by done.
    + split; [|by apply NoDup_singleton]. split_and!; [done|done|apply fn_lookup_insert].
    + rewrite fn_lookup_insert_ne by by apply Hne. destruct (ai_wait0 e He) as [Hch Hnd]. split; [|done].
      eapply seg_ext; [|exact Hch]. intros y Hy. apply fn_lookup_insert_ne. by eapply Hfree.
  - intros e [->|He]%elem_of_cons; rewrite ?fn_lookup_insert, ?Hins by done; [done|].
    intros Hs. rewrite fn_lookup_insert_ne by by apply Hne. auto.
  - intros e c [->|He]%elem_of_cons.
    + rewrite fn_lookup_insert. intros ->%list_elem_of_singleton. apply fn_lookup_insert.
    + rewrite fn_lookup_insert_ne by by apply Hne. intros Hc. rewrite fn_lookup_insert_ne by by eapply Hfree. auto.
  - intros e c [->|He]%elem_of_cons.
    + rewrite fn_lookup_insert. intros ->%list_elem_of_singleton. by rewrite fn_lookup_insert.
    + rewrite fn_lookup_insert_ne by by apply Hne. intros Hc. rewrite fn_lookup_insert_ne by by eapply Hfree. eauto.
  - intros q. destruct (ai_queue0 q) as [Hch Hnd]. split; [|done]. eapply seg_ext; [|exact Hch].
    intros y Hy. apply fn_lookup_insert_ne. by eapply Hfree'.
  - intros q c Hc. rewrite fn_lookup_insert_ne by by eapply Hfree'. auto.
Qed.

(** What a request for [ip] does, by the state of its entry: an address that is known is
    returned at once; a request for an address that is being resolved only adds the
    completion to the ones that wait for it; otherwise, if memory can be allocated, an
    entry for it is made, the request is broadcast (if a buffer is free), the completion
    waits for it and its timeout is armed. *)
Definition requested (ts now : Z) (st : arp_state) L Wt (own : Z -> option (Z + Z)) (A : gset Z) (ty : Z -> Z)
    (comp ip mac : Z) (new : option Z) (ret : Z) (st' : arp_state) (L' : list Z) (Wt' : Z -> list Z)
    (own' : Z -> option (Z + Z)) (A' : gset Z) (dl' ty' : Z -> Z) : Prop :=
  (exists e, e ∈ L /\ ae_ip st e = ip /\ ae_status st e = 0 /\
      ret = 0 /\ mac_cells st' mac = ae_mac st e /\ arp_sent st' = arp_sent st /\
      (L', Wt', own', A', ty') = (L, Wt, own, A, ty)) \/
  (exists e, e ∈ L /\ ae_ip st e = ip /\ ae_status st e = 1 /\
      ret = 1 /\ cp_ptr st' comp = mac /\ arp_sent st' = arp_sent st /\
      (L', A', ty') = (L, A, ty) /\ Wt' = <[e := comp :: Wt e]> Wt /\ own' = <[comp := Some (inl e)]> own) \/
  ((forall e, e ∈ L -> ae_ip st e <> ip) /\ new = None /\
      ret = -1 /\ arp_sent st' = arp_sent st /\ (L', Wt', own', A', ty') = (L, Wt, own, A, ty)) \/
  (exists ae, (forall e, e ∈ L -> ae_ip st e <> ip) /\ new = Some ae /\
      ret = 1 /\ ae_ip st' ae = ip /\ cp_ptr st' comp = mac /\
      arp_sent st' = sent_if (nicif_tx_alloc ts (arp_sent st)) (arp_sent st) (request_pkt ip) /\
      L' = ae :: L /\ Wt' = <[ae := [comp]]> Wt /\ own' = <[comp := Some (inl ae)]> own /\
      A' = {[ae_to ae]} ∪ A /\ dl' (ae_to ae) = now + arp_to).

Definition fresh_entry (L : list Z) (A : gset Z) (new : option Z) : Prop :=
  forall ae, new = Some ae -> (ae ∉ L) /\ ae <> NULL /\ (ae_to ae ∉ A) /\ ae_to ae <> 0.

(** [arp_request] keeps the table well formed and changes no other result. *)
Lemma arp_request_ok fuel ts now m st L Wt Qs own A dl ty comp ip mac new :
  arp_inv st L Wt Qs own A ty -> tm_rep m now A dl ty -> own comp = None -> comp <> NULL ->
  0 < arp_to < MIDDLE -> ts mod RANGE = now mod RANGE -> (length L < fuel)%nat -> (size A < fuel)%nat ->
  fresh_entry L A new ->
  exists ret m' st' L' Wt' own' A' dl' ty',
    arp_request cfg_ip eth_addr arp_to nicif_tx_alloc fuel ts m st comp ip mac new = Done (ret, m', st') /\
    arp_inv st' L' Wt' Qs own' A' ty' /\ tm_rep m' now A' dl' ty' /\
    (forall x, x <> mac -> mac_cells st' x = mac_cells st x) /\
    requested ts now st L Wt own A ty comp ip mac new ret st' L' Wt' own' A' dl' ty'.
Proof.
  intros Hi Hm Hown Hc0 Hto Hts HfL HfA Hnew. unfold arp_request.
  set (st0 := st <| mac_cells := <[mac := 0]> (mac_cells st) |>).
  assert (Hi0 : arp_inv st0 L Wt Qs own A ty) by (by apply arp_inv_cell).
  assert (Hcell : mac_cells st0 mac = 0) by apply fn_lookup_insert.
  assert (Hcells : forall x, x <> mac -> mac_cells st0 x = mac_cells st x) by (intros; by apply fn_lookup_insert_ne).
  destruct (ae_lookup_ok st0 ip L fuel _ (proj1 (ai_list _ _ _ _ _ _ _ Hi0)) HfL) as (r & -> & Hr).
  cbn [mbind outcome_bind]. destruct r as [e|].
  - destruct Hr as [He Hip]. destruct (Z.eqb_spec (ae_status st0 e) 0) as [E|E].
    + pose proof (ai_mac _ _ _ _ _ _ _ Hi0 e He E) as Hmac.
      eexists 0, m, _, L, Wt, own, A, dl, ty. split; [reflexivity|]. rewrite Hcell, memcpy6_small by lia.
      split; [by apply arp_inv_cell|]. split; [done|].
      split; [intros x Hx; cbn; rewrite fn_lookup_insert_ne by done; by apply Hcells|].
      left. exists e. split_and!; try done. apply fn_lookup_insert.
    + destruct (ai_status _ _ _ _ _ _ _ Hi0 e He) as [?|E1]; [done|].
      eexists 1, m, _, L, _, _, A, dl, ty. split; [reflexivity|].
      split; [apply arp_inv_wait; try done; rewrite Hcell; lia|]. split; [done|].
      split; [exact Hcells|]. right; left. exists e. split_and!; try done. apply fn_lookup_insert.
  - destruct new as [ae|].
    2:{ eexists (-1), m, st0, L, Wt, own, A, dl, ty. split_and!; try done. right; right; left. by split_and!. }
    destruct (Hnew ae eq_refl) as (Hn1 & Hn2 & Hn3 & Hn4). rewrite request_tx_ok.
    set (st1 := pending_entry st0 ae comp mac ip (sent_if (nicif_tx_alloc ts (arp_sent st)) (arp_sent st) (request_pkt ip))).
    match goal with |- context [ae_link ?s ae] => change s with st1 end.
    destruct (tm_arm_law fuel m now A dl ty (ae_to ae) (ae_timeout st1 ae) TO_ARP_REQ ts) as (m' & Ea & Hm'); try done.
    { unfold st1, pending_entry. cbn. rewrite fn_lookup_insert. lia. }
    rewrite Ea. cbn [mbind outcome_bind]. eexists 1, m', (ae_link st1 ae), _, _, _, _, _, _. split; [reflexivity|].
    split; [eapply (arp_inv_new st0 L Wt Qs own A ty ae comp mac ip); try done; rewrite Hcell; lia|].
    split; [exact Hm'|]. destruct (ae_link_ok st1 L ae) as [El _]; [by apply Hi|apply Hi|done|done|]. rewrite El.
    split; [exact Hcells|]. right; right; right. exists ae. split_and!; try done.
    + apply fn_lookup_insert.
    + apply fn_lookup_insert.
    + rewrite fn_lookup_insert. unfold st1, pending_entry. cbn. by rewrite fn_lookup_insert.
Qed.

(** ** Replies and timeouts *)

Lemma ae_unlink_ok st B e C : dlist NULL (ae_next st) (ae_prev st) (arp_table st) (lastd NULL (B ++ e :: C)) (B ++ e :: C) ->
  NoDup (B ++ e :: C) ->
  ae_unlink st e = st <| ae_next := ae_next (ae_unlink st e) |> <| ae_prev := ae_prev (ae_unlink st e) |>
    <| arp_table := arp_table (ae_unlink st e) |> /\
  dlist NULL (ae_next (ae_unlink st e)) (ae_prev (ae_unlink st e)) (arp_table (ae_unlink st e)) (lastd NULL (B ++ C)) (B ++ C).
Proof.
  intros Hd Hnd. destruct (dlist_next _ _ _ _ _ _ _ _ Hd) as [En Ep].
  assert (Hp : B ++ e :: C ≡ₚ e :: B ++ C) by solve_Permutation. rewrite Hp in Hnd.
  apply NoDup_cons in Hnd as [Hn Hnd]. pose proof (seg_notin_null _ _ _ _ _ (proj1 Hd)) as Hnn.
  assert (HeB : lastd NULL B <> e).
  { intros E. destruct (lastd_cases NULL B) as [[-> E']|(B' & p & -> & E')]; [|set_solver]. set_solver. }
  assert (HB : lastd NULL B = NULL <-> B = []).
  { destruct (lastd_cases NULL B) as [[-> ->]|(B' & p & -> & ->)]; [done|]. split; [intros ->; set_solver|].
    intros E. by destruct B'. }
  assert (HC : hd NULL C = NULL <-> C = []). { destruct C; [done|]. cbn. split; [intros ->; set_solver|done]. }
  set (nx := if decide (B = []) then ae_next st else <[lastd NULL B := hd NULL C]> (ae_next st)).
  set (pv := if decide (C = []) then ae_prev st else <[hd NULL C := lastd NULL B]> (ae_prev st)).
  assert (E : ae_unlink st e = st <| ae_next := nx |> <| ae_prev := pv |>
      <| arp_table := if decide (B = []) then hd NULL C else arp_table st |>).
  { unfold ae_unlink. rewrite Ep, En. unfold nx, pv.
    destruct (Z.eqb_spec (lastd NULL B) NULL) as [E|E], (decide (B = [])) as [EB|EB]; try tauto; cbn [negb];
      destruct st; cbn in *; rewrite ?fn_lookup_insert_ne, ?Ep, ?En by done;
      destruct (Z.eqb_spec (hd NULL C) NULL), (decide (C = [])); try tauto; done. }
  rewrite E. cbn -[lastd]. split; [by destruct st|]. clear E.
  assert (El : lastd NULL (B ++ C) = if decide (C = []) then lastd NULL B else lastd NULL (B ++ e :: C)).
  { rewrite lastd_app. destruct (decide (C = [])) as [->|HCne]; [by rewrite app_nil_r|].
    destruct C as [|c C]; [done|]. by rewrite lastd_app, lastd_cons. }
  eapply (dlist_remove NULL (ae_next st) (ae_prev st)); [exact Hd|done| | |done|exact El].
  - intros y Hy. unfold nx. destruct (lastd_cases NULL B) as [[-> _]|(B' & p & -> & Eb)]; [done|]. rewrite Eb, last_snoc.
    rewrite decide_False by by destruct B'. unfold insert, fn_insert. destruct (decide (p = y)) as [->|]; [by rewrite decide_True|].
    by rewrite decide_False by congruence.
  - intros y Hy. unfold pv. destruct C as [|c C]; [done|]. cbn [hd head]. rewrite decide_False by done.
    unfold insert, fn_insert. destruct (decide (c = y)) as [->|]; [by rewrite decide_True|]. by rewrite decide_False by congruence.
Qed.

(** A state that differs from [st] only where notifying may change it. *)
Lemma notified_fields st st' status mac Wl Qs : notified st st' status mac Wl Qs ->
  arp_table st' = arp_table st /\ ae_status st' = ae_status st /\ ae_ip st' = ae_ip st /\ ae_mac st' = ae_mac st /\
  ae_compl st' = ae_compl st /\ ae_timeout st' = ae_timeout st /\ ae_prev st' = ae_prev st /\ ae_next st' = ae_next st /\
  cp_q st' = cp_q st /\ cp_fd st' = cp_fd st /\ cp_ptr st' = cp_ptr st /\ arp_sent st' = arp_sent st.
Proof. intros Hn. rewrite (no_same _ _ _ _ _ _ Hn). done. Qed.

(** The reply for the entry [e] has been handled. *)
Lemma arp_inv_answered st L Wt Qs own A ty e a st' : arp_inv st L Wt Qs own A ty -> e ∈ L -> in48 a ->
  let st1 := st <| ae_mac := <[e := a]> (ae_mac st) |> <| ae_status := <[e := 0]> (ae_status st) |> in
  notified st1 st' 0 (Some a) (Wt e) Qs ->
  arp_inv (st' <| ae_compl := <[e := NULL]> (ae_compl st') |>) L (<[e := []]> Wt)
    (answered_queue st Wt Qs e) (answered_own st Wt own e) (A ∖ {[ae_to e]}) ty.
Proof.
  intros Hi He Ha st1 Hn. destruct (notified_fields _ _ _ _ _ _ Hn) as (F1 & F2 & F3 & F4 & F5 & F6 & F7 & F8 & F9 & F10 & F11 & F12).
  destruct (answered_ok st L Wt Qs own A ty e st1 st' 0 (Some a) Hi He eq_refl eq_refl Hn) as [HQ HW].
  assert (Hto : forall e', e' ∈ L -> e' <> e -> ae_to e' <> ae_to e) by (intros; unfold ae_to; lia).
  pose proof (no_cells _ _ _ _ _ _ Hn) as Hcells.
  destruct Hi. constructor; cbn -[lastd] in *; rewrite ?F1, ?F2, ?F3, ?F4, ?F5, ?F6, ?F7, ?F8; try done.
  - intros e' He'. unfold insert, fn_insert. destruct (decide (e = e')) as [<-|Hne]; [set_solver|].
    rewrite <-ai_armed0 by done. specialize (Hto e' He' ltac:(done)). set_solver.
  - intros e' He'. unfold insert, fn_insert. destruct (decide (e = e')) as [<-|Hne]; [by left|]. auto.
  - intros e' He' Hin. apply ai_type0; [done|set_solver].
  - intros x Hx Hty. apply ai_only0; [set_solver|done].
  - intros e' He'. unfold insert, fn_insert. destruct (decide (e = e')) as [<-|Hne]; [done|]. auto.
  - intros e' He'. unfold insert, fn_insert. destruct (decide (e = e')) as [<-|Hne]; [done|]. auto.
  - intros e' He'. destruct (decide (e = e')) as [<-|Hne].
    + rewrite !fn_lookup_insert. split; [done|constructor].
    + rewrite !fn_lookup_insert_ne by done. destruct (ai_wait0 e' He') as [Hch Hnd]. split; [|done].
      apply (HW e' He' ltac:(congruence)). done.
  - intros e' He'. unfold insert, fn_insert. destruct (decide (e = e')) as [<-|Hne]; [done|]. auto.
  - intros e' c He'. destruct (decide (e = e')) as [<-|Hne]; [rewrite fn_lookup_insert; set_solver|].
    rewrite fn_lookup_insert_ne by done. by apply HW.
  - intros e' c He'. destruct (decide (e = e')) as [<-|Hne]; [rewrite fn_lookup_insert; set_solver|].
    rewrite fn_lookup_insert_ne, F11 by done. intros Hc. rewrite Hcells. pose proof (ai_cell0 e' c He' Hc).
    case_decide; [by apply memcpy6_range|done].
  - intros q. apply HQ.
  - intros q. apply HQ.
Qed.

(** The entry [e] has been given up. *)
Lemma arp_inv_removed st B e C Wt Qs own A ty st' : arp_inv st (B ++ e :: C) Wt Qs own A ty ->
  notified st st' (-1) None (Wt e) Qs ->
  arp_inv (ae_unlink st' e) (B ++ C) Wt (answered_queue st Wt Qs e) (answered_own st Wt own e) (A ∖ {[ae_to e]}) ty.
Proof.
  intros Hi Hn. destruct (notified_fields _ _ _ _ _ _ Hn) as (F1 & F2 & F3 & F4 & F5 & F6 & F7 & F8 & F9 & F10 & F11 & F12).
  assert (He : e ∈ B ++ e :: C) by set_solver.
  destruct (answered_ok st _ Wt Qs own A ty e st st' _ None Hi He eq_refl eq_refl Hn) as [HQ HW].
  assert (Hp : B ++ e :: C ≡ₚ e :: B ++ C) by solve_Permutation. pose proof (ai_nodup _ _ _ _ _ _ _ Hi) as Hnd.
  destruct (ae_unlink_ok st' B e C) as [El Hd]; [rewrite F1, F7, F8; apply Hi|done|].
  rewrite Hp in Hnd. apply NoDup_cons in Hnd as [Hne Hnd].
  assert (Hin : forall e', e' ∈ B ++ C -> e' ∈ B ++ e :: C /\ e' <> e).
  { intros e' He'. split; [set_solver|]. intros ->. done. }
  assert (Hto : forall e', e' ∈ B ++ C -> ae_to e' <> ae_to e).
  { intros e' [_ Hx]%Hin. unfold ae_to. lia. }
  pose proof (no_cells _ _ _ _ _ _ Hn) as Hcells. destruct Hi.
  rewrite El. constructor; try exact Hd; cbn -[lastd ae_unlink] in *; rewrite ?F2, ?F3, ?F4, ?F5, ?F6; try done.
  - intros e1 e2 [H1 _]%Hin [H2 _]%Hin. by apply ai_ips0.
  - intros e' He'. rewrite <-ai_armed0 by by apply Hin. specialize (Hto e' He'). set_solver.
  - intros e' [H1 _]%Hin. auto.
  - intros e' [H1 _]%Hin Hx. apply ai_type0; [done|set_solver].
  - intros x Hx Hty. destruct (ai_only0 x) as (e' & He' & ->); [set_solver|done|]. exists e'. split; [|done].
    apply elem_of_app in He' as [?|[->|?]%elem_of_cons]; [set_solver| |set_solver]. set_solver.
  - intros e' [H1 _]%Hin. auto.
  - intros e' [H1 _]%Hin. auto.
  - intros e' [H1 H2]%Hin. destruct (ai_wait0 e' H1). split; [|done]. by apply (HW e' H1 H2).
  - intros e' [H1 _]%Hin. auto.
  - intros e' c [H1 H2]%Hin. by apply HW.
  - intros e' c [H1 H2]%Hin Hc. rewrite F11, Hcells. eauto.
  - intros q. apply HQ.
  - intros q. apply HQ.
Qed.

Lemma arp_inv_rearm st L Wt Qs own A ty e l t : arp_inv st L Wt Qs own A ty -> e ∈ L ->
  t = ae_timeout st e * 2 -> t < MIDDLE -> ty (ae_to e) = TO_ARP_REQ -> ae_to e ∈ A -> ae_status st e = 1 ->
  arp_inv (st <| arp_sent := l |> <| ae_timeout := <[e := t]> (ae_timeout st) |>) L Wt Qs own
    ({[ae_to e]} ∪ A ∖ {[ae_to e]}) (<[ae_to e := TO_ARP_REQ]> ty).
Proof.
  intros Hi He -> Ht Hty Hin Hst.
  assert (EA : {[ae_to e]} ∪ A ∖ {[ae_to e]} = A).
  { apply set_eq. intros x. destruct (decide (x = ae_to e)) as [->|]; set_solver. }
  assert (Ety : forall x, (<[ae_to e := TO_ARP_REQ]> ty) x = ty x).
  { intros x. unfold insert, fn_insert. destruct (decide (ae_to e = x)) as [<-|]; done. }
  rewrite EA. destruct Hi. constructor; cbn -[lastd]; try done.
  - intros e' He'. rewrite Ety. auto.
  - intros x Hx. rewrite Ety. auto.
  - intros e' He' Hs. destruct (decide (e = e')) as [<-|Hne].
    + rewrite fn_lookup_insert. destruct (ai_backoff0 e He Hst) as (k & E & _). exists (S k). split; [|done].
      rewrite E, Nat2Z.inj_succ, Z.pow_succ_r by lia. lia.
    + rewrite fn_lookup_insert_ne by done. auto.
Qed.

(** [arp_timeout], when the timeout of a pending entry has fired: it never finds the entry
    ready.  Either the waiting time would reach the maximum, then every completion that
    waits for the entry is put on its queue with the status -1 and its descriptor is
    written to, and the entry is removed; or the request is broadcast again and the
    timeout armed for twice the time. *)
Theorem arp_timeout_correct fuel ts now m st L Wt Qs own A dl ty to :
  arp_inv st L Wt Qs own A ty -> to ∈ A -> ty to = TO_ARP_REQ -> tm_rep m now (A ∖ {[to]}) dl ty ->
  0 < arp_to < MIDDLE -> arp_to_max <= MIDDLE -> ts mod RANGE = now mod RANGE ->
  (forall e, e ∈ L -> (length (Wt e) < fuel)%nat) -> (size A < fuel)%nat -> to <> 0 ->
  exists e m' st', arp_timeout cfg_ip eth_addr arp_to_max nicif_tx_alloc fuel ts to m st = Done (m', st') /\
    e ∈ L /\ to = ae_to e /\
    ((arp_to_max <= ae_timeout st e * 2 /\ m' = m /\ exists B C, L = B ++ e :: C /\
       arp_inv st' (B ++ C) Wt (answered_queue st Wt Qs e) (answered_own st Wt own e) (A ∖ {[to]}) ty /\
       (forall c, c ∈ Wt e -> cp_status st' c = -1) /\ (forall c, c ∉ Wt e -> cp_status st' c = cp_status st c) /\
       (forall x, mac_cells st' x = mac_cells st x) /\
       arp_notified st' = arp_notified st ++ filter (fun fd => fd <> -1) (cp_fd st <$> Wt e)) \/
     (ae_timeout st e * 2 < arp_to_max /\ ae_timeout st' e = ae_timeout st e * 2 /\
       arp_sent st' = sent_if (nicif_tx_alloc ts (arp_sent st)) (arp_sent st) (request_pkt (ae_ip st e)) /\
       exists ty', arp_inv st' L Wt Qs own ({[to]} ∪ A ∖ {[to]}) ty' /\
         tm_rep m' now ({[to]} ∪ A ∖ {[to]}) (<[to := now + ae_timeout st e * 2]> dl) ty')).
Proof.
  intros Hi Hin Hty Hm Hto Hmax Hts HfW HfA Hto0. destruct (ai_only _ _ _ _ _ _ _ Hi to Hin Hty) as (e & He & ->).
  exists e. assert (Hst : ae_status st e = 1) by by apply (ai_armed _ _ _ _ _ _ _ Hi).
  unfold arp_timeout. replace (ae_to e - TO_OFFSET) with e by (unfold ae_to; lia). rewrite Hst. cbn [Z.eqb].
  destruct (ai_backoff _ _ _ _ _ _ _ Hi e He Hst) as (k & Ek & Ht).
  assert (Hpos : 0 < ae_timeout st e) by (rewrite Ek; pose proof (Z.pow_pos_nonneg 2 (Z.of_nat k)); nia).
  rewrite u32_small by (rewrite MIDDLE_val in *; lia). destruct (Z.leb_spec arp_to_max (ae_timeout st e * 2)) as [Hge|Hlt].
  - destruct (ai_wait _ _ _ _ _ _ _ Hi e He) as [Hch Hnd].
    destruct (notify_ok (-1) None ltac:(done) (Wt e) fuel st (ae_compl st e) Qs Hch Hnd) as (st' & -> & Hn).
    { intros q. apply (ai_queue _ _ _ _ _ _ _ Hi). }
    { intros q c. by apply (wait_not_queued _ _ _ _ _ _ _ e q c Hi). }
    { by apply HfW. }
    cbn [mbind outcome_bind]. eexists m, _. split; [reflexivity|]. split; [done|]. split; [done|]. left.
    split; [done|]. split; [done|]. pose proof He as (B & C & ->)%list_elem_of_split. exists B, C. split; [done|].
    split; [by apply arp_inv_removed|]. destruct (notified_fields _ _ _ _ _ _ Hn) as (F1 & _ & _ & _ & _ & _ & F7 & F8 & _).
    destruct (ae_unlink_ok st' B e C) as [El _]; [rewrite F1, F7, F8; apply Hi|apply Hi|]. rewrite El.
    cbn -[ae_unlink]. split_and!; [apply Hn| | |apply Hn].
    + intros c Hc. by apply (no_other _ _ _ _ _ _ Hn).
    + intros x. apply (no_cells _ _ _ _ _ _ Hn).
  - rewrite request_tx_ok. cbn -[sent_if Z.mul].
    destruct (tm_arm_law fuel m now _ dl ty (ae_to e) (ae_timeout st e * 2) TO_ARP_REQ ts Hm) as (m' & Ea & Hm'); try done.
    { set_solver. } { lia. }
    { assert (size (A ∖ {[ae_to e]}) <= size A)%nat by (apply subseteq_size; set_solver). lia. }
    rewrite u32_small by (rewrite MIDDLE_val in *; lia). rewrite fn_lookup_insert, Ea. cbn [mbind outcome_bind].
    eexists m', _. split; [reflexivity|]. split; [done|]. split; [done|]. right. split; [done|].
    cbn -[sent_if Z.mul]. rewrite fn_lookup_insert. split; [done|]. split; [done|].
    eexists. split; [|exact Hm']. eapply arp_inv_rearm; try done. lia.
Qed.

(** The checks of [arp_packet]. *)
Definition arp_valid (p : pkt_arp) : bool :=
  (htype p =? ARP_HTYPE_ETHERNET) && (ptype p =? ARP_PTYPE_IPV4) && (hlen p =? 6) && (plen p =? 4).

Definition reply_pkt (dst_mac dst_ip : Z) : pkt_arp :=
  mk_pkt_arp dst_mac eth_addr Packet.Packet.ETH_TYPE_ARP ARP_HTYPE_ETHERNET ARP_PTYPE_IPV4 6 4
    ARP_OPER_REPLY eth_addr cfg_ip dst_mac dst_ip.

Lemma arp_inv_sent st L Wt Qs own A ty l : arp_inv st L Wt Qs own A ty ->
  arp_inv (st <| arp_sent := l |>) L Wt Qs own A ty.
Proof. intros []. by constructor. Qed.

Lemma response_tx_ok ts st mac ip :
  snd (response_tx cfg_ip eth_addr nicif_tx_alloc ts st mac ip)
    = st <| arp_sent := sent_if (nicif_tx_alloc ts (arp_sent st)) (arp_sent st) (reply_pkt mac ip) |>.
Proof. unfold response_tx, arp_tx, sent_if. destruct (nicif_tx_alloc _ _); cbn; [done|by destruct st]. Qed.

(** A reply for the address of the entry [e]. *)
Lemma arp_reply_ok fuel ts now m st L Wt Qs own A dl ty p e :
  arp_inv st L Wt Qs own A ty -> tm_rep m now A dl ty -> in48 (sha p) -> arp_valid p = true ->
  oper p = ARP_OPER_REPLY -> e ∈ L -> ae_ip st e = spa p -> (length L < fuel)%nat -> (length (Wt e) < fuel)%nat ->
  exists m' st', arp_packet cfg_ip eth_addr nicif_tx_alloc fuel ts m st p = Done (m', st') /\
    arp_inv st' L (<[e := []]> Wt) (answered_queue st Wt Qs e) (answered_own st Wt own e) (A ∖ {[ae_to e]}) ty /\
    tm_rep m' now (A ∖ {[ae_to e]}) dl ty /\ ae_status st' e = 0 /\ ae_mac st' e = sha p /\
    (forall c, c ∈ Wt e -> cp_status st' c = 0 /\ mac_cells st' (cp_ptr st c) = sha p) /\
    (forall c, c ∉ Wt e -> cp_status st' c = cp_status st c) /\
    arp_notified st' = arp_notified st ++ filter (fun fd => fd <> -1) (cp_fd st <$> Wt e).
Proof.
  intros Hi Hm Ha Hv Hop He Hip HfL HfW. unfold arp_packet. rewrite <-!negb_andb.
  unfold arp_valid in Hv. rewrite Hv. cbn [negb]. rewrite Hop. cbn [Z.eqb ARP_OPER_REPLY ARP_OPER_REQUEST Pos.eqb].
  destruct (ae_lookup_ok st (spa p) L fuel _ (proj1 (ai_list _ _ _ _ _ _ _ Hi)) HfL) as (r & -> & Hr).
  cbn [mbind outcome_bind]. destruct r as [e'|]; [|by destruct (Hr e He)].
  destruct Hr as [He' Hip']. assert (e' = e) as -> by (apply (ai_ips _ _ _ _ _ _ _ Hi); congruence).
  assert (Hd : exists m', (if ae_status st e =? 1 then tm_disarm m (ae_to e) else Done m) = Done m' /\
      tm_rep m' now (A ∖ {[ae_to e]}) dl ty).
  { pose proof (ai_armed _ _ _ _ _ _ _ Hi e He) as Har. destruct (Z.eqb_spec (ae_status st e) 1) as [E|E].
    - apply tm_disarm_law; tauto.
    - exists m. split; [done|]. by replace (A ∖ {[ae_to e]}) with A by set_solver. }
  destruct Hd as (m' & -> & Hm'). cbn [mbind outcome_bind].
  set (st1 := st <| ae_mac := <[e := sha p]> (ae_mac st) |> <| ae_status := <[e := 0]> (ae_status st) |>).
  assert (Emac : ae_mac st1 e = sha p) by apply fn_lookup_insert. rewrite Emac.
  destruct (ai_wait _ _ _ _ _ _ _ Hi e He) as [Hch Hnd].
  destruct (notify_ok 0 (Some (sha p)) ltac:(by intros a [= <-]) (Wt e) fuel st1 (ae_compl st1 e) Qs Hch Hnd)
    as (st' & -> & Hn).
  { intros q. apply (ai_queue _ _ _ _ _ _ _ Hi). }
  { intros q c. by apply (wait_not_queued _ _ _ _ _ _ _ e q c Hi). }
  { done. }
  cbn [mbind outcome_bind]. eexists m', _. split; [reflexivity|].
  split; [by eapply arp_inv_answered|]. split; [done|].
  destruct (notified_fields _ _ _ _ _ _ Hn) as (_ & F2 & _ & F4 & _). cbn. rewrite F2, F4.
  split; [apply fn_lookup_insert|]. split; [done|]. split; [|split; [|apply Hn]].
  - intros c Hc. split; [by apply (no_status _ _ _ _ _ _ Hn)|]. rewrite (no_cells _ _ _ _ _ _ Hn).
    rewrite decide_True by (by apply (list_elem_of_fmap_2 (cp_ptr st1))).
    apply memcpy6_small. by apply (ai_cell _ _ _ _ _ _ _ Hi e c).
  - intros c Hc. by apply (no_other _ _ _ _ _ _ Hn).
Qed.

(** [arp_packet] on any packet: it returns, with the table well formed.  A reply for an
    address in the table makes the entry ready, disarms its timeout and gives every
    waiting connection the address, status 0 and a place on its queue, once; a request for
    the own address is answered (if a buffer is free); everything else is ignored. *)
Theorem arp_packet_correct fuel ts now m st L Wt Qs own A dl ty p :
  arp_inv st L Wt Qs own A ty -> tm_rep m now A dl ty -> in48 (sha p) ->
  (length L < fuel)%nat -> (forall e, e ∈ L -> (length (Wt e) < fuel)%nat) ->
  exists m' st' Wt' Qs' own' A', arp_packet cfg_ip eth_addr nicif_tx_alloc fuel ts m st p = Done (m', st') /\
    arp_inv st' L Wt' Qs' own' A' ty /\ tm_rep m' now A' dl ty /\
    ((exists e, arp_valid p = true /\ oper p = ARP_OPER_REPLY /\ e ∈ L /\ ae_ip st e = spa p /\
        ae_status st' e = 0 /\ ae_mac st' e = sha p /\ Wt' = <[e := []]> Wt /\ Qs' = answered_queue st Wt Qs e /\
        (forall c, c ∈ Wt e -> cp_status st' c = 0 /\ mac_cells st' (cp_ptr st c) = sha p) /\
        (forall c, c ∉ Wt e -> cp_status st' c = cp_status st c) /\
        arp_notified st' = arp_notified st ++ filter (fun fd => fd <> -1) (cp_fd st <$> Wt e)) \/
     (~ (exists e, arp_valid p = true /\ oper p = ARP_OPER_REPLY /\ e ∈ L /\ ae_ip st e = spa p) /\
        (m', Wt', Qs', own', A') = (m, Wt, Qs, own, A) /\
        st' = st <| arp_sent := if arp_valid p && (oper p =? ARP_OPER_REQUEST) && (tpa p =? cfg_ip)
          then sent_if (nicif_tx_alloc ts (arp_sent st)) (arp_sent st) (reply_pkt (sha p) (spa p))
          else arp_sent st |>)).
Proof.
  intros Hi Hm Ha HfL HfW.
  assert (Hignored : st = st <| arp_sent := arp_sent st |>) by by destruct st.
  destruct (arp_valid p) eqn:Hv.
  2:{ exists m, st, Wt, Qs, own, A. unfold arp_packet. rewrite <-!negb_andb. unfold arp_valid in Hv. rewrite Hv.
      cbn [negb andb]. split_and!; try done. right. split_and!; try done. by intros (e & ? & _). }
  destruct (Z.eqb_spec (oper p) ARP_OPER_REPLY) as [Hop|Hop].
  - destruct (ae_lookup_ok st (spa p) L fuel _ (proj1 (ai_list _ _ _ _ _ _ _ Hi)) HfL) as (r & El & Hr).
    destruct r as [e|].
    + destruct Hr as [He Hip]. destruct (arp_reply_ok fuel ts now m st L Wt Qs own A dl ty p e) as (m' & st' & E & Hi' & Hm' & H1 & H2 & H3 & H4 & H5);
        try done; [by apply HfW|].
      exists m', st', (<[e := []]> Wt), (answered_queue st Wt Qs e), (answered_own st Wt own e), (A ∖ {[ae_to e]}). split; [exact E|]. split; [exact Hi'|]. split; [exact Hm'|].
      left. exists e. by split_and!.
    + exists m, st, Wt, Qs, own, A. unfold arp_packet. rewrite <-!negb_andb. pose proof Hv as Hv'. unfold arp_valid in Hv'. rewrite Hv'.
      rewrite Hop. cbn [negb andb Z.eqb ARP_OPER_REPLY ARP_OPER_REQUEST Pos.eqb]. rewrite El. cbn [mbind outcome_bind].
      split_and!; try done. right. split_and!; try done. intros (e & _ & _ & He & Hip). by apply (Hr e He).
  - unfold arp_packet. rewrite <-!negb_andb. pose proof Hv as Hv'. unfold arp_valid in Hv'. rewrite Hv'. cbn [negb andb].
    rewrite (proj2 (Z.eqb_neq (oper p) ARP_OPER_REPLY)) by done. rewrite response_tx_ok.
    destruct (oper p =? ARP_OPER_REQUEST), (tpa p =? cfg_ip); cbn [negb andb]; eexists m, _, Wt, Qs, own, A;
      (split; [reflexivity|]); (split; [by try apply arp_inv_sent|]); (split; [done|]); right;
      (split; [by intros (e & _ & ? & _)|]); done.
Qed.

End Spec.

(** ** A host with one pending request

    The own entry is at address 16; the completion 500 waits for address 10.0.0.7, its
    result goes to address 900. *)

Definition ex_blank : arp_state :=
  mk_arp 0 (fun _ => 0) (fun _ => 0) (fun _ => 0) (fun _ => 0) (fun _ => 0) (fun _ => 0) (fun _ => 0)
    (fun _ => 0) (fun _ => 40) (fun _ => -1) (fun _ => 0) (fun _ => 0) (fun _ => 0) (fun _ => 0) [] [].
Definition ex_table : arp_state := arp_init 167772162 99 16 ex_blank.
Definition ex_mgr : Timeout.Timeout.tmgr :=
  Timeout.Timeout.util_timeout_init (Timeout.Timeout.mk_tmgr (fun _ => 0) (fun _ => 0) (fun _ => 0) 0 0 0 0).
Definition ex_free : Z -> list pkt_arp -> bool := fun _ _ => true.

(** The table after [arp_init]. *)
Lemma arp_init_inv arp_to cfg_ip eth_addr lb st : lb <> NULL -> 0 <= eth_addr < 281474976710656 ->
  (forall q, nbq_head st q = NULL) ->
  arp_inv arp_to (arp_init cfg_ip eth_addr lb st) [lb] (fun _ => []) (fun _ => []) (fun _ => None) ∅ (fun _ => 0).
Proof.
  intros Hlb He Hq. constructor; cbn; try set_solver; try (intros e ->%list_elem_of_singleton); try rewrite !fn_lookup_insert; try done.
  - split; cbn; rewrite !fn_lookup_insert; done.
  - apply NoDup_singleton.
  - by left.
  - split; [done|constructor].
  - intros q. split; [apply Hq|constructor].
Qed.

Lemma ex_table_inv : arp_inv 500 ex_table [16] (fun _ => []) (fun _ => []) (fun _ => None) ∅ (fun _ => 0).
Proof. by apply arp_init_inv. Qed.

Definition ex_pending : arp_state := ae_link (pending_entry 500 ex_table 100 500 900 167772167 []) 100.

Lemma ex_pending_inv : arp_inv 500 ex_pending [100; 16] (<[100 := [500]]> (fun _ => [])) (fun _ => [])
  (<[500 := Some (inl 100)]> (fun _ => None)) ({[132]} ∪ ∅) (<[132 := TO_ARP_REQ]> (fun _ => 0)).
Proof.
  apply (arp_inv_new 500 ex_free ex_table [16] (fun _ => []) (fun _ => []) (fun _ => None) ∅ (fun _ => 0) 100 500 900 167772167);
    try done; try (rewrite MIDDLE_val; lia); [apply ex_table_inv| |set_solver].
  by intros e ->%list_elem_of_singleton.
Qed.

Lemma ex_arp_armed : exists m, tm_rep m 1000 ({[132]} ∪ ∅) (<[132 := 1500]> (fun _ => 0)) (<[132 := TO_ARP_REQ]> (fun _ => 0)).
Proof.
  destruct (tm_arm_law 9 ex_mgr 1000 ∅ (fun _ => 0) (fun _ => 0) 132 500 TO_ARP_REQ 1000 (timers_init _ _ _ _)) as (m & _ & Hm);
    try done; try (rewrite MIDDLE_val; lia); [rewrite size_empty; lia|by exists m].
Qed.

Definition ex_waiting : Z -> list Z := <[100 := [500]]> (fun _ => []).
Lemma ex_wait_length e : e ∈ [100; 16] -> (length (ex_waiting e) < 9)%nat.
Proof.
  unfold ex_waiting. intros [->|Hx]%elem_of_cons; [rewrite fn_lookup_insert; cbn; lia|].
  apply list_elem_of_singleton in Hx as ->. rewrite fn_lookup_insert_ne by done. cbn. lia.
Qed.

(** The reply arrives. *)
Lemma arp_packet_correct_witness : exists m m' st',
  arp_packet 167772162 99 ex_free 9 1200 m ex_pending
    (mk_pkt_arp 99 77 2054 1 2048 6 4 2 77 167772167 99 167772162) = Done (m', st') /\
  mac_cells st' 900 = 77 /\ ae_status st' 100 = 0.
Proof.
  destruct ex_arp_armed as [m Hm].
  destruct (arp_packet_correct 167772162 99 500 ex_free 9 1200 1000 m ex_pending [100; 16] _ _ _ _ _ _
    (mk_pkt_arp 99 77 2054 1 2048 6 4 2 77 167772167 99 167772162) ex_pending_inv Hm)
    as (m' & st' & Wt' & Qs' & own' & A' & E & _ & _ & [(e & _ & _ & He & Hip & H0 & _ & _ & _ & Hc & _)|(Hn & _)]).
  - cbn. lia.
  - cbn. lia.
  - exact ex_wait_length.
  - exists m, m', st'. split; [exact E|]. apply elem_of_cons in He as [->|He].
    + split; [|exact H0]. apply (Hc 500). rewrite fn_lookup_insert. set_solver.
    + apply list_elem_of_singleton in He as ->. discriminate Hip.
  - exfalso. apply Hn. exists 100. split; [reflexivity|]. split; [reflexivity|]. split; [set_solver|reflexivity].
Defined.

(** Half a millisecond later the timeout fires for the first time. *)
Lemma arp_timeout_correct_witness : exists m m' st',
  arp_timeout 167772162 99 10000000 ex_free 9 1500 132 m ex_pending = Done (m', st') /\ ae_timeout st' 100 = 1000.
Proof.
  destruct ex_arp_armed as [m0 Hm0].
  destruct (tm_disarm_law _ _ _ _ _ 132 Hm0) as (m & _ & Hm); [set_solver|].
  destruct (arp_timeout_correct 167772162 99 500 10000000 ex_free 9 1500 1500 m ex_pending [100; 16] _ _ _ _ (<[132 := 1500]> (fun _ => 0)) _ 132
    ex_pending_inv) as (e & m' & st' & E & He & Eto & Hor).
  - set_solver.
  - reflexivity.
  - apply (tm_later_law _ 1000); [exact Hm|lia|set_solver].
  - rewrite MIDDLE_val. lia.
  - rewrite MIDDLE_val. lia.
  - reflexivity.
  - exact ex_wait_length.
  - rewrite union_empty_r_L, size_singleton. lia.
  - discriminate.
  - exists m, m', st'. assert (e = 100) as -> by (unfold ae_to, TO_OFFSET in Eto; lia). 
    destruct Hor as [(Hge & _)|(_ & Ht & _)]; [by exfalso; apply Hge|]. split; [exact E|exact Ht].
Defined.

End ArpSpec.
