(* ===== verification/Routing.v ===== *)
(** * Routing ([tas/slow/routing.c])

    The routing table is searched in order; a route through a next hop is followed until
    a directly connected network is reached, whose address is resolved by [Arp]. *)
From S2P Require Import Prelude Timers Arp ArpSpec.
From stdpp Require Import gmap.
#[local] Open Scope Z_scope.

Module Routing.

(** [struct routing_table_entry] and a route of the configuration, [struct config_route]. *)
Record entry : Type := mk_entry { dest_ip : Z; dest_mask : Z; next_hop : Z }.
Record config_route : Type := mk_route { cr_ip : Z; cr_ip_prefix : Z; cr_next_hop_ip : Z }.

(** [prefix_len_mask], for lengths up to 32. *)
Definition prefix_len_mask (len : Z) : Z := u32 (Z.lnot (u64 (Z.shiftl 1 (32 - len) - 1))).

(** The last loop of [routing_init]; [None] when a route has bits outside of its mask. *)
Fixpoint fill (routes : list config_route) : option (list entry) :=
  match routes with
  | [] => Some []
  | cr :: routes =>
    let mask := prefix_len_mask (cr_ip_prefix cr) in
    if negb (Z.land mask (cr_ip cr) =? cr_ip cr) then None
    else rest ← fill routes; Some (mk_entry (cr_ip cr) mask (cr_next_hop_ip cr) :: rest)
  end.

(** [routing_init]: the table, or [None] for the return value -1; [calloc_ok] tells
    whether the memory for the table could be allocated. *)
Definition routing_init (calloc_ok : bool) (ip ip_prefix : Z) (routes : list config_route) : option (list entry) :=
  if negb calloc_ok then None else
  let mask := prefix_len_mask ip_prefix in
  rest ← fill routes; Some (mk_entry (Z.land ip mask) mask 0 :: rest).

(** [resolve]. *)
Fixpoint resolve (table : list entry) (ip : Z) : option entry :=
  match table with
  | [] => None
  | e :: table => if dest_ip e =? Z.land ip (dest_mask e) then Some e else resolve table ip
  end.

(** The loop of [routing_resolve]: the address to ask the link layer for, [None] when
    there is no route. *)
Fixpoint resolve_hops (fuel : nat) (table : list entry) (ip : Z) : outcome (option Z) :=
  match fuel with
  | O => NoFuel
  | S fuel =>
    match resolve table ip with
    | None => Done None
    | Some rte => if next_hop rte =? 0 then Done (Some ip) else resolve_hops fuel table (next_hop rte)
    end
  end.

(** [routing_resolve]; [fuel] is for its own loop, [afuel] for ARP. *)
Definition routing_resolve {M : Type} `{Timers M} (cfg_ip eth_addr arp_to : Z)
    (nicif_tx_alloc : Z -> list Arp.pkt_arp -> bool) (fuel afuel : nat) (table : list entry) (ts : Z) (m : M)
    (st : Arp.arp_state) (comp ip mac : Z) (new : option Z) : outcome (Z * M * Arp.arp_state) :=
  r ← resolve_hops fuel table ip;
  match r with
  | None => Done (-1, m, st)
  | Some ip => Arp.arp_request cfg_ip eth_addr arp_to nicif_tx_alloc afuel ts m st comp ip mac new
  end.

(** ** Properties *)

(** The mask has exactly the [len] highest bits. *)
Lemma prefix_len_mask_bits len i : 0 <= len <= 32 -> 0 <= i ->
  Z.testbit (prefix_len_mask len) i = (32 - len <=? i) && (i <? 32).
Proof.
  intros Hl Hi. unfold prefix_len_mask.
  assert (Hp : 0 < 2 ^ (32 - len) <= 2 ^ 32).
  { split; [apply Z.pow_pos_nonneg; lia|]. apply Z.pow_le_mono_r; lia. }
  rewrite Z.shiftl_mul_pow2, Z.mul_1_l by lia. rewrite u64_small by lia.
  replace (2 ^ (32 - len) - 1) with (Z.ones (32 - len)) by (rewrite Z.ones_equiv; lia).
  unfold u32. change 4294967296 with (2 ^ 32). rewrite <-Z.land_ones, Z.land_spec, Z.lnot_spec by lia.
  rewrite !Z.testbit_ones by lia.
  destruct (Z.leb_spec (32 - len) i), (Z.ltb_spec i 32), (Z.ltb_spec i (32 - len)), (Z.leb_spec 0 i); lia || done.
Qed.

(** An entry matches an address when they agree on the bits of the mask. *)
Definition matches (e : entry) (ip : Z) : Prop := dest_ip e = Z.land ip (dest_mask e).

Lemma resolve_first table ip e : resolve table ip = Some e <->
  exists A B, table = A ++ e :: B /\ matches e ip /\ Forall (fun e' => ~ matches e' ip) A.
Proof.
  unfold matches. induction table as [|x table IH]; cbn.
  { split; [done|]. intros (A & B & E & _). by destruct A. }
  destruct (Z.eqb_spec (dest_ip x) (Z.land ip (dest_mask x))) as [Hm|Hm].
  - split.
    + intros [= <-]. by exists [], table.
    + intros (A & B & E & He & HA). destruct A as [|y A]; cbn in E; [by injection E as -> _|].
      injection E as -> _. apply Forall_cons in HA as [HA _]. done.
  - rewrite IH. split.
    + intros (A & B & -> & He & HA). exists (x :: A), B. split_and!; try done. by constructor.
    + intros (A & B & E & He & HA). destruct A as [|y A]; cbn in E; injection E as -> ->; [done|].
      apply Forall_cons in HA as [_ HA]. by exists A, B.
Qed.

Lemma fill_ok routes table : fill routes = Some table ->
  Forall2 (fun cr e => dest_ip e = cr_ip cr /\ dest_mask e = prefix_len_mask (cr_ip_prefix cr) /\
    next_hop e = cr_next_hop_ip cr /\ matches e (cr_ip cr)) routes table.
Proof.
  revert table. induction routes as [|cr routes IH]; intros table E; cbn in E.
  { by injection E as <-. }
  destruct (Z.eqb_spec (Z.land (prefix_len_mask (cr_ip_prefix cr)) (cr_ip cr)) (cr_ip cr)) as [Hm|]; [|done].
  cbn in E. destruct (fill routes) as [rest|]; [|done]. injection E as <-. constructor; [|by apply IH].
  unfold matches. cbn. rewrite Z.land_comm in Hm. by split_and!.
Qed.

(** [routing_init] accepts exactly the configurations in which every route lies within
    its prefix; the table then has the directly connected network first and the routes
    in their order, every entry matches the address it was made for, and [resolve] finds
    the first entry whose prefix agrees with the address. *)
Theorem routing_init_correct ip prefix routes :
  (is_Some (routing_init true ip prefix routes) <->
    Forall (fun cr => Z.land (prefix_len_mask (cr_ip_prefix cr)) (cr_ip cr) = cr_ip cr) routes) /\
  (forall table, routing_init true ip prefix routes = Some table ->
    exists e rest, table = e :: rest /\ matches e ip /\ next_hop e = 0 /\ dest_mask e = prefix_len_mask prefix /\
      Forall2 (fun cr e => dest_ip e = cr_ip cr /\ dest_mask e = prefix_len_mask (cr_ip_prefix cr) /\
        next_hop e = cr_next_hop_ip cr /\ matches e (cr_ip cr)) routes rest /\
      (forall a e, resolve table a = Some e <->
        exists A B, table = A ++ e :: B /\ matches e a /\ Forall (fun e' => ~ matches e' a) A)).
Proof.
  unfold routing_init. cbn [negb]. split.
  - transitivity (is_Some (fill routes)).
    { destruct (fill routes); cbn; split; intros [? ?]; try done; by eexists. }
    induction routes as [|cr routes IH]; cbn.
    { split; [constructor|by eexists]. }
    rewrite Forall_cons, <-IH. destruct (Z.eqb_spec (Z.land (prefix_len_mask (cr_ip_prefix cr)) (cr_ip cr)) (cr_ip cr)); cbn.
    + destruct (fill routes); cbn; split; [intros _; by split; [|eexists]|by eexists|intros [? ?]; done|intros [_ [? ?]]; done].
    + split; [intros [? ?]; done|intros [? _]; done].
  - intros table E. destruct (fill routes) as [rest|] eqn:Ef; [|done]. injection E as <-.
    eexists _, rest. split; [reflexivity|]. split; [done|]. split; [done|]. split; [done|].
    split; [by apply fill_ok|]. intros a e. apply resolve_first.
Qed.

(** The next hops do not lead back: an address has a greater rank than its next hop. *)
Definition acyclic (table : list entry) (rank : Z -> nat) : Prop :=
  forall ip e, resolve table ip = Some e -> next_hop e <> 0 -> (rank (next_hop e) < rank ip)%nat.

(** The address [hop] is reached from [ip] over next hops. *)
Inductive routed (table : list entry) : Z -> Z -> Prop :=
  | routed_here ip e : resolve table ip = Some e -> next_hop e = 0 -> routed table ip ip
  | routed_via ip e hop : resolve table ip = Some e -> next_hop e <> 0 -> routed table (next_hop e) hop ->
      routed table ip hop.

Lemma resolve_hops_ok table rank : acyclic table rank ->
  forall fuel ip, (rank ip < fuel)%nat -> exists r, resolve_hops fuel table ip = Done r /\
    match r with Some hop => routed table ip hop | None => forall hop, ~ routed table ip hop end.
Proof.
  intros Hr. induction fuel as [|fuel IH]; intros ip Hf; [lia|]. cbn.
  destruct (resolve table ip) as [e|] eqn:E.
  2:{ exists None. split; [done|]. intros hop Hx. inversion Hx; congruence. }
  destruct (Z.eqb_spec (next_hop e) 0) as [E0|E0].
  - exists (Some ip). split; [done|]. by econstructor.
  - destruct (IH (next_hop e)) as (r & -> & H); [specialize (Hr ip e E E0); lia|]. exists r. split; [done|].
    destruct r as [hop|]; [by eapply routed_via|]. intros hop Hx. apply (H hop). inversion Hx; congruence.
Qed.

(** C18: [routing_resolve], when the next hops do not lead back: it returns within one more
    step than the rank of the address.  Without a route the result is -1 and nothing has
    changed; otherwise it has asked ARP for the address of the last hop, on a directly
    connected network, for which one of the four cases of a request holds, and the ARP
    table is well formed.  A next hop that is routed through itself makes it loop for
    ever. *)
Theorem routing_resolve_correct {M : Type} `{Timers M} cfg_ip eth_addr arp_to nicif_tx_alloc table :
  (forall rank, acyclic table rank ->
    forall fuel afuel ts now (m : M) st L Wt Qs own A dl ty comp ip mac new,
    ArpSpec.arp_inv arp_to st L Wt Qs own A ty -> tm_rep m now A dl ty -> own comp = None -> comp <> 0 ->
    0 < arp_to < MIDDLE -> ts mod RANGE = now mod RANGE -> (length L < afuel)%nat -> (size A < afuel)%nat ->
    ArpSpec.fresh_entry L A new -> (rank ip < fuel)%nat ->
    exists ret m' st',
      routing_resolve cfg_ip eth_addr arp_to nicif_tx_alloc fuel afuel table ts m st comp ip mac new
        = Done (ret, m', st') /\
      ((ret = -1 /\ m' = m /\ st' = st /\ (forall hop, ~ routed table ip hop)) \/
       exists hop L' Wt' own' A' dl' ty', routed table ip hop /\
         ArpSpec.arp_inv arp_to st' L' Wt' Qs own' A' ty' /\ tm_rep m' now A' dl' ty' /\
         (forall x, x <> mac -> Arp.mac_cells st' x = Arp.mac_cells st x) /\
         ArpSpec.requested cfg_ip eth_addr arp_to nicif_tx_alloc ts now st L Wt own A ty comp hop mac new
           ret st' L' Wt' own' A' dl' ty')) /\
  (forall ip e, resolve table ip = Some e -> next_hop e = ip -> ip <> 0 ->
    forall fuel afuel ts (m : M) st comp mac new,
    routing_resolve cfg_ip eth_addr arp_to nicif_tx_alloc fuel afuel table ts m st comp ip mac new = NoFuel).
Proof.
  unfold routing_resolve. split.
  - intros rank Hr fuel afuel ts now m st L Wt Qs own A dl ty comp ip mac new Hi Hm Hc Hc0 Hto Hts HL HA Hnew Hf.
    destruct (resolve_hops_ok table rank Hr fuel ip Hf) as (r & -> & Hh). cbn [mbind outcome_bind].
    destruct r as [hop|]; [|exists (-1), m, st; split; [done|]; by left].
    destruct (ArpSpec.arp_request_ok cfg_ip eth_addr arp_to nicif_tx_alloc afuel ts now m st L Wt Qs own A dl ty comp hop mac new)
      as (ret & m' & st' & L' & Wt' & own' & A' & dl' & ty' & E & H1 & H2 & H3 & H4); try done.
    exists ret, m', st'. split; [done|]. right. by exists hop, L', Wt', own', A', dl', ty'.
  - intros ip e E Hn H0 fuel afuel ts m st comp mac new.
    assert (resolve_hops fuel table ip = NoFuel) as ->; [|done].
    induction fuel as [|fuel IH]; [done|]. cbn. rewrite E, Hn.
    by rewrite (proj2 (Z.eqb_neq ip 0)) by done.
Qed.

(** ** A host 10.0.0.2/8 with a default route through 10.0.0.1 *)

Definition ex_routes : list config_route := [mk_route 0 0 167772161].
Definition ex_table : list entry :=
  [mk_entry 167772160 4278190080 0; mk_entry 0 0 167772161].

Lemma ex_table_ok : routing_init true 167772162 8 ex_routes = Some ex_table.
Proof. reflexivity. Qed.

Lemma routing_init_correct_witness : is_Some (routing_init true 167772162 8 ex_routes) /\
  exists e rest, ex_table = e :: rest /\ matches e 167772162.
Proof.
  destruct (routing_init_correct 167772162 8 ex_routes) as [Hi Ht]. split.
  - apply Hi. constructor; [reflexivity|constructor].
  - destruct (Ht ex_table eq_refl) as (e & rest & E & Hm & _). exists e, rest. split; [exact E|exact Hm].
Defined.

Definition ex_rank (ip : Z) : nat := if Z.land ip 4278190080 =? 167772160 then 0 else 1.

Lemma ex_acyclic : acyclic ex_table ex_rank.
Proof.
  intros ip e. cbn [ex_table resolve dest_ip dest_mask]. unfold ex_rank.
  destruct (Z.eqb_spec (Z.land ip 4278190080) 167772160) as [E|E].
  - rewrite E. cbn. intros [= <-] Hn. exfalso. apply Hn. reflexivity.
  - rewrite (proj2 (Z.eqb_neq 167772160 (Z.land ip 4278190080))) by congruence.
    rewrite Z.land_0_r. cbn. intros [= <-] _. vm_compute. lia.
Qed.

(** 8.8.8.8 is reached over the default route: the router is asked for. *)
Lemma routing_resolve_correct_witness : exists ret m' st',
  routing_resolve 167772162 99 500 ArpSpec.ex_free 2 9 ex_table 1000 ArpSpec.ex_mgr ArpSpec.ex_table
    500 134744072 900 (Some 100) = Done (ret, m', st').
Proof.
  destruct (routing_resolve_correct (M := Timeout.Timeout.tmgr) 167772162 99 500 ArpSpec.ex_free ex_table) as [Hr _].
  destruct (Hr ex_rank ex_acyclic 2%nat 9%nat 1000 1000 ArpSpec.ex_mgr ArpSpec.ex_table [16] _ _ _ ∅ (fun _ => 0) _
    500 134744072 900 (Some 100) ArpSpec.ex_table_inv) as (ret & m' & st' & E & _).
  - apply timers_init.
  - reflexivity.
  - discriminate.
  - rewrite MIDDLE_val. lia.
  - reflexivity.
  - cbn. lia.
  - rewrite size_empty. lia.
  - intros ae [= <-]. split_and!; try discriminate; set_solver.
  - vm_compute. lia.
  - exists ret, m', st'. exact E.
Defined.

End Routing.
