(* ===== verification/Nicif.v ===== *)
(** * Interface of the slow path to the fast path ([tas/slow/nicif.c])

    Flow ids, the insertion into and the removal from the flow hash table (in which the
    fast path looks flows up), the registers of new flows, and the queues between the
    slow path and the cores.  Addresses and ports are kept in one byte order; the
    conversions are part of the CRC functions. *)
From S2P Require Import Prelude Memif Packet FastFlows AppCtx.

Module Nicif.
Import Packet FastFlows AppCtx.

Definition NIL : Z := -1.
Definition NBSZ : Z := 4.
Definition ENTRIES : Z := 262144.
Definition POS_MASK : Z := Z.shiftl 1 FLEXNIC_PL_FLOWHTE_POSSHIFT - 1.
Definition FLEXNIC_PL_APPST_NUM : Z := 8.
Definition FLEXNIC_PL_APPST_CTX_NUM : Z := 31.
Definition NICIF_CONN_ECN : Z := 4.

(** ** Flow ids

    [flow_id_items] and [flow_id_freelist]; an item is its index in the array. *)
Record ids : Type := mk_ids { it_flow_id : Z -> Z; it_next : Z -> Z; freelist : Z }.
#[export] Instance eta_ids : Eta ids := fun r => mk_ids (it_flow_id r) (it_next r) (freelist r).

(** The loop of [flow_id_alloc_init], with [n] items left from [i] on. *)
Fixpoint id_init_loop (n : nat) (i prev : Z) (s : ids) : ids :=
  match n with
  | O => s
  | S n =>
    let s := s <| it_flow_id := <[i := i]> (it_flow_id s) |> <| it_next := <[i := NIL]> (it_next s) |> in
    let s := if prev =? NIL then s <| freelist := i |> else s <| it_next := <[prev := i]> (it_next s) |> in
    id_init_loop n (i + 1) i s
  end.
Definition flow_id_alloc_init (s : ids) : ids := id_init_loop (Z.to_nat FLEXNIC_PL_FLOWST_NUM) 0 NIL s.

(** [flow_id_alloc]: [None] is the return value -1. *)
Definition flow_id_alloc (s : ids) : option Z * ids :=
  let it := freelist s in
  if it =? NIL then (None, s)
  else (Some (it_flow_id s it), s <| freelist := it_next s it |>).

Definition flow_id_free (s : ids) (flow_id : Z) : ids :=
  let s := s <| it_next := <[flow_id := freelist s]> (it_next s) |> in s <| freelist := flow_id |>.

(** ** The flow hash table *)

Definition hte_valid (e : flowhte) : bool := negb (Z.land (fe_flow_id e) FLEXNIC_PL_FLOWHTE_VALID =? 0).
Definition hte_pos (e : flowhte) : Z :=
  Z.land (Z.shiftr (fe_flow_id e) FLEXNIC_PL_FLOWHTE_POSSHIFT) (NBSZ - 1).
Definition hte_word (d f_id : Z) : Z :=
  Z.lor FLEXNIC_PL_FLOWHTE_VALID (Z.lor (u32 (Z.shiftl d FLEXNIC_PL_FLOWHTE_POSSHIFT)) f_id).

(** The first two loops of [flow_slot_alloc]: the first free entry from [i] on and before
    [stop], and the number of entries passed. *)
Fixpoint find_empty (fuel : nat) (hte : Z -> flowhte) (i stop d : Z) : outcome (Z * Z * bool) :=
  match fuel with
  | O => NoFuel
  | S fuel =>
    if i =? stop then Done (i, d, false)
    else if negb (hte_valid (hte i)) then Done (i, d, true)
    else find_empty fuel hte ((i + 1) mod ENTRIES) stop (d + 1)
  end.

(** The search for an element that may be moved to the free entry [k]; [k] itself when
    there is none. *)
Fixpoint find_movable (fuel : nat) (hte : Z -> flowhte) (i k : Z) : outcome Z :=
  match fuel with
  | O => NoFuel
  | S fuel =>
    if i =? k then Done i else
    assert_ (hte_valid (hte i));;
    let d := NBSZ - 1 - hte_pos (hte i) in
    if u32 (k - i) mod ENTRIES <=? d then Done i else find_movable fuel hte ((i + 1) mod ENTRIES) k
  end.

(** Moving the element at [i] up to [k]. *)
Definition move_up (hte : Z -> flowhte) (i k : Z) : Z -> flowhte :=
  let e := hte i in
  let hte : Z -> flowhte := <[k := mk_flowhte (hte_word (hte_pos e) (Z.land POS_MASK (fe_flow_id e))) (fe_flow_hash e)]> hte in
  <[i := mk_flowhte 0 (fe_flow_hash (hte i))]> hte.

(** The condition of the [while] loop: [i] is not in the cyclic interval from [j] to [l]. *)
Definition out_of_range (j l i : Z) : bool :=
  ((l <? j) || ((i <? j) || (l <=? i))) && ((j <? l) || ((l <=? i) && (i <? j))).

Fixpoint displace (fuel : nat) (hte : Z -> flowhte) (j l i : Z) : outcome (option Z * (Z -> flowhte)) :=
  match fuel with
  | O => NoFuel
  | S fuel =>
    if out_of_range j l i then
      let k := i in
      i ← find_movable fuel hte (u32 (k - NBSZ) mod ENTRIES) k;
      if i =? k then Done (None, hte) else
      assert_ (negb (hte_valid (hte k)));;
      displace fuel (move_up hte i k) j l i
    else Done (Some i, hte)
  end.

(** [flow_slot_alloc]: the slot and its distance, or [None] for the return value -1. *)
Definition flow_slot_alloc (fuel : nat) (hte : Z -> flowhte) (h : Z) : outcome (option (Z * Z) * (Z -> flowhte)) :=
  let j := h mod ENTRIES in
  let l := (j + NBSZ) mod ENTRIES in
  '(i, d, found) ← find_empty fuel hte j l 0;
  if (found : bool) then Done (Some (i, d), hte) else
  let k := (l + 4 * NBSZ) mod ENTRIES in
  '(i, _, found) ← find_empty fuel hte i k 0;
  if negb found then Done (None, hte) else
  '(r, hte) ← displace fuel hte j l i;
  Done (match r with Some i => Some (i, u32 (i - j) mod ENTRIES) | None => None end, hte).

(** [flow_slot_clear], from probe [j] on: [false] is the return value -1. *)
Fixpoint flow_slot_clear (n : nat) (hte : Z -> flowhte) (f_id h j : Z) : bool * (Z -> flowhte) :=
  match n with
  | O => (false, hte)
  | S n =>
    let k := u32 (h + j) mod ENTRIES in
    let e := hte k in
    if negb (hte_valid e) || negb (fe_flow_hash e =? h) then flow_slot_clear n hte f_id h (j + 1)
    else if Z.land (fe_flow_id e) POS_MASK =? f_id
    then (true, <[k := mk_flowhte (Z.ldiff (fe_flow_id e) FLEXNIC_PL_FLOWHTE_VALID) (fe_flow_hash e)]> hte)
    else flow_slot_clear n hte f_id h (j + 1)
  end.

(** ** Connections *)
Section Nicif.
(** The CRC instructions; the cores; the lengths and buffers of the queues; the steering
    table. *)
Context (crc32c_u32 crc32c_u64 : Z -> Z -> Z) (fn_cores rxq_len txq_len : Z) (txq_bufs : Z -> Z -> Z).
Context (flow_group_steering : Z -> Z).

Record nicif : Type := mk_nicif {
  ni_ids : ids;
  flowht : Z -> flowhte;
  flowst : Z -> Memif.flowst;
  rxq_next : Z;
  rxq_tail : Z -> Z;
  txq_tail : Z -> Z;
  rxq_base : Z -> Z -> krx;
  txq_base : Z -> Z -> ktx;
  appctxs : Z -> Z -> appctx;
  app_appst_id : Z -> Z -> Z;
  app_evfd : Z -> Z -> Z;
  appst_ctx_num : Z -> Z;
  appst_ctx_ids : Z -> Z -> Z;
  core_notified : list Z
}.
#[export] Instance eta_nicif : Eta nicif := fun r =>
  mk_nicif (ni_ids r) (flowht r) (flowst r) (rxq_next r) (rxq_tail r) (txq_tail r) (rxq_base r) (txq_base r)
    (appctxs r) (app_appst_id r) (app_evfd r) (appst_ctx_num r) (appst_ctx_ids r) (core_notified r).

(** The registers of a new flow; what is not listed keeps its value. *)
Definition new_flowst (fs : Memif.flowst) (db mac_remote ip_local port_local ip_remote port_remote rx_base rx_len
    tx_base tx_len remote_seq local_seq app_opaque rate flow_group : Z) : Memif.flowst :=
  fs <| fs_opaque := app_opaque |> <| fs_rx_base_sp := rx_base |> <| fs_tx_base := tx_base |>
     <| fs_rx_len := rx_len |> <| fs_tx_len := tx_len |> <| fs_remote_mac := mac_remote |> <| fs_db_id := db |>
     <| fs_local_ip := ip_local |> <| fs_remote_ip := ip_remote |> <| fs_local_port := port_local |>
     <| fs_remote_port := port_remote |> <| fs_flow_group := flow_group |> <| fs_bump_seq := 0 |>
     <| fs_rx_avail := rx_len |> <| fs_rx_next_pos := 0 |> <| fs_rx_next_seq := remote_seq |>
     <| fs_rx_remote_avail := rx_len |> <| fs_tx_sent := 0 |> <| fs_tx_next_pos := 0 |>
     <| fs_tx_next_seq := local_seq |> <| fs_tx_avail := 0 |> <| fs_tx_next_ts := 0 |>
     <| fs_tx_rate := rate |> <| fs_rtt_est := 0 |>.

(** [nicif_connection_add]: the flow id, or [None] for the return value -1. *)
Definition nicif_connection_add (fuel : nat) (s : nicif) (db mac_remote ip_local port_local ip_remote port_remote
    rx_base rx_len tx_base tx_len remote_seq local_seq app_opaque flags rate flow_group : Z)
    : outcome (option Z * nicif) :=
  let '(f, l) := flow_id_alloc (ni_ids s) in
  match f with
  | None => Done (None, s)
  | Some f_id =>
    let s := s <| ni_ids := l |> in
    let hash := flow_hash crc32c_u32 crc32c_u64 (mk_key ip_local ip_remote port_local port_remote) in
    '(r, ht) ← flow_slot_alloc fuel (flowht s) hash;
    let s := s <| flowht := ht |> in
    match r with
    | None => Done (None, s <| ni_ids := flow_id_free (ni_ids s) f_id |>)
    | Some (i, d) =>
      assert_ (i <? ENTRIES);;
      assert_ (d <? NBSZ);;
      let rx_base := if Z.land flags NICIF_CONN_ECN =? NICIF_CONN_ECN
                     then Z.lor rx_base FLEXNIC_PL_FLOWST_ECN else rx_base in
      let fs := new_flowst (flowst s f_id) db mac_remote ip_local port_local ip_remote port_remote rx_base rx_len
        tx_base tx_len remote_seq local_seq app_opaque rate flow_group in
      Done (Some f_id, s <| flowst := <[f_id := fs]> (flowst s) |>
                         <| flowht := <[i := mk_flowhte (hte_word d f_id) hash]> (flowht s) |>)
    end
  end.

(** The results of [nicif_connection_disable]. *)
Record closed : Type := mk_closed { cl_tx_seq : Z; cl_rx_seq : Z; cl_tx_closed : bool; cl_rx_closed : bool }.

Definition nicif_connection_disable (s : nicif) (f_id : Z) : closed * nicif :=
  let fs := flowst s f_id in
  let fs' := fs <| fs_rx_base_sp := Z.lor (fs_rx_base_sp fs) FLEXNIC_PL_FLOWST_SLOWPATH |> in
  let r := mk_closed (fs_tx_next_seq fs) (fs_rx_next_seq fs)
    (has (fs_rx_base_sp fs') FLEXNIC_PL_FLOWST_TXFIN && (fs_tx_sent fs =? 0))
    (has (fs_rx_base_sp fs') FLEXNIC_PL_FLOWST_RXFIN) in
  let h := flow_hash crc32c_u32 crc32c_u64 (mk_key (fs_local_ip fs) (fs_remote_ip fs) (fs_local_port fs) (fs_remote_port fs)) in
  (r, s <| flowst := <[f_id := fs']> (flowst s) |>
        <| flowht := snd (flow_slot_clear (Z.to_nat NBSZ) (flowht s) f_id h 0) |>).

Definition nicif_connection_free (s : nicif) (f_id : Z) : nicif := s <| ni_ids := flow_id_free (ni_ids s) f_id |>.

Definition nicif_connection_move (s : nicif) (dst_db f_id : Z) : nicif :=
  s <| flowst := <[f_id := (flowst s f_id) <| fs_db_id := dst_db |>]> (flowst s) |>.

(** [struct nicif_connection_stats]. *)
Record stats : Type := mk_stats { c_drops : Z; c_acks : Z; c_ackb : Z; c_ecnb : Z; txp : bool; st_rtt : Z }.
#[export] Instance eta_stats : Eta stats := fun r =>
  mk_stats (c_drops r) (c_acks r) (c_ackb r) (c_ecnb r) (txp r) (st_rtt r).

(** [nicif_connection_stats]: [None] is the return value -1. *)
Definition nicif_connection_stats (s : nicif) (f_id : Z) : option stats :=
  if FLEXNIC_PL_FLOWST_NUM <=? f_id then None else
  let fs := flowst s f_id in
  Some (mk_stats (fs_cnt_tx_drops fs) (fs_cnt_rx_acks fs) (fs_cnt_rx_ack_bytes fs) (fs_cnt_rx_ecn_bytes fs)
    (negb (fs_tx_sent fs =? 0)) (fs_rtt_est fs)).

Definition nicif_connection_setrate (s : nicif) (f_id rate : Z) : bool * nicif :=
  if FLEXNIC_PL_FLOWST_NUM <=? f_id then (false, s)
  else (true, s <| flowst := <[f_id := (flowst s f_id) <| fs_tx_rate := rate |>]> (flowst s) |>).

(** ** Queues *)

(** [ktx_try_alloc]: the new tail, or [None] when the entry at the tail is in use. *)
Definition ktx_try_alloc (s : nicif) (core : Z) : option Z :=
  let tail := txq_tail s core in
  if negb (ktx_type (txq_base s core tail) =? 0) then None
  else let tail := u32 (tail + 1) in Some (if tail =? rxq_len then u32 (tail - rxq_len) else tail).

Definition set_ktx (s : nicif) (core i : Z) (e : ktx) : nicif :=
  s <| txq_base := <[core := <[i := e]> (txq_base s core)]> (txq_base s) |>.

Definition nicif_connection_retransmit (s : nicif) (f_id flow_group : Z) : bool * nicif :=
  let core := flow_group_steering flow_group in
  let i := txq_tail s core in
  match ktx_try_alloc s core with
  | None => (false, s)
  | Some tail =>
    let s := s <| txq_tail := <[core := tail]> (txq_tail s) |> in
    let e := (txq_base s core i) <| ktx_flow_id := f_id |> in
    let s := set_ktx s core i e in
    let s := set_ktx s core i (e <| ktx_type := FLEXTCP_PL_KTX_CONNRETRAN |>) in
    (true, s <| core_notified := core_notified s ++ [core] |>)
  end.

(** [nicif_tx_alloc]: the buffer and the handle for [nicif_tx_send]. *)
Definition nicif_tx_alloc (s : nicif) (len : Z) : option (Z * Z) * nicif :=
  let i := txq_tail s 0 in
  match ktx_try_alloc s 0 with
  | None => (None, s)
  | Some opaque =>
    (Some (txq_bufs 0 i, opaque), set_ktx s 0 i ((txq_base s 0 i) <| ktx_addr := txq_bufs 0 i |> <| ktx_len := len |>))
  end.

Definition nicif_tx_send (s : nicif) (opaque : Z) (no_ts : bool) : nicif :=
  let tail := if opaque =? 0 then u32 (txq_len - 1) else u32 (opaque - 1) in
  let s := set_ktx s 0 tail ((txq_base s 0 tail) <| ktx_type := if no_ts then FLEXTCP_PL_KTX_PACKET_NOTS else FLEXTCP_PL_KTX_PACKET |>) in
  s <| txq_tail := <[0 := opaque]> (txq_tail s) |> <| core_notified := core_notified s ++ [0] |>.

(** The loops of [nicif_appctx_add] over the cores. *)
Fixpoint appctx_set (n : nat) (i : Z) (f : Z -> appctx -> appctx) (ctxs : Z -> Z -> appctx) (db : Z) : Z -> Z -> appctx :=
  match n with
  | O => ctxs
  | S n => appctx_set n (i + 1) f (<[i := <[db := f i (ctxs i db)]> (ctxs i)]> ctxs) db
  end.

(** [nicif_appctx_add]. *)
Definition nicif_appctx_add (s : nicif) (appid db : Z) (rx_base tx_base : Z -> Z) (rx_len tx_len evfd : Z)
    : bool * nicif :=
  if FLEXNIC_PL_APPST_NUM <=? appid then (false, s)
  else if FLEXNIC_PL_APPST_CTX_NUM <=? appst_ctx_num s appid + 1 then (false, s)
  else
    let n := Z.to_nat fn_cores in
    let c := appctx_set n 0 (fun i a => a <| ac_rx_base := rx_base i |> <| ac_tx_base := tx_base i |>
      <| ac_rx_avail := rx_len |>) (appctxs s) db in
    let c := appctx_set n 0 (fun i a => a <| ac_tx_len := tx_len |> <| ac_rx_len := rx_len |>) c db in
    let on (f : Z -> Z -> Z) (v : Z) : Z -> Z -> Z :=
      fun i x => if (0 <=? i) && (i <? fn_cores) && (x =? db) then v else f i x in
    (true, s <| appctxs := c |> <| app_appst_id := on (app_appst_id s) appid |> <| app_evfd := on (app_evfd s) evfd |>
             <| appst_ctx_ids := <[appid := <[appst_ctx_num s appid := db]> (appst_ctx_ids s appid)]> (appst_ctx_ids s) |>
             <| appst_ctx_num := <[appid := u16 (appst_ctx_num s appid + 1)]> (appst_ctx_num s) |>).

(** ** Received packets *)

(** Where [process_packet] passes a packet of [len] bytes with Ethernet type [type] and
    IP protocol [proto] to. *)
Inductive destination : Type := Drop | ToArp | ToTcp | ToKni.

Definition packet_destination (type proto len : Z) : destination :=
  if type =? ETH_TYPE_ARP then if len <? 42 then Drop else ToArp
  else if type =? ETH_TYPE_IP then
    if len <? 34 then Drop
    else if proto =? IP_PROTO_TCP then if len <? 54 then Drop else ToTcp
    else ToKni
  else ToKni.

(** The handlers, on the state of the interface and the state [W] of the rest of the slow
    path; [tcp_packet] answers whether the packet is left to the kernel interface.
    [eth_ip] are the Ethernet type and the IP protocol of a buffer. *)
Context {W : Type} (arp_packet kni_packet : Z -> Z -> nicif * W -> outcome (nicif * W)).
Context (tcp_packet : Z -> Z -> Z -> Z -> nicif * W -> outcome (bool * (nicif * W))) (eth_ip : Z -> Z * Z).
Context (rxq_bufs : Z -> Z -> Z).

(** [process_packet].  ARP packets that were handled are passed on as well. *)
Definition process_packet (buf len fn_core flow_group : Z) (w : nicif * W) : outcome (nicif * W) :=
  let '(type, proto) := eth_ip buf in
  match packet_destination type proto len with
  | Drop => Done w
  | ToArp => w ← arp_packet buf len w; kni_packet buf len w
  | ToTcp => '(to_kni, w) ← tcp_packet buf len fn_core flow_group w;
             if (to_kni : bool) then kni_packet buf len w else Done w
  | ToKni => kni_packet buf len w
  end.

(** [rxq_poll]: [false] is the return value -1. *)
Definition rxq_poll (s : nicif) (w : W) : outcome (bool * nicif * W) :=
  let core := rxq_next s in
  let tail := rxq_tail s core in
  let krx := rxq_base s core tail in
  let buf := rxq_bufs core tail in
  let s := s <| rxq_next := (core + 1) mod fn_cores |> in
  if krx_type krx =? 0 then Done (false, s, w) else
  let tail' := u32 (tail + 1) in
  let tail' := if tail' =? rxq_len then u32 (tail' - rxq_len) else tail' in
  '(s, w) ← (if krx_type krx =? FLEXTCP_PL_KRX_PACKET
             then process_packet buf (krx_len krx) (krx_fn_core krx) (krx_flow_group krx) (s, w) else Done (s, w));
  Done (true, s <| rxq_base := <[core := <[tail := (rxq_base s core tail) <| krx_type := 0 |>]> (rxq_base s core)]> (rxq_base s) |>
                <| rxq_tail := <[core := tail']> (rxq_tail s) |>, w).

(** [nicif_poll], with [n] rounds left. *)
Fixpoint nicif_poll (n : nat) (s : nicif) (w : W) (ret : Z) : outcome (Z * nicif * W) :=
  match n with
  | O => Done (ret, s, w)
  | S n => '(x, s, w) ← rxq_poll s w; nicif_poll n s w (if (x : bool) then u32 (ret + 1) else ret)
  end.
Definition NICIF_POLL_ROUNDS : nat := 512.

End Nicif.
End Nicif.
