(* ===== verification/NicifSpec.v ===== *)
(** * Registered flows are found by the fast path

    The proofs about [Nicif]: the flow hash table under insertion, displacement and
    removal, the flow ids, and their composition with the lookup of the fast path. *)
From S2P Require Import Prelude Chain Memif Packet TcpCommon FastCtx FastFlows FastRx FastTx.
From S2P Require Import FastFlowsSpec AppCtx Nicif.

Module NicifSpec.
Import Packet FastFlows AppCtx Nicif.

(** ** Entries *)

Lemma lor_add a b n : 0 <= n -> 0 <= b < 2 ^ n -> a mod 2 ^ n = 0 -> Z.lor a b = a + b.
Proof.
  intros Hn Hb Ha. assert (Hl : Z.land a b = 0).
  { apply Z.bits_inj'. intros m Hm. rewrite Z.land_spec, Z.bits_0. destruct (Z.ltb_spec m n).
    - rewrite (Z.div_mod a (2 ^ n)), Ha, Z.add_0_r, Z.mul_comm by lia. by rewrite Z.mul_pow2_bits_low.
    - destruct (Z.eq_dec b 0) as [->|]; [by rewrite Z.bits_0, andb_false_r|].
      rewrite (Z.bits_above_log2 b); [by rewrite andb_false_r|lia|]. apply Z.log2_lt_pow2; [lia|].
      pose proof (Z.pow_le_mono_r 2 n m). lia. }
  rewrite <-Z.lxor_lor by done. by rewrite Z.add_nocarry_lxor.
Qed.

Lemma hte_word_val d f : 0 <= d < 4 -> 0 <= f < 536870912 -> hte_word d f = 2147483648 + d * 536870912 + f.
Proof.
  intros Hd Hf. unfold hte_word, FLEXNIC_PL_FLOWHTE_POSSHIFT, FLEXNIC_PL_FLOWHTE_VALID.
  rewrite Z.shiftl_mul_pow2 by lia. change (2 ^ 29) with 536870912. rewrite u32_small by lia.
  rewrite (lor_add (d * 536870912) f 29); [|lia|done|change (2 ^ 29) with 536870912; Z.div_mod_to_equations; lia].
  rewrite (lor_add 2147483648 _ 31); [lia|lia|change (2 ^ 31) with 2147483648; lia|done].
Qed.

Lemma land_pos_mask x : Z.land x POS_MASK = x mod 536870912.
Proof. change POS_MASK with (Z.ones 29). by rewrite Z.land_ones by lia. Qed.

Lemma hte_valid_testbit e : hte_valid e = Z.testbit (fe_flow_id e) 31.
Proof. apply (has_pow2 (fe_flow_id e) 31). lia. Qed.

Lemma hte_word_ok d f h : 0 <= d < 4 -> 0 <= f < 536870912 ->
  hte_valid (mk_flowhte (hte_word d f) h) = true /\ hte_pos (mk_flowhte (hte_word d f) h) = d /\
  Z.land (hte_word d f) POS_MASK = f.
Proof.
  intros Hd Hf. rewrite hte_valid_testbit, land_pos_mask. unfold hte_pos. cbn [fe_flow_id].
  rewrite hte_word_val by done. split_and!.
  - rewrite Z.testbit_true by lia. change (2 ^ 31) with 2147483648. Z.div_mod_to_equations. lia.
  - rewrite Z.shiftr_div_pow2 by (unfold FLEXNIC_PL_FLOWHTE_POSSHIFT; lia). change (NBSZ - 1) with (Z.ones 2).
    rewrite Z.land_ones by lia. change (2 ^ FLEXNIC_PL_FLOWHTE_POSSHIFT) with 536870912. change (2 ^ 2) with 4.
    Z.div_mod_to_equations. lia.
  - Z.div_mod_to_equations. lia.
Qed.

Lemma hte_pos_range e : 0 <= hte_pos e < 4.
Proof.
  unfold hte_pos. change (NBSZ - 1) with (Z.ones 2). rewrite Z.land_ones by lia.
  apply Z.mod_pos_bound. done.
Qed.

(** ** The table *)

Definition hte_id (e : flowhte) : Z := Z.land (fe_flow_id e) POS_MASK.

Lemma hte_id_range e : 0 <= hte_id e < 536870912.
Proof. unfold hte_id. rewrite land_pos_mask. by apply Z.mod_pos_bound. Qed.

(** How far the index [i] is behind the home of the hash [h]. *)
Definition dist (h i : Z) : Z := (i - h) mod ENTRIES.

(** [F] are the registered flows with their hashes: each has one entry, within reach of a
    lookup, and there are no other entries. *)
Record ht_inv (ht : Z -> flowhte) (F : Z -> option Z) : Prop := {
  hi_in i : 0 <= i < ENTRIES -> hte_valid (ht i) = true ->
    F (hte_id (ht i)) = Some (fe_flow_hash (ht i)) /\ dist (fe_flow_hash (ht i)) i < NBSZ;
  hi_out f h : F f = Some h -> exists i, 0 <= i < ENTRIES /\ hte_valid (ht i) = true /\ hte_id (ht i) = f;
  hi_one i i' : 0 <= i < ENTRIES -> 0 <= i' < ENTRIES -> hte_valid (ht i) = true -> hte_valid (ht i') = true ->
    hte_id (ht i) = hte_id (ht i') -> i = i'
}.

(** The distance that is stored in the entry [i] is right. *)
Definition exact (ht : Z -> flowhte) (i : Z) : Prop :=
  hte_valid (ht i) = true -> hte_pos (ht i) = dist (fe_flow_hash (ht i)) i.
Definition exact_all (ht : Z -> flowhte) : Prop := forall i, 0 <= i < ENTRIES -> exact ht i.

(** The index [x] entries behind [j]. *)
Definition at_ (j x : Z) : Z := (j + x) mod ENTRIES.

Ltac mod_lia := unfold at_, dist, ENTRIES, NBSZ in *; unwrap; Z.div_mod_to_equations; lia.

Lemma at_range j x : 0 <= at_ j x < ENTRIES.
Proof. mod_lia. Qed.
Lemma at_inj j x y : 0 <= x < ENTRIES -> 0 <= y < ENTRIES -> at_ j x = at_ j y -> x = y.
Proof. mod_lia. Qed.
Lemma at_next j x : (at_ j x + 1) mod ENTRIES = at_ j (x + 1).
Proof. mod_lia. Qed.
Lemma at_back j x : u32 (at_ j x - NBSZ) mod ENTRIES = at_ j (x - 4).
Proof. mod_lia. Qed.
Lemma at_diff j x y : 0 <= x <= y -> y < ENTRIES -> u32 (at_ j y - at_ j x) mod ENTRIES = y - x.
Proof. mod_lia. Qed.
Lemma dist_at h j x y : 0 <= x <= y -> dist h (at_ j x) + (y - x) < ENTRIES ->
  dist h (at_ j y) = dist h (at_ j x) + (y - x).
Proof. mod_lia. Qed.
Lemma dist_range h i : 0 <= dist h i < ENTRIES.
Proof. mod_lia. Qed.
Lemma dist_home h x : 0 <= x < ENTRIES -> dist h (at_ (h mod ENTRIES) x) = x.
Proof. mod_lia. Qed.

Lemma find_empty_ok ht j : forall n o fuel d, 0 <= o -> o + Z.of_nat n < ENTRIES -> (n < fuel)%nat ->
  exists m, 0 <= m <= Z.of_nat n /\
    find_empty fuel ht (at_ j o) (at_ j (o + Z.of_nat n)) d = Done (at_ j (o + m), d + m, bool_decide (m < Z.of_nat n)) /\
    (forall x, o <= x < o + m -> hte_valid (ht (at_ j x)) = true) /\
    (m < Z.of_nat n -> hte_valid (ht (at_ j (o + m))) = false).
Proof.
  induction n as [|n IH]; intros o fuel d Ho Hn Hf; (destruct fuel as [|fuel]; [lia|]); cbn [find_empty].
  - exists 0. rewrite !Z.add_0_r, Z.eqb_refl. split_and!; try done; try lia.
  - rewrite (proj2 (Z.eqb_neq (at_ j o) _)).
    2:{ intros E%at_inj; [lia|unfold ENTRIES in *; lia|unfold ENTRIES in *; lia]. }
    destruct (hte_valid (ht (at_ j o))) eqn:Ev; cbn [negb].
    + rewrite at_next. destruct (IH (o + 1) fuel (d + 1)) as (m & Hm & E & Hv & Hemp); [lia|lia|lia|].
      replace (o + 1 + Z.of_nat n) with (o + Z.of_nat (S n)) in E by lia. exists (m + 1). rewrite E.
      split; [lia|]. split.
      { f_equal. f_equal; [f_equal; [f_equal; lia|lia]|]. apply bool_decide_ext. lia. }
      split.
      * intros x Hx. destruct (Z.eq_dec x o) as [->|]; [done|]. apply Hv. lia.
      * intros Hm'. replace (o + (m + 1)) with (o + 1 + m) by lia. apply Hemp. lia.
    + exists 0. rewrite !Z.add_0_r, bool_decide_true by lia. split_and!; try done; lia.
Qed.

Lemma find_movable_ok ht F j y : ht_inv ht F -> y < 24 ->
  (forall x, 0 <= x < y -> hte_valid (ht (at_ j x)) = true /\ exact ht (at_ j x)) ->
  forall n fuel x, 0 <= x -> x + Z.of_nat n = y -> (n < fuel)%nat ->
  exists x', x <= x' <= y /\ find_movable fuel ht (at_ j x) (at_ j y) = Done (at_ j x') /\
    (x' < y -> dist (fe_flow_hash (ht (at_ j x'))) (at_ j y) < NBSZ).
Proof.
  intros Hi Hy Hpre. induction n as [|n IH]; intros fuel x Hx Hn Hf; (destruct fuel as [|fuel]; [lia|]); cbn [find_movable].
  { assert (x = y) as -> by lia. exists y. rewrite Z.eqb_refl. split_and!; [lia|lia|done|lia]. }
  rewrite (proj2 (Z.eqb_neq (at_ j x) _)).
  2:{ intros E%at_inj; [lia|unfold ENTRIES in *; lia|unfold ENTRIES in *; lia]. }
  destruct (Hpre x ltac:(lia)) as [Hv He]. rewrite Hv. cbn [assert_ mbind outcome_bind].
  rewrite at_diff by (unfold ENTRIES; lia). rewrite (He Hv).
  destruct (Z.leb_spec (y - x) (NBSZ - 1 - dist (fe_flow_hash (ht (at_ j x))) (at_ j x))) as [Hle|Hgt].
  - exists x. split; [lia|]. split; [done|]. intros _. pose proof (dist_range (fe_flow_hash (ht (at_ j x))) (at_ j x)).
    rewrite (dist_at _ j x y); unfold NBSZ, ENTRIES in *; lia.
  - rewrite at_next. destruct (IH fuel (x + 1)) as (x' & ? & ? & ?); [lia|lia|lia|]. exists x'. split; [lia|done].
Qed.

(** Moving an entry to a free place within its reach keeps the table. *)
Lemma move_up_ok ht F i k : ht_inv ht F -> 0 <= i < ENTRIES -> 0 <= k < ENTRIES -> i <> k ->
  hte_valid (ht i) = true -> hte_valid (ht k) = false -> dist (fe_flow_hash (ht i)) k < NBSZ ->
  ht_inv (move_up ht i k) F /\ hte_valid (move_up ht i k i) = false /\
  (forall x, x <> i -> x <> k -> move_up ht i k x = ht x).
Proof.
  intros Hi Hri Hrk Hne Hvi Hvk Hd. pose proof (hte_pos_range (ht i)) as Hp.
  pose proof (hte_id_range (ht i)) as Hid. unfold hte_id in Hid.
  destruct (hte_word_ok (hte_pos (ht i)) (Z.land POS_MASK (fe_flow_id (ht i))) (fe_flow_hash (ht i)) Hp) as (W1 & _ & W3).
  { by rewrite Z.land_comm. }
  set (e := mk_flowhte (hte_word (hte_pos (ht i)) (Z.land POS_MASK (fe_flow_id (ht i)))) (fe_flow_hash (ht i))) in *.
  assert (Ek : move_up ht i k k = e).
  { unfold move_up. cbn zeta. rewrite fn_lookup_insert_ne by done. apply fn_lookup_insert. }
  assert (Ei : hte_valid (move_up ht i k i) = false) by (unfold move_up; cbn zeta; by rewrite fn_lookup_insert).
  assert (Eo : forall x, x <> i -> x <> k -> move_up ht i k x = ht x).
  { intros x ??. unfold move_up. cbn zeta. by rewrite !fn_lookup_insert_ne by done. }
  assert (Eid : hte_id e = hte_id (ht i)).
  { unfold hte_id. cbn [e fe_flow_id]. rewrite W3. apply Z.land_comm. }
  split; [|done]. 
  (* the entry a valid place of the new table comes from *)
  assert (Hsrc : forall x, 0 <= x < ENTRIES -> hte_valid (move_up ht i k x) = true ->
    exists y, 0 <= y < ENTRIES /\ hte_valid (ht y) = true /\ hte_id (ht y) = hte_id (move_up ht i k x) /\
      fe_flow_hash (ht y) = fe_flow_hash (move_up ht i k x) /\ (x = k /\ y = i \/ x <> i /\ x <> k /\ y = x)).
  { intros x Hx Hv. destruct (Z.eq_dec x i) as [->|]; [congruence|]. destruct (Z.eq_dec x k) as [->|].
    - exists i. rewrite Ek. split_and!; try done; [lia|lia|by left].
    - exists x. rewrite Eo in * by done. split_and!; try done; [lia|lia|by right]. }
  constructor.
  - intros x Hx Hv. destruct (Hsrc x Hx Hv) as (y & Hy & Hvy & <- & Eh & Hxy). rewrite <-Eh.
    destruct (hi_in _ _ Hi y Hy Hvy) as [HF Hdy]. split; [done|].
    destruct Hxy as [[-> ->]|(_ & _ & ->)]; done.
  - intros f h Hf. destruct (hi_out _ _ Hi f h Hf) as (y & Hy & Hv & <-). destruct (Z.eq_dec y i) as [->|Hyi].
    + exists k. by rewrite Ek.
    + exists y. rewrite Eo; [done|done|congruence].
  - intros x x' Hx Hx' Hv Hv' E. destruct (Hsrc x Hx Hv) as (y & Hy & Hvy & E1 & _ & Hxy).
    destruct (Hsrc x' Hx' Hv') as (y' & Hy' & Hvy' & E1' & _ & Hxy').
    assert (y = y') by (apply (hi_one _ _ Hi); congruence). subst y'.
    destruct Hxy as [[-> ->]|(? & ? & ->)], Hxy' as [[-> ?]|(? & ? & ->)]; congruence.
Qed.

Lemma out_of_range_at j y : 0 <= j < ENTRIES -> 0 <= y < 24 -> out_of_range j (at_ j 4) (at_ j y) = (4 <=? y).
Proof.
  intros Hj Hy. unfold out_of_range. unfold at_, ENTRIES in *.
  repeat match goal with |- context [?a <? ?b] => destruct (Z.ltb_spec a b) | |- context [?a <=? ?b] => destruct (Z.leb_spec a b) end;
    cbn; try reflexivity; exfalso; Z.div_mod_to_equations; lia.
Qed.

Lemma displace_ok F j : 0 <= j < ENTRIES -> forall fuel ht y, ht_inv ht F -> 0 <= y < 24 -> (Z.to_nat y + 5 < fuel)%nat ->
  hte_valid (ht (at_ j y)) = false ->
  (forall x, 0 <= x < y -> hte_valid (ht (at_ j x)) = true /\ exact ht (at_ j x)) ->
  exists r ht', displace fuel ht j (at_ j 4) (at_ j y) = Done (r, ht') /\ ht_inv ht' F /\
    match r with Some i => exists x, 0 <= x < 4 /\ i = at_ j x /\ hte_valid (ht' i) = false | None => True end.
Proof.
  intros Hj. induction fuel as [|fuel IH]; intros ht y Hi Hy Hf Hemp Hpre; [lia|]. cbn [displace].
  rewrite out_of_range_at by done. destruct (Z.leb_spec 4 y) as [H4|H4].
  2:{ eexists _, ht. split; [reflexivity|]. split; [done|]. exists y. split; [lia|done]. }
  rewrite at_back.
  destruct (find_movable_ok ht F j y Hi ltac:(lia) Hpre 4 fuel (y - 4)) as (x & Hx & -> & Hd); [lia|lia|lia|].
  cbn [mbind outcome_bind]. destruct (Z.eqb_spec (at_ j x) (at_ j y)) as [E|E].
  { by eexists None, ht. }
  assert (Hxy : x < y). { destruct (Z.eq_dec x y) as [->|]; [done|lia]. }
  rewrite Hemp. cbn [negb assert_ mbind outcome_bind].
  destruct (move_up_ok ht F (at_ j x) (at_ j y) Hi (at_range _ _) (at_range _ _) E) as (Hi' & Hemp' & Ho).
  { by apply Hpre; lia. } { done. } { by apply Hd. }
  apply IH; [done|lia|lia|done|]. intros z Hz.
  assert (Hne : at_ j z <> at_ j x /\ at_ j z <> at_ j y).
  { split; intros E'%at_inj; unfold ENTRIES in *; lia. }
  unfold exact. rewrite Ho by tauto. apply Hpre. lia.
Qed.

(** There is a free entry where a lookup would find it. *)
Definition bucket_free (ht : Z -> flowhte) (h : Z) : Prop :=
  exists x, 0 <= x < NBSZ /\ hte_valid (ht (at_ (h mod ENTRIES) x)) = false.

(** A slot for the hash [h] can be had without losing a flow: one of its four entries is
    free, so that nothing has to be moved, or the distances that are stored in the twenty
    entries [flow_slot_alloc] may move are right.  They are when an entry is written, and
    no longer after it was moved. *)
Definition slot_safe (ht : Z -> flowhte) (h : Z) : Prop :=
  bucket_free ht h \/ forall x, 0 <= x < 20 -> exact ht (at_ (h mod ENTRIES) x).

Lemma exact_slot_safe ht h : exact_all ht -> slot_safe ht h.
Proof. intros He. right. intros x _. apply He, at_range. Qed.

(** [flow_slot_alloc] where a slot can be had safely. *)
Lemma flow_slot_alloc_ok fuel ht F h : ht_inv ht F -> slot_safe ht h -> 0 <= h -> (29 < fuel)%nat ->
  exists r ht', flow_slot_alloc fuel ht h = Done (r, ht') /\ ht_inv ht' F /\
    match r with
    | Some (i, d) => 0 <= i < ENTRIES /\ 0 <= d < NBSZ /\ d = dist h i /\ hte_valid (ht' i) = false
    | None => True
    end /\
    (bucket_free ht h -> ht' = ht /\ r <> None).
Proof.
  intros Hi Hex Hh Hf. unfold flow_slot_alloc. set (j := h mod ENTRIES).
  assert (Hj : 0 <= j < ENTRIES) by (apply Z.mod_pos_bound; done).
  change ((j + NBSZ) mod ENTRIES) with (at_ j 4).
  assert (E0 : at_ j 0 = j) by (unfold at_; rewrite Z.add_0_r; by apply Z.mod_small).
  assert (Ek : (at_ j 4 + 4 * NBSZ) mod ENTRIES = at_ j 20) by mod_lia. rewrite Ek.
  destruct (find_empty_ok ht j 4 0 fuel 0) as (m & Hm & E & Hv & Hemp); [lia|done|lia|].
  rewrite E0 in E. change (0 + Z.of_nat 4) with 4 in E. rewrite E. cbn [mbind outcome_bind]. rewrite !Z.add_0_l in *.
  destruct (bool_decide_reflect (m < Z.of_nat 4)) as [H4|H4].
  { eexists _, ht. split; [reflexivity|]. split; [done|]. split; [|by split].
    split; [apply at_range|]. split; [unfold NBSZ; lia|]. split; [|by apply Hemp].
    symmetry. apply dist_home. unfold ENTRIES; lia. }
  assert (m = 4) as -> by lia. change (at_ j (0 + 4)) with (at_ j 4).
  assert (Hno : ~ bucket_free ht h).
  { intros (x & Hx & Hx'). fold j in Hx'. rewrite Hv in Hx' by (unfold NBSZ in Hx; lia). done. }
  destruct Hex as [?|Hex]; [done|]. fold j in Hex.
  destruct (find_empty_ok ht j 16 4 fuel 0) as (n & Hn & E1 & Hv1 & Hemp1); [lia|done|lia|].
  change (4 + Z.of_nat 16) with 20 in E1. rewrite E1. cbn [mbind outcome_bind].
  destruct (bool_decide_reflect (n < Z.of_nat 16)) as [H16|H16]; cbn [negb].
  2:{ by eexists None, ht. }
  destruct (displace_ok F j Hj fuel ht (4 + n) Hi) as (r & ht' & -> & Hi' & Hr); [lia|lia|by apply Hemp1| |].
  { intros x Hx. split; [|apply Hex; lia]. destruct (Z.lt_ge_cases x 4); [apply Hv; lia|apply Hv1; lia]. }
  cbn [mbind outcome_bind]. destruct r as [i|]; [|by eexists None, ht'].
  destruct Hr as (x & Hx & -> & Hemp').
  assert (Ed : u32 (at_ j x - j) mod ENTRIES = x).
  { rewrite <-E0 at 2. rewrite at_diff by (unfold ENTRIES; lia). lia. }
  rewrite Ed. eexists _, ht'. split; [reflexivity|]. split; [done|]. split; [|done].
  split; [apply at_range|]. split; [unfold NBSZ; lia|]. split; [|done].
  symmetry. apply dist_home. unfold ENTRIES. lia.
Qed.
(** Writing the entry of a new flow. *)
Lemma ht_insert_ok ht F i d f h : ht_inv ht F -> 0 <= i < ENTRIES -> 0 <= d < NBSZ -> d = dist h i ->
  hte_valid (ht i) = false -> 0 <= f < 536870912 -> F f = None ->
  ht_inv (<[i := mk_flowhte (hte_word d f) h]> ht) (<[f := Some h]> F).
Proof.
  intros Hi Hri Hd Hdi Hemp Hf HF. destruct (hte_word_ok d f h Hd Hf) as (W1 & _ & W3).
  set (e := mk_flowhte (hte_word d f) h) in *. assert (Eid : hte_id e = f) by exact W3.
  assert (Hold : forall x, 0 <= x < ENTRIES -> x <> i -> hte_valid (ht x) = true -> hte_id (ht x) <> f).
  { intros x Hx Hne Hv E. destruct (hi_in _ _ Hi x Hx Hv). congruence. }
  constructor.
  - intros x Hx. destruct (decide (i = x)) as [<-|Hne].
    + rewrite (fn_lookup_insert ht i). intros _. rewrite Eid, fn_lookup_insert. split; [done|]. cbn. lia.
    + rewrite (fn_lookup_insert_ne ht i) by done. intros Hv. rewrite fn_lookup_insert_ne by (intros E; by apply (Hold x Hx)). by apply (hi_in _ _ Hi).
  - intros g hg. destruct (decide (f = g)) as [<-|Hne].
    + intros _. exists i. by rewrite fn_lookup_insert.
    + rewrite fn_lookup_insert_ne by done. intros (x & Hx & Hv & E)%(hi_out _ _ Hi). exists x.
      rewrite fn_lookup_insert_ne by congruence. done.
  - intros x x' Hx Hx'. unfold insert, fn_insert.
    destruct (decide (i = x)) as [<-|Hne], (decide (i = x')) as [<-|Hne']; try done.
    + intros _ Hv E. rewrite Eid in E. by destruct (Hold x' Hx').
    + intros Hv _ E. rewrite Eid in E. by destruct (Hold x Hx).
    + by apply (hi_one _ _ Hi).
Qed.

Lemma exact_insert ht i d f h : exact_all ht -> 0 <= d < NBSZ -> d = dist h i -> 0 <= f < 536870912 ->
  exact_all (<[i := mk_flowhte (hte_word d f) h]> ht).
Proof.
  intros He Hd Hdi Hf x Hx. unfold exact, insert, fn_insert. destruct (decide (i = x)) as [<-|]; [|by apply He].
  intros _. by destruct (hte_word_ok d f h Hd Hf) as (_ & -> & _).
Qed.

(** [flow_slot_clear] invalidates the entry of the flow, and nothing else. *)
Lemma flow_slot_clear_ok ht F f h : ht_inv ht F -> F f = Some h -> 0 <= h ->
  exists ht', flow_slot_clear (Z.to_nat NBSZ) ht f h 0 = (true, ht') /\ ht_inv ht' (<[f := None]> F) /\
    (exact_all ht -> exact_all ht').
Proof.
  intros Hi HF Hh. destruct (hi_out _ _ Hi f h HF) as (i & Hri & Hv & Hid).
  destruct (hi_in _ _ Hi i Hri Hv) as [HF' Hd]. rewrite Hid, HF in HF'. injection HF' as Eh.
  set (e' := mk_flowhte (Z.ldiff (fe_flow_id (ht i)) FLEXNIC_PL_FLOWHTE_VALID) (fe_flow_hash (ht i))).
  assert (Hv' : hte_valid e' = false).
  { rewrite hte_valid_testbit. cbn [e' fe_flow_id]. rewrite Z.ldiff_spec. by rewrite andb_false_r. }
  assert (Hs : forall n j, 0 <= j -> j + Z.of_nat n = NBSZ -> j <= dist h i ->
    flow_slot_clear n ht f h j = (true, <[i := e']> ht)).
  { rewrite <-Eh in Hd. induction n as [|n IH]; intros j Hj Hn Hle; [lia|]. cbn [flow_slot_clear].
    change (u32 (h + j) mod ENTRIES) with (u32 (h + j) mod ENTRIES). set (k := u32 (h + j) mod ENTRIES).
    assert (Hk : 0 <= k < ENTRIES) by (apply Z.mod_pos_bound; done).
    destruct (Z.eq_dec j (dist h i)) as [Ej|Ej].
    - assert (k = i) as -> by (unfold k; mod_lia). rewrite Hv, <-Eh, Z.eqb_refl. cbn [negb orb].
      unfold hte_id in Hid. rewrite Hid, Z.eqb_refl. unfold e'. by rewrite <-Eh.
    - assert (Hki : k <> i) by (unfold k; mod_lia).
      destruct (negb (hte_valid (ht k)) || negb (fe_flow_hash (ht k) =? h)) eqn:Eb; [apply IH; lia|].
      apply orb_false_iff in Eb as [Eb _]. apply negb_false_iff in Eb.
      destruct (Z.eqb_spec (Z.land (fe_flow_id (ht k)) POS_MASK) f) as [E|E]; [|apply IH; lia].
      exfalso. apply Hki, (hi_one _ _ Hi); try done. by rewrite Hid. }
  exists (<[i := e']> ht). split; [apply Hs; [lia|done|apply dist_range]|]. split.
  - constructor.
    + intros x Hx. destruct (decide (i = x)) as [<-|Hne]; [by rewrite (fn_lookup_insert ht i), Hv'|].
      rewrite (fn_lookup_insert_ne ht i) by done. intros Hvx. rewrite fn_lookup_insert_ne; [by apply (hi_in _ _ Hi)|]. intros E. apply Hne. apply (hi_one _ _ Hi); congruence.
    + intros g hg. destruct (decide (f = g)) as [<-|Hne]; [by rewrite fn_lookup_insert|].
      rewrite fn_lookup_insert_ne by done. intros (x & Hx & Hvx & E)%(hi_out _ _ Hi). exists x.
      rewrite fn_lookup_insert_ne by congruence. done.
    + intros x x' Hx Hx'. unfold insert, fn_insert.
      destruct (decide (i = x)) as [<-|Hne], (decide (i = x')) as [<-|Hne']; try done; try (by rewrite Hv').
      by apply (hi_one _ _ Hi).
  - intros He x Hx. unfold exact, insert, fn_insert. destruct (decide (i = x)) as [<-|]; [by rewrite Hv'|by apply He].
Qed.

(** The lookup of the fast path finds a registered flow whose addresses no other
    registered flow has. *)
Lemma fss_finds crc32 crc64 ht F tbl p f : ht_inv ht F ->
  let h := FastFlows.flow_hash crc32 crc64 (packet_key p) in
  0 <= h -> F f = Some h -> flow_matches (tbl f) p = true ->
  (forall g hg, F g = Some hg -> g <> f -> flow_matches (tbl g) p = false) ->
  fss_probe ht tbl p h 0 FLEXNIC_PL_FLOWHT_NBSZ = Some f.
Proof.
  intros Hi h Hh HF Hm Hother. destruct (hi_out _ _ Hi f h HF) as (i & Hri & Hv & Hid).
  destruct (hi_in _ _ Hi i Hri Hv) as [HF' Hd]. rewrite Hid, HF in HF'. injection HF' as Eh. rewrite <-Eh in Hd.
  assert (Hs : forall n j, 0 <= j -> j + Z.of_nat n = NBSZ -> j <= dist h i -> fss_probe ht tbl p h j n = Some f).
  { induction n as [|n IH]; intros j Hj Hn Hle; [lia|]. cbn [fss_probe].
    change FLEXNIC_PL_FLOWHT_ENTRIES with ENTRIES. set (k := u32 (h + j) mod ENTRIES).
    assert (Hk : 0 <= k < ENTRIES) by (apply Z.mod_pos_bound; done).
    change (entry_flow_id (ht k)) with (hte_id (ht k)).
    destruct (Z.eq_dec j (dist h i)) as [Ej|Ej].
    - assert (k = i) as -> by (unfold k; mod_lia). pose proof Hv as Hv'. unfold hte_valid in Hv'. apply negb_true_iff in Hv'.
      by rewrite Hv', <-Eh, Z.eqb_refl, Hid, Hm.
    - assert (Hki : k <> i) by (unfold k; mod_lia).
      destruct ((Z.land (fe_flow_id (ht k)) FLEXNIC_PL_FLOWHTE_VALID =? 0) || negb (fe_flow_hash (ht k) =? h)) eqn:Eb;
        [apply IH; lia|]. apply orb_false_iff in Eb as [Eb _].
      assert (Hvk : hte_valid (ht k) = true) by (unfold hte_valid; by rewrite Eb).
      destruct (hi_in _ _ Hi k Hk Hvk) as [HFk _]. rewrite (Hother _ _ HFk); [apply IH; lia|].
      intros E. apply Hki. apply (hi_one _ _ Hi); congruence. }
  apply Hs; [lia|done|apply dist_range].
Qed.

(** ** Flow ids *)

(** [L] are the free ids. *)
Record ids_ok (s : ids) (L : list Z) : Prop := {
  io_chain : chain NIL (it_next s) (freelist s) L;
  io_nodup : NoDup L;
  io_range f : f ∈ L -> 0 <= f < FLEXNIC_PL_FLOWST_NUM /\ it_flow_id s f = f
}.

Lemma flow_id_alloc_ok s L : ids_ok s L ->
  match L with
  | [] => flow_id_alloc s = (None, s)
  | f :: L' => exists s', flow_id_alloc s = (Some f, s') /\ ids_ok s' L' /\ it_flow_id s' = it_flow_id s
  end.
Proof.
  intros [Hc Hnd Hr]. unfold flow_id_alloc. destruct L as [|f L].
  - cbn in Hc. by rewrite Hc.
  - destruct Hc as (E & Hf & Hc). rewrite E, (proj2 (Z.eqb_neq f NIL)) by done.
    destruct (Hr f ltac:(set_solver)) as [_ ->]. eexists. split; [reflexivity|]. split; [|done].
    apply NoDup_cons in Hnd as [? Hnd]. constructor; [exact Hc|done|]. intros g Hg. apply Hr. set_solver.
Qed.

Lemma flow_id_free_ok s L f : ids_ok s L -> f ∉ L -> 0 <= f < FLEXNIC_PL_FLOWST_NUM -> it_flow_id s f = f ->
  ids_ok (flow_id_free s f) (f :: L).
Proof.
  intros [Hc Hnd Hr] Hn Hf Hid. unfold flow_id_free. constructor; cbn.
  - eapply chain_push; [exact Hc|unfold NIL; lia|done|apply fn_lookup_insert|].
    intros y Hy. apply fn_lookup_insert_ne. set_solver.
  - by apply NoDup_cons.
  - intros g [->|Hg]%elem_of_cons; [done|by apply Hr].
Qed.

Lemma id_init_loop_ok n : forall i s L, 0 <= i -> ids_ok s L -> (forall x, x ∈ L -> x < i) ->
  i + Z.of_nat n <= FLEXNIC_PL_FLOWST_NUM ->
  ids_ok (id_init_loop n i (lastd NIL L) s) (L ++ seqZ i (Z.of_nat n)).
Proof.
  induction n as [|n IH]; intros i s L Hi Hok HL Hn; cbn [id_init_loop].
  - by rewrite app_nil_r.
  - set (s1 := if lastd NIL L =? NIL then _ else _).
    assert (Hs1 : ids_ok s1 (L ++ [i])).
    { destruct Hok as [Hc Hnd Hr].
      assert (Hni : i ∉ L) by (intros Hx%HL; lia).
      assert (Hid : forall f, f ∈ L ++ [i] -> 0 <= f < FLEXNIC_PL_FLOWST_NUM /\ (<[i := i]> (it_flow_id s)) f = f).
      { intros f [Hf| ->%list_elem_of_singleton]%elem_of_app.
        - rewrite fn_lookup_insert_ne by set_solver. by apply Hr.
        - split; [lia|apply fn_lookup_insert]. }
      assert (Hnd' : NoDup (L ++ [i])).
      { apply NoDup_app. split; [done|]. split; [set_solver|]. apply NoDup_singleton. }
      assert (HiN : i <> NIL) by (unfold NIL; lia).
      unfold s1. destruct (lastd_cases NIL L) as [[-> E]|(A & p & -> & E)]; rewrite E; clear E.
      - rewrite Z.eqb_refl. constructor; cbn; [|done|done]. split; [done|]. split; [done|]. apply fn_lookup_insert.
      - assert (Hp : p <> NIL). { intros ->. apply (seg_notin_null _ _ _ _ _ Hc). set_solver. }
        rewrite (proj2 (Z.eqb_neq p NIL)) by done. constructor; cbn; [|done|done].
        assert (Hpi : p <> i) by set_solver. assert (HpA : p ∉ A). { apply NoDup_app in Hnd as (_ & Hd & _). intros Hx. by apply (Hd p Hx), list_elem_of_singleton. }
        rewrite <-app_assoc. eapply chain_snoc; [exact Hc|done|apply fn_lookup_insert| |].
        + rewrite fn_lookup_insert_ne by done. apply fn_lookup_insert.
        + intros y Hy. rewrite !fn_lookup_insert_ne; [done|set_solver|set_solver]. }
    replace (L ++ seqZ i (Z.of_nat (S n))) with ((L ++ [i]) ++ seqZ (i + 1) (Z.of_nat n)).
    2:{ rewrite <-app_assoc. f_equal. rewrite (seqZ_cons i) by lia. cbn. f_equal. f_equal; lia. }
    pose proof (IH (i + 1) s1 (L ++ [i])) as H. assert (El : lastd NIL (L ++ [i]) = i) by (unfold lastd; by rewrite last_snoc).
    rewrite El in H. apply H; [lia|done| |lia].
    intros x [Hx| ->%list_elem_of_singleton]%elem_of_app; [specialize (HL x Hx); lia|lia].
Qed.

(** After the initialisation every flow id is free. *)
Lemma flow_id_alloc_init_ok s : freelist s = NIL -> ids_ok (flow_id_alloc_init s) (seqZ 0 FLEXNIC_PL_FLOWST_NUM).
Proof.
  intros Hs. unfold flow_id_alloc_init.
  assert (H0 : ids_ok s []) by (constructor; [by rewrite Hs|constructor|set_solver]).
  assert (H : forall n, Z.of_nat n <= FLEXNIC_PL_FLOWST_NUM -> ids_ok (id_init_loop n 0 NIL s) (seqZ 0 (Z.of_nat n))).
  { intros n Hn. refine (id_init_loop_ok n 0 s [] _ H0 _ _); [lia|set_solver|lia]. }
  assert (Hn : 0 <= FLEXNIC_PL_FLOWST_NUM) by (unfold FLEXNIC_PL_FLOWST_NUM; lia).
  specialize (H (Z.to_nat FLEXNIC_PL_FLOWST_NUM)). rewrite Z2Nat.id in H by exact Hn.
  exact (H (Z.le_refl _)).
Qed.

End NicifSpec.
