(* ===== verification/NicifProps.v ===== *)
(** * Registering and removing connections

    The slow path registers a connection by taking a flow id, writing the registers of the
    flow and entering it into the flow hash table; from then on the fast path finds the
    flow for the packets of the connection, until the slow path disables it again. *)
From S2P Require Import Prelude Chain Memif Packet TcpCommon FastCtx FastFlows FastRx FastTx.
From S2P Require Import FastFlowsSpec FastFlowsProps AppCtx Nicif NicifSpec.

Module NicifProps.
Import Packet TcpCommon FastCtx FastFlows FastRx FastTx FastFlowsSpec FastFlowsProps AppCtx Nicif NicifSpec.

Definition key_of (fs : Memif.flowst) : flow_key :=
  mk_key (fs_local_ip fs) (fs_remote_ip fs) (fs_local_port fs) (fs_remote_port fs).

Lemma flow_matches_key fs p : flow_matches fs p = true <-> key_of fs = packet_key p.
Proof.
  unfold flow_matches, key_of, packet_key. rewrite !andb_true_iff, !Z.eqb_eq.
  split; [intros [[[-> ->] ->] ->]; done|intros [= -> -> -> ->]; done].
Qed.

Lemma flow_matches_nokey fs p : key_of fs <> packet_key p -> flow_matches fs p = false.
Proof. intros H. apply not_true_is_false. by rewrite flow_matches_key. Qed.

Section Props.
Context (crc32c_u32 crc32c_u64 : Z -> Z -> Z) (crc_nonneg : forall a b, 0 <= crc32c_u32 a b).
#[local] Abbreviation hash := (flow_hash crc32c_u32 crc32c_u64).
#[local] Abbreviation fss ht tbl := (fast_flows_packet_fss crc32c_u32 crc32c_u64 ht tbl).

(** [F] are the registered flows with their hashes, [L] the free flow ids. *)
Record nicif_inv (s : nicif) (F : Z -> option Z) (L : list Z) : Prop := {
  nv_ids : ids_ok (ni_ids s) L;
  nv_ht : ht_inv (flowht s) F;
  nv_free f : f ∈ L -> F f = None;
  nv_flow f h : F f = Some h ->
    0 <= f < FLEXNIC_PL_FLOWST_NUM /\ it_flow_id (ni_ids s) f = f /\ h = hash (key_of (flowst s f));
  nv_keys f g h h' : F f = Some h -> F g = Some h' -> key_of (flowst s f) = key_of (flowst s g) -> f = g
}.

(** What the fast path finds. *)
Definition finds (s : nicif) (k : flow_key) (r : option Z) : Prop :=
  forall nbh, packet_key (nb_pkt nbh) = k -> fss (flowht s) (flowst s) [nbh] = [r].

Lemma registered_found s F L f h : nicif_inv s F L -> F f = Some h -> finds s (key_of (flowst s f)) (Some f).
Proof.
  intros Hi HF nbh Ek. destruct (nv_flow _ _ _ Hi f h HF) as (_ & _ & Eh). unfold fast_flows_packet_fss. cbn [map].
  f_equal. apply (fss_finds crc32c_u32 crc32c_u64 _ F).
  - by apply (nv_ht _ _ _ Hi).
  - apply crc_nonneg.
  - rewrite HF, Eh, Ek. done.
  - by apply flow_matches_key.
  - intros g hg Hg Hne. apply flow_matches_nokey. rewrite Ek. intros E. by apply Hne, (nv_keys _ _ _ Hi g f hg h).
Qed.

Lemma fss_probe_none ht F tbl p h : ht_inv ht F -> (forall g hg, F g = Some hg -> flow_matches (tbl g) p = false) ->
  forall n j, fss_probe ht tbl p h j n = None.
Proof.
  intros Hi Hno. induction n as [|n IH]; intros j; [done|]. cbn [fss_probe].
  change FLEXNIC_PL_FLOWHT_ENTRIES with ENTRIES. set (k := u32 (h + j) mod ENTRIES).
  assert (Hk : 0 <= k < ENTRIES) by (apply Z.mod_pos_bound; done).
  destruct ((Z.land (fe_flow_id (ht k)) FLEXNIC_PL_FLOWHTE_VALID =? 0) || negb (fe_flow_hash (ht k) =? h)) eqn:Eb; [apply IH|].
  apply orb_false_iff in Eb as [Eb _]. assert (Hvk : hte_valid (ht k) = true) by (unfold hte_valid; by rewrite Eb).
  destruct (hi_in _ _ Hi k Hk Hvk) as [HFk _]. change (entry_flow_id (ht k)) with (hte_id (ht k)).
  rewrite (Hno _ _ HFk). apply IH.
Qed.

Lemma unregistered_none s F L k : nicif_inv s F L -> (forall g h, F g = Some h -> key_of (flowst s g) <> k) -> finds s k None.
Proof.
  intros Hi Hno nbh Ek. unfold fast_flows_packet_fss. cbn [map]. f_equal. eapply fss_probe_none; [by apply (nv_ht _ _ _ Hi)|].
  intros g hg Hg. apply flow_matches_nokey. rewrite Ek. by eapply Hno.
Qed.

(** ** New connections *)

Lemma key_of_new fs db mac a b c d rb rl tb tl rs ls op r fg :
  key_of (new_flowst fs db mac a b c d rb rl tb tl rs ls op r fg) = mk_key a c b d.
Proof. done. Qed.

(** The table with the entry of a new flow. *)
Lemma nicif_inv_new s s' F L f k fs i d : nicif_inv s F (f :: L) -> ids_ok (ni_ids s') L ->
  it_flow_id (ni_ids s') = it_flow_id (ni_ids s) -> ht_inv (flowht s') F -> flowst s' = flowst s ->
  (forall g h, F g = Some h -> key_of (flowst s g) <> k) -> key_of fs = k ->
  0 <= i < ENTRIES -> 0 <= d < NBSZ -> d = dist (hash k) i -> hte_valid (flowht s' i) = false ->
  nicif_inv (s' <| flowst := <[f := fs]> (flowst s') |>
                <| flowht := <[i := mk_flowhte (hte_word d f) (hash k)]> (flowht s') |>) (<[f := Some (hash k)]> F) L.
Proof.
  intros Hi Hids Eids Hht Efs Hnew Ek Hri Hd Ed Hemp.
  pose proof (io_range _ _ (nv_ids _ _ _ Hi) f ltac:(set_solver)) as [Hrf Hidf].
  assert (Hff : F f = None) by (apply (nv_free _ _ _ Hi); set_solver).
  assert (HfL : f ∉ L) by (pose proof (io_nodup _ _ (nv_ids _ _ _ Hi)) as Hnd; by apply NoDup_cons in Hnd as [? _]).
  constructor; cbn.
  - done.
  - apply ht_insert_ok; try done. unfold FLEXNIC_PL_FLOWST_NUM in Hrf. lia.
  - intros g Hg. rewrite fn_lookup_insert_ne by set_solver. apply (nv_free _ _ _ Hi). set_solver.
  - intros g h. destruct (decide (f = g)) as [<-|Hne].
    + rewrite !fn_lookup_insert. intros [= <-]. rewrite Ek. split_and!; try done; try lia. by rewrite Eids.
    + rewrite !fn_lookup_insert_ne by done. rewrite Eids, Efs. apply (nv_flow _ _ _ Hi).
  - intros g g' h h'. rewrite Efs. unfold insert, fn_insert.
    destruct (decide (f = g)) as [<-|Hne], (decide (f = g')) as [<-|Hne']; try done.
    + intros _ Hg' E. destruct (Hnew g' h' Hg'). by rewrite <-E.
    + intros Hg _ E. destruct (Hnew g h Hg). by rewrite E.
    + apply (nv_keys _ _ _ Hi).
Qed.

(** The lemma for [nicif_connection_add]. *)
Lemma nicif_connection_add_ok fuel s F L db mac_remote ip_local port_local ip_remote port_remote
    rx_base rx_len tx_base tx_len remote_seq local_seq app_opaque flags rate flow_group :
  let k := mk_key ip_local ip_remote port_local port_remote in
  nicif_inv s F L -> slot_safe (flowht s) (hash k) -> (forall g h, F g = Some h -> key_of (flowst s g) <> k) -> (29 < fuel)%nat ->
  exists r s', nicif_connection_add crc32c_u32 crc32c_u64 fuel s db mac_remote ip_local port_local ip_remote
      port_remote rx_base rx_len tx_base tx_len remote_seq local_seq app_opaque flags rate flow_group = Done (r, s') /\
    match r with
    | None => nicif_inv s' F L /\ flowst s' = flowst s /\ (L = [] \/ ~ bucket_free (flowht s) (hash k))
    | Some f => exists L', L = f :: L' /\ nicif_inv s' (<[f := Some (hash k)]> F) L' /\ finds s' k (Some f) /\
        flowst s' f = new_flowst (flowst s f) db mac_remote ip_local port_local ip_remote port_remote
          (if Z.land flags NICIF_CONN_ECN =? NICIF_CONN_ECN then Z.lor rx_base FLEXNIC_PL_FLOWST_ECN else rx_base)
          rx_len tx_base tx_len remote_seq local_seq app_opaque rate flow_group /\
        (forall g, g <> f -> flowst s' g = flowst s g)
    end /\
    (forall g h, F g = Some h -> finds s' (key_of (flowst s g)) (Some g)) /\
    (bucket_free (flowht s) (hash k) -> exact_all (flowht s) -> exact_all (flowht s')).
Proof.
  intros k Hi Hex Hnew Hfuel. unfold nicif_connection_add. pose proof (flow_id_alloc_ok _ _ (nv_ids _ _ _ Hi)) as Ha.
  destruct L as [|f L].
  { rewrite Ha. exists None, s. split; [done|]. split; [by auto|]. split; [|done].
    intros g h Hg. by eapply registered_found. }
  destruct Ha as (l & -> & Hl & Eid). cbn -[flow_slot_alloc hash]. fold k.
  destruct (flow_slot_alloc_ok fuel (flowht s) F (hash k) (nv_ht _ _ _ Hi) Hex ltac:(apply crc_nonneg) Hfuel)
    as (r & ht' & -> & Hht & Hr & Hfree). cbn -[hash]. destruct r as [[i d]|].
  - destruct Hr as (Hri & Hd & Ed & Hemp).
    rewrite (proj2 (Z.ltb_lt i ENTRIES)), (proj2 (Z.ltb_lt d NBSZ)) by lia. cbn -[hash].
    set (fs := new_flowst _ _ _ _ _ _ _ _ _ _ _ _ _ _ _ _). set (s' := _ <| flowst := _ |> <| flowht := _ |>).
    assert (Hi' : nicif_inv s' (<[f := Some (hash k)]> F) L).
    { exact (nicif_inv_new s (s <| ni_ids := l |> <| flowht := ht' |>) F L f k fs i d Hi Hl Eid Hht eq_refl Hnew eq_refl Hri Hd Ed Hemp). }
    exists (Some f), s'. split; [done|]. split; [|split].
    + exists L. split; [done|]. split; [done|]. split.
      { replace k with (key_of (flowst s' f)) by (cbn; by rewrite fn_lookup_insert).
        eapply registered_found; [done|]. by rewrite fn_lookup_insert. }
      cbn. rewrite fn_lookup_insert. split; [done|]. intros g Hg. by rewrite fn_lookup_insert_ne.
    + intros g h Hg. assert (Hne : f <> g).
      { intros <-. rewrite (nv_free _ _ _ Hi f) in Hg by set_solver. done. }
      replace (key_of (flowst s g)) with (key_of (flowst s' g)) by (cbn; by rewrite fn_lookup_insert_ne).
      eapply registered_found; [done|]. by rewrite fn_lookup_insert_ne.
    + intros (Ex & _)%Hfree Hex'. cbn -[hash]. rewrite Ex. apply exact_insert; try done.
      pose proof (io_range _ _ (nv_ids _ _ _ Hi) f ltac:(set_solver)) as [Hrf _]. unfold FLEXNIC_PL_FLOWST_NUM in Hrf. lia.
  - set (s' := _ <| ni_ids := _ |>). assert (Hi' : nicif_inv s' F (f :: L)).
    { pose proof (io_range _ _ (nv_ids _ _ _ Hi) f ltac:(set_solver)) as [Hrf Hidf].
      pose proof (io_nodup _ _ (nv_ids _ _ _ Hi)) as [HfL _]%NoDup_cons.
      constructor; cbn; [|done|apply (nv_free _ _ _ Hi)| |apply (nv_keys _ _ _ Hi)].
      - apply flow_id_free_ok; try done. by rewrite Eid.
      - rewrite Eid. apply (nv_flow _ _ _ Hi). }
    exists None, s'. split; [done|]. split; [|split].
    + split; [done|]. split; [done|]. right. intros (_ & Hn)%Hfree. done.
    + intros g h Hg. by apply (registered_found s' F (f :: L) g h).
    + intros (_ & Hn)%Hfree. done.
Qed.

(** C19: Registering a connection with the fast path ([nicif_connection_add]), while a slot
    can be had safely ([slot_safe]: one of the four entries for the key is free, or none of
    the twenty entries the allocation may move was moved before; without that, a flow that
    is registered can be lost, see [flow_slot_alloc_loses_flow]).  The call never aborts.
    When it succeeds the flow has the first free id, its registers are those of a new flow
    with the given buffers, sequence numbers and addresses, and the hash table finds it by
    its key; when it fails, no id or no free entry of the four is left and no register is
    changed.  In both cases the ids, the table and the registers stay in agreement, no
    other flow changes and every registered flow is still found. *)
Theorem nicif_connection_add_correct fuel s F L db mac_remote ip_local port_local ip_remote port_remote
    rx_base rx_len tx_base tx_len remote_seq local_seq app_opaque flags rate flow_group :
  let k := mk_key ip_local ip_remote port_local port_remote in
  nicif_inv s F L -> slot_safe (flowht s) (hash k) -> (forall g h, F g = Some h -> key_of (flowst s g) <> k) -> (29 < fuel)%nat ->
  exists r s', nicif_connection_add crc32c_u32 crc32c_u64 fuel s db mac_remote ip_local port_local ip_remote
      port_remote rx_base rx_len tx_base tx_len remote_seq local_seq app_opaque flags rate flow_group = Done (r, s') /\
    match r with
    | None => nicif_inv s' F L /\ flowst s' = flowst s /\ (L = [] \/ ~ bucket_free (flowht s) (hash k))
    | Some f => exists L', L = f :: L' /\ nicif_inv s' (<[f := Some (hash k)]> F) L' /\ finds s' k (Some f) /\
        flowst s' f = new_flowst (flowst s f) db mac_remote ip_local port_local ip_remote port_remote
          (if Z.land flags NICIF_CONN_ECN =? NICIF_CONN_ECN then Z.lor rx_base FLEXNIC_PL_FLOWST_ECN else rx_base)
          rx_len tx_base tx_len remote_seq local_seq app_opaque rate flow_group /\
        (forall g, g <> f -> flowst s' g = flowst s g)
    end /\
    (forall g h, F g = Some h -> finds s' (key_of (flowst s g)) (Some g)) /\
    (bucket_free (flowht s) (hash k) -> exact_all (flowht s) -> exact_all (flowht s')).
Proof. apply nicif_connection_add_ok. Qed.

(** ** Closed connections *)

(** [nicif_connection_disable] and [nicif_connection_free]. *)
Theorem nicif_connection_disable_correct s F L f h : nicif_inv s F L -> F f = Some h ->
  let fs := flowst s f in
  let '(r, s') := nicif_connection_disable crc32c_u32 crc32c_u64 s f in
  r = mk_closed (fs_tx_next_seq fs) (fs_rx_next_seq fs)
        (has (fs_rx_base_sp fs) FLEXNIC_PL_FLOWST_TXFIN && (fs_tx_sent fs =? 0)) (has (fs_rx_base_sp fs) FLEXNIC_PL_FLOWST_RXFIN) /\
  nicif_inv s' (<[f := None]> F) L /\ nicif_inv (nicif_connection_free s' f) (<[f := None]> F) (f :: L) /\
  has (fs_rx_base_sp (flowst s' f)) FLEXNIC_PL_FLOWST_SLOWPATH = true /\
  finds s' (key_of fs) None /\
  (forall g hg, g <> f -> F g = Some hg -> finds s' (key_of (flowst s g)) (Some g)) /\
  (exact_all (flowht s) -> exact_all (flowht s')).
Proof.
  intros Hi HF. unfold nicif_connection_disable. cbv zeta.
  destruct (nv_flow _ _ _ Hi f h HF) as (Hrf & Hidf & Eh).
  destruct (flow_slot_clear_ok _ F f h (nv_ht _ _ _ Hi) HF) as (ht' & E & Hht & Hex).
  { rewrite Eh. apply crc_nonneg. }
  change (flow_hash crc32c_u32 crc32c_u64 _) with (hash (key_of (flowst s f))). rewrite <-Eh, E. cbn [snd].
  set (s' := s <| flowst := _ |> <| flowht := ht' |>).
  assert (Hkeys : forall g, key_of (flowst s' g) = key_of (flowst s g)).
  { intros g. cbn. unfold insert, fn_insert. destruct (decide (f = g)) as [<-|]; done. }
  assert (Hne : forall g hg, (<[f := None]> F) g = Some hg -> f <> g /\ F g = Some hg).
  { intros g hg. unfold insert, fn_insert. destruct (decide (f = g)); done. }
  assert (Hi' : nicif_inv s' (<[f := None]> F) L).
  { constructor; [apply (nv_ids _ _ _ Hi)|exact Hht| | |].
    - intros g Hg. unfold insert, fn_insert. destruct (decide (f = g)); [done|by apply (nv_free _ _ _ Hi)].
    - intros g hg [_ Hg]%Hne. rewrite Hkeys. by apply (nv_flow _ _ _ Hi).
    - intros g g' hg hg' [_ Hg]%Hne [_ Hg']%Hne. rewrite !Hkeys. by apply (nv_keys _ _ _ Hi g g' hg hg'). }
  split; [|split; [done|split; [|split; [|split; [|split]]]]].
  - cbn. change FLEXNIC_PL_FLOWST_TXFIN with (2 ^ 4). change FLEXNIC_PL_FLOWST_RXFIN with (2 ^ 5).
    rewrite !(has_lor (fs_rx_base_sp (flowst s f))) by done. by rewrite !orb_false_r.
  - assert (HfL : f ∉ L). { intros HfL. rewrite (nv_free _ _ _ Hi f HfL) in HF. done. }
    constructor; cbn; [by apply flow_id_free_ok; [apply (nv_ids _ _ _ Hi)|..]|exact Hht| |apply (nv_flow _ _ _ Hi')|apply (nv_keys _ _ _ Hi')].
    intros g [->|Hg]%elem_of_cons; [apply fn_lookup_insert|by apply (nv_free _ _ _ Hi')].
  - cbn. rewrite fn_lookup_insert. cbn. change FLEXNIC_PL_FLOWST_SLOWPATH with (2 ^ 0). rewrite has_lor by done.
    apply orb_true_r.
  - eapply unregistered_none; [done|]. intros g hg [Hn Hg]%Hne. rewrite Hkeys. intros Ek. apply Hn.
    by apply (nv_keys _ _ _ Hi f g h hg).
  - intros g hg Hn Hg. rewrite <-Hkeys. eapply registered_found; [done|]. by rewrite fn_lookup_insert_ne.
  - done.
Qed.
End Props.

(** ** Registers of a new flow *)

(** The flags are below the address in [rx_base_sp]. *)
Lemma rx_base_ecn b : Z.land (Z.lor b FLEXNIC_PL_FLOWST_ECN) FLEXNIC_PL_FLOWST_RX_MASK = Z.land b FLEXNIC_PL_FLOWST_RX_MASK.
Proof. by rewrite Z.land_lor_distr_l, Z.lor_0_r. Qed.

(** What [nicif_connection_add] writes. *)
Theorem new_flowst_correct shm_len m fs db mac a b c d rx_base rx_len tx_base tx_len remote_seq local_seq op flags rate fg S T :
  let rb := if Z.land flags NICIF_CONN_ECN =? NICIF_CONN_ECN then Z.lor rx_base FLEXNIC_PL_FLOWST_ECN else rx_base in
  fs_rx_ooo_len fs = 0 -> in32 (fs_rx_ooo_start fs) -> Z.land rx_base FLEXNIC_PL_FLOWST_RX_MASK = rx_base ->
  0 < rx_len < 1073741824 -> 0 < tx_len < 1073741824 -> in32 remote_seq -> in32 local_seq ->
  0 <= rx_base -> rx_base + rx_len <= shm_len < 18446744073709551616 -> 0 <= tx_base -> tx_base + tx_len <= shm_len ->
  rx_base + rx_len <= tx_base \/ tx_base + tx_len <= rx_base ->
  flow_inv shm_len m (new_flowst fs db mac a b c d rb rx_len tx_base tx_len remote_seq local_seq op rate fg) S T 0 local_seq 0.
Proof.
  intros rb Hl Hs Hm Hrl Htl Hrs Hls Hr1 Hr2 Ht1 Ht2 Hd.
  assert (Hrb : Z.land rb FLEXNIC_PL_FLOWST_RX_MASK = rx_base).
  { unfold rb. destruct (_ =? _); [by rewrite rx_base_ecn|done]. }
  constructor.
  - constructor; cbn; rewrite ?Hl; try done; try lia. unfold FastFlows.rx_base. cbn. rewrite Hrb. lia.
  - constructor; cbn; try done; lia.
  - constructor; cbn; rewrite ?Hl; lia.
  - constructor; cbn; [lia|]. by rewrite Z.add_0_r, u32_small.
  - unfold FastFlows.rx_base. cbn. by rewrite Hrb.
  - cbn. lia.
Qed.

(** ** Concrete connections *)

(** A hash that is the local port, and three free flow ids. *)
Definition ex_crc (a _ : Z) : Z := a mod 65536.
Lemma ex_crc_nonneg a b : 0 <= ex_crc a b.
Proof. apply Z.mod_pos_bound. lia. Qed.

Definition no_entry : flowhte := mk_flowhte 0 0.
Definition ex_nicif (n : nat) : nicif :=
  mk_nicif (id_init_loop n 0 NIL (mk_ids (fun _ => 0) (fun _ => 0) NIL)) (fun _ => no_entry) (fun _ => ex_fs) 0
    (fun _ => 0) (fun _ => 0) (fun _ _ => mk_krx 0 0 0 0 0) (fun _ _ => mk_ktx 0 0 0 0)
    (fun _ _ => mk_appctx 0 0 0 0 0 0 0) (fun _ _ => 0) (fun _ _ => 0) (fun _ => 0) (fun _ _ => 0) [].

Lemma ex_nicif_inv : nicif_inv ex_crc (fun _ _ => 0) (ex_nicif 3) (fun _ => None) [0; 1; 2].
Proof.
  constructor; [|constructor|..]; try done. constructor; cbn.
  - by repeat split.
  - repeat constructor; set_solver.
  - intros f Hf. assert (f = 0 \/ f = 1 \/ f = 2) as [->|[->| ->]] by set_solver; (split; [unfold FLEXNIC_PL_FLOWST_NUM; lia|reflexivity]).
Qed.

Lemma ex_exact : exact_all (flowht (ex_nicif 3)).
Proof. by intros i Hi Hv. Qed.

(** A connection of the local port [lp] with the remote port [rp]. *)
Definition ex_add (s : nicif) (lp rp : Z) : outcome (option Z * nicif) :=
  nicif_connection_add ex_crc (fun _ _ => 0) 30 s 0 9 1 lp 2 rp 0 4096 8192 4096 1000 5000 77 0 0 3.

Definition ex_to (lp rp : Z) : nbuf :=
  ex_nbuf ((ex_pkt 1000 5000 152 1000) <| ip_dest := 1 |> <| ip_src := 2 |> <| tcp_dest := lp |> <| tcp_src := rp |>).
Definition ex_find (s : nicif) (lp rp : Z) : list (option Z) :=
  fast_flows_packet_fss ex_crc (fun _ _ => 0) (flowht s) (flowst s) [ex_to lp rp].

Lemma nicif_connection_add_correct_witness : exists s',
  ex_add (ex_nicif 3) 80 4000 = Done (Some 0, s') /\ ex_find s' 80 4000 = [Some 0] /\ fs_tx_next_seq (flowst s' 0) = 5000.
Proof.
  destruct (nicif_connection_add_correct ex_crc (fun _ _ => 0) ex_crc_nonneg 30 (ex_nicif 3) (fun _ => None) [0; 1; 2]
    0 9 1 80 2 4000 0 4096 8192 4096 1000 5000 77 0 0 3) as (r & s' & E & Hr & _ & _).
  - exact ex_nicif_inv.
  - exact (exact_slot_safe _ _ ex_exact).
  - done.
  - lia.
  - destruct r as [f|].
    + destruct Hr as (L' & HL & _ & Hf & Hfs & _). injection HL as <- <-. exists s'. split; [exact E|].
      split; [by apply Hf|]. by rewrite Hfs.
    + destruct Hr as (_ & _ & [|H]); [done|]. destruct H. by exists 0.
Defined.

(** The first connection, registered. *)
Definition ex_flow : nicif := match ex_add (ex_nicif 3) 80 4000 with Done (_, s) => s | _ => ex_nicif 3 end.

Lemma ex_flow_ok : nicif_inv ex_crc (fun _ _ => 0) ex_flow (<[0 := Some 80]> (fun _ => None)) [1; 2].
Proof.
  assert (E : flow_hash ex_crc (fun _ _ => 0) (mk_key 1 2 80 4000) = 80) by reflexivity.
  unfold ex_flow. rewrite <-E.
  refine (nicif_inv_new ex_crc (fun _ _ => 0) ex_crc_nonneg (ex_nicif 3) ((ex_nicif 3) <| ni_ids := _ |>) _ [1; 2] 0 (mk_key 1 2 80 4000) _ 80 0 ex_nicif_inv _ _ _ _ _ _ _ _ _ _); try done.
  all: try reflexivity.
  constructor; cbn.
  - by repeat split.
  - repeat constructor; set_solver.
  - intros f Hf. assert (f = 1 \/ f = 2) as [->| ->] by set_solver; (split; [unfold FLEXNIC_PL_FLOWST_NUM; lia|reflexivity]).
Qed.

Lemma nicif_connection_disable_correct_witness :
  ex_find ex_flow 80 4000 = [Some 0] /\
  (let '(r, s') := nicif_connection_disable ex_crc (fun _ _ => 0) ex_flow 0 in
   ex_find s' 80 4000 = [None] /\ nicif_inv ex_crc (fun _ _ => 0) (nicif_connection_free s' 0) (<[0 := None]> (<[0 := Some 80]> (fun _ => None))) [0; 1; 2]).
Proof.
  split; [by vm_compute|].
  pose proof (nicif_connection_disable_correct ex_crc (fun _ _ => 0) ex_crc_nonneg ex_flow _ _ 0 80 ex_flow_ok eq_refl) as H.
  cbv zeta in H. destruct (nicif_connection_disable _ _ ex_flow 0) as [r s']. destruct H as (_ & _ & Hi & _ & Hn & _).
  split; [by apply Hn|exact Hi].
Defined.

Lemma new_flowst_correct_witness :
  flow_inv SHM zeros (new_flowst ex_fs 0 9 1 80 2 4000 (Z.lor 0 FLEXNIC_PL_FLOWST_ECN) 4096 8192 4096 1000 5000 77 0 3) zeros zeros 0 5000 0.
Proof.
  apply (new_flowst_correct SHM zeros ex_fs 0 9 1 80 2 4000 0 4096 8192 4096 1000 5000 77 4 0 3); try (cbn; lia); by vm_compute.
Defined.

(** ** Defects *)

Fixpoint ex_adds (s : nicif) (l : list (Z * Z)) : outcome nicif :=
  match l with
  | [] => Done s
  | (lp, rp) :: l => '(_, s) ← ex_add s lp rp; ex_adds s l
  end.

Definition ex_ports : list (Z * Z) := [(0, 1); (1, 2); (2, 3); (3, 4); (0, 5); (4, 6); (5, 7); (3, 8)].

(** An entry that [flow_slot_alloc] moves keeps the distance that was stored for its
    old place.  When it is moved again, it can be moved out of reach of a lookup: the
    second of these connections is lost when the last one is added, although it is still
    registered. *)
Theorem flow_slot_alloc_loses_flow :
  match ex_adds (ex_nicif 9) (firstn 7 ex_ports) with
  | Done s =>
    ex_find s 1 2 = [Some 1] /\
    match ex_add s 3 8 with
    | Done (Some 7, s') => ex_find s' 1 2 = [None] /\ flow_matches (flowst s' 1) (nb_pkt (ex_to 1 2)) = true
    | _ => False
    end
  | _ => False
  end.
Proof. vm_compute. by repeat split. Qed.

(** [nicif_connection_add] does not reset the out-of-order interval.  When the flow id
    was used before by a connection that ended with a gap, the bytes behind the gap are
    taken for received bytes of the new connection: a segment of 100 bytes advances the
    stream by 150. *)
Theorem connection_add_keeps_ooo :
  let old := ex_fs <| fs_rx_ooo_start := 1100 |> <| fs_rx_ooo_len := 50 |> in
  let fs := new_flowst old 0 9 167772161 80 167772162 4000 0 4096 8192 4096 1000 5000 77 0 3 in
  fast_packet (ex_pkt 1000 5000 152 1000) fs 100 /\
  match fast_flows_packet SHM true no_cksum no_cksum (ex_ctx fs zeros) (ex_nbuf (ex_pkt 1000 5000 152 1000)) 5 0 9 with
  | Done (_, c) => fs_rx_next_seq (c_flowst c 5) = 1150 /\ fs_rx_avail (c_flowst c 5) = 3946
  | _ => False
  end.
Proof.
  split; [|by vm_compute]. constructor; try exact ex_octets; try reflexivity; cbn; lia.
Qed.
End NicifProps.
