(* ===== verification/Conn.v ===== *)
(** * Connections of the slow path

    [struct connection] of [tas/slow/internal.h] and the configuration.  The links of the
    lists a connection is on are not fields here: the components that thread the lists
    keep them as functions on the addresses of connections. *)
From S2P Require Import Prelude.

Module Conn.

(** [enum connection_status]. *)
Inductive connection_status : Type :=
  | CONN_SYN_WAIT | CONN_ARP_PENDING | CONN_SYN_SENT | CONN_REG_SYNACK | CONN_OPEN | CONN_CLOSED | CONN_FAILED.
#[export] Instance connection_status_eq_dec : EqDecision connection_status.
Proof. solve_decision. Defined.

(** [enum config_cc_algorithm]; any other value is [CC_OTHER]. *)
Inductive cc_algorithm : Type :=
  | CONFIG_CC_DCTCP_WIN | CONFIG_CC_DCTCP_RATE | CONFIG_CC_TIMELY | CONFIG_CC_CONST_RATE | CC_OTHER.

(** [struct configuration], the part that congestion control and TCP read. *)
Record configuration : Type := mk_config {
  tcp_rxbuf_len : Z;
  tcp_txbuf_len : Z;
  tcp_rtt_init : Z;
  tcp_link_bw : Z;
  tcp_handshake_to : Z;
  tcp_handshake_retries : Z;
  algorithm : cc_algorithm;
  cc_control_granularity : Z;
  cc_control_interval : Z;
  cc_rexmit_ints : Z;
  cc_dctcp_weight : Z;
  cc_dctcp_init : Z;
  cc_dctcp_step : Z;
  cc_dctcp_mimd : Z;
  cc_dctcp_min : Z;
  cc_dctcp_minpkts : Z;
  cc_const_rate : Z;
  cc_timely_tlow : Z;
  cc_timely_thigh : Z;
  cc_timely_step : Z;
  cc_timely_init : Z;
  cc_timely_alpha : Z;
  cc_timely_beta : Z;
  cc_timely_min_rtt : Z;
  cc_timely_min_rate : Z
}.

(** [struct connection_cc_dctcp_win]. *)
Record dctcp_win : Type := mk_dctcp_win { dw_ecn_rate : Z; window : Z; dw_slowstart : bool }.
#[export] Instance eta_dctcp_win : Eta dctcp_win := fun r => mk_dctcp_win (dw_ecn_rate r) (window r) (dw_slowstart r).

(** [struct connection_cc_dctcp_rate]. *)
Record dctcp_rate : Type := mk_dctcp_rate {
  unproc_acks : Z; unproc_ackb : Z; unproc_ecnb : Z; unproc_drops : Z;
  dr_ecn_rate : Z; dr_act_rate : Z; dr_slowstart : bool
}.
#[export] Instance eta_dctcp_rate : Eta dctcp_rate := fun r =>
  mk_dctcp_rate (unproc_acks r) (unproc_ackb r) (unproc_ecnb r) (unproc_drops r) (dr_ecn_rate r) (dr_act_rate r)
    (dr_slowstart r).

(** [struct connection_cc_timely]. *)
Record timely : Type := mk_timely {
  rtt_prev : Z; rtt_diff : Z; hai_cnt : Z; ti_act_rate : Z; ti_last_ts : Z; ti_slowstart : bool
}.
#[export] Instance eta_timely : Eta timely := fun r =>
  mk_timely (rtt_prev r) (rtt_diff r) (hai_cnt r) (ti_act_rate r) (ti_last_ts r) (ti_slowstart r).

(** [struct connection].  The completion [comp], the timeout [to] and the MAC address
    [remote_mac], whose addresses are passed to ARP and to the timers, are kept by those
    components; buffers are offsets in the shared memory.  The members of the union [cc] are separate fields: the
    configured algorithm never changes, so only one of them is used. *)
Record connection : Type := mk_connection {
  opaque : Z; ctx : Z; db_id : Z;
  rx_handle : Z; tx_handle : Z; rx_buf : Z; tx_buf : Z; rx_len : Z; tx_len : Z;
  remote_ip : Z; local_ip : Z; remote_port : Z; local_port : Z;
  status : connection_status; remote_seq : Z; local_seq : Z; syn_ts : Z;
  timeout : Z; to_attempts : Z; to_armed : bool;
  cc_last_ts : Z; cc_rtt : Z; cc_last_drops : Z; cc_last_acks : Z; cc_last_ackb : Z; cc_last_ecnb : Z;
  cc_rate : Z; cc_rexmits : Z;
  cc_win : dctcp_win; cc_drate : dctcp_rate; cc_timely : timely;
  cnt_tx_pending : Z; ts_tx_pending : Z;
  flow_id : Z; fn_core : Z; flags : Z; flow_group : Z
}.
#[export] Instance eta_connection : Eta connection := fun r =>
  mk_connection (opaque r) (ctx r) (db_id r) (rx_handle r) (tx_handle r) (rx_buf r) (tx_buf r) (rx_len r) (tx_len r)
    (remote_ip r) (local_ip r) (remote_port r) (local_port r) (status r) (remote_seq r) (local_seq r)
    (syn_ts r) (timeout r) (to_attempts r) (to_armed r) (cc_last_ts r) (cc_rtt r) (cc_last_drops r) (cc_last_acks r)
    (cc_last_ackb r) (cc_last_ecnb r) (cc_rate r) (cc_rexmits r) (cc_win r) (cc_drate r) (cc_timely r)
    (cnt_tx_pending r) (ts_tx_pending r) (flow_id r) (fn_core r) (flags r) (flow_group r).

(** [struct kernel_statistics]. *)
Record kernel_statistics : Type := mk_kstats { k_drops : Z; k_rexmit : Z; k_ecn_marked : Z; k_acks : Z }.
#[export] Instance eta_kstats : Eta kernel_statistics := fun r =>
  mk_kstats (k_drops r) (k_rexmit r) (k_ecn_marked r) (k_acks r).

End Conn.
