(* ===== verification/Cc.v ===== *)
(** * Congestion control ([tas/slow/cc.c])

    The control loop over the list of connections, and the four algorithms.  A division by
    zero stops the process, as a failed assertion does: both are [Aborted]. *)
From S2P Require Import Prelude Memif Conn Nicif.

Module Cc.
Import Conn Nicif.

Definition NULL : Z := 0.
Definition CONF_MSS : Z := 1400.

(** [a / b] on unsigned integers. *)
Definition div_ (a b : Z) : outcome Z := if b =? 0 then Aborted else Done (a / b).

Section Cc.
Context (config : configuration).

(** ** The algorithms *)

Definition window_to_rate (window rtt : Z) : outcome Z :=
  t ← div_ (window * 8 * 1000) (tcp_link_bw config);
  let time := t / 1000 in
  let time := if time <? u32 (rtt * 1000) then u32 (rtt * 1000) else time in
  assert_ (negb (time =? 0));;
  let rate := u64 (window * 8 * 1000000) / time in
  Done (if UINT32_MAX <? rate then UINT32_MAX else rate).

(** The rate of marked bytes: the new rate from the bytes of this interval, and the
    weighted average. *)
Definition ecn_ewma (ecn_rate c_ecnb c_ackb : Z) : Z :=
  let r := (c_ecnb * UINT32_MAX) / c_ackb in
  u32 (u64 (r * cc_dctcp_weight config + ecn_rate * (UINT32_MAX - cc_dctcp_weight config)) / UINT32_MAX).

(** [v] reduced by half of the rate of marked bytes. *)
Definition ecn_reduce (v ecn_rate : Z) : Z := u32 ((v * (UINT32_MAX - ecn_rate / 2)) / UINT32_MAX).

(** *** Window-based DCTCP *)

Definition dctcp_win_init (c : connection) : outcome connection :=
  let w := (cc_win c) <| window := 2 * CONF_MSS |> in
  rate ← window_to_rate (window w) (tcp_rtt_init config);
  Done (c <| cc_rate := rate |> <| cc_win := w <| dw_ecn_rate := 0 |> <| dw_slowstart := true |> |>).

(** Congestion avoidance: the new window; the statistics are changed as well. *)
Definition win_avoid (c : connection) (cc : dctcp_win) (win : Z) (st : stats) : outcome (Z * dctcp_win * stats) :=
  if (0 <? c_drops st) || (0 <? cc_rexmits c) then Done (win / 2, cc, st)
  else
    let '(cc, st) :=
      if 0 <? c_ackb st then
        let st := st <| c_ecnb := if c_ecnb st <=? c_ackb st then c_ecnb st else c_ackb st |> in
        (cc <| dw_ecn_rate := ecn_ewma (dw_ecn_rate cc) (c_ecnb st) (c_ackb st) |>, st)
      else (cc, st) in
    if 0 <? c_ecnb st then Done (ecn_reduce win (dw_ecn_rate cc), cc, st)
    else
      assert_ (negb (win =? 0));;
      let incr := (c_ackb st * CONF_MSS) / win in
      Done (if win <? u32 (win + incr) then u32 (win + incr) else win, cc, st).

(** The window is at least a segment and at most the send buffer. *)
Definition win_clamp (c : connection) (win : Z) : Z :=
  let win := if win <? CONF_MSS then CONF_MSS else win in
  if tx_len c <? win then tx_len c else win.

Definition dctcp_win_update (c : connection) (st : stats) : outcome (connection * stats) :=
  let cc := cc_win c in
  let win := window cc in
  assert_ (CONF_MSS <=? win);;
  let rtt := if st_rtt st =? 0 then tcp_rtt_init config else st_rtt st in
  (* slow start *)
  let '(win, cc) :=
    if dw_slowstart cc then
      if (c_drops st =? 0) && (c_ecnb st =? 0) && (cc_rexmits c =? 0)
      then (if win <? u32 (win + c_ackb st) then u32 (win + c_ackb st) else win, cc)
      else (win, cc <| dw_slowstart := false |>)
    else (win, cc) in
  (* congestion avoidance *)
  '(win, cc, st) ← (if dw_slowstart cc then Done (win, cc, st) else win_avoid c cc win st);
  let win := win_clamp c win in
  rate ← window_to_rate win rtt;
  assert_ (CONF_MSS <=? win);;
  Done (c <| cc_rtt := rtt |> <| cc_rate := rate |> <| cc_win := cc <| window := win |> |> <| cc_rexmits := 0 |>, st).

(** *** Rate-based DCTCP *)

Definition dctcp_rate_init (c : connection) : connection :=
  c <| cc_rate := cc_dctcp_init config |>
    <| cc_drate := mk_dctcp_rate 0 0 0 0 0 (dr_act_rate (cc_drate c)) true |>.

(** The rate since [last_ts], and its average with [avg]. *)
Definition actual_rate (avg c_ackb cur_ts last_ts : Z) : outcome (Z * Z) :=
  r ← (if negb (last_ts =? 0) then div_ (u32 (c_ackb * 8 * 1000)) (u32 (cur_ts - last_ts)) else Done 0);
  let avg := u32 (7 * avg + r) / 8 in
  Done (avg, if avg <=? r then r else avg).

(** The new rate from the actual one: slow start and congestion avoidance. *)
Definition rate_adjust (c : connection) (cc : dctcp_rate) (ecnb ackb drops act_rate : Z) : Z * dctcp_rate :=
  let rate := cc_rate c in
  let rate := if act_rate * 12 / 10 <? rate then u32 (act_rate * 12 / 10) else rate in
  (* slow start *)
  let '(rate, cc) :=
    if dr_slowstart cc then
      if (drops =? 0) && (ecnb =? 0) && (cc_rexmits c =? 0)
      then (if rate <=? u32 (rate * 2) then u32 (rate * 2) else UINT32_MAX, cc)
      else (rate, cc <| dr_slowstart := false |>)
    else (rate, cc) in
  (* congestion avoidance *)
  let '(rate, cc) :=
    if dr_slowstart cc then (rate, cc)
    else if (0 <? drops) || (0 <? cc_rexmits c) then (rate / 2, cc)
    else
      let '(ecnb, cc) :=
        if 0 <? ackb then
          let ecnb := if ecnb <=? ackb then ecnb else ackb in
          (ecnb, cc <| dr_ecn_rate := ecn_ewma (dr_ecn_rate cc) ecnb ackb |>)
        else (ecnb, cc) in
      if 0 <? ecnb then (ecn_reduce rate (dr_ecn_rate cc), cc)
      else if cc_dctcp_mimd config =? 0 then (u32 (rate + cc_dctcp_step config), cc)
      else (u32 (rate + (rate * cc_dctcp_mimd config) / UINT32_MAX), cc) in
  (if rate <? cc_dctcp_min config then cc_dctcp_min config else rate, cc).

Definition dctcp_rate_update (c : connection) (st : stats) (cur_ts : Z) : outcome connection :=
  let cc := cc_drate c in
  let rtt := if st_rtt st =? 0 then tcp_rtt_init config else st_rtt st in
  let c := c <| cc_rtt := rtt |> in
  let ecnb := u32 (unproc_ecnb cc + c_ecnb st) in
  let acks := u32 (unproc_acks cc + c_acks st) in
  let ackb := u32 (unproc_ackb cc + c_ackb st) in
  let drops := u32 (unproc_drops cc + c_drops st) in
  if acks <? cc_dctcp_minpkts config
  then Done (c <| cc_drate := cc <| unproc_ecnb := ecnb |> <| unproc_acks := acks |> <| unproc_ackb := ackb |>
                                 <| unproc_drops := drops |> |>)
  else
  let cc := cc <| unproc_ecnb := 0 |> <| unproc_acks := 0 |> <| unproc_ackb := 0 |> <| unproc_drops := 0 |> in
  '(avg, act_rate) ← actual_rate (dr_act_rate cc) ackb cur_ts (cc_last_ts c);
  let '(rate, cc) := rate_adjust c (cc <| dr_act_rate := avg |>) ecnb ackb drops act_rate in
  Done (c <| cc_drate := cc |> <| cc_rate := rate |> <| cc_rexmits := 0 |>).

(** *** TIMELY *)

Definition timely_init (c : connection) : connection :=
  c <| cc_rate := cc_timely_init config |> <| cc_timely := mk_timely 0 0 0 (ti_act_rate (cc_timely c)) 0 true |>.

(** The gradient of the round trip time: the averaged difference, and the normalized
    gradient. *)
Definition rtt_gradient (cc : timely) (new_rtt : Z) : outcome (Z * Z) :=
  let new_rtt_diff := s32 (new_rtt - rtt_prev cc) in
  let factor := cc_timely_alpha config / 2 in
  let x := s64 ((INT32_MAX - factor) * rtt_diff cc + factor * new_rtt_diff) in
  let d := s32 (Z.quot x INT32_MAX) in
  if cc_timely_min_rtt config =? 0 then Aborted
  else Done (d, Z.quot (d * INT16_MAX) (cc_timely_min_rtt config)).

(** The new rate for a round trip time above [cc_timely_thigh]. *)
Definition rate_above (rate new_rtt : Z) : Z :=
  let d := u32 ((UINT32_MAX * cc_timely_thigh config) / new_rtt) in
  let b := u32 (UINT32_MAX - d) in
  let a := u32 ((cc_timely_beta config * b) / UINT32_MAX) in
  u32 (u64 (rate * (UINT32_MAX - a)) / UINT32_MAX).

(** The new rate for a positive gradient. *)
Definition rate_gradient (rate gradient : Z) : Z :=
  let a := s64 ((cc_timely_beta config / 2) * gradient) in
  let b := Z.quot a INT16_MAX in
  let d := if b <=? INT32_MAX then s64 (INT32_MAX - b) else 0 in
  let e := s64 (rate * d) in
  u32 (Z.quot e INT32_MAX).

(** The new rate by the zone of the round trip time, and at least the minimal rate. *)
Definition timely_rate (cc : timely) (rate new_rtt gradient : Z) : Z * timely :=
  let orig_rate := rate in
  let '(rate, cc) :=
    if ti_slowstart cc then (u32 (rate * 2), cc)
    else if new_rtt <? cc_timely_tlow config then (u32 (rate + cc_timely_step config), cc <| hai_cnt := 0 |>)
    else if cc_timely_thigh config <? new_rtt then (rate_above rate new_rtt, cc <| hai_cnt := 0 |>)
    else if gradient <=? 0 then
      let cc := cc <| hai_cnt := u32 (hai_cnt cc + 1) |> in
      if 5 <=? hai_cnt cc
      then (u32 (rate + u32 (cc_timely_step config * 5)), cc <| hai_cnt := u32 (hai_cnt cc - 1) |>)
      else (u32 (rate + cc_timely_step config), cc)
    else (rate_gradient rate gradient, cc <| hai_cnt := 0 |>) in
  let rate := if rate <? orig_rate / 2 then orig_rate / 2 else rate in
  (if rate <? cc_timely_min_rate config then cc_timely_min_rate config else rate, cc).

Definition timely_update (c : connection) (st : stats) (cur_ts : Z) : outcome connection :=
  let cc := cc_timely c in
  let new_rtt := st_rtt st in
  '(avg, act_rate) ← actual_rate (ti_act_rate cc) (c_ackb st) cur_ts (ti_last_ts cc);
  let cc := cc <| ti_act_rate := avg |> in
  if new_rtt =? 0 then Done (c <| cc_timely := cc |>) else
  let cc :=
    if ti_slowstart cc && (u32 (cc_timely_tlow config + cc_timely_thigh config) / 2 <? new_rtt)
    then cc <| ti_slowstart := false |> else cc in
  let rate := cc_rate c in
  let rate := if negb (ti_slowstart cc) && (act_rate * 12 / 10 <? rate) then u32 (act_rate * 12 / 10) else rate in
  '(cc, gradient) ←
    (if negb (rtt_prev cc =? 0) then
       '(d, g) ← rtt_gradient cc new_rtt;
       Done (cc <| rtt_diff := d |>, g)
     else Done (cc, 0));
  let '(rate, cc) := timely_rate (cc <| rtt_prev := new_rtt |>) rate new_rtt gradient in
  Done (c <| cc_rate := rate |> <| cc_rtt := st_rtt st |> <| cc_timely := cc <| ti_last_ts := cur_ts |> |>
          <| cc_rexmits := 0 |>).

(** *** Constant rate *)

Definition const_rate_init (c : connection) : connection := c <| cc_rate := cc_const_rate config |>.
Definition const_rate_update (c : connection) (st : stats) : connection :=
  c <| cc_rtt := if negb (st_rtt st =? 0) then st_rtt st else tcp_rtt_init config |> <| cc_rexmits := 0 |>.

(** *** The configured algorithm *)

Definition cc_algo_init (c : connection) : outcome connection :=
  match algorithm config with
  | CONFIG_CC_DCTCP_WIN => dctcp_win_init c
  | CONFIG_CC_DCTCP_RATE => Done (dctcp_rate_init c)
  | CONFIG_CC_TIMELY => Done (timely_init c)
  | CONFIG_CC_CONST_RATE => Done (const_rate_init c)
  | CC_OTHER => Aborted
  end.

Definition cc_algo_update (c : connection) (st : stats) (cur_ts : Z) : outcome (connection * stats) :=
  match algorithm config with
  | CONFIG_CC_DCTCP_WIN => dctcp_win_update c st
  | CONFIG_CC_DCTCP_RATE => c ← dctcp_rate_update c st cur_ts; Done (c, st)
  | CONFIG_CC_TIMELY => c ← timely_update c st cur_ts; Done (c, st)
  | CONFIG_CC_CONST_RATE => Done (const_rate_update c st, st)
  | CC_OTHER => Aborted
  end.

(** ** The control loop *)

(** The static variables of [cc.c], the links [cc_next], the connections, the statistics
    and the interface to the fast path. *)
Record cc_state : Type := mk_cc {
  cc_conns : Z;
  next_conn : Z;
  last_ts : Z;
  cc_next : Z -> Z;
  conns : Z -> connection;
  kstats : kernel_statistics;
  nic : nicif
}.
#[export] Instance eta_cc : Eta cc_state := fun r =>
  mk_cc (cc_conns r) (next_conn r) (last_ts r) (cc_next r) (conns r) (kstats r) (nic r).

(** The length of the receive queues between the cores and the slow path, and the
    steering of flow groups, which [nicif_connection_retransmit] reads. *)
Context (rxq_len : Z) (flow_group_steering : Z -> Z).

Definition set_conn (s : cc_state) (p : Z) (c : connection) : cc_state := s <| conns := <[p := c]> (conns s) |>.

Definition issue_retransmits (s : cc_state) (p : Z) (st : stats) (cur_ts : Z) : cc_state :=
  let c := conns s p in
  let rtt := if negb (st_rtt st =? 0) then st_rtt st else tcp_rtt_init config in
  if txp st && (c_ackb st =? 0) then
    let n := cnt_tx_pending c in
    let c := c <| cnt_tx_pending := u32 (n + 1) |> in
    if n =? 0 then set_conn s p (c <| ts_tx_pending := cur_ts |>)
    else if (cc_rexmit_ints config <=? cnt_tx_pending c) && (u32 (2 * rtt) <=? u32 (cur_ts - ts_tx_pending c)) then
      let '(ok, n) := nicif_connection_retransmit rxq_len flow_group_steering (nic s) (flow_id c) (flow_group c) in
      let s := s <| nic := n |> in
      if (ok : bool)
      then (set_conn s p (c <| cnt_tx_pending := 0 |> <| cc_rexmits := u32 (cc_rexmits c + 1) |>))
             <| kstats := (kstats s) <| k_rexmit := u64 (k_rexmit (kstats s) + 1) |> |>
      else set_conn s p c
    else set_conn s p c
  else set_conn s p (c <| cnt_tx_pending := 0 |>).

(** The statistics since the last control interval. *)
Definition stats_since (c : connection) (st : stats) : stats * connection :=
  (st <| c_drops := u16 (c_drops st - cc_last_drops c) |> <| c_acks := u16 (c_acks st - cc_last_acks c) |>
      <| c_ackb := u32 (c_ackb st - cc_last_ackb c) |> <| c_ecnb := u32 (c_ecnb st - cc_last_ecnb c) |>,
   c <| cc_last_drops := c_drops st |> <| cc_last_acks := c_acks st |> <| cc_last_ackb := c_ackb st |>
     <| cc_last_ecnb := c_ecnb st |>).

(** The body of the loop of [cc_poll] for the connection [p]. *)
Definition cc_control (s : cc_state) (p cur_ts : Z) : outcome cc_state :=
  let c := conns s p in
  if negb (bool_decide (status c = CONN_OPEN)) then Done s
  else if u32 (cur_ts - cc_last_ts c) <? u32 (cc_rtt c * cc_control_interval config) then Done s
  else
    match nicif_connection_stats (nic s) (flow_id c) with
    | None => Aborted
    | Some st =>
      let '(st, c) := stats_since c st in
      let s := s <| kstats := (kstats s) <| k_drops := u64 (k_drops (kstats s) + c_drops st) |>
                                         <| k_ecn_marked := u64 (k_ecn_marked (kstats s) + c_ecnb st) |>
                                         <| k_acks := u64 (k_acks (kstats s) + c_ackb st) |> |> in
      '(c, st) ← cc_algo_update c st cur_ts;
      let s := issue_retransmits (set_conn s p c) p st cur_ts in
      let c := conns s p in
      let s := s <| nic := snd (nicif_connection_setrate (nic s) (flow_id c) (cc_rate c)) |> in
      Done (set_conn s p (c <| cc_last_ts := cur_ts |>))
    end.

(** The successor on the list, which is taken as a ring. *)
Definition ring_next (s : cc_state) (p : Z) : Z :=
  if negb (cc_next s p =? NULL) then cc_next s p else cc_conns s.

Definition CC_POLL_MAX : nat := 128.

(** The loop of [cc_poll], with [k] rounds left of [CC_POLL_MAX]; [n] counts the rounds. *)
Fixpoint cc_poll_loop (k : nat) (s : cc_state) (c c_first n cur_ts : Z) : outcome (Z * Z * cc_state) :=
  match k with
  | O => Done (n, c, s)
  | S k =>
    if (n =? 0) || negb (c =? c_first) then
      s ← cc_control s c cur_ts;
      cc_poll_loop k s (ring_next s c) c_first (n + 1) cur_ts
    else Done (n, c, s)
  end.

(** [cc_poll]: the number of connections visited. *)
Definition cc_poll (s : cc_state) (cur_ts : Z) : outcome (Z * cc_state) :=
  let c := if negb (next_conn s =? NULL) then next_conn s else cc_conns s in
  if c =? NULL then Done (0, s <| last_ts := cur_ts |>)
  else
    '(n, c, s) ← cc_poll_loop CC_POLL_MAX s c c 0 cur_ts;
    Done (n, s <| next_conn := c |> <| last_ts := cur_ts |>).

(** The loop of [cc_next_ts]. *)
Fixpoint next_ts_loop (fuel : nat) (s : cc_state) (c ts cur_ts : Z) : outcome Z :=
  match fuel with
  | O => NoFuel
  | S fuel =>
    if c =? NULL then Done ts
    else
      let k := conns s c in
      let next_ts := s32 (u32 (u32 (cc_rtt k * cc_control_interval config) - u32 (cur_ts - cc_last_ts k))) in
      let ts :=
        if negb (bool_decide (status k = CONN_OPEN)) then ts
        else if 0 <=? next_ts then (if next_ts <? ts then next_ts else ts) else 0 in
      next_ts_loop fuel s (cc_next s c) ts cur_ts
  end.

Definition cc_next_ts (fuel : nat) (s : cc_state) (cur_ts : Z) : outcome Z :=
  assert_ (last_ts s <=? cur_ts);;
  ts ← next_ts_loop fuel s (cc_conns s) UINT32_MAX cur_ts;
  let g := u32 (cc_control_granularity config - u32 (cur_ts - last_ts s)) in
  Done (if ts =? UINT32_MAX then UINT32_MAX else if ts <? g then g else ts).

(** ** Adding and removing connections *)

Definition cc_conn_init (s : cc_state) (conn cur_ts : Z) : outcome cc_state :=
  let s := s <| cc_next := <[conn := cc_conns s]> (cc_next s) |> <| cc_conns := conn |> in
  let c := (conns s conn) <| cc_last_ts := cur_ts |> <| cc_rtt := tcp_rtt_init config |> <| cc_rexmits := 0 |> in
  c ← cc_algo_init c;
  Done (set_conn s conn c).

(** The search for the predecessor in [cc_conn_remove]. *)
Fixpoint find_cc_pred (fuel : nat) (s : cc_state) (cp conn : Z) : outcome Z :=
  match fuel with
  | O => NoFuel
  | S fuel =>
    if cp =? NULL then Aborted
    else if cc_next s cp =? conn then Done cp
    else find_cc_pred fuel s (cc_next s cp) conn
  end.

Definition cc_conn_remove (fuel : nat) (s : cc_state) (conn : Z) : outcome cc_state :=
  let s := if next_conn s =? conn then s <| next_conn := cc_next s conn |> else s in
  if cc_conns s =? conn then Done (s <| cc_conns := cc_next s conn |>)
  else
    cp ← find_cc_pred fuel s (cc_conns s) conn;
    Done (s <| cc_next := <[cp := cc_next s conn]> (cc_next s) |>).

End Cc.
End Cc.
