(* ===== verification/CcSpec.v ===== *)
(** * Bounds of the congestion control algorithms

    Under a sane configuration no update aborts, the variables stay in range, and the rate
    and the window keep their bounds. *)
From S2P Require Import Prelude Memif Conn Nicif Cc.

Module CcSpec.
Import Conn Nicif Cc.

Lemma div_ok a b : b <> 0 -> div_ a b = Done (a / b).
Proof. intros H. unfold div_. by rewrite (proj2 (Z.eqb_neq b 0)). Qed.

(** A quotient of 64-bit numbers is a 32-bit number when the dividend is small enough. *)
Lemma s64_id x : - 9223372036854775808 <= x < 9223372036854775808 -> s64 x = x.
Proof. intros Hx. unfold s64. rewrite Z.mod_small; lia. Qed.

Lemma div_max_range x y : 0 <= x <= UINT32_MAX -> 0 <= y <= UINT32_MAX -> 0 <= (x * y) / UINT32_MAX <= x.
Proof.
  unfold UINT32_MAX. intros Hx Hy. split; [apply Z.div_pos; lia|]. apply Z.div_le_upper_bound; nia.
Qed.

(** The largest round trip time the fast path stores. *)
Definition MAX_RTT : Z := 100000.

(** The configuration, as it has to be for the algorithms to work. *)
Record config_ok (config : configuration) : Prop := {
  ok_bw : 0 < tcp_link_bw config <= 11200;
  ok_rtt : 0 < tcp_rtt_init config <= MAX_RTT;
  ok_interval : 0 < cc_control_interval config <= 20000;
  ok_ints : in32 (cc_rexmit_ints config);
  ok_weight : in32 (cc_dctcp_weight config);
  ok_dinit : in32 (cc_dctcp_init config);
  ok_step : in32 (cc_dctcp_step config);
  ok_mimd : in32 (cc_dctcp_mimd config);
  ok_dmin : in32 (cc_dctcp_min config);
  ok_const : in32 (cc_const_rate config);
  ok_tinit : in32 (cc_timely_init config);
  ok_tlow : in32 (cc_timely_tlow config);
  ok_thigh : in32 (cc_timely_thigh config);
  ok_tstep : in32 (cc_timely_step config);
  ok_alpha : in32 (cc_timely_alpha config);
  ok_beta : in32 (cc_timely_beta config);
  ok_min_rtt : 0 < cc_timely_min_rtt config < 4294967296;
  ok_tmin : in32 (cc_timely_min_rate config);
  ok_algo : algorithm config <> CC_OTHER
}.

(** The statistics of an interval. *)
Record stats_ok (st : stats) : Prop := {
  so_drops : in16 (c_drops st);
  so_acks : in16 (c_acks st);
  so_ackb : in32 (c_ackb st);
  so_ecnb : in32 (c_ecnb st);
  so_rtt : 0 <= st_rtt st <= MAX_RTT
}.

Section Algorithms.
Context (config : configuration) (Hc : config_ok config).

(** What every algorithm keeps of a connection. *)
Record conn_ok (c : connection) : Prop := {
  co_rate : in32 (cc_rate c);
  co_rtt : 0 < cc_rtt c <= MAX_RTT;
  co_rexmits : in32 (cc_rexmits c);
  co_win : algorithm config = CONFIG_CC_DCTCP_WIN ->
    CONF_MSS <= window (cc_win c) <= tx_len c /\ tx_len c < 4294967296 /\ in32 (dw_ecn_rate (cc_win c));
  co_drate : algorithm config = CONFIG_CC_DCTCP_RATE -> in32 (dr_ecn_rate (cc_drate c))
}.

Lemma window_to_rate_ok w rtt : CONF_MSS <= w < 4294967296 -> 0 < rtt <= MAX_RTT ->
  exists rate, window_to_rate config w rtt = Done rate /\ 0 <= rate <= UINT32_MAX /\
    (* at most one window per round trip time *)
    rate * (rtt * 1000) <= w * 8 * 1000000.
Proof.
  intros Hw Hr. pose proof (ok_bw _ Hc) as Hb. unfold window_to_rate, CONF_MSS, MAX_RTT, UINT32_MAX in *.
  rewrite div_ok by lia. cbn [mbind outcome_bind]. rewrite (u32_small (rtt * 1000)) by lia.
  set (t := w * 8 * 1000 / tcp_link_bw config / 1000).
  set (time := if t <? rtt * 1000 then rtt * 1000 else t).
  assert (Ht : rtt * 1000 <= time) by (unfold time; destruct (Z.ltb_spec t (rtt * 1000)); lia).
  rewrite (proj2 (Z.eqb_neq time 0)) by lia. cbn [negb assert_ mbind outcome_bind].
  rewrite u64_small by lia. assert (Hq : 0 <= w * 8 * 1000000 / time) by (apply Z.div_pos; lia).
  pose proof (Z.mul_div_le (w * 8 * 1000000) time ltac:(lia)).
  eexists. split; [reflexivity|]. destruct (Z.ltb_spec 4294967295 (w * 8 * 1000000 / time)); nia.
Qed.

Lemma ecn_ewma_range e b a : in32 (ecn_ewma config e b a).
Proof. apply u32_range. Qed.

Lemma ecn_reduce_range v e : in32 v -> in32 e -> 0 <= ecn_reduce v e <= v.
Proof.
  intros Hv He. unfold ecn_reduce. assert (0 <= e / 2 <= 2147483647) by (Z.div_mod_to_equations; lia).
  pose proof (div_max_range v (UINT32_MAX - e / 2)). rewrite u32_small; unfold UINT32_MAX in *; lia.
Qed.

(** The weighted average of the rate of marked bytes and the reduction by half of it,
    as numbers. *)
Definition ecn_average (old ecnb ackb : Z) : Z :=
  (Z.min ecnb ackb * UINT32_MAX / ackb * cc_dctcp_weight config +
   old * (UINT32_MAX - cc_dctcp_weight config)) / UINT32_MAX.
Definition ecn_cut (v ecn_rate : Z) : Z := v * (UINT32_MAX - ecn_rate / 2) / UINT32_MAX.

Lemma ecn_ewma_exact old ecnb ackb : in32 old -> 0 <= ecnb -> 0 < ackb ->
  ecn_ewma config old (if ecnb <=? ackb then ecnb else ackb) ackb = ecn_average old ecnb ackb.
Proof.
  intros Ho He Ha. pose proof (ok_weight _ Hc) as Hw. unfold ecn_ewma, ecn_average, UINT32_MAX.
  replace (if ecnb <=? ackb then ecnb else ackb) with (Z.min ecnb ackb) by (destruct (Z.leb_spec ecnb ackb); lia).
  set (m := Z.min ecnb ackb). assert (Hm : 0 <= m <= ackb) by lia. clearbody m.
  assert (Hr : 0 <= m * 4294967295 / ackb <= 4294967295).
  { split; [apply Z.div_pos; lia|]. apply Z.div_le_upper_bound; nia. }
  set (r := m * 4294967295 / ackb) in *. clearbody r. set (w := cc_dctcp_weight config) in *. clearbody w.
  assert (0 <= r * w + old * (4294967295 - w) <= 4294967295 * 4294967295) by nia.
  rewrite u64_small by lia. apply u32_small. split; [apply Z.div_pos; lia|].
  apply Z.le_lt_trans with 4294967295; [apply Z.div_le_upper_bound; lia|lia].
Qed.

Lemma ecn_reduce_exact v e : in32 v -> in32 e -> ecn_reduce v e = ecn_cut v e.
Proof.
  intros Hv He. unfold ecn_reduce, ecn_cut, UINT32_MAX. assert (0 <= e / 2 <= 2147483647) by (Z.div_mod_to_equations; lia).
  apply u32_small. split; [apply Z.div_pos; nia|]. apply Z.div_lt_upper_bound; nia.
Qed.

Lemma ecn_cut_mono v v' e : in32 e -> v <= v' -> ecn_cut v e <= ecn_cut v' e.
Proof.
  intros He Hv. unfold ecn_cut, UINT32_MAX. assert (0 <= e / 2 <= 2147483647) by (Z.div_mod_to_equations; lia).
  apply Z.div_le_mono; [lia|]. nia.
Qed.

(** What an update of a connection changes: nothing but the congestion control part. *)
Definition cc_frame (c c' : connection) : Prop :=
  c' = c <| cc_rtt := cc_rtt c' |> <| cc_rate := cc_rate c' |> <| cc_win := cc_win c' |> <| cc_drate := cc_drate c' |>
         <| cc_timely := cc_timely c' |> <| cc_rexmits := cc_rexmits c' |>.

Lemma cc_frame_id c : cc_frame c c.
Proof. by destruct c. Qed.

Lemma sel_rtt_ok st : stats_ok st -> 0 < (if st_rtt st =? 0 then tcp_rtt_init config else st_rtt st) <= MAX_RTT.
Proof.
  intros Hs. pose proof (so_rtt _ Hs). pose proof (ok_rtt _ Hc). destruct (Z.eqb_spec (st_rtt st) 0); lia.
Qed.

Lemma win_clamp_ok c w : CONF_MSS <= tx_len c -> win_clamp c w = Z.min (tx_len c) (Z.max CONF_MSS w).
Proof.
  unfold win_clamp. destruct (Z.ltb_spec w CONF_MSS); destruct (Z.ltb_spec (tx_len c) CONF_MSS); try lia;
    destruct (Z.ltb_spec (tx_len c) w); lia.
Qed.

(** The larger of a number and its sum with an increment, as the code computes it. *)
Lemma grow_ok w d : in32 w -> 0 <= d -> w <= (if w <? u32 (w + d) then u32 (w + d) else w) <= w + d.
Proof.
  intros Hw Hd. destruct (Z.ltb_spec w (u32 (w + d))); [|lia].
  split; [lia|]. unfold u32. apply Z.mod_le; lia.
Qed.

Lemma grow_exact w d : in32 w -> 0 <= d -> w + d < 4294967296 ->
  (if w <? u32 (w + d) then u32 (w + d) else w) = w + d.
Proof. intros Hw Hd Hs. rewrite u32_small by lia. destruct (Z.ltb_spec w (w + d)); lia. Qed.

(** Bytes were lost in the interval, as far as the sender can tell. *)
Definition lost (c : connection) (st : stats) : Prop := 0 < c_drops st \/ 0 < cc_rexmits c.

(** The rate of marked bytes after the interval; without acknowledgements it stays. *)
Definition marked_rate (old : Z) (st : stats) : Z :=
  if 0 <? c_ackb st then ecn_average old (c_ecnb st) (c_ackb st) else old.

Lemma win_avoid_ok c cc w st : stats_ok st -> CONF_MSS <= w < 4294967296 -> in32 (dw_ecn_rate cc) ->
  exists w' cc' st', win_avoid config c cc w st = Done (w', cc', st') /\ 0 <= w' <= w + c_ackb st /\
    in32 (dw_ecn_rate cc') /\ c_ackb st' = c_ackb st /\ st_rtt st' = st_rtt st /\ txp st' = txp st /\
    dw_slowstart cc' = dw_slowstart cc /\ (lost c st -> w' = w / 2) /\
    (~ lost c st -> 0 < c_ecnb st ->
      dw_ecn_rate cc' = marked_rate (dw_ecn_rate cc) st /\ w' = ecn_cut w (dw_ecn_rate cc')) /\
    (~ lost c st -> c_ecnb st = 0 -> w <= w' /\
      (w + c_ackb st * CONF_MSS / w < 4294967296 -> w' = w + c_ackb st * CONF_MSS / w)).
Proof.
  unfold lost, marked_rate. intros Hs Hw He. pose proof (so_ackb _ Hs) as Ha. pose proof (so_ecnb _ Hs) as Hb. unfold win_avoid, CONF_MSS in *.
  destruct ((0 <? c_drops st) || (0 <? cc_rexmits c)) eqn:Ed.
  { eexists _, _, _. split; [reflexivity|]. split; [Z.div_mod_to_equations; lia|].
    apply orb_true_iff in Ed as [?%Z.ltb_lt|?%Z.ltb_lt]; split_and!; try done; try lia; intros Hn; destruct Hn; auto. }
  assert (Hd : ~ (0 < c_drops st \/ 0 < cc_rexmits c)).
  { apply orb_false_iff in Ed as [?%Z.ltb_ge ?%Z.ltb_ge]. lia. }
  set (p := if 0 <? c_ackb st then _ else _).
  assert (Hp : exists cc1 st1, p = (cc1, st1) /\ in32 (dw_ecn_rate cc1) /\ c_ackb st1 = c_ackb st /\
    st_rtt st1 = st_rtt st /\ txp st1 = txp st /\ dw_slowstart cc1 = dw_slowstart cc /\ (0 < c_ecnb st1 <-> 0 < c_ecnb st) /\
    dw_ecn_rate cc1 = if 0 <? c_ackb st then ecn_average (dw_ecn_rate cc) (c_ecnb st) (c_ackb st) else dw_ecn_rate cc).
  { unfold p. destruct (Z.ltb_spec 0 (c_ackb st)); [|by eexists _, _]. eexists _, _. split; [reflexivity|].
    split; [apply ecn_ewma_range|]. split_and!; try done; cbn.
    - destruct (Z.leb_spec (c_ecnb st) (c_ackb st)); lia.
    - apply ecn_ewma_exact; try done; lia. }
  destruct Hp as (cc1 & st1 & -> & He1 & Ea & Er & Et & Ess & Hpos & Een). destruct (Z.ltb_spec 0 (c_ecnb st1)).
  - pose proof (ecn_reduce_range w (dw_ecn_rate cc1) ltac:(lia) He1). eexists _, _, _. split; [reflexivity|].
    rewrite ecn_reduce_exact in * by lia. rewrite Ea, Er, Et. split_and!; try done; try lia; tauto.
  - rewrite (proj2 (Z.eqb_neq w 0)) by lia. cbn [negb assert_ mbind outcome_bind]. rewrite Ea.
    assert (Hi : 0 <= c_ackb st * 1400 / w <= c_ackb st).
    { split; [apply Z.div_pos; lia|]. apply Z.div_le_upper_bound; nia. }
    pose proof (grow_ok w (c_ackb st * 1400 / w) ltac:(lia) ltac:(lia)).
    pose proof (grow_exact w (c_ackb st * 1400 / w) ltac:(lia) ltac:(lia)).
    eexists _, _, _. split; [reflexivity|]. split_and!; try done; try lia; tauto.
Qed.

(** How window-based DCTCP reacts: the window is halved on a loss, cut by half of the rate
    of marked bytes on congestion marks, and otherwise grows by what was acknowledged in
    slow start and by one segment for each window acknowledged after that; slow start
    ends with the first sign of congestion. *)
Definition win_reacts (c c' : connection) (st : stats) : Prop :=
  let w := window (cc_win c) in
  (lost c st -> window (cc_win c') = Z.max CONF_MSS (w / 2)) /\
  (~ lost c st -> 0 < c_ecnb st ->
    let e := marked_rate (dw_ecn_rate (cc_win c)) st in
    dw_ecn_rate (cc_win c') = e /\ window (cc_win c') = Z.max CONF_MSS (ecn_cut w e)) /\
  (~ lost c st -> c_ecnb st = 0 ->
    let w' := w + if dw_slowstart (cc_win c) then c_ackb st else c_ackb st * CONF_MSS / w in
    w <= window (cc_win c') /\ (w' < 4294967296 -> window (cc_win c') = Z.min (tx_len c) w')) /\
  dw_slowstart (cc_win c') = dw_slowstart (cc_win c) &&
    ((c_drops st =? 0) && (c_ecnb st =? 0) && (cc_rexmits c =? 0)).

(** Window-based DCTCP keeps the window between the segment size and the buffer, halves
    it on congestion, and does not grow it by more than what was acknowledged. *)
Lemma dctcp_win_update_ok c st : algorithm config = CONFIG_CC_DCTCP_WIN -> conn_ok c -> stats_ok st ->
  exists c' st', dctcp_win_update config c st = Done (c', st') /\ conn_ok c' /\ cc_frame c c' /\ cc_rexmits c' = 0 /\
    c_ackb st' = c_ackb st /\ st_rtt st' = st_rtt st /\ txp st' = txp st /\
    window (cc_win c') <= window (cc_win c) + c_ackb st /\
    cc_rate c' * (cc_rtt c' * 1000) <= window (cc_win c') * 8 * 1000000 /\
    win_reacts c c' st.
Proof.
  unfold win_reacts.
  intros Hal Hco Hs. assert (HM : CONF_MSS = 1400) by done. destruct (co_win _ Hco Hal) as (Hw & Ht & He). pose proof (so_ackb _ Hs) as Ha.
  unfold dctcp_win_update. rewrite (proj2 (Z.leb_le CONF_MSS _)) by lia. cbn [assert_ mbind outcome_bind].
  set (rtt := if st_rtt st =? 0 then _ else _). pose proof (sel_rtt_ok st Hs) as Hrtt. fold rtt in Hrtt. clearbody rtt.
  set (ss := if dw_slowstart (cc_win c) then _ else _).
  assert (Hss : exists w1 cc1, ss = (w1, cc1) /\ CONF_MSS <= w1 < 4294967296 /\
    window (cc_win c) <= w1 <= window (cc_win c) + c_ackb st /\
    dw_ecn_rate cc1 = dw_ecn_rate (cc_win c) /\
    dw_slowstart cc1 = dw_slowstart (cc_win c) && ((c_drops st =? 0) && (c_ecnb st =? 0) && (cc_rexmits c =? 0)) /\
    (dw_slowstart cc1 = false -> w1 = window (cc_win c)) /\
    (dw_slowstart cc1 = true -> window (cc_win c) + c_ackb st < 4294967296 -> w1 = window (cc_win c) + c_ackb st)).
  { pose proof (grow_ok (window (cc_win c)) (c_ackb st) ltac:(lia) ltac:(lia)) as Hg.
    pose proof (grow_exact (window (cc_win c)) (c_ackb st) ltac:(lia) ltac:(lia)) as Hx.
    unfold ss. destruct (dw_slowstart (cc_win c)) eqn:Es; cbn [andb].
    - destruct (_ && _) eqn:Ec; (eexists _, _; split; [reflexivity|]); split_and!; cbn; try done; try lia; try congruence.
      destruct (_ <? _); [apply u32_range|lia].
    - eexists _, _. split; [reflexivity|]. split_and!; cbn; try done; try lia; congruence. }
  destruct Hss as (w1 & cc1 & -> & Hw1 & Hg1 & He1 & Hs1 & Hs0 & Hst1).
  set (ca := if dw_slowstart cc1 then _ else _).
  assert (Hca : exists w2 cc2 st2, ca = Done (w2, cc2, st2) /\ 0 <= w2 <= window (cc_win c) + c_ackb st /\
    in32 (dw_ecn_rate cc2) /\ c_ackb st2 = c_ackb st /\ st_rtt st2 = st_rtt st /\ txp st2 = txp st /\
    dw_slowstart cc2 = dw_slowstart cc1 /\
    (lost c st -> w2 = window (cc_win c) / 2) /\
    (~ lost c st -> 0 < c_ecnb st -> dw_ecn_rate cc2 = marked_rate (dw_ecn_rate (cc_win c)) st /\
      w2 = ecn_cut (window (cc_win c)) (dw_ecn_rate cc2)) /\
    (~ lost c st -> c_ecnb st = 0 -> window (cc_win c) <= w2 /\
      let w' := window (cc_win c) +
        if dw_slowstart (cc_win c) then c_ackb st else c_ackb st * CONF_MSS / window (cc_win c) in
      (w' < 4294967296 -> w2 = w'))).
  { pose proof (so_drops _ Hs). pose proof (co_rexmits _ Hco).
    unfold ca. destruct (dw_slowstart cc1) eqn:Es1.
    - eexists _, _, _. split; [reflexivity|]. unfold CONF_MSS, lost in *. symmetry in Hs1.
      rewrite !andb_true_iff, !Z.eqb_eq in Hs1. destruct Hs1 as (-> & ? & ?).
      split_and!; try done; try lia.
    - rewrite (Hs0 eq_refl) in *.
      destruct (win_avoid_ok c cc1 (window (cc_win c)) st Hs Hw1 ltac:(by rewrite He1))
        as (w2 & cc2 & st2 & -> & ? & ? & ? & ? & ? & ? & ? & ? & Hgr).
      rewrite <-He1. eexists _, _, _. split; [reflexivity|]. split_and!; try done; try lia.
      { congruence. }
      intros Hl Hb. destruct (Hgr Hl Hb) as [? Hgr2]. split; [done|].
      destruct (dw_slowstart (cc_win c)); [|done]. exfalso. unfold lost in Hl. symmetry in Hs1. cbn in Hs1.
      rewrite Hb, !andb_false_iff, !Z.eqb_neq in Hs1. lia. }
  destruct Hca as (w2 & cc2 & st2 & -> & Hw2 & He2 & Ea & Er & Ex & Ess & Hh & Hm & Hgr). cbn [mbind outcome_bind].
  rewrite win_clamp_ok by lia. set (w3 := Z.min (tx_len c) (Z.max CONF_MSS w2)).
  assert (Hle3 : CONF_MSS <= w3 <= tx_len c) by (unfold w3; lia).
  destruct (window_to_rate_ok w3 rtt ltac:(lia) Hrtt) as (rate & -> & Hr & Hr2). cbn [mbind outcome_bind].
  rewrite (proj2 (Z.leb_le CONF_MSS w3)) by lia. cbn [assert_ mbind outcome_bind].
  eexists _, _. split; [reflexivity|]. split.
  { constructor; cbn; try done; try lia. unfold UINT32_MAX in Hr. lia. congruence. }
  split; [by destruct c|]. cbn. split_and!; try done; try (unfold w3; lia).
  - intros Hl. unfold w3. rewrite (Hh Hl). unfold CONF_MSS in *. Z.div_mod_to_equations. lia.
  - intros Hl Hb. destruct (Hm Hl Hb) as [E1 E2]. split; [done|]. unfold w3. rewrite <-E1.
    pose proof (ecn_reduce_range (window (cc_win c)) (dw_ecn_rate cc2) ltac:(lia) He2) as Hcut.
    rewrite ecn_reduce_exact in Hcut by lia. lia.
  - intros Hl Hb. destruct (Hgr Hl Hb) as [E1 E2]. split; [unfold w3; lia|]. intros Hlt.
    unfold w3. rewrite (E2 Hlt). unfold CONF_MSS in *. lia.
  - by rewrite Ess.
Qed.

(** ** Rates *)

Lemma actual_rate_ok avg a cur last : last = 0 \/ u32 (cur - last) <> 0 ->
  exists avg' r, actual_rate avg a cur last = Done (avg', r) /\ 0 <= avg' <= r /\ r <= UINT32_MAX.
Proof.
  intros Hl. unfold actual_rate.
  assert (H : exists r, (if negb (last =? 0) then div_ (u32 (a * 8 * 1000)) (u32 (cur - last)) else Done 0) = Done r /\ 0 <= r <= UINT32_MAX).
  { destruct (Z.eqb_spec last 0); cbn [negb]; [exists 0; split; [done|unfold UINT32_MAX; lia]|].
    rewrite div_ok by tauto. eexists. split; [reflexivity|].
    pose proof (u32_range (a * 8 * 1000)). pose proof (u32_range (cur - last)). unfold UINT32_MAX in *.
    split; [apply Z.div_pos; lia|]. apply Z.div_le_upper_bound; nia. }
  destruct H as (r & -> & Hr). cbn [mbind outcome_bind]. eexists _, _. split; [reflexivity|].
  pose proof (u32_range (7 * avg + r)). unfold UINT32_MAX in *.
  destruct (Z.leb_spec (u32 (7 * avg + r) / 8) r); Z.div_mod_to_equations; lia.
Qed.

(** The clamping to 1.2 times the actual rate. *)
Lemma clamp_rate_ok a r : 0 <= a -> in32 r -> 0 <= (if a * 12 / 10 <? r then u32 (a * 12 / 10) else r) <= r.
Proof.
  intros Ha Hr. assert (0 <= a * 12 / 10) by (apply Z.div_pos; lia).
  destruct (Z.ltb_spec (a * 12 / 10) r); [rewrite u32_small by lia|]; lia.
Qed.

Lemma rate_adjust_ok c cc ecnb ackb drops act : in32 (cc_rate c) -> in32 (dr_ecn_rate cc) -> 0 <= act ->
  0 <= drops -> 0 <= ecnb -> 0 <= cc_rexmits c ->
  exists rate cc', rate_adjust config c cc ecnb ackb drops act = (rate, cc') /\
    in32 rate /\ cc_dctcp_min config <= rate /\ in32 (dr_ecn_rate cc') /\
    (0 < drops \/ 0 < cc_rexmits c -> rate <= Z.max (cc_dctcp_min config) (cc_rate c / 2)) /\
    (~ (0 < drops \/ 0 < cc_rexmits c) -> 0 < ecnb ->
      dr_ecn_rate cc' = (if 0 <? ackb then ecn_average (dr_ecn_rate cc) ecnb ackb else dr_ecn_rate cc) /\
      rate <= Z.max (cc_dctcp_min config) (ecn_cut (cc_rate c) (dr_ecn_rate cc'))).
Proof.
  intros Hr He Ha Hd Hb Hx. pose proof (ok_dmin _ Hc) as Hm. unfold rate_adjust.
  set (r0 := if act * 12 / 10 <? cc_rate c then _ else _). pose proof (clamp_rate_ok act (cc_rate c) Ha Hr) as Hr0.
  fold r0 in Hr0. clearbody r0.
  set (ss := if dr_slowstart cc then _ else _).
  assert (Hss : exists r1 cc1, ss = (r1, cc1) /\ in32 r1 /\ in32 (dr_ecn_rate cc1) /\
    dr_ecn_rate cc1 = dr_ecn_rate cc /\ (dr_slowstart cc1 = false -> r1 = r0) /\ (0 < drops \/ 0 < cc_rexmits c \/ 0 < ecnb -> dr_slowstart cc1 = false)).
  { unfold ss. destruct (dr_slowstart cc) eqn:Es.
    - destruct ((drops =? 0) && (ecnb =? 0) && (cc_rexmits c =? 0)) eqn:Ec.
      + rewrite !andb_true_iff, !Z.eqb_eq in Ec. eexists _, _. split; [reflexivity|].
        split; [destruct (_ <=? _); [apply u32_range|unfold UINT32_MAX; lia]|]. split; [done|].
        split; [done|]. split; [congruence|lia].
      + eexists _, _. split; [reflexivity|]. split_and!; cbn; try done; lia.
    - eexists _, _. split; [reflexivity|]. split_and!; cbn; try done; try lia; congruence. }
  destruct Hss as (r1 & cc1 & -> & Hr1 & He1 & Ee1 & E1 & Hd1). rewrite <-Ee1.
  set (ca := if dr_slowstart cc1 then _ else _).
  assert (Hca : exists r2 cc2, ca = (r2, cc2) /\ in32 r2 /\ in32 (dr_ecn_rate cc2) /\
    (0 < drops \/ 0 < cc_rexmits c -> r2 <= cc_rate c / 2) /\
    (~ (0 < drops \/ 0 < cc_rexmits c) -> 0 < ecnb ->
      dr_ecn_rate cc2 = (if 0 <? ackb then ecn_average (dr_ecn_rate cc1) ecnb ackb else dr_ecn_rate cc1) /\
      r2 <= ecn_cut (cc_rate c) (dr_ecn_rate cc2))).
  { unfold ca. destruct (dr_slowstart cc1) eqn:Es1.
    - eexists _, _. split; [reflexivity|]. repeat split; try done; try lia; intros Hn; exfalso;
        (enough (true = false) by done); apply Hd1; lia.
    - rewrite (E1 eq_refl) in *. destruct ((0 <? drops) || (0 <? cc_rexmits c)) eqn:Edr.
      + apply orb_true_iff in Edr. rewrite !Z.ltb_lt in Edr. eexists _, _. split; [reflexivity|].
        repeat split; try done; try lia; intros; try tauto; Z.div_mod_to_equations; lia.
      + apply orb_false_iff in Edr as [?%Z.ltb_ge ?%Z.ltb_ge].
        set (q := if 0 <? ackb then _ else _).
        assert (Hq : exists e cc2, q = (e, cc2) /\ in32 (dr_ecn_rate cc2) /\ (0 < ecnb -> 0 < e) /\
          dr_ecn_rate cc2 = if 0 <? ackb then ecn_average (dr_ecn_rate cc1) ecnb ackb else dr_ecn_rate cc1).
        { unfold q. destruct (Z.ltb_spec 0 ackb) as [Hab|Hab].
          - eexists _, _. split; [reflexivity|]. split; [apply ecn_ewma_range|]. split.
            + intros. destruct (_ <=? _); lia.
            + by apply ecn_ewma_exact.
          - eexists _, _. split; [reflexivity|]. split; [done|]. split; [lia|done]. }
        destruct Hq as (e & cc2 & -> & He2 & He3 & Ee2). rewrite <-Ee2. destruct (Z.ltb_spec 0 e) as [Hpe|Hpe].
        * pose proof (ecn_reduce_range r0 (dr_ecn_rate cc2) ltac:(lia) He2).
          rewrite ecn_reduce_exact in * by (done || lia).
          pose proof (ecn_cut_mono r0 (cc_rate c) _ He2 ltac:(lia)).
          eexists _, _. split; [reflexivity|]. split_and!; cbn; try done; lia.
        * assert (Hecn : ecnb <= 0) by lia.
          destruct (cc_dctcp_mimd config =? 0); (eexists _, _; split; [reflexivity|]);
            (split; [apply u32_range|]); split_and!; cbn; try done; try lia; congruence. }
  destruct Hca as (r2 & cc2 & -> & Hr2 & He2 & Hc1 & Hc2). eexists _, _. split; [reflexivity|].
  destruct (Z.ltb_spec r2 (cc_dctcp_min config)); repeat split; try done; try lia; intros Hn;
    try (specialize (Hc1 Hn)); try lia; intros Hb; destruct (Hc2 Hn Hb); try done; lia.
Qed.

Lemma dctcp_rate_update_ok c st cur : algorithm config = CONFIG_CC_DCTCP_RATE -> conn_ok c -> stats_ok st ->
  u32 (cur - cc_last_ts c) <> 0 ->
  let drops := u32 (unproc_drops (cc_drate c) + c_drops st) in
  let ecnb := u32 (unproc_ecnb (cc_drate c) + c_ecnb st) in
  let ackb := u32 (unproc_ackb (cc_drate c) + c_ackb st) in
  exists c', dctcp_rate_update config c st cur = Done c' /\ conn_ok c' /\ cc_frame c c' /\
    (if u32 (unproc_acks (cc_drate c) + c_acks st) <? cc_dctcp_minpkts config
     then cc_rate c' = cc_rate c /\ cc_rexmits c' = cc_rexmits c
     else cc_rexmits c' = 0 /\ cc_dctcp_min config <= cc_rate c' /\
       (0 < drops \/ 0 < cc_rexmits c -> cc_rate c' <= Z.max (cc_dctcp_min config) (cc_rate c / 2)) /\
       (~ (0 < drops \/ 0 < cc_rexmits c) -> 0 < ecnb ->
        dr_ecn_rate (cc_drate c') = (if 0 <? ackb then ecn_average (dr_ecn_rate (cc_drate c)) ecnb ackb
                                     else dr_ecn_rate (cc_drate c)) /\
        cc_rate c' <= Z.max (cc_dctcp_min config) (ecn_cut (cc_rate c) (dr_ecn_rate (cc_drate c'))))).
Proof.
  intros Hal Hco Hs Hts drops ecnb ackb. pose proof (sel_rtt_ok st Hs) as Hrtt. pose proof (co_drate _ Hco Hal) as He.
  pose proof (co_rate _ Hco) as Hr. pose proof (co_rexmits _ Hco) as Hx. unfold dctcp_rate_update.
  destruct (u32 _ <? _).
  { eexists. split; [reflexivity|]. split; [|split; [by destruct c|done]]. constructor; cbn; try done. congruence. }
  match goal with |- context [actual_rate ?a ?b ?d ?e] =>
    change (actual_rate a b d e) with (actual_rate (dr_act_rate (cc_drate c)) b d (cc_last_ts c)) end.
  destruct (actual_rate_ok (dr_act_rate (cc_drate c)) (u32 (unproc_ackb (cc_drate c) + c_ackb st)) cur (cc_last_ts c)
    ltac:(by right)) as (avg & act & -> & Ha & _). cbn [mbind outcome_bind].
  match goal with |- context [rate_adjust config ?c0 ?cc0 ?a ?b ?d ?e] =>
    destruct (rate_adjust_ok c0 cc0 a b d e) as (rate & cc' & E2 & Hr2 & Hm & He2 & H1 & H2) end;
    try apply u32_range; try done; try (cbn; lia).
  rewrite E2. eexists. split; [reflexivity|]. split; [|split; [by destruct c|done]].
  constructor; cbn; try done. congruence.
Qed.

(** *** TIMELY *)

(** The registers of the gradient hold round trip times and their differences. *)
Definition timely_ok (cc : timely) : Prop :=
  0 <= rtt_prev cc <= MAX_RTT /\ - MAX_RTT <= rtt_diff cc <= MAX_RTT.

(** The averaged change of the round trip time, the gradient, and the rates that follow
    from a round trip time above the high threshold and from a positive gradient, as
    numbers. *)
Definition rtt_average (cc : timely) (rtt : Z) : Z :=
  let f := cc_timely_alpha config / 2 in
  Z.quot ((INT32_MAX - f) * rtt_diff cc + f * (rtt - rtt_prev cc)) INT32_MAX.
Definition gradient (d : Z) : Z := Z.quot (d * INT16_MAX) (cc_timely_min_rtt config).
Definition cut_above (rate rtt : Z) : Z :=
  let over := UINT32_MAX - UINT32_MAX * cc_timely_thigh config / rtt in
  rate * (UINT32_MAX - cc_timely_beta config * over / UINT32_MAX) / UINT32_MAX.
Definition cut_gradient (rate g : Z) : Z :=
  rate * Z.max 0 (INT32_MAX - cc_timely_beta config / 2 * g / INT16_MAX) / INT32_MAX.

Lemma rtt_average_range cc rtt : timely_ok cc -> 0 <= rtt <= MAX_RTT ->
  - MAX_RTT <= rtt_average cc rtt <= MAX_RTT.
Proof.
  intros [Hp Hd] Hr. pose proof (ok_alpha _ Hc) as Ha. unfold rtt_average, MAX_RTT, INT32_MAX in *. cbv zeta.
  set (f := cc_timely_alpha config / 2). assert (Hf : 0 <= f <= 2147483647) by (unfold f; Z.div_mod_to_equations; lia).
  clearbody f. set (x := _ + _). assert (Hx : - 100000 * 2147483647 <= x <= 100000 * 2147483647) by (unfold x; nia).
  clearbody x. split.
  - replace (- (100000)) with (Z.quot (- 100000 * 2147483647) 2147483647) by done. apply Z.quot_le_mono; lia.
  - replace 100000 with (Z.quot (100000 * 2147483647) 2147483647) at 1 by done. apply Z.quot_le_mono; lia.
Qed.

Lemma rtt_gradient_exact cc rtt : timely_ok cc -> 0 <= rtt <= MAX_RTT ->
  rtt_gradient config cc rtt = Done (rtt_average cc rtt, gradient (rtt_average cc rtt)).
Proof.
  intros Hok Hr. pose proof (rtt_average_range cc rtt Hok Hr) as Hrange. destruct Hok as [Hp Hd].
  pose proof (ok_alpha _ Hc) as Ha. pose proof (ok_min_rtt _ Hc).
  unfold rtt_gradient. rewrite (proj2 (Z.eqb_neq (cc_timely_min_rtt config) 0)) by lia. cbv zeta.
  rewrite (s32_small (rtt - rtt_prev cc)) by (unfold MAX_RTT in *; lia).
  assert (Ex : s64 ((INT32_MAX - cc_timely_alpha config / 2) * rtt_diff cc +
      cc_timely_alpha config / 2 * (rtt - rtt_prev cc)) =
    (INT32_MAX - cc_timely_alpha config / 2) * rtt_diff cc + cc_timely_alpha config / 2 * (rtt - rtt_prev cc)).
  { unfold MAX_RTT, INT32_MAX in *. set (f := cc_timely_alpha config / 2).
    assert (Hf : 0 <= f <= 2147483647) by (unfold f; Z.div_mod_to_equations; lia). clearbody f.
    apply s64_id. nia. }
  rewrite Ex. fold (rtt_average cc rtt). rewrite s32_small by (unfold MAX_RTT in *; lia). done.
Qed.

Lemma gradient_bound d : - MAX_RTT <= d <= MAX_RTT -> gradient d <= MAX_RTT * INT16_MAX.
Proof.
  intros Hd. pose proof (ok_min_rtt _ Hc). unfold gradient, MAX_RTT, INT16_MAX in *.
  destruct (Z.le_gt_cases 0 d); [apply Z.quot_le_upper_bound; nia|].
  assert (d * 32767 ÷ cc_timely_min_rtt config <= 0); [|lia].
  rewrite <-(Z.quot_0_l (cc_timely_min_rtt config)) by lia. apply Z.quot_le_mono; lia.
Qed.

Lemma rate_above_exact rate rtt : in32 rate -> cc_timely_thigh config < rtt <= MAX_RTT ->
  rate_above config rate rtt = cut_above rate rtt.
Proof.
  intros Hr Ht. pose proof (ok_thigh _ Hc) as Hh. pose proof (ok_beta _ Hc) as Hb.
  unfold rate_above, cut_above, MAX_RTT, UINT32_MAX in *.
  assert (Hd : 0 <= 4294967295 * cc_timely_thigh config / rtt <= 4294967295).
  { split; [apply Z.div_pos; lia|]. apply Z.div_le_upper_bound; nia. }
  rewrite (u32_small (4294967295 * _ / _)) by lia. set (d := 4294967295 * _ / _) in *. clearbody d.
  rewrite (u32_small (4294967295 - d)) by lia.
  assert (Ha : 0 <= cc_timely_beta config * (4294967295 - d) / 4294967295 <= 4294967295).
  { split; [apply Z.div_pos; nia|]. apply Z.div_le_upper_bound; nia. }
  rewrite (u32_small (_ * (4294967295 - d) / _)) by lia. set (a := _ * (4294967295 - d) / _) in *. clearbody a.
  rewrite u64_small by nia. apply u32_small. split; [apply Z.div_pos; nia|]. apply Z.div_lt_upper_bound; nia.
Qed.

Lemma rate_gradient_exact rate g : in32 rate -> 0 < g <= MAX_RTT * INT16_MAX ->
  rate_gradient config rate g = cut_gradient rate g.
Proof.
  intros Hr Hg. pose proof (ok_beta _ Hc) as Hb. unfold rate_gradient, cut_gradient, MAX_RTT, INT16_MAX, INT32_MAX in *.
  set (h := cc_timely_beta config / 2). assert (Hh : 0 <= h <= 2147483647) by (unfold h; Z.div_mod_to_equations; lia).
  clearbody h. rewrite (s64_id (h * g)) by nia.
  assert (Hp : 0 <= h * g) by nia. rewrite (Z.quot_div_nonneg (h * g)) by lia.
  set (b := h * g / 32767). assert (Hbp : 0 <= b) by (apply Z.div_pos; lia). clearbody b.
  assert (Ed : (if b <=? 2147483647 then s64 (2147483647 - b) else 0) = Z.max 0 (2147483647 - b)).
  { destruct (Z.leb_spec b 2147483647); [rewrite s64_id|]; lia. }
  rewrite Ed. set (d := Z.max 0 _). assert (Hd : 0 <= d <= 2147483647) by (unfold d; lia). clearbody d.
  rewrite (s64_id (rate * d)), Z.quot_div_nonneg by nia.
  apply u32_small. split; [apply Z.div_pos; nia|]. apply Z.div_lt_upper_bound; nia.
Qed.

Lemma cut_above_mono r r' rtt : r <= r' -> cc_timely_thigh config < rtt -> cut_above r rtt <= cut_above r' rtt.
Proof.
  intros Hr Ht. pose proof (ok_thigh _ Hc) as Hh. pose proof (ok_beta _ Hc) as Hb. unfold cut_above, UINT32_MAX.
  assert (Hd : 0 <= 4294967295 * cc_timely_thigh config / rtt <= 4294967295).
  { split; [apply Z.div_pos; lia|]. apply Z.div_le_upper_bound; nia. }
  set (q := 4294967295 * cc_timely_thigh config / rtt) in *. clearbody q. cbv zeta.
  set (d := 4294967295 - q). assert (Hd2 : 0 <= d <= 4294967295) by (unfold d; lia). clearbody d.
  assert (Ha : cc_timely_beta config * d / 4294967295 <= 4294967295) by (apply Z.div_le_upper_bound; nia).
  apply Z.div_le_mono; [lia|]. apply Z.mul_le_mono_nonneg_r; lia.
Qed.

Lemma cut_gradient_mono r r' g : r <= r' -> cut_gradient r g <= cut_gradient r' g.
Proof. intros Hr. unfold cut_gradient, INT32_MAX. apply Z.div_le_mono; [lia|]. apply Z.mul_le_mono_nonneg_r; lia. Qed.

(** TIMELY never goes below its minimal rate, nor below half of the rate in use. *)
Lemma timely_rate_ok cc rate rtt g : in32 rate -> rtt <= MAX_RTT ->
  exists r cc', timely_rate config cc rate rtt g = (r, cc') /\ in32 r /\
    rtt_prev cc' = rtt_prev cc /\ rtt_diff cc' = rtt_diff cc /\ ti_slowstart cc' = ti_slowstart cc /\
    Z.max (cc_timely_min_rate config) (rate / 2) <= r /\
    (ti_slowstart cc = false -> cc_timely_tlow config <= rtt ->
      (cc_timely_thigh config < rtt ->
        r = Z.max (cc_timely_min_rate config) (Z.max (rate / 2) (cut_above rate rtt))) /\
      (rtt <= cc_timely_thigh config -> 0 < g <= MAX_RTT * INT16_MAX ->
        r = Z.max (cc_timely_min_rate config) (Z.max (rate / 2) (cut_gradient rate g)))).
Proof.
  intros Hr Hrtt. pose proof (ok_tmin _ Hc) as Hm. unfold timely_rate.
  set (z := if ti_slowstart cc then _ else _).
  assert (Hz : exists r1 cc1, z = (r1, cc1) /\ in32 r1 /\
    rtt_prev cc1 = rtt_prev cc /\ rtt_diff cc1 = rtt_diff cc /\ ti_slowstart cc1 = ti_slowstart cc /\
    (ti_slowstart cc = false -> cc_timely_tlow config <= rtt ->
      (cc_timely_thigh config < rtt -> r1 = cut_above rate rtt) /\
      (rtt <= cc_timely_thigh config -> 0 < g <= MAX_RTT * INT16_MAX -> r1 = cut_gradient rate g))).
  { unfold z. destruct (ti_slowstart cc) eqn:Es.
    { eexists _, _. split; [reflexivity|]. split; [apply u32_range|]. done. }
    destruct (Z.ltb_spec rtt (cc_timely_tlow config)).
    { eexists _, _. split; [reflexivity|]. split; [apply u32_range|]. split_and!; try done. lia. }
    destruct (Z.ltb_spec (cc_timely_thigh config) rtt).
    { eexists _, _. split; [reflexivity|]. split; [apply u32_range|]. split_and!; try done.
      intros _ _. split; [|lia]. intros _. by apply rate_above_exact. }
    destruct (Z.leb_spec g 0).
    { set (h := cc <| hai_cnt := _ |>). destruct (5 <=? hai_cnt h); (eexists _, _; split; [reflexivity|]);
        (split; [apply u32_range|]); split_and!; try done; lia. }
    eexists _, _. split; [reflexivity|]. split; [apply u32_range|]. split_and!; try done.
    intros _ _. split; [lia|]. intros _ Hg. by apply rate_gradient_exact. }
  destruct Hz as (r1 & cc1 & -> & Hr1 & E1 & E2 & E3 & Hcut).
  set (r2 := if r1 <? rate / 2 then rate / 2 else r1). set (r3 := if r2 <? _ then _ else r2).
  assert (Er : r3 = Z.max (cc_timely_min_rate config) (Z.max (rate / 2) r1)).
  { unfold r3, r2. destruct (Z.ltb_spec r1 (rate / 2)) as [H1|H1]; split_ifs; lia. }
  clearbody r3. eexists _, _. split; [reflexivity|].
  assert (0 <= rate / 2 <= rate) by (Z.div_mod_to_equations; lia).
  split_and!; try done; try lia. intros Hs Hlow. destruct (Hcut Hs Hlow) as [H1 H2].
  split; intros; [rewrite <-H1 by done|rewrite <-H2 by done]; done.
Qed.

(** How TIMELY reacts, outside of slow start or when the round trip time ends it: a round
    trip time above the high threshold and, between the thresholds, a rising one cut the
    rate, but not below half of it and the minimal rate. *)
Definition timely_reacts (c c' : connection) (st : stats) : Prop :=
  let cc := cc_timely c in
  let d := if rtt_prev cc =? 0 then rtt_diff cc else rtt_average cc (st_rtt st) in
  let ends := u32 (cc_timely_tlow config + cc_timely_thigh config) / 2 <? st_rtt st in
  let at_least r := Z.max (cc_timely_min_rate config) (Z.max (cc_rate c / 2) r) in
  rtt_prev (cc_timely c') = st_rtt st /\ rtt_diff (cc_timely c') = d /\
  ti_slowstart (cc_timely c') = ti_slowstart cc && negb ends /\
  (ti_slowstart (cc_timely c') = false -> cc_timely_tlow config <= st_rtt st ->
    (cc_timely_thigh config < st_rtt st -> cc_rate c' <= at_least (cut_above (cc_rate c) (st_rtt st))) /\
    (st_rtt st <= cc_timely_thigh config -> rtt_prev cc <> 0 -> 0 < gradient d ->
      cc_rate c' <= at_least (cut_gradient (cc_rate c) (gradient d)))).

Lemma timely_update_ok c st cur : algorithm config = CONFIG_CC_TIMELY -> conn_ok c -> stats_ok st ->
  ti_last_ts (cc_timely c) = 0 \/ u32 (cur - ti_last_ts (cc_timely c)) <> 0 ->
  exists c', timely_update config c st cur = Done c' /\ conn_ok c' /\ cc_frame c c' /\
    (if st_rtt st =? 0 then cc_rate c' = cc_rate c
     else cc_rexmits c' = 0 /\ cc_timely_min_rate config <= cc_rate c' /\ ti_last_ts (cc_timely c') = cur) /\
    (timely_ok (cc_timely c) -> timely_ok (cc_timely c') /\ (st_rtt st <> 0 -> timely_reacts c c' st)).
Proof.
  intros Hal Hco Hs Hts. pose proof (co_rate _ Hco) as Hr. pose proof (so_rtt _ Hs) as Hrtt. unfold timely_update.
  destruct (actual_rate_ok (ti_act_rate (cc_timely c)) (c_ackb st) cur (ti_last_ts (cc_timely c)) Hts)
    as (avg & act & -> & Ha & _). cbn [mbind outcome_bind].
  destruct (Z.eqb_spec (st_rtt st) 0) as [Er|Er].
  { eexists. split; [reflexivity|]. split; [|split; [by destruct c|done]]. destruct Hco. constructor; cbn; try done. }
  set (cc0 := (cc_timely c) <| ti_act_rate := avg |>).
  set (ends := u32 _ / 2 <? st_rtt st).
  set (cc1 := if ti_slowstart cc0 && ends then _ else _).
  assert (H1 : rtt_prev cc1 = rtt_prev (cc_timely c) /\ rtt_diff cc1 = rtt_diff (cc_timely c) /\
    ti_slowstart cc1 = ti_slowstart (cc_timely c) && negb ends).
  { unfold cc1. change (ti_slowstart cc0) with (ti_slowstart (cc_timely c)).
    destruct (ti_slowstart (cc_timely c)) eqn:Es, ends; cbn; rewrite ?Es; done. }
  clearbody cc1. destruct H1 as (Ep & Ed & Es).
  set (r0 := if negb _ && _ then _ else _).
  assert (Hr0 : in32 r0 /\ r0 <= cc_rate c).
  { unfold r0. pose proof (clamp_rate_ok act (cc_rate c) ltac:(lia) Hr). destruct (negb (ti_slowstart cc1)); cbn [andb]; lia. }
  clearbody r0. destruct Hr0 as [Hr0 Hle]. set (gr := if negb (rtt_prev cc1 =? 0) then _ else _).
  assert (Hg : exists cc2 g, gr = Done (cc2, g) /\ ti_slowstart cc2 = ti_slowstart cc1 /\
    (timely_ok (cc_timely c) -> let d := if rtt_prev cc1 =? 0 then rtt_diff cc1 else rtt_average (cc_timely c) (st_rtt st) in
      rtt_diff cc2 = d /\ - MAX_RTT <= d <= MAX_RTT /\ (rtt_prev cc1 <> 0 -> g = gradient d))).
  { unfold gr. destruct (Z.eqb_spec (rtt_prev cc1) 0); cbn [negb].
    - eexists _, _. split; [reflexivity|]. split; [done|]. rewrite Ed. by intros [_ ?].
    - assert (Hex : exists d g, rtt_gradient config cc1 (st_rtt st) = Done (d, g)).
      { unfold rtt_gradient. pose proof (ok_min_rtt _ Hc).
        rewrite (proj2 (Z.eqb_neq (cc_timely_min_rtt config) 0)) by lia. by eexists _, _. }
      destruct Hex as (d & g & Eg). rewrite Eg. eexists _, _. split; [reflexivity|]. split; [done|]. intros Hok.
      assert (Hok1 : timely_ok cc1) by (unfold timely_ok; by rewrite Ep, Ed).
      rewrite rtt_gradient_exact in Eg by done. injection Eg as <- <-.
      pose proof (rtt_average_range cc1 (st_rtt st) Hok1 Hrtt).
      unfold rtt_average in *. by rewrite Ep, Ed in *. }
  destruct Hg as (cc2 & g & -> & Es2 & Hg). cbn [mbind outcome_bind].
  destruct (timely_rate_ok (cc2 <| rtt_prev := st_rtt st |>) r0 (st_rtt st) g Hr0 ltac:(lia))
    as (r & cc3 & -> & Hr3 & Ep3 & Ed3 & Es3 & Hlow & Hcut). cbn in Ep3, Ed3, Es3, Hcut.
  eexists. split; [reflexivity|]. split; [|split; [by destruct c|split]].
  - constructor; cbn; try done; try lia; congruence.
  - cbn. split_and!; try done; lia.
  - intros Hok. specialize (Hg Hok). cbv zeta in Hg. rewrite Ep, Ed in Hg. destruct Hg as (Ed2 & Hd & Eg).
    split; [split; cbn; [rewrite Ep3; lia|rewrite Ed3, Ed2; exact Hd]|].
    intros _. unfold timely_reacts. cbn. fold ends. rewrite Ep3, Ed3, Ed2, Es3, Es2, Es.
    split_and!; try done. intros Hss Hlo. rewrite Es2, Es in Hcut. destruct (Hcut Hss Hlo) as [C1 C2].
    assert (r0 / 2 <= cc_rate c / 2) by (apply Z.div_le_mono; lia). split.
    + intros Hhi. rewrite (C1 Hhi). pose proof (cut_above_mono r0 (cc_rate c) (st_rtt st) Hle Hhi). lia.
    + intros Hhi Hpv Hpos. rewrite <-Eg in Hpos by done.
      pose proof (gradient_bound _ Hd) as Hb. rewrite <-Eg in Hb |- * by done.
      rewrite (C2 Hhi (conj Hpos Hb)). pose proof (cut_gradient_mono r0 (cc_rate c) g Hle). lia.
Qed.

(** No update aborts; what it keeps. *)
Lemma const_rate_ok c st : conn_ok c -> stats_ok st -> algorithm config = CONFIG_CC_CONST_RATE ->
  conn_ok (const_rate_update config c st) /\ cc_frame c (const_rate_update config c st).
Proof.
  intros Hco Hs Ea. pose proof (sel_rtt_ok st Hs). split; [|by destruct c].
  destruct Hco. constructor; cbn; try done; try lia; try congruence. by destruct (Z.eqb_spec (st_rtt st) 0).
Qed.

Lemma cc_algo_update_ok c st cur : conn_ok c -> stats_ok st -> u32 (cur - cc_last_ts c) <> 0 ->
  ti_last_ts (cc_timely c) = 0 \/ u32 (cur - ti_last_ts (cc_timely c)) <> 0 ->
  exists c' st', cc_algo_update config c st cur = Done (c', st') /\ conn_ok c' /\ cc_frame c c' /\
    c_ackb st' = c_ackb st /\ st_rtt st' = st_rtt st /\ txp st' = txp st.
Proof.
  intros Hco Hs H1 H2. unfold cc_algo_update. pose proof (ok_algo _ Hc) as Ho.
  destruct (algorithm config) eqn:Ea; try done.
  - destruct (dctcp_win_update_ok c st Ea Hco Hs) as (c' & st' & -> & ? & ? & _ & ? & ? & ? & _). by exists c', st'.
  - destruct (dctcp_rate_update_ok c st cur Ea Hco Hs H1) as (c' & -> & ? & ? & _). by exists c', st.
  - destruct (timely_update_ok c st cur Ea Hco Hs H2) as (c' & -> & ? & ? & _). by exists c', st.
  - pose proof (const_rate_ok c st Hco Hs Ea) as []. by eexists _, st.
Qed.

(** C21: One update of a connection by the configured congestion control algorithm
    ([cc_algo_update]).  No update aborts or leaves the ranges of its variables, only the
    congestion control part of the connection changes, and the algorithm reacts to what
    the interval's statistics say:
    - window-based DCTCP halves the window on a loss (drops or a retransmission), cuts it
      by half of the averaged rate of marked bytes on congestion marks, and otherwise
      lets it grow by what was acknowledged in slow start and by a segment for each
      window after that, between one segment and the send buffer ([win_reacts]);
    - rate-based DCTCP waits for enough acknowledgements, then at least halves the rate
      on a loss and cuts it by half of the averaged rate of marked bytes on marks, down
      to the minimal rate;
    - TIMELY cuts the rate for a round trip time above the high threshold and for a
      rising one between the thresholds, never below the minimal rate
      ([timely_reacts]);
    - the constant rate stays. *)
Theorem cc_algo_update_correct c st cur : conn_ok c -> stats_ok st -> u32 (cur - cc_last_ts c) <> 0 ->
  ti_last_ts (cc_timely c) = 0 \/ u32 (cur - ti_last_ts (cc_timely c)) <> 0 ->
  exists c' st', cc_algo_update config c st cur = Done (c', st') /\ conn_ok c' /\ cc_frame c c' /\
    c_ackb st' = c_ackb st /\ st_rtt st' = st_rtt st /\ txp st' = txp st /\
    match algorithm config with
    | CONFIG_CC_DCTCP_WIN =>
      CONF_MSS <= window (cc_win c') <= Z.min (tx_len c) (window (cc_win c) + c_ackb st) /\
      cc_rate c' * (cc_rtt c' * 1000) <= window (cc_win c') * 8 * 1000000 /\
      win_reacts c c' st
    | CONFIG_CC_DCTCP_RATE =>
      let drops := u32 (unproc_drops (cc_drate c) + c_drops st) in
      let ecnb := u32 (unproc_ecnb (cc_drate c) + c_ecnb st) in
      let ackb := u32 (unproc_ackb (cc_drate c) + c_ackb st) in
      if u32 (unproc_acks (cc_drate c) + c_acks st) <? cc_dctcp_minpkts config then cc_rate c' = cc_rate c
      else cc_dctcp_min config <= cc_rate c' /\
        (0 < drops \/ 0 < cc_rexmits c -> cc_rate c' <= Z.max (cc_dctcp_min config) (cc_rate c / 2)) /\
        (~ (0 < drops \/ 0 < cc_rexmits c) -> 0 < ecnb ->
          let e := if 0 <? ackb then ecn_average (dr_ecn_rate (cc_drate c)) ecnb ackb
                   else dr_ecn_rate (cc_drate c) in
          dr_ecn_rate (cc_drate c') = e /\
          cc_rate c' <= Z.max (cc_dctcp_min config) (ecn_cut (cc_rate c) e))
    | CONFIG_CC_TIMELY =>
      (if st_rtt st =? 0 then cc_rate c' = cc_rate c else cc_timely_min_rate config <= cc_rate c') /\
      (timely_ok (cc_timely c) -> timely_ok (cc_timely c') /\ (st_rtt st <> 0 -> timely_reacts c c' st))
    | _ => cc_rate c' = cc_rate c
    end.
Proof.
  intros Hco Hs H1 H2. unfold cc_algo_update. pose proof (ok_algo _ Hc) as Ho.
  destruct (algorithm config) eqn:Ea; try done.
  - destruct (dctcp_win_update_ok c st Ea Hco Hs) as (c' & st' & -> & Hco' & Hf & _ & ? & ? & ? & ? & ? & ?).
    destruct (co_win _ Hco' Ea) as (Hw & _). rewrite Hf in Hw. cbn in Hw. eexists _, _. split; [reflexivity|].
    split; [done|]. split; [done|]. split_and!; try done; lia.
  - destruct (dctcp_rate_update_ok c st cur Ea Hco Hs H1) as (c' & -> & Hco' & Hf & Hr). eexists _, _.
    split; [reflexivity|]. split_and!; try done. destruct (_ <? _); [tauto|].
    destruct Hr as (_ & Hm & Hl & He). split; [done|]. split; [done|]. intros Hn Hb.
    destruct (He Hn Hb) as [E ?]. rewrite <-E. done.
  - destruct (timely_update_ok c st cur Ea Hco Hs H2) as (c' & -> & Hco' & Hf & Hr & Hre). eexists _, _.
    split; [reflexivity|]. split_and!; try done. by destruct (_ =? 0); [|destruct Hr as (_ & ? & _)].
  - pose proof (const_rate_ok c st Hco Hs Ea) as []. by eexists _, _.
Qed.
End Algorithms.
End CcSpec.
