(* ===== verification/CcProps.v ===== *)
(** * The control loop of congestion control

    [cc_poll] visits the connections round robin, at most 128 at a time; connections are
    added to and removed from the list in between; [cc_next_ts] bounds the sleep. *)
From S2P Require Import Prelude Chain Memif Conn Nicif NicifProps Cc CcSpec.

Module CcProps.
Import Conn Nicif Cc CcSpec.

Section Props.
Context (config : configuration) (Hc : config_ok config).
Context (rxq_len : Z) (flow_group_steering : Z -> Z).
#[local] Abbreviation control := (cc_control config rxq_len flow_group_steering).
#[local] Abbreviation poll := (cc_poll config rxq_len flow_group_steering).
#[local] Abbreviation poll_loop := (cc_poll_loop config rxq_len flow_group_steering).

(** ** The state *)

(** [L] are the connections under congestion control, in list order. *)
Record cc_inv (s : cc_state) (L : list Z) : Prop := {
  ci_chain : chain NULL (cc_next s) (cc_conns s) L;
  ci_nodup : NoDup L;
  ci_next : next_conn s = NULL \/ next_conn s ∈ L;
  ci_conn p : p ∈ L -> conn_ok config (conns s p);
  ci_open p : p ∈ L -> status (conns s p) = CONN_OPEN -> 0 <= flow_id (conns s p) < FLEXNIC_PL_FLOWST_NUM;
  ci_ids p q : p ∈ L -> q ∈ L -> status (conns s p) = CONN_OPEN -> status (conns s q) = CONN_OPEN ->
    flow_id (conns s p) = flow_id (conns s q) -> p = q;
  ci_rtt f : 0 <= fs_rtt_est (flowst (nic s) f) <= MAX_RTT
}.

(** The connection is open and its control interval is over. *)
Definition due (s : cc_state) (p cur_ts : Z) : bool :=
  bool_decide (status (conns s p) = CONN_OPEN) &&
  (u32 (cc_rtt (conns s p) * cc_control_interval config) <=? u32 (cur_ts - cc_last_ts (conns s p))).

(** No connection was updated exactly 2^32 microseconds ago by TIMELY. *)
Definition clock_ok (s : cc_state) (p cur_ts : Z) : Prop :=
  ti_last_ts (cc_timely (conns s p)) = 0 \/ u32 (cur_ts - ti_last_ts (cc_timely (conns s p))) <> 0.

(** What visiting [p] may change. *)
Record visited (s s' : cc_state) (p : Z) : Prop := {
  vi_conns : cc_conns s' = cc_conns s;
  vi_next : next_conn s' = next_conn s;
  vi_last : last_ts s' = last_ts s;
  vi_links : cc_next s' = cc_next s;
  vi_other q : q <> p -> conns s' q = conns s q;
  vi_status : status (conns s' p) = status (conns s p);
  vi_id : flow_id (conns s' p) = flow_id (conns s p);
  vi_flow f : f <> flow_id (conns s p) \/ status (conns s p) <> CONN_OPEN -> flowst (nic s') f = flowst (nic s) f;
  vi_flow_rtt f : fs_rtt_est (flowst (nic s') f) = fs_rtt_est (flowst (nic s) f)
}.

(** What a control interval of [p] leaves: the new rate is in the registers of the flow. *)
Definition controlled (s s' : cc_state) (p cur_ts : Z) : Prop :=
  if due s p cur_ts then
    cc_last_ts (conns s' p) = cur_ts /\
    fs_tx_rate (flowst (nic s') (flow_id (conns s p))) = cc_rate (conns s' p) /\
    cc_last_ackb (conns s' p) = fs_cnt_rx_ack_bytes (flowst (nic s) (flow_id (conns s p))) /\
    cc_last_drops (conns s' p) = fs_cnt_tx_drops (flowst (nic s) (flow_id (conns s p)))
  else conns s' p = conns s p.

Lemma visited_refl s p : visited s s p.
Proof. by constructor. Qed.

Lemma issue_retransmits_ok s p st cur :
  exists c' s', issue_retransmits config rxq_len flow_group_steering s p st cur = s' /\ conns s' = <[p := c']> (conns s) /\
    c' = (conns s p) <| cnt_tx_pending := cnt_tx_pending c' |> <| ts_tx_pending := ts_tx_pending c' |>
                     <| cc_rexmits := cc_rexmits c' |> /\
    (in32 (cc_rexmits (conns s p)) -> in32 (cc_rexmits c')) /\
    flowst (nic s') = flowst (nic s) /\ cc_conns s' = cc_conns s /\ next_conn s' = next_conn s /\
    last_ts s' = last_ts s /\ cc_next s' = cc_next s.
Proof.
  unfold issue_retransmits. set (c := conns s p). assert (Ec : c = conns s p) by done. clearbody c.
  destruct (txp st && (c_ackb st =? 0)).
  2:{ eexists _, _. split; [reflexivity|]. split; [reflexivity|]. by destruct c. }
  destruct (cnt_tx_pending c =? 0).
  { eexists _, _. split; [reflexivity|]. split; [reflexivity|]. by destruct c. }
  destruct (_ && _).
  2:{ eexists _, _. split; [reflexivity|]. split; [reflexivity|]. by destruct c. }
  unfold nicif_connection_retransmit. destruct (ktx_try_alloc _ _ _).
  - eexists _, _. split; [reflexivity|]. split; [reflexivity|]. split; [by destruct c|].
    split; [|done]. intros _. cbn. apply u32_range.
  - eexists _, _. split; [reflexivity|]. split; [reflexivity|]. by destruct c.
Qed.

Lemma conn_ok_pending c c' : conn_ok config c ->
  c' = c <| cnt_tx_pending := cnt_tx_pending c' |> <| ts_tx_pending := ts_tx_pending c' |> <| cc_rexmits := cc_rexmits c' |> ->
  in32 (cc_rexmits c') -> conn_ok config c'.
Proof. intros [] E Hx. rewrite E. constructor; cbn; done. Qed.

Lemma conn_ok_counts c d a b e : conn_ok config c ->
  conn_ok config (c <| cc_last_drops := d |> <| cc_last_acks := a |> <| cc_last_ackb := b |> <| cc_last_ecnb := e |>).
Proof. intros []. by constructor. Qed.

Lemma conn_ok_ts c t : conn_ok config c -> conn_ok config (c <| cc_last_ts := t |>).
Proof. intros []. by constructor. Qed.

Lemma stats_since_ok c st st' c' : stats_since c st = (st', c') -> 0 <= st_rtt st <= MAX_RTT -> stats_ok st'.
Proof. intros [= <- <-] Hr. constructor; cbn; try apply u16_range; try apply u32_range. done. Qed.

Lemma visited_inv s s' L p : cc_inv s L -> visited s s' p -> conn_ok config (conns s' p) -> cc_inv s' L.
Proof.
  intros Hi Hv Hp.
  assert (Hst : forall q, status (conns s' q) = status (conns s q) /\ flow_id (conns s' q) = flow_id (conns s q)).
  { intros q. destruct (Z.eq_dec q p) as [->|Hn]; [split; apply Hv|by rewrite (vi_other _ _ _ Hv)]. }
  constructor.
  - rewrite (vi_links _ _ _ Hv), (vi_conns _ _ _ Hv). apply Hi.
  - apply Hi.
  - rewrite (vi_next _ _ _ Hv). apply Hi.
  - intros q Hq. destruct (Z.eq_dec q p) as [->|Hn]; [done|]. rewrite (vi_other _ _ _ Hv) by done. by apply (ci_conn _ _ Hi).
  - intros q Hq. destruct (Hst q) as [-> ->]. by apply (ci_open _ _ Hi).
  - intros q q' Hq Hq'. destruct (Hst q) as [-> ->], (Hst q') as [-> ->]. by apply (ci_ids _ _ Hi).
  - intros f. rewrite (vi_flow_rtt _ _ _ Hv). apply Hi.
Qed.

(** One round of the loop. *)
Lemma cc_control_ok s L p cur : cc_inv s L -> p ∈ L -> clock_ok s p cur ->
  exists s', control s p cur = Done s' /\ visited s s' p /\ controlled s s' p cur /\ cc_inv s' L.
Proof.
  intros Hi Hp Hk. unfold cc_control, controlled, due. set (c := conns s p).
  destruct (bool_decide_reflect (status c = CONN_OPEN)) as [Ho|Ho]; cbn [negb andb].
  2:{ exists s. split; [done|]. split; [apply visited_refl|]. done. }
  rewrite Z.leb_antisym. destruct (Z.ltb_spec (u32 (cur - cc_last_ts c)) (u32 (cc_rtt c * cc_control_interval config))) as [Hl|Hl]; cbn [negb].
  { exists s. split; [done|]. split; [apply visited_refl|]. done. }
  pose proof (ci_conn _ _ Hi p Hp) as Hco. fold c in Hco.
  pose proof (ci_open _ _ Hi p Hp Ho) as Hid. fold c in Hid.
  assert (Hts : u32 (cur - cc_last_ts c) <> 0).
  { pose proof (co_rtt _ _ Hco). pose proof (ok_interval _ Hc). unfold MAX_RTT in *. rewrite u32_small in Hl by nia. nia. }
  unfold nicif_connection_stats. rewrite (proj2 (Z.leb_gt _ (flow_id c))) by lia.
  destruct (stats_since c _) as [st c1] eqn:Est. 
  pose proof (stats_since_ok _ _ _ _ Est (ci_rtt _ _ Hi (flow_id c))) as Hst.
  assert (Hc1 : conn_ok config c1).
  { injection Est as _ <-. by apply conn_ok_counts. }
  destruct (cc_algo_update_ok config Hc c1 st cur) as (c2 & st2 & -> & Hc2 & Hf & _); try done.
  { by injection Est as _ <-. } { by injection Est as _ <-. }
  cbn [mbind outcome_bind].
  match goal with |- context [issue_retransmits _ _ _ ?s0 p st2 cur] => set (s2 := s0) end.
  assert (E2 : conns s2 p = c2) by apply fn_lookup_insert.
  assert (E2' : forall q, q <> p -> conns s2 q = conns s q) by (intros q Hq; by apply fn_lookup_insert_ne).
  destruct (issue_retransmits_ok s2 p st2 cur) as (c3 & s3 & -> & Hcs & E3 & Hx & Hfl & E4 & E5 & E6 & E7).
  rewrite E2 in E3, Hx. change (nic s2) with (nic s) in Hfl. change (cc_conns s2) with (cc_conns s) in E4.
  change (next_conn s2) with (next_conn s) in E5. change (last_ts s2) with (last_ts s) in E6.
  change (cc_next s2) with (cc_next s) in E7. clearbody s2.
  assert (Hc3 : conn_ok config c3) by (eapply conn_ok_pending; [exact Hc2|exact E3|apply Hx, (co_rexmits _ _ Hc2)]).
  assert (Eid : flow_id c3 = flow_id c /\ status c3 = status c).
  { rewrite E3, Hf. by injection Est as _ <-. }
  assert (Hp3 : conns s3 p = c3) by (by rewrite Hcs, fn_lookup_insert).
  assert (Elast : cc_last_ackb c3 = fs_cnt_rx_ack_bytes (flowst (nic s) (flow_id c)) /\
    cc_last_drops c3 = fs_cnt_tx_drops (flowst (nic s) (flow_id c))).
  { rewrite E3, Hf. by injection Est as _ <-. }
  destruct Eid as [Eid Est3]. unfold nicif_connection_setrate. rewrite Hp3, Eid.
  rewrite (proj2 (Z.leb_gt _ (flow_id c))) by lia. cbn [snd].
  set (s4 := set_conn _ p _).
  assert (H4 : conns s4 p = c3 <| cc_last_ts := cur |>) by apply fn_lookup_insert.
  assert (Ho4 : forall q, q <> p -> conns s4 q = conns s q).
  { intros q Hq. cbn. rewrite fn_lookup_insert_ne by done. rewrite Hcs. rewrite fn_lookup_insert_ne by done. by apply E2'. }
  assert (Hf4 : forall f, f <> flow_id c -> flowst (nic s4) f = flowst (nic s) f).
  { intros f Hne. cbn. rewrite fn_lookup_insert_ne by done. by rewrite Hfl. }
  assert (Hf4' : flowst (nic s4) (flow_id c) = (flowst (nic s) (flow_id c)) <| fs_tx_rate := cc_rate c3 |>).
  { cbn. by rewrite fn_lookup_insert, Hfl. }
  assert (Hv : visited s s4 p).
  { constructor; try done; fold c.
    - by rewrite H4.
    - by rewrite H4.
    - intros f [Hne|Hne]; [by apply Hf4|done].
    - intros f. destruct (Z.eq_dec f (flow_id c)) as [->|Hne]; [by rewrite Hf4'|by rewrite Hf4]. }
  exists s4. split; [done|]. split; [done|]. split; [by rewrite H4, Hf4'|].
  apply (visited_inv s s4 L p Hi Hv). rewrite H4. by apply conn_ok_ts.
Qed.
(** ** The loop *)

(** The list as a ring, from any member on. *)
Definition rotation (L rot : list Z) : Prop := exists A B, L = A ++ B /\ rot = B ++ A.

Lemma rotation_perm L rot : rotation L rot -> rot ≡ₚ L.
Proof. intros (A & B & -> & ->). apply Permutation_app_comm. Qed.

Lemma chain_hd nx h L : chain NULL nx h L -> h = hd NULL L.
Proof. destruct L; [done|]. by intros [-> _]. Qed.

Lemma ring_next_ok s L rot D x R : chain NULL (cc_next s) (cc_conns s) L -> rotation L rot -> rot = D ++ x :: R ->
  ring_next s x = hd (hd NULL rot) R.
Proof.
  intros Hch (A & B & -> & ->) E. unfold ring_next. pose proof (chain_hd _ _ _ Hch) as Hh.
  pose proof (seg_notin_null _ _ _ _ _ Hch) as Hnn.
  assert (Hnull : forall y l, y ∈ A ++ B -> negb (hd NULL (y :: l) =? NULL) = true).
  { intros y l Hy. cbn [hd]. rewrite (proj2 (Z.eqb_neq y NULL)); [done|]. by intros ->. }
  assert (Hcase : (exists D', A = D' ++ x :: R /\ D = B ++ D') \/ (exists R', B = D ++ x :: R' /\ R = R' ++ A)).
  { destruct (app_eq_app _ _ _ _ E) as (l & [(H1 & H2)|(H1 & H2)]).
    - destruct l as [|y l]; [left; exists []; rewrite app_nil_r in *; by subst|].
      injection H2 as <- ->. right. by exists l.
    - left. by exists l. }
  destruct Hcase as [(D' & -> & ->)|(R' & -> & ->)].
  - rewrite <-app_assoc in Hch, Hh. cbn [app] in Hch, Hh. rewrite (chain_next _ _ _ _ _ _ Hch).
    destruct R as [|r R]; cbn [app hd].
    + destruct B as [|b B]; cbn [app hd].
      * rewrite Z.eqb_refl. cbn [negb]. rewrite Hh. by destruct D'.
      * change b with (hd NULL (b :: B)) at 1. by rewrite Hnull by set_solver.
    + change r with (hd NULL (r :: R)) at 1. by rewrite Hnull by set_solver.
  - rewrite app_assoc in Hch. rewrite (chain_next _ _ _ _ _ _ Hch). destruct R' as [|r R']; cbn [app hd].
    + rewrite Z.eqb_refl. cbn [negb]. rewrite Hh. destruct A as [|a A]; [by destruct D|done].
    + change r with (hd NULL (r :: R')) at 1. by rewrite Hnull by set_solver.
Qed.

(** What the loop leaves when it visits the connections [V]. *)
Record polled (s s' : cc_state) (V : list Z) (cur : Z) : Prop := {
  po_conns : cc_conns s' = cc_conns s;
  po_next : next_conn s' = next_conn s;
  po_last : last_ts s' = last_ts s;
  po_links : cc_next s' = cc_next s;
  po_controlled p : p ∈ V -> controlled s s' p cur;
  po_other p : p ∉ V -> conns s' p = conns s p;
  po_flow f : (forall p, p ∈ V -> status (conns s p) = CONN_OPEN -> flow_id (conns s p) <> f) ->
    flowst (nic s') f = flowst (nic s) f
}.

Lemma due_open s p cur : due s p cur = true -> status (conns s p) = CONN_OPEN.
Proof. unfold due. intros [H%bool_decide_eq_true _]%andb_true_iff. done. Qed.

Lemma polled_cons s s1 s' L p V cur : cc_inv s L -> p ∈ L -> (forall q, q ∈ V -> q ∈ L) -> p ∉ V ->
  visited s s1 p -> controlled s s1 p cur -> polled s1 s' V cur -> polled s s' (p :: V) cur.
Proof.
  intros Hi Hp HV Hn Hv Hc1 Hpo.
  assert (Hoth : forall q, q ∈ V -> conns s1 q = conns s q).
  { intros q Hq. apply (vi_other _ _ _ Hv). set_solver. }
  constructor.
  - by rewrite (po_conns _ _ _ _ Hpo), (vi_conns _ _ _ Hv).
  - by rewrite (po_next _ _ _ _ Hpo), (vi_next _ _ _ Hv).
  - by rewrite (po_last _ _ _ _ Hpo), (vi_last _ _ _ Hv).
  - by rewrite (po_links _ _ _ _ Hpo), (vi_links _ _ _ Hv).
  - intros q [->|Hq]%elem_of_cons.
    + unfold controlled in *. rewrite (po_other _ _ _ _ Hpo p Hn). destruct (due s p cur) eqn:Ed; [|done].
      rewrite (po_flow _ _ _ _ Hpo); [done|]. intros q Hq Hoq Eq. rewrite (Hoth q Hq) in *.
      apply Hn. rewrite <-(ci_ids _ _ Hi q p); auto. by eapply due_open.
    + pose proof (po_controlled _ _ _ _ Hpo q Hq) as Hcq. unfold controlled in *.
      assert (Ed : due s1 q cur = due s q cur) by (unfold due; by rewrite Hoth).
      rewrite Ed in Hcq. destruct (due s q cur) eqn:Ed'; [|by rewrite Hcq, Hoth].
      rewrite (Hoth q Hq) in Hcq. rewrite (vi_flow _ _ _ Hv) in Hcq; [done|].
      destruct (decide (status (conns s p) = CONN_OPEN)) as [Ho|Ho]; [left|by right].
      intros Eq. apply Hn. rewrite <-(ci_ids _ _ Hi q p); auto. by eapply due_open.
  - intros q Hq. rewrite (po_other _ _ _ _ Hpo) by set_solver. apply (vi_other _ _ _ Hv). set_solver.
  - intros f Hf. rewrite (po_flow _ _ _ _ Hpo).
    + apply (vi_flow _ _ _ Hv). destruct (decide (status (conns s p) = CONN_OPEN)) as [Ho|Ho]; [left|by right].
      intros ->. by apply (Hf p); [set_solver|..].
    + intros q Hq. rewrite (Hoth q Hq). apply Hf. set_solver.
Qed.

Lemma poll_loop_ok L rot cur : rotation L rot -> rot <> [] -> forall k s D R, cc_inv s L -> rot = D ++ R ->
  (forall p, p ∈ R -> clock_ok s p cur) ->
  exists s', poll_loop k s (hd (hd NULL rot) R) (hd NULL rot) (Z.of_nat (length D)) cur =
      Done (Z.of_nat (length D + Nat.min k (length R)), hd (hd NULL rot) (drop k R), s') /\
    cc_inv s' L /\ polled s s' (take k R) cur.
Proof.
  intros Hrot Hne. induction k as [|k IH]; intros s D R Hi E Hclk; cbn [cc_poll_loop].
  { exists s. rewrite Nat.add_0_r. split; [done|]. split; [done|]. constructor; try done. intros p Hp. by apply elem_of_nil in Hp. }
  pose proof (rotation_perm _ _ Hrot) as Hperm. pose proof (ci_nodup _ _ Hi) as Hnd. rewrite <-Hperm in Hnd.
  destruct R as [|x R]; cbn [hd].
  - rewrite app_nil_r in E. subst D. rewrite Z.eqb_refl. cbn [negb]. rewrite orb_false_r.
    rewrite (proj2 (Z.eqb_neq (Z.of_nat (length rot)) 0)) by (destruct rot; cbn; [done|lia]).
    exists s. rewrite Nat.min_0_r, Nat.add_0_r, drop_nil. split; [done|]. split; [done|].
    constructor; try done. intros p Hp. by apply elem_of_nil in Hp.
  - assert (Hb : (Z.of_nat (length D) =? 0) || negb (x =? hd NULL rot) = true).
    { destruct D as [|d D]; [done|]. apply orb_true_iff. right. rewrite E in *. cbn [hd app] in *.
      apply NoDup_cons in Hnd as [Hd _]. rewrite (proj2 (Z.eqb_neq x d)); [done|]. set_solver. }
    rewrite Hb. assert (HL : forall q, q ∈ x :: R -> q ∈ L).
    { intros q Hq. rewrite <-Hperm, E. set_solver. }
    destruct (cc_control_ok s L x cur Hi) as (s1 & -> & Hv & Hc1 & Hi1); [set_solver|apply Hclk; set_solver|].
    cbn [mbind outcome_bind].
    rewrite (ring_next_ok s1 L rot D x R (ci_chain _ _ Hi1) Hrot E).
    replace (Z.of_nat (length D) + 1) with (Z.of_nat (length (D ++ [x]))) by (rewrite length_app; cbn; lia).
    assert (HxR : x ∉ R). { rewrite E in Hnd. apply NoDup_app in Hnd as (_ & _ & Hnd). by apply NoDup_cons in Hnd as [? _]. }
    destruct (IH s1 (D ++ [x]) R) as (s' & -> & Hi' & Hpo).
    + done.
    + by rewrite <-app_assoc.
    + intros q Hq. unfold clock_ok. rewrite (vi_other _ _ _ Hv) by set_solver. apply Hclk. set_solver.
    + exists s'. split; [|split; [done|]].
      * rewrite length_app. cbn [length drop]. do 3 f_equal. lia.
      * cbn [take]. eapply polled_cons; try done; [set_solver| |].
        -- intros q Hq. apply HL. rewrite <-(take_drop k R). set_solver.
        -- intros Hx. apply HxR. rewrite <-(take_drop k R). set_solver.
Qed.

(** The ring starts at [next_conn], or at the head of the list when there is none. *)
Lemma start_rotation s L : cc_inv s L -> L <> [] ->
  exists rot, rotation L rot /\ rot <> [] /\
    hd NULL rot = (if negb (next_conn s =? NULL) then next_conn s else cc_conns s) /\ hd NULL rot <> NULL.
Proof.
  intros Hi HL. pose proof (chain_hd _ _ _ (ci_chain _ _ Hi)) as Hh.
  pose proof (seg_notin_null _ _ _ _ _ (ci_chain _ _ Hi)) as Hnn. destruct (ci_next _ _ Hi) as [->|Hn].
  - exists L. rewrite Z.eqb_refl. cbn [negb]. split; [exists [], L; by rewrite app_nil_r|]. split; [done|].
    split; [done|]. destruct L as [|x L]; [done|]. cbn. set_solver.
  - apply list_elem_of_split in Hn as (A & B & ->).
    assert (Hx : next_conn s <> NULL) by set_solver. rewrite (proj2 (Z.eqb_neq _ NULL)) by done. cbn [negb].
    exists (next_conn s :: B ++ A). split; [by exists A, (next_conn s :: B)|]. done.
Qed.

(** C20: [cc_poll]. *)
Theorem cc_poll_correct s L cur : cc_inv s L -> (forall p, p ∈ L -> clock_ok s p cur) ->
  exists n s', poll s cur = Done (n, s') /\ cc_inv s' L /\ n = Z.min 128 (Z.of_nat (length L)) /\ last_ts s' = cur /\
    exists V R, rotation L (V ++ R) /\ Z.of_nat (length V) = n /\
      (L <> [] -> hd NULL V = (if negb (next_conn s =? NULL) then next_conn s else cc_conns s) /\
                  next_conn s' = hd (hd NULL V) R) /\
      (forall p, p ∈ V -> controlled s s' p cur) /\ (forall p, p ∉ V -> conns s' p = conns s p).
Proof.
  intros Hi Hclk. unfold cc_poll. destruct (decide (L = [])) as [->|HL].
  { assert (E : next_conn s = NULL) by (destruct (ci_next _ _ Hi) as [|H]; [done|by apply elem_of_nil in H]).
    pose proof (chain_hd _ _ _ (ci_chain _ _ Hi)) as Hh. cbn in Hh. rewrite E, Hh. cbn.
    eexists _, _. split; [reflexivity|]. split; [by destruct Hi|]. split; [done|]. split; [done|].
    exists [], []. split; [by exists [], []|]. split; [done|]. split; [done|]. split; [set_solver|done]. }
  destruct (start_rotation s L Hi HL) as (rot & Hrot & Hne & Est & Hnull). rewrite <-Est.
  rewrite (proj2 (Z.eqb_neq _ NULL)) by done. pose proof (rotation_perm _ _ Hrot) as Hperm.
  destruct (poll_loop_ok L rot cur Hrot Hne CC_POLL_MAX s [] rot Hi eq_refl) as (s1 & E & Hi1 & Hpo).
  { intros p Hp. apply Hclk. by rewrite <-Hperm. }
  replace (hd (hd NULL rot) rot) with (hd NULL rot) in E by by destruct rot.
  change (Z.of_nat (length (@nil Z))) with 0 in E. rewrite E. cbn [mbind outcome_bind].
  assert (Hlen : length rot = length L) by (by apply Permutation_length).
  assert (Hhd : hd NULL (take CC_POLL_MAX rot) = hd NULL rot) by by destruct rot.
  eexists _, _. split; [reflexivity|]. split; [|split; [|split]].
  - destruct Hi1. constructor; try done. right.
    change (hd (hd NULL rot) (drop CC_POLL_MAX rot) ∈ L). rewrite <-Hperm.
    destruct (drop CC_POLL_MAX rot) as [|y R] eqn:Ed; cbn [hd].
    + destruct rot; [done|]. apply elem_of_cons. by left.
    + assert (Hy : y ∈ drop CC_POLL_MAX rot) by (rewrite Ed; apply elem_of_cons; by left).
      rewrite <-(take_drop CC_POLL_MAX rot). apply elem_of_app. by right.
  - unfold CC_POLL_MAX. cbn [length]. rewrite Hlen. lia.
  - done.
  - exists (take CC_POLL_MAX rot), (drop CC_POLL_MAX rot). split; [by rewrite take_drop|].
    split; [unfold CC_POLL_MAX; rewrite length_take; cbn [length]; lia|]. rewrite Hhd.
    split; [by cbn|]. split; [apply (po_controlled _ _ _ _ Hpo)|apply (po_other _ _ _ _ Hpo)].
Qed.
End Props.

(** ** Adding and removing connections *)
Section Lists.
Context (config : configuration).
#[local] Abbreviation cc_inv := (cc_inv config).

Lemma find_cc_pred_ok s p : forall A q B fuel, chain NULL (cc_next s) (hd NULL (A ++ q :: p :: B)) (A ++ q :: p :: B) ->
  NoDup (A ++ q :: p :: B) -> (length A < fuel)%nat -> find_cc_pred fuel s (hd NULL (A ++ q :: p :: B)) p = Done q.
Proof.
  induction A as [|a A IH]; intros q B fuel Hch Hnd Hf; (destruct fuel as [|fuel]; [cbn in Hf; lia|]); cbn [find_cc_pred app hd].
  - destruct Hch as (_ & Hq & Hch). rewrite (proj2 (Z.eqb_neq q NULL)) by done. destruct Hch as (E & _). by rewrite E, Z.eqb_refl.
  - destruct Hch as (_ & Ha & Hch). fold seg in Hch. rewrite (proj2 (Z.eqb_neq a NULL)) by done.
    pose proof (chain_hd _ _ _ Hch) as Hh. cbn [app] in Hnd. apply NoDup_cons in Hnd as [Hna Hnd].
    assert (Hnp : cc_next s a <> p).
    { rewrite Hh. destruct A as [|b A]; cbn; intros ->.
      - apply NoDup_cons in Hnd as [Hnd _]. set_solver.
      - cbn [app] in Hnd. apply NoDup_cons in Hnd as [Hnd _]. set_solver. }
    rewrite (proj2 (Z.eqb_neq _ p)) by done. rewrite Hh. apply IH; [by rewrite <-Hh|done|cbn in Hf; lia].
Qed.

Lemma find_cc_pred_none s p : forall L fuel, chain NULL (cc_next s) (hd NULL L) L -> p ∉ L -> p <> NULL ->
  (length L < fuel)%nat -> find_cc_pred fuel s (hd NULL L) p = Aborted.
Proof.
  induction L as [|a L IH]; intros fuel Hch Hp H0 Hf; (destruct fuel as [|fuel]; [cbn in Hf; lia|]); cbn [find_cc_pred hd].
  - by rewrite Z.eqb_refl.
  - destruct Hch as (_ & Ha & Hch). fold seg in Hch. rewrite (proj2 (Z.eqb_neq a NULL)) by done.
    pose proof (chain_hd _ _ _ Hch) as Hh.
    assert (Hnp : cc_next s a <> p) by (rewrite Hh; destruct L; cbn in *; set_solver).
    rewrite (proj2 (Z.eqb_neq _ p)) by done. rewrite Hh. apply IH; [by rewrite <-Hh|set_solver|done|cbn in Hf; lia].
Qed.

Lemma find_cc_pred_same s s' p : cc_next s' = cc_next s -> forall fuel cp, find_cc_pred fuel s' cp p = find_cc_pred fuel s cp p.
Proof. intros E. induction fuel as [|fuel IH]; intros cp; cbn [find_cc_pred]; [done|]. by rewrite E, IH. Qed.

(** [cc_conn_remove]. *)
Theorem cc_conn_remove_correct s L p fuel : cc_inv s L -> p <> NULL -> (length L < fuel)%nat ->
  if bool_decide (p ∈ L) then
    exists s' A B, cc_conn_remove fuel s p = Done s' /\ L = A ++ p :: B /\ cc_inv s' (A ++ B) /\ conns s' = conns s /\
      next_conn s' = (if next_conn s =? p then hd NULL B else next_conn s)
  else cc_conn_remove fuel s p = Aborted.
Proof.
  intros Hi H0 Hf. pose proof (ci_chain _ _ _ Hi) as Hch. pose proof (ci_nodup _ _ _ Hi) as Hnd.
  pose proof (chain_hd _ _ _ Hch) as Hh. unfold cc_conn_remove.
  set (s1 := if next_conn s =? p then _ else _).
  assert (Es : cc_conns s1 = cc_conns s /\ cc_next s1 = cc_next s /\ conns s1 = conns s /\ nic s1 = nic s /\
    next_conn s1 = (if next_conn s =? p then cc_next s p else next_conn s)).
  { unfold s1. by destruct (next_conn s =? p). }
  destruct Es as (E1 & E2 & E3 & E4 & E5). clearbody s1.
  destruct (bool_decide_reflect (p ∈ L)) as [Hp|Hp].
  - apply list_elem_of_split in Hp as (A & B & ->). pose proof (chain_next _ _ _ _ _ _ Hch) as Hnx.
    assert (Hsub : forall q, q ∈ A ++ B -> q ∈ A ++ p :: B) by set_solver.
    assert (Hpn : (p ∉ A ++ B) /\ NoDup (A ++ B)).
    { assert (Hperm : A ++ p :: B ≡ₚ p :: A ++ B) by solve_Permutation. rewrite Hperm in Hnd. by apply NoDup_cons in Hnd. }
    assert (Hinv : forall s', chain NULL (cc_next s') (cc_conns s') (A ++ B) -> conns s' = conns s -> nic s' = nic s ->
      next_conn s' = (if next_conn s =? p then hd NULL B else next_conn s) -> cc_inv s' (A ++ B)).
    { intros s' Hch' Ec En Enx. constructor; rewrite ?Ec, ?En; try apply Hpn; try done.
      - rewrite Enx. destruct (Z.eqb_spec (next_conn s) p) as [E|E].
        + destruct B as [|b B]; [by left|right]. cbn. set_solver.
        + destruct (ci_next _ _ _ Hi) as [H|H]; [by left|right]. set_solver.
      - intros q Hq. by apply (ci_conn _ _ _ Hi), Hsub.
      - intros q Hq. by apply (ci_open _ _ _ Hi), Hsub.
      - intros q q' Hq Hq'. apply (ci_ids _ _ _ Hi); auto.
      - apply (ci_rtt _ _ _ Hi). }
    rewrite Hnx in E5. destruct (Z.eqb_spec (cc_conns s1) p) as [Ep|Ep].
    + assert (A = []) as ->. { destruct A as [|a A]; [done|]. cbn in *. destruct Hpn as [Hpn _]. set_solver. }
      eexists _, [], B. split; [reflexivity|]. split; [done|]. split; [|done].
      apply Hinv; try done. cbn. rewrite E2. by destruct Hch as (_ & _ & Hch).
    + assert (HA : A <> []). { intros ->. apply Ep. rewrite E1. by destruct Hch. }
      destruct (last A) as [q|] eqn:El; [|by apply last_None in El]. apply last_Some in El as [A' ->].
      rewrite <-app_assoc in Hch, Hnd, Hh, Hf. cbn [app] in Hch, Hnd, Hh, Hf.
      rewrite (find_cc_pred_same s s1) by done. rewrite E1, Hh, find_cc_pred_ok;
        [|by rewrite <-Hh|done|rewrite length_app in Hf; lia].
      cbn [mbind outcome_bind]. rewrite E2, Hnx. eexists _, (A' ++ [q]), B. split; [reflexivity|]. split; [done|]. split; [|done].
      apply Hinv; try done. cbn. rewrite E1. eapply (chain_remove NULL (cc_next s) _ (cc_conns s) _ _ p).
      * rewrite <-app_assoc. exact Hch.
      * apply Hpn.
      * intros y Hy. rewrite last_snoc. destruct (decide (Some q = Some y)) as [[= <-]|Hne]; [by apply fn_lookup_insert|].
        apply fn_lookup_insert_ne. congruence.
      * rewrite decide_False; [done|]. by destruct A'.
  - rewrite E1. destruct (Z.eqb_spec (cc_conns s) p) as [Ep|Ep].
    { destruct L as [|a L]; cbn in Hh; [congruence|]. set_solver. }
    rewrite (find_cc_pred_same s s1) by done. rewrite Hh, (find_cc_pred_none s p L); try done. by rewrite <-Hh.
Qed.
Context (Hc : config_ok config).

Lemma cc_algo_init_ok c : cc_rtt c = tcp_rtt_init config -> cc_rexmits c = 0 -> 2 * CONF_MSS <= tx_len c < 4294967296 ->
  exists c', cc_algo_init config c = Done c' /\ conn_ok config c' /\ cc_frame c c'.
Proof.
  intros Er Ex Ht. pose proof (ok_rtt _ Hc) as Hr. unfold cc_algo_init. pose proof (ok_algo _ Hc) as Ho.
  destruct (algorithm config) eqn:Ea; try done.
  - unfold dctcp_win_init. cbn [window].
    destruct (window_to_rate_ok config Hc (2 * CONF_MSS) (tcp_rtt_init config)) as (r & E & Hr1 & _); [unfold CONF_MSS; lia|done|].
    match goal with |- context [window_to_rate config ?w _] => change w with (2 * CONF_MSS) end.
    rewrite E. eexists. split; [reflexivity|]. split; [|by destruct c].
    constructor; cbn; rewrite ?Er, ?Ex; try done; try lia; try congruence. unfold UINT32_MAX in *. lia.
    intros _. unfold CONF_MSS in *. lia.
  - eexists. split; [reflexivity|]. split; [|by destruct c].
    constructor; cbn; rewrite ?Er, ?Ex; try done; try congruence; try lia. apply (ok_dinit _ Hc).
  - eexists. split; [reflexivity|]. split; [|by destruct c].
    constructor; cbn; rewrite ?Er, ?Ex; try done; try congruence; try lia. apply (ok_tinit _ Hc).
  - eexists. split; [reflexivity|]. split; [|by destruct c].
    constructor; cbn; rewrite ?Er, ?Ex; try done; try congruence; try lia. apply (ok_const _ Hc).
Qed.

(** [cc_conn_init] adds a connection that is not open yet. *)
Lemma cc_conn_init_ok s L p cur : cc_inv s L -> p ∉ L -> p <> NULL -> status (conns s p) <> CONN_OPEN ->
  2 * CONF_MSS <= tx_len (conns s p) < 4294967296 ->
  exists s', cc_conn_init config s p cur = Done s' /\ cc_inv s' (p :: L) /\ (forall q, q <> p -> conns s' q = conns s q) /\
    cc_last_ts (conns s' p) = cur /\ status (conns s' p) = status (conns s p).
Proof.
  intros Hi Hp H0 Hst Ht. unfold cc_conn_init.
  destruct (cc_algo_init_ok ((conns s p) <| cc_last_ts := cur |> <| cc_rtt := tcp_rtt_init config |> <| cc_rexmits := 0 |>))
    as (c' & E & Hco & Hf); [done|done|done|].
  match goal with |- context [cc_algo_init config ?c] => change (cc_algo_init config c) with
    (cc_algo_init config ((conns s p) <| cc_last_ts := cur |> <| cc_rtt := tcp_rtt_init config |> <| cc_rexmits := 0 |>)) end.
  rewrite E. cbn [mbind outcome_bind]. eexists. split; [reflexivity|]. set (s' := set_conn _ p c').
  assert (Hp' : conns s' p = c') by apply fn_lookup_insert.
  assert (Ho : forall q, q <> p -> conns s' q = conns s q) by (intros q Hq; by apply fn_lookup_insert_ne).
  assert (Hst' : status (conns s' p) = status (conns s p)) by (by rewrite Hp', Hf).
  split; [|split; [done|split; [by rewrite Hp', Hf|done]]]. constructor.
  - eapply chain_push; [apply (ci_chain _ _ _ Hi)|done|done|apply fn_lookup_insert|].
    intros y Hy. apply fn_lookup_insert_ne. set_solver.
  - apply NoDup_cons. split; [done|apply (ci_nodup _ _ _ Hi)].
  - destruct (ci_next _ _ _ Hi) as [H|H]; [by left|right]. apply elem_of_cons. by right.
  - intros q [->|Hq]%elem_of_cons; [by rewrite Hp'|]. rewrite Ho by set_solver. by apply (ci_conn _ _ _ Hi).
  - intros q [->|Hq]%elem_of_cons; [by rewrite Hst'|]. rewrite Ho by set_solver. by apply (ci_open _ _ _ Hi).
  - intros q q' [->|Hq]%elem_of_cons [->|Hq']%elem_of_cons; try (by rewrite Hst').
    rewrite !Ho by set_solver. by apply (ci_ids _ _ _ Hi).
  - apply (ci_rtt _ _ _ Hi).
Qed.

(** ** The time to sleep *)

(** The time until the control interval of [p] is over; what [cc_next_ts] computes. *)
Definition wait (s : cc_state) (p cur : Z) : Z :=
  s32 (u32 (u32 (cc_rtt (conns s p) * cc_control_interval config) - u32 (cur - cc_last_ts (conns s p)))).
Definition opened (s : cc_state) (p : Z) : Prop := status (conns s p) = CONN_OPEN.

#[export] Instance opened_dec s p : Decision (opened s p) := decide (status (conns s p) = CONN_OPEN).
#[export] Typeclasses Opaque opened.

Lemma next_ts_loop_ok s cur : forall L fuel ts, chain NULL (cc_next s) (hd NULL L) L -> (length L < fuel)%nat -> 0 <= ts ->
  exists t, next_ts_loop config fuel s (hd NULL L) ts cur = Done t /\ 0 <= t <= ts /\
    (forall p, p ∈ L -> opened s p -> t <= Z.max 0 (wait s p cur)) /\
    (t = ts \/ exists p, p ∈ L /\ opened s p /\ t = Z.max 0 (wait s p cur)).
Proof.
  induction L as [|x L IH]; intros fuel ts Hch Hf Hts; (destruct fuel as [|fuel]; [cbn in Hf; lia|]); cbn [next_ts_loop hd].
  - rewrite Z.eqb_refl. exists ts. split; [done|]. split; [lia|]. split; [intros p Hp; by apply elem_of_nil in Hp|by left].
  - destruct Hch as (_ & Hx & Hch). fold seg in Hch. rewrite (proj2 (Z.eqb_neq x NULL)) by done. cbv zeta. fold (wait s x cur).
    set (ts' := if negb _ then _ else _).
    assert (Hts' : 0 <= ts' <= ts /\ (opened s x -> ts' <= Z.max 0 (wait s x cur)) /\
      (ts' = ts \/ opened s x /\ ts' = Z.max 0 (wait s x cur))).
    { unfold ts', opened. destruct (bool_decide_reflect (status (conns s x) = CONN_OPEN)) as [Ho|Ho]; cbn [negb];
        [|split; [lia|]; split; [done|by left]].
      destruct (Z.leb_spec 0 (wait s x cur)); [|split; [lia|]; split; [lia|]; right; split; [done|lia]].
      destruct (Z.ltb_spec (wait s x cur) ts); (split; [lia|]; split; [lia|]); [right; split; [done|lia]|by left]. }
    clearbody ts'. destruct Hts' as (H1 & H2 & H3). pose proof (chain_hd _ _ _ Hch) as Hh. rewrite Hh.
    destruct (IH fuel ts') as (t & -> & Ht & Hall & Hex); [by rewrite <-Hh|cbn in Hf; lia|lia|].
    exists t. split; [done|]. split; [lia|]. split.
    + intros p [->|Hp]%elem_of_cons Ho; [specialize (H2 Ho); lia|by apply Hall].
    + destruct Hex as [->|(p & Hp & Ho & Et)].
      * destruct H3 as [->|[Ho E]]; [by left|right]. exists x. split; [apply elem_of_cons; by left|done].
      * right. exists p. split; [apply elem_of_cons; by right|done].
Qed.

(** Until then the connection is not due. *)
Lemma wait_not_due s L p cur d : cc_inv s L -> p ∈ L -> u32 (cur - cc_last_ts (conns s p)) <= 2147483648 ->
  0 <= d < wait s p cur -> due config s p (u32 (cur + d)) = false.
Proof.
  intros Hi Hp He Hd. unfold due. apply andb_false_iff. right. apply Z.leb_gt. unfold wait in Hd.
  pose proof (co_rtt _ _ (ci_conn _ _ _ Hi p Hp)) as Hr. pose proof (ok_interval _ Hc) as Hn. unfold MAX_RTT in Hr.
  set (r := cc_rtt (conns s p) * cc_control_interval config) in *. assert (Hrr : 0 < r < 2147483648) by (unfold r; nia).
  clearbody r. rewrite (u32_small r) in * by lia. set (last := cc_last_ts (conns s p)) in *. clearbody last.
  pose proof (u32_range (cur - last)) as Hu. replace (u32 (u32 (cur + d) - last)) with (u32 (u32 (cur - last) + d)).
  2:{ autorewrite with wrap_rw. f_equal. lia. }
  set (e := u32 (cur - last)) in *. clearbody e. destruct (Z.le_gt_cases e r).
  - rewrite (u32_small (r - e)), s32_small in Hd by lia. rewrite u32_small by lia. lia.
  - exfalso. rewrite (u32_neg (r - e)) in Hd by lia. unfold s32 in Hd. Z.div_mod_to_equations. lia.
Qed.

(** [cc_next_ts]. *)
Theorem cc_next_ts_correct s L cur fuel : cc_inv s L -> last_ts s <= cur -> (length L < fuel)%nat ->
  (forall p, p ∈ L -> u32 (cur - cc_last_ts (conns s p)) <= 2147483648) ->
  exists t, cc_next_ts config fuel s cur = Done t /\
    if bool_decide (Exists (opened s) L)
    then exists m, t = Z.max m (u32 (cc_control_granularity config - u32 (cur - last_ts s))) /\
      (exists p, p ∈ L /\ opened s p /\ m = Z.max 0 (wait s p cur)) /\
      (forall d p, 0 <= d < m -> p ∈ L -> due config s p (u32 (cur + d)) = false)
    else t = UINT32_MAX.
Proof.
  intros Hi Hl Hf He. unfold cc_next_ts. rewrite (proj2 (Z.leb_le _ cur) Hl). cbn [assert_ mbind outcome_bind].
  pose proof (ci_chain _ _ _ Hi) as Hch. pose proof (chain_hd _ _ _ Hch) as Hh. rewrite Hh in *.
  destruct (next_ts_loop_ok s cur L fuel UINT32_MAX Hch Hf ltac:(unfold UINT32_MAX; lia)) as (t & -> & Ht & Hall & Hex).
  cbn [mbind outcome_bind]. eexists. split; [reflexivity|]. set (g := u32 (cc_control_granularity config - _)). clearbody g.
  assert (Hw : forall p, wait s p cur <= INT32_MAX) by (intros p; apply s32_range).
  destruct (bool_decide_reflect (Exists (opened s) L)) as [Ho|Ho].
  - apply Exists_exists in Ho as (q & Hq & Ho). specialize (Hall q Hq Ho) as Htq. specialize (Hw q) as Hwq. unfold INT32_MAX, UINT32_MAX in *.
    destruct (Z.eqb_spec t 4294967295) as [E|E]; [lia|]. exists t. split; [destruct (Z.ltb_spec t g); lia|].
    split; [by destruct Hex as [E'|Hex]|]. intros d p Hd Hp.
    destruct (decide (status (conns s p) = CONN_OPEN)) as [Hop|Hop].
    + specialize (Hall p Hp Hop). apply (wait_not_due s L); auto. lia.
    + unfold due. by rewrite bool_decide_false.
  - destruct Hex as [->|(p & Hp & Hop & _)]; [done|]. destruct Ho. apply Exists_exists. by exists p.
Qed.
End Lists.

(** ** Concrete connections *)

(** The default configuration. *)
Definition ex_config (a : cc_algorithm) : configuration :=
  mk_config 8192 8192 50 10 10000 10 a 50 2 4 268435455 10000 10000 0 0 50 0 30 150 10000 10000 85899345 3435973836 11 10000.

Lemma ex_config_ok a : a <> CC_OTHER -> config_ok (ex_config a).
Proof. intros Ha. constructor; cbn; unfold MAX_RTT; try lia. done. Qed.

Definition ex_conn (f : Z) : connection :=
  mk_connection 0 0 0 0 0 0 0 8192 8192 2 1 4000 80 CONN_OPEN 1000 5000 0 0 0 false 0 50 0 0 0 0 448000 0
    (mk_dctcp_win 0 2800 true) (mk_dctcp_rate 0 0 0 0 0 0 true) (mk_timely 0 0 0 0 0 true) 0 0 f 0 0 3.

Definition ex_cc : cc_state :=
  mk_cc 1 2 900 (fun p => if p =? 1 then 2 else if p =? 2 then 3 else 0) ex_conn (mk_kstats 0 0 0 0) (NicifProps.ex_nicif 4).

Lemma ex_cc_inv : cc_inv (ex_config CONFIG_CC_DCTCP_WIN) ex_cc [1; 2; 3].
Proof.
  constructor.
  - by repeat split.
  - repeat constructor; set_solver.
  - right. set_solver.
  - intros p _. constructor; cbn; try done; unfold MAX_RTT, CONF_MSS; lia.
  - intros p Hp _. assert (p = 1 \/ p = 2 \/ p = 3) as [->|[->| ->]] by set_solver; unfold FLEXNIC_PL_FLOWST_NUM; cbn; lia.
  - done.
  - intros f. cbn. unfold MAX_RTT. lia.
Qed.

Lemma cc_poll_correct_witness : exists s', cc_poll (ex_config CONFIG_CC_DCTCP_WIN) 4 (fun _ => 0) ex_cc 1000 = Done (3, s') /\
  next_conn s' = 2 /\ cc_last_ts (conns s' 1) = 1000.
Proof.
  destruct (cc_poll_correct _ (ex_config_ok CONFIG_CC_DCTCP_WIN ltac:(done)) 4 (fun _ => 0) ex_cc [1; 2; 3] 1000 ex_cc_inv)
    as (n & s' & E & _ & En & _ & V & R & Hrot & Hl & Hst & Hv & _).
  { intros p _. by left. }
  exists s'. cbn [length] in En. subst n. split; [exact E|].
  assert (Hperm : V ++ R ≡ₚ [1; 2; 3]) by (by apply rotation_perm). apply Permutation_length in Hperm as Hlen.
  rewrite length_app in Hlen. cbn in Hlen. destruct R as [|r R]; [|cbn in Hlen; lia].
  destruct (Hst ltac:(done)) as [Eh En]. split; [by rewrite En; cbn; rewrite Eh|].
  rewrite app_nil_r in Hperm.
  assert (H1 : 1 ∈ V) by (rewrite Hperm; apply elem_of_cons; by left).
  specialize (Hv 1 H1). by destruct Hv.
Defined.

Lemma cc_conn_remove_correct_witness : exists s' A B, cc_conn_remove 4 ex_cc 2 = Done s' /\ [1; 2; 3] = A ++ 2 :: B /\
  next_conn s' = hd NULL B.
Proof.
  pose proof (cc_conn_remove_correct (ex_config CONFIG_CC_DCTCP_WIN) ex_cc [1; 2; 3] 2 4 ex_cc_inv ltac:(done) ltac:(cbn; lia)) as H.
  rewrite bool_decide_true in H by (apply elem_of_cons; right; apply elem_of_cons; by left).
  destruct H as (s' & A & B & E & EL & _ & _ & En). exists s', A, B. split; [exact E|]. split; [exact EL|exact En].
Defined.

Lemma cc_next_ts_correct_witness : exists t, cc_next_ts (ex_config CONFIG_CC_DCTCP_WIN) 4 (ex_cc <| conns := fun p => (ex_conn p) <| cc_last_ts := 900 |> |>) 900 = Done t /\ t = 100.
Proof.
  destruct (cc_next_ts_correct _ (ex_config_ok CONFIG_CC_DCTCP_WIN ltac:(done))
    (ex_cc <| conns := fun p => (ex_conn p) <| cc_last_ts := 900 |> |>) [1; 2; 3] 900 4) as (t & E & H).
  - destruct ex_cc_inv. by constructor.
  - cbn. lia.
  - cbn. lia.
  - intros p _. by vm_compute.
  - exists t. split; [exact E|]. rewrite bool_decide_true in H by (apply Exists_cons; by left).
    destruct H as (m & -> & (p & Hp & _ & ->) & _). by vm_compute.
Defined.

(** A loss halves the window, marked bytes cut it, and a round trip time above the high
    threshold cuts TIMELY's rate. *)
Lemma cc_algo_update_correct_witness :
  (exists c' st', cc_algo_update (ex_config CONFIG_CC_DCTCP_WIN) (ex_conn 1) (mk_stats 1 10 5000 0 true 60) 1000 =
      Done (c', st') /\ window (cc_win c') = 1400) /\
  (exists c' st', cc_algo_update (ex_config CONFIG_CC_DCTCP_WIN) (ex_conn 1) (mk_stats 0 10 5000 5000 true 60) 1000 =
      Done (c', st') /\ window (cc_win c') < 2800) /\
  (exists c' st', cc_algo_update (ex_config CONFIG_CC_TIMELY) (ex_conn 1) (mk_stats 0 10 5000 0 true 300) 1000 =
      Done (c', st') /\ cc_rate c' <= 268800).
Proof.
  assert (Hok : forall a, conn_ok (ex_config a) (ex_conn 1)).
  { intros a. constructor; cbn; try done; unfold MAX_RTT, CONF_MSS; lia. }
  assert (Hst : forall d e r, 0 <= d < 65536 -> 0 <= e <= 5000 -> 0 <= r <= 300 -> stats_ok (mk_stats d 10 5000 e true r)).
  { intros. constructor; cbn; unfold MAX_RTT; lia. }
  split; [|split].
  - destruct (cc_algo_update_correct (ex_config CONFIG_CC_DCTCP_WIN) (ex_config_ok CONFIG_CC_DCTCP_WIN ltac:(done)) (ex_conn 1)
      (mk_stats 1 10 5000 0 true 60) 1000 (Hok _) (Hst 1 0 60 ltac:(lia) ltac:(lia) ltac:(lia)) ltac:(done) (or_introl eq_refl))
      as (c' & st' & E & _ & _ & _ & _ & _ & _ & _ & Hl & _).
    exists c', st'. split; [exact E|]. rewrite Hl by (left; cbn; lia). reflexivity.
  - destruct (cc_algo_update_correct (ex_config CONFIG_CC_DCTCP_WIN) (ex_config_ok CONFIG_CC_DCTCP_WIN ltac:(done)) (ex_conn 1)
      (mk_stats 0 10 5000 5000 true 60) 1000 (Hok _) (Hst 0 5000 60 ltac:(lia) ltac:(lia) ltac:(lia)) ltac:(done) (or_introl eq_refl))
      as (c' & st' & E & _ & _ & _ & _ & _ & _ & _ & _ & He & _).
    exists c', st'. split; [exact E|]. destruct (He ltac:(unfold lost; cbn; lia) ltac:(cbn; lia)) as [_ ->]. reflexivity.
  - destruct (cc_algo_update_correct (ex_config CONFIG_CC_TIMELY) (ex_config_ok CONFIG_CC_TIMELY ltac:(done)) (ex_conn 1)
      (mk_stats 0 10 5000 0 true 300) 1000 (Hok _) (Hst 0 0 300 ltac:(lia) ltac:(lia) ltac:(lia)) ltac:(done) (or_introl eq_refl))
      as (c' & st' & E & _ & _ & _ & _ & _ & _ & Ht).
    exists c', st'. split; [exact E|].
    destruct (Ht ltac:(unfold timely_ok, MAX_RTT; cbn; lia)) as [_ Hr].
    destruct (Hr ltac:(done)) as (_ & _ & Hss & Hcut).
    destruct (Hcut Hss ltac:(cbn; lia)) as [Ha _]. specialize (Ha ltac:(cbn; lia)).
    eapply Z.le_trans; [exact Ha|]. vm_compute. discriminate.
Defined.

(** ** Defects *)

(** With a send buffer that is smaller than a segment the second assertion of
    [dctcp_win_update] fails: the window is first raised to the segment size and then cut
    to the buffer. *)
Theorem dctcp_win_small_buffer :
  cc_algo_update (ex_config CONFIG_CC_DCTCP_WIN) ((ex_conn 1) <| tx_len := 1024 |>) (mk_stats 0 10 500 0 true 60) 1000 = Aborted.
Proof. reflexivity. Qed.

(** The computation of the actual rate overflows from 536871 acknowledged bytes on: 600000
    bytes in 1000 microseconds are 4800 Mbps, and give 505 Mbps. *)
Theorem actual_rate_overflows : actual_rate 0 600000 2000 1000 = Done (63129, 505032).
Proof. reflexivity. Qed.

(** The additive increase of the rate is not checked for overflow: with a large rate it
    falls to almost nothing. *)
Theorem rate_step_wraps :
  fst (rate_adjust (ex_config CONFIG_CC_DCTCP_RATE) ((ex_conn 1) <| cc_rate := 4294960000 |>)
    (mk_dctcp_rate 0 0 0 0 0 4294960000 false) 0 1000 0 4294960000) = 2704.
Proof. reflexivity. Qed.

(** When the first connection of the list is added once more (a listener whose
    registration with the fast path has failed accepts the connection a second time), it
    becomes its own successor, and the search for the time of the next run never ends. *)
Theorem cc_conn_init_twice config s c ts cc' : cc_conns s = c -> c <> NULL -> cc_conn_init config s c ts = Done cc' ->
  forall fuel now, last_ts cc' <= now -> cc_next_ts config fuel cc' now = NoFuel.
Proof.
  intros <- H0 E fuel now Hnow.
  assert (Hs : cc_conns cc' = cc_conns s /\ cc_next cc' (cc_conns s) = cc_conns s).
  { unfold cc_conn_init in E. destruct (cc_algo_init _ _) as [k| |]; try done. injection E as <-. cbn.
    by rewrite fn_lookup_insert. }
  destruct Hs as [Ec En]. unfold cc_next_ts. rewrite (proj2 (Z.leb_le _ _)) by done. cbn [assert_ mbind outcome_bind]. rewrite Ec.
  assert (Hl : forall n t, next_ts_loop config n cc' (cc_conns s) t now = NoFuel).
  { induction n as [|n IH]; intros t; [done|]. cbn [next_ts_loop]. rewrite (proj2 (Z.eqb_neq _ NULL)) by done. rewrite En. apply IH. }
  by rewrite Hl.
Qed.
End CcProps.
