(* ===== verification/Tcp.v ===== *)
(** * Connection handling of the slow path ([tas/slow/tcp.c], [tas/slow/appif_ctx.c])

    Opening, accepting and closing connections: ports, the hash table of connections, the
    backlogs of listeners, the handshake with its timeouts, and the control packets.  It
    works on the state of the components below it: packet memory, ARP, the timers,
    congestion control and the interface to the fast path.  Addresses and ports are in
    one byte order. *)
From S2P Require Import Prelude Packet Rng Packetmem Timers Arp Routing Conn Nicif Cc.
From stdpp Require Import gmap.
#[local] Open Scope Z_scope.

Module Tcp.
Import Nicif Cc Arp.Arp Packet Conn.

Definition NULL : Z := 0.
Definition TCP_MSS : Z := 1460.
Definition TCP_HTSIZE : Z := 4096.
Definition PORT_FIRST_EPH : Z := 8192.
Definition LISTEN_MULTI_MAX : Z := 32.
Definition TO_TCP_HANDSHAKE : Z := 1.
Definition TO_TCP_RETRANSMIT : Z := 2.
Definition TO_TCP_CLOSED : Z := 3.
Definition TCP_MSS_OPT_SIZE : Z := 4.
Definition TCP_TS_OPT_SIZE : Z := 10.
Definition BACKLOG_BUF : Z := 126.

(** ** Data *)

(** An entry of [ports]: a pointer with its type in the lowest bits. *)
Inductive port : Type := PORT_UNUSED | PORT_LISTEN (l : Z) | PORT_LMULTI (lm : Z) | PORT_CONN (c : Z).

(** [struct listen_multi]. *)
Record listen_multi : Type := mk_lm { lm_num : Z; lm_ls : Z -> Z }.
#[export] Instance eta_lm : Eta listen_multi := fun r => mk_lm (lm_num r) (lm_ls r).

(** [struct backlog_slot], with the core and the flow group of the same index. *)
Record backlog_slot : Type := mk_slot { bs_pkt : pkt_tcp; bs_len : Z; bs_core : Z; bs_fg : Z }.

(** [memcpy(dst, src, len)] on packets, field by field.  A field of [w] bytes at offset
    [off] that is copied in part keeps its last bytes: those of least weight for a number
    in network byte order, those of most weight for an Ethernet address, which is read as
    a little-endian number. *)
Definition copy_be (len off w dst src : Z) : Z :=
  if off + w <=? len then src else if len <=? off then dst
  else let m := 256 ^ (off + w - len) in src / m * m + dst mod m.
Definition copy_le (len off w dst src : Z) : Z :=
  if off + w <=? len then src else if len <=? off then dst
  else let m := 256 ^ (len - off) in src mod m + dst / m * m.

Definition pkt_memcpy (dst src : pkt_tcp) (len : Z) : pkt_tcp :=
  let be off w (f : pkt_tcp -> Z) := copy_be len off w (f dst) (f src) in
  let le off w (f : pkt_tcp -> Z) := copy_le len off w (f dst) (f src) in
  let hdrlen_flags := be 46 2 (fun p => tcp_hdrlen p * 4096 + tcp_rsvd_flags p) in
  mk_pkt (le 0 6 eth_dest) (le 6 6 eth_src) (be 12 2 eth_type)
    (be 14 1 ip_v) (be 14 1 ip_hl) (be 15 1 ip_tos) (be 16 2 ip_len) (be 18 2 ip_id) (be 20 2 ip_offset)
    (be 22 1 ip_ttl) (be 23 1 ip_proto) (be 24 2 ip_chksum) (be 26 4 ip_src) (be 30 4 ip_dest)
    (be 34 2 tcp_src) (be 36 2 tcp_dest) (be 38 4 tcp_seqno) (be 42 4 tcp_ackno)
    (if 48 <=? len then tcp_hdrlen src else hdrlen_flags / 4096)
    (if 48 <=? len then tcp_rsvd_flags src else hdrlen_flags mod 4096)
    (be 48 2 tcp_wnd) (be 50 2 tcp_chksum) (be 52 2 tcp_urgp)
    (fun i => if PKT_TCP_SIZE + i <? len then p_body src i else p_body dst i).

(** [struct listener]. *)
Record listener : Type := mk_listener {
  l_opaque : Z; l_ctx : Z;
  backlog_len : Z; backlog_pos : Z; backlog_used : Z; backlog : Z -> backlog_slot;
  wait_conns : Z; l_port : Z; l_flags : Z
}.
#[export] Instance eta_listener : Eta listener := fun r =>
  mk_listener (l_opaque r) (l_ctx r) (backlog_len r) (backlog_pos r) (backlog_used r) (backlog r) (wait_conns r)
    (l_port r) (l_flags r).

(** [struct tcp_opts]: the offsets of the options behind the header. *)
Record tcp_opts : Type := mk_opts { o_mss : option Z; o_ts : option Z }.
#[export] Instance eta_opts : Eta tcp_opts := fun r => mk_opts (o_mss r) (o_ts r).

(** What an application is told about an open connection in the entries [conn_opened] and
    [accept_connection] of its queue. *)
Record conn_data : Type := mk_conn_data {
  cd_rx_off : Z; cd_tx_off : Z; cd_rx_len : Z; cd_tx_len : Z; cd_seq_rx : Z; cd_seq_tx : Z; cd_local_ip : Z;
  cd_flow_id : Z; cd_fn_core : Z
}.

(** The entries written to the queues of the applications, by the context of the connection
    or listener.  The data of a connection is only written with the status 0, in
    [CONN_OPENED] with the local port, in [CONN_ACCEPTED] with the remote address and
    port. *)
Inductive event : Type :=
  | CONN_OPENED (ctx opaque status : Z) (d : option (conn_data * Z))
  | CONN_ACCEPTED (ctx opaque status : Z) (d : option (conn_data * Z * Z))
  | CONN_CLOSE (ctx opaque status : Z)
  | CONN_MOVE (ctx opaque status : Z)
  | LISTEN_OPEN (ctx opaque status : Z)
  | LISTEN_NEWCONN (ctx opaque remote_ip remote_port : Z).

(** The results of the calls of [malloc] in a handler: for the connection, the handles of
    its buffers and the ARP entry. *)
Record mallocs : Type := mk_mallocs { m_conn : option Z; m_rx : option Z; m_tx : option Z; m_ae : option Z }.

(** The static variables of [tcp.c], the lists of the applications, the components below,
    the allocated connections, and as histories the control packets (with the buffer they
    are written to) and the notifications. *)
Record tcp_state (M : Type) : Type := mk_tcp {
  ports : Z -> port;
  port_eph_hint : Z;
  tcp_hashtable : Z -> Z;
  ht_next : Z -> Z;
  rng : Z;
  listeners : Z -> listener;
  lmultis : Z -> listen_multi;
  app_conns : Z -> Z;
  app_next : Z -> Z;
  cc : cc_state;
  arp : arp_state;
  pm : Packetmem.pmem;
  tm : M;
  allocated : gset Z;
  tcp_sent : list (Z * pkt_tcp);
  events : list event
}.
Arguments mk_tcp {M}. Arguments ports {M}. Arguments port_eph_hint {M}. Arguments tcp_hashtable {M}.
Arguments ht_next {M}. Arguments rng {M}. Arguments listeners {M}. Arguments lmultis {M}. Arguments app_conns {M}.
Arguments app_next {M}. Arguments cc {M}. Arguments arp {M}. Arguments pm {M}. Arguments tm {M}.
Arguments allocated {M}. Arguments tcp_sent {M}. Arguments events {M}.
#[export] Instance eta_tcp {M} : Eta (tcp_state M) := fun r =>
  mk_tcp (ports r) (port_eph_hint r) (tcp_hashtable r) (ht_next r) (rng r) (listeners r) (lmultis r) (app_conns r)
    (app_next r) (cc r) (arp r) (pm r) (tm r) (allocated r) (tcp_sent r) (events r).

(** ** Options of a packet *)

(** The loop of [parse_options]; [None] is the return value -1. *)
Fixpoint parse_options_loop (fuel : nat) (opt : Z -> Z) (opts_len off : Z) (o : tcp_opts) : outcome (option tcp_opts) :=
  match fuel with
  | O => NoFuel
  | S fuel =>
    if off <? opts_len then
      let opt_kind := opt off in
      let opt_avail := u8 (opts_len - off) in
      if opt_kind =? TcpCommon.TcpCommon.TCP_OPT_END_OF_OPTIONS then Done (Some o)
      else if opt_kind =? TcpCommon.TcpCommon.TCP_OPT_NO_OP then parse_options_loop fuel opt opts_len (u16 (off + 1)) o
      else if opt_avail <? 2 then Done None
      else
        let opt_len := opt (off + 1) in
        if opt_kind =? TcpCommon.TcpCommon.TCP_OPT_MSS then
          if negb (opt_len =? TCP_MSS_OPT_SIZE) then Done None
          else parse_options_loop fuel opt opts_len (u16 (off + opt_len)) (o <| o_mss := Some off |>)
        else if opt_kind =? TcpCommon.TcpCommon.TCP_OPT_TIMESTAMP then
          if negb (opt_len =? TCP_TS_OPT_SIZE) then Done None
          else parse_options_loop fuel opt opts_len (u16 (off + opt_len)) (o <| o_ts := Some off |>)
        else parse_options_loop fuel opt opts_len (u16 (off + opt_len)) o
    else Done (Some o)
  end.

Definition parse_options (fuel : nat) (p : pkt_tcp) (len : Z) : outcome (option tcp_opts) :=
  let opts_len := u16 (tcp_hdrlen p * 4 - 20) in
  if (tcp_hdrlen p <? 5) || (u64 (len - PKT_TCP_SIZE) <? opts_len) then Done None
  else parse_options_loop fuel (p_body p) opts_len 0 (mk_opts None None).

(** [f_beui32(opts->ts->ts_val)]. *)
Definition opt_ts_val (p : pkt_tcp) (ts : Z) : Z := be32 (p_body p) (ts + 2).

(** [hash_64_to_32]. *)
Definition hash_64_to_32 (key : Z) : Z :=
  let key := u64 (u64 (- key - 1) + u64 (Z.shiftl key 18)) in
  let key := Z.lxor key (Z.shiftr key 31) in
  let key := u64 (key * 21) in
  let key := Z.lxor key (Z.shiftr key 11) in
  let key := u64 (key + u64 (Z.shiftl key 6)) in
  let key := Z.lxor key (Z.shiftr key 22) in
  u32 key.

Section Tcp.
(** The configuration, the address of this host, whether there is a kernel interface. *)
Context (config : configuration) (cfg_ip eth_addr arp_to : Z) (kni_name_null : bool) (table : list Routing.entry).
(** The CRC instructions, on fields of packets and on numbers, and the checksums. *)
Context (crc32c_u32 crc32c_u64 crc32c_sse42_u32 crc32c_sse42_u64 : Z -> Z -> Z).
Context (rte_ipv4_cksum rte_ipv4_udptcp_cksum : pkt_tcp -> Z).
(** The queue to the first core: its length, the length [ktx_try_alloc] uses, its buffers. *)
Context (rxq_len txq_len : Z) (txq_bufs : Z -> Z -> Z) (arp_tx_alloc : Z -> list Arp.Arp.pkt_arp -> bool).
(** The offsets of [comp], [to] and [remote_mac] in a connection, the address of
    [conn_async_q], and whether there is room in the queue to a context. *)
Context (comp_offset to_offset mac_offset conn_async_q : Z) (kout_room : Z -> list event -> bool).
(** The application of a context. *)
Context (ctx_app : Z -> Z).
Context {M : Type} `{Timers M}.
(** The fuel of all loops, [cur_ts] of the main loop, and the clock. *)
Context (fuel : nat) (cur_ts ts : Z).

Abbreviation st := (tcp_state M).
Implicit Types (s : tcp_state M) (c l : Z) (p : pkt_tcp).

Definition conn_of s c : connection := conns (cc s) c.
Definition set_conn s c (v : connection) : tcp_state M := s <| cc := Cc.set_conn (cc s) c v |>.
Definition remote_mac s c : Z := mac_cells (arp s) (c + mac_offset).
Definition nic_of s : nicif := nic (cc s).
Definition set_nic s (n : nicif) : tcp_state M := s <| cc := (cc s) <| nic := n |> |>.

(** ** Control packets *)

(** The headers and options [send_control_raw] writes over the packet [p] in the buffer. *)
Definition control_packet p (remote_mac remote_ip remote_port local_port local_seq remote_seq flags : Z) (ts_opt : bool)
    (ts_echo mss_opt off_ts optlen len : Z) : pkt_tcp :=
  let p := p <| eth_dest := remote_mac |> <| eth_src := eth_addr |> <| eth_type := ETH_TYPE_IP |>
             <| ip_v := 4 |> <| ip_hl := 5 |> <| ip_tos := 0 |> <| ip_len := u16 (len - ETH_HDR_SIZE) |> <| ip_id := 3 |>
             <| ip_offset := 0 |> <| ip_ttl := 255 |> <| ip_proto := IP_PROTO_TCP |> <| ip_chksum := 0 |>
             <| ip_src := cfg_ip |> <| ip_dest := remote_ip |> in
  let p := p <| tcp_src := local_port |> <| tcp_dest := remote_port |> <| tcp_seqno := local_seq |>
             <| tcp_ackno := remote_seq |> <| tcp_hdrlen := 5 + optlen / 4 |> <| tcp_rsvd_flags := flags |>
             <| tcp_wnd := 11680 |> <| tcp_chksum := 0 |> <| tcp_urgp := 0 |> in
  let p := if negb (mss_opt =? 0)
           then p <| p_body := fun i => if i =? 0 then TcpCommon.TcpCommon.TCP_OPT_MSS else if i =? 1 then TCP_MSS_OPT_SIZE
                                        else if i =? 2 then mss_opt / 256 else if i =? 3 then mss_opt mod 256 else p_body p i |>
           else p in
  if ts_opt then
    let b := fun i => if (off_ts <=? i) && (i <? off_ts + optlen) then 0 else p_body p i in
    let b := fun i => if i =? off_ts then TcpCommon.TcpCommon.TCP_OPT_TIMESTAMP
                      else if i =? off_ts + 1 then TCP_TS_OPT_SIZE else b i in
    p <| p_body := put_be32 (put_be32 b (off_ts + 2) 0) (off_ts + 6) ts_echo |>
  else p.

(** [send_control_raw]: [false] is the return value -1.  [old] is the packet that was in
    the buffer before. *)
Context (buffer_contents : Z -> pkt_tcp).
Definition send_control_raw s (remote_mac remote_ip remote_port local_port local_seq remote_seq flags : Z) (ts_opt : bool)
    (ts_echo mss_opt : Z) : bool * tcp_state M :=
  let optlen := if negb (mss_opt =? 0) then TCP_MSS_OPT_SIZE else 0 in
  let off_ts := optlen in
  let optlen := optlen + (if ts_opt then TCP_TS_OPT_SIZE else 0) in
  let optlen := Z.ldiff (optlen + 3) 3 in
  let len := PKT_TCP_SIZE + optlen in
  let '(r, n) := nicif_tx_alloc rxq_len txq_bufs (nic_of s) len in
  match r with
  | None => (false, set_nic s n)
  | Some (buf, new_tail) =>
    let p := control_packet (buffer_contents buf) remote_mac remote_ip remote_port local_port local_seq remote_seq flags
      ts_opt ts_echo mss_opt off_ts optlen len in
    let p := p <| ip_chksum := rte_ipv4_cksum p |> in
    let p := p <| tcp_chksum := rte_ipv4_udptcp_cksum p |> in
    let s := s <| tcp_sent := tcp_sent s ++ [(buf, p)] |> in
    (true, set_nic s (nicif_tx_send txq_len n new_tail false))
  end.

Definition send_control s c (flags : Z) (ts_opt : bool) (ts_echo mss_opt : Z) : bool * tcp_state M :=
  let k := conn_of s c in
  send_control_raw s (remote_mac s c) (remote_ip k) (remote_port k) (local_port k) (local_seq k) (remote_seq k) flags
    ts_opt ts_echo mss_opt.

(** [send_reset]; without a timestamp option the uninitialised [ts_val] is not used. *)
Definition send_reset s p (opts : tcp_opts) : bool * tcp_state M :=
  let '(ts_opt, ts_val) := match o_ts opts with Some t => (true, opt_ts_val p t) | None => (false, 0) end in
  send_control_raw s (eth_src p) (ip_src p) (tcp_src p) (tcp_dest p) (tcp_ackno p) (u32 (tcp_seqno p + 1))
    (Z.lor TCP_RST TCP_ACK) ts_opt ts_val 0.

(** ** Ports *)

Definition port_unused s (q : Z) : bool := match ports s q with PORT_UNUSED => true | _ => false end.
Definition port_next (q : Z) : Z := if u16 (q + 1) <? PORT_FIRST_EPH then PORT_FIRST_EPH else u16 (q + 1).

(** The loop of [port_alloc]; the port 0 is the failure. *)
Fixpoint port_search (n : nat) s (q start : Z) : outcome (Z * tcp_state M) :=
  match n with
  | O => NoFuel
  | S n =>
    if port_unused s q then Done (q, s <| port_eph_hint := port_next q |>)
    else let q := port_next q in if q =? start then Done (0, s) else port_search n s q start
  end.
Definition port_alloc s : outcome (Z * tcp_state M) := port_search fuel s (port_eph_hint s) (port_eph_hint s).

(** ** Memory of connections *)

(** [conn_alloc]: [None] when there is no memory. *)
Definition conn_alloc s (a : mallocs) : outcome (option Z * tcp_state M) :=
  match m_conn a with
  | None => Done (None, s)
  | Some c =>
    let s := s <| allocated := {[c]} ∪ allocated s |> in
    let free s := s <| allocated := allocated s ∖ {[c]} |> in
    '(rx, pm1) ← Packetmem.packetmem_alloc fuel (pm s) (tcp_rxbuf_len config) (m_rx a);
    let s := s <| pm := pm1 |> in
    match rx with
    | None => Done (None, free s)
    | Some rx =>
      let s := set_conn s c ((conn_of s c) <| rx_handle := rx |>) in
      '(tx, pm2) ← Packetmem.packetmem_alloc fuel (pm s) (tcp_txbuf_len config) (m_tx a);
      let s := s <| pm := pm2 |> in
      match tx with
      | None =>
        pm3 ← Packetmem.packetmem_free fuel (pm s) rx;
        Done (None, free (s <| pm := pm3 |>))
      | Some tx =>
        Done (Some c, set_conn s c ((conn_of s c) <| tx_handle := tx |>
          <| rx_buf := Packetmem.ph_base pm1 rx |> <| rx_len := u32 (tcp_rxbuf_len config) |>
          <| tx_buf := Packetmem.ph_base pm2 tx |> <| tx_len := u32 (tcp_txbuf_len config) |> <| to_armed := false |>))
      end
    end
  end.

(** [packetmem_free] of both buffers. *)
Definition free_buffers s c : outcome (tcp_state M) :=
  pm1 ← Packetmem.packetmem_free fuel (pm s) (tx_handle (conn_of s c));
  pm2 ← Packetmem.packetmem_free fuel pm1 (rx_handle (conn_of s c));
  Done (s <| pm := pm2 |>).

Definition free_conn s c : tcp_state M := s <| allocated := allocated s ∖ {[c]} |>.

Definition conn_free s c : outcome (tcp_state M) := s ← free_buffers s c; Done (free_conn s c).

Definition tcp_destroy s c : outcome (tcp_state M) :=
  assert_ (bool_decide (status (conn_of s c) = CONN_FAILED));; conn_free s c.

(** ** Notifications ([appif_ctx.c]) *)

Definition notify_app s (ctx : Z) (e : event) : tcp_state M := s <| events := events s ++ [e] |>.

(** The data of a connection. *)
Definition conn_data_of (k : connection) : conn_data :=
  mk_conn_data (rx_buf k) (tx_buf k) (rx_len k) (tx_len k) (remote_seq k) (local_seq k) cfg_ip (flow_id k)
    (u16 (fn_core k)).

(** [appif_conn_opened] and [appif_accept_conn]: a failed connection is destroyed, but only
    when there is room in the queue. *)
Definition appif_conn_opened s c (stat : Z) : outcome (tcp_state M) :=
  let k := conn_of s c in
  if negb (kout_room (ctx k) (events s)) then Done s else
  s ← (if stat =? 0 then Done s else tcp_destroy s c);
  Done (notify_app s (ctx k) (CONN_OPENED (ctx k) (opaque k) stat
    (if stat =? 0 then Some (conn_data_of k, local_port k) else None))).

Definition appif_accept_conn s c (stat : Z) : outcome (tcp_state M) :=
  let k := conn_of s c in
  if negb (kout_room (ctx k) (events s)) then Done s else
  s ← (if stat =? 0 then
         let app := ctx_app (ctx k) in
         let s := s <| app_next := <[c := app_conns s app]> (app_next s) |> in
         Done (s <| app_conns := <[app := c]> (app_conns s) |>)
       else tcp_destroy s c);
  Done (notify_app s (ctx k) (CONN_ACCEPTED (ctx k) (opaque k) stat
    (if stat =? 0 then Some (conn_data_of k, remote_ip k, remote_port k) else None))).

Definition appif_listen_newconn s l (remote_ip remote_port : Z) : tcp_state M :=
  let k := listeners s l in
  if negb (kout_room (l_ctx k) (events s)) then s
  else notify_app s (l_ctx k) (LISTEN_NEWCONN (l_ctx k) (l_opaque k) remote_ip remote_port).

(** The search for the predecessor of [c] on a list; it is an error when there is none. *)
Fixpoint find_pred (n : nat) (nx : Z -> Z) (cp c : Z) : outcome Z :=
  match n with
  | O => NoFuel
  | S n => if cp =? NULL then Aborted else if nx cp =? c then Done cp else find_pred n nx (nx cp) c
  end.

Definition appif_conn_closed s c (stat : Z) : outcome (tcp_state M) :=
  let k := conn_of s c in
  if negb (kout_room (ctx k) (events s)) then Done s else
  let s := notify_app s (ctx k) (CONN_CLOSE (ctx k) (opaque k) stat) in
  let app := ctx_app (ctx k) in
  if app_conns s app =? c then Done (s <| app_conns := <[app := app_next s c]> (app_conns s) |>)
  else
    c_i ← find_pred fuel (app_next s) (app_conns s app) c;
    Done (s <| app_next := <[c_i := app_next s c]> (app_next s) |>).

(** ** The hash table of connections *)

Definition conn_hash (l_ip r_ip l_po r_po : Z) : Z :=
  crc32c_sse42_u32 (Z.lor l_po (Z.shiftl r_po 16)) (crc32c_sse42_u64 (Z.lor l_ip (Z.shiftl r_ip 32)) 0).

Definition conn_bucket s c : Z :=
  let k := conn_of s c in conn_hash (local_ip k) (remote_ip k) (local_port k) (remote_port k) mod TCP_HTSIZE.

Definition conn_register s c : tcp_state M :=
  let h := conn_bucket s c in
  let s := s <| ht_next := <[c := tcp_hashtable s h]> (ht_next s) |> in
  s <| tcp_hashtable := <[h := c]> (tcp_hashtable s) |>.

Definition conn_unregister s c : outcome (tcp_state M) :=
  let h := conn_bucket s c in
  if tcp_hashtable s h =? c then Done (s <| tcp_hashtable := <[h := ht_next s c]> (tcp_hashtable s) |>)
  else
    cp ← find_pred fuel (ht_next s) (tcp_hashtable s h) c;
    Done (s <| ht_next := <[cp := ht_next s c]> (ht_next s) |>).

(** The loop of [conn_lookup]. *)
Fixpoint conn_search (n : nat) s p c : outcome (option Z) :=
  match n with
  | O => NoFuel
  | S n =>
    if c =? NULL then Done None
    else
      let k := conn_of s c in
      if (ip_src p =? remote_ip k) && (tcp_dest p =? local_port k) && (tcp_src p =? remote_port k) then Done (Some c)
      else conn_search n s p (ht_next s c)
  end.
Definition conn_lookup s p : outcome (option Z) :=
  conn_search fuel s p (tcp_hashtable s (conn_hash (ip_dest p) (ip_src p) (tcp_dest p) (tcp_src p) mod TCP_HTSIZE)).

(** ** Timeouts of connections *)

(** [conn_timeout_arm]: the type of the timeout is ignored. *)
Definition conn_timeout_arm s c (type : Z) : outcome (tcp_state M) :=
  let k := conn_of s c in
  assert_ (negb (to_armed k));;
  let s := set_conn s c (k <| to_armed := true |>) in
  let '(r, rng') := Rng.Rng.utils_rng_gen32 (rng s) in
  let s := s <| rng := rng' |> in
  if timeout k =? 0 then Aborted else
  let to := u32 (timeout k / 2 + r mod timeout k) in
  tm' ← tm_arm fuel (tm s) (c + to_offset) to TO_TCP_HANDSHAKE ts;
  Done (s <| tm := tm' |>).

Definition conn_timeout_disarm s c : outcome (tcp_state M) :=
  let k := conn_of s c in
  assert_ (to_armed k);;
  let s := set_conn s c (k <| to_armed := false |>) in
  tm' ← tm_disarm (tm s) (c + to_offset);
  Done (s <| tm := tm' |>).

(** ** The handshake *)

Definition conn_failed s c (stat : Z) : outcome (tcp_state M) :=
  s ← conn_unregister s c;
  s ← (if to_armed (conn_of s c) then conn_timeout_disarm s c else Done s);
  let s := set_conn s c ((conn_of s c) <| status := CONN_FAILED |>) in
  appif_conn_opened s c stat.

(** The flags of a SYN: [TCP_SYN | TCP_ECE | TCP_CWR]. *)
Definition SYN_FLAGS : Z := Z.lor TCP_SYN (Z.lor TCP_ECE TCP_CWR).

Definition conn_arp_done s c : outcome (tcp_state M) :=
  let s := set_conn s c ((conn_of s c) <| status := CONN_SYN_SENT |> <| to_attempts := 0 |>
    <| timeout := tcp_handshake_to config |>) in
  s ← conn_timeout_arm s c TO_TCP_HANDSHAKE;
  Done (snd (send_control s c SYN_FLAGS true 0 TCP_MSS)).

(** [nicif_connection_add] for a connection: [false] is the return value -1. *)
Definition register_flow s c (local_seq : Z) : outcome (bool * tcp_state M) :=
  let k := conn_of s c in
  '(f, n) ← nicif_connection_add crc32c_u32 crc32c_u64 fuel (nic_of s) (db_id k) (remote_mac s c) (local_ip k) (local_port k)
    (remote_ip k) (remote_port k) (rx_buf k) (rx_len k) (tx_buf k) (tx_len k) (remote_seq k) local_seq (opaque k)
    (flags k) (cc_rate k) (flow_group k);
  let s := set_nic s n in
  match f with
  | None => Done (false, s)
  | Some f => Done (true, set_conn s c ((conn_of s c) <| flow_id := f |>))
  end.

(** [c->comp.q], [c->comp.notify_fd] and [c->comp.status]. *)
Definition init_comp s c : tcp_state M :=
  let e := c + comp_offset in
  s <| arp := (arp s) <| cp_q := <[e := conn_async_q]> (cp_q (arp s)) |> <| cp_fd := <[e := -1]> (cp_fd (arp s)) |>
                      <| cp_status := <[e := 0]> (cp_status (arp s)) |> |>.

(** [conn_syn_sent_packet]: the result is the return value. *)
Definition conn_syn_sent_packet s c p (opts : tcp_opts) : outcome (Z * tcp_state M) :=
  let ecn_flags := Z.land (TCPH_FLAGS p) (Z.lor TCP_ECE TCP_CWR) in
  s ← conn_timeout_disarm s c;
  if negb (Z.land (TCPH_FLAGS p) (Z.lor TCP_SYN TCP_ACK) =? Z.lor TCP_SYN TCP_ACK) then Done (-1, s)
  else
    match o_ts opts with
    | None => Done (-1, s)
    | Some t =>
      let k := (conn_of s c) <| remote_seq := u32 (tcp_seqno p + 1) |> <| local_seq := tcp_ackno p |>
                             <| syn_ts := opt_ts_val p t |> in
      let k := if ecn_flags =? TCP_ECE then k <| flags := Z.lor (flags k) NICIF_CONN_ECN |> else k in
      let s := set_conn s c k in
      cc' ← cc_conn_init config (cc s) c cur_ts;
      let s := init_comp (s <| cc := cc' |>) c in
      '(ok, s) ← register_flow s c (local_seq (conn_of s c));
      if negb ok then Done (-1, s)
      else
        let s := set_conn s c ((conn_of s c) <| status := CONN_OPEN |>) in
        let '(_, s) := send_control s c TCP_ACK true (syn_ts (conn_of s c)) 0 in
        s ← appif_conn_opened s c 0;
        Done (0, s)
    end.

Definition ecn_reply s c : Z :=
  if Z.land (flags (conn_of s c)) NICIF_CONN_ECN =? NICIF_CONN_ECN then TCP_ECE else 0.

Definition conn_reg_synack s c : outcome (tcp_state M) :=
  let s := set_conn s c ((conn_of s c) <| status := CONN_OPEN |>) in
  let '(_, s) := send_control s c (Z.lor (Z.lor TCP_SYN TCP_ACK) (ecn_reply s c)) true (syn_ts (conn_of s c)) TCP_MSS in
  appif_accept_conn s c 0.

Definition conn_packet s c p (opts : tcp_opts) (fn_core' flow_group' : Z) : outcome (tcp_state M) :=
  match status (conn_of s c) with
  | CONN_SYN_SENT =>
    let s := set_conn s c ((conn_of s c) <| fn_core := fn_core' |> <| flow_group := flow_group' |>) in
    '(ret, s) ← conn_syn_sent_packet s c p opts;
    if ret =? 0 then Done s else conn_failed s c ret
  | CONN_OPEN =>
    if TCPH_FLAGS p =? TCP_SYN then
      match o_ts opts with
      | None => conn_failed s c (-1)
      | Some t =>
        Done (snd (send_control s c (Z.lor (Z.lor TCP_SYN TCP_ACK) (ecn_reply s c)) true (opt_ts_val p t) TCP_MSS))
      end
    else Done s
  | CONN_CLOSED =>
    if Z.land (TCPH_FLAGS p) TCP_FIN =? TCP_FIN then Done (snd (send_control s c TCP_ACK true 0 0)) else Done s
  | _ => Done s
  end.

(** ** Listeners *)

Definition set_listener s l (v : listener) : tcp_state M := s <| listeners := <[l := v]> (listeners s) |>.

Definition listener_lookup s p : option Z :=
  match ports s (tcp_dest p) with
  | PORT_LISTEN l => Some l
  | PORT_LMULTI lm =>
    let hash := hash_64_to_32 (Z.lor (Z.lor (Z.shiftl (ip_src p) 32) (Z.shiftl (tcp_src p) 16)) (tcp_dest p)) in
    Some (lm_ls (lmultis s lm) (hash mod lm_num (lmultis s lm)))
  | _ => None
  end.

(** The packets have the same addresses and ports. *)
Definition same_tuple p (q : pkt_tcp) : bool :=
  (ip_src p =? ip_src q) && (ip_dest p =? ip_dest q) && (tcp_src p =? tcp_src q) && (tcp_dest p =? tcp_dest q).

(** The search of the backlog for a 4-tuple, with [n] entries left from [bp] on. *)
Fixpoint backlog_has (n : nat) (v : listener) p (bp : Z) : bool :=
  match n with
  | O => false
  | S n => if same_tuple p (bs_pkt (backlog v bp)) then true else backlog_has n v p ((bp + 1) mod backlog_len v)
  end.

(** The end of [listener_accept]: the first entry of the backlog is dropped. *)
Definition backlog_pop (v : listener) : listener :=
  let v := v <| backlog_used := u32 (backlog_used v - 1) |> <| backlog_pos := u32 (backlog_pos v + 1) |> in
  if backlog_len v <=? backlog_pos v then v <| backlog_pos := u32 (backlog_pos v - backlog_len v) |> else v.

Definition listener_accept s l : outcome (tcp_state M) :=
  let v := listeners s l in
  let c := wait_conns v in
  assert_ (negb (c =? NULL));;
  assert_ (0 <? backlog_used v);;
  let b := backlog v (backlog_pos v) in
  let p := bs_pkt b in
  let out s := set_listener s l (backlog_pop (listeners s l)) in
  r ← parse_options fuel p (bs_len b);
  match r with
  | Some (mk_opts _ (Some t)) =>
    let k := (conn_of s c) <| fn_core := bs_core b |> <| flow_group := bs_fg b |> <| remote_ip := ip_src p |>
               <| local_ip := cfg_ip |> <| remote_port := tcp_src p |> <| local_port := l_port v |>
               <| remote_seq := u32 (tcp_seqno p + 1) |> <| local_seq := 1 |> <| syn_ts := opt_ts_val p t |> in
    let ecn_flags := Z.land (TCPH_FLAGS p) (Z.lor TCP_ECE TCP_CWR) in
    let k := if ecn_flags =? Z.lor TCP_ECE TCP_CWR then k <| flags := Z.lor (flags k) NICIF_CONN_ECN |> else k in
    let s := set_conn s c k in
    let s := s <| arp := (arp s) <| mac_cells := <[c + mac_offset := eth_src p]> (mac_cells (arp s)) |> |> in
    cc' ← cc_conn_init config (cc s) c cur_ts;
    let s := s <| cc := cc' |> in
    let s := set_conn s c ((conn_of s c) <| status := CONN_REG_SYNACK |>) in
    let s := init_comp s c in
    '(ok, s) ← register_flow s c (u32 (local_seq (conn_of s c) + 1));
    if negb ok then Done (out s)
    else
      let s := set_listener s l ((listeners s l) <| wait_conns := ht_next s c |>) in
      let s := conn_register s c in
      let '(nx, hd) := Nbqueue.nbqueue_enq (cp_next (arp s)) (nbq_head (arp s) conn_async_q) (c + comp_offset) in
      let s := s <| arp := (arp s) <| cp_next := nx |> <| nbq_head := <[conn_async_q := hd]> (nbq_head (arp s)) |> |> in
      Done (out s)
  | _ => Done (out s)
  end.

Definition listener_packet s l p (opts : tcp_opts) (fn_core flow_group : Z) : outcome (tcp_state M) :=
  let v := listeners s l in
  if negb (Z.ldiff (TCPH_FLAGS p) (Z.lor TCP_ECE TCP_CWR) =? TCP_SYN) then Done (snd (send_reset s p opts))
  else
    let len := u16 (ETH_HDR_SIZE + ip_len p) in
    if BACKLOG_BUF <? len then Done s
    else if backlog_has (Z.to_nat (backlog_used v)) v p (backlog_pos v) then Done s
    else if backlog_len v =? backlog_used v then Done s
    else
      let bp := u32 (backlog_pos v + backlog_used v) in
      let bp := if backlog_len v <=? bp then u32 (bp - backlog_len v) else bp in
      let b := pkt_memcpy (bs_pkt (backlog v bp)) p len in
      let s := set_listener s l (v <| backlog := <[bp := mk_slot b len fn_core flow_group]> (backlog v) |>
                                   <| backlog_used := u32 (backlog_used v + 1) |>) in
      let s := appif_listen_newconn s l (ip_src p) (tcp_src p) in
      if negb (wait_conns (listeners s l) =? NULL) then listener_accept s l else Done s.

(** ** Entry points *)

(** [tcp_open]: the return value and the connection. *)
Definition tcp_open s (a : mallocs) (ctx' opaque' remote_ip' remote_port' db_id' : Z) : outcome (Z * option Z * tcp_state M) :=
  '(c, s) ← conn_alloc s a;
  match c with
  | None => Done (-1, None, s)
  | Some c =>
    '(q, s) ← port_alloc s;
    if q =? 0 then s ← conn_free s c; Done (-1, None, s)
    else
      let s := set_conn s c ((conn_of s c) <| ctx := ctx' |> <| opaque := opaque' |> <| status := CONN_ARP_PENDING |>
        <| remote_ip := remote_ip' |> <| local_ip := cfg_ip |> <| remote_port := remote_port' |> <| local_port := q |>
        <| local_seq := 0 |> <| remote_seq := 0 |> <| cnt_tx_pending := 0 |> <| db_id := db_id' |> <| flags := 0 |>) in
      let s := init_comp s c in
      '(ret, tm', arp') ← Routing.routing_resolve cfg_ip eth_addr arp_to arp_tx_alloc fuel fuel table ts (tm s) (arp s)
        (c + comp_offset) remote_ip' (c + mac_offset) (m_ae a);
      let s := s <| tm := tm' |> <| arp := arp' |> in
      if ret <? 0 then s ← conn_free s c; Done (-1, None, s)
      else
        let s := conn_register s c in
        s ← (if ret =? 0 then conn_arp_done s c else Done s);
        Done (0, Some c, s <| ports := <[q := PORT_CONN c]> (ports s) |>)
  end.

(** [tcp_listen]: [mem] are the results of the allocations of the object for several
    listeners and of the listener, [None] when an allocation fails; [true] is the return
    value 0. *)
Definition tcp_listen s (mem_lm mem_l : option Z) (ctx opaque local_port backlog' : Z) (reuseport : bool)
    : option Z * tcp_state M :=
  let add s l (lst : listener) lm :=
    let v := lmultis s lm in
    (set_listener s l lst) <| lmultis := <[lm := v <| lm_ls := <[lm_num v := l]> (lm_ls v) |> <| lm_num := lm_num v + 1 |>]> (lmultis s) |> in
  let new l :=
    mk_listener opaque ctx backlog' 0 0 (backlog (listeners s l)) NULL local_port 0 in
  match ports s local_port, reuseport with
  | PORT_UNUSED, false =>
    match mem_l with
    | None => (None, s)
    | Some l => (Some l, (set_listener s l (new l)) <| ports := <[local_port := PORT_LISTEN l]> (ports s) |>)
    end
  | PORT_UNUSED, true =>
    match mem_lm, mem_l with
    | Some lm, Some l =>
      let s := s <| lmultis := <[lm := mk_lm 0 (fun _ => NULL)]> (lmultis s) |> in
      (Some l, (add s l (new l) lm) <| ports := <[local_port := PORT_LMULTI lm]> (ports s) |>)
    | _, _ => (None, s)
    end
  | PORT_LMULTI lm, true =>
    if lm_num (lmultis s lm) =? LISTEN_MULTI_MAX then (None, s)
    else match mem_l with None => (None, s) | Some l => (Some l, add s l (new l) lm) end
  | _, _ => (None, s)
  end.

(** [tcp_accept]: [false] is the return value -1. *)
Definition tcp_accept s (a : mallocs) (ctx' opaque' l db_id' : Z) : outcome (bool * tcp_state M) :=
  '(c, s) ← conn_alloc s a;
  match c with
  | None => Done (false, s)
  | Some c =>
    let v := listeners s l in
    let s := set_conn s c ((conn_of s c) <| ctx := ctx' |> <| opaque := opaque' |> <| status := CONN_SYN_WAIT |>
      <| local_port := l_port v |> <| db_id := db_id' |> <| flags := l_flags v |> <| cnt_tx_pending := 0 |>) in
    let s := s <| ht_next := <[c := wait_conns v]> (ht_next s) |> in
    let s := set_listener s l (v <| wait_conns := c |>) in
    s ← (if 0 <? backlog_used v then listener_accept s l else Done s);
    Done (true, s)
  end.

(** [tcp_packet]: [true] is the return value 0. *)
Definition tcp_packet s p (len fn_core flow_group : Z) : outcome (bool * tcp_state M) :=
  if len <? PKT_TCP_SIZE then Done (false, s)
  else if negb (ip_dest p =? cfg_ip) then Done (false, s)
  else
    r ← parse_options fuel p len;
    match r with
    | None => Done (false, s)
    | Some opts =>
      c ← conn_lookup s p;
      match c with
      | Some c => s ← conn_packet s c p opts fn_core flow_group; Done (true, s)
      | None =>
        match listener_lookup s p with
        | Some l => s ← listener_packet s l p opts fn_core flow_group; Done (true, s)
        | None =>
          Done (false, if negb (has (TCPH_FLAGS p) TCP_RST) && kni_name_null then snd (send_reset s p opts) else s)
        end
      end
    end.

(** [tcp_close]: [false] is the return value -1. *)
Definition tcp_close s c : outcome (bool * tcp_state M) :=
  if negb (bool_decide (status (conn_of s c) = CONN_OPEN)) then Done (false, s)
  else
    let '(r, n) := nicif_connection_disable crc32c_u32 crc32c_u64 (nic_of s) (flow_id (conn_of s c)) in
    let s := set_nic s n in
    let s := set_conn s c ((conn_of s c) <| remote_seq := cl_rx_seq r |> <| local_seq := cl_tx_seq r |>) in
    let s := if negb (cl_tx_closed r) || negb (cl_rx_closed r) then snd (send_control s c TCP_RST false 0 0) else s in
    cc' ← cc_conn_remove fuel (cc s) c;
    let s := s <| cc := cc' |> in
    let s := set_conn s c ((conn_of s c) <| status := CONN_CLOSED |>) in
    assert_ (negb (to_armed (conn_of s c)));;
    tm' ← tm_arm fuel (tm s) (c + to_offset) 10000 TO_TCP_CLOSED ts;
    let s := s <| tm := tm' |> in
    Done (true, set_conn s c ((conn_of s c) <| to_armed := true |>)).

Definition conn_close_timeout s c : outcome (tcp_state M) :=
  let q := local_port (conn_of s c) in
  let s := match ports s q with PORT_CONN _ => s <| ports := <[q := PORT_UNUSED]> (ports s) |> | _ => s end in
  s ← conn_unregister s c;
  s ← free_buffers s c;
  let s := set_nic s (nicif_connection_free (nic_of s) (flow_id (conn_of s c))) in
  let s := match ports s q with PORT_CONN _ => s <| ports := <[q := PORT_UNUSED]> (ports s) |> | _ => s end in
  s ← appif_conn_closed s c 0;
  Done (free_conn s c).

(** [tcp_timeout]; [to] is the timeout that has fired. *)
Definition tcp_timeout s (to type : Z) : outcome (tcp_state M) :=
  let c := to - to_offset in
  assert_ (to_armed (conn_of s c));;
  let s := set_conn s c ((conn_of s c) <| to_armed := false |>) in
  if type =? TO_TCP_CLOSED then conn_close_timeout s c
  else if negb (type =? TO_TCP_HANDSHAKE) then Aborted
  else if negb (bool_decide (status (conn_of s c) = CONN_SYN_SENT)) then Aborted
  else
    let s := set_conn s c ((conn_of s c) <| to_attempts := to_attempts (conn_of s c) + 1 |>) in
    if tcp_handshake_retries config <? to_attempts (conn_of s c) then conn_failed s c (-1)
    else
      let s := set_conn s c ((conn_of s c) <| timeout := u32 (timeout (conn_of s c) * 2) |>) in
      s ← conn_timeout_arm s c TO_TCP_HANDSHAKE;
      Done (snd (send_control s c SYN_FLAGS true 0 TCP_MSS)).

(** [tcp_poll]: the completed address resolutions and registrations, with at most [n]
    elements on the queue. *)
Fixpoint tcp_poll (n : nat) s : outcome (tcp_state M) :=
  match n with
  | O => NoFuel
  | S n =>
    '(e, nx, hd) ← Nbqueue.nbqueue_deq fuel (cp_next (arp s)) (nbq_head (arp s) conn_async_q);
    let s := s <| arp := (arp s) <| cp_next := nx |> <| nbq_head := <[conn_async_q := hd]> (nbq_head (arp s)) |> |> in
    match e with
    | None => Done s
    | Some e =>
      let c := e - comp_offset in
      let stat := cp_status (arp s) e in
      s ← match status (conn_of s c) with
          | CONN_ARP_PENDING => if negb (stat =? 0) then conn_failed s c stat else conn_arp_done s c
          | CONN_REG_SYNACK => if negb (stat =? 0) then conn_failed s c stat else conn_reg_synack s c
          | _ => Done s
          end;
      tcp_poll n s
    end
  end.

(** [tcp_init]; [calloc_ok] tells whether there is memory for the hash table. *)
Definition tcp_init s (time : Z) (calloc_ok : bool) : bool * tcp_state M :=
  let s := s <| arp := (arp s) <| nbq_head := <[conn_async_q := Nbqueue.NULL]> (nbq_head (arp s)) |> |>
             <| rng := Rng.Rng.utils_rng_init time |> in
  let '(r, rng') := Rng.Rng.utils_rng_gen32 (rng s) in
  let s := s <| rng := rng' |> <| port_eph_hint := u16 (r mod (65536 - 1 - PORT_FIRST_EPH)) |> in
  if calloc_ok then (true, s <| tcp_hashtable := fun _ => NULL |>) else (false, s).

End Tcp.
End Tcp.
