(* ===== verification/TcpOptions.v ===== *)
(** * TCP options on the slow path

    The options [send_control_raw] writes and [parse_options] reads, and the parser of the
    fast path on the same bytes. *)
From S2P Require Import Prelude Packet TcpCommon FastFlowsProps Tcp.
#[local] Open Scope Z_scope.

Module TcpOptions.
Import Packet TcpCommon.TcpCommon Tcp.

(** The length of the options of a control packet, and the offset of the timestamp. *)
Definition control_ts_off (mss_opt : Z) : Z := if negb (mss_opt =? 0) then TCP_MSS_OPT_SIZE else 0.
Definition control_optlen (ts_opt : bool) (mss_opt : Z) : Z :=
  Z.ldiff (control_ts_off mss_opt + (if ts_opt then TCP_TS_OPT_SIZE else 0) + 3) 3.

(** [opts->mss->mss] and [opts->ts->ts_ecr]. *)
Definition opt_mss (p : pkt_tcp) (m : Z) : Z := p_body p (m + 2) * 256 + p_body p (m + 3).
Definition opt_ts_ecr (p : pkt_tcp) (t : Z) : Z := be32 (p_body p) (t + 6).

(** The packet [send_control_raw] writes, before the checksums. *)
Definition control_pkt (cfg_ip eth_addr : Z) (p : pkt_tcp) (remote_mac remote_ip remote_port local_port local_seq remote_seq
    flags : Z) (ts_opt : bool) (ts_echo mss_opt : Z) : pkt_tcp :=
  control_packet cfg_ip eth_addr p remote_mac remote_ip remote_port local_port local_seq remote_seq flags ts_opt ts_echo mss_opt
    (control_ts_off mss_opt) (control_optlen ts_opt mss_opt) (PKT_TCP_SIZE + control_optlen ts_opt mss_opt).

(** C28: the options of a control packet.  Whatever the buffer contained before, both
    parsers accept the packet with the length it is sent with; they find exactly the
    options that were asked for, with the values that were written. *)
Theorem control_packet_roundtrip n cfg_ip eth_addr old mac rip rp lp ls rs fl ts_opt ts_echo mss_opt :
  in16 mss_opt -> in32 ts_echo ->
  let p := control_pkt cfg_ip eth_addr old mac rip rp lp ls rs fl ts_opt ts_echo mss_opt in
  let len := PKT_TCP_SIZE + control_optlen ts_opt mss_opt in
  let m := if mss_opt =? 0 then None else Some 0 in
  let t := if ts_opt then Some (control_ts_off mss_opt) else None in
  parse_options (S (S (S n))) p len = Done (Some (mk_opts m t)) /\
  TcpCommon.tcp_parse_options (S (S (S n))) (tcp_hdrlen p) len (p_body p) = Done (Some t) /\
  (mss_opt <> 0 -> opt_mss p 0 = mss_opt) /\
  (ts_opt = true -> opt_ts_val p (control_ts_off mss_opt) = 0 /\ opt_ts_ecr p (control_ts_off mss_opt) = ts_echo) /\
  ip_len p = len - ETH_HDR_SIZE.
Proof.
  intros Hm He p len m t. subst p len m t. unfold control_pkt, control_optlen, control_ts_off.
  assert (Hts : forall b off, be32 (put_be32 (put_be32 b (off + 2) 0) (off + 6) ts_echo) (off + 2) = 0 /\
    be32 (put_be32 (put_be32 b (off + 2) 0) (off + 6) ts_echo) (off + 6) = ts_echo).
  { intros b off. split; [|by apply be32_put]. rewrite be32_put_other by lia. by apply be32_put. }
  destruct (Z.eqb_spec mss_opt 0) as [->|Hm0], ts_opt; cbn [negb].
  - split; [reflexivity|]. split; [reflexivity|]. split; [done|]. split; [|reflexivity]. intros _.
    exact (Hts _ 0).
  - split; [reflexivity|]. split; [reflexivity|]. split; [done|]. split; [done|reflexivity].
  - unfold control_packet. rewrite (proj2 (Z.eqb_neq mss_opt 0) Hm0).
    split; [reflexivity|]. split; [reflexivity|]. split; [|split; [intros _; exact (Hts _ 4)|reflexivity]].
    intros _. change (mss_opt / 256 * 256 + mss_opt mod 256 = mss_opt). Z.div_mod_to_equations. lia.
  - unfold control_packet. rewrite (proj2 (Z.eqb_neq mss_opt 0) Hm0).
    split; [reflexivity|]. split; [reflexivity|]. split; [|split; [done|reflexivity]].
    intros _. change (mss_opt / 256 * 256 + mss_opt mod 256 = mss_opt). Z.div_mod_to_equations. lia.
Qed.

Lemma control_packet_roundtrip_witness :
  parse_options 3 (control_pkt 1 2 (FastFlowsProps.FastFlowsProps.ex_pkt 0 0 0 0) 3 4 5 6 7 8 TCP_SYN true 99 1460) 70 = Done (Some (mk_opts (Some 0) (Some 4))).
Proof.
  apply (control_packet_roundtrip 0 1 2 (FastFlowsProps.FastFlowsProps.ex_pkt 0 0 0 0) 3 4 5 6 7 8 TCP_SYN true 99 1460); lia.
Defined.

(** With both options, [memset] clears the length of all of them from the timestamp on:
    four bytes behind the packet are overwritten. *)
Theorem control_packet_overrun cfg_ip eth_addr old mac rip rp lp ls rs fl ts_echo mss_opt i : mss_opt <> 0 ->
  control_optlen true mss_opt <= i < control_optlen true mss_opt + 4 ->
  p_body (control_pkt cfg_ip eth_addr old mac rip rp lp ls rs fl true ts_echo mss_opt) i = 0.
Proof.
  intros Hm0. unfold control_pkt, control_optlen, control_ts_off, control_packet.
  rewrite (proj2 (Z.eqb_neq mss_opt 0) Hm0). cbn [negb]. intros Hi. 
  change (Z.ldiff (TCP_MSS_OPT_SIZE + TCP_TS_OPT_SIZE + 3) 3) with 16 in *.
  assert (i = 16 \/ i = 17 \/ i = 18 \/ i = 19) as [->|[->|[->| ->]]] by lia; reflexivity.
Qed.

(** The two parsers of options agree.  When the parser of the slow path accepts the
    options, the one of the fast path accepts them and finds the same timestamp; the slow
    path refuses in addition an MSS option of the wrong size; and on the options on which
    the slow path does not end, the fast path does not end either. *)
Theorem parse_options_agree opt opts_len fuel : forall off o,
  let fast := TcpCommon.parse_options_loop fuel opt opts_len off (o_ts o) in
  match parse_options_loop fuel opt opts_len off o with
  | Done (Some o') => fast = Done (Some (o_ts o'))
  | Done None => fast = Done None \/ exists i, opt i = TcpCommon.TCP_OPT_MSS /\ opt (i + 1) <> TCP_MSS_OPT_SIZE
  | NoFuel => fast = NoFuel
  | Aborted => False
  end.
Proof.
  induction fuel as [|fuel IH]; intros off o; [done|]. cbn -[u8 u16 Z.ltb].
  destruct (off <? opts_len); [|done]. destruct (Z.eqb_spec (opt off) TcpCommon.TCP_OPT_END_OF_OPTIONS); [done|].
  destruct (Z.eqb_spec (opt off) TcpCommon.TCP_OPT_NO_OP); [apply IH|]. destruct (_ <? 2); [by left|].
  destruct (Z.eqb_spec (opt off) TcpCommon.TCP_OPT_MSS) as [Em|Em].
  - rewrite Em. change (TcpCommon.TCP_OPT_MSS =? TcpCommon.TCP_OPT_TIMESTAMP) with false. cbn match.
    destruct (Z.eqb_spec (opt (off + 1)) TCP_MSS_OPT_SIZE) as [El|El]; cbn [negb]; [|right; by exists off].
    exact (IH (u16 (off + opt (off + 1))) (o <| o_mss := Some off |>)).
  - destruct (Z.eqb_spec (opt off) TcpCommon.TCP_OPT_TIMESTAMP); [|apply IH].
    change TcpCommon.TCP_TS_OPT_SIZE with TCP_TS_OPT_SIZE.
    destruct (negb _); [by left|]. exact (IH (u16 (off + opt (off + 1))) (o <| o_ts := Some off |>)).
Qed.
End TcpOptions.
