(* ===== verification/TcpSpec.v ===== *)
(** * Ports, the table of connections and the backlogs

    The proofs about the data structures of [Tcp]. *)
From S2P Require Import Prelude Chain Packet FastFlowsProps Packetmem PacketmemSpec Timeout TimeoutSpec Timers Arp ArpSpec Conn Nicif NicifProps Cc CcProps Tcp.
From stdpp Require Import gmap.
#[local] Open Scope Z_scope.

Module TcpSpec.
Import Nicif Cc Arp.Arp Packet Conn Tcp.

(** ** Ports *)

Definition PORT_MAX : Z := 65535.

Lemma port_next_val q : 0 <= q <= PORT_MAX ->
  port_next q = if (q <? PORT_FIRST_EPH - 1) || (q =? PORT_MAX) then PORT_FIRST_EPH else q + 1.
Proof.
  unfold port_next, PORT_FIRST_EPH, PORT_MAX. intros Hq. destruct (Z.eqb_spec q 65535) as [->|]; [done|].
  rewrite u16_small by lia. rewrite orb_false_r.
  destruct (Z.ltb_spec (q + 1) 8192), (Z.ltb_spec q (8192 - 1)); try done; lia.
Qed.

Section Ports.
Context {M : Type}.
Implicit Types s : tcp_state M.

(** The port [i] places after [q] on the ring of ephemeral ports. *)
Definition port_at (q i : Z) : Z := PORT_FIRST_EPH + (q - PORT_FIRST_EPH + i) mod 57344.

Lemma port_at_0 q : PORT_FIRST_EPH <= q <= PORT_MAX -> port_at q 0 = q.
Proof. unfold port_at, PORT_FIRST_EPH, PORT_MAX. intros. Z.div_mod_to_equations. lia. Qed.

Lemma port_at_range q i : PORT_FIRST_EPH <= port_at q i <= PORT_MAX.
Proof. unfold port_at, PORT_FIRST_EPH, PORT_MAX. Z.div_mod_to_equations. lia. Qed.

Lemma port_at_next q i : port_next (port_at q i) = port_at q (i + 1).
Proof.
  pose proof (port_at_range q i). unfold PORT_FIRST_EPH, PORT_MAX in *. rewrite port_next_val by (unfold PORT_MAX; lia).
  unfold port_at, PORT_FIRST_EPH, PORT_MAX in *.
  destruct (Z.ltb_spec (8192 + (q - 8192 + i) mod 57344) (8192 - 1)); [lia|].
  destruct (Z.eqb_spec (8192 + (q - 8192 + i) mod 57344) 65535); cbn [orb]; Z.div_mod_to_equations; lia.
Qed.

Lemma port_at_start q i : PORT_FIRST_EPH <= q <= PORT_MAX -> 0 < i <= 57344 -> (port_at q i =? q) = (i =? 57344).
Proof.
  unfold port_at, PORT_FIRST_EPH, PORT_MAX. intros Hq Hi.
  destruct (Z.eqb_spec i 57344), (Z.eqb_spec (8192 + (q - 8192 + i) mod 57344) q); try done; exfalso; Z.div_mod_to_equations; lia.
Qed.

Lemma port_search_ok s q : PORT_FIRST_EPH <= q <= PORT_MAX -> forall n i, 0 <= i < 57344 -> 57344 - i <= Z.of_nat n ->
  exists r, port_search n s (port_at q i) q = Done r /\
    ((exists k, i <= k < 57344 /\ port_unused s (port_at q k) = true /\ (forall j, i <= j < k -> port_unused s (port_at q j) = false) /\
       r = (port_at q k, s <| port_eph_hint := port_at q (k + 1) |>)) \/
     (r = (0, s) /\ forall j, i <= j < 57344 -> port_unused s (port_at q j) = false)).
Proof.
  intros Hq. induction n as [|n IH]; intros i Hi Hn; [lia|]. cbn [port_search].
  destruct (port_unused s (port_at q i)) eqn:Eu.
  - eexists. split; [reflexivity|]. left. exists i. rewrite port_at_next. split; [lia|]. split; [done|]. split; [lia|done].
  - rewrite port_at_next, port_at_start by (done || lia). destruct (Z.eqb_spec (i + 1) 57344) as [E|E].
    + eexists. split; [reflexivity|]. right. split; [done|]. intros j Hj. by replace j with i by lia.
    + destruct (IH (i + 1) ltac:(lia) ltac:(lia)) as (r & -> & Hr). eexists. split; [reflexivity|].
      destruct Hr as [(k & Hk & Hu & Hb & ->)|(-> & Hall)].
      * left. exists k. split; [lia|]. split; [done|]. split; [|done]. intros j Hj.
        destruct (Z.eq_dec j i) as [->|]; [done|]. apply Hb. lia.
      * right. split; [done|]. intros j Hj. destruct (Z.eq_dec j i) as [->|]; [done|]. apply Hall. lia.
Qed.

(** [port_alloc].  With a hint in the range of ephemeral ports the search ends, and
    it returns a free ephemeral port exactly when there is one and moves the hint behind
    it.  With a hint below the range, which [tcp_init] may draw, the search never comes
    back to where it started: when no port is free it does not end. *)
Theorem port_alloc_correct fuel s : 57344 <= Z.of_nat fuel ->
  (PORT_FIRST_EPH <= port_eph_hint s <= PORT_MAX ->
   exists q s', port_alloc fuel s = Done (q, s') /\
     if bool_decide (Exists (fun q => port_unused s q = true) (seqZ PORT_FIRST_EPH 57344))
     then PORT_FIRST_EPH <= q <= PORT_MAX /\ port_unused s q = true /\ s' = s <| port_eph_hint := port_next q |> /\
       PORT_FIRST_EPH <= port_eph_hint s' <= PORT_MAX
     else q = 0 /\ s' = s) /\
  (0 <= port_eph_hint s < PORT_FIRST_EPH -> (forall q, port_unused s q = false) -> forall fuel', port_alloc fuel' s = NoFuel).
Proof.
  intros Hf. split.
  - intros Hh. unfold port_alloc. destruct (port_search_ok s _ Hh fuel 0) as (r & E & Hr); [lia|lia|].
    rewrite port_at_0 in E by done. rewrite E. destruct Hr as [(k & Hk & Hu & _ & ->)|(-> & Hall)].
    + eexists _, _. split; [reflexivity|]. pose proof (port_at_range (port_eph_hint s) k) as Hr.
      rewrite bool_decide_true.
      2:{ apply Exists_exists. exists (port_at (port_eph_hint s) k). split; [|done]. apply elem_of_seqZ.
          unfold PORT_FIRST_EPH, PORT_MAX in *. lia. }
      rewrite port_at_next. split; [done|]. split; [done|]. split; [done|]. apply port_at_range.
    + eexists _, _. split; [reflexivity|]. rewrite bool_decide_false; [done|].
      intros (q & Hq & Hu)%Exists_exists. apply elem_of_seqZ in Hq. unfold PORT_FIRST_EPH, PORT_MAX in *.
      assert (Hs : port_at (port_eph_hint s) ((q - port_eph_hint s) mod 57344) = q).
      { unfold port_at, PORT_FIRST_EPH. Z.div_mod_to_equations. lia. }
      rewrite <-Hs, Hall in Hu; [done|]. apply Z.mod_pos_bound. done.
  - intros Hh Hu fuel'. unfold port_alloc. set (h := port_eph_hint s) in *.
    assert (Hrun : forall n q, 0 <= q <= PORT_MAX -> port_search n s q h = NoFuel).
    { induction n as [|n IH]; intros q Hq; cbn [port_search]; [done|]. rewrite Hu.
      rewrite port_next_val by done. unfold PORT_FIRST_EPH, PORT_MAX in *.
      destruct (Z.ltb_spec q (8192 - 1)), (Z.eqb_spec q 65535); cbn [orb];
        (rewrite (proj2 (Z.eqb_neq _ h)) by lia); apply IH; lia. }
    apply Hrun. unfold PORT_FIRST_EPH, PORT_MAX in *. lia.
Qed.
End Ports.

(** ** The table of connections *)
Section Table.
Context (crc32 crc64 : Z -> Z -> Z) {M : Type}.
Implicit Types (s : tcp_state M) (T : Z -> list Z).
#[local] Abbreviation bucket := (conn_bucket crc32 crc64).

(** [T h] are the connections of the bucket [h]. *)
Record table_ok s T : Prop := {
  tk_chain h : 0 <= h < TCP_HTSIZE -> chain NULL (ht_next s) (tcp_hashtable s h) (T h);
  tk_nodup h : 0 <= h < TCP_HTSIZE -> NoDup (T h);
  tk_bucket h c : 0 <= h < TCP_HTSIZE -> c ∈ T h -> bucket s c = h
}.
Definition registered T c : Prop := exists h, 0 <= h < TCP_HTSIZE /\ c ∈ T h.

(** The four numbers that identify a connection, and those of a received packet. *)
Definition conn_key s c : Z * Z * Z * Z :=
  let k := conn_of s c in (local_ip k, remote_ip k, local_port k, remote_port k).
Definition pkt_key (p : pkt_tcp) : Z * Z * Z * Z := (ip_dest p, ip_src p, tcp_dest p, tcp_src p).

Lemma bucket_range s c : 0 <= bucket s c < TCP_HTSIZE.
Proof. apply Z.mod_pos_bound. done. Qed.

Lemma registered_bucket s T c : table_ok s T -> registered T c <-> c ∈ T (bucket s c).
Proof.
  intros Hk. split.
  - intros (h & Hh & Hc). by rewrite (tk_bucket _ _ Hk h c).
  - intros Hc. exists (bucket s c). split; [apply bucket_range|done].
Qed.

Lemma conn_search_ok s p : forall L n, chain NULL (ht_next s) (hd NULL L) L -> (length L < n)%nat ->
  exists r, conn_search n s p (hd NULL L) = Done r /\
    match r with
    | Some c => exists A B, L = A ++ c :: B /\ ip_src p = remote_ip (conn_of s c) /\ tcp_dest p = local_port (conn_of s c) /\
        tcp_src p = remote_port (conn_of s c)
    | None => forall c, c ∈ L -> conn_key s c <> pkt_key p
    end.
Proof.
  induction L as [|x L IH]; intros n Hch Hn; (destruct n as [|n]; [cbn in Hn; lia|]); cbn [conn_search hd].
  { exists None. split; [done|]. intros c Hc. by apply elem_of_nil in Hc. }
  destruct Hch as (_ & Hx & Hch). fold seg in Hch. rewrite (proj2 (Z.eqb_neq x NULL)) by done.
  destruct (_ && _) eqn:E.
  - rewrite !andb_true_iff, !Z.eqb_eq in E. destruct E as [[E1 E2] E3]. eexists. split; [reflexivity|]. by exists [], L.
  - assert (Hh : ht_next s x = hd NULL L) by (destruct L; [done|by destruct Hch as [-> _]]).
    rewrite Hh in Hch |- *. destruct (IH n Hch ltac:(cbn in Hn; lia)) as (r & -> & Hr). eexists. split; [reflexivity|].
    destruct r as [c|].
    + destruct Hr as (A & B & -> & ?). by exists (x :: A), B.
    + intros c [->|Hc]%elem_of_cons; [|by apply Hr]. intros [= ? E1 E2 E3].
      rewrite E1, E2, E3, !Z.eqb_refl in E. done.
Qed.

Lemma conn_pred_ok nx c : forall A q B n, chain NULL nx (hd NULL (A ++ q :: c :: B)) (A ++ q :: c :: B) ->
  NoDup (A ++ q :: c :: B) -> (length A < n)%nat -> find_pred n nx (hd NULL (A ++ q :: c :: B)) c = Done q.
Proof.
  induction A as [|a A IH]; intros q B n Hch Hnd Hf; (destruct n as [|n]; [cbn in Hf; lia|]); cbn [find_pred app hd].
  - destruct Hch as (_ & Hq & E & _). by rewrite (proj2 (Z.eqb_neq q NULL)), E, Z.eqb_refl by done.
  - destruct Hch as (_ & Ha & Hch). fold seg in Hch. rewrite (proj2 (Z.eqb_neq a NULL)) by done.
    cbn [app] in Hnd. apply NoDup_cons in Hnd as [Hna Hnd].
    assert (Hh : nx a = hd NULL (A ++ q :: c :: B)) by (destruct A; by destruct Hch as [-> _]).
    assert (Hnp : nx a <> c).
    { rewrite Hh. destruct A as [|b A]; cbn; intros ->; cbn [app] in Hnd; apply NoDup_cons in Hnd as [Hnd _]; set_solver. }
    rewrite (proj2 (Z.eqb_neq _ c)) by done. rewrite Hh. apply IH; [by rewrite <-Hh|done|cbn in Hf; lia].
Qed.

Lemma conn_pred_none nx c : forall L n, chain NULL nx (hd NULL L) L -> c ∉ L -> c <> NULL -> (length L < n)%nat ->
  find_pred n nx (hd NULL L) c = Aborted.
Proof.
  induction L as [|a L IH]; intros n Hch Hp H0 Hf; (destruct n as [|n]; [cbn in Hf; lia|]); cbn [find_pred hd].
  - by rewrite Z.eqb_refl.
  - destruct Hch as (_ & Ha & Hch). fold seg in Hch. rewrite (proj2 (Z.eqb_neq a NULL)) by done.
    assert (Hh : nx a = hd NULL L) by (destruct L; [done|by destruct Hch as [-> _]]).
    assert (Hnp : nx a <> c) by (rewrite Hh; destruct L; cbn in *; set_solver).
    rewrite (proj2 (Z.eqb_neq _ c)) by done. rewrite Hh. apply IH; [by rewrite <-Hh|set_solver|done|cbn in Hf; lia].
Qed.

Lemma table_hd s T h : table_ok s T -> 0 <= h < TCP_HTSIZE -> tcp_hashtable s h = hd NULL (T h).
Proof. intros Hk Hh. pose proof (tk_chain _ _ Hk h Hh) as Hch. destruct (T h); [done|by destruct Hch as [-> _]]. Qed.

(** Lookup finds exactly the connection of the packet. *)
Lemma conn_lookup_ok fuel s T p : table_ok s T ->
  (forall c c', registered T c -> registered T c' -> conn_key s c = conn_key s c' -> c = c') ->
  (forall c, registered T c -> local_ip (conn_of s c) = ip_dest p) ->
  (forall h, 0 <= h < TCP_HTSIZE -> (length (T h) < fuel)%nat) ->
  exists r, conn_lookup crc32 crc64 fuel s p = Done r /\
    forall c, r = Some c <-> registered T c /\ conn_key s c = pkt_key p.
Proof.
  intros Hk Hu Hip Hf. unfold conn_lookup.
  set (h := conn_hash crc32 crc64 (ip_dest p) (ip_src p) (tcp_dest p) (tcp_src p) mod TCP_HTSIZE).
  assert (Hh : 0 <= h < TCP_HTSIZE) by (apply Z.mod_pos_bound; done).
  pose proof (table_hd _ _ h Hk Hh) as Ehd. rewrite Ehd.
  destruct (conn_search_ok s p (T h) fuel) as (r & -> & Hr); [rewrite <-Ehd; by apply (tk_chain _ _ Hk)|by apply Hf|].
  exists r. split; [done|]. intros c. destruct r as [c0|].
  - destruct Hr as (A & B & EL & E1 & E2 & E3). assert (Hc0 : registered T c0) by (exists h; rewrite EL; set_solver).
    assert (Ek : conn_key s c0 = pkt_key p).
    { unfold conn_key, pkt_key. rewrite (Hip c0 Hc0), <-E1, <-E2, <-E3. done. }
    split; [intros [= <-]; done|]. intros [Hc Ec]. f_equal. apply Hu; congruence.
  - split; [done|]. intros [Hc Ec]. exfalso. apply (Hr c); [|done]. apply (registered_bucket _ _ _ Hk) in Hc.
    replace h with (bucket s c); [done|]. unfold conn_bucket. injection Ec as -> -> -> ->. done.
Qed.

(** Registration adds the connection. *)
Lemma conn_register_ok s T c : table_ok s T -> ~ registered T c -> c <> NULL ->
  table_ok (conn_register crc32 crc64 s c) (<[bucket s c := c :: T (bucket s c)]> T) /\
  (forall x, x <> c -> ht_next (conn_register crc32 crc64 s c) x = ht_next s x).
Proof.
  intros Hk Hc H0. set (b := bucket s c). unfold conn_register. fold b. set (s' := _ <| tcp_hashtable := _ |>).
  assert (Hnx : forall x, x <> c -> ht_next s' x = ht_next s x) by (intros x Hx; apply fn_lookup_insert_ne; congruence).
  assert (Hcn : forall h, 0 <= h < TCP_HTSIZE -> c ∉ T h) by (intros h Hh Hin; apply Hc; by exists h).
  split; [|done]. constructor.
  - intros h Hh. destruct (decide (b = h)) as [<-|Hne].
    + cbn. rewrite (fn_lookup_insert (tcp_hashtable s)), (fn_lookup_insert T). eapply chain_push; [by apply (tk_chain _ _ Hk)|done|by apply Hcn|apply fn_lookup_insert|].
      intros y Hy. apply Hnx. intros ->. by apply (Hcn b).
    + cbn. rewrite (fn_lookup_insert_ne (tcp_hashtable s)), (fn_lookup_insert_ne T) by done. eapply seg_ext; [|by apply (tk_chain _ _ Hk)].
      intros y Hy. apply Hnx. intros ->. by apply (Hcn h).
  - intros h Hh. destruct (decide (b = h)) as [<-|Hne].
    + rewrite (fn_lookup_insert T). apply NoDup_cons. split; [by apply Hcn|by apply (tk_nodup _ _ Hk)].
    + rewrite (fn_lookup_insert_ne T) by done. by apply (tk_nodup _ _ Hk).
  - intros h x Hh. destruct (decide (b = h)) as [<-|Hne].
    + rewrite (fn_lookup_insert T). intros [->|Hx]%elem_of_cons; [done|]. by apply (tk_bucket _ _ Hk).
    + rewrite (fn_lookup_insert_ne T) by done. by apply (tk_bucket _ _ Hk).
Qed.

(** Removal takes it out, and aborts when it is not there. *)
Lemma conn_unregister_ok fuel s T c : table_ok s T -> c <> NULL -> (length (T (bucket s c)) < fuel)%nat ->
  if bool_decide (c ∈ T (bucket s c)) then
    exists s' A B, conn_unregister crc32 crc64 fuel s c = Done s' /\ T (bucket s c) = A ++ c :: B /\
      table_ok s' (<[bucket s c := A ++ B]> T) /\
      s' = s <| tcp_hashtable := tcp_hashtable s' |> <| ht_next := ht_next s' |> /\
      (forall x, x ∉ A -> ht_next s' x = ht_next s x)
  else conn_unregister crc32 crc64 fuel s c = Aborted.
Proof.
  intros Hk H0 Hf. unfold conn_unregister. set (b := bucket s c) in *.
  assert (Hb : 0 <= b < TCP_HTSIZE) by apply bucket_range. pose proof (tk_chain _ _ Hk b Hb) as Hch.
  pose proof (tk_nodup _ _ Hk b Hb) as Hnd. pose proof (table_hd _ _ b Hk Hb) as Ehd. rewrite Ehd in *.
  destruct (bool_decide_reflect (c ∈ T b)) as [Hc|Hc].
  - apply list_elem_of_split in Hc as (A & B & EL). rewrite EL in *. pose proof (chain_next _ _ _ _ _ _ Hch) as Hnx.
    assert (Hpn : (c ∉ A ++ B) /\ NoDup (A ++ B)).
    { assert (Hperm : A ++ c :: B ≡ₚ c :: A ++ B) by solve_Permutation. rewrite Hperm in Hnd. by apply NoDup_cons in Hnd. }
    assert (Hok : forall s', chain NULL (ht_next s') (tcp_hashtable s' b) (A ++ B) ->
      (forall h, h <> b -> tcp_hashtable s' h = tcp_hashtable s h) -> (forall x, x ∉ A -> ht_next s' x = ht_next s x) ->
      cc s' = cc s -> table_ok s' (<[b := A ++ B]> T)).
    { intros s' Hch' Hh' Hn' Ec.
      assert (Eb : forall x, bucket s' x = bucket s x) by (intros x; unfold conn_bucket, conn_of; by rewrite Ec).
      constructor.
      - intros h Hh. destruct (decide (b = h)) as [<-|Hne]; [by rewrite (fn_lookup_insert T)|].
        rewrite (fn_lookup_insert_ne T), Hh' by congruence. eapply seg_ext; [|by apply (tk_chain _ _ Hk)].
        intros y Hy. apply Hn'. intros HyA. apply Hne. rewrite <-(tk_bucket _ _ Hk h y) by done.
        symmetry. apply (tk_bucket _ _ Hk b y Hb). rewrite EL. set_solver.
      - intros h Hh. destruct (decide (b = h)) as [<-|Hne]; [rewrite (fn_lookup_insert T); apply Hpn|].
        rewrite (fn_lookup_insert_ne T) by done. by apply (tk_nodup _ _ Hk).
      - intros h x Hh. rewrite Eb. destruct (decide (b = h)) as [<-|Hne].
        + rewrite (fn_lookup_insert T). intros Hx. apply (tk_bucket _ _ Hk); [done|]. rewrite EL. set_solver.
        + rewrite (fn_lookup_insert_ne T) by done. by apply (tk_bucket _ _ Hk). }
    destruct (Z.eqb_spec (hd NULL (A ++ c :: B)) c) as [E|E].
    + assert (A = []) as ->. { destruct A as [|a A]; [done|]. cbn in E. subst a. destruct Hpn as [Hpn _]. set_solver. }
      eexists _, [], B. split; [reflexivity|]. split; [done|]. split; [|split; [by destruct s|done]].
      apply Hok; try done.
      * cbn. rewrite fn_lookup_insert. by destruct Hch as (_ & _ & Hch).
      * intros h Hh. by apply fn_lookup_insert_ne.
    + assert (HA : A <> []) by (intros ->; done).
      destruct (last A) as [q|] eqn:El; [|by apply last_None in El]. apply last_Some in El as [A' ->].
      assert (EA : (A' ++ [q]) ++ c :: B = A' ++ q :: c :: B) by (by rewrite <-app_assoc).
      rewrite EA in Hch, Hnd, Hf, E |- *.
      rewrite conn_pred_ok; [|done|done|rewrite length_app in Hf; lia]. cbn [mbind outcome_bind].
      eexists _, (A' ++ [q]), B. split; [reflexivity|]. split; [done|]. split; [|split; [by destruct s|]].
      * apply Hok; try done.
        -- cbn. rewrite Ehd. eapply (chain_remove NULL (ht_next s) _ _ _ _ c).
           ++ rewrite <-app_assoc. exact Hch.
           ++ apply Hpn.
           ++ intros y Hy. rewrite last_snoc. destruct (decide (Some q = Some y)) as [[= <-]|Hne]; [by rewrite fn_lookup_insert|].
              apply fn_lookup_insert_ne. congruence.
           ++ rewrite decide_False by (by destruct A'). by destruct A'.
        -- intros x Hx. apply fn_lookup_insert_ne. set_solver.
      * intros x Hx. apply fn_lookup_insert_ne. set_solver.
  - destruct (Z.eqb_spec (hd NULL (T b)) c) as [E|E].
    + destruct (T b) as [|a L]; cbn in E; [congruence|]. set_solver.
    + by rewrite conn_pred_none.
Qed.

Lemma lookup_is fuel s T p r : table_ok s T ->
  (forall c c', registered T c -> registered T c' -> conn_key s c = conn_key s c' -> c = c') ->
  (forall c, registered T c -> local_ip (conn_of s c) = ip_dest p) ->
  (forall h, 0 <= h < TCP_HTSIZE -> (length (T h) < fuel)%nat) ->
  (forall c, r = Some c <-> registered T c /\ conn_key s c = pkt_key p) -> conn_lookup crc32 crc64 fuel s p = Done r.
Proof.
  intros Hk Hu Hip Hf Hr. destruct (conn_lookup_ok fuel s T p Hk Hu Hip Hf) as (r' & -> & Hr'). f_equal.
  destruct r' as [c|].
  - symmetry. apply Hr, Hr'. done.
  - destruct r as [c|]; [|done]. by pose proof (proj2 (Hr' c) (proj1 (Hr c) eq_refl)).
Qed.

Lemma registered_insert T b L x : 0 <= b < TCP_HTSIZE ->
  registered (<[b := L]> T) x <-> x ∈ L \/ (exists h, 0 <= h < TCP_HTSIZE /\ h <> b /\ x ∈ T h).
Proof.
  intros Hb. split.
  - intros (h & Hh & Hx). destruct (decide (b = h)) as [<-|Hne].
    + rewrite (fn_lookup_insert T) in Hx. by left.
    + rewrite (fn_lookup_insert_ne T) in Hx by done. right. exists h. split; [done|split; [congruence|done]].
  - intros [Hx|(h & Hh & Hne & Hx)]; [exists b; by rewrite (fn_lookup_insert T)|].
    exists h. by rewrite (fn_lookup_insert_ne T).
Qed.

(** The table after the removal of a registered connection. *)
Lemma conn_unregister_reg fuel s T c : table_ok s T -> registered T c -> c <> NULL -> (length (T (bucket s c)) < fuel)%nat ->
  exists s' T', conn_unregister crc32 crc64 fuel s c = Done s' /\ table_ok s' T' /\
    (forall x, registered T' x <-> registered T x /\ x <> c) /\ (forall h, (length (T' h) <= length (T h))%nat) /\
    s' = s <| tcp_hashtable := tcp_hashtable s' |> <| ht_next := ht_next s' |>.
Proof.
  intros Hk Hc H0 Hf. pose proof (bucket_range s c) as Hb. apply (registered_bucket _ _ _ Hk) in Hc as Hcb.
  pose proof (conn_unregister_ok fuel s T c Hk H0 Hf) as H. rewrite bool_decide_true in H by done.
  destruct H as (s' & A & B & E & EL & Hk' & Es & _). exists s', (<[bucket s c := A ++ B]> T).
  pose proof (tk_nodup _ _ Hk _ Hb) as Hnd. rewrite EL in Hnd. apply NoDup_app in Hnd as (_ & HA & [HB _]%NoDup_cons).
  assert (Hn : c ∉ A ++ B) by (intros [HcA|]%elem_of_app; [apply (HA c HcA), elem_of_cons; by left|done]).
  split; [done|]. split; [done|]. split; [|split; [|done]].
  - intros x. rewrite registered_insert by done. split.
    + intros [Hx|(h & Hh & Hne & Hx)].
      * split; [|by intros ->]. exists (bucket s c). split; [done|]. rewrite EL. apply elem_of_app in Hx as [?|?]; apply elem_of_app.
        { by left. } { right. apply elem_of_cons. by right. }
      * split; [by exists h|]. intros ->. apply Hne. by rewrite (tk_bucket _ _ Hk h c).
    + intros [(h & Hh & Hx) Hne]. destruct (decide (h = bucket s c)) as [->|Hne']; [left|right; by exists h].
      rewrite EL in Hx. apply elem_of_app in Hx as [?|[?|?]%elem_of_cons]; apply elem_of_app; [by left|done|by right].
  - intros h. destruct (decide (bucket s c = h)) as [<-|Hne]; [|by rewrite (fn_lookup_insert_ne T)].
    rewrite (fn_lookup_insert T), EL, !length_app. cbn. lia.
Qed.

(** Changes the table does not depend on. *)
Lemma table_ok_ext s s' T : table_ok s T -> tcp_hashtable s' = tcp_hashtable s -> ht_next s' = ht_next s ->
  (forall x, bucket s' x = bucket s x) -> table_ok s' T.
Proof. intros [H1 H2 H3] E1 E2 E3. constructor; rewrite ?E1, ?E2; try done. intros h c. rewrite E3. apply H3. Qed.

Lemma registered_cons T b c x : 0 <= b < TCP_HTSIZE -> registered (<[b := c :: T b]> T) x <-> registered T x \/ x = c.
Proof.
  intros Hb. rewrite registered_insert by done. rewrite elem_of_cons. split.
  - intros [[->|Hx]|(h & Hh & _ & Hx)]; [by right|left; by exists b|left; by exists h].
  - intros [(h & Hh & Hx)| ->]; [|by left; left]. destruct (decide (h = b)) as [->|Hne]; [by left; right|]. right. by exists h.
Qed.

(** Taking out what has just been put in. *)
Lemma unregister_new fuel s T c : table_ok s T -> ~ registered T c -> c <> NULL ->
  (forall h, 0 <= h < TCP_HTSIZE -> (S (length (T h)) < fuel)%nat) ->
  exists s2 T2, conn_unregister crc32 crc64 fuel (conn_register crc32 crc64 s c) c = Done s2 /\ table_ok s2 T2 /\
    (forall x, registered T2 x <-> registered T x) /\ (forall h, T2 h = T h) /\ (forall x, conn_of s2 x = conn_of s x).
Proof.
  intros Hk Hc H0 Hf. set (b := bucket s c). pose proof (bucket_range s c) as Hb. fold b in Hb.
  destruct (conn_register_ok s T c Hk Hc H0) as [Hk1 _]. fold b in Hk1. set (s1 := conn_register crc32 crc64 s c) in *.
  set (T1 := <[b := c :: T b]> T) in *.
  pose proof (conn_unregister_ok fuel s1 T1 c Hk1 H0) as H. change (bucket s1 c) with b in H.
  assert (ET1 : T1 b = c :: T b) by apply fn_lookup_insert. rewrite ET1 in H. specialize (H ltac:(cbn; by apply Hf)).
  rewrite bool_decide_true in H by (apply elem_of_cons; by left). destruct H as (s2 & A & B & E & EL & Hk2 & Es2 & _).
  assert (A = []) as ->.
  { destruct A as [|a A]; [done|]. injection EL as -> EL. exfalso. apply Hc. exists b. rewrite EL. split; [done|set_solver]. }
  injection EL as <-. cbn [app] in Hk2. assert (ET2 : forall h, (<[b := T b]> T1) h = T h).
  { intros h. unfold T1. destruct (decide (h = b)) as [->|Hne]; [by rewrite (fn_lookup_insert (<[b := c :: T b]> T))|].
    by rewrite (fn_lookup_insert_ne (<[b := c :: T b]> T)), (fn_lookup_insert_ne T). }
  exists s2, (<[b := T b]> T1). split; [done|]. split; [done|]. split; [|split; [done|intros x; by rewrite Es2]].
  intros x. unfold registered. split; intros (h & Hh & Hx); exists h; (split; [done|]); by rewrite ET2 in *.
Qed.

(** C27: the hash table of connections.  A new connection, whose addresses and ports are not
    in the table, is found after [conn_register] for the packets with exactly its
    addresses and ports and is not found before; the packets of the other connections
    still find these.  [conn_unregister] takes it out again, after which the table
    answers as before. *)
Theorem conn_table_roundtrip fuel s T c p ip : table_ok s T -> ~ registered T c -> c <> NULL ->
  (forall x x', registered T x \/ x = c -> registered T x' \/ x' = c -> conn_key s x = conn_key s x' -> x = x') ->
  (forall x, registered T x \/ x = c -> local_ip (conn_of s x) = ip) -> ip_dest p = ip ->
  (forall h, 0 <= h < TCP_HTSIZE -> (S (length (T h)) < fuel)%nat) ->
  let s1 := conn_register crc32 crc64 s c in
  let found s x := conn_lookup crc32 crc64 fuel s p = Done x in
  (exists T1, table_ok s1 T1 /\ forall x, registered T1 x <-> registered T x \/ x = c) /\
  (pkt_key p = conn_key s c -> found s None /\ found s1 (Some c)) /\
  (forall x, registered T x -> pkt_key p = conn_key s x -> found s (Some x) /\ found s1 (Some x)) /\
  exists s2, conn_unregister crc32 crc64 fuel s1 c = Done s2 /\ (exists T2, table_ok s2 T2 /\ forall x, registered T2 x <-> registered T x) /\
    (pkt_key p = conn_key s c -> found s2 None) /\
    (forall x, registered T x -> pkt_key p = conn_key s x -> found s2 (Some x)).
Proof.
  intros Hk Hc H0 Hu Hlip Hip Hf s1 found. pose proof (bucket_range s c) as Hb.
  destruct (conn_register_ok s T c Hk Hc H0) as [Hk1 _]. fold s1 in Hk1. set (T1 := <[bucket s c := c :: T (bucket s c)]> T) in *.
  assert (Hreg1 : forall x, registered T1 x <-> registered T x \/ x = c) by (intros x; by apply registered_cons).
  assert (Hlen1 : forall h, 0 <= h < TCP_HTSIZE -> (length (T1 h) < fuel)%nat).
  { intros h Hh. specialize (Hf h Hh). unfold T1. destruct (decide (bucket s c = h)) as [<-|Hne]; [by rewrite (fn_lookup_insert T)|].
    rewrite (fn_lookup_insert_ne T) by done. lia. }
  assert (Hlen : forall h, 0 <= h < TCP_HTSIZE -> (length (T h) < fuel)%nat) by (intros h Hh; specialize (Hf h Hh); lia).
  (* the lookup of a table that registers some of the connections *)
  assert (Hlook : forall s' T' r, table_ok s' T' -> (forall x, conn_of s' x = conn_of s x) ->
    (forall x, registered T' x -> registered T x \/ x = c) -> (forall h, 0 <= h < TCP_HTSIZE -> (length (T' h) < fuel)%nat) ->
    (forall x, r = Some x <-> registered T' x /\ conn_key s x = pkt_key p) -> found s' r).
  { intros s' T' r Hk' Ec Hsub Hl Hr. assert (Eck : forall x, conn_key s' x = conn_key s x) by (intros x; unfold conn_key; by rewrite Ec).
    apply (lookup_is fuel s' T'); try done.
    - intros x x' Hx Hx'. rewrite !Eck. apply Hu; auto.
    - intros x Hx. rewrite Ec, Hip. auto.
    - intros x. by rewrite Eck, Hr. }
  assert (Hown : pkt_key p = conn_key s c -> forall x, registered T x -> conn_key s x = pkt_key p -> False).
  { intros Ep x Hx Ex. apply Hc. rewrite (Hu c x); auto. congruence. }
  assert (Hoth : forall x y, registered T x -> pkt_key p = conn_key s x -> registered T y \/ y = c -> conn_key s y = pkt_key p -> x = y).
  { intros x y Hx Ex Hy Ey. apply Hu; auto. congruence. }
  split; [by exists T1|]. split; [|split].
  - intros Ep. split.
    + apply (Hlook s T); auto. intros x. split; [done|]. intros [Hx Ex]. by destruct (Hown Ep x).
    + apply (Hlook s1 T1); auto; [intros x; apply Hreg1|]. intros x. rewrite Hreg1. split.
      * intros [= <-]. split; [by right|done].
      * intros [[Hx| ->] Ex]; [by destruct (Hown Ep x)|done].
  - intros x Hx Ex. split.
    + apply (Hlook s T); auto. intros y. split; [by intros [= <-]|]. intros [Hy Ey]. f_equal. by apply Hoth; auto.
    + apply (Hlook s1 T1); auto; [intros y; apply Hreg1|]. intros y. rewrite Hreg1. split.
      * intros [= <-]. split; [by left|done].
      * intros [Hy Ey]. f_equal. by apply Hoth; auto.
  - destruct (unregister_new fuel s T c Hk Hc H0 Hf) as (s2 & T2 & E & Hk2 & Hreg2 & ET2 & Ec2). fold s1 in E.
    assert (Hlen2 : forall h, 0 <= h < TCP_HTSIZE -> (length (T2 h) < fuel)%nat) by (intros h Hh; rewrite ET2; by apply Hlen).
    exists s2. split; [done|]. split; [by exists T2|]. split.
    + intros Ep. apply (Hlook s2 T2); auto; [intros x Hx; left; by apply Hreg2|]. intros x. rewrite Hreg2.
      split; [done|]. intros [Hx Ex]. by destruct (Hown Ep x).
    + intros x Hx Ex. apply (Hlook s2 T2); auto; [intros y Hy; left; by apply Hreg2|]. intros y. rewrite Hreg2.
      split; [by intros [= <-]|]. intros [Hy Ey]. f_equal. by apply Hoth; auto.
Qed.
End Table.

(** ** Backlogs *)

Record listener_ok (v : listener) : Prop := {
  lk_len : 0 <= backlog_len v < 2147483648;
  lk_pos : 0 <= backlog_pos v /\ (0 < backlog_len v -> backlog_pos v < backlog_len v);
  lk_used : 0 <= backlog_used v <= backlog_len v
}.

(** The waiting packets, first to last. *)
Definition waiting (v : listener) : list backlog_slot :=
  (fun i => backlog v ((backlog_pos v + i) mod backlog_len v)) <$> seqZ 0 (backlog_used v).

Lemma waiting_length v : listener_ok v -> Z.of_nat (length (waiting v)) = backlog_used v.
Proof. intros [_ _ Hu]. unfold waiting. rewrite length_fmap, length_seqZ. lia. Qed.

Lemma waiting_pop v : listener_ok v -> 0 < backlog_used v ->
  waiting v = backlog v (backlog_pos v) :: waiting (backlog_pop v) /\ listener_ok (backlog_pop v) /\
  wait_conns (backlog_pop v) = wait_conns v.
Proof.
  intros [Hl Hp Hu] H0. unfold backlog_pop. cbn -[u32]. rewrite !(u32_small (_ - 1)), !(u32_small (backlog_pos v + 1)) by lia.
  assert (Hgo : forall q, q mod backlog_len v = (backlog_pos v + 1) mod backlog_len v -> forall v',
    backlog v' = backlog v -> backlog_len v' = backlog_len v -> backlog_pos v' = q -> backlog_used v' = backlog_used v - 1 ->
    waiting v = backlog v (backlog_pos v) :: waiting v').
  { intros q Hq v' E1 E2 E3 E4. unfold waiting. rewrite (seqZ_cons 0) by lia. rewrite fmap_cons, Z.add_0_r, Z.mod_small by lia.
    f_equal. rewrite E4, E1, E2, E3. replace (Z.pred (backlog_used v)) with (backlog_used v - 1) by lia.
    replace (Z.succ 0) with (1 + 0) by lia. rewrite <-(fmap_add_seqZ 1 0), <-list_fmap_compose. apply list_fmap_ext. intros _ i _. cbn. f_equal.
    rewrite <-(Zplus_mod_idemp_l q), Hq, Zplus_mod_idemp_l. f_equal. lia. }
  destruct (Z.leb_spec (backlog_len v) (backlog_pos v + 1)) as [Hle|Hlt].
  - rewrite u32_small by lia. split; [apply (Hgo (backlog_pos v + 1 - backlog_len v)); try done|split; [constructor; cbn; lia|done]].
    replace (backlog_pos v + 1) with (backlog_len v) by lia. by rewrite Z.sub_diag, Z_mod_same_full, Zmod_0_l.
  - split; [apply (Hgo (backlog_pos v + 1)); done|split; [constructor; cbn; lia|done]].
Qed.

(** Adding a packet behind the others. *)
Lemma waiting_push v b : listener_ok v -> backlog_used v < backlog_len v ->
  let bp := u32 (backlog_pos v + backlog_used v) in
  let bp := if backlog_len v <=? bp then u32 (bp - backlog_len v) else bp in
  let v' := v <| backlog := <[bp := b]> (backlog v) |> <| backlog_used := u32 (backlog_used v + 1) |> in
  bp = (backlog_pos v + backlog_used v) mod backlog_len v /\ waiting v' = waiting v ++ [b] /\ listener_ok v'.
Proof.
  intros [Hl Hp Hu] H0. cbv zeta. rewrite (u32_small (backlog_pos v + backlog_used v)), (u32_small (backlog_used v + 1)) by lia.
  set (bp := if _ <=? _ then _ else _).
  assert (Ebp : bp = (backlog_pos v + backlog_used v) mod backlog_len v).
  { unfold bp. destruct (Z.leb_spec (backlog_len v) (backlog_pos v + backlog_used v)) as [H|H].
    - rewrite u32_small by lia. apply (Z.mod_unique _ _ 1); lia.
    - rewrite Z.mod_small; lia. }
  clearbody bp. split; [done|]. split; [|constructor; cbn; lia].
  unfold waiting. cbn. rewrite (seqZ_app 0 (backlog_used v) 1) by lia. rewrite fmap_app. f_equal.
  - apply list_fmap_ext. intros k i Hi%list_elem_of_lookup_2%elem_of_seqZ. apply fn_lookup_insert_ne. rewrite Ebp.
    intros E%mod_shift_inj; lia.
  - change (seqZ (0 + backlog_used v) 1) with [0 + backlog_used v]. cbn [fmap list_fmap]. rewrite Z.add_0_l, <-Ebp. by rewrite fn_lookup_insert.
Qed.

Lemma backlog_has_ok v p : listener_ok v -> forall n i, 0 <= i -> i + Z.of_nat n = backlog_used v ->
  backlog_has n v p ((backlog_pos v + i) mod backlog_len v) =
  existsb (fun b => same_tuple p (bs_pkt b)) ((fun i => backlog v ((backlog_pos v + i) mod backlog_len v)) <$> seqZ i (Z.of_nat n)).
Proof.
  intros [Hl Hp Hu]. induction n as [|n IH]; intros i Hi Hn; [done|]. cbn [backlog_has].
  rewrite (seqZ_cons i) by lia. rewrite fmap_cons. cbn [existsb]. destruct (same_tuple p _); [done|]. cbn [orb].
  rewrite Zplus_mod_idemp_l. replace (backlog_pos v + i + 1) with (backlog_pos v + (i + 1)) by lia. rewrite IH by lia.
  replace (Z.succ i) with (i + 1) by lia. do 3 f_equal. lia.
Qed.

(** ** Packets for a listener *)
Section Listeners.
Context (config : configuration) (cfg_ip eth_addr : Z) (crc32c_u32 crc32c_u64 crc32c_sse42_u32 crc32c_sse42_u64 : Z -> Z -> Z).
Context (rte_ipv4_cksum rte_ipv4_udptcp_cksum : pkt_tcp -> Z) (rxq_len txq_len : Z) (txq_bufs : Z -> Z -> Z).
Context (comp_offset mac_offset conn_async_q : Z) (kout_room : Z -> list event -> bool) {M : Type}.
Context (fuel : nat) (cur_ts : Z) (buffer_contents : Z -> pkt_tcp).
Implicit Types (s : tcp_state M).

#[local] Abbreviation listener_accept := (listener_accept config cfg_ip crc32c_u32 crc32c_u64 crc32c_sse42_u32
  crc32c_sse42_u64 comp_offset mac_offset conn_async_q (M := M) fuel cur_ts).
#[local] Abbreviation listener_packet := (listener_packet config cfg_ip eth_addr crc32c_u32 crc32c_u64 crc32c_sse42_u32
  crc32c_sse42_u64 rte_ipv4_cksum rte_ipv4_udptcp_cksum rxq_len txq_len txq_bufs comp_offset mac_offset conn_async_q
  kout_room (M := M) fuel cur_ts buffer_contents).
#[local] Abbreviation send_reset := (send_reset cfg_ip eth_addr rte_ipv4_cksum rte_ipv4_udptcp_cksum rxq_len txq_len
  txq_bufs (M := M) buffer_contents).

Lemma waiting_has v p : listener_ok v ->
  backlog_has (Z.to_nat (backlog_used v)) v p (backlog_pos v) = existsb (fun b => same_tuple p (bs_pkt b)) (waiting v).
Proof.
  intros Hv. pose proof Hv as [Hl Hp Hu]. unfold waiting. destruct (Z.eq_dec (backlog_used v) 0) as [E|E]; [by rewrite E|].
  rewrite <-(Z.mod_small (backlog_pos v) (backlog_len v)) at 1 by lia. rewrite <-(Z.add_0_r (backlog_pos v)) at 1.
  rewrite backlog_has_ok by (done || lia). by rewrite Z2Nat.id by lia.
Qed.

(** What is copied of a packet whose length covers the headers: all of them, and the bytes
    behind them up to the length. *)
Lemma pkt_memcpy_headers dst src len : PKT_TCP_SIZE <= len ->
  pkt_memcpy dst src len = src <| p_body := fun i => if PKT_TCP_SIZE + i <? len then p_body src i else p_body dst i |>.
Proof.
  unfold PKT_TCP_SIZE. intros H. unfold pkt_memcpy, copy_le, copy_be.
  rewrite !(fun a Ha => proj2 (Z.leb_le a len) Ha) by lia. by destruct src.
Qed.

(** C24: [listener_packet].  A packet that is not a SYN is answered with a reset.  A SYN that
    is too long for the buffers of the backlog, whose addresses and ports are those of a
    waiting SYN, as the backlog holds it, or that finds the backlog full, is ignored.  Any
    other SYN is added behind the waiting ones: the next slot gets as many bytes of the
    packet as its IP length says, which are all headers and the options if that length
    covers them (otherwise the rest of the slot keeps the bytes of an earlier packet, see
    [short_syn_keeps_old_header]).  The application is told of the addresses of the packet
    itself when there is room in its queue, and when it has offered a connection, the
    listener accepts. *)
Theorem listener_packet_correct s l p opts core fg : listener_ok (listeners s l) ->
  let v := listeners s l in
  let len := u16 (ETH_HDR_SIZE + ip_len p) in
  let r := listener_packet s l p opts core fg in
  if negb (Z.ldiff (TCPH_FLAGS p) (Z.lor TCP_ECE TCP_CWR) =? TCP_SYN) then r = Done (snd (send_reset s p opts))
  else if (BACKLOG_BUF <? len) || existsb (fun b => same_tuple p (bs_pkt b)) (waiting v) ||
          (backlog_len v <=? Z.of_nat (length (waiting v))) then r = Done s
  else exists s1 copy, r = (if wait_conns v =? NULL then Done s1 else listener_accept s1 l) /\
    s1 = s <| listeners := listeners s1 |> <| events := events s1 |> /\
    (forall l', l' <> l -> listeners s1 l' = listeners s l') /\
    listener_ok (listeners s1 l) /\ waiting (listeners s1 l) = waiting v ++ [mk_slot copy len core fg] /\
    (let old := bs_pkt (backlog v ((backlog_pos v + backlog_used v) mod backlog_len v)) in
     copy = pkt_memcpy old p len /\
     (PKT_TCP_SIZE <= len ->
      copy = p <| p_body := fun i => if PKT_TCP_SIZE + i <? len then p_body p i else p_body old i |>)) /\
    wait_conns (listeners s1 l) = wait_conns v /\
    events s1 = events s ++ (if kout_room (l_ctx v) (events s)
                             then [LISTEN_NEWCONN (l_ctx v) (l_opaque v) (ip_src p) (tcp_src p)] else []).
Proof.
  intros Hv. cbv zeta. unfold Tcp.listener_packet. destruct (negb (_ =? TCP_SYN)); [done|].
  destruct (BACKLOG_BUF <? _); [done|]. rewrite waiting_has, waiting_length by done. cbn [orb].
  destruct (existsb _ _); [done|]. cbn [orb]. pose proof (lk_used _ Hv) as Hu.
  destruct (Z.leb_spec (backlog_len (listeners s l)) (backlog_used (listeners s l))) as [H|H].
  { by rewrite (proj2 (Z.eqb_eq _ _)) by lia. }
  rewrite (proj2 (Z.eqb_neq _ _)) by lia.
  set (bp := if _ <=? u32 _ then _ else _). set (b := mk_slot _ _ _ _).
  destruct (waiting_push _ b Hv H) as (Ebp & Hw & Hv'). cbv zeta in Ebp, Hw, Hv'. fold bp in Ebp, Hw, Hv'.
  set (v' := _ <| backlog := _ |> <| backlog_used := _ |>) in *.
  set (s0 := set_listener s l v'). assert (E0 : listeners s0 l = v') by apply fn_lookup_insert.
  set (s1 := appif_listen_newconn _ s0 l _ _).
  assert (E1 : listeners s1 = listeners s0 /\ s1 = s0 <| events := events s1 |> /\
    events s1 = events s ++ (if kout_room (l_ctx (listeners s l)) (events s)
      then [LISTEN_NEWCONN (l_ctx (listeners s l)) (l_opaque (listeners s l)) (ip_src p) (tcp_src p)] else [])).
  { unfold s1, appif_listen_newconn. rewrite E0. change (l_ctx v') with (l_ctx (listeners s l)).
    change (events s0) with (events s). destruct (kout_room _ _); cbn [negb]; split_and!; try done.
    by rewrite app_nil_r. }
  destruct E1 as (El & Es & Ee). eexists s1, _. rewrite El, E0, <-Ebp. split_and!; try done.
  - by destruct (_ =? NULL).
  - intros l' Hl. by apply fn_lookup_insert_ne.
  - by apply pkt_memcpy_headers.
Qed.
End Listeners.

(** ** Examples *)

(** A connection between the port 80 of this host and the port 4000 of another one. *)
Definition ex_connection (st : connection_status) (armed : bool) : connection :=
  mk_connection 7 1 0 0 0 0 4096 8192 8192 167772162 167772161 4000 80 st 0 0 0 10000 0 armed 0 50 0 0 0 0 448000 0
    (mk_dctcp_win 0 2800 true) (mk_dctcp_rate 0 0 0 0 0 0 true) (mk_timely 0 0 0 0 0 true) 0 0 0 0 0 3.

Definition ex_listener : listener := mk_listener 7 1 4 0 0 (fun _ => mk_slot (FastFlowsProps.ex_pkt 0 0 0 0) 0 0 0) 0 80 0.

(** The state after the initialisation, where all connections have the contents [k] and
    all listeners the contents [v]. *)
Definition ex_tcp (k : connection) (v : listener) : tcp_state Timeout.tmgr :=
  mk_tcp (fun _ => PORT_UNUSED) 9000 (fun _ => NULL) (fun _ => NULL) 0 (fun _ => v) (fun _ => mk_lm 0 (fun _ => NULL))
    (fun _ => NULL) (fun _ => NULL)
    (mk_cc 0 0 0 (fun _ => 0) (fun _ => k) (mk_kstats 0 0 0 0) (NicifProps.ex_nicif 3)) ArpSpec.ex_blank PacketmemSpec.pm_ex
    TimeoutSpec.ex_mgr ∅ [] [].

(** A SYN with a timestamp. *)
Definition ex_syn : pkt_tcp := (FastFlowsProps.ex_pkt 1000 5000 52 1000) <| tcp_rsvd_flags := SYN_FLAGS |>
  <| p_body := fun i => if i =? 0 then TcpCommon.TcpCommon.TCP_OPT_TIMESTAMP else if i =? 1 then TCP_TS_OPT_SIZE else 0 |>.

Definition ex_state : tcp_state Timeout.tmgr := ex_tcp (ex_connection CONN_SYN_SENT false) ex_listener.

Lemma port_alloc_correct_witness : exists q s', port_alloc (Z.to_nat 57344) ex_state = Done (q, s') /\ PORT_FIRST_EPH <= q <= PORT_MAX.
Proof.
  destruct (port_alloc_correct (Z.to_nat 57344) ex_state) as [H _]; [lia|].
  destruct H as (q & s' & E & Hq); [unfold PORT_FIRST_EPH, PORT_MAX; cbn; lia|]. exists q, s'. split; [exact E|].
  rewrite bool_decide_true in Hq; [apply Hq|]. apply Exists_exists. exists 9000. split; [apply elem_of_seqZ; unfold PORT_FIRST_EPH; lia|done].
Defined.

Lemma ex_conn_table_ok : table_ok (fun a _ => a) (fun a _ => a) ex_state (fun _ => []).
Proof. constructor; [done|by constructor|]. intros h c _ Hc. by apply elem_of_nil in Hc. Qed.

Lemma conn_table_roundtrip_witness : exists s2,
  conn_lookup (fun a _ => a) (fun a _ => a) 2 (conn_register (fun a _ => a) (fun a _ => a) ex_state 100) ex_syn = Done (Some 100) /\
  conn_unregister (fun a _ => a) (fun a _ => a) 2 (conn_register (fun a _ => a) (fun a _ => a) ex_state 100) 100 = Done s2 /\
  conn_lookup (fun a _ => a) (fun a _ => a) 2 s2 ex_syn = Done None.
Proof.
  destruct (conn_table_roundtrip (fun a _ => a) (fun a _ => a) 2 ex_state (fun _ => []) 100 ex_syn 167772161 ex_conn_table_ok)
    as (_ & H1 & _ & s2 & E2 & _ & H2 & _).
  - intros (h & _ & Hc). by apply elem_of_nil in Hc.
  - done.
  - intros x x' [(h & _ & Hc)| ->] [(h' & _ & Hc')| ->] _; try done; exfalso; by eapply elem_of_nil.
  - done.
  - done.
  - intros h _. cbn. lia.
  - exists s2. split; [by apply H1|]. split; [exact E2|by apply H2].
Defined.

Lemma ex_listener_ok : listener_ok ex_listener.
Proof. constructor; cbn; lia. Qed.

Lemma listener_packet_correct_witness : exists s1,
  listener_packet (CcProps.CcProps.ex_config CONFIG_CC_DCTCP_WIN) 167772161 9 (fun a _ => a) (fun a _ => a) (fun a _ => a) (fun a _ => a) (fun _ => 0)
    (fun _ => 0) 4 4 (fun _ _ => 0) 8 16 70 (fun _ _ => true) 10 0 (fun _ => ex_syn) ex_state 50 ex_syn (mk_opts None (Some 0)) 1 3
    = Done s1 /\ (exists copy, waiting (listeners s1 50) = [mk_slot copy 66 1 3] /\ tcp_src copy = tcp_src ex_syn /\
      tcp_seqno copy = tcp_seqno ex_syn) /\ events s1 = [LISTEN_NEWCONN 1 7 167772162 4000].
Proof.
  pose proof (listener_packet_correct (CcProps.CcProps.ex_config CONFIG_CC_DCTCP_WIN) 167772161 9 (fun a _ => a) (fun a _ => a) (fun a _ => a)
    (fun a _ => a) (fun _ => 0) (fun _ => 0) 4 4 (fun _ _ => 0) 8 16 70 (fun _ _ => true) 10 0 (fun _ => ex_syn) ex_state 50 ex_syn
    (mk_opts None (Some 0)) 1 3 ex_listener_ok) as H.
  destruct H as (s1 & copy & E & _ & _ & _ & Hw & [_ Hc] & _ & He). exists s1. split; [exact E|]. split; [|exact He].
  exists copy. split; [exact Hw|]. rewrite Hc by (vm_compute; discriminate). split; reflexivity.
Defined.

(** ** Defects *)

(** Only as many bytes as the IP length says are copied to the backlog, and the length is
    not compared with the size of the headers: with an IP length of 20 the slot gets the
    addresses of the SYN and keeps the ports, the sequence number and the options of the
    packet it held before.  [listener_accept] opens the connection with those. *)
Theorem short_syn_keeps_old_header : exists s1 copy,
  listener_packet (CcProps.CcProps.ex_config CONFIG_CC_DCTCP_WIN) 167772161 9 (fun a _ => a) (fun a _ => a) (fun a _ => a) (fun a _ => a) (fun _ => 0)
    (fun _ => 0) 4 4 (fun _ _ => 0) 8 16 70 (fun _ _ => true) 10 0 (fun _ => ex_syn)
    (ex_tcp (ex_connection CONN_SYN_SENT false)
      (ex_listener <| backlog := fun _ => mk_slot (ex_syn <| tcp_src := 5555 |> <| tcp_seqno := 77 |>) 66 1 3 |>))
    50 (ex_syn <| ip_len := 20 |>) (mk_opts None (Some 0)) 1 3
    = Done s1 /\ waiting (listeners s1 50) = [mk_slot copy 34 1 3] /\
  ip_src copy = ip_src ex_syn /\ tcp_src copy = 5555 /\ tcp_seqno copy = 77 /\ tcp_src ex_syn = 4000.
Proof. eexists _, _. split; [reflexivity|]. split; [reflexivity|]. split_and!; reflexivity. Qed.
End TcpSpec.
