(* ===== verification/TcpProps.v ===== *)
(** * Opening and accepting connections

    The handlers of [Tcp] that register a connection with congestion control and with the
    fast path, on a state where these and the timers are well formed. *)
From S2P Require Import Prelude Chain Memif Packet AppCtx FastFlows TimeoutSpec Timers Arp Conn Nicif NicifSpec NicifProps Cc CcSpec CcProps Tcp TcpSpec.
From stdpp Require Import gmap.
#[local] Open Scope Z_scope.

Module TcpProps.
Import Arp.Arp Memif Packet AppCtx FastFlows Conn Nicif NicifSpec NicifProps Cc CcSpec CcProps Tcp TcpSpec.

#[local] Set Default Proof Using "Type*".
Section Props.
Context (config : configuration) (Hcfg : config_ok config) (cfg_ip eth_addr : Z).
Context (crc32c_u32 crc32c_u64 crc32c_sse42_u32 crc32c_sse42_u64 : Z -> Z -> Z).
Context (crc_nonneg : forall a b, 0 <= crc32c_u32 a b).
Context (rte_ipv4_cksum rte_ipv4_udptcp_cksum : pkt_tcp -> Z) (rxq_len txq_len : Z) (txq_bufs : Z -> Z -> Z).
Context (comp_offset to_offset mac_offset conn_async_q : Z) (kout_room : Z -> list event -> bool) (ctx_app : Z -> Z).
Context {M : Type} `{Timers M} (fuel : nat) (cur_ts ts : Z) (buffer_contents : Z -> pkt_tcp).
Implicit Types (s : tcp_state M) (c l f p : Z) (L Lf : list Z) (F : Z -> option Z).

#[local] Abbreviation hash := (flow_hash crc32c_u32 crc32c_u64).
#[local] Abbreviation nicif_inv := (nicif_inv crc32c_u32 crc32c_u64).
#[local] Abbreviation cc_inv := (cc_inv config).
#[local] Abbreviation finds := (finds crc32c_u32 crc32c_u64).
#[local] Abbreviation register_flow := (register_flow crc32c_u32 crc32c_u64 mac_offset (M := M) fuel).
#[local] Abbreviation send_control := (send_control cfg_ip eth_addr rte_ipv4_cksum rte_ipv4_udptcp_cksum rxq_len txq_len
  txq_bufs mac_offset (M := M) buffer_contents).
#[local] Abbreviation conn_syn_sent_packet := (conn_syn_sent_packet config cfg_ip eth_addr crc32c_u32 crc32c_u64
  rte_ipv4_cksum rte_ipv4_udptcp_cksum rxq_len txq_len txq_bufs comp_offset to_offset mac_offset conn_async_q kout_room
  (M := M) fuel cur_ts buffer_contents).
#[local] Abbreviation listener_accept := (listener_accept config cfg_ip crc32c_u32 crc32c_u64 crc32c_sse42_u32
  crc32c_sse42_u64 comp_offset mac_offset conn_async_q (M := M) fuel cur_ts).

(** ** The state *)

Definition conn_flow_key (k : connection) : flow_key :=
  mk_key (local_ip k) (remote_ip k) (local_port k) (remote_port k).

(** [L] are the connections under congestion control, [F] tells for the flow ids in use
    the hash, [Lf] are the free ids.  An open connection has a flow of its own, with its
    addresses and ports. *)
Record slow_inv s L F Lf : Prop := {
  si_cc : cc_inv (cc s) L;
  si_nic : nicif_inv (nic_of s) F Lf;
  si_open p : p ∈ L -> status (conn_of s p) = CONN_OPEN ->
    exists h, F (flow_id (conn_of s p)) = Some h /\
      key_of (flowst (nic_of s) (flow_id (conn_of s p))) = conn_flow_key (conn_of s p)
}.

(** The registers and tables of the fast path are the same. *)
Definition nic_same (n n' : nicif) : Prop := ni_ids n' = ni_ids n /\ flowht n' = flowht n /\ flowst n' = flowst n.

Lemma nicif_inv_same n n' F Lf : nic_same n n' -> nicif_inv n F Lf -> nicif_inv n' F Lf.
Proof. intros (E1 & E2 & E3) []. constructor; rewrite ?E1, ?E2, ?E3; done. Qed.

Lemma finds_same n n' k r : nic_same n n' -> finds n k r -> finds n' k r.
Proof. intros (_ & E2 & E3). unfold NicifProps.finds. by rewrite E2, E3. Qed.

(** Changes the invariant does not depend on. *)
Lemma slow_inv_nic s s' L F Lf n : slow_inv s L F Lf -> nic_same (nic_of s) n -> cc s' = (cc s) <| nic := n |> ->
  slow_inv s' L F Lf.
Proof.
  intros [Hc Hn Ho] (E1 & E2 & E3) E. constructor.
  - rewrite E. destruct Hc. constructor; try done. cbn. change (nic (cc s)) with (nic_of s) in *. by rewrite E3.
  - unfold nic_of. rewrite E. by apply (nicif_inv_same (nic_of s)).
  - intros p. unfold conn_of, nic_of. rewrite E. cbn. rewrite E3. apply Ho.
Qed.

Lemma slow_inv_outside s s' L F Lf c v : slow_inv s L F Lf -> c ∉ L -> cc s' = Cc.set_conn (cc s) c v -> slow_inv s' L F Lf.
Proof.
  intros [Hc Hn Ho] HcL E.
  assert (Ec : forall p, p ∈ L -> conns (cc s') p = conns (cc s) p) by (intros p Hp; rewrite E; apply fn_lookup_insert_ne; congruence).
  constructor.
  - destruct Hc as [H1 H2 H3 H4 H5 H6 H7]. constructor; try done; try (by rewrite E).
    + intros p Hp. rewrite Ec by done. by apply H4.
    + intros p Hp. rewrite Ec by done. by apply H5.
    + intros p q Hp Hq. rewrite !Ec by done. by apply H6.
  - unfold nic_of. by rewrite E.
  - intros p Hp. unfold conn_of, nic_of. rewrite Ec by done. rewrite E. by apply Ho.
Qed.

(** A change of a connection that is not open and keeps its state of congestion control. *)
Lemma slow_inv_conn s s' L F Lf c v : slow_inv s L F Lf -> cc s' = Cc.set_conn (cc s) c v ->
  conn_ok config v -> status v <> CONN_OPEN -> slow_inv s' L F Lf.
Proof.
  intros [[H1 H2 H3 H4 H5 H6 H7] Hn Ho] E Hv Hst.
  assert (Ec : forall p, p <> c -> conns (cc s') p = conns (cc s) p) by (intros p Hp; rewrite E; by apply fn_lookup_insert_ne).
  assert (Ev : conns (cc s') c = v) by (rewrite E; apply fn_lookup_insert).
  constructor; [constructor|..]; try done; try (by rewrite E).
  - intros p Hp. destruct (decide (p = c)) as [->|Hne]; [by rewrite Ev|]. rewrite Ec by done. by apply H4.
  - intros p Hp. destruct (decide (p = c)) as [->|Hne]; [by rewrite Ev|]. rewrite Ec by done. by apply H5.
  - intros p q Hp Hq. destruct (decide (p = c)) as [->|Hne]; [by rewrite Ev|]. destruct (decide (q = c)) as [->|Hne']; [by rewrite Ev|].
    rewrite !Ec by done. by apply H6.
  - unfold nic_of. by rewrite E.
  - intros p Hp. unfold conn_of, nic_of. destruct (decide (p = c)) as [->|Hne]; [by rewrite Ev|]. rewrite Ec by done. rewrite E. by apply Ho.
Qed.

(** ** Registration with the fast path *)

(** The registers of the flow of a connection. *)
Definition flow_of_conn (fs : Memif.flowst) (k : connection) (mac ls : Z) : Memif.flowst :=
  new_flowst fs (db_id k) mac (local_ip k) (local_port k) (remote_ip k) (remote_port k)
    (if Z.land (flags k) NICIF_CONN_ECN =? NICIF_CONN_ECN then Z.lor (rx_buf k) FLEXNIC_PL_FLOWST_ECN else rx_buf k)
    (rx_len k) (tx_buf k) (tx_len k) (remote_seq k) ls (opaque k) (cc_rate k) (flow_group k).

(** There is a free flow id, and a free entry where a lookup would find it. *)
Definition can_register s (k : flow_key) Lf : Prop := Lf <> [] /\ bucket_free (flowht (nic_of s)) (hash k).

Lemma cc_inv_status (s : cc_state) n L c v st : cc_inv s L -> conn_ok config v ->
  (forall f, 0 <= fs_rtt_est (flowst n f) <= MAX_RTT) -> 0 <= flow_id v < FLEXNIC_PL_FLOWST_NUM ->
  (forall q, q ∈ L -> q <> c -> status (conns s q) = CONN_OPEN -> flow_id (conns s q) <> flow_id v) ->
  cc_inv (Cc.set_conn (s <| nic := n |>) c (v <| status := st |>)) L.
Proof.
  intros [H1 H2 H3 H4 H5 H6 H7] Hv Hr Hf Hu.
  set (s' := Cc.set_conn _ _ _).
  assert (Ec : forall p, p <> c -> conns s' p = conns s p) by (intros p Hp; by apply fn_lookup_insert_ne).
  assert (Ev : conns s' c = v <| status := st |>) by apply fn_lookup_insert.
  constructor; try done.
  - intros p Hp. destruct (decide (p = c)) as [->|Hne]; [rewrite Ev; by destruct Hv|]. rewrite Ec by done. by apply H4.
  - intros p Hp. destruct (decide (p = c)) as [->|Hne]; [by rewrite Ev|]. rewrite Ec by done. by apply H5.
  - intros p q Hp Hq. destruct (decide (p = c)) as [->|Hne], (decide (q = c)) as [->|Hne']; try done; rewrite ?Ev, ?Ec by done.
    + intros _ Ho E. by destruct (Hu q Hq Hne' Ho).
    + intros Ho _ E. by destruct (Hu p Hp Hne Ho).
    + by apply H6.
Qed.

Lemma register_flow_ok s L F Lf c ls : slow_inv s L F Lf -> c ∈ L -> status (conn_of s c) <> CONN_OPEN ->
  let k := conn_flow_key (conn_of s c) in
  slot_safe (flowht (nic_of s)) (hash k) -> (forall g h, F g = Some h -> key_of (flowst (nic_of s) g) <> k) -> (29 < fuel)%nat ->
  exists ok s', register_flow s c ls = Done (ok, s') /\
    if ok then exists f Lf', Lf = f :: Lf' /\
      s' = s <| cc := cc s' |> /\ conn_of s' c = (conn_of s c) <| flow_id := f |> /\
      finds (nic_of s') k (Some f) /\
      flowst (nic_of s') f = flow_of_conn (flowst (nic_of s) f) (conn_of s c) (remote_mac mac_offset s c) ls /\
      forall st, slow_inv (set_conn s' c ((conn_of s' c) <| status := st |>)) L (<[f := Some (hash k)]> F) Lf'
    else s' = s <| cc := (cc s) <| nic := nic_of s' |> |> /\ slow_inv s' L F Lf /\ ~ can_register s k Lf.
Proof.
  intros [Hcc Hni Ho] Hc Hst k Hex Hnew Hfuel. unfold Tcp.register_flow.
  destruct (nicif_connection_add_ok crc32c_u32 crc32c_u64 crc_nonneg fuel (nic_of s) F Lf (db_id (conn_of s c))
    (remote_mac mac_offset s c) (local_ip (conn_of s c)) (local_port (conn_of s c)) (remote_ip (conn_of s c))
    (remote_port (conn_of s c)) (rx_buf (conn_of s c)) (rx_len (conn_of s c)) (tx_buf (conn_of s c)) (tx_len (conn_of s c))
    (remote_seq (conn_of s c)) ls (opaque (conn_of s c)) (flags (conn_of s c)) (cc_rate (conn_of s c))
    (flow_group (conn_of s c)) Hni Hex Hnew Hfuel) as (r & n & E & Hr & _).
  rewrite E. cbn [mbind outcome_bind]. destruct r as [f|].
  - destruct Hr as (Lf' & -> & Hn' & Hfd & Hfs & Hoth). eexists true, _. split; [reflexivity|].
    exists f, Lf'. split; [done|]. split; [done|]. set (s' := set_conn _ _ _).
    assert (Ev : conn_of s' c = (conn_of s c) <| flow_id := f |>) by apply fn_lookup_insert.
    assert (Hf : 0 <= f < FLEXNIC_PL_FLOWST_NUM) by (apply (io_range _ _ (nv_ids _ _ _ _ _ Hni)), elem_of_cons; by left).
    assert (HfF : F f = None) by (apply (nv_free _ _ _ _ _ Hni), elem_of_cons; by left).
    split; [done|]. split; [done|]. split; [done|]. intros st. rewrite Ev.
    set (v := _ <| status := st |>). set (s2 := set_conn s' c v).
    assert (Ev2 : conn_of s2 c = v) by apply fn_lookup_insert.
    assert (Ec : forall p, p <> c -> conn_of s2 p = conn_of s p).
    { intros p Hp. unfold s2, s', conn_of. cbn. by rewrite !fn_lookup_insert_ne. }
    constructor; [|exact Hn'|].
    + assert (Heq : cc_inv (Cc.set_conn ((cc s) <| nic := n |>) c v) L).
      { apply cc_inv_status; [done|by destruct (ci_conn _ _ _ Hcc c Hc)| |done|].
        - intros g. destruct (decide (g = f)) as [->|Hne]; [|rewrite Hoth by done; apply (ci_rtt _ _ _ Hcc)].
          rewrite Hfs. by split.
        - intros q Hq Hne Hqo Ef. destruct (Ho q Hq Hqo) as (h & Hh & _). cbn in Ef. unfold conn_of in Hh. by rewrite Ef, HfF in Hh. }
      destruct Heq as [H1 H2 H3 H4 H5 H6 H7].
      assert (Ecs : forall p, conns (cc s2) p = conns (Cc.set_conn ((cc s) <| nic := n |>) c v) p).
      { intros p. destruct (decide (p = c)) as [->|Hne].
        - cbn. by rewrite !fn_lookup_insert.
        - cbn. by rewrite !fn_lookup_insert_ne. }
      constructor; try done.
      * intros p Hp. rewrite Ecs. by apply H4.
      * intros p Hp. rewrite Ecs. by apply H5.
      * intros p q Hp Hq. rewrite !Ecs. by apply H6.
    + intros p Hp. destruct (decide (p = c)) as [->|Hne].
      * rewrite Ev2. intros _. exists (hash k). cbn. rewrite fn_lookup_insert. split; [done|]. by rewrite Hfs.
      * rewrite Ec by done. intros Hpo. destruct (Ho p Hp Hpo) as (h & Hh & Ek). exists h.
        assert (Hne' : flow_id (conn_of s p) <> f) by (intros Ef; rewrite Ef, HfF in Hh; done).
        rewrite fn_lookup_insert_ne by done. split; [done|]. change (nic_of s2) with n. rewrite Hoth by done. done.
  - destruct Hr as (Hn' & Efs & Hno). eexists false, _. split; [reflexivity|]. split; [done|]. split.
    + constructor; [|exact Hn'|].
      * destruct Hcc. constructor; try done. cbn. by rewrite Efs.
      * intros p Hp Hpo. cbn. rewrite Efs. by apply Ho.
    + intros [HL Hb]. by destruct Hno.
Qed.

(** ** Control packets, timeouts and notifications *)

(** There is room for a packet of the slow path in the queue to the first core. *)
Definition tx_room (n : nicif) : bool := ktx_type (txq_base n 0 (txq_tail n 0)) =? 0.

(** The packet has the addresses, ports and sequence numbers of the connection. *)
Definition control_for (k : connection) (fl : Z) (q : pkt_tcp) : Prop :=
  ip_src q = cfg_ip /\ ip_dest q = remote_ip k /\ tcp_src q = local_port k /\ tcp_dest q = remote_port k /\
  tcp_seqno q = local_seq k /\ tcp_ackno q = remote_seq k /\ tcp_rsvd_flags q = fl.

Lemma send_control_ok s c fl ts_opt ts_echo mss_opt : exists n sent,
  send_control s c fl ts_opt ts_echo mss_opt =
    (tx_room (nic_of s), s <| cc := (cc s) <| nic := n |> |> <| tcp_sent := tcp_sent s ++ sent |>) /\ nic_same (nic_of s) n /\
  if tx_room (nic_of s) then exists buf q, sent = [(buf, q)] /\ control_for (conn_of s c) fl q else sent = [].
Proof.
  unfold Tcp.send_control, send_control_raw, nicif_tx_alloc, ktx_try_alloc, tx_room.
  destruct (ktx_type _ =? 0); cbn [negb].
  - eexists _, _. split; [reflexivity|]. split; [by repeat split|]. eexists _, _. split; [reflexivity|].
    unfold control_packet. destruct ts_opt, (mss_opt =? 0); by repeat split.
  - eexists (nic_of s), []. rewrite app_nil_r. by destruct s as [??????????[]].
Qed.

(** The timeouts of the connections in [A] are armed. *)
Lemma conn_timeout_disarm_ok s now A dl ty c : tm_rep (tm s) now A dl ty -> c + to_offset ∈ A -> to_armed (conn_of s c) = true ->
  exists m', conn_timeout_disarm to_offset s c = Done ((set_conn s c ((conn_of s c) <| to_armed := false |>)) <| tm := m' |>) /\
    tm_rep m' now (A ∖ {[c + to_offset]}) dl ty.
Proof.
  intros Hr HA Ha. unfold conn_timeout_disarm. rewrite Ha. cbn [assert_ mbind outcome_bind].
  destruct (tm_disarm_law _ _ _ _ _ _ Hr HA) as (m' & E & Hr'). exists m'.
  change (tm (set_conn s c ((conn_of s c) <| to_armed := false |>))) with (tm s). by rewrite E.
Qed.

Lemma appif_conn_opened_ok s c : appif_conn_opened cfg_ip kout_room fuel s c 0 =
  Done (s <| events := events s ++ (if kout_room (ctx (conn_of s c)) (events s)
    then [CONN_OPENED (ctx (conn_of s c)) (opaque (conn_of s c)) 0 (Some (conn_data_of cfg_ip (conn_of s c), local_port (conn_of s c)))]
    else []) |>).
Proof. unfold appif_conn_opened. destruct (kout_room _ _); cbn; [done|]. rewrite app_nil_r. by destruct s. Qed.

(** A connection joins congestion control. *)
Lemma cc_join s L F Lf c : slow_inv s L F Lf -> c ∉ L -> c <> NULL -> status (conn_of s c) <> CONN_OPEN ->
  2 * CONF_MSS <= tx_len (conn_of s c) < 4294967296 ->
  exists cc', cc_conn_init config (cc s) c cur_ts = Done cc' /\ slow_inv (s <| cc := cc' |>) (c :: L) F Lf /\
    nic cc' = nic_of s /\ (forall q, q <> c -> conns cc' q = conn_of s q) /\
    cc_frame ((conn_of s c) <| cc_last_ts := cur_ts |>) (conns cc' c).
Proof.
  intros [Hcc Hni Ho] Hc H0 Hst Ht.
  destruct (cc_conn_init_ok config Hcfg (cc s) L c cur_ts Hcc Hc H0 Hst Ht) as (cc' & E & Hcc' & Hoth & _ & Est).
  exists cc'. split; [done|].
  assert (Hfr : nic cc' = nic_of s /\ cc_frame ((conn_of s c) <| cc_last_ts := cur_ts |>) (conns cc' c)).
  { unfold cc_conn_init in E. cbv zeta in E.
    destruct (cc_algo_init_ok config Hcfg ((conn_of s c) <| cc_last_ts := cur_ts |> <| cc_rtt := tcp_rtt_init config |> <| cc_rexmits := 0 |>))
      as (v & Ev & _ & Hf); [done|done|done|].
    match type of E with context [cc_algo_init config ?k] => change (cc_algo_init config k) with
      (cc_algo_init config ((conn_of s c) <| cc_last_ts := cur_ts |> <| cc_rtt := tcp_rtt_init config |> <| cc_rexmits := 0 |>)) in E end.
    rewrite Ev in E. cbn [mbind outcome_bind] in E. injection E as <-. split; [done|]. cbn. rewrite fn_lookup_insert.
    etransitivity; [exact Hf|reflexivity]. }
  destruct Hfr as [En Hfr]. split; [|done]. constructor.
  - done.
  - unfold nic_of. cbn. by rewrite En.
  - intros p. unfold conn_of, nic_of. cbn. rewrite En. intros [->|Hp]%elem_of_cons.
    + rewrite Est. unfold conn_of in Hst. done.
    + destruct (decide (p = c)) as [->|Hne]; [done|]. rewrite Hoth by done. by apply Ho.
Qed.

(** ** The end of the handshake *)

(** The packet answers a SYN and has a timestamp. *)
Definition syn_ack (q : pkt_tcp) (opts : tcp_opts) : bool :=
  (Z.land (TCPH_FLAGS q) (Z.lor TCP_SYN TCP_ACK) =? Z.lor TCP_SYN TCP_ACK) && bool_decide (is_Some (o_ts opts)).

(** [c] is registered with the fast path as the flow [f]; packets with its addresses and
    ports are processed with the next sequence numbers [rs] and [ls]. *)
Definition opened s' L F Lf c f (key : flow_key) (rs ls : Z) : Prop :=
  exists Lf', Lf = f :: Lf' /\ slow_inv s' (c :: L) (<[f := Some (hash key)]> F) Lf' /\ flow_id (conn_of s' c) = f /\
    finds (nic_of s') key (Some f) /\ key_of (flowst (nic_of s') f) = key /\
    fs_rx_next_seq (flowst (nic_of s') f) = rs /\ fs_tx_next_seq (flowst (nic_of s') f) = ls /\
    remote_seq (conn_of s' c) = rs /\ status (conn_of s' c) <> CONN_SYN_SENT.

(** The opened connection with another state of the queues and histories. *)
Lemma opened_same s s' L F Lf c f key rs ls n : opened s L F Lf c f key rs ls -> nic_same (nic_of s) n ->
  cc s' = (cc s) <| nic := n |> -> opened s' L F Lf c f key rs ls.
Proof.
  intros (Lf' & -> & Hi & Hf & Hfd & Hk & H1 & H2 & H3 & H4) Hn E. exists Lf'. split; [done|].
  split; [by eapply slow_inv_nic|]. unfold conn_of, nic_of in *. rewrite E. pose proof Hn as (_ & _ & En). cbn in *.
  rewrite En. split; [done|]. split; [by eapply finds_same|]. done.
Qed.

(** [s'] is [s] with other contents of [c], and of queues and histories. *)
Record only_conn s s' c : Prop := {
  oc_list : cc_conns (cc s') = cc_conns (cc s) /\ next_conn (cc s') = next_conn (cc s) /\ cc_next (cc s') = cc_next (cc s);
  oc_nic : nic_same (nic_of s) (nic_of s');
  oc_other p : p <> c -> conn_of s' p = conn_of s p
}.

Lemma slow_inv_ext s s' L F Lf c : slow_inv s L F Lf -> only_conn s s' c -> conn_of s' c = conn_of s c -> slow_inv s' L F Lf.
Proof.
  intros [[H1 H2 H3 H4 H5 H6 H7] Hn Ho] [(E1 & E2 & E3) Hni Hoth] Ec.
  assert (E : forall p, conn_of s' p = conn_of s p) by (intros p; destruct (decide (p = c)) as [->|]; auto).
  unfold conn_of, nic_of in *. pose proof Hni as (_ & _ & En).
  constructor; [constructor|..]; rewrite ?E1, ?E2, ?E3; try done.
  - intros p Hp. rewrite E. by apply H4.
  - intros p Hp. rewrite E. by apply H5.
  - intros p q Hp Hq. rewrite !E. by apply H6.
  - by rewrite En.
  - by eapply nicif_inv_same.
  - intros p. unfold conn_of, nic_of. rewrite E, En. apply Ho.
Qed.

Lemma connection_add_tx n db mac a b d e rb rl tb tl rs ls op fl rt fg r n' :
  nicif_connection_add crc32c_u32 crc32c_u64 fuel n db mac a b d e rb rl tb tl rs ls op fl rt fg = Done (r, n') ->
  tx_room n' = tx_room n.
Proof.
  unfold nicif_connection_add. destruct (flow_id_alloc _) as [[g|] l]; [|by intros [= <- <-]].
  destruct (flow_slot_alloc _ _ _) as [[[[i j]|] ht]| |]; cbn -[flow_hash]; try done.
  - destruct (i <? _); [|done]. destruct (j <? _); [|done]. by intros [= <- <-].
  - by intros [= <- <-].
Qed.

Lemma register_opened s L F Lf c ls : slow_inv s (c :: L) F Lf -> status (conn_of s c) <> CONN_OPEN ->
  let key := conn_flow_key (conn_of s c) in
  slot_safe (flowht (nic_of s)) (hash key) -> (forall g h, F g = Some h -> key_of (flowst (nic_of s) g) <> key) -> (29 < fuel)%nat ->
  exists ok s', register_flow s c ls = Done (ok, s') /\ s' = s <| cc := cc s' |> /\
    (forall q, q <> c -> conn_of s' q = conn_of s q) /\ conn_of s' c = (conn_of s c) <| flow_id := flow_id (conn_of s' c) |> /\
    tx_room (nic_of s') = tx_room (nic_of s) /\
    if ok then exists f, forall s2 st, only_conn s' s2 c -> conn_of s2 c = (conn_of s' c) <| status := st |> ->
      st <> CONN_SYN_SENT -> opened s2 L F Lf c f key (remote_seq (conn_of s c)) ls
    else slow_inv s' (c :: L) F Lf /\ ~ can_register s key Lf.
Proof.
  intros Hi Hst key Hex Hnew Hfuel.
  destruct (register_flow_ok s (c :: L) F Lf c ls) as (ok & s' & E & Hr); [done|apply elem_of_cons; by left|done..|].
  assert (Hs' : s' = s <| cc := cc s' |> /\ (forall q, q <> c -> conn_of s' q = conn_of s q) /\
    conn_of s' c = (conn_of s c) <| flow_id := flow_id (conn_of s' c) |> /\ tx_room (nic_of s') = tx_room (nic_of s)).
  { unfold Tcp.register_flow in E. destruct (nicif_connection_add _ _ _ _ _ _ _ _ _ _ _ _ _ _ _ _ _ _ _ _) as [[[f|] n]| |] eqn:Ea; try done;
      apply connection_add_tx in Ea; cbn [mbind outcome_bind] in E; injection E as <- <-.
    - split; [done|]. split; [intros q Hq; by apply fn_lookup_insert_ne|]. split; [|exact Ea]. unfold conn_of. cbn. by rewrite !fn_lookup_insert.
    - split; [done|]. split; [done|]. split; [|exact Ea]. unfold conn_of. cbn. by destruct (conns (cc s) c). }
  destruct Hs' as (Es' & Eoth & Ec' & Etx). exists ok, s'. do 5 (split; [done|]). destruct ok; [|by destruct Hr as (_ & ? & ?)].
  destruct Hr as (f & Lf' & -> & _ & Ecf & Hfd & Hfs & Hinv). exists f. intros s2 st [Hl Hn Ho] Ec2 Hst2. exists Lf'. split; [done|].
  pose proof Hn as (_ & _ & En). split.
  - apply (slow_inv_ext (set_conn s' c ((conn_of s' c) <| status := st |>)) s2 _ _ _ c); [by apply Hinv|constructor; try done|].
    + intros p Hp. rewrite Ho by done. symmetry. by apply fn_lookup_insert_ne.
    + rewrite Ec2. symmetry. apply fn_lookup_insert.
  - rewrite Ec2, Ecf. split; [done|]. split; [by eapply finds_same|]. rewrite En, Hfs. done.
Qed.

(** [conn_syn_sent_packet] from the packet on, with the timeout disarmed. *)
Lemma join_opened s L F Lf c ls (upd : tcp_state M -> tcp_state M) : slow_inv s L F Lf -> c ∉ L -> c <> NULL ->
  status (conn_of s c) <> CONN_OPEN -> 2 * CONF_MSS <= tx_len (conn_of s c) < 4294967296 ->
  (forall s, status (conn_of s c) <> CONN_OPEN -> only_conn s (upd s) c /\ exists st, conn_of (upd s) c = (conn_of s c) <| status := st |> /\ st <> CONN_OPEN) ->
  (forall s, tx_room (nic_of (upd s)) = tx_room (nic_of s)) ->
  let key := conn_flow_key (conn_of s c) in
  slot_safe (flowht (nic_of s)) (hash key) -> (forall g h, F g = Some h -> key_of (flowst (nic_of s) g) <> key) -> (29 < fuel)%nat ->
  exists cc1 ok s', cc_conn_init config (cc s) c cur_ts = Done cc1 /\ register_flow (upd (s <| cc := cc1 |>)) c ls = Done (ok, s') /\
    s' = (upd (s <| cc := cc1 |>)) <| cc := cc s' |> /\ (forall p, p <> c -> conn_of s' p = conn_of s p) /\
    (exists k, cc_frame ((conn_of s c) <| cc_last_ts := cur_ts |>) k /\ 
       conn_of s' c = k <| status := status (conn_of s' c) |> <| flow_id := flow_id (conn_of s' c) |>) /\
    status (conn_of s' c) = status (conn_of (upd (s <| cc := cc1 |>)) c) /\
    status (conns cc1 c) = status (conn_of s c) /\
    local_seq (conn_of (upd (s <| cc := cc1 |>)) c) = local_seq (conn_of s c) /\
    tx_room (nic_of s') = tx_room (nic_of s) /\
    if ok then exists f, forall s2 st, only_conn s' s2 c -> conn_of s2 c = (conn_of s' c) <| status := st |> ->
      st <> CONN_SYN_SENT -> opened s2 L F Lf c f key (remote_seq (conn_of s c)) ls
    else slow_inv s' (c :: L) F Lf /\ ~ can_register s key Lf.
Proof.
  intros Hi Hc H0 Hst Ht Hupd Htx key Hex Hnew Hfuel.
  destruct (cc_join s L F Lf c Hi Hc H0 Hst Ht) as (cc1 & E1 & Hi1 & En & Hoth & Hfr).
  set (s1 := s <| cc := cc1 |>) in *.
  destruct (Hupd s1) as ([Hl Hn Ho] & st & Est & Hst1); [unfold s1, conn_of; cbn; by rewrite Hfr|]. set (s2 := upd s1) in *.
  assert (Ek : conn_of s2 c = (conns cc1 c) <| status := st |>) by (rewrite Est; done).
  assert (Ekey : conn_flow_key (conn_of s2 c) = key) by (rewrite Ek, Hfr; done).
  assert (Hn' : nic_same (nic_of s) (nic_of s2)).
  { destruct Hn as (N1 & N2 & N3). unfold nic_same. rewrite N1, N2, N3. unfold nic_of in *. cbn. by rewrite En. }
  pose proof Hn' as (N1 & N2 & N3).
  assert (Hi2 : slow_inv s2 (c :: L) F Lf).
  { apply (slow_inv_ext (set_conn s1 c (conn_of s2 c)) s2 _ _ _ c).
    - apply (slow_inv_conn s1 _ (c :: L) F Lf c (conn_of s2 c)); [done|done| |by rewrite Est].
      rewrite Ek. destruct Hi1 as [Hcc1 _ _]. destruct (ci_conn _ _ _ Hcc1 c) as [? ? ? ? ?]; [apply elem_of_cons; by left|]. by constructor.
    - constructor; try done. intros p Hp. rewrite Ho by done. symmetry. by apply fn_lookup_insert_ne.
    - symmetry. apply fn_lookup_insert. }
  destruct (register_opened s2 L F Lf c ls) as (ok & s' & E2 & Es' & Eoth & Ec' & Etx & Hr);
    [done|by rewrite Est|by rewrite N2, Ekey|by rewrite N3, Ekey|done|].
  assert (Els : local_seq (conn_of s2 c) = local_seq (conn_of s c)) by (rewrite Ek, Hfr; done).
  exists cc1, ok, s'. split; [done|]. split; [done|]. split; [done|].
  split; [intros p Hp; rewrite Eoth, Ho by done; by apply Hoth|].
  split; [exists (conns cc1 c); split; [done|rewrite Ec', Ek; by destruct (conns cc1 c)]|].
  split; [by rewrite Ec'|]. split; [by rewrite Hfr|]. split; [exact Els|]. split; [rewrite Etx; unfold s2; rewrite Htx; unfold s1, nic_of; cbn; by rewrite En|].
  destruct ok.
  - destruct Hr as (f & Hr). exists f. intros s3 st3 H1 H2 H3. rewrite Ekey in Hr.
    replace (remote_seq (conn_of s c)) with (remote_seq (conn_of s2 c)) by (rewrite Ek, Hfr; done). by apply (Hr s3 st3).
  - destruct Hr as [Hr1 Hr2]. split; [done|]. unfold can_register in *. by rewrite Ekey, N2 in Hr2.
Qed.

(** What opening the connection leaves, after an answer with the sequence number [rs - 1]
    that acknowledges [ls]. *)
Definition syn_sent_done s s' L F Lf c (rs ls : Z) : Prop :=
  status (conn_of s' c) = CONN_OPEN /\
  (exists f, opened s' L F Lf c f (conn_flow_key (conn_of s c)) rs ls) /\
  (exists sent, tcp_sent s' = tcp_sent s ++ sent /\
     if tx_room (nic_of s) then exists buf a, sent = [(buf, a)] /\ control_for (conn_of s' c) TCP_ACK a /\ tcp_seqno a = ls
     else sent = []) /\
  events s' = events s ++ (if kout_room (ctx (conn_of s c)) (events s)
    then [CONN_OPENED (ctx (conn_of s c)) (opaque (conn_of s c)) 0 (Some (conn_data_of cfg_ip (conn_of s' c), local_port (conn_of s' c)))]
    else []).

(** The connection is open: the answer is acknowledged and the application is told. *)
Lemma open_rest_ok s c : let k := (conn_of s c) <| status := CONN_OPEN |> in exists s',
  (let s := set_conn s c k in
   let '(_, s) := send_control s c TCP_ACK true (syn_ts (conn_of s c)) 0 in
   s ← appif_conn_opened cfg_ip kout_room fuel s c 0; Done (0, s)) = Done (0, s') /\
  tm s' = tm s /\ conn_of s' c = k /\ only_conn s s' c /\
  (exists sent, tcp_sent s' = tcp_sent s ++ sent /\
     if tx_room (nic_of s) then exists buf a, sent = [(buf, a)] /\ control_for k TCP_ACK a else sent = []) /\
  events s' = events s ++ (if kout_room (ctx (conn_of s c)) (events s)
    then [CONN_OPENED (ctx (conn_of s c)) (opaque (conn_of s c)) 0 (Some (conn_data_of cfg_ip k, local_port k))] else []).
Proof.
  intros k. cbv zeta. set (s1 := set_conn s c k). assert (E1 : conn_of s1 c = k) by apply fn_lookup_insert.
  destruct (send_control_ok s1 c TCP_ACK true (syn_ts (conn_of s1 c)) 0) as (n & sent & -> & Hn & Hsent).
  rewrite appif_conn_opened_ok. cbn [mbind outcome_bind]. eexists. split; [reflexivity|]. set (s2 := _ <| events := _ |>).
  assert (E2 : conn_of s2 c = k) by apply fn_lookup_insert. split; [done|]. split; [done|].
  split; [constructor; [done|done|]; intros p Hp; by apply fn_lookup_insert_ne|]. split; [exists sent; split; [done|]; by rewrite <-E1|].
  cbn -[app]. change (conns (cc s) c) with (conn_of s c). by rewrite !fn_lookup_insert.
Qed.

(** C22: [conn_syn_sent_packet] on a connection that waits for the answer to its SYN.  The
    timeout is disarmed.  When the packet is a SYN with an acknowledgement and a timestamp,
    the connection joins congestion control; when the fast path has room for the flow, the
    connection is open: the fast path finds its flow and continues with the sequence
    numbers of the packet, the answer is acknowledged if there is room in the queue, and
    the application is told.  With any other packet the return value is -1 and nothing but
    the timer has changed: the connection still waits for the answer, nothing is sent and
    nobody is told ([conn_packet] then reports the failure, see [conn_failed_correct]).
    The return value is -1 as well when the fast path has no room; then the connection is
    not opened either, and nothing is sent or told.  The invariants of the slow path are
    kept in all cases.  They do not promise that a slot of the flow table can be had
    without losing another flow, so that this is a hypothesis ([slot_safe]): one of the
    four entries for the connection is free, or none of the entries the allocation may
    move was moved before. *)
Theorem conn_syn_sent_packet_correct s L F Lf now A dl ty c q opts : slow_inv s L F Lf -> c ∉ L -> c <> NULL ->
  status (conn_of s c) = CONN_SYN_SENT -> 2 * CONF_MSS <= tx_len (conn_of s c) < 4294967296 ->
  tm_rep (tm s) now A dl ty -> c + to_offset ∈ A -> to_armed (conn_of s c) = true ->
  slot_safe (flowht (nic_of s)) (hash (conn_flow_key (conn_of s c))) ->
  (forall g h, F g = Some h -> key_of (flowst (nic_of s) g) <> conn_flow_key (conn_of s c)) -> (29 < fuel)%nat ->
  exists ret s', conn_syn_sent_packet s c q opts = Done (ret, s') /\
    tm_rep (tm s') now (A ∖ {[c + to_offset]}) dl ty /\ to_armed (conn_of s' c) = false /\
    (forall p, p <> c -> conn_of s' p = conn_of s p) /\
    if syn_ack q opts then
      (ret = 0 /\ syn_sent_done s s' L F Lf c (u32 (tcp_seqno q + 1)) (tcp_ackno q)) \/
      (ret = -1 /\ ~ can_register s (conn_flow_key (conn_of s c)) Lf /\ slow_inv s' (c :: L) F Lf /\
       status (conn_of s' c) = CONN_SYN_SENT /\ tcp_sent s' = tcp_sent s /\ events s' = events s)
    else ret = -1 /\ slow_inv s' L F Lf /\
      s' = (set_conn s c ((conn_of s c) <| to_armed := false |>)) <| tm := tm s' |>.
Proof.
  intros Hi Hc H0 Hst Ht Htm HA Hto Hex Hnew Hfuel. unfold Tcp.conn_syn_sent_packet, syn_ack.
  destruct (conn_timeout_disarm_ok s now A dl ty c Htm HA Hto) as (m' & -> & Htm'). cbn [mbind outcome_bind].
  set (s1 := (set_conn s c _) <| tm := m' |>).
  assert (E1 : conn_of s1 c = (conn_of s c) <| to_armed := false |>) by apply fn_lookup_insert.
  assert (O1 : forall p, p <> c -> conn_of s1 p = conn_of s p) by (intros p Hp; by apply fn_lookup_insert_ne).
  assert (Hi1 : slow_inv s1 L F Lf) by (by eapply (slow_inv_outside s)).
  destruct (Z.land (TCPH_FLAGS q) _ =? _); cbn [negb andb];
    [|exists (-1), s1; split; [done|split; [done|split; [by rewrite E1|by split]]]].
  destruct (o_ts opts) as [t|]; cbn [bool_decide]; [|exists (-1), s1; split; [done|split; [done|split; [by rewrite E1|by split]]]].
  rewrite bool_decide_true by done. set (k := if _ =? TCP_ECE then _ else _).
  assert (Ek : k = (conn_of s c) <| to_armed := false |> <| remote_seq := u32 (tcp_seqno q + 1) |> <| local_seq := tcp_ackno q |>
    <| syn_ts := opt_ts_val q t |> <| flags := flags k |>) by (unfold k; rewrite E1; by destruct (_ =? TCP_ECE)).
  clearbody k. set (s2 := set_conn s1 c k).
  assert (E2 : conn_of s2 c = k) by apply fn_lookup_insert.
  assert (O2 : forall p, p <> c -> conn_of s2 p = conn_of s p).
  { intros p Hp. rewrite <-O1 by done. by apply fn_lookup_insert_ne. }
  destruct (join_opened s2 L F Lf c (tcp_ackno q) (fun s => init_comp comp_offset conn_async_q s c))
    as (cc1 & ok & s3 & -> & E3 & Es3 & O3 & (k3 & Hfr & Ek3) & Est3 & Esc & Els & Etx & Hr).
  - by eapply (slow_inv_outside s1).
  - done.
  - done.
  - by rewrite E2, Ek; cbn; rewrite Hst.
  - by rewrite E2, Ek.
  - intros s0 Hs0. split; [by constructor|]. exists (status (conn_of s0 c)). split; [|done].
    unfold conn_of. cbn. by destruct (conns (cc s0) c).
  - done.
  - by rewrite E2, Ek.
  - rewrite E2, Ek. done.
  - done.
  - cbn [mbind outcome_bind]. rewrite Els. replace (local_seq (conn_of s2 c)) with (tcp_ackno q) by (by rewrite E2, Ek).
    rewrite E3. cbn [mbind outcome_bind].
    assert (Ekey : conn_flow_key (conn_of s2 c) = conn_flow_key (conn_of s c)) by (by rewrite E2, Ek). rewrite Ekey in Hr.
    assert (Hfix : tm s3 = m' /\ events s3 = events s /\ tcp_sent s3 = tcp_sent s) by (by rewrite Es3).
    destruct Hfix as (Etm & Eev & Ese).
    assert (Ec3 : to_armed (conn_of s3 c) = false /\ remote_seq (conn_of s3 c) = u32 (tcp_seqno q + 1) /\
      local_seq (conn_of s3 c) = tcp_ackno q /\ ctx (conn_of s3 c) = ctx (conn_of s c) /\ opaque (conn_of s3 c) = opaque (conn_of s c)).
    { rewrite Ek3, Hfr, E2, Ek. done. }
    destruct Ec3 as (Eto & Ers & Elq & Ectx & Eop). destruct ok; cbn [negb].
    + destruct Hr as (f & Hr). destruct (open_rest_ok s3 c) as (s6 & E & Etm6 & E6 & Ho6 & (sent & Esent & Hsent) & Eev6). cbv zeta in E.
      rewrite E. exists 0, s6. split; [done|]. split; [by rewrite Etm6, Etm|]. split; [by rewrite E6|].
      split; [intros p Hp; rewrite <-O2, <-O3 by done; by apply Ho6|]. left. split; [done|]. split; [by rewrite E6|]. split; [|split].
      * exists f. replace (u32 (tcp_seqno q + 1)) with (remote_seq (conn_of s2 c)) by (by rewrite E2, Ek). by apply (Hr s6 CONN_OPEN).
      * exists sent. split; [by rewrite Esent, Ese|]. rewrite Etx in Hsent. change (nic_of s2) with (nic_of s) in Hsent.
        destruct (tx_room (nic_of s)); [|done]. destruct Hsent as (buf & a & -> & Ha). exists buf, a. split; [done|].
        rewrite E6. split; [done|]. destruct Ha as (_ & _ & _ & _ & -> & _). exact Elq.
      * by rewrite Eev6, E6, Eev, Ectx, Eop.
    + destruct Hr as [Hr1 Hr2]. exists (-1), s3. split; [done|]. split; [by rewrite Etm|]. split; [done|].
      split; [intros p Hp; rewrite O3, O2 by done; done|]. right. split; [done|]. split; [exact Hr2|]. split; [exact Hr1|].
      split; [|split; [by rewrite Ese|by rewrite Eev]].
      rewrite Est3. unfold conn_of. cbn. rewrite Esc, E2, Ek. done.
Qed.

(** ** Accepting a connection *)

(** The connection a listener accepts for the packet [q]. *)
Definition accept_key (v : listener) (q : pkt_tcp) : flow_key := mk_key cfg_ip (ip_src q) (l_port v) (tcp_src q).

(** The connection [c] has been taken from the listener, it is in the hash table and its
    completion is the first on the queue of [tcp_poll]. *)
Definition accepted s s' l c : Prop :=
  wait_conns (listeners s' l) = ht_next s c /\ status (conn_of s' c) = CONN_REG_SYNACK /\
  (let h := conn_bucket crc32c_sse42_u32 crc32c_sse42_u64 s' c in tcp_hashtable s' h = c /\ ht_next s' c = tcp_hashtable s h) /\
  nbq_head (arp s') conn_async_q = c + comp_offset /\ cp_next (arp s') (c + comp_offset) = nbq_head (arp s) conn_async_q.

(** What [listener_accept] does with a connection that the fast path has accepted. *)
Definition accept_rest s l c : tcp_state M :=
  let s := set_listener s l ((listeners s l) <| wait_conns := ht_next s c |>) in
  let s := conn_register crc32c_sse42_u32 crc32c_sse42_u64 s c in
  let '(nx, hd) := Nbqueue.nbqueue_enq (cp_next (arp s)) (nbq_head (arp s) conn_async_q) (c + comp_offset) in
  let s := s <| arp := (arp s) <| cp_next := nx |> <| nbq_head := <[conn_async_q := hd]> (nbq_head (arp s)) |> |> in
  set_listener s l (backlog_pop (listeners s l)).

Lemma accept_rest_ok s s3 l c b W : let v := listeners s l in listener_ok v -> waiting v = b :: W ->
  listeners s3 = listeners s -> ht_next s3 = ht_next s -> tcp_hashtable s3 = tcp_hashtable s ->
  nbq_head (arp s3) = nbq_head (arp s) -> status (conn_of s3 c) = CONN_REG_SYNACK ->
  let s' := accept_rest s3 l c in listener_ok (listeners s' l) /\ waiting (listeners s' l) = W /\
  (forall l', l' <> l -> listeners s' l' = listeners s l') /\ (forall p, conn_of s' p = conn_of s3 p) /\ accepted s s' l c.
Proof.
  intros v Hv Hw El En Eh Eq Est. unfold accept_rest, Nbqueue.nbqueue_enq. rewrite El. fold v.
  assert (Hu : 0 < backlog_used v) by (rewrite <-waiting_length, Hw by done; done).
  set (v2 := v <| wait_conns := ht_next s3 c |>). set (s4 := set_listener s3 l v2).
  assert (E4 : listeners s4 l = v2) by apply fn_lookup_insert.
  assert (Hv2 : listener_ok v2) by (destruct Hv; by constructor).
  destruct (waiting_pop v2 Hv2 Hu) as (Hw2 & Hv2' & Ewc2).
  change (waiting v2) with (waiting v) in Hw2. rewrite Hw in Hw2. injection Hw2 as _ EW2.
  cbv zeta. set (s5 := (conn_register _ _ s4 c) <| arp := _ |>). change (listeners s5 l) with (listeners s4 l). rewrite E4.
  set (s6 := set_listener s5 l _). assert (E6 : listeners s6 l = backlog_pop v2) by apply fn_lookup_insert.
  rewrite E6, <-EW2. split; [done|]. split; [done|].
  split; [intros l' Hl; cbn; rewrite !fn_lookup_insert_ne by done; by rewrite El|]. split; [done|].
  split; [by rewrite E6, Ewc2, <-En|]. split; [done|]. split; [|split].
  - cbv zeta. change (conn_bucket crc32c_sse42_u32 crc32c_sse42_u64 s6 c) with (conn_bucket crc32c_sse42_u32 crc32c_sse42_u64 s3 c).
    cbn -[conn_bucket]. rewrite <-Eh.
    change (conn_bucket crc32c_sse42_u32 crc32c_sse42_u64 s4 c) with (conn_bucket crc32c_sse42_u32 crc32c_sse42_u64 s3 c).
    by rewrite !fn_lookup_insert.
  - cbn. by rewrite fn_lookup_insert.
  - cbn. by rewrite fn_lookup_insert, Eq.
Qed.

(** C23: [listener_accept] for the first waiting packet and the first connection the
    application has offered.  The packet always leaves the backlog.  When it has a
    timestamp, the connection joins congestion control; when the fast path has room for
    the flow, the fast path finds it from then on with the sequence numbers of the packet
    and of the answer, the connection leaves the listener and is put into the hash table
    and on the queue of completions; otherwise it stays with the listener.  The table has
    to have a safe slot for the flow ([slot_safe]). *)
Theorem listener_accept_correct s L F Lf l b W r : let v := listeners s l in let c := wait_conns v in let q := bs_pkt b in
  let key := accept_key v q in
  listener_ok v -> waiting v = b :: W -> parse_options fuel q (bs_len b) = Done r ->
  slow_inv s L F Lf -> c ∉ L -> c <> NULL -> status (conn_of s c) <> CONN_OPEN ->
  2 * CONF_MSS <= tx_len (conn_of s c) < 4294967296 -> slot_safe (flowht (nic_of s)) (hash key) ->
  (forall g h, F g = Some h -> key_of (flowst (nic_of s) g) <> key) -> (29 < fuel)%nat ->
  exists s', listener_accept s l = Done s' /\ listener_ok (listeners s' l) /\ waiting (listeners s' l) = W /\
    (forall l', l' <> l -> listeners s' l' = listeners s l') /\ (forall p, p <> c -> conn_of s' p = conn_of s p) /\
    if bool_decide (is_Some (r ≫= o_ts)) then
      (accepted s s' l c /\ exists f, opened s' L F Lf c f key (u32 (tcp_seqno q + 1)) 2) \/
      (wait_conns (listeners s' l) = c /\ ~ can_register s key Lf /\ slow_inv s' (c :: L) F Lf)
    else s' = set_listener s l (listeners s' l) /\ wait_conns (listeners s' l) = c.
Proof.
  intros v c q key Hv Hw Hp Hi Hc H0 Hst Ht Hex Hnew Hfuel.
  assert (Hu : 0 < backlog_used v) by (rewrite <-waiting_length, Hw by done; done).
  destruct (waiting_pop v Hv Hu) as (Hw' & Hv' & Ewc). rewrite Hw in Hw'. injection Hw' as Eb EW.
  unfold Tcp.listener_accept. fold v c. rewrite (proj2 (Z.eqb_neq c NULL)), (proj2 (Z.ltb_lt 0 _)) by done.
  cbn [negb assert_ mbind outcome_bind]. rewrite <-Eb. fold q. rewrite Hp. cbn [mbind outcome_bind].
  assert (Hout : forall s0, wait_conns (listeners s0 l) = c -> listeners s0 l = v ->
    listeners (set_listener s0 l (backlog_pop (listeners s0 l))) l = backlog_pop v).
  { intros s0 _ E. rewrite E. apply fn_lookup_insert. }
  destruct r as [[om [t|]]|]; cbn [mbind option_bind o_ts].
  2,3: rewrite bool_decide_false by (intros [? [=]]); eexists; (split; [reflexivity|]); rewrite Hout by done; rewrite <-EW;
    do 2 (split; [done|]); (split; [intros l' Hl; by apply fn_lookup_insert_ne|]); split; [done|]; split; [done|]; by rewrite Ewc.
  rewrite bool_decide_true by done. set (k := if _ =? Z.lor TCP_ECE TCP_CWR then _ else _).
  assert (Ek : k = (conn_of s c) <| fn_core := bs_core b |> <| flow_group := bs_fg b |> <| remote_ip := ip_src q |>
    <| local_ip := cfg_ip |> <| remote_port := tcp_src q |> <| local_port := l_port v |>
    <| remote_seq := u32 (tcp_seqno q + 1) |> <| local_seq := 1 |> <| syn_ts := opt_ts_val q t |> <| flags := flags k |>)
    by (unfold k; by destruct (_ =? _)).
  clearbody k. set (s1 := (set_conn s c k) <| arp := _ |>).
  assert (E1 : conn_of s1 c = k) by apply fn_lookup_insert.
  assert (O1 : forall p, p <> c -> conn_of s1 p = conn_of s p) by (intros p Hp'; by apply fn_lookup_insert_ne).
  destruct (join_opened s1 L F Lf c 2 (fun s => init_comp comp_offset conn_async_q
      (set_conn s c ((conn_of s c) <| status := CONN_REG_SYNACK |>)) c))
    as (cc1 & ok & s3 & -> & E3 & Es3 & O3 & (k3 & Hfr & Ek3) & Est3 & Esc & Els & Etx & Hr).
  - by eapply (slow_inv_outside s).
  - done.
  - done.
  - by rewrite E1, Ek.
  - by rewrite E1, Ek.
  - intros s0 Hs0. split; [constructor; try done; intros p Hp'; by apply fn_lookup_insert_ne|].
    exists CONN_REG_SYNACK. split; [apply fn_lookup_insert|done].
  - done.
  - by rewrite E1, Ek.
  - rewrite E1, Ek. done.
  - done.
  - cbn [mbind outcome_bind]. rewrite Els. replace (local_seq (conn_of s1 c)) with 1 by (by rewrite E1, Ek).
    change (u32 (1 + 1)) with 2. rewrite E3. cbn [mbind outcome_bind].
    assert (Ekey : conn_flow_key (conn_of s1 c) = key) by (by rewrite E1, Ek). rewrite Ekey in Hr.
    assert (Hfix : listeners s3 = listeners s /\ ht_next s3 = ht_next s /\ tcp_hashtable s3 = tcp_hashtable s /\
      nbq_head (arp s3) = nbq_head (arp s) /\ cp_next (arp s3) = cp_next (arp s)) by (by rewrite Es3).
    destruct Hfix as (El & En & Eh & Eq & Ecp).
    assert (Elv : listeners s3 l = v) by (by rewrite El).
    assert (Est : status (conn_of s3 c) = CONN_REG_SYNACK).
    { rewrite Est3. unfold init_comp, set_conn, conn_of. cbn. by rewrite fn_lookup_insert. }
    assert (Oth : forall p, p <> c -> conn_of s3 p = conn_of s p) by (intros p Hp'; rewrite O3, O1 by done; done).
    destruct ok; cbn [negb].
    + destruct Hr as (f & Hr). exists (accept_rest s3 l c). split; [reflexivity|].
      destruct (accept_rest_ok s s3 l c b W Hv Hw El En Eh Eq Est) as (Hv6 & EW6 & Ho & Ec6 & Hacc).
      split; [done|]. split; [done|]. split; [done|]. split; [intros p Hp'; rewrite Ec6; by apply Oth|]. left. split; [done|].
      exists f. replace (u32 (tcp_seqno q + 1)) with (remote_seq (conn_of s1 c)) by (by rewrite E1, Ek).
      apply (Hr (accept_rest s3 l c) CONN_REG_SYNACK); [by constructor| |done]. rewrite Ec6, <-Est. by destruct (conn_of s3 c).
    + destruct Hr as [Hr1 Hr2]. eexists. split; [reflexivity|]. rewrite Elv. set (s6 := set_listener s3 l _).
      assert (E6 : listeners s6 l = backlog_pop v) by apply fn_lookup_insert. rewrite E6, <-EW. split; [done|]. split; [done|].
      split; [intros l' Hl; cbn; rewrite fn_lookup_insert_ne by done; by rewrite El|].
      split; [intros p Hp'; by apply Oth|]. right. split; [by rewrite Ewc|]. split; [exact Hr2|].
    eapply (slow_inv_ext s3 s6 _ _ _ c); [done|by constructor|done].
Qed.
End Props.

(** ** Examples *)

Definition ex_conf : configuration := CcProps.ex_config CONFIG_CC_DCTCP_WIN.
Lemma ex_conf_ok : config_ok ex_conf.
Proof. by apply CcProps.ex_config_ok. Qed.

Lemma ex_slow_inv k v : slow_inv ex_conf NicifProps.ex_crc (fun _ _ => 0) (ex_tcp k v) [] (fun _ => None) [0; 1; 2].
Proof.
  constructor; [constructor|..]; cbn; try (intros ? Hp; by apply elem_of_nil in Hp).
  - done.
  - constructor.
  - by left.
  - intros ? ? Hp. by apply elem_of_nil in Hp.
  - intros f. unfold MAX_RTT. lia.
  - exact NicifProps.ex_nicif_inv.
Qed.

(** The answer to a SYN of the connection 100, whose timeout is armed. *)
Definition ex_answer : pkt_tcp := ex_syn <| tcp_rsvd_flags := Z.lor TCP_SYN TCP_ACK |>.

Lemma conn_syn_sent_packet_correct_witness : exists m s',
  conn_syn_sent_packet ex_conf 167772161 9 NicifProps.ex_crc (fun _ _ => 0) (fun _ => 0) (fun _ => 0) 4 4 (fun _ _ => 0) 8 32 16 70
    (fun _ _ => true) 30 0 (fun _ => ex_syn) ((ex_tcp (ex_connection CONN_SYN_SENT true) ex_listener) <| tm := m |>) 100
    ex_answer (mk_opts None (Some 0)) = Done (0, s') /\
  status (conn_of s' 100) = CONN_OPEN /\ fs_tx_next_seq (flowst (nic_of s') 0) = 5000 /\ events s' <> [].
Proof.
  destruct (tm_arm_law 2 TimeoutSpec.ex_mgr 1000 ∅ (fun _ => 0) (fun _ => 0) 132 100 1 1000) as (m & _ & Hm); try done;
    [apply timers_init|rewrite size_empty; lia|].
  destruct (conn_syn_sent_packet_correct ex_conf ex_conf_ok 167772161 9 NicifProps.ex_crc (fun _ _ => 0) NicifProps.ex_crc_nonneg
    (fun _ => 0) (fun _ => 0) 4 4 (fun _ _ => 0) 8 32 16 70 (fun _ _ => true) 30 0 (fun _ => ex_syn)
    ((ex_tcp (ex_connection CONN_SYN_SENT true) ex_listener) <| tm := m |>) [] (fun _ => None) [0; 1; 2] 1000 ({[132]} ∪ ∅)
    (<[132 := 1000 + 100]> (fun _ => 0)) (<[132 := 1]> (fun _ => 0)) 100
    ex_answer (mk_opts None (Some 0))) as (ret & s' & E & _ & _ & _ & Hr).
  - destruct (ex_slow_inv (ex_connection CONN_SYN_SENT true) ex_listener). by constructor.
  - apply not_elem_of_nil.
  - done.
  - done.
  - cbn. unfold CONF_MSS. lia.
  - exact Hm.
  - set_solver.
  - done.
  - apply NicifSpec.NicifSpec.exact_slot_safe. exact NicifProps.ex_exact.
  - done.
  - lia.
  - exists m, s'. destruct Hr as [(-> & Hd)|(_ & Hn & _)].
    + split; [exact E|]. destruct Hd as (Hs & (f & Lf' & [= <- _] & _ & _ & _ & _ & _ & Hls & _) & _ & He).
      split; [exact Hs|]. split; [exact Hls|by rewrite He].
    + destruct Hn. clear. split; [discriminate|]. exists 0. split; [done|]. exact (eq_refl : hte_valid NicifProps.no_entry = false).
Defined.

(** A listener with a waiting packet, to which the connection 100 has been offered. *)
Definition ex_waiting : listener := ex_listener <| wait_conns := 100 |> <| backlog := fun _ => mk_slot ex_syn 66 1 3 |> <| backlog_used := 1 |>.

Lemma listener_accept_correct_witness : exists s',
  listener_accept ex_conf 167772161 NicifProps.ex_crc (fun _ _ => 0) (fun a _ => a) (fun a _ => a) 8 16 70 30 0
    (ex_tcp (ex_connection CONN_SYN_WAIT false) ex_waiting) 50 = Done s' /\
  waiting (listeners s' 50) = [] /\ status (conn_of s' 100) = CONN_REG_SYNACK /\ fs_rx_next_seq (flowst (nic_of s') 0) = 1001.
Proof.
  destruct (listener_accept_correct ex_conf ex_conf_ok 167772161 NicifProps.ex_crc (fun _ _ => 0) (fun a _ => a) (fun a _ => a)
    NicifProps.ex_crc_nonneg 8 16 70 30 0 (ex_tcp (ex_connection CONN_SYN_WAIT false) ex_waiting) [] (fun _ => None) [0; 1; 2] 50
    (mk_slot ex_syn 66 1 3) [] (Some (mk_opts None (Some 0)))) as (s' & E & _ & Hw & _ & _ & Hr).
  - constructor; cbn; lia.
  - reflexivity.
  - reflexivity.
  - apply ex_slow_inv.
  - apply not_elem_of_nil.
  - done.
  - done.
  - cbn. unfold CONF_MSS. lia.
  - apply NicifSpec.NicifSpec.exact_slot_safe. exact NicifProps.ex_exact.
  - done.
  - lia.
  - exists s'. split; [exact E|]. split; [exact Hw|]. destruct Hr as [((_ & Hs & _) & f & Lf' & [= <- _] & _ & _ & _ & _ & Hrs & _)|(_ & Hn & _)].
    + split; [exact Hs|exact Hrs].
    + destruct Hn. clear. split; [discriminate|]. exists 0. split; [done|]. exact (eq_refl : hte_valid NicifProps.no_entry = false).
Defined.
End TcpProps.
