(* ===== verification/TcpFail.v ===== *)
(** * Timeouts and failures of connections

    What [Tcp] does with a connection whose handshake does not succeed: the repetitions of
    the SYN, and the failure that takes the connection out of the table, stops its timer
    and gives its buffers back. *)
From S2P Require Import Prelude Chain Packet Rng Packetmem PacketmemSpec TimeoutSpec Timers Arp Conn Nicif Cc Tcp TcpSpec TcpProps.
From stdpp Require Import gmap.
#[local] Open Scope Z_scope.

Module TcpFail.
Import Packet Conn Nicif Cc Tcp TcpSpec TcpProps.

#[local] Set Default Proof Using "Type*".

(** ** Memory *)
Section Memory.
Context (size : Z) (size_ok : 0 < size < 18446744073709551616) {M : Type} (fuel : nat).
Implicit Types (s : tcp_state M).
#[local] Abbreviation pm_inv := (PacketmemSpec.pm_inv size).

(** Both buffers of a connection go back to the packet memory. *)
Lemma free_buffers_ok s L A c : 
  let tx := tx_handle (conn_of s c) in let rx := rx_handle (conn_of s c) in
  pm_inv (pm s) L (tx :: rx :: A) -> (base.size (Packetmem.live (pm s)) < fuel)%nat ->
  exists pm' L', free_buffers fuel s c = Done (s <| pm := pm' |>) /\ pm_inv pm' L' A /\ PacketmemSpec.same_areas (pm s) pm' A.
Proof.
  intros tx rx Hi Hf. unfold free_buffers. fold tx rx.
  pose proof (PacketmemSpec.free_list_bound _ _ _ _ Hi) as Hb.
  destruct (PacketmemSpec.packetmem_free_ok size size_ok fuel (pm s) L (rx :: A) tx Hi) as (p1 & L1 & E1 & Hi1 & Hs1); [lia|].
  rewrite E1. cbn [mbind outcome_bind].
  pose proof (PacketmemSpec.free_list_bound _ _ _ _ Hi1) as Hb1.
  pose proof (subseteq_size _ _ (PacketmemSpec.packetmem_free_live _ size_ok _ _ _ _ E1)) as Hl.
  destruct (PacketmemSpec.packetmem_free_ok size size_ok fuel p1 L1 A rx Hi1) as (p2 & L2 & E2 & Hi2 & Hs2); [lia|].
  rewrite E2. exists p2, L2. split; [done|]. split; [done|].
  eapply PacketmemSpec.same_areas_trans; [|done]. intros x Hx. apply Hs1. set_solver.
Qed.
End Memory.

(** ** Failed connections *)
Section Fail.
Context (size : Z) (size_ok : 0 < size < 18446744073709551616) (cfg_ip : Z) (crc32 crc64 : Z -> Z -> Z) (to_offset : Z).
Context (kout_room : Z -> list event -> bool) {M : Type} `{Timers M} (fuel : nat).
Implicit Types (s : tcp_state M) (T : Z -> list Z).
#[local] Abbreviation pm_inv := (PacketmemSpec.pm_inv size).
#[local] Abbreviation conn_failed := (conn_failed cfg_ip crc32 crc64 to_offset kout_room fuel).

(** The end of a failed connection: when the application can be told, its memory is free. *)
Definition conn_gone s s' c (stat : Z) (R : list Z) : Prop :=
  let k := conn_of s c in
  if kout_room (ctx k) (events s) then
    events s' = events s ++ [CONN_OPENED (ctx k) (opaque k) stat None] /\ allocated s' = allocated s ∖ {[c]} /\
    exists L', pm_inv (pm s') L' R /\ PacketmemSpec.same_areas (pm s) (pm s') R
  else events s' = events s /\ allocated s' = allocated s /\ pm s' = pm s.

Lemma conn_opened_failed s c stat L R : status (conn_of s c) = CONN_FAILED -> stat <> 0 ->
  pm_inv (pm s) L (tx_handle (conn_of s c) :: rx_handle (conn_of s c) :: R) ->
  (base.size (Packetmem.live (pm s)) < fuel)%nat ->
  exists s', appif_conn_opened cfg_ip kout_room fuel s c stat = Done s' /\ conn_gone s s' c stat R /\
    s' = s <| events := events s' |> <| allocated := allocated s' |> <| pm := pm s' |>.
Proof.
  intros Hst Hs Hp Hf. unfold appif_conn_opened, conn_gone. destruct (kout_room _ _); cbn [negb].
  - rewrite !(proj2 (Z.eqb_neq stat 0)) by done. unfold tcp_destroy. rewrite bool_decide_true by done.
    cbn [assert_ mbind outcome_bind]. unfold conn_free.
    destruct (free_buffers_ok size size_ok fuel s L R c Hp Hf) as (pm' & L' & -> & Hp' & Hsa). cbn [mbind outcome_bind].
    eexists. split; [reflexivity|]. split; [|done]. split; [done|]. split; [done|]. by exists L'.
  - exists s. split; [done|]. split; [done|]. by destruct s.
Qed.

(** C26: [conn_failed] on a connection of the table.  It leaves the table, its timer is
    stopped and it is marked as failed; when there is room in the queue to the
    application, the application is told and the connection and both buffers are freed.
    Otherwise it stays allocated, but is in no table any more.  In both cases
    its port stays in use. *)
Theorem conn_failed_correct s T now A dl ty L R c stat : table_ok crc32 crc64 s T -> registered T c -> c <> NULL ->
  (length (T (conn_bucket crc32 crc64 s c)) < fuel)%nat -> stat <> 0 ->
  tm_rep (tm s) now A dl ty -> (to_armed (conn_of s c) = true -> c + to_offset ∈ A) ->
  pm_inv (pm s) L (tx_handle (conn_of s c) :: rx_handle (conn_of s c) :: R) ->
  (base.size (Packetmem.live (pm s)) < fuel)%nat ->
  exists s' T', conn_failed s c stat = Done s' /\ table_ok crc32 crc64 s' T' /\
    (forall x, registered T' x <-> registered T x /\ x <> c) /\
    conn_of s' c = (conn_of s c) <| status := CONN_FAILED |> <| to_armed := false |> /\
    (forall x, x <> c -> conn_of s' x = conn_of s x) /\
    tm_rep (tm s') now (if to_armed (conn_of s c) then A ∖ {[c + to_offset]} else A) dl ty /\
    ports s' = ports s /\ conn_gone s s' c stat R.
Proof.
  intros Hk Hc H0 Hlen Hs Htm Hto Hp Hf. unfold Tcp.conn_failed.
  destruct (conn_unregister_reg crc32 crc64 fuel s T c Hk Hc H0 Hlen) as (s1 & T' & -> & Hk1 & Hreg & _ & Es1).
  cbn [mbind outcome_bind]. assert (Ec1 : cc s1 = cc s) by (by rewrite Es1).
  assert (Hco : conn_of s1 c = conn_of s c) by (unfold conn_of; by rewrite Ec1). rewrite Hco.
  set (a := to_armed (conn_of s c)) in *.
  assert (Hdis : exists s2, (if a then conn_timeout_disarm to_offset s1 c else Done s1) = Done s2 /\
    conn_of s2 c = (conn_of s c) <| to_armed := false |> /\ (forall x, x <> c -> conn_of s2 x = conn_of s1 x) /\
    tm_rep (tm s2) now (if a then A ∖ {[c + to_offset]} else A) dl ty /\ s2 = s1 <| cc := cc s2 |> <| tm := tm s2 |>).
  { unfold a in *. destruct (to_armed (conn_of s c)) eqn:Ea.
    - unfold conn_timeout_disarm. rewrite Hco, Ea. cbn [assert_ mbind outcome_bind].
      destruct (tm_disarm_law (tm s) now A dl ty (c + to_offset) Htm (Hto eq_refl)) as (m' & E & Htm').
      change (tm (set_conn s1 c _)) with (tm s1). replace (tm s1) with (tm s) by (by rewrite Es1). rewrite E.
      cbn [mbind outcome_bind]. eexists. split; [reflexivity|]. split; [apply fn_lookup_insert|].
      split; [intros x Hx; by apply fn_lookup_insert_ne|]. done.
    - exists s1. split; [done|]. split; [rewrite Hco, <-Ea; by destruct (conn_of s c)|]. split; [done|].
      split; [by rewrite Es1|by destruct s1]. }
  destruct Hdis as (s2 & -> & Ec2 & Eo2 & Htm2 & Es2). cbn [mbind outcome_bind].
  set (s3 := set_conn s2 c _).
  assert (E3 : conn_of s3 c = (conn_of s c) <| status := CONN_FAILED |> <| to_armed := false |>).
  { transitivity ((conn_of s2 c) <| status := CONN_FAILED |>); [apply fn_lookup_insert|by rewrite Ec2]. }
  assert (Hfix : events s3 = events s /\ allocated s3 = allocated s /\ pm s3 = pm s /\ ports s3 = ports s /\
    tcp_hashtable s3 = tcp_hashtable s1 /\ ht_next s3 = ht_next s1) by (unfold s3; rewrite Es2, Es1; done).
  destruct Hfix as (Ee & Eal & Ep & Epo & Eh & En).
  destruct (conn_opened_failed s3 c stat L R) as (s' & -> & Hg & Es'); [by rewrite E3|done|by rewrite E3, Ep|by rewrite Ep|].
  assert (Ecs : forall x, conn_of s' x = conn_of s3 x) by (intros x; unfold conn_of; by rewrite Es').
  assert (Eoth : forall x, x <> c -> conn_of s' x = conn_of s x).
  { intros x Hx. rewrite Ecs. transitivity (conn_of s2 x); [by apply fn_lookup_insert_ne|].
    rewrite Eo2 by done. unfold conn_of. by rewrite Ec1. }
  exists s', T'. split; [done|]. split; [|split; [done|split; [by rewrite Ecs|split; [done|split; [by rewrite Es'|split; [by rewrite Es'|]]]]]].
  - apply (table_ok_ext crc32 crc64 s1); [done|by rewrite Es'|by rewrite Es'|].
    intros x. unfold conn_bucket. destruct (decide (x = c)) as [->|Hne]; [by rewrite Ecs, E3, Hco|].
    rewrite Eoth by done. unfold conn_of. by rewrite Ec1.
  - unfold conn_gone in *. by rewrite E3, Ee, Eal, Ep in Hg.
Qed.
End Fail.

(** ** Timeouts of the handshake *)

(** The random delay lies between half of the timeout and half of it more. *)
Lemma delay_range t seed : 0 < t <= 33554432 ->
  let us := u32 (t / 2 + fst (Rng.Rng.utils_rng_gen32 seed) mod t) in t / 2 <= us < t / 2 + t /\ us < MIDDLE.
Proof.
  intros Ht us. pose proof (Z.mod_pos_bound (fst (Rng.Rng.utils_rng_gen32 seed)) t ltac:(lia)).
  assert (0 <= t / 2 <= t) by (Z.div_mod_to_equations; lia).
  unfold us. rewrite u32_small by lia. rewrite MIDDLE_val. lia.
Qed.

Section Handshake.
Context (config : configuration) (cfg_ip eth_addr : Z) (crc32 crc64 : Z -> Z -> Z).
Context (rte_ipv4_cksum rte_ipv4_udptcp_cksum : pkt_tcp -> Z) (rxq_len txq_len : Z) (txq_bufs : Z -> Z -> Z).
Context (to_offset mac_offset : Z) (kout_room : Z -> list event -> bool) (ctx_app : Z -> Z).
Context {M : Type} `{Timers M} (fuel : nat) (ts : Z) (buffer_contents : Z -> pkt_tcp).
Implicit Types (s : tcp_state M).

#[local] Abbreviation tcp_timeout := (tcp_timeout config cfg_ip eth_addr crc32 crc64 rte_ipv4_cksum rte_ipv4_udptcp_cksum
  rxq_len txq_len txq_bufs to_offset mac_offset kout_room ctx_app (M := M) fuel ts buffer_contents).

(** The timer of [c] is armed for [us] microseconds, the only change of the timers. *)
Definition rearmed s' now (A : gset Z) (dl ty : Z -> Z) c (us : Z) : Prop :=
  to_armed (conn_of s' c) = true /\
  tm_rep (tm s') now ({[c + to_offset]} ∪ A) (<[c + to_offset := now + us]> dl) (<[c + to_offset := TO_TCP_HANDSHAKE]> ty).

Lemma conn_timeout_arm_ok s now A dl ty c type : tm_rep (tm s) now A dl ty -> c + to_offset ∉ A -> c + to_offset <> 0 ->
  ts mod RANGE = now mod RANGE -> (size A < fuel)%nat -> to_armed (conn_of s c) = false ->
  0 < timeout (conn_of s c) <= 33554432 ->
  exists s' us, conn_timeout_arm to_offset fuel ts s c type = Done s' /\
    timeout (conn_of s c) / 2 <= us < timeout (conn_of s c) / 2 + timeout (conn_of s c) /\
    rearmed s' now A dl ty c us /\ conn_of s' c = (conn_of s c) <| to_armed := true |> /\
    (forall x, x <> c -> conn_of s' x = conn_of s x) /\ nic_of s' = nic_of s /\
    s' = s <| cc := cc s' |> <| rng := rng s' |> <| tm := tm s' |>.
Proof.
  intros Htm HA H0 Hts Hf Ha Ht. unfold conn_timeout_arm. rewrite Ha. cbn [negb assert_ mbind outcome_bind].
  destruct (delay_range _ (rng s) Ht) as (Hus & Hm). set (s1 := set_conn s c _).
  change (rng s1) with (rng s). destruct (Rng.Rng.utils_rng_gen32 (rng s)) as [r rng'] eqn:Er. cbn [fst] in *.
  rewrite (proj2 (Z.eqb_neq (timeout (conn_of s c)) 0)) by (clear -Ht; lia). set (us := u32 _) in *.
  change (tm (s1 <| rng := rng' |>)) with (tm s).
  assert (Hpos : 0 <= us < MIDDLE) by (split; [apply u32_range|done]).
  destruct (tm_arm_law fuel (tm s) now A dl ty (c + to_offset) us TO_TCP_HANDSHAKE ts Htm H0 HA Hpos) as (m' & E & Htm'); [done|done|done|].
  rewrite E. cbn [mbind outcome_bind]. eexists _, us. split; [reflexivity|]. split; [done|].
  assert (Ec : conn_of s1 c = (conn_of s c) <| to_armed := true |>) by apply fn_lookup_insert.
  split; [split; [|exact Htm']; change (conn_of _ c) with (conn_of s1 c); by rewrite Ec|]. split; [exact Ec|].
  split; [intros x Hx; by apply fn_lookup_insert_ne|]. done.
Qed.

(** C25: [tcp_timeout] for the timer of a connection that waits for the answer to its SYN.
    After the configured number of repetitions the connection fails; until then the
    timeout is doubled, the timer is armed again for half of it up to half of it more,
    and the SYN is sent again when there is room in the queue. *)
Theorem handshake_timeout_correct s now A dl ty c : status (conn_of s c) = CONN_SYN_SENT -> to_armed (conn_of s c) = true ->
  tm_rep (tm s) now A dl ty -> c + to_offset ∉ A -> c + to_offset <> 0 -> ts mod RANGE = now mod RANGE ->
  (size A < fuel)%nat -> 0 < timeout (conn_of s c) <= 16777216 ->
  let k := (conn_of s c) <| to_armed := false |> <| to_attempts := to_attempts (conn_of s c) + 1 |> in
  if tcp_handshake_retries config <? to_attempts (conn_of s c) + 1 then
    exists s1, tcp_timeout s (c + to_offset) TO_TCP_HANDSHAKE = conn_failed cfg_ip crc32 crc64 to_offset kout_room fuel s1 c (-1) /\
      conn_of s1 c = k /\ (forall x, x <> c -> conn_of s1 x = conn_of s x) /\ s1 = s <| cc := cc s1 |>
  else exists s' us, tcp_timeout s (c + to_offset) TO_TCP_HANDSHAKE = Done s' /\
    conn_of s' c = k <| to_armed := true |> <| timeout := 2 * timeout (conn_of s c) |> /\
    (forall x, x <> c -> conn_of s' x = conn_of s x) /\
    timeout (conn_of s c) <= us < 3 * timeout (conn_of s c) /\ rearmed s' now A dl ty c us /\ events s' = events s /\
    exists sent, tcp_sent s' = tcp_sent s ++ sent /\
      if tx_room (nic_of s) then exists buf q, sent = [(buf, q)] /\ control_for cfg_ip (conn_of s c) SYN_FLAGS q else sent = [].
Proof.
  intros Hst Ha Htm HA H0 Hts Hf Ht k. unfold Tcp.tcp_timeout. rewrite Z.add_simpl_r, Ha. cbn [assert_ mbind outcome_bind].
  set (s0 := set_conn s c _). assert (E0 : conn_of s0 c = (conn_of s c) <| to_armed := false |>) by apply fn_lookup_insert.
  change (TO_TCP_HANDSHAKE =? TO_TCP_CLOSED) with false. change (negb (TO_TCP_HANDSHAKE =? TO_TCP_HANDSHAKE)) with false.
  cbn [negb]. rewrite E0. cbn [status]. change (status ((conn_of s c) <| to_armed := false |>)) with (status (conn_of s c)).
  rewrite bool_decide_true by done. cbn [negb]. set (s1 := set_conn s0 c _).
  assert (E1 : conn_of s1 c = k) by (unfold s1, set_conn, Cc.set_conn, conn_of; cbn; by rewrite !fn_lookup_insert).
  assert (O1 : forall x, x <> c -> conn_of s1 x = conn_of s x).
  { intros x Hx. transitivity (conn_of s0 x); by apply fn_lookup_insert_ne. }
  rewrite !E1. change (to_attempts k) with (to_attempts (conn_of s c) + 1). destruct (_ <? _).
  { exists s1. split; [done|]. split; [done|]. split; [done|]. done. }
  change (timeout k) with (timeout (conn_of s c)). rewrite u32_small by (clear -Ht; lia). set (s2 := set_conn s1 c _).
  assert (E2 : conn_of s2 c = k <| timeout := timeout (conn_of s c) * 2 |>) by apply fn_lookup_insert.
  assert (O2 : forall x, x <> c -> conn_of s2 x = conn_of s x).
  { intros x Hx. rewrite <-O1 by done. by apply fn_lookup_insert_ne. }
  destruct (conn_timeout_arm_ok s2 now A dl ty c TO_TCP_HANDSHAKE) as (s3 & us & -> & Hus & Hre & E3 & O3 & En & Es3);
    [done|done|done|done|done|by rewrite E2|rewrite E2; cbn; clear -Ht; lia|].
  cbn [mbind outcome_bind].
  destruct (send_control_ok cfg_ip eth_addr rte_ipv4_cksum rte_ipv4_udptcp_cksum rxq_len txq_len txq_bufs mac_offset buffer_contents
    s3 c SYN_FLAGS true 0 TCP_MSS) as (n & sent & -> & _ & Hsent). cbn [snd].
  eexists _, us. split; [reflexivity|]. set (s4 := _ <| tcp_sent := _ |>).
  assert (E4 : forall x, conn_of s4 x = conn_of s3 x) by done.
  split; [rewrite E4, E3, E2, (Z.mul_comm 2); done|].
  split; [intros x Hx; rewrite E4, O3, O2 by done; done|].
  split; [rewrite E2 in Hus; cbn in Hus; clear -Hus; Z.div_mod_to_equations; lia|]. split; [exact Hre|].
  split; [by cbn; rewrite Es3|]. exists sent. split; [by cbn; rewrite Es3|]. rewrite En in Hsent.
  change (nic_of s2) with (nic_of s) in Hsent. destruct (tx_room _); [|done].
  destruct Hsent as (buf & q & -> & Hq). exists buf, q. split; [done|]. rewrite E3, E2 in Hq. exact Hq.
Qed.
End Handshake.

(** ** Examples *)

(** The connection 100 in the table, with the buffers 2 and 3, and its timer stopped. *)
Definition ex_failing : tcp_state Timeout.Timeout.tmgr :=
  conn_register (fun a _ => a) (fun a _ => a)
    (ex_tcp ((ex_connection CONN_SYN_SENT false) <| rx_handle := 2 |> <| tx_handle := 3 |>) ex_listener) 100.

Lemma conn_failed_correct_witness : exists p s',
  conn_failed 167772161 (fun a _ => a) (fun a _ => a) 32 (fun _ _ => true) 9 (ex_failing <| pm := p |>) 100 (-1) = Done s' /\
  status (conn_of s' 100) = CONN_FAILED /\ events s' = [CONN_OPENED 1 7 (-1) None].
Proof.
  destruct PacketmemSpec.pm_two_inv as (p & Hp & El).
  set (s0 := ex_tcp ((ex_connection CONN_SYN_SENT false) <| rx_handle := 2 |> <| tx_handle := 3 |>) ex_listener).
  destruct (conn_register_ok (fun a _ => a) (fun a _ => a) s0 (fun _ => []) 100) as [Hk _].
  { constructor; [done|by constructor|]. intros h c _ Hc. by apply elem_of_nil in Hc. }
  { intros (h & _ & Hc). by apply elem_of_nil in Hc. }
  { done. }
  set (b := conn_bucket _ _ s0 100) in Hk.
  destruct (conn_failed_correct 4096 ltac:(lia) 167772161 (fun a _ => a) (fun a _ => a) 32 (fun _ _ => true) 9
    (ex_failing <| pm := p |>) (<[b := [100]]> (fun _ => [])) 1000 ∅ (fun _ => 0) (fun _ => 0) [1] [] 100 (-1))
    as (s' & T' & E & _ & _ & Ec & _ & _ & _ & Hg).
  - by eapply table_ok_ext.
  - exists b. split; [apply bucket_range|]. rewrite fn_lookup_insert. apply elem_of_cons. by left.
  - done.
  - change (conn_bucket _ _ _ _) with b. rewrite fn_lookup_insert. cbn. lia.
  - done.
  - apply timers_init.
  - done.
  - exact Hp.
  - cbn. rewrite El. vm_compute. lia.
  - exists p, s'. split; [exact E|]. split; [by rewrite Ec|]. apply Hg.
Defined.

Lemma handshake_timeout_correct_witness : exists s',
  tcp_timeout ex_conf 167772161 9 (fun a _ => a) (fun a _ => a) (fun _ => 0) (fun _ => 0) 4 4 (fun _ _ => 0) 32 16 (fun _ _ => true)
    (fun _ => 0) 1 1000 (fun _ => ex_syn) (ex_tcp (ex_connection CONN_SYN_SENT true) ex_listener) 132 TO_TCP_HANDSHAKE = Done s' /\
  timeout (conn_of s' 100) = 20000 /\ length (tcp_sent s') = 1%nat.
Proof.
  destruct (handshake_timeout_correct ex_conf 167772161 9 (fun a _ => a) (fun a _ => a) (fun _ => 0) (fun _ => 0) 4 4 (fun _ _ => 0)
    32 16 (fun _ _ => true) (fun _ => 0) 1 1000 (fun _ => ex_syn) (ex_tcp (ex_connection CONN_SYN_SENT true) ex_listener)
    1000 ∅ (fun _ => 0) (fun _ => 0) 100) as (s' & us & E & Ec & _ & _ & _ & _ & sent & Es & buf & q & -> & _).
  - done.
  - done.
  - apply timers_init.
  - set_solver.
  - done.
  - done.
  - rewrite size_empty. lia.
  - cbn. lia.
  - exists s'. split; [exact E|]. split; [by rewrite Ec|by rewrite Es].
Defined.
End TcpFail.
