(* ===== verification/Llring.v ===== *)
(** * The ring of Backdraft ([lib/bd_vport/include/llring.h])

    A ring of pointers between producers and consumers, with the counters of both sides as
    free running 32 bit numbers.  The functions describe a call that is not disturbed; the
    steps at the end describe one producer and one consumer that run concurrently. *)
From S2P Require Import Prelude.
#[local] Open Scope Z_scope.

Module Llring.

Definition LLRING_ERR_NOBUF : Z := 1.
Definition LLRING_ERR_QUOT : Z := 2.
Definition LLRING_ERR_NOENT : Z := 3.
Definition LLRING_ERR_NOPOW2 : Z := 4.
Definition LLRING_ERR_INVAL : Z := 5.
Definition RING_QUOT_EXCEED : Z := 2147483648.

(** [enum llring_queue_behavior]. *)
Inductive behavior : Type := LLRING_QUEUE_FIXED | LLRING_QUEUE_VARIABLE.

(** [struct llring]; the entries are pointers. *)
Record llring : Type := mk_llring {
  slots : Z; mask : Z; sp_enqueue : bool; sc_dequeue : bool; watermark : Z;
  prod_head : Z; prod_tail : Z; cons_head : Z; cons_tail : Z;
  ring : Z -> Z
}.
#[export] Instance eta_llring : Eta llring := fun r =>
  mk_llring (slots r) (mask r) (sp_enqueue r) (sc_dequeue r) (watermark r) (prod_head r) (prod_tail r) (cons_head r)
    (cons_tail r) (ring r).

(** [llring_init]: [None] is the return value [-LLRING_ERR_NOPOW2]. *)
Definition llring_init (slots : Z) (sp sc : bool) : option llring :=
  if negb (Z.land slots (u32 (slots - 1)) =? 0) then None
  else Some (mk_llring slots (u32 (slots - 1)) sp sc slots 0 0 0 0 (fun _ => 0)).

Definition llring_set_water_mark (r : llring) (count : Z) : Z * llring :=
  if slots r <=? count then (- LLRING_ERR_INVAL, r)
  else (0, r <| watermark := if count =? 0 then slots r else count |>).

(** ** Copying *)

(** One entry, and [k] entries, from [src] at [i] to [dst] at [idx]. *)
Definition put (src dst : Z -> Z) (i idx : Z) : Z -> Z := <[idx := src i]> dst.
Fixpoint copy1 (k : nat) (src dst : Z -> Z) (i idx : Z) : Z -> Z :=
  match k with
  | O => dst
  | S k => copy1 k src (put src dst i idx) (i + 1) (idx + 1)
  end.

(** The loop that copies four entries at a time, [k] times. *)
Fixpoint copy4 (k : nat) (src dst : Z -> Z) (i idx : Z) : Z -> Z :=
  match k with
  | O => dst
  | S k =>
    let dst := put src dst i idx in
    let dst := put src dst (i + 1) (idx + 1) in
    let dst := put src dst (i + 2) (idx + 2) in
    let dst := put src dst (i + 3) (idx + 3) in
    copy4 k src dst (i + 4) (idx + 4)
  end.

(** [LLRING_ENQUEUE_PTRS]. *)
Definition enqueue_ptrs (r : llring) (obj_table : Z -> Z) (n head : Z) : Z -> Z :=
  let idx := Z.land head (mask r) in
  if u32 (idx + n) <? slots r then
    let n4 := Z.ldiff n 3 in
    copy1 (Z.to_nat (Z.land n 3)) obj_table (copy4 (Z.to_nat (n4 / 4)) obj_table (ring r) 0 idx) n4 (idx + n4)
  else
    let i := slots r - idx in
    copy1 (Z.to_nat (n - i)) obj_table (copy1 (Z.to_nat i) obj_table (ring r) 0 idx) i 0.

(** [LLRING_DEQUEUE_PTRS]; the roles of the indices are exchanged. *)
Fixpoint fetch1 (k : nat) (src dst : Z -> Z) (i idx : Z) : Z -> Z :=
  match k with
  | O => dst
  | S k => fetch1 k src (put src dst idx i) (i + 1) (idx + 1)
  end.
Fixpoint fetch4 (k : nat) (src dst : Z -> Z) (i idx : Z) : Z -> Z :=
  match k with
  | O => dst
  | S k =>
    let dst := put src dst idx i in
    let dst := put src dst (idx + 1) (i + 1) in
    let dst := put src dst (idx + 2) (i + 2) in
    let dst := put src dst (idx + 3) (i + 3) in
    fetch4 k src dst (i + 4) (idx + 4)
  end.
Definition dequeue_ptrs (r : llring) (obj_table : Z -> Z) (n head : Z) : Z -> Z :=
  let idx := Z.land head (mask r) in
  if u32 (idx + n) <? slots r then
    let n4 := Z.ldiff n 3 in
    fetch1 (Z.to_nat (Z.land n 3)) (ring r) (fetch4 (Z.to_nat (n4 / 4)) (ring r) obj_table 0 idx) n4 (idx + n4)
  else
    let i := slots r - idx in
    fetch1 (Z.to_nat (n - i)) (ring r) (fetch1 (Z.to_nat i) (ring r) obj_table 0 idx) i 0.

(** ** Enqueue and dequeue *)

(** How many entries an operation moves, when [avail] are free or filled. *)
Definition burst (b : behavior) (n avail : Z) : option Z :=
  if n <=? avail then Some n
  else match b with
       | LLRING_QUEUE_FIXED => None
       | LLRING_QUEUE_VARIABLE => if avail =? 0 then None else Some avail
       end.

Definition free_entries (r : llring) : Z := u32 (mask r + cons_tail r - prod_head r).
Definition entries (r : llring) : Z := u32 (prod_tail r - cons_head r).

(** The return value of an enqueue of [n] entries. *)
Definition enqueue_ret (r : llring) (b : behavior) (n free : Z) : Z :=
  if watermark r <? u32 (mask r + 1 - free + n) then
    match b with LLRING_QUEUE_FIXED => - LLRING_ERR_QUOT | LLRING_QUEUE_VARIABLE => s32 (Z.lor n RING_QUOT_EXCEED) end
  else match b with LLRING_QUEUE_FIXED => 0 | LLRING_QUEUE_VARIABLE => n end.

(** [__llring_sp_do_enqueue]. *)
Definition sp_do_enqueue (r : llring) (obj_table : Z -> Z) (n : Z) (b : behavior) : Z * llring :=
  let head := prod_head r in
  let free := free_entries r in
  match burst b n free with
  | None => (match b with LLRING_QUEUE_FIXED => - LLRING_ERR_NOBUF | LLRING_QUEUE_VARIABLE => 0 end, r)
  | Some n =>
    let next := u32 (head + n) in
    let r := r <| prod_head := next |> in
    let r := r <| ring := enqueue_ptrs r obj_table n head |> in
    (enqueue_ret r b n free, r <| prod_tail := next |>)
  end.

(** [__llring_sc_do_dequeue], with the contents of [obj_table] after the call. *)
Definition sc_do_dequeue (r : llring) (obj_table : Z -> Z) (n : Z) (b : behavior) : Z * (Z -> Z) * llring :=
  let head := cons_head r in
  match burst b n (entries r) with
  | None => (match b with LLRING_QUEUE_FIXED => - LLRING_ERR_NOENT | LLRING_QUEUE_VARIABLE => 0 end, obj_table, r)
  | Some n =>
    let next := u32 (head + n) in
    let r := r <| cons_head := next |> in
    let obj_table := dequeue_ptrs r obj_table n head in
    (match b with LLRING_QUEUE_FIXED => 0 | LLRING_QUEUE_VARIABLE => n end, obj_table, r <| cons_tail := next |>)
  end.

(** The multi-producer and multi-consumer variants: a compare-and-swap moves the head, and
    the tail is set when it has reached the old head.  Without other threads the
    exchange succeeds; [None] is a wait that never ends. *)
Definition mp_do_enqueue (r : llring) (obj_table : Z -> Z) (n : Z) (b : behavior) : option (Z * llring) :=
  let head := prod_head r in
  let free := free_entries r in
  match burst b n free with
  | None => Some (match b with LLRING_QUEUE_FIXED => - LLRING_ERR_NOBUF | LLRING_QUEUE_VARIABLE => 0 end, r)
  | Some n =>
    let next := u32 (head + n) in
    let r := r <| prod_head := next |> in
    let r := r <| ring := enqueue_ptrs r obj_table n head |> in
    if negb (prod_tail r =? head) then None else Some (enqueue_ret r b n free, r <| prod_tail := next |>)
  end.

Definition mc_do_dequeue (r : llring) (obj_table : Z -> Z) (n : Z) (b : behavior) : option (Z * (Z -> Z) * llring) :=
  let head := cons_head r in
  match burst b n (entries r) with
  | None => Some (match b with LLRING_QUEUE_FIXED => - LLRING_ERR_NOENT | LLRING_QUEUE_VARIABLE => 0 end, obj_table, r)
  | Some n =>
    let next := u32 (head + n) in
    let r := r <| cons_head := next |> in
    let obj_table := dequeue_ptrs r obj_table n head in
    if negb (cons_tail r =? head) then None
    else Some (match b with LLRING_QUEUE_FIXED => 0 | LLRING_QUEUE_VARIABLE => n end, obj_table, r <| cons_tail := next |>)
  end.

Definition llring_sp_enqueue_burst r obj n := sp_do_enqueue r obj n LLRING_QUEUE_VARIABLE.
Definition llring_sc_dequeue_burst r obj n := sc_do_dequeue r obj n LLRING_QUEUE_VARIABLE.
Definition llring_sp_enqueue_bulk r obj n := sp_do_enqueue r obj n LLRING_QUEUE_FIXED.
Definition llring_sc_dequeue_bulk r obj n := sc_do_dequeue r obj n LLRING_QUEUE_FIXED.

(** The variants that choose by the ring, and those for one entry. *)
Definition do_enqueue (r : llring) obj n (b : behavior) : option (Z * llring) :=
  if sp_enqueue r then Some (sp_do_enqueue r obj n b) else mp_do_enqueue r obj n b.
Definition do_dequeue (r : llring) obj n (b : behavior) : option (Z * (Z -> Z) * llring) :=
  if sc_dequeue r then Some (sc_do_dequeue r obj n b) else mc_do_dequeue r obj n b.
Definition llring_enqueue_bulk r obj n := do_enqueue r obj n LLRING_QUEUE_FIXED.
Definition llring_enqueue_burst r obj n := do_enqueue r obj n LLRING_QUEUE_VARIABLE.
Definition llring_dequeue_bulk r obj n := do_dequeue r obj n LLRING_QUEUE_FIXED.
Definition llring_dequeue_burst r obj n := do_dequeue r obj n LLRING_QUEUE_VARIABLE.
Definition llring_enqueue r (obj : Z) := llring_enqueue_bulk r (fun _ => obj) 1.
Definition llring_dequeue r obj_p := llring_dequeue_bulk r obj_p 1.

Definition llring_full (r : llring) : bool := Z.land (u32 (cons_tail r - prod_tail r - 1)) (mask r) =? 0.
Definition llring_empty (r : llring) : bool := cons_tail r =? prod_tail r.
Definition llring_count (r : llring) : Z := Z.land (u32 (prod_tail r - cons_tail r)) (mask r).
Definition llring_free_count (r : llring) : Z := Z.land (u32 (cons_tail r - prod_tail r - 1)) (mask r).

(** ** A producer and a consumer that run concurrently

    The calls [llring_sp_enqueue_burst] of one thread and [llring_sc_dequeue_burst] of
    another, by their accesses to the shared memory: reading the counters of the other
    side, the update of the own head, every entry, and the update of the own tail.  The
    accesses of a thread happen in the order of the program, as the compiler barriers and
    the memory model of the processor guarantee for these stores and loads. *)

(** The entry of the ring that the [i]th iteration of the copying loops accesses. *)
Definition copy_idx (r : llring) (head n i : Z) : Z :=
  let idx := Z.land head (mask r) in
  if u32 (idx + n) <? slots r then idx + i
  else if i <? slots r - idx then idx + i else i - (slots r - idx).

Inductive producer : Type :=
  | P_IDLE
  | P_RESERVE (obj_table : Z -> Z) (n head : Z)
  | P_COPY (obj_table : Z -> Z) (n head i : Z).

Inductive consumer : Type :=
  | C_IDLE
  | C_RESERVE (n head : Z)
  | C_COPY (n head : Z) (got : list Z).

(** The ring, what the threads do, and as histories the entries of all enqueues and dequeues
    that have returned. *)
Record spsc : Type := mk_spsc { shared : llring; prod : producer; cons : consumer; sent : list Z; received : list Z }.
#[export] Instance eta_spsc : Eta spsc := fun s => mk_spsc (shared s) (prod s) (cons s) (sent s) (received s).

Inductive step : spsc -> spsc -> Prop :=
  | step_enqueue_fail s n : prod s = P_IDLE -> 0 <= n < 2147483648 ->
      burst LLRING_QUEUE_VARIABLE n (free_entries (shared s)) = None -> step s s
  | step_enqueue s obj n m : prod s = P_IDLE -> 0 <= n < 2147483648 ->
      burst LLRING_QUEUE_VARIABLE n (free_entries (shared s)) = Some m ->
      step s (s <| prod := P_RESERVE obj m (prod_head (shared s)) |>)
  | step_prod_head s obj n head : prod s = P_RESERVE obj n head ->
      step s (s <| shared := (shared s) <| prod_head := u32 (head + n) |> |> <| prod := P_COPY obj n head 0 |>)
  | step_write s obj n head i : prod s = P_COPY obj n head i -> i < n ->
      step s (s <| shared := (shared s) <| ring := put obj (ring (shared s)) i (copy_idx (shared s) head n i) |> |>
                <| prod := P_COPY obj n head (i + 1) |>)
  | step_prod_tail s obj n head : prod s = P_COPY obj n head n ->
      step s (s <| shared := (shared s) <| prod_tail := u32 (head + n) |> |> <| prod := P_IDLE |>
                <| sent := sent s ++ (obj <$> seqZ 0 n) |>)
  | step_dequeue_fail s n : cons s = C_IDLE -> 0 <= n < 2147483648 ->
      burst LLRING_QUEUE_VARIABLE n (entries (shared s)) = None -> step s s
  | step_dequeue s n m : cons s = C_IDLE -> 0 <= n < 2147483648 ->
      burst LLRING_QUEUE_VARIABLE n (entries (shared s)) = Some m ->
      step s (s <| cons := C_RESERVE m (cons_head (shared s)) |>)
  | step_cons_head s n head : cons s = C_RESERVE n head ->
      step s (s <| shared := (shared s) <| cons_head := u32 (head + n) |> |> <| cons := C_COPY n head [] |>)
  | step_read s n head got : cons s = C_COPY n head got -> Z.of_nat (length got) < n ->
      step s (s <| cons := C_COPY n head (got ++ [ring (shared s) (copy_idx (shared s) head n (Z.of_nat (length got)))]) |>)
  | step_cons_tail s n head got : cons s = C_COPY n head got -> Z.of_nat (length got) = n ->
      step s (s <| shared := (shared s) <| cons_tail := u32 (head + n) |> |> <| cons := C_IDLE |>
                <| received := received s ++ got |>).

(** Both threads start on a new ring. *)
Definition spsc_init (r : llring) : spsc := mk_spsc r P_IDLE C_IDLE [] [].
End Llring.
