(* ===== verification/LlringSpec.v ===== *)
(** * The ring is a bounded queue

    The refinement of a FIFO queue by the calls of [Llring], and the interleavings of one
    producer with one consumer. *)
From stdpp Require Import relations.
From S2P Require Import Prelude Llring.
#[local] Open Scope Z_scope.

Module LlringSpec.
Import Llring.

(** ** Copying *)

Lemma copy1_ok src k : forall dst i idx j,
  copy1 k src dst i idx j = if (idx <=? j) && (j <? idx + Z.of_nat k) then src (i + (j - idx)) else dst j.
Proof.
  induction k as [|k IH]; intros dst i idx j; cbn [copy1].
  - destruct (Z.leb_spec idx j), (Z.ltb_spec j (idx + Z.of_nat 0)); try done; lia.
  - rewrite IH. unfold put, insert, fn_insert.
    destruct (Z.leb_spec (idx + 1) j), (Z.ltb_spec j (idx + 1 + Z.of_nat k)), (Z.leb_spec idx j), (Z.ltb_spec j (idx + Z.of_nat (S k)));
      cbn [andb]; try lia; try (f_equal; lia); destruct (decide (idx = j)); try done; try lia; f_equal; lia.
Qed.

Lemma fetch1_ok src k : forall dst i idx j,
  fetch1 k src dst i idx j = if (i <=? j) && (j <? i + Z.of_nat k) then src (idx + (j - i)) else dst j.
Proof.
  induction k as [|k IH]; intros dst i idx j; cbn [fetch1].
  - destruct (Z.leb_spec i j), (Z.ltb_spec j (i + Z.of_nat 0)); try done; lia.
  - rewrite IH. unfold put, insert, fn_insert.
    destruct (Z.leb_spec (i + 1) j), (Z.ltb_spec j (i + 1 + Z.of_nat k)), (Z.leb_spec i j), (Z.ltb_spec j (i + Z.of_nat (S k)));
      cbn [andb]; try lia; try (f_equal; lia); destruct (decide (i = j)); try done; try lia; f_equal; lia.
Qed.

(** The unrolled loops copy as many entries as plain ones. *)
Lemma copy4_plain src k : forall dst i idx, copy4 k src dst i idx = copy1 (4 * k) src dst i idx.
Proof.
  induction k as [|k IH]; intros dst i idx; [done|]. replace (4 * S k)%nat with (S (S (S (S (4 * k))))) by lia.
  cbn [copy4 copy1]. rewrite IH. rewrite <-!Z.add_assoc. done.
Qed.
Lemma fetch4_plain src k : forall dst i idx, fetch4 k src dst i idx = fetch1 (4 * k) src dst i idx.
Proof.
  induction k as [|k IH]; intros dst i idx; [done|]. replace (4 * S k)%nat with (S (S (S (S (4 * k))))) by lia.
  cbn [fetch4 fetch1]. rewrite IH. rewrite <-!Z.add_assoc. done.
Qed.

Lemma quads n : 0 <= n -> Z.ldiff n 3 = 4 * (n / 4) /\ Z.land n 3 = n mod 4.
Proof.
  intros Hn. change 3 with (Z.ones 2). rewrite Z.ldiff_ones_r, Z.land_ones, Z.shiftr_div_pow2, Z.shiftl_mul_pow2 by lia.
  change (2 ^ 2) with 4. lia.
Qed.

(** ** Well-formed rings *)

(** A ring whose number of entries is a power of two, of at most 2^30. *)
Record ring_shape (r : llring) : Prop := {
  sh_pow : exists k, 0 <= k <= 30 /\ slots r = 2 ^ k;
  sh_mask : mask r = slots r - 1
}.

Lemma shape_bounds r : ring_shape r -> 1 <= slots r <= 1073741824.
Proof.
  intros [(k & Hk & ->) _]. split.
  - pose proof (Z.pow_pos_nonneg 2 k). lia.
  - change 1073741824 with (2 ^ 30). apply Z.pow_le_mono_r; lia.
Qed.

Lemma ring_land_mask r h : ring_shape r -> Z.land h (mask r) = h mod slots r.
Proof. intros [(k & Hk & E) Em]. rewrite Em, E, Z.sub_1_r, <-Z.ones_equiv. apply Z.land_ones. lia. Qed.

Lemma u32_mod_slots r x : ring_shape r -> u32 x mod slots r = x mod slots r.
Proof.
  intros [(k & Hk & E) _]. unfold u32. rewrite E. apply Z.mod_mod_divide. exists (2 ^ (32 - k)).
  rewrite <-Z.pow_add_r by lia. replace (32 - k + k) with 32 by lia. done.
Qed.

(** The index of an entry [j] behind [head]. *)
Lemma enqueue_ptrs_ok r obj n head j : ring_shape r -> 0 <= n <= mask r -> 0 <= j < slots r ->
  enqueue_ptrs r obj n head j = if (j - head) mod slots r <? n then obj ((j - head) mod slots r) else ring r j.
Proof.
  intros Hs Hn Hj. pose proof (shape_bounds r Hs) as Hb. pose proof (sh_mask _ Hs) as Em. unfold enqueue_ptrs.
  rewrite ring_land_mask by done. set (idx := head mod slots r). pose proof (Z.mod_pos_bound head (slots r) ltac:(lia)) as Hi. fold idx in Hi.
  assert (Ed : (j - head) mod slots r = if idx <=? j then j - idx else j - idx + slots r).
  { rewrite Zminus_mod, (Z.mod_small j) by lia. fold idx. destruct (Z.leb_spec idx j).
    - apply Z.mod_small. lia.
    - symmetry. apply (Z.mod_unique _ _ (-1)); lia. }
  rewrite Ed. clearbody idx. rewrite u32_small by lia. destruct (quads n ltac:(lia)) as [-> ->].
  assert (Hq : n = 4 * (n / 4) + n mod 4 /\ 0 <= n mod 4 < 4 /\ 0 <= n / 4) by (Z.div_mod_to_equations; lia).
  replace (4 * (n / 4) / 4) with (n / 4) by (rewrite Z.mul_comm, Z.div_mul; lia).
  destruct (Z.ltb_spec (idx + n) (slots r)).
  - rewrite copy4_plain, !copy1_ok. set (a := n / 4) in *. set (b := n mod 4) in *.
    rewrite Nat2Z.inj_mul, !Z2Nat.id by lia. change (Z.of_nat 4) with 4.
    destruct (Z.leb_spec (idx + 4 * a) j), (Z.ltb_spec j (idx + 4 * a + b)), (Z.leb_spec idx j), (Z.ltb_spec j (idx + 4 * a)); cbn [andb]; try lia;
      match goal with |- context [?x <? n] => destruct (Z.ltb_spec x n) end; try lia; try done; f_equal; lia.
  - rewrite !copy1_ok, !Z2Nat.id by lia.
    destruct (Z.leb_spec 0 j), (Z.ltb_spec j (0 + (n - (slots r - idx)))), (Z.leb_spec idx j), (Z.ltb_spec j (idx + (slots r - idx))); cbn [andb]; try lia;
      match goal with |- context [?x <? n] => destruct (Z.ltb_spec x n) end; try lia; try done; f_equal; lia.
Qed.

Lemma dequeue_ptrs_ok r obj n head i : ring_shape r -> 0 <= n <= mask r ->
  dequeue_ptrs r obj n head i = if (0 <=? i) && (i <? n) then ring r ((head + i) mod slots r) else obj i.
Proof.
  intros Hs Hn. pose proof (shape_bounds r Hs) as Hb. pose proof (sh_mask _ Hs) as Em. unfold dequeue_ptrs.
  rewrite ring_land_mask by done. set (idx := head mod slots r). pose proof (Z.mod_pos_bound head (slots r) ltac:(lia)) as Hi. fold idx in Hi.
  assert (Ed : 0 <= i < n -> (head + i) mod slots r = if idx + i <? slots r then idx + i else idx + i - slots r).
  { intros Hin. rewrite <-Zplus_mod_idemp_l. fold idx. destruct (Z.ltb_spec (idx + i) (slots r)); [by apply Z.mod_small; lia|].
    symmetry. apply (Z.mod_unique _ _ 1); lia. }
  rewrite u32_small by lia. destruct (quads n ltac:(lia)) as [-> ->].
  assert (Hq : n = 4 * (n / 4) + n mod 4 /\ 0 <= n mod 4 < 4 /\ 0 <= n / 4) by (Z.div_mod_to_equations; lia).
  replace (4 * (n / 4) / 4) with (n / 4) by (rewrite Z.mul_comm, Z.div_mul; lia).
  destruct (Z.leb_spec 0 i), (Z.ltb_spec i n); cbn [andb]; rewrite ?Ed by lia; clear Ed; clearbody idx;
    (destruct (Z.ltb_spec (idx + n) (slots r));
     [rewrite fetch4_plain, !fetch1_ok; set (a := n / 4) in *; set (b := n mod 4) in *;
      rewrite Nat2Z.inj_mul, !Z2Nat.id by lia; change (Z.of_nat 4) with 4;
      destruct (Z.leb_spec (4 * a) i), (Z.ltb_spec i (4 * a + b)), (Z.leb_spec 0 i), (Z.ltb_spec i (0 + 4 * a)); cbn [andb]; try lia
     |rewrite !fetch1_ok, !Z2Nat.id by lia;
      destruct (Z.leb_spec (slots r - idx) i), (Z.ltb_spec i (slots r - idx + (n - (slots r - idx)))), (Z.leb_spec 0 i), (Z.ltb_spec i (0 + (slots r - idx)));
      cbn [andb]; try lia]);
    try done; try (destruct (Z.ltb_spec (idx + i) (slots r)); try lia; f_equal; lia).
Qed.

(** ** The queue *)

(** [r] holds the entries [q], first to last. *)
Record ring_inv (r : llring) (q : list Z) : Prop := {
  ri_shape : ring_shape r;
  ri_prod : prod_head r = prod_tail r;
  ri_cons : cons_head r = cons_tail r;
  ri_in32 : in32 (cons_tail r);
  ri_tail : prod_tail r = u32 (cons_tail r + Z.of_nat (length q));
  ri_len : Z.of_nat (length q) <= mask r;
  ri_item i x : q !! i = Some x -> ring r ((cons_tail r + Z.of_nat i) mod slots r) = x
}.

(** The first [n] entries of a table. *)
Definition table (obj : Z -> Z) (n : Z) : list Z := obj <$> seqZ 0 n.

Lemma table_length obj n : 0 <= n -> Z.of_nat (length (table obj n)) = n.
Proof. intros Hn. unfold table. rewrite length_fmap, length_seqZ. lia. Qed.

Lemma table_lookup obj n i x : table obj n !! i = Some x -> Z.of_nat i < n /\ x = obj (Z.of_nat i).
Proof.
  unfold table. rewrite list_lookup_fmap. intros (j & Hj & ->)%fmap_Some. apply lookup_seqZ in Hj as [-> ?]. by split; [lia|].
Qed.

Lemma ring_inv_free r q : ring_inv r q -> free_entries r = mask r - Z.of_nat (length q).
Proof.
  intros Hi. pose proof (shape_bounds r (ri_shape _ _ Hi)). pose proof (sh_mask _ (ri_shape _ _ Hi)). pose proof (ri_in32 _ _ Hi). pose proof (ri_len _ _ Hi).
  unfold free_entries. rewrite (ri_prod _ _ Hi), (ri_tail _ _ Hi). wrap_lia.
Qed.

Lemma ring_inv_entries r q : ring_inv r q -> entries r = Z.of_nat (length q).
Proof.
  intros Hi. pose proof (shape_bounds r (ri_shape _ _ Hi)). pose proof (sh_mask _ (ri_shape _ _ Hi)). pose proof (ri_in32 _ _ Hi). pose proof (ri_len _ _ Hi).
  unfold entries. rewrite (ri_cons _ _ Hi), (ri_tail _ _ Hi). wrap_lia.
Qed.

(** Entries written behind the last one. *)
Lemma ring_inv_enqueue r q obj n : ring_inv r q -> 0 <= n <= mask r - Z.of_nat (length q) ->
  let next := u32 (prod_head r + n) in
  let r' := r <| prod_head := next |> <| ring := enqueue_ptrs (r <| prod_head := next |>) obj n (prod_head r) |> <| prod_tail := next |> in
  ring_inv r' (q ++ table obj n).
Proof.
  intros Hi Hn next r'. destruct Hi as [Hs Hp Hc H32 Ht Hl Hit]. pose proof (shape_bounds r Hs) as Hb. pose proof (sh_mask _ Hs) as Em.
  constructor; cbn [prod_head prod_tail cons_head cons_tail mask slots ring setter r']; try done.
  - by destruct Hs; constructor.
  - unfold next. rewrite Hp, Ht, length_app, Nat2Z.inj_add, table_length by lia. wrap_lia.
  - rewrite length_app, Nat2Z.inj_add, table_length by lia. cbn. lia.
  - intros i x Hx. set (r1 := r <| prod_head := next |>). assert (Hs1 : ring_shape r1) by (by destruct Hs; constructor).
    set (j := (cons_tail r + Z.of_nat i) mod slots r). assert (Hj : 0 <= j < slots r) by (apply Z.mod_pos_bound; lia).
    change (enqueue_ptrs r1 obj n (prod_head r) j = x).
    rewrite enqueue_ptrs_ok by (done || (change (mask r1) with (mask r); lia)). change (slots r1) with (slots r). change (ring r1) with (ring r).
    assert (Ed : (j - prod_head r) mod slots r = (Z.of_nat i - Z.of_nat (length q)) mod slots r).
    { unfold j. rewrite Hp, Ht, Zminus_mod, u32_mod_slots, Zmod_mod, <-Zminus_mod by done. f_equal. lia. }
    rewrite Ed. apply lookup_app_Some in Hx as [Hx|[Hge Hx]].
    + apply lookup_lt_Some in Hx as Hlt. rewrite <-(Z.mod_unique _ _ (-1) (Z.of_nat i - Z.of_nat (length q) + slots r)) by lia.
      destruct (Z.ltb_spec (Z.of_nat i - Z.of_nat (length q) + slots r) n); [lia|]. by apply Hit.
    + apply table_lookup in Hx as [Hlt ->]. rewrite Z.mod_small by lia.
      destruct (Z.ltb_spec (Z.of_nat i - Z.of_nat (length q)) n); [f_equal; lia|lia].
Qed.

(** Entries taken from the front. *)
Lemma ring_inv_dequeue r q n : ring_inv r q -> 0 <= n <= Z.of_nat (length q) ->
  let next := u32 (cons_head r + n) in
  ring_inv (r <| cons_head := next |> <| cons_tail := next |>) (drop (Z.to_nat n) q).
Proof.
  intros Hi Hn next. destruct Hi as [Hs Hp Hc H32 Ht Hl Hit].
  constructor; cbn [prod_head prod_tail cons_head cons_tail mask slots ring setter]; try done.
  - by destruct Hs; constructor.
  - apply u32_range.
  - unfold next. rewrite Ht, Hc, length_drop, Nat2Z.inj_sub, Z2Nat.id by lia. wrap_lia.
  - rewrite length_drop. lia.
  - intros i x. rewrite lookup_drop. intros Hx. rewrite <-(Hit _ _ Hx). cbn. f_equal. unfold next.
    rewrite <-Zplus_mod_idemp_l, u32_mod_slots, Zplus_mod_idemp_l, Hc, Nat2Z.inj_add, Z2Nat.id by (done || lia). f_equal. lia.
Qed.

Lemma dequeued r q obj n i : ring_inv r q -> 0 <= n <= Z.of_nat (length q) ->
  let next := u32 (cons_head r + n) in
  dequeue_ptrs (r <| cons_head := next |>) obj n (cons_head r) i =
  if (0 <=? i) && (i <? n) then default 0 (q !! Z.to_nat i) else obj i.
Proof.
  intros Hi Hn next. destruct Hi as [Hs Hp Hc H32 Ht Hl Hit]. set (r1 := r <| cons_head := next |>).
  assert (Hs1 : ring_shape r1) by (by destruct Hs; constructor).
  rewrite dequeue_ptrs_ok by (done || (change (mask r1) with (mask r); lia)).
  destruct (Z.leb_spec 0 i), (Z.ltb_spec i n); cbn [andb]; try done.
  destruct (lookup_lt_is_Some_2 q (Z.to_nat i)) as [x Hx]; [lia|]. rewrite Hx. cbn.
  rewrite <-(Hit _ _ Hx), Z2Nat.id, Hc by lia. done.
Qed.

(** What an operation moves when [avail] entries are free or filled. *)
Definition moved (b : behavior) (n avail : Z) : Z :=
  match b with LLRING_QUEUE_FIXED => if n <=? avail then n else 0 | LLRING_QUEUE_VARIABLE => Z.min n avail end.

Lemma burst_moved b n avail : 0 <= n -> 0 <= avail ->
  match burst b n avail with
  | Some m => m = moved b n avail
  | None => moved b n avail = 0 /\ (b = LLRING_QUEUE_FIXED -> avail < n)
  end.
Proof.
  intros Hn Ha. unfold burst, moved. destruct (Z.leb_spec n avail); [destruct b; lia|].
  destruct b; [by split|]. destruct (Z.eqb_spec avail 0); [split; [lia|done]|lia].
Qed.

Lemma quot_exceed n : 0 <= n < 2147483648 -> s32 (Z.lor n RING_QUOT_EXCEED) = n - 2147483648 /\ Z.land (n - 2147483648) 2147483647 = n.
Proof.
  intros Hn. assert (E : Z.lor n RING_QUOT_EXCEED = n + 2147483648).
  { unfold RING_QUOT_EXCEED. rewrite <-Z.lxor_lor, Z.add_nocarry_lxor; try done;
      (apply Z.bits_inj'; intros i Hi; rewrite Z.land_spec, Z.bits_0; change 2147483648 with (2 ^ 31); rewrite Z.pow2_bits_eqb by lia;
       destruct (Z.eqb_spec 31 i) as [<-|]; [|by rewrite andb_false_r]; rewrite andb_true_r;
       rewrite <-(Z.mod_small n (2 ^ 31)) by lia; apply Z.mod_pow2_bits_high; lia). }
  rewrite E. split.
  - wrap_lia.
  - change 2147483647 with (Z.ones 31). rewrite Z.land_ones by lia. symmetry. apply (Z.mod_unique _ _ (-1)); lia.
Qed.

(** The numbers of entries an enqueue and a dequeue report. *)
Definition enqueue_result (r : llring) (q : list Z) (b : behavior) (n ret : Z) : Prop :=
  let used := Z.of_nat (length q) in
  let m := moved b n (mask r - used) in
  match b with
  | LLRING_QUEUE_FIXED =>
    ret = if n <=? mask r - used then (if watermark r <? used + 1 + n then - LLRING_ERR_QUOT else 0) else - LLRING_ERR_NOBUF
  | LLRING_QUEUE_VARIABLE => Z.land ret 2147483647 = m /\ (ret < 0 <-> 0 < mask r - used /\ watermark r < used + 1 + m \/ n = 0 /\ watermark r < used + 1)
  end.

Lemma sp_enqueue_ok r q obj n b : ring_inv r q -> 0 <= n < 2147483648 -> watermark r <= slots r ->
  let '(ret, r') := sp_do_enqueue r obj n b in
  ring_inv r' (q ++ table obj (moved b n (mask r - Z.of_nat (length q)))) /\ enqueue_result r q b n ret /\
  r' = r <| prod_head := prod_head r' |> <| prod_tail := prod_tail r' |> <| ring := ring r' |>.
Proof.
  intros Hi Hn Hw. pose proof (shape_bounds r (ri_shape _ _ Hi)) as Hb. pose proof (sh_mask _ (ri_shape _ _ Hi)) as Em.
  pose proof (ri_len _ _ Hi) as Hl. unfold sp_do_enqueue. rewrite (ring_inv_free r q Hi).
  set (free := mask r - Z.of_nat (length q)). assert (Hf : 0 <= free) by lia.
  pose proof (burst_moved b n free ltac:(lia) Hf) as Hm. unfold enqueue_result. cbv zeta. fold free.
  destruct (burst b n free) as [m|] eqn:Eb.
  - assert (Hm0 : 0 <= m <= free) by (rewrite Hm; unfold moved; destruct b; [destruct (Z.leb_spec n free)|]; lia).
    split; [rewrite <-Hm; by apply ring_inv_enqueue|]. split; [|done].
    unfold enqueue_ret. cbn [mask watermark setter]. replace (mask r + 1 - free + m) with (Z.of_nat (length q) + 1 + m) by lia.
    rewrite u32_small by lia. unfold burst in Eb.
    assert (Hmn : m <= n) by (rewrite Hm; unfold moved; destruct b; [destruct (Z.leb_spec n free)|]; lia).
    destruct b.
    + destruct (Z.leb_spec n free); [|done]. injection Eb as <-. done.
    + rewrite <-Hm. destruct (quot_exceed m ltac:(lia)) as [Eq1 Eq2].
      assert (Hpos : 0 < free \/ n = 0). { destruct (Z.leb_spec n free); [lia|]. destruct (Z.eqb_spec free 0); [done|lia]. }
      destruct (Z.ltb_spec (watermark r) (Z.of_nat (length q) + 1 + m)).
      * rewrite Eq1. split; [done|]. split; [intros _|lia]. destruct (Z.eq_dec n 0); [right|left]; lia.
      * split; [|lia]. change 2147483647 with (Z.ones 31). rewrite Z.land_ones by lia. apply Z.mod_small. lia.
  - destruct Hm as [E0 Hfix]. rewrite E0. unfold table. cbn [seqZ]. change (seqZ 0 0) with (@nil Z). cbn [fmap list_fmap]. rewrite app_nil_r.
    split; [done|]. split; [|by destruct r]. unfold burst in Eb. destruct b.
    + destruct (Z.leb_spec n free); done.
    + destruct (Z.leb_spec n free); [done|]. destruct (Z.eqb_spec free 0); [|done]. split; [done|lia].
Qed.

Lemma sc_dequeue_ok r q obj n b : ring_inv r q -> 0 <= n ->
  let m := moved b n (Z.of_nat (length q)) in
  let '(ret, obj', r') := sc_do_dequeue r obj n b in
  ring_inv r' (drop (Z.to_nat m) q) /\ table obj' m = take (Z.to_nat m) q /\ (forall i, i < 0 \/ m <= i -> obj' i = obj i) /\
  ret = match b with
        | LLRING_QUEUE_FIXED => if n <=? Z.of_nat (length q) then 0 else - LLRING_ERR_NOENT
        | LLRING_QUEUE_VARIABLE => m
        end /\
  r' = r <| cons_head := cons_head r' |> <| cons_tail := cons_tail r' |>.
Proof.
  intros Hi Hn m. unfold sc_do_dequeue. rewrite (ring_inv_entries r q Hi). set (len := Z.of_nat (length q)) in *.
  pose proof (burst_moved b n len Hn ltac:(lia)) as Hm. destruct (burst b n len) as [m'|] eqn:Eb.
  - fold m in Hm. subst m'. assert (Hm0 : 0 <= m <= len) by (unfold m, moved; destruct b; [destruct (Z.leb_spec n len)|]; lia).
    split; [by apply ring_inv_dequeue|]. split; [|split; [|split; [|by destruct r]]].
    + apply list_eq. intros i. unfold table. rewrite list_lookup_fmap.
      destruct (decide (Z.of_nat i < m)) as [Hlt|Hge].
      * rewrite lookup_seqZ_lt by lia. cbn [fmap option_fmap option_map]. rewrite lookup_take_lt by lia.
        rewrite (dequeued r q) by (done || lia). rewrite (proj2 (Z.leb_le 0 _)), (proj2 (Z.ltb_lt _ m)) by lia. cbn [andb].
        replace (Z.to_nat (0 + Z.of_nat i)) with i by lia. destruct (lookup_lt_is_Some_2 q i) as [x ->]; [lia|done].
      * rewrite lookup_seqZ_ge by lia. rewrite lookup_take_ge by lia. done.
    + intros i Hout. rewrite (dequeued r q) by (done || lia).
      destruct (Z.leb_spec 0 i), (Z.ltb_spec i m); cbn [andb]; try done; lia.
    + unfold burst in Eb. destruct b; [|done]. by destruct (n <=? len).
  - destruct Hm as [E0 Hfix]. fold m in E0. rewrite E0. cbn [drop take Z.to_nat]. split; [done|]. split; [done|]. split; [done|].
    split; [|by destruct r]. destruct b; [|done]. specialize (Hfix eq_refl). destruct (Z.leb_spec n len); [lia|done].
Qed.

(** An undisturbed call of the variants for several producers or consumers behaves the
    same. *)
Lemma mp_sp r q obj n b : ring_inv r q -> mp_do_enqueue r obj n b = Some (sp_do_enqueue r obj n b).
Proof.
  intros Hi. unfold mp_do_enqueue, sp_do_enqueue. destruct (burst _ _ _); [|done]. cbn [prod_tail prod_head setter].
  by rewrite <-(ri_prod _ _ Hi), Z.eqb_refl.
Qed.
Lemma mc_sc r q obj n b : ring_inv r q -> mc_do_dequeue r obj n b = Some (sc_do_dequeue r obj n b).
Proof.
  intros Hi. unfold mc_do_dequeue, sc_do_dequeue. destruct (burst _ _ _); [|done]. cbn [cons_tail cons_head setter].
  by rewrite <-(ri_cons _ _ Hi), Z.eqb_refl.
Qed.

Lemma ring_inv_free_count r q : ring_inv r q -> llring_free_count r = mask r - Z.of_nat (length q).
Proof.
  intros Hi. pose proof (shape_bounds r (ri_shape _ _ Hi)) as Hb. pose proof (sh_mask _ (ri_shape _ _ Hi)) as Em.
  pose proof (ri_len _ _ Hi) as Hl. unfold llring_free_count. rewrite ring_land_mask, u32_mod_slots, (ri_tail _ _ Hi) by apply (ri_shape _ _ Hi).
  rewrite <-Zminus_mod_idemp_l, Zminus_mod, (Zminus_mod (cons_tail r)), u32_mod_slots by apply (ri_shape _ _ Hi).
  rewrite <-(Zminus_mod (cons_tail r)), <-Zminus_mod, Zminus_mod_idemp_l. symmetry. apply (Z.mod_unique _ _ (-1)); lia.
Qed.

(** C40: the ring is a bounded FIFO queue.  A bulk operation moves all of its entries or
    none, a burst as many as there are free or filled ones; entries leave in the order in
    which they were added, and the counts are exact.  The free running counters may wrap around at
    any time.  The return values are those of the code ([enqueue_result]), which differ from the comments
    of [llring.h] in two points: the quota is reported as soon as the ring holds [watermark] entries, and not
    only for more (one slot that is never filled counts too); and a burst that reports it
    returns the number of entries with the highest bit set, and so a negative one. *)
Theorem llring_refines_queue r q obj n b : ring_inv r q -> 0 <= n < 2147483648 -> watermark r <= slots r ->
  (exists ret r', do_enqueue r obj n b = Some (ret, r') /\
    ring_inv r' (q ++ table obj (moved b n (mask r - Z.of_nat (length q)))) /\ enqueue_result r q b n ret) /\
  (let m := moved b n (Z.of_nat (length q)) in
   exists ret obj' r', do_dequeue r obj n b = Some (ret, obj', r') /\
    ring_inv r' (drop (Z.to_nat m) q) /\ table obj' m = take (Z.to_nat m) q /\ (forall i, i < 0 \/ m <= i -> obj' i = obj i) /\
    ret = match b with
          | LLRING_QUEUE_FIXED => if n <=? Z.of_nat (length q) then 0 else - LLRING_ERR_NOENT
          | LLRING_QUEUE_VARIABLE => m
          end) /\
  llring_count r = Z.of_nat (length q) /\ llring_free_count r = mask r - Z.of_nat (length q) /\
  llring_empty r = bool_decide (q = []) /\ llring_full r = (Z.of_nat (length q) =? mask r).
Proof.
  intros Hi Hn Hw. pose proof (shape_bounds r (ri_shape _ _ Hi)) as Hb. pose proof (sh_mask _ (ri_shape _ _ Hi)) as Em.
  pose proof (ri_len _ _ Hi) as Hl. pose proof (ri_in32 _ _ Hi) as H32. pose proof (ri_tail _ _ Hi) as Et. split; [|split].
  - unfold do_enqueue. rewrite (mp_sp r q) by done. pose proof (sp_enqueue_ok r q obj n b Hi Hn Hw) as H.
    destruct (sp_do_enqueue r obj n b) as [ret r']. exists ret, r'. split; [by destruct (sp_enqueue r)|]. tauto.
  - unfold do_dequeue. rewrite (mc_sc r q) by done. pose proof (sc_dequeue_ok r q obj n b Hi ltac:(lia)) as H. cbv zeta in H.
    destruct (sc_do_dequeue r obj n b) as [[ret obj'] r']. exists ret, obj', r'. split; [by destruct (sc_dequeue r)|]. tauto.
  - unfold llring_count, llring_free_count, llring_full, llring_empty. rewrite !ring_land_mask by apply (ri_shape _ _ Hi).
    assert (E1 : u32 (prod_tail r - cons_tail r) = Z.of_nat (length q)) by (rewrite Et; clear Et; wrap_lia).
    pose proof (ring_inv_free_count r q Hi) as E2. unfold llring_free_count in E2. rewrite ring_land_mask in E2 by apply (ri_shape _ _ Hi).
    rewrite E1, E2. split; [apply Z.mod_small; lia|]. split; [done|]. split.
    + destruct q as [|x q]; [rewrite bool_decide_true by done; apply Z.eqb_eq; rewrite Et; cbn; rewrite Z.add_0_r; by rewrite u32_small|].
      rewrite bool_decide_false by done. apply Z.eqb_neq. intros E. rewrite <-E, Z.sub_diag in E1. change (u32 0) with 0 in E1. cbn [length] in E1. lia.
    + destruct (Z.eqb_spec (mask r - Z.of_nat (length q)) 0), (Z.eqb_spec (Z.of_nat (length q)) (mask r)); try done; lia.
Qed.

(** ** One producer and one consumer *)

Lemma copy_idx_ok r head n i : ring_shape r -> 0 <= n <= mask r -> 0 <= i < n ->
  copy_idx r head n i = (head + i) mod slots r.
Proof.
  intros Hs Hn Hi. pose proof (shape_bounds r Hs). pose proof (sh_mask _ Hs). unfold copy_idx. rewrite ring_land_mask by done.
  rewrite <-(Zplus_mod_idemp_l head). set (idx := head mod slots r).
  assert (Hx : 0 <= idx < slots r) by (apply Z.mod_pos_bound; lia). clearbody idx. rewrite u32_small by lia.
  destruct (Z.ltb_spec (idx + n) (slots r)); [rewrite Z.mod_small; lia|].
  destruct (Z.ltb_spec i (slots r - idx)); [rewrite Z.mod_small; lia|]. apply (Z.mod_unique _ _ 1); lia.
Qed.

Section Spsc.
Implicit Types (s : spsc) (r : llring).

(** The numbers of entries that have been added and removed, before they wrap. *)
Abbreviation added s := (Z.of_nat (length (sent s))).
Abbreviation removed s := (Z.of_nat (length (received s))).

(** The producer owns the entries from the last one added to its head. *)
Definition producer_ok s : Prop :=
  let r := shared s in
  match prod s with
  | P_IDLE => prod_head r = u32 (added s)
  | P_RESERVE obj n head => head = u32 (added s) /\ 0 <= n /\ added s + n <= removed s + mask r
  | P_COPY obj n head i => head = u32 (added s) /\ prod_head r = u32 (added s + n) /\ 0 <= i <= n /\
      added s + n <= removed s + mask r /\ forall j, 0 <= j < i -> ring r ((added s + j) mod slots r) = obj j
  end.

(** The consumer owns the entries from the last one removed to its head. *)
Definition consumer_ok s : Prop :=
  let r := shared s in
  match cons s with
  | C_IDLE => cons_head r = u32 (removed s)
  | C_RESERVE n head => head = u32 (removed s) /\ 0 <= n /\ removed s + n <= added s
  | C_COPY n head got => head = u32 (removed s) /\ cons_head r = u32 (removed s + n) /\ Z.of_nat (length got) <= n /\
      removed s + n <= added s /\ received s ++ got = take (length (received s) + length got) (sent s)
  end.

Record spsc_inv (s : spsc) : Prop := {
  sp_shape : ring_shape (shared s);
  sp_prod_tail : prod_tail (shared s) = u32 (added s);
  sp_cons_tail : cons_tail (shared s) = u32 (removed s);
  sp_bounds : removed s <= added s <= removed s + mask (shared s);
  sp_received : received s = take (length (received s)) (sent s);
  sp_item k x : (length (received s) <= k)%nat -> sent s !! k = Some x -> ring (shared s) (Z.of_nat k mod slots (shared s)) = x;
  sp_producer : producer_ok s;
  sp_consumer : consumer_ok s
}.


Lemma u32_diff a b c : 0 <= c + a - b < 4294967296 -> u32 (c + u32 a - u32 b) = c + a - b.
Proof. intros. wrap_lia. Qed.

Lemma spsc_free s : spsc_inv s -> prod s = P_IDLE -> free_entries (shared s) = mask (shared s) + removed s - added s.
Proof.
  intros Hi Hp. pose proof (shape_bounds _ (sp_shape _ Hi)). pose proof (sh_mask _ (sp_shape _ Hi)). pose proof (sp_bounds _ Hi).
  pose proof (sp_producer _ Hi) as HP. unfold producer_ok in HP. rewrite Hp in HP. unfold free_entries.
  rewrite HP, (sp_cons_tail _ Hi). apply u32_diff. lia.
Qed.

Lemma spsc_entries s : spsc_inv s -> cons s = C_IDLE -> entries (shared s) = added s - removed s.
Proof.
  intros Hi Hc. pose proof (shape_bounds _ (sp_shape _ Hi)). pose proof (sh_mask _ (sp_shape _ Hi)). pose proof (sp_bounds _ Hi).
  pose proof (sp_consumer _ Hi) as HC. unfold consumer_ok in HC. rewrite Hc in HC. unfold entries.
  rewrite HC, (sp_prod_tail _ Hi). apply (u32_diff _ _ 0). lia.
Qed.

Lemma burst_range n avail m : burst LLRING_QUEUE_VARIABLE n avail = Some m -> 0 <= n -> 0 <= avail -> 0 <= m <= avail.
Proof. intros E Hn Ha. pose proof (burst_moved LLRING_QUEUE_VARIABLE n avail Hn Ha) as H. rewrite E in H. unfold moved in H. lia. Qed.

(** The entries that are in the ring are not where the producer writes. *)
Lemma spsc_write s obj n head i : spsc_inv s -> prod s = P_COPY obj n head i -> i < n ->
  spsc_inv (s <| shared := (shared s) <| ring := put obj (ring (shared s)) i (copy_idx (shared s) head n i) |> |>
              <| prod := P_COPY obj n head (i + 1) |>).
Proof.
  intros Hi Hp Hlt. pose proof (shape_bounds _ (sp_shape _ Hi)) as Hb. pose proof (sh_mask _ (sp_shape _ Hi)) as Em.
  pose proof (sp_bounds _ Hi) as Hbd. pose proof (sp_producer _ Hi) as HP. unfold producer_ok in HP. rewrite Hp in HP.
  destruct HP as (Eh & Eph & Hin & Hroom & Hdone). rewrite copy_idx_ok by (apply Hi || lia).
  assert (Ei : (head + i) mod slots (shared s) = (added s + i) mod slots (shared s)).
  { by rewrite Eh, <-Zplus_mod_idemp_l, u32_mod_slots, Zplus_mod_idemp_l by apply Hi. }
  rewrite Ei. unfold put. destruct Hi as [S1 S2 S3 S4 S5 S6 S7 S8]. constructor; cbn [shared prod cons sent received setter]; try done.
  - by destruct S1; constructor.
  - intros k x Hk Hx. cbn. rewrite fn_lookup_insert_ne; [by apply S6|]. apply lookup_lt_Some in Hx.
    intros E. rewrite <-(Z.add_0_l (added s + i)), <-(Z.add_0_l (Z.of_nat k)) in E. apply mod_shift_inj in E; lia.
  - unfold producer_ok. cbn. split; [done|]. split; [done|]. split; [lia|]. split; [done|]. intros j Hj.
    destruct (Z.eq_dec j i) as [->|Hne]; [apply fn_lookup_insert|]. rewrite fn_lookup_insert_ne; [apply Hdone; lia|].
    intros E%mod_shift_inj; lia.
Qed.

Lemma spsc_publish s obj n head : spsc_inv s -> prod s = P_COPY obj n head n ->
  spsc_inv (s <| shared := (shared s) <| prod_tail := u32 (head + n) |> |> <| prod := P_IDLE |>
              <| sent := sent s ++ (obj <$> seqZ 0 n) |>).
Proof.
  intros Hi Hp. pose proof (sp_bounds _ Hi) as Hbd. pose proof (sp_producer _ Hi) as HP. unfold producer_ok in HP. rewrite Hp in HP.
  destruct HP as (Eh & Eph & Hin & Hroom & Hdone). destruct Hi as [S1 S2 S3 S4 S5 S6 S7 S8].
  assert (El : Z.of_nat (length (sent s ++ (obj <$> seqZ 0 n))) = added s + n) by (rewrite length_app, length_fmap, length_seqZ; lia).
  constructor; cbn [shared prod cons sent received setter]; try done.
  - by destruct S1; constructor.
  - rewrite El, Eh. cbn. by autorewrite with wrap_rw.
  - rewrite El. cbn. lia.
  - rewrite take_app_le by lia. done.
  - intros k x Hk [Hx|[Hge Hx]]%lookup_app_Some; [by apply S6|]. cbn.
    rewrite list_lookup_fmap in Hx. apply fmap_Some in Hx as (j & Hj & ->). apply lookup_seqZ in Hj as [-> Hlt].
    rewrite <-Hdone by lia. f_equal. f_equal. lia.
  - unfold producer_ok. cbn. by rewrite El.
  - unfold consumer_ok in *. cbn. destruct (cons s) as [|m h|m h got]; [done| |].
    + rewrite El. split; [apply S8|]. split; [apply S8|lia].
    + destruct S8 as (? & ? & ? & ? & Eg). rewrite El. split_and!; try done; try lia. rewrite take_app_le by lia. done.
Qed.

Lemma spsc_read s n head got : spsc_inv s -> cons s = C_COPY n head got -> Z.of_nat (length got) < n ->
  spsc_inv (s <| cons := C_COPY n head (got ++ [ring (shared s) (copy_idx (shared s) head n (Z.of_nat (length got)))]) |>).
Proof.
  intros Hi Hc Hlt. pose proof (sh_mask _ (sp_shape _ Hi)) as Em.
  pose proof (sp_bounds _ Hi) as Hbd. pose proof (sp_consumer _ Hi) as HC. unfold consumer_ok in HC. rewrite Hc in HC.
  destruct HC as (Eh & Ech & Hl & Hav & Eg). rewrite copy_idx_ok by (apply Hi || lia).
  assert (Ei : (head + Z.of_nat (length got)) mod slots (shared s) = Z.of_nat (length (received s) + length got) mod slots (shared s)).
  { rewrite Eh, <-Zplus_mod_idemp_l, u32_mod_slots, Zplus_mod_idemp_l by apply Hi. f_equal. lia. }
  rewrite Ei. destruct Hi as [S1 S2 S3 S4 S5 S6 S7 S8]. constructor; cbn [shared prod cons sent received setter]; try done.
  unfold consumer_ok. cbn [shared prod cons sent received setter]. rewrite length_app. cbn [length].
  split; [done|]. split; [done|]. split; [lia|]. split; [done|].
  rewrite app_assoc, Eg. destruct (lookup_lt_is_Some_2 (sent s) (length (received s) + length got)) as [x Hx]; [lia|].
  rewrite (S6 _ x) by (done || lia). rewrite Nat.add_assoc, Nat.add_1_r. symmetry. by apply take_S_r.
Qed.

Lemma spsc_release s n head got : spsc_inv s -> cons s = C_COPY n head got -> Z.of_nat (length got) = n ->
  spsc_inv (s <| shared := (shared s) <| cons_tail := u32 (head + n) |> |> <| cons := C_IDLE |> <| received := received s ++ got |>).
Proof.
  intros Hi Hc Hn. pose proof (sp_bounds _ Hi) as Hbd. pose proof (sp_consumer _ Hi) as HC. unfold consumer_ok in HC. rewrite Hc in HC.
  destruct HC as (Eh & Ech & Hl & Hav & Eg). destruct Hi as [S1 S2 S3 S4 S5 S6 S7 S8].
  assert (El : Z.of_nat (length (received s ++ got)) = removed s + n) by (rewrite length_app; lia).
  constructor; cbn [shared prod cons sent received setter]; try done.
  - by destruct S1; constructor.
  - rewrite El, Eh. cbn. by autorewrite with wrap_rw.
  - rewrite El. cbn. lia.
  - by rewrite Eg at 1; rewrite length_app.
  - intros k x Hk Hx. apply S6; [|done]. rewrite length_app in Hk. lia.
  - unfold producer_ok in *. cbn. destruct (prod s) as [|obj m h|obj m h i]; [done| |]; rewrite El.
    + split; [apply S7|]. split; [apply S7|lia].
    + destruct S7 as (? & ? & ? & ? & ?). split_and!; try done; lia.
  - unfold consumer_ok. cbn. by rewrite El.
Qed.

Lemma spsc_step s s' : spsc_inv s -> step s s' -> spsc_inv s'.
Proof.
  intros Hi Hs. pose proof (sp_bounds _ Hi) as Hbd. pose proof (sp_producer _ Hi) as HP. pose proof (sp_consumer _ Hi) as HC.
  destruct Hs as [s n Hp Hn E|s obj n m Hp Hn E|s obj n head Hp|s obj n head i Hp Hlt|s obj n head Hp
    |s n Hc Hn E|s n m Hc Hn E|s n head Hc|s n head got Hc Hlt|s n head got Hc Hn]; try done.
  - rewrite (spsc_free s Hi Hp) in E. apply burst_range in E as Hm; [|lia..].
    destruct Hi as [S1 S2 S3 S4 S5 S6 S7 S8]. constructor; try done. unfold producer_ok in *. rewrite Hp in HP. cbn.
    split; [done|]. lia.
  - unfold producer_ok in HP. rewrite Hp in HP. destruct HP as (Eh & Hn & Hroom).
    destruct Hi as [S1 S2 S3 S4 S5 S6 S7 S8]. constructor; try done; [by destruct S1; constructor|].
    unfold producer_ok. cbn. rewrite Eh. autorewrite with wrap_rw. split_and!; try done; lia.
  - by apply spsc_write.
  - by apply spsc_publish.
  - rewrite (spsc_entries s Hi Hc) in E. apply burst_range in E as Hm; [|lia..].
    destruct Hi as [S1 S2 S3 S4 S5 S6 S7 S8]. constructor; try done. unfold consumer_ok in *. rewrite Hc in HC. cbn.
    split; [done|]. lia.
  - unfold consumer_ok in HC. rewrite Hc in HC. destruct HC as (Eh & Hn & Hav).
    destruct Hi as [S1 S2 S3 S4 S5 S6 S7 S8]. constructor; try done; [by destruct S1; constructor|].
    unfold consumer_ok. cbn. rewrite Eh. autorewrite with wrap_rw. split_and!; try done; try lia. by rewrite app_nil_r, Nat.add_0_r.
  - by apply spsc_read.
  - by apply spsc_release.
Qed.

Lemma spsc_init_ok k sp sc r : 0 <= k <= 30 -> llring_init (2 ^ k) sp sc = Some r -> spsc_inv (spsc_init r) /\ ring_inv r [].
Proof.
  intros Hk E. unfold llring_init in E. destruct (negb _); [done|]. injection E as <-.
  assert (Hb : 1 <= 2 ^ k <= 1073741824).
  { split; [pose proof (Z.pow_pos_nonneg 2 k); lia|]. change 1073741824 with (2 ^ 30). apply Z.pow_le_mono_r; lia. }
  assert (Hsh : ring_shape (mk_llring (2 ^ k) (u32 (2 ^ k - 1)) sp sc (2 ^ k) 0 0 0 0 (fun _ => 0))).
  { constructor; cbn; [by exists k|by rewrite u32_small by lia]. }
  split; constructor; cbn; try done; try lia; rewrite ?u32_small by lia; try lia; by intros [].
Qed.

(** C39: one producer and one consumer.  However the calls of [llring_sp_enqueue_burst] of
    one thread are interleaved with the calls of [llring_sc_dequeue_burst] of another, at
    every point the entries that have been received are the first of those that have been
    sent, in order and unchanged, and no more than the size of the ring allows are
    outstanding; whenever no call is running the ring holds exactly the rest. *)
Theorem spsc_fifo k sp sc r s : 0 <= k <= 30 -> llring_init (2 ^ k) sp sc = Some r -> rtc step (spsc_init r) s ->
  received s `prefix_of` sent s /\ Z.of_nat (length (sent s)) <= Z.of_nat (length (received s)) + (2 ^ k - 1) /\
  (prod s = P_IDLE -> cons s = C_IDLE -> ring_inv (shared s) (drop (length (received s)) (sent s))).
Proof.
  intros Hk E Hr. destruct (spsc_init_ok k sp sc r Hk E) as [Hi0 _].
  assert (Hsl : slots (shared s) = 2 ^ k /\ spsc_inv s).
  { assert (E0 : slots (shared (spsc_init r)) = 2 ^ k).
    { unfold llring_init in E. destruct (negb _); [done|]. by injection E as <-. }
    clear E. induction Hr as [s|s1 s2 s3 Hst _ IH]; [done|].
    apply IH; [by eapply spsc_step|]. by destruct Hst. }
  destruct Hsl as [Esl Hi]. pose proof (sp_bounds _ Hi) as Hb. pose proof (sh_mask _ (sp_shape _ Hi)) as Em.
  split; [|split].
  - rewrite (sp_received _ Hi). apply prefix_take.
  - lia.
  - intros Hp Hc. pose proof (sp_producer _ Hi) as HP. pose proof (sp_consumer _ Hi) as HC. unfold producer_ok in HP. unfold consumer_ok in HC.
    rewrite Hp in HP. rewrite Hc in HC. constructor.
    + apply Hi.
    + by rewrite HP, (sp_prod_tail _ Hi).
    + by rewrite HC, (sp_cons_tail _ Hi).
    + rewrite (sp_cons_tail _ Hi). apply u32_range.
    + rewrite (sp_prod_tail _ Hi), (sp_cons_tail _ Hi), length_drop. autorewrite with wrap_rw. f_equal. lia.
    + rewrite length_drop. lia.
    + intros i x. rewrite lookup_drop. intros Hx. rewrite <-(sp_item _ Hi (length (received s) + i) _ ltac:(lia) Hx). f_equal.
      rewrite (sp_cons_tail _ Hi), <-Zplus_mod_idemp_l, u32_mod_slots, Zplus_mod_idemp_l by apply Hi. f_equal. lia.
Qed.
End Spsc.

(** ** Divergences from the comments

    With a watermark of four, a ring of eight slots reports the quota for the fourth entry, which reaches but does not exceed the
    watermark; a burst then returns not the number of entries but a negative one. *)
Theorem quota_at_watermark : exists r, llring_init 8 true true = Some r /\
  let r := snd (llring_set_water_mark r 4) in
  (exists r', do_enqueue r id 3 LLRING_QUEUE_FIXED = Some (0, r')) /\
  (exists r', do_enqueue r id 4 LLRING_QUEUE_FIXED = Some (- LLRING_ERR_QUOT, r') /\ llring_count r' = watermark r) /\
  (exists r', do_enqueue r id 4 LLRING_QUEUE_VARIABLE = Some (4 - 2147483648, r') /\ llring_count r' = 4).
Proof.
  eexists. split; [reflexivity|]. cbv zeta.
  split; [|split]; eexists; repeat split; vm_compute; reflexivity.
Qed.

(** ** Examples *)

(** Four slots; the counters are about to wrap. *)
Definition ex_ring : llring := mk_llring 4 3 true true 4 1 1 4294967295 4294967295 (fun i => if i =? 3 then 7 else 8).

Lemma ex_ring_inv : ring_inv ex_ring [7; 8].
Proof.
  constructor; try done.
  - split; [by exists 2|done].
  - intros [|[|i]] x [= <-]; reflexivity.
Qed.

Lemma llring_refines_queue_witness :
  (exists ret r', do_enqueue ex_ring (fun i => 100 + i) 2 LLRING_QUEUE_VARIABLE = Some (ret, r') /\
    ring_inv r' [7; 8; 100] /\ ret = 1) /\
  (exists ret obj' r', do_dequeue ex_ring (fun _ => 0) 2 LLRING_QUEUE_FIXED = Some (ret, obj', r') /\
    ring_inv r' [] /\ table obj' 2 = [7; 8] /\ ret = 0).
Proof.
  split.
  - destruct (llring_refines_queue ex_ring [7; 8] (fun i => 100 + i) 2 LLRING_QUEUE_VARIABLE ex_ring_inv) as ((ret & r' & E & H & Hr) & _); [lia|done|].
    exists ret, r'. split; [exact E|]. split; [exact H|]. vm_compute in E. congruence.
  - destruct (llring_refines_queue ex_ring [7; 8] (fun _ => 0) 2 LLRING_QUEUE_FIXED ex_ring_inv) as (_ & (ret & obj' & r' & E & H & Ht & _ & Hr) & _); [lia|done|].
    exists ret, obj', r'. split; [exact E|]. split; [exact H|]. split; [exact Ht|exact Hr].
Defined.

(** The producer adds an entry, and starts to add a second one when the consumer asks. *)
Lemma spsc_fifo_witness : exists r s, llring_init (2 ^ 2) true true = Some r /\ rtc step (spsc_init r) s /\
  prod s = P_RESERVE (fun _ => 6) 1 1 /\ sent s = [5] /\ received s = [5] /\ received s `prefix_of` sent s.
Proof.
  assert (Hr : exists r, llring_init (2 ^ 2) true true = Some r) by (eexists; reflexivity). destruct Hr as [r Er].
  assert (Hs : exists s, rtc step (spsc_init r) s /\ prod s = P_RESERVE (fun _ => 6) 1 1 /\ sent s = [5] /\ received s = [5]).
  { injection Er as <-. eexists. split; [|split_and!; shelve].
    eapply rtc_l; [apply (step_enqueue _ (fun _ => 5) 1 1); [reflexivity|lia|reflexivity]|].
    eapply rtc_l; [eapply step_prod_head; reflexivity|].
    eapply rtc_l; [eapply step_write; [reflexivity|lia]|].
    eapply rtc_l; [eapply step_prod_tail; reflexivity|].
    eapply rtc_l; [apply (step_dequeue _ 4 1); [reflexivity|lia|reflexivity]|].
    eapply rtc_l; [apply (step_enqueue _ (fun _ => 6) 1 1); [reflexivity|lia|reflexivity]|].
    eapply rtc_l; [eapply step_cons_head; reflexivity|].
    eapply rtc_l; [eapply step_read; [reflexivity|cbn; lia]|].
    eapply rtc_l; [eapply step_cons_tail; reflexivity|]. apply rtc_refl.
    Unshelve. all: reflexivity. }
  destruct Hs as (s & Hst & Hp & Hsent & Hrec). exists r, s.
  destruct (spsc_fifo 2 true true r s ltac:(lia) Er Hst) as (H & _). done.
Defined.
End LlringSpec.
