(* ===== verification/Vport.v ===== *)
(** * Virtual ports of Backdraft ([lib/bd_vport])

    A queue of a virtual port is a circular list of segments, each a ring; a reader
    that finds the queue long pulls a further segment from the pool of the port.  This file
    has the pool ([llring_pool.c]), the ports ([vport.c]) and the list operations that they
    use ([list.h]).  The segments of a pool are numbered; a call runs undisturbed. *)
From S2P Require Import Prelude Llring.
#[local] Open Scope Z_scope.

Module Vport.
Import Llring.

Definition SLOTS_PER_LLRING : Z := 64.
Definition QUEUE_LENGTH_UPPER_BOUND : Z := 4096.
Definition EXTENDABLE : bool := true.
Definition RATE_SEQUENCE_SIZE : Z := 4.

(** ** Segments *)

(** [struct llr_seg], with the links of its [list_head]. *)
Record llr_seg : Type := mk_llr_seg { next : Z; prev : Z; seg_ring : llring }.
#[export] Instance eta_llr_seg : Eta llr_seg := fun s => mk_llr_seg (next s) (prev s) (seg_ring s).

(** Assignments to a member of the segment [x]. *)
Definition set_next (m : Z -> llr_seg) (x v : Z) : Z -> llr_seg := <[x := (m x) <| next := v |>]> m.
Definition set_prev (m : Z -> llr_seg) (x v : Z) : Z -> llr_seg := <[x := (m x) <| prev := v |>]> m.
Definition set_ring (m : Z -> llr_seg) (x : Z) (r : llring) : Z -> llr_seg := <[x := (m x) <| seg_ring := r |>]> m.

Definition INIT_LIST_HEAD (m : Z -> llr_seg) (x : Z) : Z -> llr_seg := set_prev (set_next m x x) x x.
Definition __list_add (m : Z -> llr_seg) (new prv nxt : Z) : Z -> llr_seg :=
  let m := set_prev m nxt new in
  let m := set_next m new nxt in
  let m := set_prev m new prv in
  set_next m prv new.
Definition list_add_tail (m : Z -> llr_seg) (new head : Z) : Z -> llr_seg := __list_add m new (prev (m head)) head.

(** ** The pool *)

(** [struct llring_pool]; [ptr_stack] is the stack of DPDK, the top first, with room for
    [num_llrings] entries. *)
Record llring_pool : Type := mk_llring_pool { memory : Z -> llr_seg; ptr_stack : list Z; num_llrings : Z; llr_size : Z }.
#[export] Instance eta_llring_pool : Eta llring_pool := fun p =>
  mk_llring_pool (memory p) (ptr_stack p) (num_llrings p) (llr_size p).

(** [rte_stack_push] and [rte_stack_pop] for one entry. *)
Definition rte_stack_push (p : llring_pool) (seg : Z) : Z * llring_pool :=
  if Z.of_nat (length (ptr_stack p)) <? num_llrings p then (1, p <| ptr_stack := seg :: ptr_stack p |>) else (0, p).
Definition rte_stack_pop (p : llring_pool) : option Z * llring_pool :=
  match ptr_stack p with
  | [] => (None, p)
  | seg :: st => (Some seg, p <| ptr_stack := st |>)
  end.

(** [None] is the null pointer. *)
Definition pull_llr (p : llring_pool) : option Z * llring_pool := rte_stack_pop p.
Definition push_llr (p : llring_pool) (seg : option Z) : Z * llring_pool :=
  match seg with
  | None => (-1, p)
  | Some seg => let '(rc, p) := rte_stack_push p seg in if rc =? 0 then (2, p) else (0, p)
  end.

(** The loop that initializes [n] segments from [i] on; [Done None] is an error of
    [llring_init]. *)
Fixpoint init_llrings (n : nat) (i count_slots water_mark : Z) (p : llring_pool) : outcome (option llring_pool) :=
  match n with
  | O => Done (Some p)
  | S n =>
    match llring_init count_slots true true with
    | None => Done None
    | Some llr =>
      let '(_, llr) := llring_set_water_mark llr water_mark in
      let p := p <| memory := set_ring (memory p) i llr |> in
      assert_ (0 <? llring_free_count llr) ≫= fun _ =>
      let '(rc, p) := rte_stack_push p i in
      assert_ (rc =? 1) ≫= fun _ =>
      init_llrings n (i + 1) count_slots water_mark p
    end
  end.

(** [fresh] is what the allocated memory contains. *)
Definition new_llr_pool (fresh : Z -> llr_seg) (num_llr count_slots : Z) : outcome (option llring_pool) :=
  assert_ (Z.land count_slots (count_slots - 1) =? 0) ≫= fun _ =>
  let water_mark := u16 (Z.shiftr count_slots 3 * 7) in
  init_llrings (Z.to_nat num_llr) 0 count_slots water_mark (mk_llring_pool fresh [] num_llr count_slots).

(** ** Ports *)

(** [struct rate] and [struct queue_handler]. *)
Record rate : Type := mk_rate { pps : Z; last_ts : Z; tp : Z; rate_sum : Z; sequence : Z -> Z; rate_tail : Z; rate_head : Z }.
#[export] Instance eta_rate : Eta rate := fun r => mk_rate (pps r) (last_ts r) (tp r) (rate_sum r) (sequence r) (rate_tail r) (rate_head r).

Record queue_handler : Type := mk_queue_handler {
  reader_head : Z; writer_head : Z; q_rate : rate; total_size : Z; enqueue_pkts : Z; dequeue_pkts : Z;
  th_over : Z; th_goal : Z; count_empty : Z; empty_cycles : Z; empty_start_ts : Z; is_paused : Z
}.
#[export] Instance eta_queue_handler : Eta queue_handler := fun q =>
  mk_queue_handler (reader_head q) (writer_head q) (q_rate q) (total_size q) (enqueue_pkts q) (dequeue_pkts q)
    (th_over q) (th_goal q) (count_empty q) (empty_cycles q) (empty_start_ts q) (is_paused q).

Inductive queue_direction : Type := INC | OUT.
#[export] Instance queue_direction_eq : EqDecision queue_direction.
Proof. solve_decision. Defined.

(** [struct vport_bar], the part that both sides share, and [struct vport]. *)
Record vport_bar : Type := mk_vport_bar { num_inc_q : Z; num_out_q : Z; queues : queue_direction -> Z -> queue_handler; pool : llring_pool }.
#[export] Instance eta_vport_bar : Eta vport_bar := fun b => mk_vport_bar (num_inc_q b) (num_out_q b) (queues b) (pool b).

Record vport : Type := mk_vport { _main : bool; mac_addr : Z -> Z }.
#[export] Instance eta_vport : Eta vport := fun p => mk_vport (_main p) (mac_addr p).

(** Memory of [rte_zmalloc]. *)
Definition zero_rate : rate := mk_rate 0 0 0 0 (fun _ => 0) 0 0.
Definition zero_queue : queue_handler := mk_queue_handler 0 0 zero_rate 0 0 0 0 0 0 0 0 0.

Definition set_queue (b : vport_bar) (dir : queue_direction) (i : Z) (q : queue_handler) : vport_bar :=
  b <| queues := <[dir := <[i := q]> (queues b dir)]> (queues b) |>.
Definition set_pool (b : vport_bar) (p : llring_pool) : vport_bar := b <| pool := p |>.

(** [_rand_set_port_mac_address]; [rand] has the results of the generator. *)
Definition _rand_set_port_mac_address (port : vport) (rand : Z -> Z) : vport :=
  let mac := fun i => if (0 <=? i) && (i <? 6) then Z.land (rand i) 255 else mac_addr port i in
  let mac := <[0 := Z.land (mac 0) 254]> mac in
  let mac := <[0 := Z.lor (mac 0) 2]> mac in
  port <| mac_addr := mac |>.

Definition from_vbar_addr (rand : Z -> Z) : vport := _rand_set_port_mac_address (mk_vport false (fun _ => 0)) rand.

(** One round, and the inner loop, of the initialization of the queue handlers. *)
Definition init_queue (b : vport_bar) (dir : queue_direction) (i q_size : Z) : outcome vport_bar :=
  let '(seg, p) := pull_llr (pool b) in
  match seg with
  | None => Aborted
  | Some seg =>
    let b := set_pool b (p <| memory := INIT_LIST_HEAD (memory p) seg |>) in
    let q := queues b dir i in
    let q := q <| reader_head := seg |> <| writer_head := seg |> in
    let q := q <| q_rate := (q_rate q) <| rate_tail := RATE_SEQUENCE_SIZE - 1 |> |> in
    let q := q <| total_size := q_size |> in
    let q := q <| th_over := q_size * 7 / 8 |> in
    let q := q <| th_goal := q_size / 8 |> in
    Done (set_queue b dir i q)
  end.

Fixpoint init_queues (n : nat) (b : vport_bar) (dir : queue_direction) (i q_size : Z) : outcome vport_bar :=
  match n with
  | O => Done b
  | S n => init_queue b dir i q_size ≫= fun b => init_queues n b dir (i + 1) q_size
  end.

(** [_new_vport], without the file that publishes the address. *)
Definition _new_vport (fresh : Z -> llr_seg) (rand : Z -> Z) (num_inc num_out pool_size q_size : Z) : outcome (vport * vport_bar) :=
  let port := mk_vport true (fun _ => 0) in
  new_llr_pool fresh pool_size q_size ≫= fun p =>
  match p with
  | None => Aborted
  | Some p =>
    let b := mk_vport_bar num_inc num_out (fun _ _ => zero_queue) p in
    init_queues (Z.to_nat num_inc) b INC 0 q_size ≫= fun b =>
    init_queues (Z.to_nat num_out) b OUT 0 q_size ≫= fun b =>
    Done (_rand_set_port_mac_address port rand, b)
  end.

(** [Done None] is the null pointer. *)
Definition new_vport (fresh : Z -> llr_seg) (rand : Z -> Z) (num_inc num_out : Z) : outcome (option (vport * vport_bar)) :=
  let pool_size := u16 ((num_inc + num_out) * 3 / 2 + 64) in
  if pool_size <? num_inc + num_out then Done None
  else Some <$> _new_vport fresh rand num_inc num_out pool_size SLOTS_PER_LLRING.

(** ** Sending *)

Definition _count_pkts_in_q (q : queue_handler) : Z := u32 (enqueue_pkts q - dequeue_pkts q).

(** The table that starts [off] entries behind [t]. *)
Definition from (t : Z -> Z) (off : Z) : Z -> Z := fun i => t (off + i).

(** The loop [send_pkts]: the packets from [off] on are left. *)
Fixpoint send_pkts (fuel : nat) (m : Z -> llr_seg) (q : queue_handler) (seg : Z) (pkts : Z -> Z) (off cnt enqueued : Z) :
    outcome (Z * (Z -> llr_seg) * queue_handler) :=
  match fuel with
  | O => NoFuel
  | S fuel =>
    let '(ret, r) := llring_sp_enqueue_burst (seg_ring (m seg)) (from pkts off) (u32 cnt) in
    let m := set_ring m seg r in
    let ret := Z.land ret 2147483647 in
    let enqueued := enqueued + ret in
    let q := q <| enqueue_pkts := u32 (enqueue_pkts q + ret) |> in
    if (ret <? cnt) && negb (next (m seg) =? seg) then
      let seg := next (m seg) in
      if llring_count (seg_ring (m seg)) =? 0 then
        send_pkts fuel m (q <| writer_head := seg |>) seg pkts (off + ret) (cnt - ret) enqueued
      else Done (enqueued, m, q)
    else Done (enqueued, m, q)
  end.

(** The direction in which a port sends, and the one from which it receives. *)
Definition send_dir (port : vport) : queue_direction := if _main port then OUT else INC.
Definition recv_dir (port : vport) : queue_direction := if _main port then INC else OUT.

(** [send_packets_vport_with_bp], with [*pause_duration]. *)
Definition send_packets_vport_with_bp (fuel : nat) (port : vport) (b : vport_bar) (qid : Z) (pkts : Z -> Z) (cnt : Z) :
    outcome (Z * Z * vport_bar) :=
  let dir := send_dir port in
  let q := queues b dir qid in
  '(enqueued, m, q) ← send_pkts fuel (memory (pool b)) q (writer_head q) pkts 0 cnt 0;
  Done (enqueued, 0, set_queue (set_pool b ((pool b) <| memory := m |>)) dir qid q).

Definition send_packets_vport fuel port b qid pkts cnt : outcome (Z * vport_bar) :=
  '(enqueued, _, b) ← send_packets_vport_with_bp fuel port b qid pkts cnt; Done (enqueued, b).

(** ** Receiving *)

(** The extension of a queue that is filled over its threshold. *)
Definition must_extend (q : queue_handler) : bool :=
  EXTENDABLE && (th_over q <? _count_pkts_in_q q) && (total_size q <? QUEUE_LENGTH_UPPER_BOUND).

Definition extend_queue (p : llring_pool) (q : queue_handler) : outcome (llring_pool * queue_handler) :=
  if must_extend q then
    let '(seg, p) := pull_llr p in
    match seg with
    | None => Aborted
    | Some seg =>
      let p := p <| memory := list_add_tail (memory p) seg (reader_head q) |> in
      let q := q <| total_size := u64 (total_size q + llr_size p) |> in
      let q := q <| th_goal := total_size q / 10 |> in
      Done (p, q <| th_over := u64 (total_size q * 7) / 8 |>)
    end
  else Done (p, q).

(** The loop [read_pkts]: the packets go to [off] and behind. *)
Fixpoint read_pkts (fuel : nat) (m : Z -> llr_seg) (q : queue_handler) (read_seg : Z) (pkts : Z -> Z) (off cnt dequeued : Z) :
    outcome (Z * (Z -> Z) * (Z -> llr_seg) * queue_handler) :=
  match fuel with
  | O => NoFuel
  | S fuel =>
    let '(ret, t, r) := llring_sc_dequeue_burst (seg_ring (m read_seg)) (from pkts off) (u32 cnt) in
    let pkts := from t (- off) in
    let m := set_ring m read_seg r in
    let dequeued := dequeued + ret in
    let q := q <| dequeue_pkts := u32 (dequeue_pkts q + ret) |> in
    if ret <? cnt then
      let read_seg := next (m read_seg) in
      if 0 <? _count_pkts_in_q q then
        read_pkts fuel m (q <| reader_head := read_seg |>) read_seg pkts (off + ret) (cnt - ret) dequeued
      else Done (dequeued, pkts, m, q)
    else Done (dequeued, pkts, m, q)
  end.

Definition recv_packets_vport (fuel : nat) (port : vport) (b : vport_bar) (qid : Z) (pkts : Z -> Z) (cnt : Z) :
    outcome (Z * (Z -> Z) * vport_bar) :=
  let dir := recv_dir port in
  let q := queues b dir qid in
  let read_seg := reader_head q in
  '(p, q) ← extend_queue (pool b) q;
  '(dequeued, pkts, m, q) ← read_pkts fuel (memory p) q read_seg pkts 0 cnt 0;
  Done (dequeued, pkts, set_queue (set_pool b (p <| memory := m |>)) dir qid q).

(** [set_queue_pause_state]. *)
Definition set_queue_pause_state (port : vport) (b : vport_bar) (dir : queue_direction) (qid state : Z) : vport_bar :=
  let dir := if _main port then dir else match dir with INC => OUT | OUT => INC end in
  set_queue b dir qid ((queues b dir qid) <| is_paused := state |>).

End Vport.
