(* ===== verification/VportSpec.v ===== *)
(** * The queues of virtual ports

    What sending and receiving do to the packets of a queue, and the invariant of the whole
    port: the segments are partitioned over the queues and the pool. *)
From S2P Require Import Prelude Chain Llring LlringSpec Vport.
#[local] Open Scope Z_scope.
#[local] Set Default Proof Using "Type*".

Module VportSpec.
Import Llring LlringSpec Vport.

(** ** Circular lists *)

(** From [a] over [l] to [z]. *)
Fixpoint path (m : Z -> llr_seg) (a : Z) (l : list Z) (z : Z) : Prop :=
  match l with
  | [] => next (m a) = z /\ prev (m z) = a
  | b :: l => (next (m a) = b /\ prev (m b) = a) /\ path m b l z
  end.
Definition circle (m : Z -> llr_seg) (l : list Z) : Prop :=
  match l with [] => False | a :: l => path m a l a end.

Lemma path_app m a l b k z : path m a (l ++ b :: k) z <-> path m a l b /\ path m b k z.
Proof. revert a. induction l as [|c l IH]; intros a; cbn [path app]; [|rewrite IH]; tauto. Qed.

Lemma circle_rotate1 m a l : l <> [] -> circle m (a :: l) -> circle m (l ++ [a]).
Proof. destruct l as [|b l]; [done|]. intros _. cbn [circle path app]. intros [Hab H]. apply path_app. by split. Qed.

Lemma circle_rotate m a b : circle m (a ++ b) -> circle m (b ++ a).
Proof.
  revert b. induction a as [|x a IH]; intros b H; [by rewrite app_nil_r|]. destruct (decide (a ++ b = [])) as [E|Hne].
  - apply app_nil in E as [-> ->]. done.
  - apply circle_rotate1 in H; [|done]. rewrite <-app_assoc in H. apply IH in H. by rewrite <-app_assoc in H.
Qed.

Lemma circle_next m pre x post : circle m (pre ++ x :: post) -> next (m x) = default x (head (post ++ pre)).
Proof.
  intros H%circle_rotate. cbn [app] in H. destruct (post ++ pre) as [|b l]; cbn [circle path] in H; cbn; tauto.
Qed.

Lemma path_ext m m' a l z : (forall x, x ∈ a :: l -> next (m' x) = next (m x)) -> (forall x, x ∈ l ++ [z] -> prev (m' x) = prev (m x)) ->
  path m a l z -> path m' a l z.
Proof.
  revert a. induction l as [|b l IH]; intros a Hn Hp; cbn [path].
  - rewrite Hn, Hp by apply list_elem_of_here. done.
  - rewrite Hn, Hp by apply list_elem_of_here. intros [? H]. split; [done|]. apply IH; [| |done].
    + intros x Hx. apply Hn. by apply list_elem_of_further.
    + intros x Hx. apply Hp. by apply list_elem_of_further.
Qed.

Lemma circle_ext m m' l : (forall x, x ∈ l -> next (m' x) = next (m x) /\ prev (m' x) = prev (m x)) -> circle m l -> circle m' l.
Proof.
  destruct l as [|a l]; [done|]. intros H. apply path_ext.
  - intros x Hx. by apply H.
  - intros x Hx. apply H. apply elem_of_app in Hx as [Hx|Hx]; [by apply list_elem_of_further|].
    apply list_elem_of_singleton in Hx as ->. apply list_elem_of_here.
Qed.

(** The links of a node, and what an assignment does to them. *)
Lemma links_set m x v y :
  next (set_next m x v y) = (if decide (y = x) then v else next (m y)) /\ prev (set_next m x v y) = prev (m y) /\
  next (set_prev m x v y) = next (m y) /\ prev (set_prev m x v y) = (if decide (y = x) then v else prev (m y)).
Proof.
  unfold set_next, set_prev, insert, fn_insert. destruct (decide (x = y)) as [->|Hne]; [by rewrite !decide_True|].
  rewrite !decide_False by congruence. done.
Qed.

Lemma rings_set m x v y : seg_ring (set_next m x v y) = seg_ring (m y) /\ seg_ring (set_prev m x v y) = seg_ring (m y).
Proof. unfold set_next, set_prev, insert, fn_insert. by destruct (decide (x = y)) as [->|]. Qed.

Lemma list_add_ring m new prv nxt y : seg_ring (__list_add m new prv nxt y) = seg_ring (m y).
Proof. unfold __list_add. by rewrite !(proj1 (rings_set _ _ _ _)), !(proj2 (rings_set _ _ _ _)), (proj1 (rings_set _ _ _ _)), (proj2 (rings_set _ _ _ _)). Qed.

Lemma list_add_frame m new prv nxt y : y <> new -> y <> prv -> y <> nxt -> __list_add m new prv nxt y = m y.
Proof.
  intros H1 H2 H3. unfold __list_add, set_next, set_prev. rewrite !fn_lookup_insert_ne by congruence. done.
Qed.

Lemma list_add_links m new prv nxt y : new <> prv -> new <> nxt ->
  next (__list_add m new prv nxt y) = (if decide (y = prv) then new else if decide (y = new) then nxt else next (m y)) /\
  prev (__list_add m new prv nxt y) = (if decide (y = new) then prv else if decide (y = nxt) then new else prev (m y)).
Proof.
  intros H1 H2. unfold __list_add. set (m1 := set_prev m nxt new). set (m2 := set_next m1 new nxt). set (m3 := set_prev m2 new prv).
  destruct (links_set m3 prv new y) as (-> & -> & _). unfold m3.
  destruct (links_set m2 new prv y) as (_ & _ & -> & ->). unfold m2. destruct (links_set m1 new nxt y) as (-> & -> & _). unfold m1.
  destruct (links_set m nxt new y) as (_ & _ & -> & ->). split; [done|]. done.
Qed.

(** The last node of a circle is the predecessor of the first; a new node goes between
    them. *)
Lemma path_last m a l z : path m a l z -> prev (m z) = default a (last l).
Proof.
  revert a. induction l as [|b l IH]; intros a; cbn [path]; [tauto|]. intros [_ H]. rewrite (IH _ H). by destruct (last l) eqn:E; rewrite last_cons, E.
Qed.

Lemma circle_add_tail m new a l : circle m (a :: l) -> NoDup (a :: l) -> new ∉ a :: l ->
  circle (list_add_tail m new a) (a :: l ++ [new]).
Proof.
  intros Hc Hd Hnew. unfold list_add_tail. pose proof (path_last m a l a Hc) as Ep. set (p := prev (m a)) in *.
  assert (Hna : new <> a) by (intros ->; apply Hnew, list_elem_of_here).
  assert (Hpl : p ∈ a :: l).
  { rewrite Ep. destruct (last l) as [y|] eqn:E; [|apply list_elem_of_here]. apply list_elem_of_further.
    apply last_Some in E as [k ->]. apply elem_of_app. right. apply list_elem_of_here. }
  assert (Hnp : new <> p) by (intros ->; done).
  set (m' := __list_add m new p a). assert (HL := fun y => list_add_links m new p a y Hnp Hna). fold m' in HL.
  assert (Hlast : next (m' p) = new /\ prev (m' new) = p).
  { destruct (HL p) as [-> _], (HL new) as [_ ->]. by rewrite !decide_True. }
  assert (Hnewl : next (m' new) = a /\ prev (m' a) = new).
  { destruct (HL new) as [-> _], (HL a) as [_ ->]. rewrite decide_False by done. rewrite decide_True by done.
    rewrite decide_False by done. by rewrite decide_True. }
  cbn [circle app]. apply path_app. split; [|by cbn].
  clearbody m' p. clear Hnewl. destruct (decide (l = [])) as [->|Hl].
  - cbn in Ep |- *. subst p. done.
  - destruct (last l) as [y|] eqn:E; [|by apply last_None in E]. cbn in Ep. subst y. apply last_Some in E as [k ->].
    cbn [circle] in Hc. apply path_app in Hc as [Hc _]. apply path_app. split; [|done].
    apply NoDup_cons in Hd as [Had Hd]. apply NoDup_app in Hd as (Hd & Hdis & _).
    assert (Hpk : p ∉ a :: k).
    { intros [->|Hp]%elem_of_cons; [apply Had, elem_of_app; right; apply list_elem_of_here|]. apply (Hdis p Hp), list_elem_of_here. }
    revert Hc. apply path_ext.
    + intros x Hx. destruct (HL x) as [-> _]. rewrite decide_False by (intros ->; done). rewrite decide_False; [done|].
      intros ->. apply Hnew. rewrite app_comm_cons. apply elem_of_app. by left.
    + intros x Hx. destruct (HL x) as [_ ->]. rewrite decide_False; [rewrite decide_False; [done|]|].
      * intros ->. done.
      * intros ->. apply Hnew. by apply list_elem_of_further.
Qed.

(** ** The packets of a queue *)

Definition held (r : llring) : list Z := (fun i => ring r ((cons_tail r + i) mod slots r)) <$> seqZ 0 (u32 (prod_tail r - cons_tail r)).
Definition packets (m : Z -> llr_seg) (x : Z) : list Z := held (seg_ring (m x)).
Definition contents (m : Z -> llr_seg) (l : list Z) : list Z := l ≫= packets m.

Lemma held_ok r q : ring_inv r q -> held r = q.
Proof.
  intros Hi. pose proof (shape_bounds r (ri_shape _ _ Hi)) as Hb. pose proof (sh_mask _ (ri_shape _ _ Hi)) as Em. pose proof (ri_len _ _ Hi) as Hl.
  unfold held. rewrite (ri_tail _ _ Hi), u32_sub_l. replace (cons_tail r + Z.of_nat (length q) - cons_tail r) with (Z.of_nat (length q)) by lia.
  rewrite u32_small by lia. apply list_eq. intros i. rewrite list_lookup_fmap.
  destruct (decide (i < length q)%nat) as [Hlt|Hge].
  - rewrite lookup_seqZ_lt by lia. destruct (lookup_lt_is_Some_2 q i Hlt) as [x Hx]. rewrite Hx. cbn. f_equal. by apply (ri_item _ _ Hi).
  - rewrite lookup_seqZ_ge by lia. rewrite lookup_ge_None_2 by lia. done.
Qed.

(** A ring of the pool. *)
Definition ring_ok (size : Z) (r : llring) : Prop := ring_inv r (held r) /\ slots r = size /\ watermark r <= size.

Lemma ring_ok_bound size r : ring_ok size r -> 0 <= Z.of_nat (length (held r)) <= size - 1.
Proof. intros (Hi & <- & _). pose proof (ri_len _ _ Hi). rewrite (sh_mask _ (ri_shape _ _ Hi)) in *. lia. Qed.

Lemma enqueue_ring size r obj n : ring_ok size r -> 0 <= n < 2147483648 ->
  let '(ret, r') := llring_sp_enqueue_burst r obj n in
  let k := Z.min n (size - 1 - Z.of_nat (length (held r))) in
  Z.land ret 2147483647 = k /\ ring_ok size r' /\ held r' = held r ++ table obj k.
Proof.
  intros (Hi & Hs & Hw) Hn. pose proof (sp_enqueue_ok r _ obj n LLRING_QUEUE_VARIABLE Hi Hn ltac:(lia)) as H.
  unfold llring_sp_enqueue_burst. destruct (sp_do_enqueue r obj n LLRING_QUEUE_VARIABLE) as [ret r'].
  destruct H as (Hi' & Hret & Er). cbn [enqueue_result moved] in Hret. unfold moved in Hi'.
  rewrite (sh_mask _ (ri_shape _ _ Hi)), Hs in Hret, Hi'. destruct Hret as [Hret _]. split; [exact Hret|].
  split; [|by apply held_ok]. split; [|by rewrite Er]. by rewrite (held_ok _ _ Hi').
Qed.

Lemma dequeue_ring size r obj n : ring_ok size r -> 0 <= n ->
  let '(ret, obj', r') := llring_sc_dequeue_burst r obj n in
  let k := Z.min n (Z.of_nat (length (held r))) in
  ret = k /\ ring_ok size r' /\ held r' = drop (Z.to_nat k) (held r) /\ table obj' k = take (Z.to_nat k) (held r) /\
  (forall i, i < 0 \/ k <= i -> obj' i = obj i).
Proof.
  intros (Hi & Hs & Hw) Hn. pose proof (sc_dequeue_ok r _ obj n LLRING_QUEUE_VARIABLE Hi Hn) as H. cbv zeta in H.
  unfold llring_sc_dequeue_burst. destruct (sc_do_dequeue r obj n LLRING_QUEUE_VARIABLE) as [[ret obj'] r'].
  destruct H as (Hi' & Ht & Hout & Hret & Er). unfold moved in *. split; [exact Hret|].
  split; [|split; [by apply held_ok|by split]]. split; [|by rewrite Er]. by rewrite (held_ok _ _ Hi').
Qed.

Lemma ring_ok_count size r : ring_ok size r -> llring_count r = Z.of_nat (length (held r)).
Proof.
  intros (Hi & Hs & Hw). pose proof (shape_bounds r (ri_shape _ _ Hi)) as Hb. pose proof (sh_mask _ (ri_shape _ _ Hi)) as Em.
  pose proof (ri_len _ _ Hi) as Hl. unfold llring_count. rewrite ring_land_mask by apply (ri_shape _ _ Hi).
  rewrite (ri_tail _ _ Hi), u32_sub_l. replace (cons_tail r + Z.of_nat (length (held r)) - cons_tail r) with (Z.of_nat (length (held r))) by lia.
  rewrite u32_small by lia. apply Z.mod_small. lia.
Qed.

Lemma table_split t off a b : 0 <= a -> 0 <= b -> table (from t off) (a + b) = table (from t off) a ++ table (from t (off + a)) b.
Proof.
  intros Ha Hb. unfold table. rewrite seqZ_app by done. rewrite fmap_app. f_equal.
  replace (0 + a) with (a + 0) by lia. rewrite <-fmap_add_seqZ, <-list_fmap_compose. apply list_fmap_ext. intros i x Hx. cbn. unfold from. f_equal. lia.
Qed.

Lemma set_ring_packets m x r y : packets (set_ring m x r) y = if decide (y = x) then held r else packets m y.
Proof.
  unfold packets, set_ring, insert, fn_insert. destruct (decide (x = y)) as [->|]; [by rewrite decide_True|]. by rewrite decide_False by congruence.
Qed.

Lemma set_ring_links m x r y : next (set_ring m x r y) = next (m y) /\ prev (set_ring m x r y) = prev (m y).
Proof. unfold set_ring, insert, fn_insert. by destruct (decide (x = y)) as [->|]. Qed.

Lemma contents_app m a b : contents m (a ++ b) = contents m a ++ contents m b.
Proof. unfold contents. apply bind_app. Qed.
Lemma contents_cons m x l : contents m (x :: l) = packets m x ++ contents m l.
Proof. done. Qed.
Lemma contents_ext m m' l : (forall x, x ∈ l -> packets m' x = packets m x) -> contents m' l = contents m l.
Proof. intros H. induction l as [|x l IH]; [done|]. rewrite !contents_cons, H, IH; [done|..]; set_solver. Qed.
Lemma contents_empty m l : Forall (fun x => packets m x = []) l -> contents m l = [].
Proof. induction 1 as [|x l E _ IH]; [done|]. by rewrite contents_cons, E, IH. Qed.
Lemma contents_set_ring m x r pre post : NoDup (pre ++ x :: post) ->
  contents (set_ring m x r) (pre ++ x :: post) = contents m pre ++ held r ++ contents m post.
Proof.
  intros (_ & Hd & [Hx _]%NoDup_cons)%NoDup_app. rewrite contents_app, contents_cons, set_ring_packets, decide_True by done.
  f_equal; [|f_equal]; apply contents_ext; intros y Hy; rewrite set_ring_packets, decide_False; try done; intros ->; [|done].
  apply (Hd x Hy), list_elem_of_here.
Qed.
Lemma contents_le m size l : 0 < size -> (forall x, x ∈ l -> ring_ok size (seg_ring (m x))) -> Z.of_nat (length (contents m l)) <= (size - 1) * Z.of_nat (length l).
Proof.
  intros Hs H. induction l as [|x l IH]; [cbn; lia|]. rewrite contents_cons, length_app. cbn [length].
  pose proof (ring_ok_bound size _ (H x (list_elem_of_here _ _))) as Hb. unfold packets.
  specialize (IH (fun y Hy => H y (list_elem_of_further _ _ _ Hy))). lia.
Qed.

(** ** The invariant of a queue *)

(** The segments [l], from the one that is read, have [size] slots each. *)
Record queue_inv (m : Z -> llr_seg) (size : Z) (q : queue_handler) (l : list Z) : Prop := {
  qi_size : 2 <= size <= 32768;
  qi_head : head l = Some (reader_head q);
  qi_nodup : NoDup l;
  qi_circle : circle m l;
  qi_writer : writer_head q ∈ l;
  qi_rings x : x ∈ l -> ring_ok size (seg_ring (m x));
  qi_count : _count_pkts_in_q q = Z.of_nat (length (contents m l));
  qi_total : total_size q = size * Z.of_nat (length l);
  qi_bound : total_size q < QUEUE_LENGTH_UPPER_BOUND + size;
  qi_over : th_over q = total_size q * 7 / 8
}.

(** The writer is behind all packets; and its next packets go behind them, too. *)
Definition in_order (m : Z -> llr_seg) (q : queue_handler) (l : list Z) : Prop :=
  exists pre post, l = pre ++ writer_head q :: post /\ Forall (fun x => packets m x = []) post /\
    (pre = [] \/ packets m (writer_head q) <> []).
Definition appends (m : Z -> llr_seg) (q : queue_handler) : Prop :=
  writer_head q = reader_head q \/ packets m (reader_head q) <> [].

Lemma contents_small m size q l : queue_inv m size q l -> Z.of_nat (length (contents m l)) < 40000.
Proof.
  intros Hi. pose proof (qi_size _ _ _ _ Hi). pose proof (contents_le m size l ltac:(lia) (qi_rings _ _ _ _ Hi)) as H1.
  pose proof (qi_total _ _ _ _ Hi). pose proof (qi_bound _ _ _ _ Hi). unfold QUEUE_LENGTH_UPPER_BOUND in *. lia.
Qed.

(** A ring of a segment is exchanged, and the counters with it. *)
Lemma queue_inv_ring m size q q' l x r : queue_inv m size q l -> ring_ok size r -> x ∈ l ->
  reader_head q' = reader_head q -> writer_head q' ∈ l -> total_size q' = total_size q -> th_over q' = th_over q ->
  _count_pkts_in_q q' = Z.of_nat (length (contents (set_ring m x r) l)) ->
  queue_inv (set_ring m x r) size q' l.
Proof.
  intros [] Hr Hx E1 Hw E2 E3 Hc. constructor; try done; rewrite ?E1, ?E2, ?E3; try done.
  - revert qi_circle0. apply circle_ext. intros y _. apply set_ring_links.
  - intros y Hy. unfold set_ring, insert, fn_insert. destruct (decide (x = y)) as [->|]; [done|]. by apply qi_rings0.
Qed.

(** ** Sending *)

(** The counter of a queue when [k] packets are added, or removed. *)
Lemma count_enqueue q n k : _count_pkts_in_q q = n -> 0 <= n + k < 4294967296 ->
  _count_pkts_in_q (q <| enqueue_pkts := u32 (enqueue_pkts q + k) |>) = n + k.
Proof. unfold _count_pkts_in_q. cbn. intros H Hk. rewrite u32_sub_l. wrap_lia. Qed.
Lemma count_dequeue q n k : _count_pkts_in_q q = n -> 0 <= n - k < 4294967296 ->
  _count_pkts_in_q (q <| dequeue_pkts := u32 (dequeue_pkts q + k) |>) = n - k.
Proof. unfold _count_pkts_in_q. cbn. intros H Hk. rewrite u32_sub_r. wrap_lia. Qed.

(** One round of the loop. *)
Lemma send_step m size q l pkts off cnt : queue_inv m size q l -> 0 <= cnt < 2147483648 ->
  let w := writer_head q in
  let k := Z.min cnt (size - 1 - Z.of_nat (length (packets m w))) in
  exists ret r, llring_sp_enqueue_burst (seg_ring (m w)) (from pkts off) (u32 cnt) = (ret, r) /\
  Z.land ret 2147483647 = k /\ 0 <= k <= cnt /\
  packets (set_ring m w r) w = packets m w ++ table (from pkts off) k /\
  (forall v, v ∈ l -> queue_inv (set_ring m w r) size (q <| enqueue_pkts := u32 (enqueue_pkts q + k) |> <| writer_head := v |>) l) /\
  contents (set_ring m w r) l ≡ₚ contents m l ++ table (from pkts off) k /\
  (forall pre post, l = pre ++ w :: post -> Forall (fun x => packets m x = []) post ->
    contents (set_ring m w r) l = contents m l ++ table (from pkts off) k).
Proof.
  intros Hi Hc w k. pose proof (qi_rings _ _ _ _ Hi w (qi_writer _ _ _ _ Hi)) as Hr. pose proof (ring_ok_bound _ _ Hr) as Hb.
  pose proof (enqueue_ring size _ (from pkts off) (u32 cnt) Hr) as H. rewrite u32_small in H |- * by lia. specialize (H Hc).
  destruct (llring_sp_enqueue_burst _ _ _) as [ret r]. cbv zeta in H. fold (packets m w) in H, Hb. fold k in H.
  destruct H as (Hret & Hr' & Hh). exists ret, r. assert (Hk : 0 <= k <= cnt) by lia.
  assert (Hin : forall pre post, l = pre ++ w :: post -> contents (set_ring m w r) l = contents m pre ++ (packets m w ++ table (from pkts off) k) ++ contents m post).
  { intros pre post ->. rewrite contents_set_ring by apply Hi. by rewrite Hh. }
  assert (Hperm : contents (set_ring m w r) l ≡ₚ contents m l ++ table (from pkts off) k).
  { destruct (list_elem_of_split l w) as (pre & post & E); [apply Hi|]. rewrite (Hin _ _ E), E, contents_app, contents_cons.
    rewrite <-!app_assoc. do 2 f_equiv. apply Permutation_app_comm. }
  split; [done|]. split; [done|]. split; [done|]. split; [by rewrite set_ring_packets, decide_True|]. split; [|split; [done|]].
  - intros v Hv. eapply queue_inv_ring; try done; [apply Hi|]. pose proof (contents_small _ _ _ _ Hi) as Hsm.
    rewrite Hperm, length_app, Nat2Z.inj_add, table_length by lia.
    change (_count_pkts_in_q (q <| enqueue_pkts := u32 (enqueue_pkts q + k) |> <| writer_head := v |>))
      with (_count_pkts_in_q (q <| enqueue_pkts := u32 (enqueue_pkts q + k) |>)).
    apply count_enqueue; [apply Hi|lia].
  - intros pre post E He. rewrite (Hin _ _ E), E, contents_app, contents_cons, (contents_empty m post), !app_nil_r by done.
    by rewrite app_assoc.
Qed.

Lemma queue_same_writer q : q <| writer_head := writer_head q |> = q.
Proof. by destruct q. Qed.

(** What sending promises about the queue: the packets [0..ret) are added. *)
Definition sent_ok (size : Z) (l : list Z) (m : Z -> llr_seg) (q : queue_handler) (t : Z -> Z) (cnt : Z) (ret : Z)
    (m' : Z -> llr_seg) (q' : queue_handler) : Prop :=
  queue_inv m' size q' l /\ 0 <= ret <= cnt /\ contents m' l ≡ₚ contents m l ++ table t ret /\
  reader_head q' = reader_head q /\ (forall y, y ∉ l -> m' y = m y) /\
  (forall pre post, l = pre ++ writer_head q :: post -> Forall (fun x => packets m x = []) post -> appends m q ->
    pre = [] \/ packets m (writer_head q) <> [] \/ 0 < cnt ->
    contents m' l = contents m l ++ table t ret /\ in_order m' q' l /\ appends m' q' /\
    ret = Z.min cnt ((size - 1) * Z.of_nat (S (length post)) - Z.of_nat (length (packets m (writer_head q))))).

Lemma empty_stays m x r l : x ∉ l -> Forall (fun y => packets m y = []) l -> Forall (fun y => packets (set_ring m x r) y = []) l.
Proof.
  intros Hx He. apply Forall_forall. intros y Hy. rewrite set_ring_packets, decide_False by (intros ->; done).
  by apply (proj1 (Forall_forall _ _) He).
Qed.

Section Order.
Variables (m : Z -> llr_seg) (q : queue_handler) (l : list Z) (r : llring).
Hypothesis Hd : NoDup l.
Let w := writer_head q.

Lemma post_stays pre post : l = pre ++ w :: post -> Forall (fun x => packets m x = []) post ->
  Forall (fun x => packets (set_ring m w r) x = []) post.
Proof using Hd.
  intros E He. rewrite E in Hd. apply NoDup_app in Hd as (_ & _ & [Hw _]%NoDup_cons).
  by apply empty_stays.
Qed.

Lemma appends_stays q1 : appends m q -> writer_head q1 = w -> reader_head q1 = reader_head q -> appends (set_ring m w r) q1.
Proof.
  unfold appends. intros H -> ->. fold w in H. destruct (decide (w = reader_head q)) as [E|Hne]; [by left|].
  right. destruct H as [H|H]; [done|]. rewrite set_ring_packets, decide_False; [done|congruence].
Qed.

(** The next segment, when it is empty: it is behind the writer. *)
Lemma next_behind pre post : l = pre ++ w :: post -> head l = Some (reader_head q) -> circle m l -> appends m q ->
  next (m w) <> w -> packets (set_ring m w r) w <> [] -> packets (set_ring m w r) (next (m w)) = [] ->
  exists post', post = next (m w) :: post' /\ packets (set_ring m w r) (reader_head q) <> [].
Proof using Hd.
  intros E Hh Hc Ha Hne Hw He. rewrite E in Hh, Hc, Hd. pose proof (circle_next _ _ _ _ Hc) as En.
  assert (HR : packets (set_ring m w r) (reader_head q) <> []).
  { unfold appends in Ha. fold w in Ha. destruct (decide (reader_head q = w)) as [->|Hn]; [done|].
    rewrite set_ring_packets, decide_False by done. by destruct Ha. }
  destruct post as [|y post]; [|exists post; split; [by rewrite En|done]].
  exfalso. cbn [app] in En. destruct pre as [|a pre]; cbn in En; [done|]. cbn in Hh. injection Hh as ->. by rewrite En in He.
Qed.
End Order.

Lemma send_pkts_ok size l pkts : forall fuel m q off cnt enq, queue_inv m size q l -> 0 <= cnt < 2147483648 ->
  (Z.to_nat cnt + 1 < fuel \/ packets m (writer_head q) = [] /\ Z.to_nat cnt < fuel)%nat ->
  exists ret m' q', send_pkts fuel m q (writer_head q) pkts off cnt enq = Done (enq + ret, m', q') /\
    sent_ok size l m q (from pkts off) cnt ret m' q'.
Proof.
  induction fuel as [|fuel IH]; intros m q off cnt enq Hi Hc Hf; [lia|]. cbn [send_pkts].
  destruct (send_step m size q l pkts off cnt Hi Hc) as (rt & r & E & Hret & Hk & Hw & Hi1 & Hp & Hord). rewrite E, Hret.
  set (w := writer_head q) in *. set (k := Z.min cnt _) in *. set (m1 := set_ring m w r) in *. rewrite (proj1 (set_ring_links m w r w) : next (m1 w) = next (m w)).
  pose proof (qi_size _ _ _ _ Hi) as Hs. pose proof (ring_ok_bound _ _ (qi_rings _ _ _ _ Hi w (qi_writer _ _ _ _ Hi))) as Hb. fold (packets m w) in Hb.
  assert (Hframe : forall y, y ∉ l -> m1 y = m y).
  { intros y Hy. unfold m1, set_ring. apply fn_lookup_insert_ne. intros <-. apply Hy, Hi. }
  set (q1 := q <| enqueue_pkts := u32 (enqueue_pkts q + k) |>) in *.
  assert (Hstop : k = cnt \/ (forall pre post, l = pre ++ w :: post -> Forall (fun x => packets m x = []) post -> appends m q -> post = []) ->
    exists ret m' q', Done (enq + k, m1, q1) = Done (enq + ret, m', q') /\ sent_ok size l m q (from pkts off) cnt ret m' q').
  { intros Hst. exists k, m1, q1. split; [done|]. split; [rewrite <-(queue_same_writer q1); apply Hi1, Hi|]. split; [done|]. split; [done|].
    split; [done|]. split; [done|]. intros pre post El He Ha Hact. split; [by eapply Hord|]. split.
    { exists pre, post. split; [done|]. split; [by apply (post_stays m q l r (qi_nodup _ _ _ _ Hi) pre)|].
      destruct Hact as [Hact|Hact]; [by left|right]. intros E0. change (packets m1 w = []) in E0. rewrite E0 in Hw. symmetry in Hw.
      apply app_nil in Hw as [E1 E2]. pose proof (table_length (from pkts off) k ltac:(lia)) as Hl. rewrite E2 in Hl. cbn in Hl.
      destruct Hact as [Hact|Hact]; [by fold w in Hact|]. unfold k in Hl. rewrite E1 in Hl. cbn [length] in Hl. lia. }
    split; [by apply appends_stays|]. fold w. destruct Hst as [Hst|Hst]; [|rewrite (Hst _ _ El He Ha); cbn [length]; lia].
    rewrite Nat2Z.inj_succ, Z.mul_succ_r. pose proof (Z.mul_nonneg_nonneg (size - 1) (Z.of_nat (length post))). lia. }
  destruct (Z.ltb_spec k cnt) as [Hlt|Hge]; [|apply Hstop; left; lia].
  assert (Hfull : packets m1 w <> []).
  { intros E0. pose proof (f_equal length Hw) as El. rewrite E0, length_app in El. pose proof (table_length (from pkts off) k ltac:(lia)). cbn [length] in El. lia. }
  destruct (Z.eqb_spec (next (m w)) w) as [Eself|Hself]; cbn [negb andb].
  { apply Hstop. right. intros pre post El He _. pose proof (qi_circle _ _ _ _ Hi) as Hci. rewrite El in Hci. apply circle_next in Hci.
    destruct post as [|y post]; [done|]. exfalso. cbn in Hci. rewrite Eself in Hci. pose proof (qi_nodup _ _ _ _ Hi) as Hd. rewrite El, <-Hci in Hd.
    apply NoDup_app in Hd as (_ & _ & [Hd _]%NoDup_cons). apply Hd, list_elem_of_here. }
  assert (Hnext : next (m w) ∈ l).
  { destruct (list_elem_of_split l w) as (pre & post & El); [apply Hi|]. pose proof (qi_circle _ _ _ _ Hi) as Hci. rewrite El in Hci.
    rewrite (circle_next _ _ _ _ Hci), El. destruct (head (post ++ pre)) as [y|] eqn:Ey; cbn; [|set_solver].
    apply head_Some_elem_of in Ey. set_solver. }
  specialize (Hi1 _ Hnext). rewrite (ring_ok_count _ _ (qi_rings _ _ _ _ Hi1 _ Hnext)). fold (packets m1 (next (m w))).
  destruct (Z.eqb_spec (Z.of_nat (length (packets m1 (next (m w))))) 0) as [Hz|Hnz].
  - assert (He : packets m1 (next (m w)) = []) by (apply length_zero_iff_nil; lia).
    destruct (IH m1 _ (off + k) (cnt - k) (enq + k) Hi1) as (r2 & m' & q' & E2 & Hi' & Hr2 & Hp2 & Er & Hfr & Hfifo); [lia| |].
    { right. split; [done|]. destruct Hf as [Hf|[E0 Hf]]; [lia|]. unfold k in *. rewrite E0 in *. cbn [length] in *. lia. }
    exists (k + r2), m', q'. rewrite Z.add_assoc. split; [exact E2|]. split; [done|]. split; [lia|]. split.
    { rewrite Hp2, Hp, table_split, app_assoc by lia. done. }
    split; [done|]. split; [intros y Hy; by rewrite Hfr, Hframe|]. intros pre post El Hpo Ha _.
    destruct (next_behind m q l r (qi_nodup _ _ _ _ Hi) pre post El (qi_head _ _ _ _ Hi) (qi_circle _ _ _ _ Hi) Ha Hself Hfull He) as (post' & Epo & HR).
    pose proof (post_stays m q l r (qi_nodup _ _ _ _ Hi) pre post El Hpo) as Hpo1. rewrite Epo in Hpo1, El. apply Forall_cons in Hpo1 as [_ Hpo1].
    destruct (Hfifo (pre ++ [w]) post') as (Ec & Ho & Ha' & Em); [rewrite <-app_assoc; exact El|done|by right|right; right; lia|].
    split; [rewrite Ec, (Hord pre post), table_split, app_assoc by (done || lia || by rewrite Epo); done|]. split; [done|]. split; [done|].
    cbn [writer_head setter] in Em. rewrite He in Em. rewrite Epo. fold w. cbn [length] in Em |- *. lia.
  - apply Hstop. right. intros pre post El Hpo Ha. pose proof (qi_circle _ _ _ _ Hi) as Hci. rewrite El in Hci. apply circle_next in Hci.
    destruct post as [|y post]; [done|]. exfalso. cbn in Hci. apply Hnz.
    pose proof (post_stays m q l r (qi_nodup _ _ _ _ Hi) pre _ El Hpo) as Hpo1. apply Forall_cons in Hpo1 as [Hy _]. change (packets m1 y = []) in Hy.
    by rewrite Hci, Hy.
Qed.

(** ** Receiving *)

(** One round of the loop. *)
Lemma recv_step m size q x rest pkts off cnt : queue_inv m size q (x :: rest) -> 0 <= cnt < 2147483648 ->
  let k := Z.min cnt (Z.of_nat (length (packets m x))) in
  exists t r, llring_sc_dequeue_burst (seg_ring (m x)) (from pkts off) (u32 cnt) = (k, t, r) /\
  held r = drop (Z.to_nat k) (packets m x) /\
  queue_inv (set_ring m x r) size (q <| dequeue_pkts := u32 (dequeue_pkts q + k) |>) (x :: rest) /\
  contents (set_ring m x r) (x :: rest) = drop (Z.to_nat k) (contents m (x :: rest)) /\
  table (from (from t (- off)) off) k = take (Z.to_nat k) (contents m (x :: rest)) /\
  (forall i, i < off \/ off + k <= i -> from t (- off) i = pkts i).
Proof.
  intros Hi Hc k. pose proof (qi_rings _ _ _ _ Hi x (list_elem_of_here _ _)) as Hr.
  pose proof (dequeue_ring size _ (from pkts off) (u32 cnt) Hr) as H. rewrite u32_small in H |- * by lia. specialize (H ltac:(lia)).
  destruct (llring_sc_dequeue_burst _ _ _) as [[ret t] r]. cbv zeta in H. fold (packets m x) in H. fold k in H.
  destruct H as (-> & Hr' & Hh & Ht & Hout). exists t, r. split; [done|]. split; [done|].
  assert (Hcon : contents (set_ring m x r) (x :: rest) = drop (Z.to_nat k) (contents m (x :: rest))).
  { rewrite (contents_set_ring m x r [] rest (qi_nodup _ _ _ _ Hi) : contents _ (x :: rest) = _). rewrite contents_cons, Hh, drop_app_le by lia. done. }
  split; [|split; [done|split]].
  - eapply queue_inv_ring; try done; [apply list_elem_of_here|apply Hi|]. pose proof (contents_small _ _ _ _ Hi) as Hsm.
    pose proof (contents_cons m x rest) as Ec. apply (f_equal length) in Ec. rewrite length_app in Ec.
    rewrite Hcon, length_drop, Nat2Z.inj_sub, Z2Nat.id by lia. apply count_dequeue; [apply Hi|lia].
  - rewrite contents_cons, take_app_le, <-Ht by lia. unfold table. apply list_fmap_ext. intros i y Hy. unfold from. f_equal. lia.
  - intros i Hi'. unfold from. rewrite Hout by lia. unfold from. f_equal. lia.
Qed.

(** The reader moves on from an empty segment. *)
Lemma reader_moves m size q x y rest : queue_inv m size q (x :: y :: rest) -> packets m x = [] ->
  next (m x) = y /\ queue_inv m size (q <| reader_head := y |>) ((y :: rest) ++ [x]) /\
  contents m ((y :: rest) ++ [x]) = contents m (x :: y :: rest).
Proof.
  intros Hi He. assert (Ec : contents m ((y :: rest) ++ [x]) = contents m (x :: y :: rest)).
  { rewrite contents_app, !contents_cons, He. cbn. by rewrite app_nil_r. }
  split; [exact (circle_next m [] x (y :: rest) (qi_circle _ _ _ _ Hi))|]. split; [|done].
  assert (Hp : (y :: rest) ++ [x] ≡ₚ x :: y :: rest) by (symmetry; apply Permutation_cons_append).
  destruct Hi. constructor; try done.
  - by rewrite Hp.
  - by apply circle_rotate1.
  - by rewrite Hp.
  - intros z. rewrite Hp. apply qi_rings0.
  - by rewrite Ec.
  - by rewrite Hp.
Qed.

Lemma in_order_moves m q x rest : in_order m q (x :: rest) -> NoDup (x :: rest) -> packets m x = [] -> contents m (x :: rest) <> [] ->
  in_order m (q <| reader_head := next (m x) |>) (rest ++ [x]).
Proof.
  intros (pre & post & E & He & Ha) Hd Hx Hc. destruct pre as [|a pre].
  - injection E as -> ->. destruct Hc. by rewrite contents_cons, Hx, contents_empty.
  - injection E as -> ->. destruct Ha as [Ha|Ha]; [done|]. exists pre, (post ++ [a]). split; [by rewrite <-app_assoc|].
    split; [|by right]. apply Forall_app. split; [done|]. by apply Forall_singleton.
Qed.

Lemma in_order_reads m q x rest r : in_order m q (x :: rest) -> NoDup (x :: rest) ->
  (packets m x = [] -> held r = []) -> in_order (set_ring m x r) q (x :: rest).
Proof.
  intros (pre & post & E & He & Ha) Hd Hr. rewrite E in Hd. exists pre, post. split; [done|].
  destruct pre as [|a pre].
  - injection E as -> ->. apply NoDup_cons in Hd as [Hd _]. split; [by apply empty_stays|by left].
  - injection E as -> ->. apply NoDup_cons in Hd as [Hd _]. split; [apply empty_stays; [set_solver|done]|].
    right. destruct Ha as [Ha|Ha]; [done|]. rewrite set_ring_packets, decide_False by set_solver. done.
Qed.

(** What receiving promises: the packets are taken from the front. *)
Definition received_ok (size : Z) (l : list Z) (m : Z -> llr_seg) (q : queue_handler) (pkts : Z -> Z) (off cnt ret : Z)
    (pkts' : Z -> Z) (m' : Z -> llr_seg) (q' : queue_handler) (l' : list Z) : Prop :=
  queue_inv m' size q' l' /\ l' ≡ₚ l /\ ret = Z.min cnt (Z.of_nat (length (contents m l))) /\
  contents m' l' = drop (Z.to_nat ret) (contents m l) /\ table (from pkts' off) ret = take (Z.to_nat ret) (contents m l) /\
  (forall i, i < off \/ off + ret <= i -> pkts' i = pkts i) /\ (forall y, y ∉ l -> m' y = m y) /\
  (in_order m q l -> in_order m' q' l' /\ (ret < cnt -> writer_head q' = reader_head q')).

(** The loop stops: the packets are there, or the queue is empty. *)
Lemma recv_stop size m q q1 x l pkts pkts1 off cnt k r : let m1 := set_ring m x r in
  k = Z.min cnt (Z.of_nat (length (packets m x))) -> queue_inv m1 size q1 (x :: l) -> reader_head q1 = x ->
  NoDup (x :: l) -> held r = drop (Z.to_nat k) (packets m x) -> writer_head q1 = writer_head q ->
  contents m1 (x :: l) = drop (Z.to_nat k) (contents m (x :: l)) ->
  table (from pkts1 off) k = take (Z.to_nat k) (contents m (x :: l)) -> (forall i, i < off \/ off + k <= i -> pkts1 i = pkts i) ->
  k = cnt \/ contents m1 (x :: l) = [] -> received_ok size (x :: l) m q pkts off cnt k pkts1 m1 q1 (x :: l).
Proof.
  intros m1 Ek Hi1 ER Hd Hh Ew Hcon Ht Hout Hst. pose proof (f_equal length Hcon) as El. rewrite length_drop in El.
  pose proof (f_equal length (contents_cons m x l)) as El2. rewrite length_app in El2.
  assert (Ek2 : k = Z.min cnt (Z.of_nat (length (contents m (x :: l))))).
  { destruct Hst as [Hst|Hst]; [lia|]. rewrite Hst in El. cbn [length] in El. lia. }
  assert (Hframe : forall y, y ∉ x :: l -> m1 y = m y).
  { intros y Hy. unfold m1, set_ring. apply fn_lookup_insert_ne. intros <-. apply Hy, list_elem_of_here. }
  assert (Hord : in_order m q (x :: l) -> in_order m1 q1 (x :: l)).
  { intros H. unfold in_order. rewrite Ew. apply (in_order_reads m q x l r H Hd). intros E0. by rewrite Hh, E0, drop_nil. }
  split_and!; try done. intros Ho. split; [by apply Hord|]. intros Hlt. destruct Hst as [Hst|Hst]; [lia|].
  apply Hord in Ho as (pre & post & Eo & _ & [->|Ha]); [cbn in Eo; injection Eo as Eo _; congruence|].
  destruct Ha. rewrite Eo, contents_app, contents_cons in Hst. apply app_nil in Hst as [_ Hst]. by apply app_nil in Hst as [Hst _].
Qed.

(** The loop goes on behind a first round that has taken [k] packets. *)
Lemma recv_continue size m m1 q q1 l l1 pkts pkts1 off cnt k ret pkts' m' q' l' :
  received_ok size l1 m1 q1 pkts1 (off + k) (cnt - k) ret pkts' m' q' l' ->
  l1 ≡ₚ l -> 0 <= k <= cnt -> k <= Z.of_nat (length (contents m l)) -> contents m1 l1 = drop (Z.to_nat k) (contents m l) ->
  table (from pkts1 off) k = take (Z.to_nat k) (contents m l) -> (forall i, i < off \/ off + k <= i -> pkts1 i = pkts i) ->
  (forall y, y ∉ l -> m1 y = m y) -> (in_order m q l -> in_order m1 q1 l1) ->
  received_ok size l m q pkts off cnt (k + ret) pkts' m' q' l'.
Proof.
  intros (Hi' & Hl' & Hret & Hcon' & Ht' & Hout' & Hfr' & Ho') Hl Hk Hkl Hcon Ht Hout Hfr Ho.
  rewrite Hcon, length_drop in Hret. assert (Hr0 : 0 <= ret) by lia. split; [done|]. split; [by rewrite Hl'|]. split; [lia|].
  rewrite Hcon, ?drop_drop in *. split; [rewrite Hcon'; f_equal; lia|]. split; [|split; [|split]].
  - rewrite table_split, Ht' by lia. rewrite Z2Nat.inj_add by lia. rewrite <-take_take_drop. f_equal. rewrite <-Ht.
    unfold table. apply list_fmap_ext. intros i y Hy. apply lookup_seqZ in Hy. unfold from. apply Hout'. lia.
  - intros i Hi. rewrite Hout', Hout by lia. done.
  - intros y Hy. rewrite Hfr', Hfr by (rewrite ?Hl; done). done.
  - intros H. apply Ho in H. destruct (Ho' H) as [H1 H2]. split; [done|]. intros Hlt. apply H2. lia.
Qed.

Lemma read_pkts_ok size : forall fuel m q todo rest pkts off cnt deq, queue_inv m size q (todo ++ rest) -> 0 <= cnt < 2147483648 ->
  todo <> [] -> Forall (fun x => packets m x = []) rest -> (length todo <= fuel)%nat ->
  exists ret pkts' m' q' l', read_pkts fuel m q (reader_head q) pkts off cnt deq = Done (deq + ret, pkts', m', q') /\
    received_ok size (todo ++ rest) m q pkts off cnt ret pkts' m' q' l'.
Proof.
  induction fuel as [|fuel IH]; intros m q [|x todo] rest pkts off cnt deq Hi Hc Hne Hrest Hf; try done; [cbn in Hf; lia|].
  cbn [app] in Hi |- *. assert (ER : reader_head q = x) by (pose proof (qi_head _ _ _ _ Hi) as E; by injection E as ->).
  cbn [read_pkts]. rewrite ER. destruct (recv_step m size q x (todo ++ rest) pkts off cnt Hi Hc) as (t & r & E & Hh & Hi1 & Hcon & Ht & Hout). rewrite E.
  set (k := Z.min cnt _) in *. set (q1 := q <| dequeue_pkts := _ |>) in *.
  pose proof (f_equal length (contents_cons m x (todo ++ rest))) as Elen. rewrite length_app in Elen.
  assert (Hstop : k = cnt \/ contents (set_ring m x r) (x :: todo ++ rest) = [] -> exists ret pkts' m' q' l',
    Done (deq + k, from t (- off), set_ring m x r, q1) = Done (deq + ret, pkts', m', q') /\ received_ok size (x :: todo ++ rest) m q pkts off cnt ret pkts' m' q' l').
  { intros Hst. do 5 eexists. split; [done|]. apply recv_stop; try done. apply Hi. }
  rewrite (qi_count _ _ _ _ Hi1). destruct (Z.ltb_spec k cnt) as [Hlt|Hge]; [|apply Hstop; left; lia].
  destruct (Z.ltb_spec 0 (Z.of_nat (length (contents (set_ring m x r) (x :: todo ++ rest))))) as [Hpos|Hz]; [|apply Hstop; right; apply length_zero_iff_nil; lia].
  clear Hstop. pose proof (qi_nodup _ _ _ _ Hi) as Hd.
  assert (Hx0 : packets (set_ring m x r) x = []) by (rewrite set_ring_packets, decide_True, Hh by done; apply drop_ge; lia).
  assert (Hrest1 : Forall (fun y => packets (set_ring m x r) y = []) (rest ++ [x])).
  { apply Forall_app. split; [|by apply Forall_singleton].
    apply empty_stays; [|done]. clear - Hd. apply NoDup_cons in Hd as [Hd _]. set_solver. }
  destruct todo as [|y todo].
  { exfalso. rewrite contents_cons, Hx0 in Hpos. apply Forall_app in Hrest1 as [Hr1 _]. cbn [app] in Hpos. by rewrite contents_empty in Hpos. }
  destruct (reader_moves _ size q1 x y (todo ++ rest) Hi1 Hx0) as (En & Hi2 & Ec2). rewrite En.
  rewrite app_comm_cons, <-app_assoc in Hi2, Ec2.
  destruct (IH (set_ring m x r) _ (y :: todo) (rest ++ [x]) (from t (- off)) (off + k) (cnt - k) (deq + k) Hi2)
    as (ret & pkts' & m' & q' & l' & E2 & Hrec); [lia|done|done|cbn in Hf |- *; lia|].
  do 5 eexists. rewrite Z.add_assoc. split; [exact E2|]. eapply recv_continue; [exact Hrec|..]; try done; try lia.
  - rewrite app_assoc. symmetry. apply Permutation_cons_append.
  - by rewrite Ec2.
  - intros z Hz. unfold set_ring. apply fn_lookup_insert_ne. intros <-. apply Hz, list_elem_of_here.
  - intros Ho. rewrite app_assoc. pose proof (in_order_moves (set_ring m x r) q1 x ((y :: todo) ++ rest)) as Hm. rewrite En in Hm. apply Hm; try done.
    + apply (in_order_reads m q x _ r Ho Hd). intros E0. by rewrite Hh, E0, drop_nil.
    + intros E0. by rewrite E0 in Hpos.
Qed.

(** ** Extending a queue *)

Lemma extend_step m size q l new : queue_inv m size q l -> new ∉ l -> ring_ok size (seg_ring (m new)) -> packets m new = [] ->
  total_size q < QUEUE_LENGTH_UPPER_BOUND ->
  let m' := list_add_tail m new (reader_head q) in
  let q' := q <| total_size := u64 (total_size q + size) |> in
  let q' := q' <| th_goal := total_size q' / 10 |> in
  let q' := q' <| th_over := u64 (total_size q' * 7) / 8 |> in
  queue_inv m' size q' (l ++ [new]) /\ contents m' (l ++ [new]) = contents m l /\ (forall y, y ∉ l ++ [new] -> m' y = m y) /\
  (in_order m q l -> in_order m' q' (l ++ [new])).
Proof.
  intros Hi Hnew Hr He Hb m'. cbv zeta. set (q' := _ <| th_over := _ |>).
  assert (Hpk : forall y, packets m' y = packets m y) by (intros y; unfold packets, m', list_add_tail; by rewrite list_add_ring).
  assert (Ec : contents m' (l ++ [new]) = contents m l).
  { rewrite contents_app, contents_cons, Hpk, He, app_nil_r. by apply contents_ext. }
  pose proof (qi_size _ _ _ _ Hi) as Hs. pose proof (qi_total _ _ _ _ Hi) as Ht. unfold QUEUE_LENGTH_UPPER_BOUND in *.
  assert (Ht0 : 0 <= total_size q) by lia. split; [|split; [done|split]].
  - destruct Hi. constructor; cbn; unfold QUEUE_LENGTH_UPPER_BOUND in *; try done.
    + destruct l; [done|]. by injection qi_head0 as ->.
    + apply NoDup_app. split; [done|]. split; [set_solver|apply NoDup_singleton].
    + destruct l as [|a l]; [done|]. injection qi_head0 as ->. by apply circle_add_tail.
    + set_solver.
    + intros x Hx. unfold m', list_add_tail. rewrite list_add_ring. apply elem_of_app in Hx as [Hx|Hx%list_elem_of_singleton]; [by apply qi_rings0|by subst].
    + by rewrite Ec.
    + rewrite u64_small, length_app by lia. cbn [length]. lia.
    + rewrite u64_small by lia. lia.
    + rewrite (u64_small (total_size q + size)), u64_small by lia. done.
  - intros y Hy. apply list_add_frame; [set_solver|..].
    + intros ->. apply Hy. pose proof (qi_circle _ _ _ _ Hi) as Hc. pose proof (qi_head _ _ _ _ Hi) as Hh. destruct l as [|a l]; [done|].
      injection Hh as ->. cbn [circle] in Hc. rewrite (path_last _ _ _ _ Hc). destruct (last l) as [z|] eqn:E; cbn; [|set_solver].
      apply last_Some in E as [k ->]. set_solver.
    + intros ->. pose proof (qi_head _ _ _ _ Hi) as Hh. destruct l; [done|]. injection Hh as ->. set_solver.
  - intros (pre & post & E & Hp & Ha). exists pre, (post ++ [new]). change (writer_head q') with (writer_head q).
    split; [by rewrite E, <-app_assoc|]. split; [|by rewrite Hpk]. apply Forall_app. split.
    + eapply Forall_impl; [exact Hp|]. intros y. by rewrite Hpk.
    + apply Forall_singleton. by rewrite Hpk.
Qed.

(** ** The whole port *)

(** The segments of the queues, and those in the pool: [ls] has the segments of each
    queue that has been set up. *)
Record bar_inv (b : vport_bar) (ls : queue_direction -> Z -> list Z) : Prop := {
  bi_queue d i : ls d i <> [] -> queue_inv (memory (pool b)) (llr_size (pool b)) (queues b d i) (ls d i);
  bi_disjoint d i d' i' x : x ∈ ls d i -> x ∈ ls d' i' -> d = d' /\ i = i';
  bi_stack : NoDup (ptr_stack (pool b));
  bi_free x : x ∈ ptr_stack (pool b) -> ring_ok (llr_size (pool b)) (seg_ring (memory (pool b) x)) /\
    packets (memory (pool b)) x = [] /\ forall d i, x ∉ ls d i;
  bi_all x : 0 <= x < num_llrings (pool b) -> x ∈ ptr_stack (pool b) \/ exists d i, x ∈ ls d i
}.

Definition queued (b : vport_bar) (ls : queue_direction -> Z -> list Z) (d : queue_direction) (i : Z) : list Z :=
  contents (memory (pool b)) (ls d i).

Lemma queue_inv_ext m m' size q l : (forall x, x ∈ l -> m' x = m x) -> queue_inv m size q l -> queue_inv m' size q l.
Proof.
  intros H []. assert (Ec : contents m' l = contents m l) by (apply contents_ext; intros x Hx; unfold packets; by rewrite H).
  constructor; try done.
  - revert qi_circle0. apply circle_ext. intros x Hx. by rewrite H.
  - intros x Hx. rewrite H by done. by apply qi_rings0.
  - by rewrite Ec.
Qed.

Definition set_list (ls : queue_direction -> Z -> list Z) (d : queue_direction) (i : Z) (l : list Z) : queue_direction -> Z -> list Z :=
  <[d := <[i := l]> (ls d)]> ls.

Lemma set_list_lookup ls d i l d' i' : (d' = d /\ i' = i /\ set_list ls d i l d' i' = l) \/
  (~ (d' = d /\ i' = i) /\ set_list ls d i l d' i' = ls d' i').
Proof.
  unfold set_list, insert, fn_insert. destruct (decide (d = d')) as [<-|Hd]; [destruct (decide (i = i')) as [<-|Hi]|].
  - by left.
  - right. split; [|done]. by intros [_ ->].
  - right. split; [|done]. by intros [-> _].
Qed.

Lemma set_queue_lookup b d i q d' i' : (d' = d /\ i' = i /\ queues (set_queue b d i q) d' i' = q) \/
  (~ (d' = d /\ i' = i) /\ queues (set_queue b d i q) d' i' = queues b d' i').
Proof.
  unfold set_queue, insert, fn_insert. cbn. unfold insert, fn_insert. destruct (decide (d = d')) as [<-|Hd]; [destruct (decide (i = i')) as [<-|Hi]|].
  - by left.
  - right. split; [|done]. by intros [_ ->].
  - right. split; [|done]. by intros [-> _].
Qed.

(** A queue is changed, and has perhaps got segments of the pool. *)
Lemma bar_inv_update b ls d i p' q' l' : bar_inv b ls -> l' <> [] ->
  llr_size p' = llr_size (pool b) -> num_llrings p' = num_llrings (pool b) ->
  queue_inv (memory p') (llr_size p') q' l' -> l' ++ ptr_stack p' ≡ₚ ls d i ++ ptr_stack (pool b) -> ptr_stack p' `sublist_of` ptr_stack (pool b) ->
  (forall y, y ∉ l' -> memory p' y = memory (pool b) y) ->
  bar_inv (set_queue (set_pool b p') d i q') (set_list ls d i l') /\
  (forall d' i', ~ (d' = d /\ i' = i) -> queued (set_queue (set_pool b p') d i q') (set_list ls d i l') d' i' = queued b ls d' i').
Proof.
  intros Hi Hne Es En Hq Hp Hsub Hfr.
  assert (Hin : forall x, x ∈ l' -> x ∈ ls d i \/ x ∈ ptr_stack (pool b)).
  { intros x Hx. apply elem_of_app. rewrite <-Hp. apply elem_of_app. by left. }
  assert (Hdis : forall d' i' x, ~ (d' = d /\ i' = i) -> x ∈ ls d' i' -> x ∉ l').
  { intros d' i' x Hn Hx Hx'. destruct (Hin x Hx') as [H|H]; [by apply Hn, (bi_disjoint b ls Hi _ _ _ _ x)|].
    by apply (bi_free b ls Hi x H) in Hx. }
  assert (Hst : forall x, x ∈ ptr_stack p' -> x ∈ ptr_stack (pool b)) by (intros x; by apply sublist_elem).
  assert (Hnl : forall x, x ∈ ptr_stack p' -> x ∉ l').
  { intros x Hx Hx'. assert (Hd : NoDup (l' ++ ptr_stack p')); [|by apply NoDup_app in Hd as (_ & Hd & _); apply (Hd x)].
    rewrite Hp. apply NoDup_app. split; [|split; [|apply Hi]].
    - destruct (ls d i) as [|y l] eqn:E; [apply NoDup_nil_2|]. rewrite <-E. apply (qi_nodup _ _ _ _ (bi_queue b ls Hi d i ltac:(by rewrite E))).
    - intros y Hy1 Hy2. by apply (bi_free b ls Hi y Hy2) in Hy1. }
  split.
  - constructor; cbn [pool set_queue set_pool setter].
    + intros d' i'. destruct (set_list_lookup ls d i l' d' i') as [(Hd1 & Hd2 & ->)|(Hd & ->)];
        destruct (set_queue_lookup (set_pool b p') d i q' d' i') as [(He1 & He2 & ->)|(He & ->)]; try tauto.
      intros Hn. rewrite Es. apply (queue_inv_ext (memory (pool b))); [|by apply Hi]. intros x Hx. by apply Hfr, (Hdis d' i').
    + intros d1 i1 d2 i2 x. destruct (set_list_lookup ls d i l' d1 i1) as [(-> & -> & ->)|(H1 & ->)],
        (set_list_lookup ls d i l' d2 i2) as [(-> & -> & ->)|(H2 & ->)]; try done.
      * intros Hx Hx'. by destruct (Hdis _ _ _ H2 Hx').
      * intros Hx Hx'. by destruct (Hdis _ _ _ H1 Hx).
      * apply Hi.
    + exact (sublist_NoDup _ _ (bi_stack b ls Hi) Hsub).
    + intros x Hx. rewrite Hfr by auto. destruct (bi_free b ls Hi x (Hst x Hx)) as (H1 & H2 & H3). rewrite Es.
      split; [done|]. split; [unfold packets; by rewrite Hfr by auto|]. intros d' i'.
      destruct (set_list_lookup ls d i l' d' i') as [(-> & -> & ->)|(_ & ->)]; auto.
    + intros x Hx. rewrite En in Hx. destruct (bi_all b ls Hi x Hx) as [H|(d' & i' & H)].
      * assert (Hx' : x ∈ l' ++ ptr_stack p') by (rewrite Hp; apply elem_of_app; by right). apply elem_of_app in Hx' as [Hx'|Hx']; [right|by left].
        exists d, i. destruct (set_list_lookup ls d i l' d i) as [(_ & _ & ->)|(Hn & _)]; [done|by destruct Hn].
      * destruct (set_list_lookup ls d i l' d' i') as [(-> & -> & E)|(Hn & E)]; [|right; exists d', i'; by rewrite E].
        assert (Hx' : x ∈ l' ++ ptr_stack p') by (rewrite Hp; apply elem_of_app; by left). apply elem_of_app in Hx' as [Hx'|Hx']; [right|by left].
        exists d, i. by rewrite E.
  - intros d' i' Hn. unfold queued. destruct (set_list_lookup ls d i l' d' i') as [(-> & -> & E)|(_ & ->)]; [by destruct Hn|].
    apply contents_ext. intros x Hx. unfold packets. cbn [pool set_queue set_pool setter]. by rewrite Hfr by (by apply (Hdis d' i')).
Qed.

Lemma bar_inv_ext b ls ls' : (forall d i, ls' d i = ls d i) -> bar_inv b ls -> bar_inv b ls'.
Proof.
  intros E []. constructor; try done.
  - intros d i. rewrite E. apply bi_queue0.
  - intros d i d' i' x. rewrite !E. apply bi_disjoint0.
  - intros x Hx. destruct (bi_free0 x Hx) as (H1 & H2 & H3). split; [done|]. split; [done|]. intros d i. by rewrite E.
  - intros x Hx. destruct (bi_all0 x Hx) as [H|(d & i & H)]; [by left|right]. exists d, i. by rewrite E.
Qed.

Lemma set_list_same ls d i d' i' : set_list ls d i (ls d i) d' i' = ls d' i'.
Proof. destruct (set_list_lookup ls d i (ls d i) d' i') as [(-> & -> & ->)|(_ & ->)]; done. Qed.

Lemma set_list_eq ls d i l : set_list ls d i l d i = l.
Proof. destruct (set_list_lookup ls d i l d i) as [(_ & _ & ->)|(H & _)]; [done|by destruct H]. Qed.
Lemma set_queue_eq b d i q : queues (set_queue b d i q) d i = q.
Proof. destruct (set_queue_lookup b d i q d i) as [(_ & _ & ->)|(H & _)]; [done|by destruct H]. Qed.

Lemma send_packets_vport_ok fuel port b ls qid pkts cnt : let d := send_dir port in
  bar_inv b ls -> ls d qid <> [] -> 0 <= cnt < 2147483648 -> (Z.to_nat cnt + 1 < fuel)%nat ->
  let q := queues b d qid in
  exists ret b', send_packets_vport fuel port b qid pkts cnt = Done (ret, b') /\ bar_inv b' ls /\ 0 <= ret <= cnt /\
    queued b' ls d qid ≡ₚ queued b ls d qid ++ table pkts ret /\
    (forall d' i', ~ (d' = d /\ i' = qid) -> queued b' ls d' i' = queued b ls d' i' /\ queues b' d' i' = queues b d' i') /\
    (in_order (memory (pool b)) q (ls d qid) -> appends (memory (pool b)) q ->
     queued b' ls d qid = queued b ls d qid ++ table pkts ret /\
     in_order (memory (pool b')) (queues b' d qid) (ls d qid) /\ appends (memory (pool b')) (queues b' d qid) /\
     exists pre post, ls d qid = pre ++ writer_head q :: post /\
       ret = Z.min cnt ((llr_size (pool b) - 1) * Z.of_nat (S (length post)) - Z.of_nat (length (packets (memory (pool b)) (writer_head q))))).
Proof.
  intros d Hi Hl Hc Hf q. unfold send_packets_vport, send_packets_vport_with_bp. fold d. fold q.
  pose proof (bi_queue b ls Hi d qid Hl) as Hq. fold q in Hq.
  destruct (send_pkts_ok (llr_size (pool b)) (ls d qid) pkts fuel (memory (pool b)) q 0 cnt 0 Hq Hc (or_introl Hf))
    as (ret & m' & q' & E & Hq' & Hr & Hp & ER & Hfr & Hfifo). rewrite E. cbn [mbind outcome_bind].
  exists ret, (set_queue (set_pool b ((pool b) <| memory := m' |>)) d qid q'). split; [done|].
  destruct (bar_inv_update b ls d qid ((pool b) <| memory := m' |>) q' (ls d qid) Hi) as [Hi' Ho]; try done.
  split; [revert Hi'; apply bar_inv_ext; intros; by rewrite set_list_same|]. split; [done|]. split; [exact Hp|]. split.
  - intros d' i' Hn. split.
    + rewrite <-(Ho d' i' Hn). unfold queued. by rewrite set_list_same.
    + by destruct (set_queue_lookup (set_pool b ((pool b) <| memory := m' |>)) d qid q' d' i') as [(H1 & H2 & _)|(_ & ->)]; [destruct Hn|].
  - intros (pre & post & El & He & Ha) Happ. rewrite set_queue_eq.
    destruct (Hfifo pre post El He Happ) as (Ec & Ho' & Ha' & Em); [tauto|]. split; [exact Ec|]. split; [exact Ho'|]. split; [exact Ha'|].
    by exists pre, post.
Qed.

(** C32: sending over a virtual port.  Of the [cnt] packets the first [ret] are added to
    the queue of the port and the number is returned; no packet that was queued is lost or
    duplicated, and the other queues stay as they are.  When the writer is behind all
    queued packets and the reader does not stand on a segment that it has emptied before
    (unless it is the writer's), the packets are appended in order and as many of them as
    fit into the segment of the writer and the free segments behind it. *)
Theorem send_packets_vport_correct fuel port b ls qid pkts cnt : let d := send_dir port in
  bar_inv b ls -> ls d qid <> [] -> 0 <= cnt < 2147483648 -> (Z.to_nat cnt + 1 < fuel)%nat ->
  let q := queues b d qid in
  exists ret b', send_packets_vport fuel port b qid pkts cnt = Done (ret, b') /\ bar_inv b' ls /\ 0 <= ret <= cnt /\
    queued b' ls d qid ≡ₚ queued b ls d qid ++ table pkts ret /\
    (forall d' i', ~ (d' = d /\ i' = qid) -> queued b' ls d' i' = queued b ls d' i' /\ queues b' d' i' = queues b d' i') /\
    (in_order (memory (pool b)) q (ls d qid) -> appends (memory (pool b)) q ->
     queued b' ls d qid = queued b ls d qid ++ table pkts ret /\
     in_order (memory (pool b')) (queues b' d qid) (ls d qid) /\ appends (memory (pool b')) (queues b' d qid) /\
     exists pre post, ls d qid = pre ++ writer_head q :: post /\
       ret = Z.min cnt ((llr_size (pool b) - 1) * Z.of_nat (S (length post)) - Z.of_nat (length (packets (memory (pool b)) (writer_head q))))).
Proof. apply send_packets_vport_ok. Qed.

(** The extension takes a segment of the pool, if there is one. *)
Lemma extend_queue_ok b ls d i : let q := queues b d i in let p := pool b in bar_inv b ls -> ls d i <> [] ->
  if must_extend q && bool_decide (ptr_stack p = []) then extend_queue p q = Aborted
  else exists p' q' l', extend_queue p q = Done (p', q') /\ llr_size p' = llr_size p /\ num_llrings p' = num_llrings p /\
    queue_inv (memory p') (llr_size p') q' l' /\ reader_head q' = reader_head q /\ contents (memory p') l' = contents (memory p) (ls d i) /\
    l' ++ ptr_stack p' ≡ₚ ls d i ++ ptr_stack p /\ ptr_stack p' `sublist_of` ptr_stack p /\
    (forall y, y ∉ l' -> memory p' y = memory p y) /\ length l' = (length (ls d i) + if must_extend q then 1 else 0)%nat /\
    (in_order (memory p) q (ls d i) -> in_order (memory p') q' l').
Proof.
  intros q p Hi Hl. pose proof (bi_queue b ls Hi d i Hl) as Hq. fold q p in Hq. unfold extend_queue, pull_llr, rte_stack_pop.
  destruct (must_extend q) eqn:Em; cbn [andb].
  - destruct (ptr_stack p) as [|new st] eqn:Est; [by rewrite bool_decide_true|]. rewrite bool_decide_false by done.
    destruct (bi_free b ls Hi new) as (Hr & He & Hn); [fold p; rewrite Est; apply list_elem_of_here|]. fold p in Hr, He.
    unfold must_extend in Em. apply andb_true_iff in Em as [_ Hb%Z.ltb_lt].
    destruct (extend_step (memory p) (llr_size p) q (ls d i) new Hq (Hn d i) Hr He Hb) as (Hq' & Ec & Hfr & Ho).
    do 3 eexists. split; [reflexivity|]. cbn [memory ptr_stack llr_size num_llrings setter].
    split; [done|]. split; [done|]. split; [exact Hq'|]. split; [done|]. split; [exact Ec|]. split; [by rewrite <-app_assoc|].
    split; [by apply sublist_cons|]. split; [exact Hfr|]. split; [by rewrite length_app|exact Ho].
  - exists p, q, (ls d i). rewrite Nat.add_0_r. split_and!; try done.
Qed.

(** C33: receiving from a virtual port.  When the queue is filled over its threshold and
    the pool has no segment left the call aborts; otherwise it ends, returns as many
    packets as asked for and queued, takes them from the front of the queue and leaves the
    rest, and the other queues, as they are.  A call that returns fewer packets than asked
    for leaves the reader on the segment of the writer, so that the next packets are
    appended again. *)
Theorem recv_packets_vport_correct fuel port b ls qid pkts cnt : let d := recv_dir port in
  bar_inv b ls -> ls d qid <> [] -> 0 <= cnt < 2147483648 -> (length (ls d qid) < fuel)%nat ->
  let q := queues b d qid in
  if must_extend q && bool_decide (ptr_stack (pool b) = []) then recv_packets_vport fuel port b qid pkts cnt = Aborted
  else exists ret pkts' b' ls', recv_packets_vport fuel port b qid pkts cnt = Done (ret, pkts', b') /\ bar_inv b' ls' /\
    ret = Z.min cnt (Z.of_nat (length (queued b ls d qid))) /\
    table pkts' ret = take (Z.to_nat ret) (queued b ls d qid) /\ (forall i, i < 0 \/ ret <= i -> pkts' i = pkts i) /\
    queued b' ls' d qid = drop (Z.to_nat ret) (queued b ls d qid) /\
    length (ls' d qid) = (length (ls d qid) + if must_extend q then 1 else 0)%nat /\
    (forall d' i', ~ (d' = d /\ i' = qid) -> ls' d' i' = ls d' i' /\ queued b' ls' d' i' = queued b ls d' i' /\ queues b' d' i' = queues b d' i') /\
    (in_order (memory (pool b)) q (ls d qid) -> in_order (memory (pool b')) (queues b' d qid) (ls' d qid) /\
      (ret < cnt -> appends (memory (pool b')) (queues b' d qid))).
Proof.
  intros d Hi Hl Hc Hf q. unfold recv_packets_vport. fold d. fold q.
  pose proof (bi_queue b ls Hi d qid Hl) as Hq. fold q in Hq. 
  pose proof (extend_queue_ok b ls d qid Hi Hl) as He. cbv zeta in He. fold q in He.
  destruct (must_extend q && bool_decide (ptr_stack (pool b) = [])); [by rewrite He|].
  destruct He as (p' & q1 & l1 & -> & Es & En & Hq1 & ER & Ec & Hp & Hsub & Hfr & Hlen & Ho). cbn [mbind outcome_bind].
  rewrite <-ER. destruct (read_pkts_ok (llr_size p') fuel (memory p') q1 l1 [] pkts 0 cnt 0) as (ret & pkts' & m' & q' & l' & E & Hrec);
    [by rewrite app_nil_r|done|intros ->; by apply qi_head in Hq1|done|rewrite Hlen; destruct (must_extend q); lia|].
  rewrite E. rewrite app_nil_r in Hrec. destruct Hrec as (Hq' & Hl' & Hret & Hcon & Ht & Hout & Hfr' & Ho'). cbn [mbind outcome_bind].
  rewrite Ec in Hret, Hcon, Ht. set (p2 := p' <| memory := m' |>).
  destruct (bar_inv_update b ls d qid p2 q' l' Hi) as [Hi' Hoth]; try done.
  { intros ->. by apply qi_head in Hq'. }
  { by rewrite Hl'. }
  { intros y Hy. rewrite Hl' in Hy. cbn. by rewrite Hfr', Hfr. }
  exists ret, pkts', (set_queue (set_pool b p2) d qid q'), (set_list ls d qid l'). split; [done|]. split; [done|]. split; [exact Hret|].
  split; [exact Ht|]. split; [exact Hout|]. unfold queued at 1. rewrite set_list_eq, set_queue_eq. split; [exact Hcon|].
  split; [by rewrite Hl', Hlen|]. split.
  - intros d' i' Hn. split; [by destruct (set_list_lookup ls d qid l' d' i') as [(H1 & H2 & _)|(_ & ->)]; [destruct Hn|]|].
    split; [by apply Hoth|]. by destruct (set_queue_lookup (set_pool b p2) d qid q' d' i') as [(H1 & H2 & _)|(_ & ->)]; [destruct Hn|].
  - intros Hord. destruct (Ho' (Ho Hord)) as [H1 H2]. split; [exact H1|]. intros Hlt. left. by apply H2.
Qed.
End VportSpec.
