(* ===== verification/VportProps.v ===== *)
(** * New virtual ports, and what can go wrong

    A new port satisfies the invariant of [VportSpec]; concrete runs in which packets are
    delivered out of order and in which the pool is exhausted. *)
From S2P Require Import Prelude Llring LlringSpec Vport VportSpec.
#[local] Open Scope Z_scope.
#[local] Set Default Proof Using "Type*".

Module VportProps.
Import Llring LlringSpec Vport VportSpec.

(** ** The pool *)

Section Pool.
Variables (k : Z).
Hypothesis Hk : 1 <= k <= 15.
Abbreviation size := (2 ^ k).

Lemma size_range : 2 <= size <= 32768.
Proof.
  change 32768 with (2 ^ 15). split; [|apply Z.pow_le_mono_r; lia]. change 2 with (2 ^ 1) at 1. apply Z.pow_le_mono_r; lia.
Qed.

(** The rings of the pool are empty. *)
Lemma new_ring wm : exists r r', llring_init size true true = Some r /\ snd (llring_set_water_mark r wm) = r' /\
  ring_ok size r' /\ held r' = [] /\ 0 < llring_free_count r'.
Proof.
  pose proof size_range as Hs. assert (Hn : exists r, llring_init size true true = Some r).
  { unfold llring_init. rewrite u32_small by lia. rewrite Z.sub_1_r, <-Z.ones_equiv, Z.land_ones, Z.mod_same by lia. by eexists. }
  destruct Hn as [r E]. destruct (spsc_init_ok k true true r ltac:(lia) E) as [_ Hi]. exists r, (snd (llring_set_water_mark r wm)).
  assert (Esl : slots r = size /\ watermark r = size).
  { unfold llring_init in E. destruct (negb _); [done|]. by injection E as <-. }
  destruct Esl as [Es Ew]. split; [done|]. split; [done|]. set (r' := snd _).
  assert (Hi' : ring_inv r' [] /\ slots r' = size /\ watermark r' <= size).
  { unfold r', llring_set_water_mark. rewrite Es. destruct (Z.leb_spec size wm); cbn [snd]; [split; [done|]; split; [done|lia]|].
    split; [by destruct Hi as [[] ? ? ? ? ? ?]; constructor; try done; constructor|]. split; [done|]. cbn. destruct (wm =? 0); lia. }
  destruct Hi' as (Hi' & Es' & Ew'). pose proof (held_ok _ _ Hi') as Eh. rewrite (ring_inv_free_count r' [] Hi').
  rewrite (sh_mask _ (ri_shape _ _ Hi')), Es'. split; [split; [by rewrite Eh|done]|]. split; [done|]. cbn. lia.
Qed.

(** What the initialization has done with the segments [i, i + n). *)
Record pool_range (i n : Z) (p p' : llring_pool) : Prop := {
  pr_size : llr_size p' = llr_size p;
  pr_num : num_llrings p' = num_llrings p;
  pr_stack : ptr_stack p' ≡ₚ seqZ i n ++ ptr_stack p;
  pr_new x : i <= x < i + n -> ring_ok size (seg_ring (memory p' x)) /\ packets (memory p') x = [];
  pr_old x : ~ i <= x < i + n -> memory p' x = memory p x
}.

Lemma init_llrings_ok wm n : forall i p, Z.of_nat (length (ptr_stack p)) + Z.of_nat n <= num_llrings p ->
  exists p', init_llrings n i size wm p = Done (Some p') /\ pool_range i (Z.of_nat n) p p'.
Proof.
  induction n as [|n IH]; intros i p Hn.
  - exists p. split; [done|]. constructor; try done. intros x Hx. lia.
  - cbn [init_llrings]. destruct (new_ring wm) as (r & r' & -> & Er & Hr & He & Hf). destruct (llring_set_water_mark r wm) as [rc0 r0].
    cbn [snd] in Er. subst r0. rewrite (proj2 (Z.ltb_lt _ _)) by done. cbn [assert_ mbind outcome_bind].
    unfold rte_stack_push. cbn [ptr_stack num_llrings setter]. rewrite (proj2 (Z.ltb_lt _ _)) by lia. cbn [Z.eqb Pos.eqb assert_ mbind outcome_bind].
    set (p1 := _ <| ptr_stack := _ |>). destruct (IH (i + 1) p1) as (p' & -> & [E1 E2 E3 E4 E5]); [cbn; lia|].
    exists p'. split; [done|]. constructor; try done.
    + rewrite E3. rewrite (seqZ_cons i) by lia. cbn [ptr_stack setter p1].
      replace (Z.pred (Z.of_nat (S n))) with (Z.of_nat n) by lia. rewrite Z.add_1_r. cbn [app]. by rewrite Permutation_middle.
    + intros x Hx. destruct (Z.eq_dec x i) as [->|Hne]; [|apply E4; lia]. unfold packets. rewrite E5 by lia.
      unfold p1. cbn [memory setter]. unfold set_ring. rewrite fn_lookup_insert. cbn [seg_ring setter]. by split.
    + intros x Hx. rewrite E5 by lia. unfold p1. cbn [memory setter]. unfold set_ring. rewrite fn_lookup_insert_ne; [done|lia].
Qed.

Lemma new_llr_pool_ok fresh num : 0 <= num -> exists p, new_llr_pool fresh num size = Done (Some p) /\
  llr_size p = size /\ num_llrings p = num /\ Z.of_nat (length (ptr_stack p)) = num /\ bar_inv (mk_vport_bar 0 0 (fun _ _ => zero_queue) p) (fun _ _ => []).
Proof.
  intros Hn. pose proof size_range as Hs. unfold new_llr_pool.
  assert (E : Z.land size (size - 1) = 0) by (rewrite Z.sub_1_r, <-Z.ones_equiv, Z.land_ones, Z.mod_same; lia).
  rewrite E. cbn [Z.eqb assert_ mbind outcome_bind].
  destruct (init_llrings_ok (u16 (Z.shiftr size 3 * 7)) (Z.to_nat num) 0 (mk_llring_pool fresh [] num size)) as (p & -> & [E1 E2 E3 E4 E5]); [cbn; lia|].
  exists p. split; [done|]. cbn [llr_size num_llrings ptr_stack] in *. rewrite Z2Nat.id in * by lia. rewrite app_nil_r in E3.
  split; [done|]. split; [done|]. split; [rewrite E3, length_seqZ; lia|]. constructor; cbn [pool queues]; try done.
  - intros d i d' i' x Hx. by apply elem_of_nil in Hx.
  - rewrite E3. apply NoDup_seqZ.
  - intros x. rewrite E3, elem_of_seqZ. intros Hx. destruct (E4 x ltac:(lia)) as [H1 H2]. rewrite E1. split; [done|]. split; [done|].
    intros _ _. apply not_elem_of_nil.
  - intros x Hx. left. rewrite E3, elem_of_seqZ. lia.
Qed.
End Pool.

(** ** New ports *)

(** The port has the segments [ls], and every queue that has been set up is empty and has
    one segment; the others have not been touched. *)
Record fresh_inv (b : vport_bar) (ls : queue_direction -> Z -> list Z) : Prop := {
  fi_bar : bar_inv b ls;
  fi_queued d i : queued b ls d i = [];
  fi_one d i : ls d i <> [] -> ls d i = [writer_head (queues b d i)] /\ reader_head (queues b d i) = writer_head (queues b d i);
  fi_zero d i : ls d i = [] -> queues b d i = zero_queue
}.

Lemma init_list_head m x y : seg_ring (INIT_LIST_HEAD m x y) = seg_ring (m y) /\ (y <> x -> INIT_LIST_HEAD m x y = m y) /\
  next (INIT_LIST_HEAD m x x) = x /\ prev (INIT_LIST_HEAD m x x) = x.
Proof.
  unfold INIT_LIST_HEAD, set_next, set_prev. split; [|split; [|by rewrite !fn_lookup_insert]].
  - unfold insert, fn_insert. by destruct (decide (x = y)) as [->|]; [rewrite decide_True|].
  - intros Hne. by rewrite !fn_lookup_insert_ne by congruence.
Qed.

Lemma init_queue_ok b ls d i : let size := llr_size (pool b) in fresh_inv b ls -> 2 <= size <= 32768 -> ls d i = [] ->
  match ptr_stack (pool b) with
  | [] => init_queue b d i size = Aborted
  | seg :: st => exists b', init_queue b d i size = Done b' /\ fresh_inv b' (set_list ls d i [seg]) /\
      num_inc_q b' = num_inc_q b /\ num_out_q b' = num_out_q b /\ ptr_stack (pool b') = st /\ llr_size (pool b') = size
  end.
Proof.
  intros size [Hi Hq H1 H0] Hs Hl. unfold init_queue, pull_llr, rte_stack_pop. destruct (ptr_stack (pool b)) as [|seg st] eqn:Est; [done|].
  destruct (bi_free b ls Hi seg) as (Hr & He & Hn); [rewrite Est; apply list_elem_of_here|].
  assert (Hpk : forall y, packets (INIT_LIST_HEAD (memory (pool b)) seg) y = packets (memory (pool b)) y).
  { intros y. unfold packets. by rewrite (proj1 (init_list_head _ _ _)). }
  eexists. split; [reflexivity|].
  change (queues (set_pool b _) d i) with (queues b d i). rewrite (H0 d i Hl).
  set (q := _ <| th_goal := _ |>). set (p := _ <| memory := _ |>).
  destruct (bar_inv_update b ls d i p q [seg] Hi) as [Hi' Ho]; try done.
  - destruct (init_list_head (memory (pool b)) seg seg) as (Er & _ & E1 & E2). constructor; try done.
    + apply NoDup_singleton.
    + apply list_elem_of_here.
    + intros x ->%list_elem_of_singleton. cbn. by rewrite Er.
    + unfold contents. cbn. by rewrite Hpk, He.
    + cbn. lia.
    + cbn. unfold QUEUE_LENGTH_UPPER_BOUND. fold size. lia.
  - by rewrite Hl, Est.
  - rewrite Est. by apply sublist_cons.
  - intros y Hy. cbn. apply init_list_head. intros ->. apply Hy, list_elem_of_here.
  - split; [|done]. constructor; [done|..]; intros d' i'.
    + destruct (set_list_lookup ls d i [seg] d' i') as [(-> & -> & E)|(Hd & E)]; [|by rewrite Ho].
      unfold queued. rewrite E. unfold contents. cbn. by rewrite Hpk, He.
    + destruct (set_list_lookup ls d i [seg] d' i') as [(-> & -> & ->)|(Hd & ->)]; [by rewrite set_queue_eq|].
      destruct (set_queue_lookup (set_pool b p) d i q d' i') as [(-> & -> & _)|(_ & ->)]; [by destruct Hd|]. apply H1.
    + destruct (set_list_lookup ls d i [seg] d' i') as [(-> & -> & ->)|(Hd & ->)]; [done|].
      destruct (set_queue_lookup (set_pool b p) d i q d' i') as [(-> & -> & _)|(_ & ->)]; [by destruct Hd|]. apply H0.
Qed.

Lemma init_queues_ok size d n : forall b ls i, fresh_inv b ls -> llr_size (pool b) = size -> 2 <= size <= 32768 ->
  (forall j, i <= j < i + Z.of_nat n -> ls d j = []) ->
  if (length (ptr_stack (pool b)) <? n)%nat then init_queues n b d i size = Aborted
  else exists b' ls', init_queues n b d i size = Done b' /\ fresh_inv b' ls' /\ num_inc_q b' = num_inc_q b /\ num_out_q b' = num_out_q b /\
    llr_size (pool b') = size /\ (length (ptr_stack (pool b')) + n = length (ptr_stack (pool b)))%nat /\
    (forall d' j, ls' d' j <> [] <-> ls d' j <> [] \/ (d' = d /\ i <= j < i + Z.of_nat n)).
Proof.
  induction n as [|n IH]; intros b ls i Hf Es Hs Hl.
  - exists b, ls. split_and!; try done; try lia. intros d' j. split; [by left|]. intros [H|H]; [done|lia].
  - cbn [init_queues]. pose proof (init_queue_ok b ls d i Hf ltac:(by rewrite Es) (Hl i ltac:(lia))) as H. rewrite Es in H.
    destruct (ptr_stack (pool b)) as [|seg st] eqn:Est; cbn [length]; [by rewrite H|]. destruct H as (b1 & -> & Hf1 & E1 & E2 & E3 & E4).
    cbn [mbind outcome_bind]. specialize (IH b1 (set_list ls d i [seg]) (i + 1) Hf1 E4 Hs). rewrite E3 in IH.
    assert (Hl1 : forall j, i + 1 <= j < i + 1 + Z.of_nat n -> set_list ls d i [seg] d j = []).
    { intros j Hj. destruct (set_list_lookup ls d i [seg] d j) as [(_ & -> & _)|(_ & ->)]; [lia|]. apply Hl. lia. }
    specialize (IH Hl1). change (S (length st) <? S n)%nat with (length st <? n)%nat. destruct (length st <? n)%nat; [done|].
    destruct IH as (b' & ls' & -> & Hf' & F1 & F2 & F3 & F4 & F5). exists b', ls'. split; [done|]. split; [done|].
    split; [congruence|]. split; [congruence|]. split; [done|]. split; [lia|]. intros d' j. rewrite F5.
    destruct (set_list_lookup ls d i [seg] d' j) as [(-> & -> & ->)|(Hd & ->)].
    + split; [intros _; right; split; [done|lia]|by left].
    + split; intros [H|[-> H]]; [by left|right; split; [done|lia]|by left|right]. split; [done|].
      destruct (Z.eq_dec j i) as [->|]; [by destruct Hd|lia].
Qed.

Definition num_queues (b : vport_bar) (d : queue_direction) : Z := match d with INC => num_inc_q b | OUT => num_out_q b end.

(** Everything that a new port promises. *)
Definition vport_ready (b : vport_bar) (ls : queue_direction -> Z -> list Z) : Prop :=
  bar_inv b ls /\ forall d i, (ls d i <> [] <-> 0 <= i < num_queues b d) /\ queued b ls d i = [] /\
    (ls d i <> [] -> length (ls d i) = 1%nat /\ in_order (memory (pool b)) (queues b d i) (ls d i) /\ appends (memory (pool b)) (queues b d i)).

Lemma _new_vport_ok fresh rand num_inc num_out num k : 1 <= k <= 15 -> 0 <= num_inc -> 0 <= num_out -> 0 <= num ->
  let size := 2 ^ k in
  if num <? num_inc + num_out then _new_vport fresh rand num_inc num_out num size = Aborted
  else exists port b ls, _new_vport fresh rand num_inc num_out num size = Done (port, b) /\ vport_ready b ls /\
    num_inc_q b = num_inc /\ num_out_q b = num_out /\ llr_size (pool b) = size /\ port = _rand_set_port_mac_address (mk_vport true (fun _ => 0)) rand.
Proof.
  intros Hk Hi Ho Hn size. pose proof (size_range k Hk) as Hs. fold size in Hs. unfold _new_vport.
  destruct (new_llr_pool_ok k Hk fresh num Hn) as (p & E & E1 & E2 & E3 & Hb). fold size in E, E1. rewrite E. cbn [mbind outcome_bind].
  set (b0 := mk_vport_bar num_inc num_out (fun _ _ => zero_queue) p).
  assert (Hf0 : fresh_inv b0 (fun _ _ => [])) by (constructor; [by destruct Hb; constructor|done|done|done]).
  pose proof (init_queues_ok size INC (Z.to_nat num_inc) b0 _ 0 Hf0 E1 Hs ltac:(done)) as H. cbn [b0 pool] in H.
  destruct (Nat.ltb_spec (length (ptr_stack p)) (Z.to_nat num_inc)) as [Hlt|Hge].
  { rewrite H. rewrite (proj2 (Z.ltb_lt _ _)) by lia. done. }
  destruct H as (b1 & ls1 & -> & Hf1 & F1 & F2 & F3 & F4 & F5). cbn [mbind outcome_bind].
  pose proof (init_queues_ok size OUT (Z.to_nat num_out) b1 ls1 0 Hf1 F3 Hs) as H.
  assert (Hnil : forall j, 0 <= j < 0 + Z.of_nat (Z.to_nat num_out) -> ls1 OUT j = []).
  { intros j _. destruct (ls1 OUT j) as [|x l] eqn:El; [done|]. exfalso. assert (Hne : ls1 OUT j <> []) by (by rewrite El).
    by apply F5 in Hne as [Hne|[Hne _]]. }
  specialize (H Hnil). destruct (Nat.ltb_spec (length (ptr_stack (pool b1))) (Z.to_nat num_out)) as [Hlt|Hge'].
  { rewrite H. rewrite (proj2 (Z.ltb_lt _ _)) by lia. done. }
  destruct H as (b2 & ls2 & -> & Hf2 & G1 & G2 & G3 & G4 & G5). cbn [mbind outcome_bind].
  rewrite (proj2 (Z.ltb_ge _ _)) by lia. do 2 eexists. exists ls2. split; [reflexivity|].
  split; [|rewrite G1, G2, F1, F2; split_and!; done]. split; [apply Hf2|]. intros d i. split; [|split].
  - rewrite G5, F5. unfold num_queues. rewrite G1, G2, F1, F2. cbn [b0 num_inc_q num_out_q]. destruct d.
    + split; [intros [[H|[_ H]]|[H _]]; [done|lia|done]|]. intros H. left. right. split; [done|lia].
    + split; [intros [[H|[H _]]|[_ H]]; [done|done|lia]|]. intros H. right. split; [done|lia].
  - apply Hf2.
  - intros Hne. destruct (fi_one _ _ Hf2 d i Hne) as [El Er]. split; [by rewrite El|]. split; [|by left]. exists [], []. rewrite El. split_and!; try done. by left.
Qed.

(** A new port.  [new_vport] refuses, with a null pointer, more queues than the pool
    that it would create has segments; otherwise it succeeds: all queues are set up, are
    empty and append what is sent, and the segments of the pool are partitioned.  The
    address of the port is a locally administered one that is not a multicast address. *)
Theorem new_vport_correct fresh rand num_inc num_out : in16 num_inc -> in16 num_out ->
  let segs := u16 ((num_inc + num_out) * 3 / 2 + 64) in
  if segs <? num_inc + num_out then new_vport fresh rand num_inc num_out = Done None
  else exists port b ls, new_vport fresh rand num_inc num_out = Done (Some (port, b)) /\ vport_ready b ls /\
    num_queues b INC = num_inc /\ num_queues b OUT = num_out /\ _main port = true /\
    Z.testbit (mac_addr port 0) 0 = false /\ Z.testbit (mac_addr port 0) 1 = true /\ forall i, 0 <= i < 6 -> in8 (mac_addr port i).
Proof.
  intros Hi Ho segs. unfold new_vport. fold segs. destruct (Z.ltb_spec segs (num_inc + num_out)) as [Hlt|Hge]; [done|].
  pose proof (_new_vport_ok fresh rand num_inc num_out segs 6 ltac:(lia) ltac:(lia) ltac:(lia)) as H.
  specialize (H (proj1 (u16_range _))). cbv zeta in H. change (2 ^ 6) with SLOTS_PER_LLRING in H. rewrite (proj2 (Z.ltb_ge _ _)) in H by lia.
  destruct H as (port & b & ls & -> & Hr & E1 & E2 & _ & ->). do 2 eexists. exists ls. split; [reflexivity|]. split; [exact Hr|].
  split; [exact E1|]. split; [exact E2|]. split; [done|]. unfold _rand_set_port_mac_address. cbn [mac_addr setter].
  rewrite !fn_lookup_insert. change ((0 <=? 0) && (0 <? 6)) with true. cbv iota.
  split; [by rewrite Z.lor_spec, !Z.land_spec, andb_false_r|]. split; [by rewrite Z.lor_spec, orb_true_r|].
  assert (H8 : forall x, in8 (Z.land x 255)) by (intros x; change 255 with (Z.ones 8); rewrite Z.land_ones by lia; apply Z.mod_pos_bound; lia).
  intros i Hir. destruct (Z.eq_dec i 0) as [->|Hne].
  - rewrite fn_lookup_insert. set (v := Z.lor _ 2). replace v with (Z.land v 255); [apply H8|]. unfold v.
    by rewrite Z.land_lor_distr_l, <-Z.land_assoc.
  - rewrite !fn_lookup_insert_ne by congruence. rewrite (proj2 (Z.leb_le 0 i)), (proj2 (Z.ltb_lt i 6)) by lia. apply H8.
Qed.

(** ** Runs of new ports *)

Definition no_segs : Z -> llr_seg := fun _ => mk_llr_seg 0 0 (mk_llring 0 0 false false 0 0 0 0 0 (fun _ => 0)).
Definition no_pkts : Z -> Z := fun _ => 0.
Definition the_port (r : option (vport * vport_bar)) : outcome (vport * vport_bar) := match r with Some x => Done x | None => Aborted end.

(** Packets can be delivered out of order.  A port with one queue in each direction
    sends the packets [0..147); the other side receives 1, 63 and 200 of them at a time.
    The second call takes exactly what was left in its segment, which the writer reuses
    while older packets are still in the next one: the packets 127 to 146 overtake 64 to 126. *)
Theorem vport_reorders :
  let reader := from_vbar_addr (fun _ => 0) in
  (r ← new_vport no_segs (fun _ => 0) 1 1; '(writer, b) ← the_port r;
   '(n1, b) ← send_packets_vport 100 writer b 0 (fun i => i) 63;
   '(m1, t1, b) ← recv_packets_vport 100 reader b 0 no_pkts 1;
   '(n2, b) ← send_packets_vport 100 writer b 0 (fun i => 63 + i) 20;
   '(m2, t2, b) ← recv_packets_vport 100 reader b 0 no_pkts 63;
   '(n3, b) ← send_packets_vport 100 writer b 0 (fun i => 83 + i) 64;
   '(m3, t3, _) ← recv_packets_vport 100 reader b 0 no_pkts 200;
   Done ([n1; n2; n3], table t1 m1 ++ table t2 m2 ++ table t3 m3)) =
  Done ([63; 20; 64], seqZ 0 64 ++ seqZ 127 20 ++ seqZ 64 63).
Proof. vm_compute. reflexivity. Qed.

(** One round: the writer sends as much as it can, the reader receives nothing. *)
Fixpoint flood (n : nat) (writer reader : vport) (b : vport_bar) : outcome vport_bar :=
  match n with
  | O => Done b
  | S n =>
    '(_, b) ← send_packets_vport 10 writer b 0 no_pkts 64;
    '(_, _, b) ← recv_packets_vport 100 reader b 0 no_pkts 0;
    flood n writer reader b
  end.

(** The pool of a new port has fewer segments than its queues may get: when they are
    filled in both directions the assertion on the segment fails. *)
Theorem vport_pool_exhausted :
  let reader := from_vbar_addr (fun _ => 0) in
  let run n := r ← new_vport no_segs (fun _ => 0) 1 1; '(writer, b) ← the_port r;
    b ← flood 63 writer reader b; b ← flood n reader writer b; Done (ptr_stack (pool b)) in
  run 2%nat = Done [] /\ run 3%nat = Aborted.
Proof. vm_compute. split; reflexivity. Qed.

(** ** Examples *)

Lemma new_vport_correct_witness : exists port b ls, new_vport no_segs (fun _ => 255) 8 8 = Done (Some (port, b)) /\
  vport_ready b ls /\ num_queues b INC = 8 /\ mac_addr port 0 = 254.
Proof.
  pose proof (new_vport_correct no_segs (fun _ => 255) 8 8 ltac:(lia) ltac:(lia)) as H. cbv zeta in H.
  change (u16 ((8 + 8) * 3 / 2 + 64) <? 8 + 8) with false in H. cbv iota in H. destruct H as (port & b & ls & E & Hr & E1 & _).
  exists port, b, ls. split; [exact E|]. split; [exact Hr|]. split; [exact E1|].
  assert (Em : (r ← new_vport no_segs (fun _ => 255) 8 8; x ← the_port r; Done (mac_addr (fst x) 0)) = Done 254) by (vm_compute; reflexivity).
  rewrite E in Em. by injection Em.
Defined.

(** A new port, and what it has sent, for the examples. *)
Definition ex_new : outcome (vport * vport_bar) := _new_vport no_segs no_pkts 1 1 67 64.
Definition ex_send (b : vport_bar) : outcome (Z * vport_bar) := send_packets_vport 200 (mk_vport true no_pkts) b 0 (fun i => i) 100.

Lemma ex_ready : exists port b ls, ex_new = Done (port, b) /\ vport_ready b ls /\ num_queues b OUT = 1 /\ llr_size (pool b) = 64.
Proof.
  pose proof (_new_vport_ok no_segs no_pkts 1 1 67 6 ltac:(lia) ltac:(lia) ltac:(lia) ltac:(lia)) as H. cbv zeta in H. change (67 <? 1 + 1) with false in H.
  cbv iota in H. destruct H as (port & b & ls & E & Hr & _ & Eo & Es & _).
  exists port, b, ls. split; [exact E|]. split; [exact Hr|]. split; [exact Eo|exact Es].
Qed.

Lemma ex_ready_queue b ls : vport_ready b ls -> num_queues b OUT = 1 -> exists w, ls OUT 0 = [w] /\ packets (memory (pool b)) w = [] /\
  in_order (memory (pool b)) (queues b OUT 0) (ls OUT 0) /\ appends (memory (pool b)) (queues b OUT 0).
Proof.
  intros [Hi Hq] En. destruct (Hq OUT 0) as (H1 & H2 & H3). assert (Hne : ls OUT 0 <> []) by (apply H1; rewrite En; lia).
  destruct (H3 Hne) as (Hl & Ho & Ha). destruct (ls OUT 0) as [|w [|]] eqn:El; try done. exists w. split; [done|]. split; [|done].
  unfold queued in H2. rewrite El in H2. unfold contents in H2. cbn in H2. by rewrite app_nil_r in H2.
Qed.

Lemma send_packets_vport_correct_witness : exists b ls b', vport_ready b ls /\
  send_packets_vport 200 (mk_vport true no_pkts) b 0 (fun i => i) 100 = Done (63, b') /\ bar_inv b' ls /\ queued b' ls OUT 0 = seqZ 0 63.
Proof.
  destruct ex_ready as (port & b & ls & _ & Hr & En & Es). destruct (ex_ready_queue b ls Hr En) as (w & El & Hp & Ho & Ha).
  assert (Hne : ls OUT 0 <> []) by (by rewrite El). destruct Hr as [Hi Hq].
  destruct (send_packets_vport_correct 200 (mk_vport true no_pkts) b ls 0 (fun i => i) 100 Hi Hne) as (ret & b' & E & Hi' & _ & _ & _ & Hf); [lia|lia|].
  destruct (Hf Ho Ha) as (Eq & _ & _ & pre & post & El' & Er). change (send_dir (mk_vport true no_pkts)) with OUT in *.
  rewrite El in El'. destruct pre as [|? [|]]; [|done..]. injection El' as Ew <-. rewrite <-Ew, Hp, Es in Er. change (ret = 63) in Er. subst ret.
  exists b, ls, b'. split; [by split|]. split; [exact E|]. split; [exact Hi'|]. rewrite Eq. destruct (Hq OUT 0) as (_ & -> & _). reflexivity.
Defined.

Definition ex_flags (b : vport_bar) : bool * bool := (must_extend (queues b OUT 0), bool_decide (ptr_stack (pool b) = [])).
Definition ex_run (A : outcome (vport * vport_bar)) (F : vport_bar -> outcome (Z * vport_bar)) : outcome (bool * bool) :=
  '(_, b) ← A; '(_, b) ← F b; Done (ex_flags b).

Lemma ex_run_result A F v port b n b' : ex_run A F = Done v -> A = Done (port, b) -> F b = Done (n, b') -> ex_flags b' = v.
Proof.
  unfold ex_run. intros H -> E. cbn [mbind outcome_bind] in H. rewrite E in H. cbn [mbind outcome_bind] in H. congruence.
Qed.

Lemma ex_computed : ex_run ex_new ex_send = Done (true, false).
Proof. vm_compute. reflexivity. Qed.

(** After 63 packets have been sent the queue is over its threshold and is extended. *)
Lemma ex_sent : exists b ls, bar_inv b ls /\ length (ls OUT 0) = 1%nat /\ queued b ls OUT 0 = seqZ 0 63 /\
  ex_flags b = (true, false).
Proof.
  destruct ex_ready as (port & b & ls & Enew & Hr & En & Es). destruct (ex_ready_queue b ls Hr En) as (w & El & Hp & Ho & Ha).
  assert (Hne : ls OUT 0 <> []) by (by rewrite El). destruct Hr as [Hi Hq].
  destruct (send_packets_vport_ok 200 (mk_vport true no_pkts) b ls 0 (fun i => i) 100 Hi Hne) as (ret & b' & E & Hi' & _ & _ & _ & Hf); [lia|lia|].
  destruct (Hf Ho Ha) as (Eq & _ & _ & pre & post & El' & Er). change (send_dir (mk_vport true no_pkts)) with OUT in *.
  rewrite El in El'. destruct pre as [|? [|]]; [|done..]. injection El' as Ew <-. rewrite <-Ew, Hp, Es in Er. change (ret = 63) in Er. subst ret.
  exists b', ls. split; [exact Hi'|]. split; [by rewrite El|]. split; [rewrite Eq; destruct (Hq OUT 0) as (_ & -> & _); reflexivity|].
  exact (ex_run_result ex_new ex_send _ port b 63 b' ex_computed Enew E).
Qed.

Lemma recv_packets_vport_correct_witness : exists b ls pkts' b' ls', bar_inv b ls /\ queued b ls OUT 0 = seqZ 0 63 /\
  recv_packets_vport 200 (mk_vport false no_pkts) b 0 no_pkts 10 = Done (10, pkts', b') /\ bar_inv b' ls' /\
  table pkts' 10 = seqZ 0 10 /\ queued b' ls' OUT 0 = seqZ 10 53 /\ length (ls' OUT 0) = 2%nat.
Proof.
  destruct ex_sent as (b & ls & Hi & Hl & Hq & Hf). injection Hf as Hm Hb.
  assert (Hne : ls OUT 0 <> []) by (intros E; by rewrite E in Hl).
  pose proof (recv_packets_vport_correct 200 (mk_vport false no_pkts) b ls 0 no_pkts 10 Hi Hne ltac:(lia)) as H.
  change (recv_dir (mk_vport false no_pkts)) with OUT in H. cbv zeta in H. rewrite Hl, Hm, Hb, Hq in H. specialize (H ltac:(lia)). cbn [andb] in H.
  destruct H as (ret & pkts' & b' & ls' & E & Hi' & Er & Ht & _ & Hq' & Hl' & _). change (ret = 10) in Er. subst ret.
  exists b, ls, pkts', b', ls'. split; [exact Hi|]. split; [exact Hq|]. split; [exact E|]. split; [exact Hi'|].
  split; [exact Ht|]. split; [exact Hq'|exact Hl'].
Defined.
End VportProps.
