(* ===== verification/KernelIf.v ===== *)
(** * Queues between applications and the slow path ([include/kernel_appif.h])

    The entries of the two queues of a context: requests of the application, and the
    replies and notifications of the slow path.  The type of an entry decides which of its
    fields mean something; an entry of type 0 is free. *)
From S2P Require Import Prelude.
#[local] Open Scope Z_scope.

Module KernelIf.

Definition KERNEL_APPOUT_LISTEN_REUSEPORT : Z := 1.

(** [struct kernel_appout], by [enum kernel_appout_type]; [APPOUT_OTHER] is a type that is
    not in the enumeration. *)
Inductive appout : Type :=
  | APPOUT_INVALID
  | APPOUT_CONN_OPEN (opaque remote_ip remote_port flags : Z)
  | APPOUT_CONN_CLOSE (opaque remote_ip local_ip remote_port local_port flags : Z)
  | APPOUT_CONN_MOVE (opaque remote_ip local_ip remote_port local_port db_id : Z)
  | APPOUT_LISTEN_OPEN (opaque backlog local_port flags : Z)
  | APPOUT_LISTEN_CLOSE (opaque local_port : Z)
  | APPOUT_ACCEPT_CONN (listen_opaque conn_opaque local_port : Z)
  | APPOUT_REQ_SCALE (num_cores : Z)
  | APPOUT_OTHER (type : Z).

(** The fields that [struct kernel_appin_conn_opened] and [struct kernel_appin_accept_conn]
    have in common. *)
Record appin_conn : Type := mk_appin_conn {
  ai_rx_off : Z; ai_tx_off : Z; ai_rx_len : Z; ai_tx_len : Z; ai_seq_rx : Z; ai_seq_tx : Z; ai_local_ip : Z;
  ai_flow_id : Z; ai_fn_core : Z
}.

(** [struct kernel_appin], by [enum kernel_appin_type]. *)
Inductive appin : Type :=
  | APPIN_INVALID
  | APPIN_STATUS_CONN_CLOSE (opaque status : Z)
  | APPIN_STATUS_CONN_MOVE (opaque status : Z)
  | APPIN_STATUS_LISTEN_OPEN (opaque status : Z)
  | APPIN_CONN_OPENED (opaque status : Z) (d : appin_conn) (local_port : Z)
  | APPIN_LISTEN_NEWCONN (opaque remote_ip remote_port : Z)
  | APPIN_ACCEPTED_CONN (opaque status : Z) (d : appin_conn) (remote_ip remote_port : Z)
  | APPIN_OTHER (type : Z).

Definition appout_free (e : appout) : bool := match e with APPOUT_INVALID => true | _ => false end.
Definition appin_free (e : appin) : bool := match e with APPIN_INVALID => true | _ => false end.

(** The next position in a queue of [len] entries. *)
Definition queue_next (pos len : Z) : Z := if len <=? u32 (pos + 1) then 0 else u32 (pos + 1).

End KernelIf.
