(* ===== verification/Libtas.v ===== *)
(** * The library of the applications ([lib/tas/conn.c], [lib/tas/init.c])

    A context of an application with its queues to the slow path and to the cores of the
    fast path, and the connections of the context: requests, the two byte streams with their
    buffers, and the polling of the queues.  Connections and listeners are addresses, which
    are also the opaque values in the queues.  Waking another process (an eventfd) is not
    modelled. *)
From S2P Require Import Prelude Memif KernelIf.
#[local] Open Scope Z_scope.

Module Libtas.
Import KernelIf.

Definition NULL : Z := 0.
Definition ARX_SIZE : Z := 32.
Definition ATX_SIZE : Z := 16.
Definition FLEXTCP_LISTEN_REUSEPORT : Z := 1.
Definition CTX_FLAG_POLL_CALLED : Z := 1.
Definition CTX_FLAG_POLL_EVENTS : Z := 2.
Definition CTX_FLAG_WANTWAIT : Z := 4.
Definition CTX_FLAG_LASTWAIT : Z := 8.
Definition CONN_FLAG_TXEOS : Z := 1.
Definition CONN_FLAG_TXEOS_ALLOC : Z := 2.
Definition CONN_FLAG_TXEOS_ACK : Z := 4.

(** [enum conn_state]. *)
Inductive conn_state : Type := CONN_CLOSED | CONN_OPEN_REQUESTED | CONN_ACCEPT_REQUESTED | CONN_OPEN | CONN_CLOSE_REQUESTED.
#[export] Instance conn_state_eq : EqDecision conn_state.
Proof. solve_decision. Defined.

(** [struct flextcp_listener]. *)
Record flextcp_listener : Type := mk_listener { lst_conns : Z; lst_local_port : Z; lst_status : Z }.
#[export] Instance eta_listener : Eta flextcp_listener := fun l => mk_listener (lst_conns l) (lst_local_port l) (lst_status l).

(** [struct flextcp_connection]. *)
Record flextcp_connection : Type := mk_connection {
  rxb_base : Z; rxb_len : Z; rxb_head : Z; rxb_used : Z; rxb_bump : Z;
  txb_base : Z; txb_len : Z; txb_head : Z; txb_sent : Z; txb_allocated : Z; txb_bump : Z;
  local_ip : Z; remote_ip : Z; local_port : Z; remote_port : Z;
  seq_rx : Z; seq_tx : Z; flow_id : Z; bump_seq : Z;
  bump_next : Z; bump_prev : Z; fn_core : Z;
  bump_pending : bool; status : conn_state; flags : Z; rx_closed : bool
}.
#[export] Instance eta_connection : Eta flextcp_connection := fun c =>
  mk_connection (rxb_base c) (rxb_len c) (rxb_head c) (rxb_used c) (rxb_bump c) (txb_base c) (txb_len c) (txb_head c) (txb_sent c)
    (txb_allocated c) (txb_bump c) (local_ip c) (remote_ip c) (local_port c) (remote_port c) (seq_rx c) (seq_tx c) (flow_id c)
    (bump_seq c) (bump_next c) (bump_prev c) (fn_core c) (bump_pending c) (status c) (flags c) (rx_closed c).

(** The queues of a context to one core, and [struct flextcp_context]. *)
Record ctx_queue : Type := mk_ctx_queue { rxq_head : Z; txq_tail : Z; txq_avail : Z }.
#[export] Instance eta_ctx_queue : Eta ctx_queue := fun q => mk_ctx_queue (rxq_head q) (txq_tail q) (txq_avail q).

Record flextcp_context : Type := mk_context {
  kin_len : Z; kin_head : Z; kout_len : Z; kout_head : Z; rxq_len : Z; txq_len : Z;
  ctx_queues : Z -> ctx_queue;
  bump_pending_first : Z; bump_pending_last : Z;
  ctx_flags : Z; db_id : Z; num_queues : Z; next_queue : Z; last_inev_ts : Z
}.
#[export] Instance eta_context : Eta flextcp_context := fun x =>
  mk_context (kin_len x) (kin_head x) (kout_len x) (kout_head x) (rxq_len x) (txq_len x) (ctx_queues x) (bump_pending_first x)
    (bump_pending_last x) (ctx_flags x) (db_id x) (num_queues x) (next_queue x) (last_inev_ts x).

(** The events for the application, [struct flextcp_event]. *)
Inductive flextcp_event : Type :=
  | EV_LISTEN_OPEN (status lst : Z)
  | EV_LISTEN_NEWCONN (remote_port remote_ip lst : Z)
  | EV_LISTEN_ACCEPT (status conn : Z)
  | EV_CONN_OPEN (status conn : Z)
  | EV_CONN_CLOSED (status conn : Z)
  | EV_CONN_RECEIVED (buf len conn : Z)
  | EV_CONN_SENDBUF (conn : Z)
  | EV_CONN_RXCLOSED (conn : Z)
  | EV_CONN_TXCLOSED (conn : Z)
  | EV_CONN_MOVED (status conn : Z).

#[export] Instance eta_arx : Eta arx := fun e =>
  mk_arx (arx_type e) (arx_opaque e) (arx_rx_bump e) (arx_rx_pos e) (arx_tx_bump e) (arx_flags e).

(** The memory of an application with one context, and the queues it shares: [l_arx q] and
    [l_atx q] are the entries of the queues from and to core [q], by their offset. *)
Record lib : Type := mk_lib {
  l_conns : Z -> flextcp_connection; l_lsts : Z -> flextcp_listener; l_ctx : flextcp_context;
  l_kin : Z -> appout; l_kout : Z -> appin; l_arx : Z -> Z -> arx; l_atx : Z -> Z -> atx
}.
#[export] Instance eta_lib : Eta lib := fun s =>
  mk_lib (l_conns s) (l_lsts s) (l_ctx s) (l_kin s) (l_kout s) (l_arx s) (l_atx s).

Definition set_conn (s : lib) (c : Z) (v : flextcp_connection) : lib := s <| l_conns := <[c := v]> (l_conns s) |>.
Definition set_ctx (s : lib) (x : flextcp_context) : lib := s <| l_ctx := x |>.
Definition set_ctx_queue (s : lib) (q : Z) (v : ctx_queue) : lib :=
  s <| l_ctx := (l_ctx s) <| ctx_queues := <[q := v]> (ctx_queues (l_ctx s)) |> |>.

(** [connection_init]: a zeroed connection is closed. *)
Definition connection_init : flextcp_connection :=
  mk_connection 0 0 0 0 0 0 0 0 0 0 0 0 0 0 0 0 0 0 0 NULL NULL 0 false CONN_CLOSED 0 false.

(** ** Requests to the slow path *)

(** The next entry of the queue is free; an entry is written and the head moved on. *)
Definition kin_room (s : lib) : bool := appout_free (l_kin s (kin_head (l_ctx s))).
Definition kin_put (s : lib) (e : appout) : lib :=
  let pos := kin_head (l_ctx s) in
  let s := s <| l_kin := <[pos := e]> (l_kin s) |> in
  s <| l_ctx := (l_ctx s) <| kin_head := queue_next pos (kin_len (l_ctx s)) |> |>.

(** [true] is the return value 0, [false] is -1. *)
Definition flextcp_listen_open (s : lib) (lst port backlog fl : Z) : bool * lib :=
  let s := s <| l_lsts := <[lst := mk_listener 0 0 0]> (l_lsts s) |> in
  if negb (Z.ldiff fl FLEXTCP_LISTEN_REUSEPORT =? 0) then (false, s)
  else
    let f := if Z.land fl FLEXTCP_LISTEN_REUSEPORT =? FLEXTCP_LISTEN_REUSEPORT then KERNEL_APPOUT_LISTEN_REUSEPORT else 0 in
    if negb (kin_room s) then (false, s)
    else
      let s := s <| l_lsts := <[lst := mk_listener NULL port 0]> (l_lsts s) |> in
      (true, kin_put s (APPOUT_LISTEN_OPEN lst backlog port f)).

Definition flextcp_listen_accept (s : lib) (lst conn : Z) : bool * lib :=
  let s := set_conn s conn connection_init in
  if negb (kin_room s) then (false, s)
  else
    let port := lst_local_port (l_lsts s lst) in
    let s := set_conn s conn ((l_conns s conn) <| status := CONN_ACCEPT_REQUESTED |> <| local_port := port |>) in
    (true, kin_put s (APPOUT_ACCEPT_CONN lst conn port)).

Definition flextcp_connection_open (s : lib) (conn dst_ip dst_port : Z) : bool * lib :=
  let s := set_conn s conn connection_init in
  if negb (kin_room s) then (false, s)
  else
    let s := set_conn s conn ((l_conns s conn) <| status := CONN_OPEN_REQUESTED |> <| remote_ip := dst_ip |> <| remote_port := dst_port |>) in
    (true, kin_put s (APPOUT_CONN_OPEN conn dst_ip dst_port 0)).

(** The search for the predecessor on the list of pending updates. *)
Fixpoint find_bump_pred (n : nat) (conns : Z -> flextcp_connection) (p conn : Z) : outcome Z :=
  match n with
  | O => NoFuel
  | S n => if p =? NULL then Aborted else if bump_next (conns p) =? conn then Done p else find_bump_pred n conns (bump_next (conns p)) conn
  end.

(** The removal of a connection from the list of pending updates. *)
Definition bump_remove (fuel : nat) (s : lib) (conn : Z) : outcome lib :=
  if bump_pending (l_conns s conn) then
    s ← (if conn =? bump_pending_first (l_ctx s)
         then Done (set_ctx s ((l_ctx s) <| bump_pending_first := bump_next (l_conns s conn) |>))
         else
           p ← find_bump_pred fuel (l_conns s) (bump_pending_first (l_ctx s)) conn;
           let s := set_conn s p ((l_conns s p) <| bump_next := bump_next (l_conns s conn) |>) in
           Done (if bump_next (l_conns s p) =? NULL then set_ctx s ((l_ctx s) <| bump_pending_last := p |>) else s));
    Done (set_conn s conn ((l_conns s conn) <| bump_pending := false |>))
  else Done s.

Definition flextcp_connection_close (fuel : nat) (s : lib) (conn : Z) : outcome (bool * lib) :=
  s ← bump_remove fuel s conn;
  if negb (kin_room s) then Done (false, s)
  else
    let s := set_conn s conn ((l_conns s conn) <| status := CONN_CLOSE_REQUESTED |>) in
    let k := l_conns s conn in
    Done (true, kin_put s (APPOUT_CONN_CLOSE conn (remote_ip k) (local_ip k) (remote_port k) (local_port k) 0)).

Definition flextcp_connection_move (s : lib) (conn : Z) : bool * lib :=
  if negb (kin_room s) then (false, s)
  else
    let k := l_conns s conn in
    (true, kin_put s (APPOUT_CONN_MOVE conn (remote_ip k) (local_ip k) (remote_port k) (local_port k) (db_id (l_ctx s)))).

(** ** Buffers of a connection *)

Definition conn_mark_bump (s : lib) (conn : Z) : lib :=
  if bump_pending (l_conns s conn) then s
  else
    let c_prev := bump_pending_last (l_ctx s) in
    let s := set_conn s conn ((l_conns s conn) <| bump_next := NULL |> <| bump_prev := c_prev |>) in
    let s := if negb (c_prev =? NULL) then set_conn s c_prev ((l_conns s c_prev) <| bump_next := conn |>)
             else set_ctx s ((l_ctx s) <| bump_pending_first := conn |>) in
    let s := set_ctx s ((l_ctx s) <| bump_pending_last := conn |>) in
    set_conn s conn ((l_conns s conn) <| bump_pending := true |>).

Definition conn_tx_allocbytes (k : flextcp_connection) : Z := u32 (txb_len k - txb_sent k - txb_allocated k).
Definition conn_tx_sendbytes (k : flextcp_connection) : Z := txb_allocated k.
Definition flextcp_conn_txbuf_available (k : flextcp_connection) : Z := conn_tx_allocbytes k.

Definition flextcp_connection_rx_done (s : lib) (conn len : Z) : bool * lib :=
  let k := l_conns s conn in
  if rxb_used k <? len then (false, s)
  else
    let k := k <| rxb_used := u32 (rxb_used k - len) |> in
    let k := k <| rxb_bump := u32 (rxb_bump k + len) |> in
    let s := set_conn s conn k in
    (true, if rxb_len k / 4 <? rxb_bump k then conn_mark_bump s conn else s).

(** The place of the next bytes in the transmit buffer. *)
Definition alloc_head (k : flextcp_connection) : Z :=
  let head := u32 (txb_head k + txb_allocated k) in
  if txb_len k <=? head then u32 (head - txb_len k) else head.

(** The return value, with the buffer; [None] is -1. *)
Definition flextcp_connection_tx_alloc (s : lib) (conn len : Z) : option (Z * Z) * lib :=
  let k := l_conns s conn in
  if Z.land (flags k) CONN_FLAG_TXEOS =? CONN_FLAG_TXEOS then (None, s)
  else
    let avail := conn_tx_allocbytes k in
    let len := if avail <? len then avail else len in
    let head := alloc_head k in
    let len := if txb_len k <? head + len then u32 (txb_len k - head) else len in
    (Some (len, txb_base k + head), set_conn s conn (k <| txb_allocated := u32 (txb_allocated k + len) |>)).

(** The return value, with the first buffer and its length and the second buffer. *)
Definition flextcp_connection_tx_alloc2 (s : lib) (conn len : Z) : option (Z * Z * Z * Z) * lib :=
  let k := l_conns s conn in
  if Z.land (flags k) CONN_FLAG_TXEOS =? CONN_FLAG_TXEOS then (None, s)
  else
    let avail := conn_tx_allocbytes k in
    let len := if avail <? len then avail else len in
    let head := alloc_head k in
    let buf_1 := txb_base k + head in
    let '(len_1, buf_2) := if txb_len k <? head + len then (u32 (txb_len k - head), txb_base k) else (len, NULL) in
    (Some (len, buf_1, len_1, buf_2), set_conn s conn (k <| txb_allocated := u32 (txb_allocated k + len) |>)).

Definition flextcp_connection_tx_send (s : lib) (conn len : Z) : bool * lib :=
  let k := l_conns s conn in
  if conn_tx_sendbytes k <? len then (false, s)
  else
    let k := k <| txb_allocated := u32 (txb_allocated k - len) |> in
    let k := k <| txb_sent := u32 (txb_sent k + len) |> in
    let next_head := u32 (txb_head k + len) in
    let next_head := if txb_len k <=? next_head then u32 (next_head - txb_len k) else next_head in
    let k := k <| txb_head := next_head |> in
    let k := k <| txb_bump := u32 (txb_bump k + len) |> in
    (true, conn_mark_bump (set_conn s conn k) conn).

Definition flextcp_conn_pushtxeos (s : lib) (conn : Z) : outcome (bool * lib) :=
  let k := l_conns s conn in
  assert_ (conn_tx_sendbytes k =? 0);;
  assert_ (negb (Z.land (flags k) CONN_FLAG_TXEOS =? 0));;
  if conn_tx_allocbytes k =? 0 then Done (false, s)
  else
    let k := k <| txb_sent := u32 (txb_sent k + 1) |> in
    let head := u32 (txb_head k + 1) in
    let head := if txb_len k <=? head then u32 (head - txb_len k) else head in
    let k := k <| txb_head := head |> in
    let k := k <| flags := Z.lor (flags k) CONN_FLAG_TXEOS_ALLOC |> in
    let k := k <| txb_bump := u32 (txb_bump k + 1) |> in
    Done (true, conn_mark_bump (set_conn s conn k) conn).

Definition flextcp_connection_tx_close (s : lib) (conn : Z) : outcome (bool * lib) :=
  let k := l_conns s conn in
  if 0 <? conn_tx_sendbytes k then Done (false, s)
  else if Z.land (flags k) CONN_FLAG_TXEOS =? CONN_FLAG_TXEOS then Done (false, s)
  else
    let s := set_conn s conn (k <| flags := Z.lor (flags k) CONN_FLAG_TXEOS |>) in
    '(_, s) ← flextcp_conn_pushtxeos s conn;
    Done (true, s).

(** ** Replies of the slow path *)

(** The data of an open connection is taken over; [k] is the connection with its addresses. *)
Definition opened_conn (k : flextcp_connection) (d : appin_conn) : flextcp_connection :=
  k <| seq_rx := ai_seq_rx d |> <| seq_tx := ai_seq_tx d |> <| flow_id := ai_flow_id d |> <| fn_core := ai_fn_core d |>
    <| rxb_base := ai_rx_off d |> <| rxb_len := ai_rx_len d |> <| txb_base := ai_tx_off d |> <| txb_len := ai_tx_len d |>.

(** The updates that have arrived before the reply are injected. *)
Definition inject_early (k : flextcp_connection) (conn : Z) : list flextcp_event * flextcp_connection :=
  let '(evs, k) := if 0 <? rxb_used k then ([EV_CONN_RECEIVED (rxb_base k) (rxb_used k) conn], k <| seq_rx := u32 (seq_rx k + rxb_used k) |>)
                   else ([], k) in
  (evs ++ (if rx_closed k then [EV_CONN_RXCLOSED conn] else []), k).

(** The events of the early updates do not fit. *)
Definition early_no_room (k : flextcp_connection) (avail : Z) : bool :=
  ((0 <? rxb_used k) && rx_closed k && (avail <? 3)) || (((0 <? rxb_used k) || rx_closed k) && (avail <? 2)).

(** The events; [None] is the return value -1. *)
Definition event_kappin_conn_opened (s : lib) (conn stat : Z) (d : appin_conn) (lport avail : Z) : option (list flextcp_event) * lib :=
  let k := l_conns s conn in
  let ev := EV_CONN_OPEN stat conn in
  if negb (stat =? 0) then (Some [ev], set_conn s conn (k <| status := CONN_CLOSED |>))
  else if early_no_room k avail then (None, s)
  else
    let k := opened_conn (k <| status := CONN_OPEN |> <| local_ip := ai_local_ip d |> <| local_port := lport |>) d in
    let '(evs, k) := inject_early k conn in
    (Some (ev :: evs), set_conn s conn k).

Definition event_kappin_accept_conn (s : lib) (conn stat : Z) (d : appin_conn) (rip rport avail : Z) : option (list flextcp_event) * lib :=
  let k := l_conns s conn in
  let ev := EV_LISTEN_ACCEPT stat conn in
  if negb (stat =? 0) then (Some [ev], set_conn s conn (k <| status := CONN_CLOSED |>))
  else if early_no_room k avail then (None, s)
  else
    let k := opened_conn (k <| status := CONN_OPEN |> <| local_ip := ai_local_ip d |> <| remote_ip := rip |> <| remote_port := rport |>) d in
    let '(evs, k) := inject_early k conn in
    (Some (ev :: evs), set_conn s conn k).

Definition event_kappin_st_conn_closed (s : lib) (conn stat : Z) : list flextcp_event * lib :=
  ([EV_CONN_CLOSED stat conn], set_conn s conn ((l_conns s conn) <| status := CONN_CLOSED |>)).

(** One entry of the queue from the slow path; [Aborted] for an unexpected type. *)
Definition kernel_event (s : lib) (e : appin) (avail : Z) : outcome (option (list flextcp_event) * lib) :=
  match e with
  | APPIN_INVALID => Aborted
  | APPIN_CONN_OPENED conn stat d lport => Done (event_kappin_conn_opened s conn stat d lport avail)
  | APPIN_LISTEN_NEWCONN lst rip rport => Done (Some [EV_LISTEN_NEWCONN rport rip lst], s)
  | APPIN_ACCEPTED_CONN conn stat d rip rport => Done (event_kappin_accept_conn s conn stat d rip rport avail)
  | APPIN_STATUS_LISTEN_OPEN lst stat => Done (Some [EV_LISTEN_OPEN stat lst], s)
  | APPIN_STATUS_CONN_MOVE conn stat => Done (Some [EV_CONN_MOVED stat conn], s)
  | APPIN_STATUS_CONN_CLOSE conn stat => let '(evs, s) := event_kappin_st_conn_closed s conn stat in Done (Some evs, s)
  | APPIN_OTHER _ => Aborted
  end.

Definition ctx_flag (s : lib) (f : Z) : lib := set_ctx s ((l_ctx s) <| ctx_flags := Z.lor (ctx_flags (l_ctx s)) f |>).

(** [kernel_poll], from event [i] on, with at most [n] entries: whether the event space was
    sufficient, and the events. *)
Fixpoint kernel_poll (n : nat) (s : lib) (num i pos : Z) (evs : list flextcp_event) : outcome (bool * list flextcp_event * lib) :=
  match n with
  | O => NoFuel
  | S n =>
    let stop ok s := Done (ok, evs, set_ctx s ((l_ctx s) <| kout_head := pos |>)) in
    if negb (i <? num) then stop true s
    else
      let e := l_kout s pos in
      if appin_free e then stop true s
      else
        '(r, s) ← kernel_event s e (num - i);
        let s := ctx_flag s CTX_FLAG_POLL_EVENTS in
        match r with
        | None => stop false s
        | Some new =>
          let s := s <| l_kout := <[pos := APPIN_INVALID]> (l_kout s) |> in
          kernel_poll n s num (i + Z.of_nat (length new)) (queue_next pos (kout_len (l_ctx s))) (evs ++ new)
        end
  end.

(** ** Updates of the fast path *)

(** How many events an update needs. *)
Definition evs_needed (k : flextcp_connection) (rx_bump tx_bump : Z) (eos : bool) : Z :=
  (if 0 <? rx_bump then if rxb_len k <? u32 (rxb_head k + rx_bump) then 2 else 1 else 0)
  + (if (0 <? tx_bump) && (flextcp_conn_txbuf_available k =? 0) then 1 else 0)
  + (if (Z.land (flags k) CONN_FLAG_TXEOS_ALLOC =? CONN_FLAG_TXEOS_ALLOC) && (u32 (txb_sent k - tx_bump) =? 0) then 1 else 0)
  + (if eos then 1 else 0).

(** The received bytes. *)
Definition update_rx (k : flextcp_connection) (conn rx_bump : Z) : list flextcp_event * flextcp_connection :=
  if 0 <? rx_bump then
    let buf := rxb_base k + rxb_head k in
    let evs := if rxb_len k <? u32 (rxb_head k + rx_bump)
               then let rx_len := u32 (rxb_len k - rxb_head k) in
                    [EV_CONN_RECEIVED buf rx_len conn; EV_CONN_RECEIVED (rxb_base k) (u32 (rx_bump - rx_len)) conn]
               else [EV_CONN_RECEIVED buf rx_bump conn] in
    let k := k <| seq_rx := u32 (seq_rx k + rx_bump) |> in
    let head := u32 (rxb_head k + rx_bump) in
    let k := k <| rxb_head := if rxb_len k <=? head then u32 (head - rxb_len k) else head |> in
    (evs, k <| rxb_used := u32 (rxb_used k + rx_bump) |>)
  else ([], k).

(** The acknowledged bytes. *)
Definition update_tx (s : lib) (conn tx_bump : Z) (tx_avail_ev : bool) : outcome (list flextcp_event * lib) :=
  if 0 <? tx_bump then
    let k := (l_conns s conn) <| txb_sent := u32 (txb_sent (l_conns s conn) - tx_bump) |> in
    let s := set_conn s conn k in
    let evs := if tx_avail_ev then [EV_CONN_SENDBUF conn] else [] in
    if (Z.land (flags k) CONN_FLAG_TXEOS =? CONN_FLAG_TXEOS) && (Z.land (flags k) CONN_FLAG_TXEOS_ALLOC =? 0) then
      '(ok, s) ← flextcp_conn_pushtxeos s conn;
      if negb ok then Aborted else Done (evs, s)
    else if Z.land (flags k) CONN_FLAG_TXEOS_ALLOC =? CONN_FLAG_TXEOS_ALLOC then
      assert_ (Z.land (flags k) CONN_FLAG_TXEOS_ACK =? 0);;
      if txb_sent k =? 0
      then Done (evs ++ [EV_CONN_TXCLOSED conn], set_conn s conn (k <| flags := Z.lor (flags k) CONN_FLAG_TXEOS_ACK |>))
      else Done (evs, s)
    else Done (evs, s)
  else Done ([], s).

(** [event_arx_connupdate]: [None] is the return value -1. *)
Definition event_arx_connupdate (s : lib) (e : arx) (outn fn_core' : Z) : outcome (option (list flextcp_event) * lib) :=
  let conn := arx_opaque e in
  let s := set_conn s conn ((l_conns s conn) <| fn_core := fn_core' |>) in
  let k := l_conns s conn in
  let rx_bump := arx_rx_bump e in
  let tx_bump := arx_tx_bump e in
  let eos := Z.land (arx_flags e) FLEXTCP_PL_ARX_FLRXDONE =? FLEXTCP_PL_ARX_FLRXDONE in
  match status k with
  | CONN_OPEN_REQUESTED | CONN_ACCEPT_REQUESTED =>
    assert_ (tx_bump =? 0);;
    let k := k <| rx_closed := eos |> <| rxb_head := u32 (rxb_head k + rx_bump) |> <| rxb_used := u32 (rxb_used k + rx_bump) |> in
    Done (Some [], set_conn s conn k)
  | CONN_CLOSED | CONN_CLOSE_REQUESTED => Done (Some [], s)
  | CONN_OPEN =>
    let tx_avail_ev := (0 <? tx_bump) && (flextcp_conn_txbuf_available k =? 0) in
    if outn <? evs_needed k rx_bump tx_bump eos then Done (None, s)
    else
      let '(evs_rx, k) := update_rx k conn rx_bump in
      let s := set_conn s conn k in
      '(evs_tx, s) ← update_tx s conn tx_bump tx_avail_ev;
      let '(evs_eos, s) := if eos then ([EV_CONN_RXCLOSED conn], set_conn s conn ((l_conns s conn) <| rx_closed := true |>)) else ([], s) in
      Done (Some (evs_rx ++ evs_tx ++ evs_eos), s)
  end.

(** The next entry of a queue from the fast path. *)
Definition rxq_next (s : lib) (head : Z) : Z :=
  let head := u32 (head + ARX_SIZE) in if rxq_len (l_ctx s) <=? head then u32 (head - rxq_len (l_ctx s)) else head.
Definition next_q (s : lib) (q : Z) : Z := if q + 1 <? num_queues (l_ctx s) then q + 1 else 0.

(** One round over the queues in [fastpath_poll_vec] that collects at most one entry of
    each, with the queue; [room] more entries may be collected. *)
Fixpoint collect_round (n : nat) (s : lib) (q : Z) (qheads : Z -> Z) (room : Z) : list (Z * Z) * (Z -> Z) :=
  match n with
  | O => ([], qheads)
  | S n =>
    if negb (0 <? room) then ([], qheads)
    else if arx_type (l_arx s q (qheads q)) =? FLEXTCP_PL_ARX_CONNUPDATE then
      let '(l, qheads') := collect_round n s (next_q s q) (<[q := rxq_next s (qheads q)]> qheads) (room - 1) in
      ((q, qheads q) :: l, qheads')
    else collect_round n s (next_q s q) qheads room
  end.

(** The rounds: until nothing is found. *)
Fixpoint collect (n : nat) (s : lib) (qheads : Z -> Z) (room : Z) : outcome (list (Z * Z) * (Z -> Z)) :=
  match n with
  | O => NoFuel
  | S n =>
    if negb (0 <? room) then Done ([], qheads)
    else
      let '(l, qheads) := collect_round (Z.to_nat (num_queues (l_ctx s))) s (next_queue (l_ctx s)) qheads room in
      match l with
      | [] => Done ([], qheads)
      | _ => '(l', qheads) ← collect n s qheads (room - Z.of_nat (length l)); Done (l ++ l', qheads)
      end
  end.

(** The loop over the collected entries: the events, whether they ran out of space, and the
    queue of the last entry. *)
Fixpoint process (l : list (Z * Z)) (s : lib) (num i q : Z) (evs : list flextcp_event) : outcome (list flextcp_event * bool * Z * lib) :=
  match l with
  | [] => Done (evs, false, q, s)
  | (k, pos) :: l =>
    if negb (i <? num) then Done (evs, false, q, s)
    else
      let e := l_arx s k pos in
      let head := rxq_head (ctx_queues (l_ctx s) k) in
      assert_ (negb (arx_type e =? 0));;
      '(r, s) ← (if arx_type e =? FLEXTCP_PL_ARX_CONNUPDATE then event_arx_connupdate s e (num - i) k else Done (Some [], s));
      match r with
      | None => Done (evs, true, k, s)
      | Some new =>
        let s := s <| l_arx := <[k := <[pos := e <| arx_type := 0 |>]> (l_arx s k)]> (l_arx s) |> in
        let s := set_ctx_queue s k ((ctx_queues (l_ctx s) k) <| rxq_head := rxq_next s head |>) in
        process l s num (i + Z.of_nat (length new)) k (evs ++ new)
      end
  end.

(** The outer loop of [fastpath_poll_vec]; [qheads] are the entries looked at so far. *)
Fixpoint poll_vec_loop (n : nat) (s : lib) (qheads : Z -> Z) (num i q : Z) (found : bool) (evs : list flextcp_event) :
    outcome (list flextcp_event * bool * Z * lib) :=
  match n with
  | O => NoFuel
  | S n =>
    if negb (i <? num) then Done (evs, found, q, s)
    else
      '(l, qheads) ← collect n s qheads (num - i);
      match l with
      | [] => Done (evs, found, next_queue (l_ctx s), s)
      | _ =>
        '(evs', ran_out, q, s) ← process l s num i q evs;
        let q := next_q s q in
        let i := i + (Z.of_nat (length evs') - Z.of_nat (length evs)) in
        if (ran_out : bool) then Done (evs', true, q, s) else poll_vec_loop n s qheads num i q true evs'
      end
  end.

Definition fastpath_poll_vec (n : nat) (s : lib) (num : Z) : outcome (list flextcp_event * lib) :=
  let qheads := fun q => rxq_head (ctx_queues (l_ctx s) q) in
  '(evs, found, q, s) ← poll_vec_loop n s qheads num 0 (next_queue (l_ctx s)) false [];
  let s := set_ctx s ((l_ctx s) <| next_queue := q |>) in
  Done (evs, if (found : bool) then ctx_flag s CTX_FLAG_POLL_EVENTS else s).

(** ** Updates for the fast path *)

(** The loop of [txq_probe] on one queue. *)
Fixpoint txq_probe_loop (n : nat) (atxs : Z -> atx) (len avail pos : Z) : Z :=
  match n with
  | O => avail
  | S n =>
    if (avail <? len) && (atx_type (atxs pos) =? 0) then
      let pos := u32 (pos + ATX_SIZE) in
      txq_probe_loop n atxs len (u32 (avail + ATX_SIZE)) (if len <=? pos then u32 (pos - len) else pos)
    else avail
  end.

Definition txq_probe_one (s : lib) (n q : Z) : lib :=
  let len := txq_len (l_ctx s) in
  let v := ctx_queues (l_ctx s) q in
  if len / 2 <? txq_avail v then s
  else
    let pos := u32 (txq_tail v + txq_avail v) in
    let pos := if len <=? pos then u32 (pos - len) else pos in
    set_ctx_queue s q (v <| txq_avail := txq_probe_loop (Z.to_nat (2 * n)) (l_atx s q) len (txq_avail v) pos |>).

Definition txq_probe (s : lib) (n : Z) : lib :=
  fold_left (fun s q => txq_probe_one s n q) (seqZ 0 (num_queues (l_ctx s))) s.

(** [flextcp_context_tx_alloc]: the offset of the entry. *)
Definition flextcp_context_tx_alloc (s : lib) (core : Z) : option Z :=
  let v := ctx_queues (l_ctx s) core in
  if txq_avail v =? 0 then None else Some (txq_tail v).

Definition flextcp_context_tx_done (s : lib) (core : Z) : lib :=
  let v := ctx_queues (l_ctx s) core in
  let tail := u32 (txq_tail v + ATX_SIZE) in
  let v := v <| txq_tail := if txq_len (l_ctx s) <=? tail then u32 (tail - txq_len (l_ctx s)) else tail |> in
  set_ctx_queue s core (v <| txq_avail := u32 (txq_avail v - ATX_SIZE) |>).

(** The update that [conns_bump] writes for a connection, and the connection after it. *)
Definition conn_update (k : flextcp_connection) : atx :=
  mk_atx FLEXTCP_PL_ATX_CONNUPDATE (rxb_bump k) (txb_bump k) (flow_id k) (u16 (bump_seq k))
    (if Z.land (flags k) CONN_FLAG_TXEOS_ALLOC =? CONN_FLAG_TXEOS_ALLOC then FLEXTCP_PL_ATX_FLTXDONE else 0).

Definition conn_bumped (k : flextcp_connection) : flextcp_connection :=
  k <| bump_seq := u32 (bump_seq k + 1) |> <| rxb_bump := 0 |> <| txb_bump := 0 |> <| bump_pending := false |>.

Fixpoint conns_bump (n : nat) (s : lib) : outcome lib :=
  match n with
  | O => NoFuel
  | S n =>
    let c := bump_pending_first (l_ctx s) in
    if c =? NULL then Done s
    else
      let k := l_conns s c in
      assert_ (bool_decide (status k = CONN_OPEN));;
      match flextcp_context_tx_alloc s (fn_core k) with
      | None => Done s
      | Some pos =>
        let q := fn_core k in
        let s := s <| l_atx := <[q := <[pos := conn_update k]> (l_atx s q)]> (l_atx s) |> in
        let s := flextcp_context_tx_done s q in
        let s := set_conn s c (conn_bumped k) in
        let s := if bump_next k =? NULL then set_ctx s ((l_ctx s) <| bump_pending_last := NULL |>) else s in
        conns_bump n (set_ctx s ((l_ctx s) <| bump_pending_first := bump_next k |>))
      end
  end.

(** [flextcp_context_poll]. *)
Definition flextcp_context_poll (n : nat) (s : lib) (num : Z) : outcome (list flextcp_event * lib) :=
  let s := ctx_flag s CTX_FLAG_POLL_CALLED in
  '(ok, evs, s) ← kernel_poll n s num 0 (kout_head (l_ctx s)) [];
  if negb ok then Done (evs, s)
  else
    '(evs', s) ← fastpath_poll_vec n s (num - Z.of_nat (length evs));
    let s := txq_probe s num in
    s ← conns_bump n s;
    Done (evs ++ evs', s).

(** ** Waiting *)

(** [flextcp_context_canwait]: [true] is the return value 0; [poll_cycle] is [None] when
    blocking is disabled, [now] the cycle counter. *)
Definition flextcp_context_canwait (s : lib) (poll_cycle : option Z) (now : Z) : bool * lib :=
  let fl := ctx_flags (l_ctx s) in
  match poll_cycle with
  | None => (false, s)
  | Some cycle =>
    if negb (Z.land fl CTX_FLAG_POLL_EVENTS =? 0) then
      (false, set_ctx s ((l_ctx s) <| ctx_flags := Z.ldiff fl (Z.lor CTX_FLAG_POLL_EVENTS (Z.lor CTX_FLAG_WANTWAIT CTX_FLAG_LASTWAIT)) |>))
    else if negb (Z.land fl CTX_FLAG_WANTWAIT =? 0) then
      (false, if cycle <? u64 (now - last_inev_ts (l_ctx s))
              then set_ctx s ((l_ctx s) <| ctx_flags := Z.lor (Z.ldiff fl (Z.lor CTX_FLAG_POLL_CALLED CTX_FLAG_WANTWAIT)) CTX_FLAG_LASTWAIT |>)
              else s)
    else if negb (Z.land fl CTX_FLAG_LASTWAIT =? 0) then (negb (Z.land fl CTX_FLAG_POLL_CALLED =? 0), s)
    else if negb (Z.land fl CTX_FLAG_POLL_CALLED =? 0) then
      (false, set_ctx s ((l_ctx s) <| last_inev_ts := now |> <| ctx_flags := Z.lor fl CTX_FLAG_WANTWAIT |>))
    else (false, s)
  end.

(** [flextcp_context_waitclear], after the eventfd has been read. *)
Definition flextcp_context_waitclear (s : lib) : lib :=
  set_ctx s ((l_ctx s) <| ctx_flags := Z.ldiff (ctx_flags (l_ctx s)) (Z.lor CTX_FLAG_WANTWAIT (Z.lor CTX_FLAG_LASTWAIT CTX_FLAG_POLL_CALLED)) |>).

End Libtas.
