(* ===== verification/LibtasSpec.v ===== *)
(** * The library of the applications: the list of pending updates

    The connections of a context with something to tell the fast path are chained in the
    order in which they became pending; [conns_bump] sends their updates from the front. *)
From S2P Require Import Prelude Memif FastRx KernelIf Libtas.
#[local] Open Scope Z_scope.

Module LibtasSpec.
Import KernelIf Libtas.

(** The connection without its place on the list of pending updates. *)
Definition core (k : flextcp_connection) : flextcp_connection :=
  k <| bump_next := 0 |> <| bump_prev := 0 |> <| bump_pending := false |>.

(** [l] is the list from connection [c] on. *)
Fixpoint chain (conns : Z -> flextcp_connection) (c : Z) (l : list Z) : Prop :=
  match l with
  | [] => c = NULL
  | x :: l => c = x /\ chain conns (bump_next (conns x)) l
  end.

(** The connections of [l] are pending, in this order. *)
Record blist (s : lib) (l : list Z) : Prop := {
  bl_nodup : NoDup l;
  bl_null : NULL ∉ l;
  bl_first : chain (l_conns s) (bump_pending_first (l_ctx s)) l;
  bl_last : bump_pending_last (l_ctx s) = default NULL (last l);
  bl_pending c : bump_pending (l_conns s c) = bool_decide (c ∈ l)
}.

Lemma chain_ext f g l : forall c, (forall x, x ∈ l -> bump_next (g x) = bump_next (f x)) -> chain f c l -> chain g c l.
Proof.
  induction l as [|x l IH]; intros c Hext; [done|]. intros [-> Hl]. split; [done|].
  rewrite Hext by set_solver. apply IH; [|done]. intros y Hy. apply Hext. set_solver.
Qed.

(** The last connection of a chain points to a new one that ends the list. *)
Lemma bump_chain_snoc f g l x c : forall y, NoDup (l ++ [x]) ->
  chain f y (l ++ [x]) -> c ∉ l ++ [x] -> bump_next (g c) = NULL -> bump_next (g x) = c ->
  (forall z, z ∈ l -> bump_next (g z) = bump_next (f z)) -> chain g y (l ++ [x; c]).
Proof.
  induction l as [|z l IH]; intros y Hnd Hch Hc Hcn Hxn Hext; cbn in *.
  - destruct Hch as [-> _]. by rewrite Hxn.
  - destruct Hch as [-> Hch]. inversion Hnd; subst. split; [done|].
    rewrite Hext by set_solver. apply IH; try done; [set_solver|]. intros w Hw. apply Hext. set_solver.
Qed.

Lemma set_conn_same s c v : l_conns (set_conn s c v) c = v.
Proof. unfold set_conn. cbn. by rewrite fn_lookup_insert. Qed.
Lemma set_conn_other s c v d : d <> c -> l_conns (set_conn s c v) d = l_conns s d.
Proof. intros. unfold set_conn. cbn. by rewrite fn_lookup_insert_ne. Qed.

(** The list only depends on the links and flags of the connections. *)
Lemma blist_ext s s' l : blist s l ->
  (forall x, bump_next (l_conns s' x) = bump_next (l_conns s x) /\ bump_pending (l_conns s' x) = bump_pending (l_conns s x)) ->
  bump_pending_first (l_ctx s') = bump_pending_first (l_ctx s) ->
  bump_pending_last (l_ctx s') = bump_pending_last (l_ctx s) -> blist s' l.
Proof.
  intros [] Hx Ef El. constructor; rewrite ?Ef, ?El; try done.
  - apply (chain_ext (l_conns s)); [|done]. intros x _. apply Hx.
  - intros x. rewrite (proj2 (Hx x)). done.
Qed.

(** What marking a connection leaves alone. *)
Record marked (s s' : lib) : Prop := {
  mkd_core c : core (l_conns s' c) = core (l_conns s c);
  mkd_pending c : bump_pending (l_conns s c) = true -> bump_pending (l_conns s' c) = true;
  mkd_atx : l_atx s' = l_atx s;
  mkd_arx : l_arx s' = l_arx s;
  mkd_kin : l_kin s' = l_kin s;
  mkd_queues : ctx_queues (l_ctx s') = ctx_queues (l_ctx s)
}.

Lemma blist_last_pending s l : blist s l -> bump_pending_last (l_ctx s) <> NULL ->
  exists l', l = l' ++ [bump_pending_last (l_ctx s)].
Proof.
  intros [] Hn. rewrite bl_last0 in *. destruct l as [|x l'] using rev_ind; [done|]. rewrite last_snoc. by exists l'.
Qed.

(** Every connection after marking one that was not pending, and the ends of the list. *)
Lemma conn_mark_bump_at s c : let p := bump_pending_last (l_ctx s) in bump_pending (l_conns s c) = false -> c <> p ->
  let s' := conn_mark_bump s c in
  (forall x, l_conns s' x =
    if decide (x = c) then (l_conns s c) <| bump_next := NULL |> <| bump_prev := p |> <| bump_pending := true |>
    else if decide (x = p /\ p <> NULL) then (l_conns s p) <| bump_next := c |> else l_conns s x) /\
  bump_pending_first (l_ctx s') = (if p =? NULL then c else bump_pending_first (l_ctx s)) /\
  bump_pending_last (l_ctx s') = c /\
  l_atx s' = l_atx s /\ l_arx s' = l_arx s /\ l_kin s' = l_kin s /\ ctx_queues (l_ctx s') = ctx_queues (l_ctx s).
Proof.
  cbv zeta. set (p := bump_pending_last (l_ctx s)). intros Ep Hc. unfold conn_mark_bump. rewrite Ep. fold p.
  destruct (Z.eqb_spec p NULL) as [E|E]; cbn [negb]; (split; [|done]); intros x; unfold set_conn, set_ctx; cbn;
    destruct (decide (x = c)) as [->|Hx]; rewrite ?fn_lookup_insert, ?(fn_lookup_insert_ne _ _ x), ?fn_lookup_insert by done; try done.
  - by rewrite decide_False by naive_solver.
  - rewrite !(fn_lookup_insert_ne _ p c), fn_lookup_insert by done. done.
  - destruct (decide (x = p /\ p <> NULL)) as [[-> _]|Hxp].
    + by rewrite fn_lookup_insert, fn_lookup_insert_ne by done.
    + rewrite !fn_lookup_insert_ne; [done|done|naive_solver].
Qed.

Lemma conn_mark_bump_ok s l c : blist s l -> c <> NULL ->
  let s' := conn_mark_bump s c in
  blist s' (if bump_pending (l_conns s c) then l else l ++ [c]) /\ marked s s' /\ bump_pending (l_conns s' c) = true.
Proof.
  intros Hb Hc. pose proof Hb as []. cbv zeta. destruct (bump_pending (l_conns s c)) eqn:Ep.
  { unfold conn_mark_bump. rewrite Ep. split_and!; [done| |done]. by constructor. }
  assert (Hcl : c ∉ l) by (rewrite bl_pending0 in Ep; by apply bool_decide_eq_false in Ep).
  set (p := bump_pending_last (l_ctx s)).
  assert (Hp : p = NULL /\ l = [] \/ p <> NULL /\ exists l', l = l' ++ [p]).
  { destruct (decide (p = NULL)) as [E|E]; [left|right; split; [done|by apply blist_last_pending]]. split; [done|].
    destruct l as [|x l' _] using rev_ind; [done|]. unfold p in E. rewrite bl_last0, last_snoc in E. cbn in E. set_solver. }
  assert (Hpc : c <> p) by (destruct Hp as [[-> _]|[_ [l' ->]]]; [done|set_solver]).
  destruct (conn_mark_bump_at s c Ep Hpc) as (Hat & Hf & Hl & E1 & E2 & E3 & E4). fold p in Hat, Hf.
  set (s' := conn_mark_bump s c) in *. clearbody s'. split; [constructor|split; [constructor|]]; try done.
  - apply NoDup_app. split_and!; [done|set_solver|apply NoDup_singleton].
  - set_solver.
  - rewrite Hf. destruct Hp as [[-> ->]|[Hp [l' ->]]].
    + split; [done|]. by rewrite Hat, decide_True.
    + rewrite (proj2 (Z.eqb_neq _ _)) by done. rewrite <-app_assoc. apply (bump_chain_snoc (l_conns s)); try done.
      * by rewrite Hat, decide_True.
      * by rewrite Hat, decide_False, decide_True by done.
      * intros z Hz. apply NoDup_app in bl_nodup0 as (_ & Hnd & _). rewrite Hat, !decide_False; [done| |set_solver].
        intros [-> _]. set_solver.
  - by rewrite Hl, last_snoc.
  - intros x. rewrite Hat. destruct (decide (x = c)) as [->|Hx]; [cbn; by rewrite bool_decide_true by set_solver|].
    assert (Ex : bool_decide (x ∈ l ++ [c]) = bool_decide (x ∈ l)) by (apply bool_decide_ext; set_solver).
    rewrite Ex, <-bl_pending0. by destruct (decide _) as [[-> _]|].
  - intros x. rewrite Hat. destruct (decide (x = c)) as [->|Hx]; [done|]. by destruct (decide _) as [[-> _]|].
  - intros x. rewrite Hat. destruct (decide (x = c)) as [->|Hx]; [done|]. by destruct (decide _) as [[-> _]|].
  - by rewrite Hat, decide_True.
Qed.

(** ** Sending the updates *)

(** The updates of the connections [l] for core [q], in order. *)
Definition updates (conns : Z -> flextcp_connection) (q : Z) (l : list Z) : list atx :=
  conn_update ∘ conns <$> filter (fun c => fn_core (conns c) = q) l.

(** The queue to a core: [txq_avail] bytes from its tail on are known to be free. *)
Record txq_ok (len : Z) (v : ctx_queue) : Prop := {
  tq_tail : 0 <= txq_tail v < len;
  tq_avail : 0 <= txq_avail v <= len;
  tq_entries : (ATX_SIZE | txq_avail v)
}.

(** The entries [us] have been written to a queue behind its tail. *)
Record txq_written (len : Z) (v v' : ctx_queue) (m m' : Z -> atx) (us : list atx) : Prop := {
  tw_at (i : nat) u : us !! i = Some u -> m' ((txq_tail v + ATX_SIZE * Z.of_nat i) mod len) = u;
  tw_rest p : (forall i : nat, (i < length us)%nat -> p <> (txq_tail v + ATX_SIZE * Z.of_nat i) mod len) -> m' p = m p;
  tw_tail : txq_tail v' = (txq_tail v + ATX_SIZE * Z.of_nat (length us)) mod len;
  tw_avail : txq_avail v' = txq_avail v - ATX_SIZE * Z.of_nat (length us)
}.

Lemma txq_written_nil len v m : txq_ok len v -> txq_written len v v m m [].
Proof.
  intros []. constructor; try done; cbn; [by rewrite Z.add_0_r, Z.mod_small|lia].
Qed.

Lemma txq_written_cons len v v1 v' m m' u us : txq_ok len v -> txq_avail v <> 0 ->
  txq_tail v1 = (txq_tail v + ATX_SIZE) mod len -> txq_avail v1 = txq_avail v - ATX_SIZE -> 0 <= txq_avail v' ->
  txq_written len v1 v' (<[txq_tail v := u]> m) m' us -> txq_written len v v' m m' (u :: us).
Proof.
  intros [Ht Ha _] H0 E1 E2 Ha' [W1 W2 W3 W4]. unfold ATX_SIZE in *.
  assert (Hs : forall i : nat, (txq_tail v1 + 16 * Z.of_nat i) mod len = (txq_tail v + 16 * Z.of_nat (S i)) mod len).
  { intros i. rewrite E1, Zplus_mod_idemp_l. f_equal. lia. }
  assert (Hz : (txq_tail v + 16 * Z.of_nat 0) mod len = txq_tail v) by (by rewrite Z.add_0_r, Z.mod_small).
  constructor; unfold ATX_SIZE.
  - intros [|i] w Hw; cbn in Hw; [|by rewrite <-Hs; apply W1].
    injection Hw as <-. rewrite Hz, W2; [apply fn_lookup_insert|].
    intros i Hi E. rewrite Hs in E. pose proof (eq_trans Hz E) as E'. apply mod_shift_inj in E'; lia.
  - intros q Hq. rewrite W2; [apply fn_lookup_insert_ne; specialize (Hq 0%nat ltac:(cbn; lia)); congruence|].
    intros i Hi. rewrite Hs. apply Hq. cbn. lia.
  - rewrite W3, E1, Zplus_mod_idemp_l. f_equal. cbn. lia.
  - rewrite W4, E2. cbn. lia.
Qed.

(** The update of the first connection has been sent. *)
Definition bumped_one (s : lib) (c : Z) : lib :=
  let k := l_conns s c in
  let q := fn_core k in
  let s := s <| l_atx := <[q := <[txq_tail (ctx_queues (l_ctx s) q) := conn_update k]> (l_atx s q)]> (l_atx s) |> in
  let s := set_conn (flextcp_context_tx_done s q) c (conn_bumped k) in
  let s := if bump_next k =? NULL then set_ctx s ((l_ctx s) <| bump_pending_last := NULL |>) else s in
  set_ctx s ((l_ctx s) <| bump_pending_first := bump_next k |>).

Lemma bumped_one_fields s c : let k := l_conns s c in let q := fn_core k in let s' := bumped_one s c in
  l_conns s' = <[c := conn_bumped k]> (l_conns s) /\
  l_atx s' = <[q := <[txq_tail (ctx_queues (l_ctx s) q) := conn_update k]> (l_atx s q)]> (l_atx s) /\
  bump_pending_first (l_ctx s') = bump_next k /\
  bump_pending_last (l_ctx s') = (if bump_next k =? NULL then NULL else bump_pending_last (l_ctx s)) /\
  ctx_queues (l_ctx s') = ctx_queues (l_ctx (flextcp_context_tx_done s q)) /\
  txq_len (l_ctx s') = txq_len (l_ctx s) /\ num_queues (l_ctx s') = num_queues (l_ctx s).
Proof. unfold bumped_one. cbv zeta. by destruct (bump_next (l_conns s c) =? NULL). Qed.

Lemma conns_bump_S n s c l : blist s (c :: l) -> status (l_conns s c) = CONN_OPEN ->
  txq_avail (ctx_queues (l_ctx s) (fn_core (l_conns s c))) <> 0 ->
  conns_bump (S n) s = conns_bump n (bumped_one s c).
Proof.
  intros [] Hst Ha. destruct bl_first0 as [Ef _]. cbn [conns_bump]. rewrite Ef.
  rewrite (proj2 (Z.eqb_neq _ _)) by set_solver. rewrite bool_decide_true by done. cbn [mbind outcome_bind assert_].
  unfold flextcp_context_tx_alloc. rewrite (proj2 (Z.eqb_neq _ _)) by done. done.
Qed.

Lemma bumped_one_blist s c l : blist s (c :: l) -> blist (bumped_one s c) l.
Proof.
  intros []. destruct (bumped_one_fields s c) as (E1 & _ & E2 & E3 & _). cbn zeta in *.
  apply NoDup_cons in bl_nodup0 as [Hc Hnd]. destruct bl_first0 as [_ Hch]. constructor; [done|set_solver|..].
  - rewrite E1, E2. apply (chain_ext (l_conns s)); [|done]. intros x Hx. rewrite fn_lookup_insert_ne; [done|set_solver].
  - rewrite E3, bl_last0. destruct l as [|x l]; cbn in Hch.
    + by rewrite Hch.
    + destruct Hch as [-> _]. rewrite (proj2 (Z.eqb_neq _ _)) by set_solver. done.
  - intros x. rewrite E1. destruct (decide (x = c)) as [->|Hx].
    + rewrite fn_lookup_insert. cbn. by rewrite bool_decide_false.
    + rewrite fn_lookup_insert_ne by done. rewrite bl_pending0. apply bool_decide_ext. set_solver.
Qed.

(** The queues of a context. *)
Definition queues_ok (s : lib) : Prop := 0 < txq_len (l_ctx s) < 2147483648 /\
  forall q, 0 <= q < num_queues (l_ctx s) -> txq_ok (txq_len (l_ctx s)) (ctx_queues (l_ctx s) q).

Lemma tx_done_queue s q : 0 < txq_len (l_ctx s) < 2147483648 ->
  let v := ctx_queues (l_ctx s) q in txq_ok (txq_len (l_ctx s)) v -> txq_avail v <> 0 ->
  let v' := ctx_queues (l_ctx (flextcp_context_tx_done s q)) q in
  txq_tail v' = (txq_tail v + ATX_SIZE) mod txq_len (l_ctx s) /\ txq_avail v' = txq_avail v - ATX_SIZE /\
  txq_ok (txq_len (l_ctx s)) v' /\
  forall p, p <> q -> ctx_queues (l_ctx (flextcp_context_tx_done s q)) p = ctx_queues (l_ctx s) p.
Proof.
  intros Hlen v [Ht Ha [x Hx]] H0. unfold flextcp_context_tx_done, set_ctx_queue. cbn. fold v.
  set (len := txq_len (l_ctx s)) in *. unfold ATX_SIZE in *. rewrite fn_lookup_insert. cbn.
  rewrite (u32_small (txq_tail v + 16)), (u32_small (txq_avail v - 16)) by lia.
  assert (Em : (if len <=? txq_tail v + 16 then u32 (txq_tail v + 16 - len) else txq_tail v + 16) = (txq_tail v + 16) mod len).
  { rewrite FastRx.mod_wrap by lia. destruct (Z.leb_spec len (txq_tail v + 16)); [|done]. by rewrite u32_small by lia. }
  rewrite Em. split_and!; try done.
  - constructor; cbn; [apply Z.mod_pos_bound; lia|lia|]. exists (x - 1). unfold ATX_SIZE. lia.
  - intros p Hp. by rewrite fn_lookup_insert_ne.
Qed.

Lemma updates_cons f q c l : updates f q (c :: l) =
  if decide (fn_core (f c) = q) then conn_update (f c) :: updates f q l else updates f q l.
Proof. unfold updates. rewrite filter_cons. by destruct (decide _). Qed.

Lemma updates_ext f g q l : (forall c, c ∈ l -> g c = f c) -> updates g q l = updates f q l.
Proof.
  induction l as [|c l IH]; [done|]. intros Hx. rewrite !updates_cons, (Hx c) by set_solver.
  rewrite IH by set_solver. done.
Qed.

(** [core] determines the update. *)
Lemma core_update k k' : core k = core k' -> conn_update k = conn_update k'.
Proof. intros E. change (conn_update (core k) = conn_update (core k')). by rewrite E. Qed.
Lemma core_bumped k k' : core k = core k' -> core (conn_bumped k) = core (conn_bumped k').
Proof. intros E. change (core (conn_bumped (core k)) = core (conn_bumped (core k'))). by rewrite E. Qed.

Lemma updates_core f g q l : (forall c, core (g c) = core (f c)) -> updates f q l = updates g q l.
Proof.
  intros Hx. induction l as [|c l IH]; [done|]. rewrite !updates_cons, IH.
  rewrite (core_update (f c) (g c)) by done.
  assert (E : fn_core (f c) = fn_core (g c)) by (change (fn_core (core (f c)) = fn_core (core (g c))); by rewrite Hx).
  by rewrite E.
Qed.

Lemma conns_bump_ok l : forall n s, blist s l -> (length l < n)%nat -> queues_ok s ->
  (forall c, c ∈ l -> status (l_conns s c) = CONN_OPEN /\ 0 <= fn_core (l_conns s c) < num_queues (l_ctx s)) ->
  exists l1 l2 s', conns_bump n s = Done s' /\ l = l1 ++ l2 /\ blist s' l2 /\ queues_ok s' /\
    txq_len (l_ctx s') = txq_len (l_ctx s) /\ num_queues (l_ctx s') = num_queues (l_ctx s) /\
    (forall c, l_conns s' c = if decide (c ∈ l1) then conn_bumped (l_conns s c) else l_conns s c) /\
    (forall q, 0 <= q < num_queues (l_ctx s) ->
      txq_written (txq_len (l_ctx s)) (ctx_queues (l_ctx s) q) (ctx_queues (l_ctx s') q) (l_atx s q) (l_atx s' q)
        (updates (l_conns s) q l1)) /\
    (forall c, head l2 = Some c -> txq_avail (ctx_queues (l_ctx s') (fn_core (l_conns s c))) = 0).
Proof.
  induction l as [|c l IH]; intros n s Hb Hn Hq Hst; (destruct n as [|n]; [cbn in Hn; lia|]).
  - exists [], [], s. split_and!; try done.
    + cbn [conns_bump]. pose proof (bl_first _ _ Hb) as Hf. cbn in Hf. by rewrite Hf.
    + intros q Hq'. apply txq_written_nil. by apply Hq.
  - set (k := l_conns s c). set (q0 := fn_core k). destruct (Hst c ltac:(set_solver)) as [Hopen Hcore].
    destruct (decide (txq_avail (ctx_queues (l_ctx s) q0) = 0)) as [E0|E0].
    + exists [], (c :: l), s. split_and!; try done.
      * cbn [conns_bump]. destruct (bl_first _ _ Hb) as [Hf _]. rewrite Hf.
        rewrite (proj2 (Z.eqb_neq _ _)) by (pose proof (bl_null _ _ Hb); set_solver).
        rewrite bool_decide_true by done. cbn [mbind outcome_bind assert_]. unfold flextcp_context_tx_alloc.
        fold k q0. by rewrite E0.
      * intros q Hq'. apply txq_written_nil. by apply Hq.
      * by intros x [= <-].
    + rewrite (conns_bump_S n s c l Hb Hopen E0). pose proof (bumped_one_blist s c l Hb) as Hb1.
      destruct (bumped_one_fields s c) as (F1 & F2 & _ & _ & F3 & F4 & F5). cbn zeta in *. fold k q0 in F1, F2, F3.
      destruct Hq as [Hlen Hq]. destruct (tx_done_queue s q0 Hlen (Hq q0 Hcore) E0) as (T1 & T2 & T3 & T4).
      assert (Hc : c ∉ l) by (by destruct (proj1 (NoDup_cons _ _) (bl_nodup _ _ Hb))).
      set (s1 := bumped_one s c) in *. clearbody s1. rewrite <-F3 in T1, T2, T3. 
      assert (Hsame : forall x, x ∈ l -> l_conns s1 x = l_conns s x) by (intros x Hx; rewrite F1, fn_lookup_insert_ne by set_solver; done).
      destruct (IH n s1) as (l1 & l2 & s' & E & -> & Hb' & Hq' & G1 & G2 & Hc' & Hw & Hend); [done|cbn in Hn; lia| | |].
      { split; rewrite F4; [done|]. intros q Hq1. destruct (decide (q = q0)) as [->|Hne]; [done|].
        rewrite F3, T4 by done. apply Hq. by rewrite <-F5. }
      { intros x Hx. rewrite Hsame, F5 by done. apply Hst. set_solver. }
      exists (c :: l1), l2, s'. rewrite G1, G2. split_and!; try done.
      * intros x. rewrite Hc', F1. destruct (decide (x = c)) as [->|Hx].
        -- rewrite fn_lookup_insert, decide_False, decide_True by set_solver. done.
        -- rewrite fn_lookup_insert_ne by done. destruct (decide (x ∈ l1)); [by rewrite decide_True by set_solver|by rewrite decide_False by set_solver].
      * intros q Hq1. specialize (Hw q ltac:(by rewrite F5)). rewrite F4, F2 in Hw.
        rewrite (updates_ext (l_conns s)) in Hw by set_solver. rewrite updates_cons. fold k q0.
        destruct (decide (q0 = q)) as [<-|Hne].
        -- rewrite fn_lookup_insert in Hw. apply (txq_written_cons _ _ (ctx_queues (l_ctx s1) q0)); try done; [by apply Hq|].
           destruct Hq' as [_ Hq']. apply (Hq' q0). by rewrite G2, F5.
        -- rewrite fn_lookup_insert_ne in Hw by done. by rewrite F3, T4 in Hw.
      * intros x Hx. rewrite <-(Hend x Hx). do 3 f_equal. symmetry. rewrite Hsame; [done|].
        destruct l2; [done|]. injection Hx as ->. set_solver.
Qed.

(** ** Removing a connection that is closed *)

(** The predecessor of [c] is found. *)
Lemma find_bump_pred_ok f c l1 : forall p l2 y n, NoDup (l1 ++ p :: c :: l2) -> NULL ∉ l1 ++ p :: c :: l2 ->
  chain f y (l1 ++ p :: c :: l2) -> (length l1 < n)%nat -> find_bump_pred n f y c = Done p.
Proof.
  induction l1 as [|x l1 IH]; intros p l2 y n Hnd H0 Hch Hn; (destruct n as [|n]; [cbn in Hn; lia|]);
    cbn in Hch; destruct Hch as [-> Hch]; cbn [find_bump_pred];
    rewrite (proj2 (Z.eqb_neq _ NULL)) by set_solver.
  - destruct Hch as [-> _]. by rewrite Z.eqb_refl.
  - cbn in Hnd. apply NoDup_cons in Hnd as [Hx Hnd]. rewrite (proj2 (Z.eqb_neq _ _)).
    + apply (IH p l2); [done|set_solver|done|cbn in Hn; lia].
    + intros E. rewrite E in Hch. destruct l1 as [|z l1]; cbn in Hch; destruct Hch as [-> _]; cbn in Hnd; 
        apply NoDup_cons in Hnd as [Hc _]; set_solver.
Qed.

(** The chain with [c] taken out: its predecessor points past it. *)
Lemma bump_chain_remove f g p c l2 l1 : forall y, NoDup (l1 ++ p :: c :: l2) -> chain f y (l1 ++ p :: c :: l2) ->
  bump_next (g p) = bump_next (f c) -> (forall x, x ∈ l1 ++ l2 -> bump_next (g x) = bump_next (f x)) ->
  chain g y (l1 ++ p :: l2).
Proof.
  induction l1 as [|x l1 IH]; intros y Hnd Hch Hp Hx; cbn in *; destruct Hch as [-> Hch]; (split; [done|]).
  - destruct Hch as [_ Hch]. rewrite Hp. apply (chain_ext f); [set_solver|done].
  - apply NoDup_cons in Hnd as [_ Hnd]. rewrite Hx by set_solver. apply IH; try done. set_solver.
Qed.

(** The next connection on a chain. *)
Lemma bump_chain_next f l1 c l2 : forall y, chain f y (l1 ++ c :: l2) -> bump_next (f c) = default NULL (head l2).
Proof.
  induction l1 as [|x l1 IH]; intros y Hch; cbn in Hch; [|by apply (IH _ (proj2 Hch))].
  destruct Hch as [_ Hch]. destruct l2; cbn in *; [done|]. by destruct Hch.
Qed.

Lemma bump_remove_at_front fuel s l c : blist s (c :: l) -> l <> [] ->
  exists s', bump_remove fuel s c = Done s' /\ blist s' l /\ forall x, core (l_conns s' x) = core (l_conns s x).
Proof.
  intros [] Hl. unfold bump_remove. rewrite bl_pending0, bool_decide_true by set_solver.
  destruct bl_first0 as [Ef Hch]. rewrite Ef, Z.eqb_refl. cbn. eexists. split; [done|].
  apply NoDup_cons in bl_nodup0 as [Hc Hnd]. split; [constructor; cbn; [done|set_solver|..]|].
  - apply (chain_ext (l_conns s)); [|done]. intros x Hx. rewrite fn_lookup_insert_ne; [done|set_solver].
  - rewrite bl_last0. destruct l; [done|]. done.
  - intros x. destruct (decide (x = c)) as [->|Hx]; [rewrite fn_lookup_insert; cbn; by rewrite bool_decide_false|].
    rewrite fn_lookup_insert_ne, bl_pending0 by done. apply bool_decide_ext. set_solver.
  - intros x. cbn. destruct (decide (x = c)) as [->|Hx]; [by rewrite fn_lookup_insert|by rewrite fn_lookup_insert_ne].
Qed.

Lemma bump_remove_inside fuel s l1 p c l2 : blist s (l1 ++ p :: c :: l2) -> (length l1 < fuel)%nat ->
  exists s', bump_remove fuel s c = Done s' /\ blist s' (l1 ++ p :: l2) /\
    forall x, core (l_conns s' x) = core (l_conns s x).
Proof.
  intros [] Hn. unfold bump_remove. rewrite bl_pending0, bool_decide_true by set_solver.
  assert (Hnd : NoDup (c :: l1 ++ p :: l2)) by (revert bl_nodup0; apply NoDup_Permutation_proper; solve_Permutation).
  apply NoDup_cons in Hnd as [Hc Hnd].
  assert (Hpc : p <> c) by set_solver.
  rewrite (proj2 (Z.eqb_neq _ _)).
  2:{ destruct l1; cbn in bl_first0; destruct bl_first0 as [-> _]; set_solver. }
  rewrite (find_bump_pred_ok (l_conns s) c l1 p l2) by done. cbn [mbind outcome_bind].
  rewrite set_conn_same. change (bump_next ((l_conns s p) <| bump_next := bump_next (l_conns s c) |>)) with (bump_next (l_conns s c)).
  set (e := bump_next (l_conns s c)). set (s1 := set_conn s p _). eexists. split; [done|].
  assert (He : e = default NULL (head l2)).
  { apply (bump_chain_next (l_conns s) (l1 ++ [p]) c l2 (bump_pending_first (l_ctx s))). by rewrite <-app_assoc. }
  set (s2 := if e =? NULL then _ else _).
  assert (Hs2 : l_conns s2 = l_conns s1 /\ bump_pending_first (l_ctx s2) = bump_pending_first (l_ctx s) /\
    bump_pending_last (l_ctx s2) = if e =? NULL then p else bump_pending_last (l_ctx s)) by (unfold s2; by destruct (e =? NULL)).
  destruct Hs2 as (H1 & H2 & H3). clearbody s2.
  assert (Hat : forall x, l_conns (set_conn s2 c ((l_conns s2 c) <| bump_pending := false |>)) x =
    if decide (x = c) then (l_conns s c) <| bump_pending := false |> 
    else if decide (x = p) then (l_conns s p) <| bump_next := e |> else l_conns s x).
  { intros x. destruct (decide (x = c)) as [->|Hx].
    - rewrite set_conn_same, H1. unfold s1. by rewrite set_conn_other by done.
    - rewrite set_conn_other, H1 by done. unfold s1. destruct (decide (x = p)) as [->|Hxp]; [by rewrite set_conn_same|by rewrite set_conn_other]. }
  split; [constructor; [done|set_solver|..]|].
  - change (bump_pending_first (l_ctx (set_conn _ _ _))) with (bump_pending_first (l_ctx s2)). rewrite H2.
    apply (bump_chain_remove (l_conns s) _ p c); try done.
    + by rewrite Hat, decide_False, decide_True by done.
    + intros x Hx. rewrite Hat. rewrite !decide_False; [done| |set_solver].
      intros ->. apply NoDup_app in Hnd as (_ & Hd & Hnd). apply NoDup_cons in Hnd as [Hp _]. set_solver.
  - change (bump_pending_last (l_ctx (set_conn _ _ _))) with (bump_pending_last (l_ctx s2)). rewrite H3, He, bl_last0.
    rewrite !last_app_cons, !last_cons. destruct l2 as [|x l2]; cbn; [done|].
    rewrite (proj2 (Z.eqb_neq _ _)) by set_solver. rewrite last_cons. by destruct (last l2).
  - intros x. rewrite Hat. destruct (decide (x = c)) as [->|Hx]; [cbn; by rewrite bool_decide_false|].
    assert (Ex : bool_decide (x ∈ l1 ++ p :: l2) = bump_pending (l_conns s x)).
    { rewrite bl_pending0. apply bool_decide_ext. set_solver. }
    rewrite Ex. by destruct (decide (x = p)) as [->|].
  - intros x. rewrite Hat. destruct (decide (x = c)) as [->|Hx]; [done|]. by destruct (decide (x = p)) as [->|].
Qed.

Lemma filter_ne_id (c : Z) (l : list Z) : c ∉ l -> filter (fun x => x <> c) l = l.
Proof.
  induction l as [|x l IH]; intros Hc; [done|]. rewrite filter_cons_True by set_solver. by rewrite IH by set_solver.
Qed.

Lemma bump_remove_frame fuel s c s' : bump_remove fuel s c = Done s' ->
  l_kin s' = l_kin s /\ kin_head (l_ctx s') = kin_head (l_ctx s) /\ kin_len (l_ctx s') = kin_len (l_ctx s).
Proof.
  unfold bump_remove. destruct (bump_pending _); [|by intros [= <-]]. destruct (c =? _).
  { cbn. by intros [= <-]. }
  destruct (find_bump_pred _ _ _ _) as [p| |]; cbn [mbind outcome_bind]; [|done|done]. intros [= <-]. by destruct (_ =? NULL).
Qed.

Lemma bump_remove_ok fuel s l c : blist s l -> l <> [c] -> (length l < fuel)%nat ->
  exists s', bump_remove fuel s c = Done s' /\ blist s' (filter (fun x => x <> c) l) /\
    forall x, core (l_conns s' x) = core (l_conns s x).
Proof.
  intros Hb Hl Hn. destruct (decide (c ∈ l)) as [Hc|Hc].
  2:{ exists s. unfold bump_remove. rewrite (bl_pending _ _ Hb), bool_decide_false by done. split_and!; try done.
      by rewrite filter_ne_id. }
  apply list_elem_of_split in Hc as (l1 & l2 & ->). pose proof (bl_nodup _ _ Hb) as Hnd.
  apply NoDup_app in Hnd as (_ & Hd & [Hc _]%NoDup_cons).
  assert (Ef : filter (fun x => x <> c) (l1 ++ c :: l2) = l1 ++ l2).
  { rewrite filter_app, filter_cons_False by naive_solver. f_equal; apply filter_ne_id; [|done].
    intros Hx. apply (Hd c Hx). set_solver. }
  rewrite Ef. destruct l1 as [|p l1 _] using rev_ind; cbn [app] in *.
  - apply bump_remove_at_front; [done|]. intros ->. done.
  - rewrite <-app_assoc in *. cbn [app] in *. apply bump_remove_inside; [done|]. rewrite length_app in Hn. cbn in Hn. lia.
Qed.

(** Closing a connection ([flextcp_connection_close]).  The connection is taken off the
    list of pending updates, wherever it is, and the other connections keep their order,
    provided it is not the only one on the list.  With room in the queue to the slow path, the request is written with the
    addresses of the connection and the connection is marked; without room nothing else
    changes and the result is -1. *)
Theorem flextcp_connection_close_correct fuel s l c : blist s l -> l <> [c] -> (length l < fuel)%nat ->
  let k := l_conns s c in let pos := kin_head (l_ctx s) in
  exists s', flextcp_connection_close fuel s c = Done (kin_room s, s') /\
    blist s' (filter (fun x => x <> c) l) /\
    (forall x, x <> c -> core (l_conns s' x) = core (l_conns s x)) /\
    (if kin_room s
     then core (l_conns s' c) = core (k <| status := CONN_CLOSE_REQUESTED |>) /\
       l_kin s' = <[pos := APPOUT_CONN_CLOSE c (remote_ip k) (local_ip k) (remote_port k) (local_port k) 0]> (l_kin s) /\
       kin_head (l_ctx s') = queue_next pos (kin_len (l_ctx s))
     else core (l_conns s' c) = core k /\ l_kin s' = l_kin s /\ kin_head (l_ctx s') = pos).
Proof.
  intros Hb Hl Hn k pos. destruct (bump_remove_ok fuel s l c Hb Hl Hn) as (s1 & E & Hb1 & Hcore).
  destruct (bump_remove_frame fuel s c s1 E) as (K1 & K2 & K3). unfold flextcp_connection_close. rewrite E. cbn [mbind outcome_bind].
  assert (Er : kin_room s1 = kin_room s) by (unfold kin_room; by rewrite K1, K2).
  rewrite Er. destruct (kin_room s); cbn [negb].
  - eexists. split; [done|]. set (k1 := l_conns s1 c).
    assert (Ek : core k1 = core k) by apply Hcore.
    split; [|split; [|split; [|split]]].
    + apply (blist_ext s1); [done| |done|done]. intros x. unfold kin_put, set_conn. cbn.
      destruct (decide (x = c)) as [->|Hx]; [by rewrite !fn_lookup_insert|by rewrite !fn_lookup_insert_ne].
    + intros x Hx. rewrite <-Hcore. unfold kin_put, set_conn. cbn. by rewrite fn_lookup_insert_ne.
    + unfold kin_put, set_conn. cbn. rewrite fn_lookup_insert. fold k1.
      change (core (k1 <| status := CONN_CLOSE_REQUESTED |>)) with ((core k1) <| status := CONN_CLOSE_REQUESTED |>). by rewrite Ek.
    + unfold kin_put, set_conn. cbn. rewrite fn_lookup_insert. fold k1. rewrite K1, K2. fold pos.
      change (<[pos := APPOUT_CONN_CLOSE c (remote_ip (core k1)) (local_ip (core k1)) (remote_port (core k1))
        (local_port (core k1)) 0]> (l_kin s) = <[pos := APPOUT_CONN_CLOSE c (remote_ip k) (local_ip k) (remote_port k) (local_port k) 0]> (l_kin s)).
      by rewrite Ek.
    + unfold kin_put. cbn. by rewrite K2, K3.
  - exists s1. split_and!; try done.
Qed.

(** C30: Updates leave in the order in which connections became pending ([conns_bump],
    [conn_mark_bump]).  A connection that is marked joins the end of the list [l] of
    pending ones, unless it is on it.  [conns_bump] then takes connections [l1] from the
    front and writes one update of each into the queue of its core, behind the tail and in
    the order of the list, with everything accumulated since the last one, whose counters start again; it stops when the list
    is empty or the queue of the next connection is full, and what is left stays pending in
    the same order. *)
Theorem conns_bump_correct s0 l0 c n : blist s0 l0 -> c <> NULL ->
  let s := conn_mark_bump s0 c in
  let l := if bump_pending (l_conns s0 c) then l0 else l0 ++ [c] in
  (length l < n)%nat -> queues_ok s ->
  (forall x, x ∈ l -> status (l_conns s x) = CONN_OPEN /\ 0 <= fn_core (l_conns s x) < num_queues (l_ctx s)) ->
  exists l1 l2 s', conns_bump n s = Done s' /\ l = l1 ++ l2 /\ blist s' l2 /\ queues_ok s' /\
    (forall x, x ∈ l1 -> core (l_conns s' x) = core (conn_bumped (l_conns s0 x))) /\
    (forall x, x ∉ l1 -> core (l_conns s' x) = core (l_conns s0 x)) /\
    (forall q, 0 <= q < num_queues (l_ctx s) ->
      txq_written (txq_len (l_ctx s)) (ctx_queues (l_ctx s0) q) (ctx_queues (l_ctx s') q) (l_atx s0 q) (l_atx s' q)
        (updates (l_conns s0) q l1)) /\
    (forall x, head l2 = Some x -> txq_avail (ctx_queues (l_ctx s') (fn_core (l_conns s0 x))) = 0).
Proof.
  intros Hb Hc s l Hn Hq Hst. destruct (conn_mark_bump_ok s0 l0 c Hb Hc) as (Hb1 & Hm & _). fold s l in Hb1, Hm.
  destruct (conns_bump_ok l n s Hb1 Hn Hq Hst) as (l1 & l2 & s' & E & El & Hb' & Hq' & _ & _ & Hconns & Hw & Hend).
  destruct Hm as [Hcore _ Eatx _ _ Equeues]. exists l1, l2, s'. split_and!; try done.
  - intros x Hx. rewrite Hconns, decide_True by done. by apply core_bumped.
  - intros x Hx. by rewrite Hconns, decide_False.
  - intros q Hq1. specialize (Hw q Hq1). rewrite Eatx, Equeues in Hw. by rewrite (updates_core _ (l_conns s)).
  - intros x Hx. specialize (Hend x Hx). change (fn_core (l_conns s x)) with (fn_core (core (l_conns s x))) in Hend.
    by rewrite Hcore in Hend.
Qed.

(** ** Defects *)

(** Nothing is ever sent from a list whose front has been lost. *)
Lemma lost_front_stays s cs : bump_pending_first (l_ctx s) = NULL -> bump_pending_last (l_ctx s) <> NULL -> NULL ∉ cs ->
  let s' := fold_left conn_mark_bump cs s in
  bump_pending_first (l_ctx s') = NULL /\ bump_pending_last (l_ctx s') <> NULL.
Proof.
  revert s. induction cs as [|c cs IH]; intros s Hf Hl Hn; [done|]. cbn. apply IH; [| |set_solver];
    unfold conn_mark_bump; (destruct (bump_pending _); [done|]); rewrite (proj2 (Z.eqb_neq _ _)) by done; cbn; [done|set_solver].
Qed.

(** Closing the only connection with a pending update leaves [bump_pending_last] pointing to
    it.  Whatever connections become pending afterwards, no update of the context is ever
    sent again. *)
Theorem close_only_pending_stalls fuel s c cs : blist s [c] -> NULL ∉ cs ->
  exists ok s1, flextcp_connection_close fuel s c = Done (ok, s1) /\
    forall n, let s2 := fold_left conn_mark_bump cs s1 in conns_bump (S n) s2 = Done s2.
Proof.
  intros Hb Hcs. pose proof Hb as []. cbn in *. destruct bl_first0 as [Ef En].
  unfold flextcp_connection_close, bump_remove. rewrite bl_pending0, bool_decide_true by set_solver.
  rewrite Ef, Z.eqb_refl. cbn [mbind outcome_bind]. assert (Hc : c <> NULL) by set_solver.
  assert (Hgo : forall s1, bump_pending_first (l_ctx s1) = NULL -> bump_pending_last (l_ctx s1) = c ->
    forall n, let s2 := fold_left conn_mark_bump cs s1 in conns_bump (S n) s2 = Done s2).
  { intros s1 H1 H2 n s2. cbn [conns_bump]. destruct (lost_front_stays s1 cs H1 ltac:(by rewrite H2) Hcs) as [E _]. fold s2 in E. by rewrite E. }
  destruct (negb (kin_room _)); (do 2 eexists; split; [done|]); by apply Hgo.
Qed.

(** ** An example

    Open connections on one core, with a queue of four entries to it. *)
Definition ex_conn : flextcp_connection :=
  mk_connection 4096 1024 0 0 0 8192 1024 0 0 0 0 1 2 3 4 0 0 7 0 NULL NULL 0 false CONN_OPEN 0 false.
Definition ex_lib : lib :=
  mk_lib (fun _ => ex_conn) (fun _ => mk_listener 0 0 0)
    (mk_context 8 0 8 0 128 64 (fun _ => mk_ctx_queue 0 48 64) NULL NULL 0 1 1 0 0)
    (fun _ => APPOUT_INVALID) (fun _ => APPIN_INVALID) (fun _ _ => mk_arx 0 0 0 0 0 0) (fun _ _ => mk_atx 0 0 0 0 0 0).

Lemma ex_blist : blist ex_lib [].
Proof. constructor; try done; [constructor|set_solver]. Qed.
Lemma ex_queues : queues_ok ex_lib.
Proof. split; [done|]. intros q Hq. constructor; [done|done|by exists 4]. Qed.
Lemma ex_marked : blist (conn_mark_bump ex_lib 100) [100].
Proof. by apply (conn_mark_bump_ok ex_lib [] 100 ex_blist). Qed.

Lemma conns_bump_correct_witness : exists l1 l2 s',
  conns_bump 3 (conn_mark_bump (conn_mark_bump ex_lib 100) 200) = Done s' /\ [100; 200] = l1 ++ l2 /\ blist s' l2.
Proof.
  destruct (conns_bump_correct (conn_mark_bump ex_lib 100) [100] 200 3 ex_marked) as (l1 & l2 & s' & E & El & Hb & _).
  - done.
  - vm_compute. lia.
  - exact ex_queues.
  - intros x Hx. apply list_elem_of_In in Hx. cbn in Hx. destruct Hx as [<-|[<-|[]]]; done.
  - by exists l1, l2, s'.
Defined.

Lemma flextcp_connection_close_correct_witness : exists s',
  flextcp_connection_close 5 (conn_mark_bump (conn_mark_bump ex_lib 100) 200) 200 = Done (true, s') /\ blist s' [100].
Proof.
  destruct (conn_mark_bump_ok _ [100] 200 ex_marked ltac:(done)) as (Hb & _).
  destruct (flextcp_connection_close_correct 5 (conn_mark_bump (conn_mark_bump ex_lib 100) 200) [100; 200] 200 Hb)
    as (s' & E & Hb' & _); [done|cbn; lia|].
  by exists s'.
Defined.

Lemma close_only_pending_stalls_witness : exists ok s1,
  flextcp_connection_close 5 (conn_mark_bump ex_lib 100) 100 = Done (ok, s1) /\
    forall n, let s2 := fold_left conn_mark_bump [200; 300] s1 in conns_bump (S n) s2 = Done s2.
Proof. apply (close_only_pending_stalls 5 _ _ [200; 300] ex_marked). set_solver. Defined.

End LibtasSpec.
