(* ===== verification/LibtasProps.v ===== *)
(** * The library of the applications: the two byte streams

    The invariant of an open connection, that every operation of the application keeps it,
    and the events that an update of the fast path produces. *)
From S2P Require Import Prelude Memif FastRx KernelIf Libtas LibtasSpec.
#[local] Open Scope Z_scope.

Module LibtasProps.
Import Libtas LibtasSpec.

(** ** Flags *)

Lemma flag_all fl k : 0 <= k -> (Z.land fl (2 ^ k) =? 2 ^ k) = Z.testbit fl k.
Proof.
  intros Hk. rewrite land_pow2 by done. pose proof (Z.pow_pos_nonneg 2 k). destruct (Z.testbit fl k); [by rewrite Z.eqb_refl|].
  apply Z.eqb_neq. lia.
Qed.
Lemma flag_none fl k : 0 <= k -> (Z.land fl (2 ^ k) =? 0) = negb (Z.testbit fl k).
Proof. intros Hk. rewrite <-(has_pow2 fl k Hk). unfold has. by rewrite negb_involutive. Qed.
Lemma flag_lor fl j k : 0 <= j -> 0 <= k -> Z.testbit (Z.lor fl (2 ^ j)) k = Z.testbit fl k || (j =? k).
Proof. intros. rewrite Z.lor_spec. f_equal. rewrite Z.pow2_bits_eqb by done. done. Qed.

(** The flags of a connection: the application has closed its stream, the end of the
    stream has its place in the buffer, and it has been acknowledged. *)
Definition eos (k : flextcp_connection) : bool := Z.testbit (flags k) 0.
Definition eos_alloc (k : flextcp_connection) : bool := Z.testbit (flags k) 1.
Definition eos_ack (k : flextcp_connection) : bool := Z.testbit (flags k) 2.

Lemma txeos_flag k : (Z.land (flags k) CONN_FLAG_TXEOS =? CONN_FLAG_TXEOS) = eos k.
Proof. by apply (flag_all _ 0). Qed.
Lemma txeos_none k : (Z.land (flags k) CONN_FLAG_TXEOS =? 0) = negb (eos k).
Proof. by apply (flag_none _ 0). Qed.
Lemma alloc_flag k : (Z.land (flags k) CONN_FLAG_TXEOS_ALLOC =? CONN_FLAG_TXEOS_ALLOC) = eos_alloc k.
Proof. by apply (flag_all _ 1). Qed.
Lemma alloc_none k : (Z.land (flags k) CONN_FLAG_TXEOS_ALLOC =? 0) = negb (eos_alloc k).
Proof. by apply (flag_none _ 1). Qed.
Lemma ack_none k : (Z.land (flags k) CONN_FLAG_TXEOS_ACK =? 0) = negb (eos_ack k).
Proof. by apply (flag_none _ 2). Qed.

(** ** The transmit side of a connection

    Of the buffer, [txb_sent] bytes before the head are on their way, [txb_allocated]
    behind it are being written by the application, and the last [txb_bump] of the former
    have not been announced to the fast path yet. *)
Record tx_ok (k : flextcp_connection) : Prop := {
  to_len : 0 < txb_len k < 1073741824;
  to_head : 0 <= txb_head k < txb_len k;
  to_bump : 0 <= txb_bump k <= txb_sent k;
  to_alloc : 0 <= txb_allocated k;
  to_room : txb_sent k + txb_allocated k <= txb_len k;
  to_eos : eos_alloc k = true -> eos k = true;
  to_closed : eos k = true -> txb_allocated k = 0;
  to_ack : eos_ack k = true -> eos_alloc k = true /\ txb_sent k = 0
}.

(** The end of the stream takes its place, which is a byte of the buffer. *)
Definition eos_pushed (k : flextcp_connection) : flextcp_connection :=
  k <| txb_sent := txb_sent k + 1 |> <| txb_head := (txb_head k + 1) mod txb_len k |>
    <| flags := Z.lor (flags k) CONN_FLAG_TXEOS_ALLOC |> <| txb_bump := txb_bump k + 1 |>.

(** [n] bytes are acknowledged. *)
Definition tx_acked (k : flextcp_connection) (n : Z) : flextcp_connection :=
  if 0 <? n then
    let k := k <| txb_sent := txb_sent k - n |> in
    if eos k && negb (eos_alloc k) then eos_pushed k
    else if eos_alloc k && (txb_sent k =? 0) then k <| flags := Z.lor (flags k) CONN_FLAG_TXEOS_ACK |> else k
  else k.

Lemma conn_mark_bump_core s c x : core (l_conns (conn_mark_bump s c) x) = core (l_conns s x).
Proof.
  unfold conn_mark_bump. destruct (bump_pending _); [done|]. set (p := bump_pending_last (l_ctx s)).
  set (s1 := set_conn s c _). assert (H1 : forall x, core (l_conns s1 x) = core (l_conns s x)).
  { intros y. unfold s1. destruct (decide (y = c)) as [->|Hy]; [by rewrite set_conn_same|by rewrite set_conn_other]. }
  clearbody s1. rewrite <-H1. set (s2 := if negb (p =? NULL) then _ else _).
  assert (H2 : forall x, core (l_conns s2 x) = core (l_conns s1 x)).
  { intros y. unfold s2. destruct (negb _); [|done].
    destruct (decide (y = p)) as [->|Hy]; [by rewrite set_conn_same|by rewrite set_conn_other]. }
  clearbody s2. rewrite <-H2. unfold set_conn, set_ctx. cbn.
  destruct (decide (x = c)) as [->|Hx]; [by rewrite fn_lookup_insert|by rewrite fn_lookup_insert_ne].
Qed.

(** [s'] is [s] but for the connection [c], which is [k], and the places on the list of
    pending updates. *)
Record changed (s s' : lib) (c : Z) (k : flextcp_connection) : Prop := {
  ch_conn : core (l_conns s' c) = core k;
  ch_others x : x <> c -> core (l_conns s' x) = core (l_conns s x)
}.

Lemma changed_set s c k : changed s (set_conn s c k) c k.
Proof. constructor; [by rewrite set_conn_same|]. intros x Hx. by rewrite set_conn_other. Qed.
Lemma changed_mark s c k : changed s (conn_mark_bump (set_conn s c k) c) c k.
Proof. constructor; [|intros x Hx]; rewrite conn_mark_bump_core; [by rewrite set_conn_same|by rewrite set_conn_other]. Qed.
Lemma changed_trans s s1 s' c k1 k : changed s s1 c k1 -> changed s1 s' c k -> changed s s' c k.
Proof. intros [] []. constructor; [done|]. intros x Hx. by rewrite ch_others1, ch_others0. Qed.

Lemma ring_pos (head n len : Z) : 0 < len < 1073741824 -> 0 <= head < len -> 0 <= n <= len ->
  (if len <=? u32 (head + n) then u32 (u32 (head + n) - len) else u32 (head + n)) = (head + n) mod len.
Proof.
  intros. rewrite (u32_small (head + n)) by lia. rewrite FastRx.mod_wrap by lia.
  destruct (Z.leb_spec len (head + n)); [|done]. by rewrite u32_small by lia.
Qed.

Lemma allocbytes_ok k : tx_ok k -> conn_tx_allocbytes k = txb_len k - txb_sent k - txb_allocated k.
Proof. intros []. unfold conn_tx_allocbytes. rewrite u32_small; lia. Qed.

(** [flextcp_conn_pushtxeos] on a closed stream: only a full buffer makes it wait. *)
Lemma pushtxeos_ok s c : let k := l_conns s c in tx_ok k -> eos k = true ->
  if txb_sent k =? txb_len k then flextcp_conn_pushtxeos s c = Done (false, s)
  else exists s', flextcp_conn_pushtxeos s c = Done (true, s') /\ changed s s' c (eos_pushed k).
Proof.
  intros k Hk He. pose proof Hk as []. unfold flextcp_conn_pushtxeos. fold k. unfold conn_tx_sendbytes.
  rewrite (to_closed0 He), Z.eqb_refl, txeos_none, He. cbn [negb assert_ mbind outcome_bind].
  rewrite allocbytes_ok by done. rewrite (to_closed0 He), Z.sub_0_r.
  destruct (Z.eqb_spec (txb_sent k) (txb_len k)) as [E|E].
  - by rewrite (proj2 (Z.eqb_eq _ _)) by lia.
  - rewrite (proj2 (Z.eqb_neq _ _)) by lia. eexists. split; [done|].
    rewrite (u32_small (txb_sent k + 1)) by lia. cbn [txb_bump setter].
    change (txb_bump (_ <| flags := _ |>)) with (txb_bump k). rewrite (u32_small (txb_bump k + 1)) by lia.
    change (txb_head (k <| txb_sent := txb_sent k + 1 |>)) with (txb_head k).
    change (txb_len (k <| txb_sent := txb_sent k + 1 |>)) with (txb_len k).
    rewrite ring_pos by lia. apply changed_mark.
Qed.

Lemma pushed_flags k : eos (eos_pushed k) = eos k /\ eos_alloc (eos_pushed k) = true /\ eos_ack (eos_pushed k) = eos_ack k.
Proof.
  unfold eos, eos_alloc, eos_ack, eos_pushed. cbn [flags setter].
  change CONN_FLAG_TXEOS_ALLOC with (2 ^ 1). rewrite !flag_lor by done. cbn. by rewrite !orb_false_r, orb_true_r.
Qed.

Lemma pushed_ok k : tx_ok k -> eos k = true -> txb_sent k < txb_len k -> eos_ack k = false -> tx_ok (eos_pushed k).
Proof.
  intros [] He Hr Ha. destruct (pushed_flags k) as (E1 & E2 & E3).
  constructor; rewrite ?E1, ?E2, ?E3; unfold eos_pushed; cbn; try lia; try done.
  - apply Z.mod_pos_bound. lia.
  - rewrite (to_closed0 He). lia.
  - intros E. change (eos_ack k = true) in E. by rewrite Ha in E.
Qed.

Lemma acked_flags k : let k' := k <| flags := Z.lor (flags k) CONN_FLAG_TXEOS_ACK |> in
  eos k' = eos k /\ eos_alloc k' = eos_alloc k /\ eos_ack k' = true.
Proof.
  unfold eos, eos_alloc, eos_ack. cbn [flags setter].
  change CONN_FLAG_TXEOS_ACK with (2 ^ 2). rewrite !flag_lor by done. cbn. by rewrite !orb_false_r, orb_true_r.
Qed.

(** Acknowledged bytes leave the buffer. *)
Lemma less_sent_ok k n : tx_ok k -> 0 <= n <= txb_sent k - txb_bump k -> tx_ok (k <| txb_sent := txb_sent k - n |>).
Proof. intros [] Hn. constructor; try done; cbn; try lia. intros He. destruct (to_ack0 He). split; [done|lia]. Qed.

Lemma tx_acked_ok k n : tx_ok k -> 0 <= n <= txb_sent k - txb_bump k -> tx_ok (tx_acked k n).
Proof.
  intros Hk Hn. pose proof (less_sent_ok k n Hk Hn) as H1. pose proof Hk as []. unfold tx_acked. cbv zeta.
  destruct (Z.ltb_spec 0 n); [|done]. set (k1 := k <| txb_sent := txb_sent k - n |>) in *.
  assert (Ha : eos_ack k1 = false) by (apply not_true_iff_false; intros E; destruct (to_ack0 E); lia).
  destruct (eos k1) eqn:Ee, (eos_alloc k1) eqn:El; cbn [negb andb]; try done.
  - destruct (Z.eqb_spec (txb_sent k1) 0); [|done]. destruct (acked_flags k1) as (F1 & F2 & F3). pose proof H1 as [].
    constructor; rewrite ?F1, ?F2, ?F3; done.
  - apply pushed_ok; try done. unfold k1. cbn. lia.
  - pose proof (to_eos _ H1 El). congruence.
Qed.

(** [update_tx]: the events, and the connection afterwards; no assertion fails. *)
Lemma update_tx_ok s c n av : let k := l_conns s c in tx_ok k -> 0 <= n <= txb_sent k - txb_bump k ->
  exists s', update_tx s c n av = Done
    ((if (0 <? n) && av then [EV_CONN_SENDBUF c] else []) ++
     (if (0 <? n) && eos_alloc k && (txb_sent k =? n) then [EV_CONN_TXCLOSED c] else []), s') /\ changed s s' c (tx_acked k n).
Proof.
  intros k Hk Hn. pose proof Hk as []. pose proof (less_sent_ok k n Hk Hn) as H1. unfold update_tx, tx_acked. cbv zeta. fold k.
  destruct (Z.ltb_spec 0 n); cbn [andb].
  2:{ exists s. split; [done|]. by constructor. }
  rewrite (u32_small (txb_sent k - n)) by lia. set (k1 := k <| txb_sent := txb_sent k - n |>) in *.
  assert (Ha : eos_ack k1 = false) by (apply not_true_iff_false; intros E; destruct (to_ack0 E); lia).
  rewrite txeos_flag, alloc_none, alloc_flag, ack_none, Ha. change (eos_alloc k) with (eos_alloc k1).
  assert (Ez : (txb_sent k1 =? 0) = (txb_sent k =? n)).
  { unfold k1. cbn. destruct (Z.eqb_spec (txb_sent k) n), (Z.eqb_spec (txb_sent k - n) 0); (done || lia). }
  rewrite Ez. destruct (eos k1) eqn:Ee, (eos_alloc k1) eqn:El; cbn [negb andb assert_ mbind outcome_bind];
    rewrite ?app_nil_r; try (pose proof (to_eos _ H1 El); congruence).
  - destruct (txb_sent k =? n); rewrite ?app_nil_r; eexists; (split; [done|]); [|apply changed_set].
    eapply changed_trans; apply changed_set.
  - pose proof (pushtxeos_ok (set_conn s c k1) c) as Hp. rewrite set_conn_same in Hp.
    specialize (Hp H1 Ee). rewrite (proj2 (Z.eqb_neq _ _)) in Hp by (unfold k1; cbn; lia).
    destruct Hp as (s' & -> & Hch). cbn [mbind outcome_bind negb]. exists s'. split; [done|].
    eapply changed_trans; [apply changed_set|done].
  - eexists. split; [done|]. apply changed_set.
Qed.

(** *** Received bytes *)

(** The addresses of the bytes an event tells about, and of [n] bytes of a receive buffer
    from its head on. *)
Definition event_bytes (e : flextcp_event) : list Z :=
  match e with EV_CONN_RECEIVED buf len _ => (fun i => buf + i) <$> seqZ 0 len | _ => [] end.
Definition rx_bytes (k : flextcp_connection) (n : Z) : list Z :=
  (fun i => rxb_base k + (rxb_head k + i) mod rxb_len k) <$> seqZ 0 n.

(** The receive side of a connection.  The head may be at the end of the buffer. *)
Record rx_ok (k : flextcp_connection) : Prop := {
  ro_len : 0 < rxb_len k < 1073741824;
  ro_head : 0 <= rxb_head k <= rxb_len k;
  ro_used : 0 <= rxb_used k;
  ro_bump : 0 <= rxb_bump k;
  ro_room : rxb_used k + rxb_bump k <= rxb_len k
}.

Lemma seqZ_fmap_ext (f g : Z -> Z) n : (forall i, 0 <= i < n -> f i = g i) -> f <$> seqZ 0 n = g <$> seqZ 0 n.
Proof. intros Hx. apply list_fmap_ext. intros j i Hi. apply lookup_seqZ in Hi. apply Hx. lia. Qed.

(** The connection with [n] more received bytes, its head at [h]. *)
Definition rx_received (k : flextcp_connection) (n h sq : Z) : flextcp_connection :=
  k <| seq_rx := sq |> <| rxb_head := h |> <| rxb_used := rxb_used k + n |>.

Lemma update_rx_ok k c n : rx_ok k -> 0 <= n <= rxb_len k - rxb_used k -> exists evs h sq,
  update_rx k c n = (evs, if 0 <? n then rx_received k n h sq else k) /\
  concat (event_bytes <$> evs) = rx_bytes k n /\
  (forall e, e ∈ evs -> exists b l, e = EV_CONN_RECEIVED b l c /\ rxb_base k <= b /\ b + l <= rxb_base k + rxb_len k) /\
  Z.of_nat (length evs) = (if 0 <? n then if rxb_len k <? rxb_head k + n then 2 else 1 else 0) /\
  0 <= h <= rxb_len k /\ h mod rxb_len k = (rxb_head k + n) mod rxb_len k.
Proof.
  intros [] Hn. unfold update_rx. destruct (Z.ltb_spec 0 n).
  2:{ assert (n = 0) as -> by lia. exists [], (rxb_head k), 0. split_and!; try done; try lia; [set_solver|by rewrite Z.add_0_r]. }
  assert (Eu : u32 (rxb_used k + n) = rxb_used k + n) by (apply u32_small; lia).
  assert (Es : u32 (rxb_head k + n) = rxb_head k + n) by (apply u32_small; lia).
  set (h := if rxb_len k <=? u32 (rxb_head k + n) then u32 (u32 (rxb_head k + n) - rxb_len k) else u32 (rxb_head k + n)).
  assert (Hh : 0 <= h <= rxb_len k /\ h mod rxb_len k = (rxb_head k + n) mod rxb_len k).
  { unfold h. rewrite Es. destruct (Z.leb_spec (rxb_len k) (rxb_head k + n)); [|by split; [lia|]].
    rewrite u32_small by lia. split; [lia|]. replace (rxb_head k + n) with (rxb_head k + n - rxb_len k + 1 * rxb_len k) at 2 by lia.
    by rewrite Z.mod_add by lia. }
  eexists _, h, (u32 (seq_rx k + n)). split; [unfold rx_received; rewrite <-Eu; reflexivity|].
  rewrite Es, (u32_small (rxb_len k - rxb_head k)) by lia. destruct (Z.ltb_spec (rxb_len k) (rxb_head k + n)) as [Hw|Hw].
  - rewrite u32_small by lia. split_and!; try done; try lia.
    + cbn. rewrite app_nil_r. unfold rx_bytes.
      replace n with (rxb_len k - rxb_head k + (n - (rxb_len k - rxb_head k))) at 2 by lia.
      rewrite seqZ_app, fmap_app by lia. f_equal.
      * apply seqZ_fmap_ext. intros i Hi. rewrite Z.mod_small by lia. lia.
      * rewrite (Z.add_comm 0), <-fmap_add_seqZ, <-list_fmap_compose.
        apply seqZ_fmap_ext. intros i Hi. cbn. replace (rxb_head k + (rxb_len k - rxb_head k + i)) with (i + 1 * rxb_len k) by lia.
        rewrite Z.mod_add by lia. rewrite Z.mod_small by lia. done.
    + intros e [->|[->|He]%elem_of_cons]%elem_of_cons; [eexists _, _; split; [done|lia]..|set_solver].
  - split_and!; try done; try lia.
    + cbn. rewrite app_nil_r. unfold rx_bytes. apply seqZ_fmap_ext. intros i Hi. rewrite Z.mod_small by lia. lia.
    + intros e [->|He]%elem_of_cons; [eexists _, _; split; [done|lia]|set_solver].
Qed.

(** ** Updates of the fast path *)

Definition arx_eos (e : arx) : bool := Z.land (arx_flags e) FLEXTCP_PL_ARX_FLRXDONE =? FLEXTCP_PL_ARX_FLRXDONE.

(** What an update may say about a connection. *)
Definition update_fits (k : flextcp_connection) (e : arx) : Prop :=
  0 <= arx_rx_bump e <= rxb_len k - rxb_used k - rxb_bump k /\ 0 <= arx_tx_bump e <= txb_sent k - txb_bump k.

(** The events behind the received bytes. *)
Definition tx_events (k : flextcp_connection) (e : arx) (c : Z) : list flextcp_event :=
  (if (0 <? arx_tx_bump e) && (txb_sent k + txb_allocated k =? txb_len k) then [EV_CONN_SENDBUF c] else []) ++
  (if (0 <? arx_tx_bump e) && eos_alloc k && (txb_sent k =? arx_tx_bump e) then [EV_CONN_TXCLOSED c] else []) ++
  (if arx_eos e then [EV_CONN_RXCLOSED c] else []).

(** The connection after an update, with the new head of the receive buffer. *)
Definition updated (k : flextcp_connection) (e : arx) (q h sq : Z) : flextcp_connection :=
  let k := k <| fn_core := q |> in
  let k := if 0 <? arx_rx_bump e then rx_received k (arx_rx_bump e) h sq else k in
  let k := tx_acked k (arx_tx_bump e) in
  if arx_eos e then k <| rx_closed := true |> else k.

Lemma buffer_full k : tx_ok k -> (flextcp_conn_txbuf_available k =? 0) = (txb_sent k + txb_allocated k =? txb_len k).
Proof.
  intros Hk. unfold flextcp_conn_txbuf_available. rewrite allocbytes_ok by done. pose proof Hk as [].
  destruct (Z.eqb_spec (txb_sent k + txb_allocated k) (txb_len k));
    [by rewrite (proj2 (Z.eqb_eq _ _)) by lia|by rewrite (proj2 (Z.eqb_neq _ _)) by lia].
Qed.

Lemma tx_events_needed k e c : rx_ok k -> tx_ok k -> update_fits k e ->
  Z.of_nat (length (tx_events k e c)) +
    (if 0 <? arx_rx_bump e then if rxb_len k <? rxb_head k + arx_rx_bump e then 2 else 1 else 0)
  <= evs_needed k (arx_rx_bump e) (arx_tx_bump e) (arx_eos e).
Proof.
  intros [] Hk [Hr Ht]. pose proof Hk as []. unfold evs_needed, tx_events.
  rewrite buffer_full, alloc_flag by done. rewrite (u32_small (rxb_head k + _)), (u32_small (txb_sent k - _)) by lia.
  rewrite !length_app. destruct (0 <? arx_tx_bump e) eqn:E1, (txb_sent k + txb_allocated k =? txb_len k) eqn:E2, (eos_alloc k) eqn:E3,
    (txb_sent k =? arx_tx_bump e) eqn:E4, (txb_sent k - arx_tx_bump e =? 0) eqn:E5, (arx_eos e); cbn; breflect; lia.
Qed.

Lemma connupdate_ok s e outn q : let c := arx_opaque e in let k := l_conns s c in
  status k = CONN_OPEN -> rx_ok k -> tx_ok k -> update_fits k e ->
  if outn <? evs_needed k (arx_rx_bump e) (arx_tx_bump e) (arx_eos e)
  then exists s', event_arx_connupdate s e outn q = Done (None, s') /\ changed s s' c (k <| fn_core := q |>)
  else exists erx h sq s', event_arx_connupdate s e outn q = Done (Some (erx ++ tx_events k e c), s') /\
    changed s s' c (updated k e q h sq) /\
    concat (event_bytes <$> erx) = rx_bytes k (arx_rx_bump e) /\
    (forall ev, ev ∈ erx -> exists b l, ev = EV_CONN_RECEIVED b l c /\ rxb_base k <= b /\ b + l <= rxb_base k + rxb_len k) /\
    Z.of_nat (length erx) = (if 0 <? arx_rx_bump e then if rxb_len k <? rxb_head k + arx_rx_bump e then 2 else 1 else 0) /\
    0 <= h <= rxb_len k /\ h mod rxb_len k = (rxb_head k + arx_rx_bump e) mod rxb_len k.
Proof.
  intros c k Hst Hrx Htx [Hr Ht]. unfold event_arx_connupdate. fold c k. rewrite set_conn_same.
  change (status (k <| fn_core := q |>)) with (status k). rewrite Hst.
  change (evs_needed (k <| fn_core := q |>)) with (evs_needed k).
  fold (arx_eos e). destruct (outn <? _); [eexists; split; [done|apply changed_set]|].
  change (flextcp_conn_txbuf_available (k <| fn_core := q |>)) with (flextcp_conn_txbuf_available k). rewrite buffer_full by done.
  pose proof Hrx as [].
  destruct (update_rx_ok (k <| fn_core := q |>) c (arx_rx_bump e)) as (erx & h & sq & -> & U1 & U2 & U3 & U4 & U5);
    [by constructor|change (0 <= arx_rx_bump e <= rxb_len k - rxb_used k); lia|].
  set (k1 := if 0 <? arx_rx_bump e then _ else k <| fn_core := q |>).
  assert (H1 : tx_ok k1 /\ txb_sent k1 = txb_sent k /\ txb_bump k1 = txb_bump k /\ eos_alloc k1 = eos_alloc k).
  { destruct Htx. unfold k1. by destruct (0 <? arx_rx_bump e). }
  destruct H1 as (Hk1 & E1 & E2 & E3).
  set (s0 := set_conn s c (k <| fn_core := q |>)).
  pose proof (update_tx_ok (set_conn s0 c k1) c (arx_tx_bump e)
    ((0 <? arx_tx_bump e) && (txb_sent k + txb_allocated k =? txb_len k))) as Hu.
  cbv zeta in Hu. rewrite !set_conn_same, E1, E2, E3 in Hu. destruct (Hu Hk1 Ht) as (s1 & -> & Hch). cbn [mbind outcome_bind].
  assert (Hch' : changed s s1 c (tx_acked k1 (arx_tx_bump e))).
  { eapply changed_trans; [apply changed_set|]. eapply changed_trans; [apply changed_set|exact Hch]. }
  rewrite andb_assoc, andb_diag. exists erx, h, sq. unfold tx_events, updated. fold k1.
  destruct (arx_eos e); rewrite <-!app_assoc; eexists; (split; [reflexivity|]); (split; [|done]); [|done].
  eapply changed_trans; [exact Hch'|]. split; [|by intros x Hx; rewrite set_conn_other].
  rewrite set_conn_same. change (core ((l_conns s1 c) <| rx_closed := true |>)) with ((core (l_conns s1 c)) <| rx_closed := true |>).
  by rewrite (ch_conn _ _ _ _ Hch').
Qed.

Lemma tx_acked_frame k n : rxb_used (tx_acked k n) = rxb_used k /\ rxb_bump (tx_acked k n) = rxb_bump k /\
  rxb_head (tx_acked k n) = rxb_head k /\ rxb_len (tx_acked k n) = rxb_len k /\ rxb_base (tx_acked k n) = rxb_base k /\
  txb_len (tx_acked k n) = txb_len k /\ txb_allocated (tx_acked k n) = txb_allocated k /\ status (tx_acked k n) = status k /\
  bump_seq (tx_acked k n) = bump_seq k /\ flow_id (tx_acked k n) = flow_id k.
Proof. unfold tx_acked, eos_pushed. cbv zeta. destruct (0 <? n); [|done]. destruct (_ && _)%bool; [done|]. by destruct (_ && _)%bool. Qed.

Lemma updated_fields k e q h sq : update_fits k e -> let k' := updated k e q h sq in
  rxb_used k' = rxb_used k + arx_rx_bump e /\ rxb_bump k' = rxb_bump k /\ rxb_len k' = rxb_len k /\ rxb_base k' = rxb_base k /\
  rxb_head k' = (if 0 <? arx_rx_bump e then h else rxb_head k) /\
  txb_len k' = txb_len k /\ txb_allocated k' = txb_allocated k /\ status k' = status k /\ bump_seq k' = bump_seq k /\
  rx_closed k' = (arx_eos e || rx_closed (tx_acked k (arx_tx_bump e))) /\
  (txb_sent k', txb_bump k', txb_head k', flags k') =
    (let a := tx_acked k (arx_tx_bump e) in (txb_sent a, txb_bump a, txb_head a, flags a)).
Proof.
  intros [Hr Ht]. unfold updated. cbv zeta.
  set (k1 := if 0 <? arx_rx_bump e then _ else k <| fn_core := q |>).
  assert (H1 : rxb_used k1 = rxb_used k + arx_rx_bump e /\ rxb_bump k1 = rxb_bump k /\ rxb_len k1 = rxb_len k /\ rxb_base k1 = rxb_base k /\
    rxb_head k1 = (if 0 <? arx_rx_bump e then h else rxb_head k) /\ txb_len k1 = txb_len k /\ txb_allocated k1 = txb_allocated k /\
    status k1 = status k /\ bump_seq k1 = bump_seq k /\ txb_sent k1 = txb_sent k /\ txb_bump k1 = txb_bump k /\ txb_head k1 = txb_head k /\
    flags k1 = flags k /\ rx_closed k1 = rx_closed k).
  { unfold k1. destruct (Z.ltb_spec 0 (arx_rx_bump e)); [done|]. split_and!; try done. cbn. lia. }
  clearbody k1. destruct H1 as (A1&A2&A3&A4&A5&A6&A7&A8&A9&A10&A11&A12&A13&A14).
  destruct (tx_acked_frame k1 (arx_tx_bump e)) as (F1&F2&F3&F4&F5&F6&F7&F8&F9&_).
  assert (Et : (txb_sent (tx_acked k1 (arx_tx_bump e)), txb_bump (tx_acked k1 (arx_tx_bump e)), txb_head (tx_acked k1 (arx_tx_bump e)),
      flags (tx_acked k1 (arx_tx_bump e)), rx_closed (tx_acked k1 (arx_tx_bump e)))
    = (txb_sent (tx_acked k (arx_tx_bump e)), txb_bump (tx_acked k (arx_tx_bump e)), txb_head (tx_acked k (arx_tx_bump e)),
      flags (tx_acked k (arx_tx_bump e)), rx_closed (tx_acked k (arx_tx_bump e)))).
  { unfold tx_acked, eos_pushed, eos, eos_alloc. destruct (0 <? arx_tx_bump e); cbn;
      [rewrite A10, A13; destruct (_ && _)%bool; cbn; [by rewrite A6, A11, A12, A14|destruct (_ && _)%bool; cbn; by rewrite ?A11, ?A12, ?A13, ?A14]|
       by rewrite A10, A11, A12, A13, A14]. }
  injection Et as T1 T2 T3 T4 T5.
  destruct (arx_eos e); cbn; rewrite ?F1, ?F2, ?F3, ?F4, ?F5, ?F6, ?F7, ?F8, ?F9; split_and!; try congruence.
Qed.

Lemma updated_ok k e q h sq : rx_ok k -> tx_ok k -> update_fits k e -> 0 <= h <= rxb_len k ->
  rx_ok (updated k e q h sq) /\ tx_ok (updated k e q h sq).
Proof.
  intros [] Htx Hf Hh. destruct (updated_fields k e q h sq Hf) as (E1&E2&E3&E4&E5&E6&E7&E8&_&_&Et). cbv zeta in *.
  pose proof (tx_acked_ok k (arx_tx_bump e) Htx (proj2 Hf)) as [].
  destruct (tx_acked_frame k (arx_tx_bump e)) as (_&_&_&_&_&F6&F7&_). rewrite F6, F7 in *.
  injection Et as T1 T2 T3 T4. destruct Hf as [Hr Ht]. split.
  - constructor; rewrite ?E1, ?E2, ?E3, ?E5; try lia. destruct (0 <? arx_rx_bump e); lia.
  - constructor; unfold eos, eos_alloc, eos_ack in *; rewrite ?E6, ?E7, ?T1, ?T2, ?T3, ?T4; done.
Qed.

Lemma elem_of_if {A} (b : bool) (x y : A) : y ∈ (if b then [x] else []) <-> b = true /\ y = x.
Proof. destruct b; set_solver. Qed.

Lemma tx_events_in k e c ev : ev ∈ tx_events k e c <->
  (ev = EV_CONN_SENDBUF c /\ 0 < arx_tx_bump e /\ txb_sent k + txb_allocated k = txb_len k) \/
  (ev = EV_CONN_TXCLOSED c /\ 0 < arx_tx_bump e /\ eos_alloc k = true /\ txb_sent k = arx_tx_bump e) \/
  (ev = EV_CONN_RXCLOSED c /\ arx_eos e = true).
Proof.
  unfold tx_events. rewrite !elem_of_app, !elem_of_if, !andb_true_iff, Z.ltb_lt, !Z.eqb_eq. naive_solver.
Qed.

Lemma tx_events_bytes k e c : concat (event_bytes <$> tx_events k e c) = [].
Proof. unfold tx_events. by destruct (_ && _)%bool, (_ && _)%bool, (arx_eos e). Qed.

(** The acknowledged bytes are those that the fast path no longer has. *)
Lemma tx_acked_count k n : 0 <= n -> txb_sent (tx_acked k n) - txb_bump (tx_acked k n) = txb_sent k - txb_bump k - n.
Proof.
  intros Hn. unfold tx_acked, eos_pushed. cbv zeta. destruct (Z.ltb_spec 0 n); [|lia].
  destruct (_ && _)%bool; [cbn; lia|]. destruct (_ && _)%bool; cbn; lia.
Qed.

(** C29: An update of the fast path for an open connection ([event_arx_connupdate]).  No
    assertion fails.  If the events might not fit, nothing happens but for the record of
    the core.  Otherwise the events fit; they tell the application about exactly the new bytes of the
    receive buffer, in order and without leaving the buffer; that there is room in the transmit
    buffer, when it was full; that the end of its own stream has been acknowledged; and that
    the peer has closed.  The counts of both buffers follow, and stay within bounds. *)
Theorem event_arx_connupdate_correct s e outn q : let c := arx_opaque e in let k := l_conns s c in
  status k = CONN_OPEN -> rx_ok k -> tx_ok k -> update_fits k e ->
  let need := evs_needed k (arx_rx_bump e) (arx_tx_bump e) (arx_eos e) in
  exists r s' k', event_arx_connupdate s e outn q = Done (r, s') /\ changed s s' c k' /\ rx_ok k' /\ tx_ok k' /\
    match r with
    | None => outn < need /\ k' = k <| fn_core := q |>
    | Some evs => need <= outn /\ Z.of_nat (length evs) <= need /\
      concat (event_bytes <$> evs) = rx_bytes k (arx_rx_bump e) /\
      (forall b l x, EV_CONN_RECEIVED b l x ∈ evs -> x = c /\ rxb_base k <= b /\ b + l <= rxb_base k + rxb_len k) /\
      (EV_CONN_SENDBUF c ∈ evs <-> 0 < arx_tx_bump e /\ txb_sent k + txb_allocated k = txb_len k) /\
      (EV_CONN_TXCLOSED c ∈ evs <-> 0 < arx_tx_bump e /\ eos_alloc k = true /\ txb_sent k = arx_tx_bump e) /\
      (EV_CONN_RXCLOSED c ∈ evs <-> arx_eos e = true) /\
      rxb_used k' = rxb_used k + arx_rx_bump e /\ rxb_bump k' = rxb_bump k /\
      txb_sent k' - txb_bump k' = txb_sent k - txb_bump k - arx_tx_bump e
    end.
Proof.
  intros c k Hst Hrx Htx Hf need. pose proof (connupdate_ok s e outn q Hst Hrx Htx Hf) as Hu. fold c k need in Hu.
  destruct (Z.ltb_spec outn need) as [Hn|Hn].
  { destruct Hu as (s' & E & Hch). exists None, s', (k <| fn_core := q |>). split_and!; try done; [by destruct Hrx|by destruct Htx]. }
  destruct Hu as (erx & h & sq & s' & E & Hch & U1 & U2 & U3 & U4 & U5).
  destruct (updated_ok k e q h sq Hrx Htx Hf U4) as [Hrx' Htx'].
  destruct (updated_fields k e q h sq Hf) as (E1&E2&_&_&_&_&_&_&_&_&Et). injection Et as T1 T2 _ _.
  assert (Hin : forall ev, (forall b l, ev <> EV_CONN_RECEIVED b l c) -> ev ∈ erx ++ tx_events k e c <-> ev ∈ tx_events k e c).
  { intros ev Hev. rewrite elem_of_app. split; [intros [Hx|]; [|done]|by right]. destruct (U2 _ Hx) as (b & l & -> & _). naive_solver. }
  exists (Some (erx ++ tx_events k e c)), s', (updated k e q h sq). split_and!; try done.
  - rewrite length_app, Nat2Z.inj_add, U3. pose proof (tx_events_needed k e c Hrx Htx Hf). unfold need. lia.
  - rewrite fmap_app, concat_app, U1. rewrite (tx_events_bytes k e c). by rewrite app_nil_r.
  - intros b l x [Hx|Hx]%elem_of_app; [|apply tx_events_in in Hx; naive_solver].
    destruct (U2 _ Hx) as (b' & l' & [= -> -> ->] & H1 & H2). done.
  - rewrite Hin by done. rewrite tx_events_in. naive_solver.
  - rewrite Hin by done. rewrite tx_events_in. naive_solver.
  - rewrite Hin by done. rewrite tx_events_in. naive_solver.
  - rewrite T1, T2. apply tx_acked_count, Hf.
Qed.

Definition ex_arx : arx := mk_arx 1 100 300 0 0 1.

Lemma ex_rx_ok : rx_ok ex_conn.
Proof. by constructor. Qed.
Lemma ex_tx_ok : tx_ok ex_conn.
Proof. by constructor. Qed.

Lemma event_arx_connupdate_correct_witness : exists evs s',
  event_arx_connupdate ex_lib ex_arx 4 0 = Done (Some evs, s') /\ concat (event_bytes <$> evs) = rx_bytes ex_conn 300.
Proof.
  destruct (event_arx_connupdate_correct ex_lib ex_arx 4 0) as (r & s' & k' & E & _ & _ & _ & Hr);
    [done|exact ex_rx_ok|exact ex_tx_ok|by split|].
  destruct r as [evs|]; [|exfalso; destruct Hr as [Hr _]; vm_compute in Hr; done].
  exists evs, s'. split; [exact E|]. apply Hr.
Defined.

(** ** Operations of the application *)

(** The connection after an operation is one of these. *)
Lemma rx_done_ok s c len : let k := l_conns s c in rx_ok k -> 0 <= len ->
  exists s', flextcp_connection_rx_done s c len = (len <=? rxb_used k, s') /\
    changed s s' c (if len <=? rxb_used k then k <| rxb_used := rxb_used k - len |> <| rxb_bump := rxb_bump k + len |> else k).
Proof.
  intros k [] Hl. unfold flextcp_connection_rx_done. fold k. cbv zeta.
  destruct (Z.ltb_spec (rxb_used k) len), (Z.leb_spec len (rxb_used k)); try lia.
  { exists s. split; [done|]. by constructor. }
  rewrite (u32_small (rxb_used k - len)) by lia. change (rxb_bump (k <| rxb_used := rxb_used k - len |>)) with (rxb_bump k).
  rewrite (u32_small (rxb_bump k + len)) by lia. eexists. split; [reflexivity|].
  destruct (_ <? _); [apply changed_mark|apply changed_set].
Qed.

Lemma not_acked k : tx_ok k -> eos k = false \/ 0 < txb_sent k -> eos_ack k = false.
Proof.
  intros [] Hc. apply not_true_iff_false. intros E. destruct (to_ack0 E) as [Ea E0].
  destruct Hc as [Hc|Hc]; [rewrite (to_eos0 Ea) in Hc; done|lia].
Qed.

Lemma tx_alloc_ok s c len : let k := l_conns s c in tx_ok k -> 0 <= len ->
  let d := Z.min (Z.min len (txb_len k - txb_sent k - txb_allocated k)) (txb_len k - (txb_head k + txb_allocated k) mod txb_len k) in
  let s' := snd (flextcp_connection_tx_alloc s c len) in
  fst (flextcp_connection_tx_alloc s c len) =
    (if eos k then None else Some (d, txb_base k + (txb_head k + txb_allocated k) mod txb_len k)) /\
  changed s s' c (if eos k then k else k <| txb_allocated := txb_allocated k + d |>).
Proof.
  intros k Hk Hl d s'. pose proof Hk as []. subst s'. unfold flextcp_connection_tx_alloc. cbv zeta. fold k. rewrite txeos_flag.
  destruct (eos k); [by split|]. rewrite allocbytes_ok by done. unfold alloc_head. rewrite ring_pos by lia.
  set (h := (txb_head k + txb_allocated k) mod txb_len k) in *.
  assert (Hh : 0 <= h < txb_len k) by (apply Z.mod_pos_bound; lia).
  set (l1 := if txb_len k - txb_sent k - txb_allocated k <? len then txb_len k - txb_sent k - txb_allocated k else len).
  assert (H1 : l1 = Z.min len (txb_len k - txb_sent k - txb_allocated k)) by (unfold l1; destruct (Z.ltb_spec (txb_len k - txb_sent k - txb_allocated k) len); lia).
  clearbody l1. assert (H2 : (if txb_len k <? h + l1 then u32 (txb_len k - h) else l1) = d).
  { unfold d. fold h. destruct (Z.ltb_spec (txb_len k) (h + l1)); [rewrite u32_small by lia|]; lia. }
  rewrite H2, (u32_small (txb_allocated k + d)) by lia. split; [done|]. apply changed_set.
Qed.

Lemma tx_alloc2_ok s c len : let k := l_conns s c in tx_ok k -> 0 <= len ->
  let d := Z.min len (txb_len k - txb_sent k - txb_allocated k) in
  let h := (txb_head k + txb_allocated k) mod txb_len k in
  let s' := snd (flextcp_connection_tx_alloc2 s c len) in
  fst (flextcp_connection_tx_alloc2 s c len) =
    (if eos k then None
     else Some (d, txb_base k + h, Z.min d (txb_len k - h), if txb_len k <? h + d then txb_base k else NULL)) /\
  changed s s' c (if eos k then k else k <| txb_allocated := txb_allocated k + d |>).
Proof.
  intros k Hk Hl d h s'. pose proof Hk as []. subst s'. unfold flextcp_connection_tx_alloc2. cbv zeta. fold k. rewrite txeos_flag.
  destruct (eos k); [by split|]. rewrite allocbytes_ok by done. unfold alloc_head. rewrite ring_pos by lia. fold h.
  assert (Hh : 0 <= h < txb_len k) by (apply Z.mod_pos_bound; lia).
  assert (H1 : (if txb_len k - txb_sent k - txb_allocated k <? len then txb_len k - txb_sent k - txb_allocated k else len) = d)
    by (unfold d; destruct (Z.ltb_spec (txb_len k - txb_sent k - txb_allocated k) len); lia).
  rewrite !H1. destruct (Z.ltb_spec (txb_len k) (h + d)).
  - rewrite u32_small, Z.min_r by lia. rewrite (u32_small (txb_allocated k + d)) by lia. split; [done|apply changed_set].
  - rewrite Z.min_l by lia. rewrite (u32_small (txb_allocated k + d)) by lia. split; [done|apply changed_set].
Qed.

Lemma tx_send_ok s c len : let k := l_conns s c in tx_ok k -> 0 <= len ->
  exists s', flextcp_connection_tx_send s c len = (len <=? txb_allocated k, s') /\
    changed s s' c (if len <=? txb_allocated k
      then k <| txb_allocated := txb_allocated k - len |> <| txb_sent := txb_sent k + len |>
             <| txb_head := (txb_head k + len) mod txb_len k |> <| txb_bump := txb_bump k + len |> else k).
Proof.
  intros k Hk Hl. pose proof Hk as []. unfold flextcp_connection_tx_send, conn_tx_sendbytes. cbv zeta. fold k.
  destruct (Z.ltb_spec (txb_allocated k) len), (Z.leb_spec len (txb_allocated k)); try lia.
  { exists s. split; [done|]. by constructor. }
  eexists. split; [reflexivity|].
  assert (E1 : u32 (txb_allocated k - len) = txb_allocated k - len) by (apply u32_small; lia).
  assert (E2 : u32 (txb_sent k + len) = txb_sent k + len) by (apply u32_small; lia).
  assert (E3 : u32 (txb_bump k + len) = txb_bump k + len) by (apply u32_small; lia).
  cbn [txb_sent txb_head txb_len txb_bump setter]. rewrite E1, E2, E3, ring_pos by lia. apply changed_mark.
Qed.

(** Closing the stream of the application; the end of the stream waits for room. *)
Definition tx_closed (k : flextcp_connection) : flextcp_connection :=
  let k := k <| flags := Z.lor (flags k) CONN_FLAG_TXEOS |> in if txb_sent k =? txb_len k then k else eos_pushed k.

Lemma closed_flags k : let k' := k <| flags := Z.lor (flags k) CONN_FLAG_TXEOS |> in
  eos k' = true /\ eos_alloc k' = eos_alloc k /\ eos_ack k' = eos_ack k.
Proof.
  unfold eos, eos_alloc, eos_ack. cbn [flags setter].
  change CONN_FLAG_TXEOS with (2 ^ 0). rewrite !flag_lor by done. cbn. by rewrite !orb_false_r, orb_true_r.
Qed.

Lemma tx_close_ok s c : let k := l_conns s c in tx_ok k ->
  let ok := (txb_allocated k =? 0) && negb (eos k) in
  exists s', flextcp_connection_tx_close s c = Done (ok, s') /\ changed s s' c (if ok then tx_closed k else k).
Proof.
  intros k Hk ok. pose proof Hk as []. unfold flextcp_connection_tx_close, conn_tx_sendbytes. fold k. rewrite txeos_flag. unfold ok.
  destruct (Z.eqb_spec (txb_allocated k) 0) as [E0|E0]; cbn [andb].
  2:{ rewrite (proj2 (Z.ltb_lt _ _)) by lia. exists s. split; [done|]. by constructor. }
  rewrite (proj2 (Z.ltb_ge _ _)) by lia. destruct (eos k) eqn:Ee; cbn [negb]; [exists s; split; [done|]; by constructor|].
  set (k1 := k <| flags := Z.lor (flags k) CONN_FLAG_TXEOS |>). destruct (closed_flags k) as (F1 & F2 & F3). fold k1 in F1, F2, F3.
  assert (H1 : tx_ok k1) by (constructor; rewrite ?F1, ?F2, ?F3; done).
  pose proof (pushtxeos_ok (set_conn s c k1) c) as Hp. cbv zeta in Hp. rewrite set_conn_same in Hp. specialize (Hp H1 F1).
  unfold tx_closed. fold k1. cbv zeta. change (txb_sent k1) with (txb_sent k) in *. change (txb_len k1) with (txb_len k) in *.
  destruct (txb_sent k =? txb_len k).
  - rewrite Hp. eexists. split; [reflexivity|]. apply changed_set.
  - destruct Hp as (s' & -> & Hch). exists s'. split; [done|]. eapply changed_trans; [apply changed_set|done].
Qed.

Lemma tx_closed_ok k : tx_ok k -> txb_allocated k = 0 -> eos k = false -> tx_ok (tx_closed k).
Proof.
  intros Hk Ha He. unfold tx_closed. set (k1 := k <| flags := Z.lor (flags k) CONN_FLAG_TXEOS |>).
  destruct (closed_flags k) as (F1 & F2 & F3). fold k1 in F1, F2, F3. pose proof Hk as [].
  assert (H1 : tx_ok k1) by (constructor; rewrite ?F1, ?F2, ?F3; done). cbv zeta.
  destruct (Z.eqb_spec (txb_sent k1) (txb_len k1)); [done|].
  apply pushed_ok; [done|done|destruct H1; lia|]. rewrite F3. apply not_acked; auto.
Qed.

(** ** A defect

    [fastpath_poll_vec] collects entries before it processes them, and does not stop at the end of
    the queue: when it may collect more entries than a full queue has, it collects the first one
    twice and fails the assertion about its type. *)
Definition ex_full_ring : lib :=
  ex_lib <| l_ctx := (l_ctx ex_lib) <| rxq_len := 64 |> |> <| l_arx := fun _ _ => mk_arx 1 100 0 0 0 0 |>.

Theorem full_ring_collected_twice :
  (exists s', fastpath_poll_vec 10 ex_full_ring 2 = Done ([], s')) /\ fastpath_poll_vec 10 ex_full_ring 3 = Aborted.
Proof. split; [eexists; vm_compute; reflexivity|vm_compute; reflexivity]. Qed.

End LibtasProps.
