(* ===== verification/LibtasPoll.v ===== *)
(** * A poll of the low level library that finds received bytes

    What [flextcp_context_poll] does when the slow path has sent nothing and the fast path has put updates
    for one connection into its queue: the events for the application, the connection after them, and the
    well-formedness of the context. *)
From S2P Require Import Prelude Memif KernelIf Libtas LibtasSpec.
#[local] Open Scope Z_scope.

Module LibtasPoll.
Import KernelIf Libtas LibtasSpec.

Section Poll.
Context (fuel : nat) (x : Z).

(** The context of connection [x]: the connection is open, and the updates for the fast path that are pending are of open connections. *)
Record ctx_inv (l : lib) : Prop := {
  ci_null : x <> NULL;
  ci_open : status (l_conns l x) = CONN_OPEN;
  ci_core : 0 <= fn_core (l_conns l x) < num_queues (l_ctx l);
  ci_pending : exists pl, blist l pl /\ (S (length (filter (fun y => y <> x) pl)) < fuel)%nat /\
    forall y, y ∈ pl -> status (l_conns l y) = CONN_OPEN /\ 0 <= fn_core (l_conns l y) < num_queues (l_ctx l);
  ci_queues : queues_ok l;
  ci_entries : (ATX_SIZE | txq_len (l_ctx l));
  ci_next : 0 <= next_queue (l_ctx l) < num_queues (l_ctx l)
}.

(** The receive buffer of a connection. *)
Definition rx_side (k : flextcp_connection) : Z * Z * Z * Z := (rxb_base k, rxb_len k, rxb_head k, rxb_used k).

(** Several updates, one after the other. *)
Fixpoint rx_updates (k : flextcp_connection) (lens : list Z) : list flextcp_event * flextcp_connection :=
  match lens with
  | [] => ([], k)
  | n :: lens => let '(e, k) := update_rx k x n in let '(es, k) := rx_updates k lens in (e ++ es, k)
  end.

Lemma update_rx_side k k' n : rx_side k = rx_side k' ->
  fst (update_rx k x n) = fst (update_rx k' x n) /\ rx_side (snd (update_rx k x n)) = rx_side (snd (update_rx k' x n)).
Proof.
  intros [= E1 E2 E3 E4]. unfold update_rx. destruct (0 <? n); cbn -[u32 rx_side].
  - rewrite E1, E2, E3. split; [done|]. unfold rx_side. cbn -[u32]. by rewrite ?E1, ?E2, ?E3, ?E4.
  - split; [done|]. unfold rx_side. by rewrite E1, E2, E3, E4.
Qed.

Lemma rx_updates_side lens : forall k k', rx_side k = rx_side k' ->
  fst (rx_updates k lens) = fst (rx_updates k' lens) /\ rx_side (snd (rx_updates k lens)) = rx_side (snd (rx_updates k' lens)).
Proof.
  induction lens as [|n lens IH]; intros k k' E; [done|]. cbn [rx_updates]. destruct (update_rx_side k k' n E) as [E1 E2].
  destruct (update_rx k x n) as [e k1], (update_rx k' x n) as [e' k1']. cbn in E1, E2. subst e'. destruct (IH k1 k1' E2) as [F1 F2].
  destruct (rx_updates k1 lens), (rx_updates k1' lens). cbn in *. by subst.
Qed.

(** Nothing else of the connection but a sequence number changes. *)
Lemma update_rx_frame k n : let k' := snd (update_rx k x n) in status k' = status k /\ fn_core k' = fn_core k /\ bump_next k' = bump_next k /\
  bump_pending k' = bump_pending k /\ flags k' = flags k /\ txb_sent k' = txb_sent k.
Proof. unfold update_rx. by destruct (0 <? n). Qed.
Lemma update_rx_events k n : (length (fst (update_rx k x n)) <= 2)%nat.
Proof. unfold update_rx. destruct (0 <? n); [|cbn; lia]. destruct (_ <? _); cbn; lia. Qed.

(** ** The queues from the fast path *)

Implicit Types (l s : lib).

Definition is_update l q pos : bool := arx_type (l_arx l q pos) =? FLEXTCP_PL_ARX_CONNUPDATE.
Definition arx_head l q : Z := rxq_head (ctx_queues (l_ctx l) q).

(** Queue [q] has updates for the connection from [pos] on, that tell about [lens] bytes, and then no more. *)
Fixpoint holds_updates l q pos (lens : list Z) : Prop :=
  match lens with
  | [] => is_update l q pos = false
  | n :: lens => (exists rx_pos, l_arx l q pos = mk_arx FLEXTCP_PL_ARX_CONNUPDATE x n rx_pos 0 0) /\ holds_updates l q (rxq_next l pos) lens
  end.
Fixpoint places l pos (lens : list Z) : list Z :=
  match lens with [] => [] | _ :: lens => pos :: places l (rxq_next l pos) lens end.
Fixpoint place_after l pos (lens : list Z) : Z :=
  match lens with [] => pos | _ :: lens => place_after l (rxq_next l pos) lens end.

(** The slow path has sent nothing; the fast path has sent [lens] through queue [q]. *)
Record delivered l q (lens : list Z) : Prop := {
  dl_kernel : appin_free (l_kout l (kout_head (l_ctx l))) = true;
  dl_queue : 0 <= q < num_queues (l_ctx l);
  dl_updates : holds_updates l q (arx_head l q) lens;
  dl_places : NoDup (places l (arx_head l q) lens);
  dl_others p : 0 <= p < num_queues (l_ctx l) -> p <> q -> is_update l p (arx_head l p) = false
}.

(** ** Collecting *)

Lemma next_q_range l q : 0 <= q < num_queues (l_ctx l) -> 0 <= next_q l q < num_queues (l_ctx l).
Proof. unfold next_q. intros. destruct (Z.ltb_spec (q + 1) (num_queues (l_ctx l))); lia. Qed.

Lemma collect_round_none l heads : (forall p, 0 <= p < num_queues (l_ctx l) -> is_update l p (heads p) = false) ->
  forall n q room, 0 <= q < num_queues (l_ctx l) -> collect_round n l q heads room = ([], heads).
Proof.
  intros Hnone n. induction n as [|n IH]; intros q room Hq; [done|]. cbn [collect_round]. destruct (negb _); [done|].
  fold (is_update l q (heads q)). rewrite Hnone by done. apply IH. by apply next_q_range.
Qed.

(** The queues that a round looks at: every one once. *)
Fixpoint round l (n : nat) q : list Z := match n with O => [] | S n => q :: round l n (next_q l q) end.

Lemma round_seq l n : forall q, 0 <= q < num_queues (l_ctx l) -> round l n q = (fun i => (q + i) mod num_queues (l_ctx l)) <$> seqZ 0 (Z.of_nat n).
Proof.
  induction n as [|n IH]; intros q Hq; [done|]. cbn [round]. rewrite Nat2Z.inj_succ, seqZ_cons by lia. cbn [fmap list_fmap].
  rewrite Z.add_0_r, Z.mod_small by done. f_equal. rewrite IH by (by apply next_q_range). rewrite Z.pred_succ, <-(fmap_add_seqZ 1 0), <-list_fmap_compose.
  apply list_fmap_ext. intros _ i _. cbn. unfold next_q. destruct (Z.ltb_spec (q + 1) (num_queues (l_ctx l))); [f_equal; lia|].
  replace (q + (1 + i)) with (i + 1 * num_queues (l_ctx l)) by lia. rewrite Z.mod_add by lia. f_equal.
Qed.

Lemma round_split l q p : 0 <= q < num_queues (l_ctx l) -> 0 <= p < num_queues (l_ctx l) ->
  exists a b, round l (Z.to_nat (num_queues (l_ctx l))) p = a ++ (q :: b) /\ ~ q ∈ a /\ ~ q ∈ b.
Proof.
  intros Hq Hp. set (N := num_queues (l_ctx l)) in *.
  assert (Hin : q ∈ round l (Z.to_nat N) p).
  { rewrite round_seq by done. fold N. apply list_elem_of_fmap. exists ((q - p) mod N). rewrite Zplus_mod_idemp_r.
    replace (p + (q - p)) with q by lia. rewrite Z.mod_small by done. split; [done|]. apply elem_of_seqZ.
    pose proof (Z.mod_pos_bound (q - p) N ltac:(lia)). lia. }
  assert (Hnd : NoDup (round l (Z.to_nat N) p)).
  { rewrite (round_seq l _ p Hp). fold N. apply NoDup_fmap_2_strong; [|apply NoDup_seqZ]. intros i j Hi Hj E. apply elem_of_seqZ in Hi, Hj.
    apply (mod_shift_inj N p); [lia|exact E|lia]. }
  apply list_elem_of_split in Hin as (a & b & E). rewrite E in Hnd. apply NoDup_app in Hnd as (_ & Ha & Hb). apply NoDup_cons in Hb as [Hb _].
  exists a, b. split; [done|]. split; [|done]. intros Hqa. apply (Ha q Hqa). set_solver.
Qed.

(** A round takes one entry of the queue with updates. *)
Lemma collect_round_skips l q n : forall heads p room, (forall y, 0 <= y < num_queues (l_ctx l) -> y <> q -> is_update l y (heads y) = false) ->
  0 <= p < num_queues (l_ctx l) -> q ∉ round l n p -> collect_round n l p heads room = ([], heads).
Proof.
  induction n as [|n IH]; intros heads p room Hnone Hp Hq; [done|]. cbn [collect_round round] in *. destruct (negb _); [done|].
  fold (is_update l p (heads p)). rewrite Hnone by set_solver. apply IH; [done|by apply next_q_range|set_solver].
Qed.

Lemma collect_round_takes l q heads : (forall y, 0 <= y < num_queues (l_ctx l) -> y <> q -> is_update l y (heads y) = false) ->
  is_update l q (heads q) = true -> forall n p room a b, 0 <= p < num_queues (l_ctx l) -> 0 < room ->
  round l n p = a ++ (q :: b) -> q ∉ a -> q ∉ b ->
  collect_round n l p heads room = ([(q, heads q)], <[q := rxq_next l (heads q)]> heads).
Proof.
  intros Hnone Hone n. induction n as [|n IH]; intros p room a b Hp Hroom E Ha Hb; [by destruct a|]. cbn [collect_round round] in *.
  rewrite (proj2 (Z.ltb_lt 0 room)) by done. cbn [negb]. fold (is_update l p (heads p)). destruct a as [|y a]; injection E as -> E.
  - rewrite Hone, (collect_round_skips l q); [done| |by apply next_q_range|by rewrite E].
    intros y Hy Hne. rewrite fn_lookup_insert_ne by done. by apply Hnone.
  - rewrite Hnone by set_solver. apply (IH _ _ a b); [by apply next_q_range|done|done|set_solver|done].
Qed.

Lemma holds_updates_cons l q pos n lens : holds_updates l q pos (n :: lens) -> is_update l q pos = true.
Proof. intros [[rx_pos E] _]. unfold is_update. by rewrite E. Qed.

(** All updates are collected, in order. *)
Lemma collect_ok l q : forall lens n heads room, 0 <= q < num_queues (l_ctx l) -> 0 <= next_queue (l_ctx l) < num_queues (l_ctx l) ->
  (forall y, 0 <= y < num_queues (l_ctx l) -> y <> q -> is_update l y (heads y) = false) -> holds_updates l q (heads q) lens ->
  (length lens < n)%nat -> Z.of_nat (length lens) < room -> exists heads',
    collect n l heads room = Done ((fun pos => (q, pos)) <$> places l (heads q) lens, heads') /\
    heads' q = place_after l (heads q) lens /\ forall y, y <> q -> heads' y = heads y.
Proof.
  induction lens as [|len lens IH]; intros n heads room Hq Hnq Hnone Hup Hn Hroom; (destruct n as [|n]; [cbn in Hn; lia|]); cbn [collect];
    rewrite (proj2 (Z.ltb_lt 0 room)) by (cbn in Hroom; lia); cbn [negb].
  - rewrite collect_round_none; [by exists heads| |done]. intros y Hy. destruct (decide (y = q)) as [-> | ]; [done|by apply Hnone].
  - destruct (round_split l q (next_queue (l_ctx l)) Hq Hnq) as (a & b & E & Ha & Hb).
    rewrite (collect_round_takes l q heads Hnone (holds_updates_cons _ _ _ _ _ Hup) _ _ room a b Hnq ltac:(cbn in Hroom; lia) E Ha Hb).
    destruct Hup as [_ Hup]. destruct (IH n (<[q := rxq_next l (heads q)]> heads) (room - Z.of_nat (length [(q, heads q)]))) as (heads' & E' & Hh & Hh').
    + done. + done. + intros y Hy Hne. rewrite fn_lookup_insert_ne by done. by apply Hnone. + by rewrite fn_lookup_insert.
    + cbn in Hn. lia. + cbn in *. lia.
    + rewrite E'. cbn [mbind outcome_bind]. exists heads'. rewrite fn_lookup_insert in *. split; [done|]. split; [done|].
      intros y Hy. rewrite Hh' by done. by rewrite fn_lookup_insert_ne.
Qed.

(** ** Processing *)

(** The context stays well-formed when only its receiving side changes. *)
Lemma ctx_inv_ext l l' : ctx_inv l ->
  (forall y, let k := l_conns l y in let k' := l_conns l' y in bump_next k' = bump_next k /\ bump_pending k' = bump_pending k /\
    status k' = status k /\ (fn_core k' = fn_core k \/ 0 <= fn_core k' < num_queues (l_ctx l))) ->
  bump_pending_first (l_ctx l') = bump_pending_first (l_ctx l) -> bump_pending_last (l_ctx l') = bump_pending_last (l_ctx l) ->
  txq_len (l_ctx l') = txq_len (l_ctx l) -> num_queues (l_ctx l') = num_queues (l_ctx l) -> 0 <= next_queue (l_ctx l') < num_queues (l_ctx l) ->
  (forall p, 0 <= p < num_queues (l_ctx l) -> txq_ok (txq_len (l_ctx l)) (ctx_queues (l_ctx l) p) -> txq_ok (txq_len (l_ctx l)) (ctx_queues (l_ctx l') p)) ->
  ctx_inv l'.
Proof.
  intros [] Hk Ef El Et En Hnq Hv. split; rewrite ?Et, ?En; try done.
  - by rewrite (proj1 (proj2 (proj2 (Hk x)))).
  - destruct (Hk x) as (_ & _ & _ & [-> | ?]); done.
  - destruct ci_pending0 as (pl & Hb & Hl & Hpl). exists pl. split; [|split; [done|]].
    + apply (blist_ext l); [done| |done|done]. intros y. split; apply (Hk y).
    + intros y Hy. destruct (Hk y) as (_ & _ & -> & Hc). destruct (Hpl y Hy) as [-> ?]. split; [done|]. by destruct Hc as [-> | ].
  - destruct ci_queues0 as [Hlen Hq]. split; rewrite Et; [done|]. intros p Hp. rewrite En in Hp. apply Hv; [done|]. by apply Hq.
Qed.

(** What processing updates of queue [q] changes: [k] is the connection after it. *)
Record rx_polled l l' (q : Z) : Prop := {
  pd_conns y : y <> x -> l_conns l' y = l_conns l y;
  pd_conn : let k := l_conns l x in let k' := l_conns l' x in bump_next k' = bump_next k /\ bump_pending k' = bump_pending k /\ status k' = status k;
  pd_core : fn_core (l_conns l' x) = fn_core (l_conns l x) \/ fn_core (l_conns l' x) = q;
  pd_ctx : exists v, l_ctx l' = (l_ctx l) <| ctx_queues := v |> /\
    forall p, txq_tail (v p) = txq_tail (ctx_queues (l_ctx l) p) /\ txq_avail (v p) = txq_avail (ctx_queues (l_ctx l) p);
  pd_arx p pos : l_arx l' p pos = l_arx l p pos \/ arx_type (l_arx l' p pos) = 0
}.

Lemma rx_polled_refl l q : rx_polled l l q.
Proof. split; auto. exists (ctx_queues (l_ctx l)). split; [by destruct (l_ctx l)|done]. Qed.

Lemma rx_polled_trans l l1 l2 q : rx_polled l l1 q -> rx_polled l1 l2 q -> rx_polled l l2 q.
Proof.
  intros [A1 A2 A3 (v & A4 & A5) A6] [B1 B2 B3 (w & B4 & B5) B6]. split.
  - intros y Hy. by rewrite B1, A1.
  - cbn in *. intuition congruence.
  - destruct B3 as [-> | ]; auto.
  - exists w. rewrite B4, A4. split; [done|]. intros p. rewrite (proj1 (B5 p)), (proj2 (B5 p)), A4. apply A5.
  - intros p pos. destruct (B6 p pos) as [-> | ]; auto.
Qed.

Lemma rx_polled_inv l l' q : ctx_inv l -> 0 <= q < num_queues (l_ctx l) -> rx_polled l l' q -> ctx_inv l'.
Proof.
  intros Hi Hq [A1 A2 A3 (v & A4 & A5) A6]. pose proof (ci_next _ Hi).
  apply (ctx_inv_ext l); rewrite ?A4; try done.
  - intros y. destruct (decide (y = x)) as [->|Hy]; [|rewrite A1 by done; auto]. destruct A2 as (? & ? & ?). split; [done|]. split; [done|]. split; [done|].
    destruct A3 as [-> | ->]; auto.
  - intros p Hp []. cbn. destruct (A5 p) as [Et Ea]. by split; rewrite ?Et, ?Ea.
Qed.

Lemma connupdate_open l q n rx_pos room : status (l_conns l x) = CONN_OPEN -> 3 <= room ->
  let k := (l_conns l x) <| fn_core := q |> in
  event_arx_connupdate l (mk_arx FLEXTCP_PL_ARX_CONNUPDATE x n rx_pos 0 0) room q =
    Done (Some (fst (update_rx k x n)), set_conn (set_conn l x k) x (snd (update_rx k x n))).
Proof.
  intros Hst Hroom k. unfold event_arx_connupdate. cbn [arx_opaque arx_rx_bump arx_tx_bump arx_flags]. fold k. rewrite set_conn_same.
  change (status k) with (status (l_conns l x)). rewrite Hst. change (Z.land 0 FLEXTCP_PL_ARX_FLRXDONE =? FLEXTCP_PL_ARX_FLRXDONE) with false.
  rewrite (proj2 (Z.ltb_ge room _)).
  2: { unfold evs_needed. cbn [Z.ltb Z.compare andb]. repeat case_match; lia. }
  destruct (update_rx k x n) as [evs k']. cbn. by rewrite app_nil_r.
Qed.

(** One update. *)
Definition take_update l q pos n : lib :=
  let k := (l_conns l x) <| fn_core := q |> in
  let l1 := set_conn (set_conn l x k) x (snd (update_rx k x n)) in
  let l2 := l1 <| l_arx := <[q := <[pos := (l_arx l q pos) <| arx_type := 0 |>]> (l_arx l1 q)]> (l_arx l1) |> in
  set_ctx_queue l2 q ((ctx_queues (l_ctx l2) q) <| rxq_head := rxq_next l (arx_head l q) |>).

Lemma take_update_ok l q pos n : let l' := take_update l q pos n in rx_polled l l' q /\
  rx_side (l_conns l' x) = rx_side (snd (update_rx (l_conns l x) x n)) /\ arx_head l' q = rxq_next l (arx_head l q) /\
  (forall p, p <> pos -> l_arx l' q p = l_arx l q p).
Proof.
  set (k := (l_conns l x) <| fn_core := q |>). assert (Ex : l_conns (take_update l q pos n) x = snd (update_rx k x n)).
  { unfold take_update, set_conn. cbn. by rewrite fn_lookup_insert. }
  destruct (update_rx_frame k n) as (F1 & F2 & F3 & F4 & _). cbn zeta. split; [|rewrite Ex; split; [by apply update_rx_side|split]].
  - split.
    + intros y Hy. unfold take_update, set_conn. cbn. by rewrite !fn_lookup_insert_ne.
    + cbn zeta. by rewrite Ex, F1, F3, F4.
    + right. by rewrite Ex, F2.
    + eexists. split; [reflexivity|]. intros p. cbn. destruct (decide (p = q)) as [-> | ]; [by rewrite fn_lookup_insert|by rewrite fn_lookup_insert_ne].
    + intros p y. unfold take_update. cbn. destruct (decide (p = q)) as [-> | ]; [|rewrite fn_lookup_insert_ne by done; by left].
      rewrite fn_lookup_insert. destruct (decide (y = pos)) as [-> | ]; [rewrite fn_lookup_insert; by right|rewrite fn_lookup_insert_ne by done; by left].
  - unfold arx_head, take_update. cbn. by rewrite fn_lookup_insert.
  - intros p Hp. unfold take_update. cbn. by rewrite fn_lookup_insert, fn_lookup_insert_ne.
Qed.

Lemma holds_updates_ext l l' q : forall lens pos, rxq_len (l_ctx l') = rxq_len (l_ctx l) ->
  (forall p, p ∈ places l pos lens \/ p = place_after l pos lens -> l_arx l' q p = l_arx l q p \/ ~ p ∈ places l pos lens /\ arx_type (l_arx l' q p) = 0) ->
  holds_updates l q pos lens -> holds_updates l' q pos lens.
Proof.
  induction lens as [|n lens IH]; intros pos El He; cbn [holds_updates places place_after] in *.
  - unfold is_update. destruct (He pos) as [->|[_ ->]]; [by right|done|done].
  - intros [[rx_pos E] H]. assert (En : rxq_next l' pos = rxq_next l pos) by (unfold rxq_next; by rewrite El). split.
    + exists rx_pos. rewrite <-E. destruct (He pos) as [|[Hn _]]; [left; set_solver|done|set_solver].
    + rewrite En. apply IH; [done| |done]. intros p Hp. destruct (He p) as [|[Hn ?]]; [set_solver|by left|]. right. split; [set_solver|done].
Qed.

Lemma places_ext l l' lens : rxq_len (l_ctx l') = rxq_len (l_ctx l) -> forall pos,
  places l' pos lens = places l pos lens /\ place_after l' pos lens = place_after l pos lens.
Proof.
  intros El. induction lens as [|n lens IH]; intros pos; [done|]. cbn [places place_after].
  assert (rxq_next l' pos = rxq_next l pos) as -> by (unfold rxq_next; by rewrite El). by destruct (IH (rxq_next l pos)) as [-> ->].
Qed.

Lemma rx_polled_rxq_len l l' q : rx_polled l l' q -> rxq_len (l_ctx l') = rxq_len (l_ctx l).
Proof. intros [_ _ _ (v & -> & _) _]. done. Qed.

Lemma process_ok q num : forall lens l i q0 evs, status (l_conns l x) = CONN_OPEN -> 0 <= i -> i + 3 * Z.of_nat (length lens) <= num ->
  holds_updates l q (arx_head l q) lens -> NoDup (places l (arx_head l q) lens) -> exists l',
    process ((fun pos => (q, pos)) <$> places l (arx_head l q) lens) l num i q0 evs =
      Done (evs ++ fst (rx_updates (l_conns l x) lens), false, match lens with [] => q0 | _ => q end, l') /\
    rx_polled l l' q /\ rx_side (l_conns l' x) = rx_side (snd (rx_updates (l_conns l x) lens)) /\ arx_head l' q = place_after l (arx_head l q) lens.
Proof.
  induction lens as [|n lens IH]; intros l i q0 evs Hst Hi Hnum Hup Hnd.
  { exists l. cbn. rewrite app_nil_r. split; [done|]. split; [apply rx_polled_refl|done]. }
  cbn [length] in Hnum. destruct Hup as [[rx_pos E] Hup]. cbn [places fmap list_fmap process] in *. rewrite (proj2 (Z.ltb_lt i num)) by lia. cbn [negb].
  assert (Ety : arx_type (l_arx l q (arx_head l q)) = FLEXTCP_PL_ARX_CONNUPDATE) by by rewrite E.
  pose proof (connupdate_open l q n rx_pos (num - i) Hst ltac:(lia)) as Ecu. cbv zeta in Ecu. rewrite <-E in Ecu.
  rewrite Ety, Z.eqb_refl, Ecu. change (FLEXTCP_PL_ARX_CONNUPDATE =? 0) with false. cbn [negb assert_ mbind outcome_bind].
  destruct (take_update_ok l q (arx_head l q) n) as (Hp & Hside & Hhead & Harx).
  set (k := (l_conns l x) <| fn_core := q |>) in *.
  assert (Eside : rx_side k = rx_side (l_conns l x)) by done.
  destruct (update_rx_side k (l_conns l x) n Eside) as [Efst _]. pose proof (update_rx_events (l_conns l x) n) as Hlen2. rewrite Efst.
  match goal with |- context [process _ ?a] => change a with (take_update l q (arx_head l q) n) end.
  set (l1 := take_update l q (arx_head l q) n) in *. clearbody l1. pose proof (rx_polled_rxq_len _ _ _ Hp) as Elen.
  apply NoDup_cons in Hnd as [Hnew Hnd].
  destruct (places_ext l l1 lens Elen (rxq_next l (arx_head l q))) as [Epl Eaf]. rewrite <-Epl in Hnd |- *. rewrite <-Hhead in Hnd |- *.
  destruct (IH l1 (i + Z.of_nat (length (fst (update_rx (l_conns l x) x n)))) q (evs ++ fst (update_rx (l_conns l x) x n))) as (l' & -> & Hp' & Hs' & Hh').
  - by rewrite (proj2 (proj2 (pd_conn _ _ _ Hp))).
  - lia.
  - lia.
  - rewrite Hhead. apply (holds_updates_ext l); [done| |done]. intros p _. destruct (decide (p = arx_head l q)) as [->|Hne]; [|left; by apply Harx].
    destruct (pd_arx _ _ _ Hp q (arx_head l q)) as [|]; [by left|by right].
  - done.
  - exists l'. cbn [rx_updates place_after]. destruct (update_rx (l_conns l x) x n) as [e k1] eqn:Eu. cbn [snd fst] in *.
    destruct (rx_updates_side lens _ _ Hside) as [F1 F2]. rewrite F1, <-app_assoc. rewrite F2 in Hs'. destruct (rx_updates k1 lens) as [es k2].
    split; [by destruct lens|]. split; [by eapply rx_polled_trans|]. split; [done|]. by rewrite Hh', Hhead.
Qed.

(** ** The whole poll *)

Lemma rx_updates_length lens : forall k, (length (fst (rx_updates k lens)) <= 2 * length lens)%nat.
Proof.
  induction lens as [|n lens IH]; intros k; [done|]. cbn [rx_updates length]. pose proof (update_rx_events k n) as H.
  destruct (update_rx k x n) as [e k1]. specialize (IH k1). destruct (rx_updates k1 lens) as [es k2]. cbn in *. rewrite length_app. lia.
Qed.

(** What a step of the poll keeps. *)
Definition kept l l' : Prop := ctx_inv l' /\ rx_side (l_conns l' x) = rx_side (l_conns l x).

Lemma poll_vec_loop_ok n l q lens num : ctx_inv l -> delivered l q lens -> (S (length lens) < n)%nat -> 3 * Z.of_nat (length lens) < num ->
  exists found q' l', poll_vec_loop n l (arx_head l) num 0 (next_queue (l_ctx l)) false [] = Done (fst (rx_updates (l_conns l x) lens), found, q', l') /\
    0 <= q' < num_queues (l_ctx l') /\ ctx_inv l' /\ rx_side (l_conns l' x) = rx_side (snd (rx_updates (l_conns l x) lens)).
Proof.
  intros Hi [_ Hq Hup Hnd Hoth] Hn Hnum. destruct n as [|n]; [lia|]. cbn [poll_vec_loop]. rewrite (proj2 (Z.ltb_lt 0 num)) by lia. cbn [negb].
  destruct (collect_ok l q lens n (arx_head l) (num - 0) Hq (ci_next _ Hi) Hoth Hup ltac:(lia) ltac:(lia)) as (heads' & -> & Hh & Hh').
  cbn [mbind outcome_bind]. destruct lens as [|len lens].
  { cbn. exists false, (next_queue (l_ctx l)), l. split; [done|]. split; [apply Hi|done]. }
  destruct (process_ok q num (len :: lens) l 0 (next_queue (l_ctx l)) [] (ci_open _ Hi) ltac:(lia) ltac:(lia) Hup Hnd) as (l' & -> & Hp & Hs & Hh2).
  cbn [places fmap list_fmap mbind outcome_bind app]. pose proof (rx_polled_inv _ _ _ Hi Hq Hp) as Hi'.
  assert (En : num_queues (l_ctx l') = num_queues (l_ctx l)) by (destruct (pd_ctx _ _ _ Hp) as (v & -> & _); done).
  pose proof (rx_updates_length (len :: lens) (l_conns l x)) as Hlen. cbn [length] in Hlen, Hnum, Hn.
  destruct n as [|n]; [lia|]. cbn [poll_vec_loop]. set (i := 0 + _). assert (Hi2 : i < num) by (unfold i; cbn [length]; lia).
  rewrite (proj2 (Z.ltb_lt i num)) by done. cbn [negb].
  assert (Hnone : forall y, 0 <= y < num_queues (l_ctx l') -> is_update l' y (heads' y) = false).
  { intros y Hy. rewrite En in Hy. unfold is_update. destruct (pd_arx _ _ _ Hp y (heads' y)) as [->| ->]; [|done].
    destruct (decide (y = q)) as [->|Hne]; [|rewrite Hh' by done; by apply Hoth]. rewrite Hh. clear -Hup. revert Hup. generalize (arx_head l q) as pos.
    generalize (len :: lens) as ls. induction ls as [|? ls IH]; intros pos; [done|]. intros [_ H]. by apply IH. }
  destruct n as [|n]; [lia|]. cbn [collect]. rewrite (proj2 (Z.ltb_lt 0 (num - i))) by lia. cbn [negb].
  rewrite collect_round_none; [|done|apply Hi']. cbn [mbind outcome_bind].
  exists true, (next_queue (l_ctx l')), l'. split; [done|]. split; [apply Hi'|done].
Qed.

(** [txq_probe] finds more free entries. *)
Lemma txq_probe_loop_ok m len n : forall avail pos, 0 < len < 2147483648 -> (ATX_SIZE | len) -> 0 <= avail <= len -> (ATX_SIZE | avail) ->
  let avail' := txq_probe_loop n m len avail pos in 0 <= avail' <= len /\ (ATX_SIZE | avail').
Proof.
  induction n as [|n IH]; intros avail pos Hlen Hd Ha Hda; [done|]. cbn [txq_probe_loop]. destruct ((avail <? len) && _) eqn:E; [|done].
  apply andb_prop in E as [E%Z.ltb_lt _]. destruct Hd as [a Ea]. destruct Hda as [b Eb]. unfold ATX_SIZE in *. rewrite (u32_small (avail + 16)) by lia.
  apply IH; [done|by exists a|lia|exists (b + 1); lia].
Qed.

Lemma txq_probe_one_ok l n q : ctx_inv l -> kept l (txq_probe_one l n q) /\ num_queues (l_ctx (txq_probe_one l n q)) = num_queues (l_ctx l).
Proof.
  intros Hi. unfold txq_probe_one. destruct (_ <? _); [done|]. split; [|done]. split; [|done].
  apply (ctx_inv_ext l); try done; [by intros y; auto|apply Hi|]. intros p Hp [Ht Ha He]. cbn.
  destruct (decide (p = q)) as [->|]; [|by rewrite fn_lookup_insert_ne]. rewrite fn_lookup_insert.
  pose proof (txq_probe_loop_ok (l_atx l q) (txq_len (l_ctx l)) (Z.to_nat (2 * n)) (txq_avail (ctx_queues (l_ctx l) q))) as H. split; [done|..]; cbn.
  - apply H; [apply (ci_queues _ Hi)|apply Hi|done|done].
  - apply H; [apply (ci_queues _ Hi)|apply Hi|done|done].
Qed.

Lemma txq_probe_ok l n : ctx_inv l -> kept l (txq_probe l n).
Proof.
  unfold txq_probe. generalize (seqZ 0 (num_queues (l_ctx l))) as qs. intros qs. revert l. induction qs as [|q qs IH]; intros l Hi; [done|].
  cbn [fold_left]. destruct (txq_probe_one_ok l n q Hi) as [[Hi1 Hs1] _]. destruct (IH _ Hi1) as [Hi2 Hs2]. split; [done|congruence].
Qed.

(** [conns_bump] sends updates. *)
Lemma conns_bump_next n : forall l l', conns_bump n l = Done l' -> next_queue (l_ctx l') = next_queue (l_ctx l).
Proof.
  induction n as [|n IH]; intros l l'; [done|]. cbn [conns_bump]. destruct (_ =? NULL); [by intros [= <-]|].
  destruct (assert_ _) as [[]| |]; [|done..]. cbn [mbind outcome_bind]. destruct (flextcp_context_tx_alloc _ _); [|by intros [= <-]].
  intros ->%IH. by destruct (bump_next _ =? NULL).
Qed.

Lemma conns_bump_kept l n : ctx_inv l -> (fuel <= n)%nat -> exists l', conns_bump n l = Done l' /\ kept l l'.
Proof.
  intros [] Hn. destruct ci_pending0 as (pl & Hb & Hl & Hpl).
  assert (Hlen : (length pl <= S (length (filter (fun y => y <> x) pl)))%nat).
  { pose proof (bl_nodup _ _ Hb) as Hnd. clear -Hnd. induction pl as [|y pl IH]; [cbn; lia|]. apply NoDup_cons in Hnd as [Hy Hnd]. rewrite filter_cons.
    destruct (decide (y <> x)) as [|E%dec_stable]; cbn [length]; [specialize (IH Hnd); lia|]. subst y. clear IH. induction pl as [|z pl IH]; [cbn; lia|].
    apply NoDup_cons in Hnd as [_ Hnd]. rewrite filter_cons_True by set_solver. cbn [length]. specialize (IH ltac:(set_solver) Hnd). lia. }
  destruct (conns_bump_ok pl n l Hb ltac:(lia) ci_queues0 Hpl) as (l1 & l2 & l' & E & -> & Hb' & Hq' & Et & En & Hc & _).
  exists l'. split; [done|]. pose proof (conns_bump_next n l l' E) as Enq.
  assert (Hk : forall y, status (l_conns l' y) = status (l_conns l y) /\ fn_core (l_conns l' y) = fn_core (l_conns l y) /\
    rx_side (l_conns l' y) = rx_side (l_conns l y)) by (intros y; rewrite Hc; by destruct (decide _)).
  split; [|apply Hk]. split; rewrite ?Et, ?En, ?Enq; try done.
  - by rewrite (proj1 (Hk x)).
  - by rewrite (proj1 (proj2 (Hk x))).
  - exists l2. split; [done|]. rewrite filter_app, length_app in Hl. split; [lia|]. intros y Hy.
    rewrite (proj1 (Hk y)), (proj1 (proj2 (Hk y))). apply Hpl. set_solver.
Qed.

Lemma ctx_flag_kept l f : ctx_inv l -> kept l (ctx_flag l f).
Proof. intros Hi. split; [|done]. apply (ctx_inv_ext l); try done; [by intros y; auto|apply Hi]. Qed.

(** The poll returns the events of the updates, and hands the bytes to the connection. *)
Lemma context_poll_ok l q lens : ctx_inv l -> delivered l q lens -> (length lens <= 5)%nat -> (7 <= fuel)%nat -> exists l',
  flextcp_context_poll fuel l 16 = Done (fst (rx_updates (l_conns l x) lens), l') /\ ctx_inv l' /\
  rx_side (l_conns l' x) = rx_side (snd (rx_updates (l_conns l x) lens)).
Proof.
  intros Hi Hd Hlens Hfuel. unfold flextcp_context_poll. destruct (ctx_flag_kept l CTX_FLAG_POLL_CALLED Hi) as [Hi1 _].
  destruct fuel as [|f] eqn:Ef; [lia|]. cbn [kernel_poll]. change (negb (0 <? 16)) with false. cbn [negb].
  change (l_kout (ctx_flag l CTX_FLAG_POLL_CALLED) (kout_head (l_ctx (ctx_flag l CTX_FLAG_POLL_CALLED)))) with (l_kout l (kout_head (l_ctx l))).
  rewrite (dl_kernel _ _ _ Hd). cbn [mbind outcome_bind negb length]. rewrite <-Ef in *. set (l1 := set_ctx (ctx_flag l _) _).
  assert (H1 : ctx_inv l1).
  { apply (ctx_inv_ext (ctx_flag l CTX_FLAG_POLL_CALLED)); try done; [by intros y; auto|apply Hi1]. }
  assert (Hd1 : delivered l1 q lens) by (destruct Hd; split; [done|done|by apply (holds_updates_ext l); auto|by rewrite (proj1 (places_ext l l1 lens eq_refl _))|done]).
  unfold fastpath_poll_vec. destruct (poll_vec_loop_ok fuel l1 q lens (16 - Z.of_nat 0) H1 Hd1 ltac:(lia) ltac:(lia)) as (found & q' & l2 & E & Hq' & H2 & Hs2).
  unfold arx_head in E. rewrite E. cbn [mbind outcome_bind]. set (l3 := set_ctx l2 _).
  assert (H3 : ctx_inv l3) by (apply (ctx_inv_ext l2); try done; by intros y; auto).
  set (l4 := if found then ctx_flag l3 CTX_FLAG_POLL_EVENTS else l3). assert (H4 : kept l3 l4) by (unfold l4; destruct found; [by apply ctx_flag_kept|done]).
  clearbody l4. destruct H4 as [H4 Hs4]. destruct (txq_probe_ok l4 16 H4) as [H5 Hs5]. 
  destruct (conns_bump_kept (txq_probe l4 16) fuel H5 ltac:(lia)) as (l6 & -> & H6 & Hs6). cbn [mbind outcome_bind app].
  exists l6. split; [done|]. split; [done|]. rewrite Hs6, Hs5, Hs4. exact Hs2.
Qed.

(** ** Reading *)

Lemma ctx_inv_set l k : ctx_inv l -> bump_next k = bump_next (l_conns l x) -> bump_pending k = bump_pending (l_conns l x) ->
  status k = status (l_conns l x) -> fn_core k = fn_core (l_conns l x) -> ctx_inv (set_conn l x k).
Proof.
  intros Hi E1 E2 E3 E4. apply (ctx_inv_ext l); try done; [|apply Hi]. intros y. destruct (decide (y = x)) as [->|Hy].
  - rewrite set_conn_same. auto.
  - rewrite set_conn_other by done. auto.
Qed.

Lemma ctx_inv_mark l : ctx_inv l -> ctx_inv (conn_mark_bump l x).
Proof.
  intros Hi. pose proof Hi as []. destruct ci_pending0 as (pl & Hb & Hl & Hpl).
  destruct (conn_mark_bump_ok l pl x Hb ci_null0) as (Hb' & [Hcore _ _ _ _ Hqs] & _).
  assert (Hk : forall y, status (l_conns (conn_mark_bump l x) y) = status (l_conns l y) /\ fn_core (l_conns (conn_mark_bump l x) y) = fn_core (l_conns l y)).
  { intros y. split; [change (status (core (l_conns (conn_mark_bump l x) y)) = status (core (l_conns l y)))|
      change (fn_core (core (l_conns (conn_mark_bump l x) y)) = fn_core (core (l_conns l y)))]; by rewrite Hcore. }
  assert (Hctx : txq_len (l_ctx (conn_mark_bump l x)) = txq_len (l_ctx l) /\ num_queues (l_ctx (conn_mark_bump l x)) = num_queues (l_ctx l) /\
    next_queue (l_ctx (conn_mark_bump l x)) = next_queue (l_ctx l)).
  { unfold conn_mark_bump. destruct (bump_pending _); [done|]. by destruct (negb _). }
  destruct Hctx as (Et & En & Enq). split; unfold queues_ok; rewrite ?Et, ?En, ?Enq, ?Hqs; try done.
  - by rewrite (proj1 (Hk x)).
  - by rewrite (proj2 (Hk x)).
  - eexists. split; [exact Hb'|]. split.
    + destruct (bump_pending _); [done|]. rewrite filter_app, length_app. rewrite filter_cons_False by (intros H; by apply H). cbn. lia.
    + intros y Hy. rewrite (proj1 (Hk y)), (proj2 (Hk y)). destruct (bump_pending _); [by apply Hpl|].
      apply elem_of_app in Hy as [Hy|Hy]; [by apply Hpl|]. apply list_elem_of_singleton in Hy as ->. done.
Qed.

Lemma ctx_inv_rx_done l len : ctx_inv l -> ctx_inv (snd (flextcp_connection_rx_done l x len)).
Proof.
  intros Hi. unfold flextcp_connection_rx_done. destruct (_ <? _); [done|]. cbv zeta. cbn [snd]. set (l1 := set_conn _ _ _).
  assert (H1 : ctx_inv l1) by by apply ctx_inv_set. destruct (_ <? _); [by apply ctx_inv_mark|done].
Qed.

End Poll.
End LibtasPoll.
