(* ===== verification/WireSpec.v ===== *)
(** * The fast path as the library of the applications sees it

    What the handlers of the fast path do to the registers of a flow that the library keeps
    in step with: the counts of bytes in both buffers, the positions, the number of the last
    update and the end of the stream. *)
From S2P Require Import Prelude Memif Packet TcpCommon Qman FastCtx FastFlows FastRx FastTx FastFlowsSpec.

Module WireSpec.
Import Packet TcpCommon FastCtx FastFlows FastRx FastTx FastFlowsSpec.

Definition txfin (fs : flowst) : bool := Z.testbit (fs_rx_base_sp fs) 4.

Lemma txfin_sp fs : sp_has fs FLEXNIC_PL_FLOWST_TXFIN = txfin fs.
Proof.
  unfold sp_has, txfin. change FLEXNIC_PL_FLOWST_TXFIN with (2 ^ 4). rewrite land_pow2 by done.
  by destruct (Z.testbit _ _).
Qed.
Lemma txfin_has fs : has (fs_rx_base_sp fs) FLEXNIC_PL_FLOWST_TXFIN = txfin fs.
Proof. by apply (has_pow2 _ 4). Qed.

(** Place of the first byte behind the announced ones in the transmit buffer. *)
Definition tx_end (fs : flowst) : Z := (fs_tx_next_pos fs + fs_tx_avail fs) mod fs_tx_len fs.

(** The flow has received [rx] bytes and [tx] bytes have been acknowledged. *)
Record flow_moves (fs fs' : flowst) (rx tx : Z) : Prop := {
  fm_rx_len : fs_rx_len fs' = fs_rx_len fs;
  fm_tx_len : fs_tx_len fs' = fs_tx_len fs;
  fm_seq : fs_bump_seq fs' = fs_bump_seq fs;
  fm_fin : txfin fs' = txfin fs;
  fm_rx : 0 <= rx <= fs_rx_avail fs;
  fm_rx_avail : fs_rx_avail fs' = fs_rx_avail fs - rx;
  fm_rx_pos : fs_rx_next_pos fs' mod fs_rx_len fs = (fs_rx_next_pos fs + rx) mod fs_rx_len fs;
  fm_tx : 0 <= tx;
  fm_tx_sum : fs_tx_avail fs' + fs_tx_sent fs' = fs_tx_avail fs + fs_tx_sent fs - tx;
  fm_tx_avail : 0 <= fs_tx_avail fs';
  fm_tx_sent : 0 <= fs_tx_sent fs';
  fm_tx_end : tx_end fs' = tx_end fs
}.

(** *** Registers only the library changes *)

Record lib_regs (fs fs' : flowst) : Prop := {
  lr_seq : fs_bump_seq fs' = fs_bump_seq fs;
  lr_fin : txfin fs' = txfin fs
}.
Lemma lib_regs_trans a b c : lib_regs a b -> lib_regs b c -> lib_regs a c.
Proof. intros [] []. constructor; congruence. Qed.

Lemma rx_advance_regs fs n fs' : rx_advance fs n = Done fs' -> lib_regs fs fs'.
Proof. unfold rx_advance. cbv zeta. intros (? & _ & [= <-])%outcome_bind_Done. done. Qed.

Lemma merge_regs fs fs' n : packet_merge_ooo fs = Done (fs', n) -> lib_regs fs fs'.
Proof.
  unfold packet_merge_ooo. destruct (fs_rx_ooo_len fs =? 0); [by intros [= <- <-]|].
  destruct (tcp_trim_rxbuf _ _ _) as [[s e]|]; [|by intros [= <- <-]].
  set (fs1 := fs <| fs_rx_ooo_start := _ |> <| fs_rx_ooo_len := _ |>). cbv zeta.
  assert (H1 : lib_regs fs fs1) by done. clearbody fs1.
  destruct (_ && _)%bool; [|by intros [= <- <-]].
  intros (fs2 & E%rx_advance_regs & [= <- <-])%outcome_bind_Done. by destruct (lib_regs_trans _ _ _ H1 E).
Qed.

Lemma ooo_regs shm m fs seq b src fs' m' : packet_ooo shm m fs seq b src = Done (fs', m') -> lib_regs fs fs'.
Proof.
  unfold packet_ooo. destruct (_ =? 0); [|destruct (_ =? _); [|destruct (_ =? _)]];
    try (intros (? & _ & [= <- _])%outcome_bind_Done; done). by intros [= <- _].
Qed.

Lemma fin_regs fs flags e fs' fin : packet_fin fs flags e = (fs', fin) -> lib_regs fs fs'.
Proof.
  unfold packet_fin. destruct (_ && _)%bool; [destruct (_ && _)%bool|]; intros [= <- _]; try done.
  constructor; [done|]. change (Z.testbit (Z.lor (fs_rx_base_sp fs) 32) 4 = Z.testbit (fs_rx_base_sp fs) 4).
  rewrite Z.lor_spec. apply orb_false_r.
Qed.

Lemma deliver_regs shm m fs b src fs' m' n : packet_deliver shm m fs b src = Done (fs', m', n) -> lib_regs fs fs'.
Proof.
  unfold packet_deliver. intros (m1 & _ & E)%outcome_bind_Done. apply outcome_bind_Done in E as (fs1 & E1%rx_advance_regs & E).
  apply outcome_bind_Done in E as ([fs2 k] & E2%merge_regs & [= <- _ _]). by eapply lib_regs_trans.
Qed.

Lemma packet_data_regs shm m fs p bytes ts_val ts_ecr ts body r :
  packet_data shm m fs p bytes ts_val ts_ecr ts body = Done r -> lib_regs fs (rr_fs r).
Proof.
  unfold packet_data. destruct (tcp_trim_rxbuf _ _ _) as [[s e]|]; [|by intros [= <-]].
  destruct (negb _).
  - destruct (_ =? 0); [by intros [= <-]|].
    intros ([fs' m'] & E%ooo_regs & [= <-])%outcome_bind_Done. done.
  - unfold packet_inorder. set (fs1 := packet_rtt _ _ _ _ _ _).
    assert (H1 : lib_regs fs fs1) by (unfold fs1, packet_rtt; by destruct (_ && _)%bool; [destruct (_ <? _); [destruct (negb _)|]|]).
    clearbody fs1. destruct (_ && _)%bool; [by intros [= <-]|].
    intros ([[fs2 m2] n] & E & E3)%outcome_bind_Done.
    assert (H2 : lib_regs fs1 fs2) by (destruct (0 <? _); [by apply deliver_regs in E|by injection E as -> _ _]).
    destruct (packet_fin fs2 _ _) as [fs3 fin] eqn:Ef. apply fin_regs in Ef. injection E3 as <-. cbn.
    eapply lib_regs_trans; [exact H1|]. by eapply lib_regs_trans.
Qed.

Lemma reset_regs fs : lib_regs fs (flow_reset_retransmit fs).
Proof.
  unfold flow_reset_retransmit. cbv zeta.
  repeat match goal with |- context [if ?c then _ else _] => destruct c end; done.
Qed.

Lemma packet_ack_regs fs flags ack orig stop fs' b : packet_ack fs flags ack orig = (stop, fs', b) -> lib_regs fs fs'.
Proof.
  rewrite packet_ack_unfold. destruct (negb _); [by intros [= _ <- _]|]. cbv zeta.
  set (fs0 := fs <| fs_cnt_rx_acks := _ |>). destruct (tcp_valid_rxack fs0 ack) as [n|]; [|by intros [= _ <- _]].
  assert (H1 : lib_regs fs (ack_update fs0 flags n)) by (unfold ack_update; cbv zeta; by destruct (has _ _), (_ <=? _)).
  set (fs1 := ack_update fs0 flags n) in *. clearbody fs1. clear fs0.
  destruct (negb _); [intros [= _ <- _]; by destruct H1|]. destruct (orig =? 0); [|intros [= _ <- _]; done].
  destruct (3 <=? _); [|intros [= _ <- _]; by destruct H1]. intros [= _ <- _].
  eapply lib_regs_trans; [|apply reset_regs]. by destruct H1.
Qed.

(** *** The handlers move the flow *)

Lemma mod_shift_end a b c n : (a + b) mod n = c mod n -> forall d, (a + (b + d)) mod n = (c + d) mod n.
Proof.
  intros E d. rewrite Z.add_assoc, <-(Zplus_mod_idemp_l (a + b)), E, Zplus_mod_idemp_l. done.
Qed.

Section Moves.
Context (shm_len : Z).

Lemma flow_moves_refl fs : rx_wf shm_len fs -> tx_wf shm_len fs -> flow_moves fs fs 0 0.
Proof. intros [] []. constructor; try done; try lia. by rewrite Z.add_0_r. Qed.

Lemma flow_moves_trans a b c rx tx rx' tx' : flow_moves a b rx tx -> flow_moves b c rx' tx' ->
  flow_moves a c (rx + rx') (tx + tx').
Proof.
  intros [] []. rewrite fm_rx_len0 in *. constructor; try congruence; try lia.
  rewrite fm_rx_pos1, <-Zplus_mod_idemp_l, fm_rx_pos0, Zplus_mod_idemp_l. f_equal. lia.
Qed.

Lemma tx_moved_end fs d avail sent : tx_wf shm_len fs -> d + avail = fs_tx_avail fs -> tx_end (tx_moved fs d avail sent) = tx_end fs.
Proof. intros [] E. unfold tx_end. cbn. rewrite Zplus_mod_idemp_l. f_equal. lia. Qed.

Lemma tx_same_end fs fs' : tx_same fs fs' -> tx_end fs' = tx_end fs.
Proof. intros []. unfold tx_end. by rewrite tx_s_len0, tx_s_avail0, tx_s_pos0. Qed.

(** Sending ([fast_flows_qman]). *)
Lemma qman_moves fs len : rx_wf shm_len fs -> tx_wf shm_len fs -> 0 <= len <= fs_tx_avail fs -> flow_moves fs (tx_advance fs len) 0 0.
Proof.
  intros [] Hw Hl. rewrite (tx_advance_moved shm_len) by done. pose proof Hw as [].
  constructor; try done; try (cbn; lia); [cbn; by rewrite Z.add_0_r|]. apply tx_moved_end; [done|lia].
Qed.

(** Retransmission ([fast_flows_retransmit], and the third duplicate acknowledgement). *)
Lemma reset_moves fs : rx_wf shm_len fs -> tx_wf shm_len fs -> flow_moves fs (flow_reset_retransmit fs) 0 0.
Proof.
  intros [] Hw. destruct (reset_moved shm_len fs Hw) as (Hs & Hr & _). pose proof Hw as [].
  pose proof (reset_regs fs) as Hg. set (fs' := flow_reset_retransmit fs) in *. clearbody fs'.
  pose proof (tx_same_end _ _ Hs) as He. rewrite tx_moved_end in He by (done || lia). destruct Hs, Hr, Hg.
  cbn in *. constructor; try done; try lia. by rewrite rx_s_pos0, Z.add_0_r.
Qed.

(** Acknowledgements. *)
Lemma zero_stream fs : tx_wf shm_len fs -> tx_stream (fun _ => 0) fs (fun _ => 0) (fs_tx_next_seq fs) 0.
Proof. intros []. constructor; [done|]. by rewrite Z.add_0_r, u32_small. Qed.

Lemma ack_end fs flags ack orig stop fs' b : tx_wf shm_len fs -> in32 ack ->
  packet_ack fs flags ack orig = (stop, fs', b) -> tx_end fs' = tx_end fs.
Proof.
  intros Hw Hack. rewrite packet_ack_unfold. destruct (negb _); [by intros [= _ <- _]|].
  cbv zeta. set (fs0 := fs <| fs_cnt_rx_acks := _ |>).
  assert (Hw0 : tx_wf shm_len fs0) by (pose proof Hw as []; by apply (tx_same_wf shm_len fs)).
  change (tx_end fs) with (tx_end fs0). clearbody fs0. clear Hw fs. pose proof Hw0 as [].
  rewrite rxack_spec by (done || lia). cbn zeta. set (n := u32 _).
  pose proof (u32_range (ack - (fs_tx_next_seq fs0 - fs_tx_sent fs0))) as Hn. fold n in Hn. clearbody n.
  destruct (Z.leb_spec n (fs_tx_sent fs0 + fs_tx_avail fs0)); [|by intros [= _ <- <-]].
  destruct (ack_update_ok shm_len fs0 flags n Hw0 ltac:(lia)) as (Hs & _ & _ & Erem & _).
  destruct (acked_ok shm_len _ fs0 _ _ 0 n Hw0 (zero_stream fs0 Hw0) ltac:(lia)) as [Hwa _].
  set (fs1 := ack_update fs0 flags n) in *. clearbody fs1.
  assert (He : tx_end fs1 = tx_end fs0) by (rewrite (tx_same_end _ _ Hs); apply tx_moved_end; [done|lia]).
  assert (Hw1 : tx_wf shm_len fs1) by (apply (tx_same_wf shm_len _ _ Hs); [by rewrite Erem|done]).
  destruct (negb _); [by intros [= _ <- _]|]. destruct (orig =? 0); [|by intros [= _ <- _]].
  destruct (3 <=? _); intros [= _ <- _]; [|done]. set (fs2 := fs1 <| fs_rx_dupack_cnt := _ |>).
  assert (Hw2 : tx_wf shm_len fs2) by (pose proof Hw1 as []; by apply (tx_same_wf shm_len fs1)).
  destruct (reset_moved shm_len fs2 Hw2) as (Hr & _). rewrite (tx_same_end _ _ Hr), <-He.
  change (tx_end fs1) with (tx_end fs2). apply tx_moved_end; [done|lia].
Qed.

Lemma ack_moves fs flags ack orig stop fs' b : rx_wf shm_len fs -> tx_wf shm_len fs -> in32 ack ->
  packet_ack fs flags ack orig = (stop, fs', b) -> flow_moves fs fs' 0 b /\ rx_same fs fs' /\ tx_wf shm_len fs'.
Proof.
  intros [] Hw Hack E. pose proof (packet_ack_regs _ _ _ _ _ _ _ E) as []. pose proof (ack_end _ _ _ _ _ _ _ Hw Hack E) as He.
  pose proof (packet_ack_ok shm_len _ fs _ _ 0 flags ack orig Hw (zero_stream fs Hw) Hack) as Ha. rewrite E in Ha.
  destruct Ha as (M' & []). split; [|done]. destruct ak_rx0, ak_wf0, ak_buf0.
  constructor; try done; try lia. by rewrite rx_s_pos0, Z.add_0_r.
Qed.

(** Data: the receive part of [fast_flows_packet]. *)
Lemma data_moves m fs S N tail p bytes ts_val ts_ecr ts body r : rx_wf shm_len fs -> tx_wf shm_len fs ->
  packet_data shm_len m fs p bytes ts_val ts_ecr ts body = Done r -> rx_ok shm_len m fs S N tail r ->
  flow_moves fs (rr_fs r) (rr_rx_bump r) 0.
Proof.
  intros [] [] E []. destruct (packet_data_regs _ _ _ _ _ _ _ _ _ _ E), ro_frame0.
  constructor; try done; try lia.
  - rewrite ro_pos0, rf_len0 || rewrite ro_pos0. by rewrite Zmod_mod.
  - unfold tx_end. by rewrite rf_tx_len0, rf_tx_avail0, rf_tx_pos0.
Qed.

(** [fast_flows_packet] as a whole: the flow moves by what the application is told. *)
Lemma packet_moves m fs S T N isn M p bytes ts_val ts_ecr ts :
  flow_inv shm_len m fs S T N isn M -> fast_packet p fs bytes -> in32 ts_val ->
  (has (fs_rx_base_sp fs) FLEXNIC_PL_FLOWST_RXFIN = false -> forall i, 0 <= i < bytes ->
    payload p i = S (N + seq_rel (tcp_seqno p) (fs_rx_next_seq fs) + i)) ->
  let '(stop, fs1, b) := packet_ack fs (TCPH_FLAGS p) (tcp_ackno p) bytes in
  exists r, (if (stop : bool) then Done (mk_rx fs1 m 0 false (0 <? bytes))
      else packet_data shm_len m fs1 p bytes ts_val ts_ecr ts (payload p)) = Done r /\
    flow_moves fs (rr_fs r) (rr_rx_bump r) b.
Proof.
  intros Hinv Hp Hts Hpay. pose proof (packet_rx_ok shm_len m fs S T N isn M p bytes ts_val ts_ecr ts Hinv Hp Hts Hpay) as Hrx.
  destruct Hinv as [Hr Hw _ _ _ _]. destruct (packet_ack fs _ _ _) as [[stop fs1] b] eqn:E.
  destruct Hrx as (r & M' & Er & Hack & Hok & _). exists r. split; [exact Er|].
  destruct (ack_moves _ _ _ _ _ _ _ Hr Hw (fp_ack _ _ _ Hp) E) as (Hm & Hsame & Hw1).
  destruct stop; [by injection Er as <-|].
  assert (Hd : flow_moves fs1 (rr_fs r) (rr_rx_bump r) 0).
  { eapply data_moves; [|exact Hw1|exact Er|exact Hok]. by apply (rx_same_wf shm_len fs). }
  pose proof (flow_moves_trans _ _ _ _ _ _ _ Hm Hd) as Ht. by rewrite Z.add_0_l, Z.add_0_r in Ht.
Qed.

End Moves.

(** ** Updates from the library *)

(** The flow after [fast_flows_bump]. *)
Definition flow_bump (fs : flowst) (a : atx) : flowst :=
  if bump_out_of_order (fs_bump_seq fs) (atx_bump_seq a) then fs
  else match bump_validate fs (atx_rx_bump a) (atx_tx_bump a) (atx_flags a) with
  | None => fs <| fs_bump_seq := atx_bump_seq a |>
  | Some (_, ta) =>
    bumped fs (Z.land (atx_flags a) FLEXTCP_PL_ATX_FLTXDONE =? FLEXTCP_PL_ATX_FLTXDONE) (atx_bump_seq a) (atx_rx_bump a) ta
  end.

Section Bump.
Context (shm_len : Z) (fp_xsumoffload : bool) (eth_addr : Z) (rte_ipv4_cksum rte_ipv4_udptcp_cksum : pkt_tcp -> Z).
Context {Q : Type} `{QM : QueueManager Q}.

Lemma flow_tx_segment_flow (c c' : dp Q) nbh fs seq ack rxwnd n pos ts_echo ts_my fin :
  flow_tx_segment shm_len fp_xsumoffload eth_addr rte_ipv4_cksum rte_ipv4_udptcp_cksum c nbh fs seq ack rxwnd n pos ts_echo ts_my fin
    = Done c' -> c_flowst c' = c_flowst c.
Proof.
  unfold flow_tx_segment. intros (p & _ & E)%outcome_bind_Done. unfold tx_send in E.
  destruct (_ <=? _); [done|]. by injection E as <-.
Qed.

(** The handler does [flow_bump] to the flow. *)
Lemma fast_flows_bump_flow (c c' : dp Q) fid a nbh ts ret :
  fast_flows_bump shm_len fp_xsumoffload eth_addr rte_ipv4_cksum rte_ipv4_udptcp_cksum c fid (atx_bump_seq a) (atx_rx_bump a)
    (atx_tx_bump a) (atx_flags a) nbh ts = Done (ret, c') ->
  c_flowst c' fid = flow_bump (c_flowst c fid) a.
Proof.
  unfold fast_flows_bump, flow_bump. set (fs := c_flowst c fid). destruct (bump_out_of_order _ _); [by intros [= _ <-]|].
  set (fs0 := fs <| fs_bump_seq := atx_bump_seq a |>).
  change (bump_validate fs0 (atx_rx_bump a) (atx_tx_bump a) (atx_flags a))
    with (bump_validate fs (atx_rx_bump a) (atx_tx_bump a) (atx_flags a)).
  destruct (bump_validate fs _ _ _) as [[tb ta]|]; [|intros [= _ <-]; apply set_flow_self].
  set (eos := _ =? FLEXTCP_PL_ATX_FLTXDONE). intros (c1 & _ & E2)%outcome_bind_Done.
  set (fs1 := (if eos && _ then _ else fs0) <| fs_tx_avail := ta |>) in E2.
  assert (Hb : forall ret' c2, Done (ret', c2) = Done (ret, c') -> c_flowst c2 fid = bumped fs eos (atx_bump_seq a) (atx_rx_bump a) ta ->
    c_flowst c' fid = bumped fs eos (atx_bump_seq a) (atx_rx_bump a) ta) by (by intros ? ? [= _ <-]).
  destruct (_ && _ && _)%bool.
  - apply outcome_bind_Done in E2 as (c2 & E3%flow_tx_segment_flow & E2). apply (Hb _ _ E2). rewrite E3. apply set_flow_self.
  - apply (Hb _ _ E2). apply set_flow_self.
Qed.

End Bump.
End WireSpec.
