(* ===== verification/WireProps.v ===== *)
(** * An application and the fast path

    One connection seen from both ends of its two queues: the operations of the library on
    the connection, the updates on their way to the fast path, the flow, and the updates on
    their way back, as a step relation; and the invariant of all its reachable states. *)
From stdpp Require Import relations.
From S2P Require Import Prelude Memif FastFlows FastFlowsSpec WireSpec Nicif KernelIf Libtas LibtasSpec LibtasProps.
#[local] Open Scope Z_scope.

Module WireProps.
Import FastFlows FastFlowsSpec WireSpec KernelIf Libtas LibtasSpec LibtasProps.

(** ** The step relation *)

(** The connection, the flow, and the queues between them, oldest update first. *)
Record wire : Type := mk_wire { w_conn : flextcp_connection; w_fs : flowst; w_up : list atx; w_down : list arx }.

(** The operations of the application on an open connection [c]. *)
Inductive app_op (c : Z) (s : lib) : lib -> Prop :=
  | op_rx_done len : 0 <= len -> app_op c s (snd (flextcp_connection_rx_done s c len))
  | op_tx_alloc len : 0 <= len -> app_op c s (snd (flextcp_connection_tx_alloc s c len))
  | op_tx_alloc2 len : 0 <= len -> app_op c s (snd (flextcp_connection_tx_alloc2 s c len))
  | op_tx_send len : 0 <= len -> app_op c s (snd (flextcp_connection_tx_send s c len))
  | op_tx_close ok s' : flextcp_connection_tx_close s c = Done (ok, s') -> app_op c s s'.

(** The update of a flow that has moved, as [fast_flows_packet] sends it. *)
Definition notify (c rx pos tx : Z) (fin : bool) : list arx :=
  if negb (rx =? 0) || negb (tx =? 0) || fin
  then [mk_arx FLEXTCP_PL_ARX_CONNUPDATE c rx pos tx (if fin then FLEXTCP_PL_ARX_FLRXDONE else 0)] else [].

(** The memory [s] of the application holds the connection. *)
Definition holds (s : lib) (c : Z) (k : flextcp_connection) : Prop := core (l_conns s c) = core k.

Inductive wstep (c : Z) : wire -> wire -> Prop :=
  | W_app k fs up down s s' : status k = CONN_OPEN -> holds s c k -> app_op c s s' ->
    wstep c (mk_wire k fs up down) (mk_wire (l_conns s' c) fs up down)
  | W_flush k fs up down : status k = CONN_OPEN ->
    wstep c (mk_wire k fs up down) (mk_wire (conn_bumped k) fs (up ++ [conn_update k]) down)
  | W_bump k fs a up down : wstep c (mk_wire k fs (a :: up) down) (mk_wire k (flow_bump fs a) up down)
  | W_flow k fs fs' up down rx tx fin : flow_moves fs fs' rx tx ->
    wstep c (mk_wire k fs up down) (mk_wire k fs' up (down ++ notify c rx (fs_rx_next_pos fs) tx fin))
  | W_event k fs up e down s outn q evs s' : holds s c k ->
    event_arx_connupdate s e outn q = Done (Some evs, s') ->
    wstep c (mk_wire k fs up (e :: down)) (mk_wire (l_conns s' c) fs up down)
  | W_opened k fs up down s d lport avail evs s' : status k = CONN_OPEN_REQUESTED -> holds s c k ->
    ai_rx_len d = fs_rx_len fs -> ai_tx_len d = fs_tx_len fs ->
    event_kappin_conn_opened s c 0 d lport avail = (Some evs, s') ->
    wstep c (mk_wire k fs up down) (mk_wire (l_conns s' c) fs up down)
  | W_accepted k fs up down s d rip rport avail evs s' : status k = CONN_ACCEPT_REQUESTED -> holds s c k ->
    ai_rx_len d = fs_rx_len fs -> ai_tx_len d = fs_tx_len fs ->
    event_kappin_accept_conn s c 0 d rip rport avail = (Some evs, s') ->
    wstep c (mk_wire k fs up down) (mk_wire (l_conns s' c) fs up down).

(** ** Sums over queues *)

Definition zsum {A} (f : A -> Z) (l : list A) : Z := foldr (fun a n => f a + n) 0 l.
Lemma zsum_app {A} (f : A -> Z) l l' : zsum f (l ++ l') = zsum f l + zsum f l'.
Proof. induction l as [|a l IH]; cbn; [done|]. unfold zsum in *. lia. Qed.
Lemma zsum_nonneg {A} (f : A -> Z) l : Forall (fun a => 0 <= f a) l -> 0 <= zsum f l.
Proof. induction 1; cbn; [done|]. unfold zsum in *. lia. Qed.

(** ** The end of the stream

    Of the updates on their way, exactly the first that carries the mark of the end also
    carries the byte that stands for it, nothing follows it, and a flow that has seen the mark gets no
    more data.  [al] and [n] are the mark and the count of the next update. *)
Definition up_eos (a : atx) : bool := Z.land (atx_flags a) FLEXTCP_PL_ATX_FLTXDONE =? FLEXTCP_PL_ATX_FLTXDONE.

Fixpoint fin_ok (fin : bool) (up : list atx) (al : bool) (n : Z) : Prop :=
  match up with
  | [] => if fin then al = true /\ n = 0 else al = true -> 0 < n
  | a :: up => (if fin then up_eos a = true /\ atx_tx_bump a = 0 else up_eos a = true -> 0 < atx_tx_bump a) /\
      fin_ok (fin || up_eos a) up al n
  end.

Lemma fin_ok_send up : forall fin n d, fin_ok fin up false n -> fin_ok fin up false (n + d).
Proof. induction up as [|a up IH]; intros fin n d; cbn; [destruct fin; naive_solver|]. intros [? ?]. split; [done|by apply IH]. Qed.

Lemma fin_ok_push up : forall fin n, 0 <= n -> fin_ok fin up false n -> fin_ok fin up true (n + 1).
Proof.
  induction up as [|a up IH]; intros fin n Hn; cbn; [destruct fin; [naive_solver|lia]|].
  intros [? ?]. split; [done|by apply IH].
Qed.

Lemma fin_ok_flush up k : forall fin, fin_ok fin up (eos_alloc k) (txb_bump k) ->
  fin_ok fin (up ++ [conn_update k]) (eos_alloc k) 0.
Proof.
  assert (E : up_eos (conn_update k) = eos_alloc k).
  { unfold up_eos, conn_update. cbn [atx_flags]. rewrite alloc_flag. by destruct (eos_alloc k). }
  induction up as [|a up IH]; intros fin Hf; cbn in Hf.
  - cbn [app fin_ok]. rewrite E. change (atx_tx_bump (conn_update k)) with (txb_bump k).
    destruct fin; cbn [orb]; [naive_solver|]. split; [exact Hf|]. by destruct (eos_alloc k).
  - cbn. destruct Hf. split; [done|]. by apply IH.
Qed.

(** ** The invariant of an open connection *)

Record open_ok (c : Z) (k : flextcp_connection) (fs : flowst) (up : list atx) (down : list arx) : Prop := {
  oo_status : status k = CONN_OPEN;
  oo_rx : rx_ok k;
  oo_tx : tx_ok k;
  oo_len : rxb_len k = fs_rx_len fs /\ txb_len k = fs_tx_len fs /\ fs_tx_len fs = fs_rx_len fs;
  oo_flow : 0 <= fs_rx_avail fs /\ 0 <= fs_tx_avail fs /\ 0 <= fs_tx_sent fs;
  oo_up : Forall (fun a => 0 <= atx_rx_bump a /\ 0 <= atx_tx_bump a) up;
  oo_down : Forall (fun e => arx_opaque e = c /\ 0 <= arx_rx_bump e /\ 0 <= arx_tx_bump e) down;
  oo_sent : txb_sent k =
    txb_bump k + zsum atx_tx_bump up + fs_tx_avail fs + fs_tx_sent fs + zsum arx_tx_bump down;
  oo_space : rxb_len k =
    fs_rx_avail fs + zsum arx_rx_bump down + rxb_used k + rxb_bump k + zsum atx_rx_bump up;
  oo_tx_head : txb_head k = (tx_end fs + zsum atx_tx_bump up + txb_bump k) mod txb_len k;
  oo_rx_head : (rxb_head k + zsum arx_rx_bump down) mod rxb_len k = fs_rx_next_pos fs mod rxb_len k;
  oo_seq i a : up !! i = Some a -> atx_bump_seq a = u16 (bump_seq k - Z.of_nat (length up) + Z.of_nat i);
  oo_last : in16 (fs_bump_seq fs) /\ (u16 (bump_seq k - Z.of_nat (length up) - fs_bump_seq fs) = 0 \/
    u16 (bump_seq k - Z.of_nat (length up) - fs_bump_seq fs) = 1);
  oo_fin : fin_ok (txfin fs) up (eos_alloc k) (txb_bump k)
}.

Lemma rx_ok_core k : rx_ok (core k) <-> rx_ok k.
Proof. split; intros []; by constructor. Qed.
Lemma tx_ok_core k : tx_ok (core k) <-> tx_ok k.
Proof. split; intros []; by constructor. Qed.
Lemma open_ok_core c k k' fs up down : core k' = core k -> open_ok c k fs up down -> open_ok c k' fs up down.
Proof.
  assert (Hc : forall k, open_ok c (core k) fs up down <-> open_ok c k fs up down).
  { intros x. split; intros []; constructor; try done; by apply rx_ok_core || by apply tx_ok_core. }
  intros E Hk. apply Hc. rewrite E. by apply Hc.
Qed.

(** Only the transmit side of the connection has changed. *)
Record tx_only (k k' : flextcp_connection) : Prop := {
  to_status : status k' = status k;
  to_rx_len : rxb_len k' = rxb_len k;
  to_rx_used : rxb_used k' = rxb_used k;
  to_rx_bump : rxb_bump k' = rxb_bump k;
  to_rx_head : rxb_head k' = rxb_head k;
  to_tx_len : txb_len k' = txb_len k;
  to_seq : bump_seq k' = bump_seq k
}.

Lemma open_ok_tx c k k' fs up down : open_ok c k fs up down -> tx_only k k' -> tx_ok k' ->
  txb_sent k' - txb_bump k' = txb_sent k - txb_bump k ->
  txb_head k' = (txb_head k + (txb_bump k' - txb_bump k)) mod txb_len k ->
  fin_ok (txfin fs) up (eos_alloc k') (txb_bump k') -> open_ok c k' fs up down.
Proof.
  intros [] [] Htx Hs Hh Hf. constructor; try done; rewrite ?to_status0, ?to_rx_len0, ?to_rx_used0, ?to_rx_bump0, ?to_rx_head0,
    ?to_tx_len0, ?to_seq0; try done; try lia.
  { destruct oo_rx0. constructor; by rewrite ?to_rx_len0, ?to_rx_used0, ?to_rx_bump0, ?to_rx_head0. }
  rewrite Hh, oo_tx_head0, Zplus_mod_idemp_l. f_equal. lia.
Qed.

Lemma open_ok_send c k fs up down len : open_ok c k fs up down -> 0 <= len <= txb_allocated k ->
  open_ok c (k <| txb_allocated := txb_allocated k - len |> <| txb_sent := txb_sent k + len |>
    <| txb_head := (txb_head k + len) mod txb_len k |> <| txb_bump := txb_bump k + len |>) fs up down.
Proof.
  intros Hk Hl. pose proof Hk as []. pose proof oo_tx0 as [].
  assert (Hz : eos k = true -> len = 0) by (intros E; specialize (to_closed0 E); lia).
  apply (open_ok_tx c k); try done; cbn; try lia.
  - constructor; try done; cbn; try lia; [apply Z.mod_pos_bound; lia|intros E; specialize (to_closed0 E); lia|].
    intros E. destruct (to_ack0 E) as [Ea E0]. split; [done|]. rewrite (Hz (to_eos0 Ea)). lia.
  - f_equal. lia.
  - change (fin_ok (txfin fs) up (eos_alloc k) (txb_bump k + len)). destruct (eos_alloc k) eqn:Ea; [|by apply fin_ok_send].
    rewrite (Hz (to_eos0 eq_refl)), Z.add_0_r. done.
Qed.

Lemma open_ok_push c k fs up down : open_ok c k fs up down -> eos k = true -> eos_alloc k = false ->
  txb_sent k < txb_len k -> open_ok c (eos_pushed k) fs up down.
Proof.
  intros Hk He Ha Hr. pose proof Hk as []. pose proof oo_tx0 as []. destruct (pushed_flags k) as (_ & F & _).
  apply (open_ok_tx c k); try done.
  - apply pushed_ok; try done. apply not_true_iff_false. intros E. destruct (to_ack0 E). congruence.
  - unfold eos_pushed. cbn. lia.
  - unfold eos_pushed. cbn. f_equal. lia.
  - rewrite F. unfold eos_pushed. cbn. rewrite Ha in oo_fin0. apply fin_ok_push; [lia|done].
Qed.

Lemma open_ok_close c k fs up down : open_ok c k fs up down -> txb_allocated k = 0 -> eos k = false ->
  open_ok c (tx_closed k) fs up down.
Proof.
  intros Hk H0 He. pose proof Hk as []. pose proof oo_tx0 as []. unfold tx_closed.
  set (k1 := k <| flags := Z.lor (flags k) CONN_FLAG_TXEOS |>). destruct (closed_flags k) as (F1 & F2 & F3). fold k1 in F1, F2, F3.
  assert (Hk1 : open_ok c k1 fs up down).
  { apply (open_ok_tx c k); try done; [constructor; rewrite ?F1, ?F2, ?F3; done| |by rewrite F2].
    change (txb_bump k1) with (txb_bump k). rewrite Z.sub_diag, Z.add_0_r. by rewrite Z.mod_small. }
  cbv zeta. destruct (Z.eqb_spec (txb_sent k1) (txb_len k1)); [done|].
  apply open_ok_push; try done; [|destruct (oo_tx _ _ _ _ _ Hk1); lia].
  rewrite F2. apply not_true_iff_false. intros E. by rewrite (to_eos0 E) in He.
Qed.

Lemma app_op_ok c s s' fs up down : app_op c s s' -> open_ok c (l_conns s c) fs up down -> open_ok c (l_conns s' c) fs up down.
Proof.
  intros Hop Hk. set (k := l_conns s c) in *. pose proof Hk as []. pose proof oo_tx0 as []. pose proof oo_rx0 as [].
  assert (Hgo : forall k', changed s s' c k' -> open_ok c k' fs up down -> open_ok c (l_conns s' c) fs up down)
    by (intros k' [Hc _]; by apply open_ok_core).
  assert (Halloc : forall d, 0 <= d <= txb_len k - txb_sent k - txb_allocated k -> eos k = false ->
    open_ok c (k <| txb_allocated := txb_allocated k + d |>) fs up down).
  { intros d Hd He. apply (open_ok_tx c k); try done; [constructor; try done; cbn; try lia|cbn; rewrite Z.sub_diag, Z.add_0_r; by rewrite Z.mod_small].
    intros E. change (eos k = true) in E. congruence. }
  destruct Hop as [len Hl|len Hl|len Hl|len Hl|ok s' E].
  - destruct (rx_done_ok s c len oo_rx0 Hl) as (s1 & E & Hch). fold k in E, Hch. rewrite E in *. apply (Hgo _ Hch).
    destruct (Z.leb_spec len (rxb_used k)); [|done].
    constructor; try done; cbn; try lia. constructor; cbn; lia.
  - destruct (tx_alloc_ok s c len oo_tx0 Hl) as (_ & Hch). fold k in Hch. apply (Hgo _ Hch).
    destruct (eos k) eqn:Ee; [done|]. apply Halloc; [|done].
    pose proof (Z.mod_pos_bound (txb_head k + txb_allocated k) (txb_len k)). lia.
  - destruct (tx_alloc2_ok s c len oo_tx0 Hl) as (_ & Hch). fold k in Hch. apply (Hgo _ Hch).
    destruct (eos k) eqn:Ee; [done|]. apply Halloc; [lia|done].
  - destruct (tx_send_ok s c len oo_tx0 Hl) as (s1 & E & Hch). fold k in E, Hch. rewrite E in *. apply (Hgo _ Hch).
    destruct (Z.leb_spec len (txb_allocated k)); [|done]. by apply open_ok_send.
  - destruct (tx_close_ok s c oo_tx0) as (s1 & E' & Hch). fold k in E', Hch. rewrite E in E'. injection E' as -> <-.
    apply (Hgo _ Hch). destruct (Z.eqb_spec (txb_allocated k) 0), (eos k) eqn:Ee; cbn [andb negb]; try done. by apply open_ok_close.
Qed.

(** An update is sent. *)
Lemma u16_shift a n i : u16 (u32 (a + 1) - (n + 1) + i) = u16 (a - n + i).
Proof. wrap_lia. Qed.

Lemma flush_ok c k fs up down : open_ok c k fs up down -> open_ok c (conn_bumped k) fs (up ++ [conn_update k]) down.
Proof.
  intros []. pose proof oo_rx0 as []. pose proof oo_tx0 as [].
  assert (Hlen : Z.of_nat (length (up ++ [conn_update k])) = Z.of_nat (length up) + 1) by (rewrite length_app; cbn; lia).
  assert (Hs : bump_seq (conn_bumped k) = u32 (bump_seq k + 1)) by done.
  constructor; try done; rewrite ?zsum_app; rewrite ?Hs, ?Hlen; cbn; try lia.
  - constructor; cbn; lia.
  - constructor; cbn; try done; try lia.
  - apply Forall_app. split; [done|]. constructor; [cbn; lia|done].
  - rewrite oo_tx_head0. f_equal. lia.
  - intros i a Hi. rewrite u16_shift. apply lookup_app_Some in Hi as [Hi|[Hi Ha]]; [by apply oo_seq0|].
    apply list_lookup_singleton_Some in Ha as [Hi0 <-]. cbn. f_equal. lia.
  - destruct oo_last0 as [Hin Hl]. split; [done|].
    assert (E : u16 (u32 (bump_seq k + 1) - (Z.of_nat (length up) + 1) - fs_bump_seq fs)
      = u16 (bump_seq k - Z.of_nat (length up) - fs_bump_seq fs)) by wrap_lia.
    by rewrite E.
  - by apply fin_ok_flush.
Qed.

(** The update at the head of the queue is in order, and it is accepted as it is. *)
Lemma next_in_order last s d : in16 last -> d = 0 \/ d = 1 -> u16 (s - last) = d -> bump_out_of_order last (u16 s) = false.
Proof.
  intros Hl Hd E. unfold bump_out_of_order, UINT16_MAX.
  change (65535 / 2) with 32767. change (65535 / 4 * 3) with 49149. change (65535 / 4) with 16383.
  assert (Hc : u16 s = last + d \/ u16 s = last + d - 65536) by wrap_lia. pose proof (u16_range s).
  apply not_true_iff_false. intros Hx. breflect; lia.
Qed.

Lemma head_accepted c k fs a up down : open_ok c k fs (a :: up) down ->
  bump_out_of_order (fs_bump_seq fs) (atx_bump_seq a) = false /\
  bump_validate fs (atx_rx_bump a) (atx_tx_bump a) (atx_flags a) = Some (atx_tx_bump a, fs_tx_avail fs + atx_tx_bump a).
Proof.
  intros []. pose proof oo_rx0 as []. pose proof oo_tx0 as []. apply Forall_cons in oo_up0 as [[Hr Ht] Hup].
  assert (Hs : 0 <= zsum atx_tx_bump up /\ 0 <= zsum atx_rx_bump up /\ 0 <= zsum arx_tx_bump down /\ 0 <= zsum arx_rx_bump down)
    by (split_and!; apply zsum_nonneg; eapply Forall_impl; try eassumption; cbn; naive_solver).
  cbn in oo_sent0, oo_space0. fold (zsum atx_tx_bump up) (zsum atx_rx_bump up) in *. split.
  - rewrite (oo_seq0 0%nat a eq_refl). destruct oo_last0 as [Hin Hl].
    eapply next_in_order; [done|exact Hl|]. f_equal. lia.
  - unfold bump_validate. rewrite txfin_sp, txfin_has. fold (up_eos a). destruct oo_fin0 as [Hf _].
    destruct oo_len0 as (L1 & L2 & L3).
    assert (E1 : (if negb (txfin fs && negb (atx_tx_bump a =? 0)) && (up_eos a && negb (txfin fs) && (atx_tx_bump a =? 0))
      then true else false) = false).
    { destruct (txfin fs), (up_eos a), (Z.eqb_spec (atx_tx_bump a) 0); try done. specialize (Hf eq_refl). lia. }
    destruct (negb (txfin fs && _) && _)%bool; [done|].
    assert (E2 : txfin fs && negb (atx_tx_bump a =? 0) = false).
    { destruct (txfin fs); [|done]. destruct Hf as [_ ->]. done. }
    rewrite E2. cbv zeta. rewrite (u32_small (fs_tx_avail fs + atx_tx_bump a)) by lia.
    rewrite (u32_small (_ + fs_tx_sent fs)), (u32_small (_ + fs_rx_avail fs)) by lia.
    rewrite !(proj2 (Z.ltb_ge _ _)) by lia. done.
Qed.

Lemma bumped_regs fs e sq rb ta : fs_bump_seq (bumped fs e sq rb ta) = sq /\ txfin (bumped fs e sq rb ta) = txfin fs || e.
Proof.
  unfold bumped. cbv zeta. set (fs0 := fs <| fs_bump_seq := sq |>).
  assert (E : has (fs_rx_base_sp fs0) FLEXNIC_PL_FLOWST_TXFIN = txfin fs) by apply (txfin_has fs). rewrite E.
  destruct e, (txfin fs) eqn:Ef; (split; [done|]); cbn [negb andb orb]; try exact Ef.
  change (Z.testbit (Z.lor (fs_rx_base_sp fs) 16) 4 = true). rewrite Z.lor_spec. apply orb_true_r.
Qed.

Lemma rx_credit_small c k fs a up down : open_ok c k fs (a :: up) down -> in32 (fs_rx_avail fs + atx_rx_bump a).
Proof.
  intros []. pose proof oo_rx0 as []. apply Forall_cons in oo_up0 as [[Hr Ht] Hup].
  assert (Hs : 0 <= zsum atx_rx_bump up /\ 0 <= zsum arx_rx_bump down)
    by (split; apply zsum_nonneg; eapply Forall_impl; try eassumption; cbn; naive_solver).
  cbn in oo_space0. fold (zsum atx_rx_bump up) in *. lia.
Qed.

Lemma bump_ok c k fs a up down : open_ok c k fs (a :: up) down ->
  flow_bump fs a = bumped fs (up_eos a) (atx_bump_seq a) (atx_rx_bump a) (fs_tx_avail fs + atx_tx_bump a) /\
  open_ok c k (flow_bump fs a) up down.
Proof.
  intros Hk. destruct (head_accepted _ _ _ _ _ _ Hk) as [H1 H2]. unfold flow_bump. rewrite H1, H2. split; [done|].
  fold (up_eos a). destruct Hk. pose proof oo_rx0 as []. pose proof oo_tx0 as []. apply Forall_cons in oo_up0 as [[Hr Ht] Hup].
  assert (Hs : 0 <= zsum atx_tx_bump up /\ 0 <= zsum atx_rx_bump up /\ 0 <= zsum arx_tx_bump down /\ 0 <= zsum arx_rx_bump down)
    by (split_and!; apply zsum_nonneg; eapply Forall_impl; try eassumption; cbn; naive_solver).
  cbn in oo_sent0, oo_space0, oo_tx_head0, oo_fin0. fold (zsum atx_tx_bump up) (zsum atx_rx_bump up) in *.
  destruct (bumped_fields fs (up_eos a) (atx_bump_seq a) (atx_rx_bump a) (fs_tx_avail fs + atx_tx_bump a))
    as (_&_&E3&E4&_&_&_&E8&_&E10&E11&E12&E13&_).
  destruct (bumped_regs fs (up_eos a) (atx_bump_seq a) (atx_rx_bump a) (fs_tx_avail fs + atx_tx_bump a)) as [F1 F2].
  set (fs' := bumped _ _ _ _ _) in *. clearbody fs'. rewrite u32_small in E8 by lia.
  destruct oo_len0 as (L1 & L2 & L3). pose proof (oo_seq0 0%nat a eq_refl) as Ha. cbn [length] in *.
  constructor; rewrite ?E3, ?E4, ?E8, ?E10, ?E11, ?E12, ?F1, ?F2; try done; try lia.
  - rewrite oo_tx_head0. unfold tx_end. rewrite E10, E11, E13, L2.
    rewrite <-!Z.add_assoc, !Zplus_mod_idemp_l. f_equal. lia.
  - intros i b Hb. rewrite (oo_seq0 (S i) b Hb). f_equal. lia.
  - rewrite Ha. split; [apply u16_range|right]. wrap_lia.
  - apply oo_fin0.
Qed.

Lemma zsum_notify c rx pos tx fin : zsum arx_rx_bump (notify c rx pos tx fin) = rx /\ zsum arx_tx_bump (notify c rx pos tx fin) = tx.
Proof.
  unfold notify. destruct (Z.eqb_spec rx 0), (Z.eqb_spec tx 0), fin; cbn; lia.
Qed.

Lemma flow_ok c k fs fs' up down rx tx fin : open_ok c k fs up down -> flow_moves fs fs' rx tx ->
  open_ok c k fs' up (down ++ notify c rx (fs_rx_next_pos fs) tx fin).
Proof.
  intros [] []. destruct (zsum_notify c rx (fs_rx_next_pos fs) tx fin) as [Z1 Z2]. destruct oo_len0 as (L1 & L2 & L3).
  constructor; rewrite ?zsum_app, ?Z1, ?Z2, ?fm_seq0, ?fm_fin0, ?fm_rx_len0, ?fm_tx_len0, ?fm_tx_end0; try done; try lia.
  - apply Forall_app. split; [done|]. unfold notify. destruct (_ || _ || _)%bool; [|done]. constructor; [cbn; lia|done].
  - rewrite L1 in *. rewrite fm_rx_pos0, Z.add_assoc, <-Zplus_mod_idemp_l, oo_rx_head0, Zplus_mod_idemp_l. done.
Qed.

(** *** Updates of the flow *)

Lemma event_fits c k fs up e down : open_ok c k fs up (e :: down) -> update_fits k e /\ arx_opaque e = c.
Proof.
  intros []. pose proof oo_rx0 as []. pose proof oo_tx0 as []. apply Forall_cons in oo_down0 as [(Ho & Hr & Ht) Hd].
  assert (Hs : 0 <= zsum atx_tx_bump up /\ 0 <= zsum atx_rx_bump up /\ 0 <= zsum arx_tx_bump down /\ 0 <= zsum arx_rx_bump down)
    by (split_and!; apply zsum_nonneg; eapply Forall_impl; try eassumption; cbn; naive_solver).
  cbn in oo_sent0, oo_space0. fold (zsum arx_tx_bump down) (zsum arx_rx_bump down) in *. split; [split; lia|done].
Qed.

(** Acknowledged and received bytes are accounted for, before the end of the stream is looked at. *)
Lemma counted_ok c k fs up e down q h sq : open_ok c k fs up (e :: down) ->
  0 <= h <= rxb_len k -> h mod rxb_len k = (rxb_head k + arx_rx_bump e) mod rxb_len k ->
  open_ok c ((rx_received (k <| fn_core := q |>) (arx_rx_bump e) (if 0 <? arx_rx_bump e then h else rxb_head k) sq)
    <| txb_sent := txb_sent k - arx_tx_bump e |>) fs up down.
Proof.
  intros Hk Hh Hm. destruct (event_fits _ _ _ _ _ _ Hk) as [[Hr Ht] _]. destruct Hk. pose proof oo_rx0 as [].
  cbn in oo_sent0, oo_space0, oo_rx_head0. fold (zsum arx_tx_bump down) (zsum arx_rx_bump down) in *.
  pose proof (less_sent_ok k (arx_tx_bump e) oo_tx0 Ht) as Htx.
  constructor; try done; cbn; try lia.
  - constructor; cbn; try lia. destruct (0 <? _); lia.
  - destruct Htx. by constructor.
  - by apply Forall_cons in oo_down0 as [_ ?].
  - rewrite <-oo_rx_head0. destruct (Z.ltb_spec 0 (arx_rx_bump e)).
    + rewrite <-Zplus_mod_idemp_l, Hm, Zplus_mod_idemp_l. f_equal. lia.
    + f_equal. lia.
Qed.

Lemma tx_acked_end k n fin up : tx_ok k -> fin_ok fin up (eos_alloc k) (txb_bump k) ->
  txb_head (tx_acked k n) = (txb_head k + (txb_bump (tx_acked k n) - txb_bump k)) mod txb_len k /\
  fin_ok fin up (eos_alloc (tx_acked k n)) (txb_bump (tx_acked k n)).
Proof.
  intros Hk Hf. pose proof Hk as []. unfold tx_acked. cbv zeta.
  assert (Hid : forall x, txb_head k = (txb_head k + (x - x)) mod txb_len k).
  { intros x. by rewrite Z.sub_diag, Z.add_0_r, Z.mod_small. }
  destruct (0 <? n); [|by split]. set (k1 := k <| txb_sent := txb_sent k - n |>).
  destruct (eos k1 && negb (eos_alloc k1)) eqn:E.
  - apply andb_true_iff in E as [Ee Ea%negb_true_iff]. destruct (pushed_flags k1) as (_ & -> & _). split.
    + unfold eos_pushed. cbn. f_equal. lia.
    + change (eos_alloc k = false) in Ea. rewrite Ea in Hf. apply fin_ok_push; [cbn; lia|done].
  - destruct (eos_alloc k1 && (txb_sent k1 =? 0)); [|by split; [apply Hid|]]. destruct (acked_flags k1) as (_ & -> & _).
    split; [apply Hid|done].
Qed.

Lemma updated_open_ok c k fs up e down q h sq : open_ok c k fs up (e :: down) ->
  0 <= h <= rxb_len k -> h mod rxb_len k = (rxb_head k + arx_rx_bump e) mod rxb_len k ->
  open_ok c (updated k e q h sq) fs up down.
Proof.
  intros Hk Hh Hm. destruct (event_fits _ _ _ _ _ _ Hk) as [Hf _].
  pose proof (counted_ok c k fs up e down q h sq Hk Hh Hm) as H1. destruct Hk.
  destruct (updated_fields k e q h sq Hf) as (E1&E2&E3&E4&E5&E6&E7&E8&E9&_&Et). cbv zeta in Et. injection Et as T1 T2 T3 T4.
  destruct (tx_acked_end k (arx_tx_bump e) _ _ oo_tx0 oo_fin0) as [A1 A2].
  refine (open_ok_tx _ _ _ _ _ _ H1 _ _ _ _ _).
  - by constructor.
  - by apply updated_ok.
  - rewrite T1, T2, tx_acked_count by apply Hf. cbn. lia.
  - rewrite T3, T2. exact A1.
  - unfold eos_alloc in *. rewrite T4, T2. exact A2.
Qed.

Lemma event_ok c k fs up e down s outn q evs s' : open_ok c k fs up (e :: down) -> holds s c k ->
  event_arx_connupdate s e outn q = Done (Some evs, s') -> open_ok c (l_conns s' c) fs up down.
Proof.
  intros Hk Hs E. pose proof (open_ok_core _ _ _ _ _ _ Hs Hk) as H0. destruct (event_fits _ _ _ _ _ _ H0) as [Hf Ho].
  pose proof H0 as []. pose proof (connupdate_ok s e outn q) as Hu. rewrite Ho in Hu.
  specialize (Hu oo_status0 oo_rx0 oo_tx0 Hf). destruct (_ <? _).
  - destruct Hu as (s1 & E' & _). rewrite E' in E. done.
  - destruct Hu as (erx & h & sq & s1 & E' & Hch & _ & _ & _ & Hh & Hm). rewrite E' in E. injection E as _ <-.
    apply (open_ok_core c _ _ _ _ _ (ch_conn _ _ _ _ Hch)). by apply updated_open_ok.
Qed.

(** ** Before the connection is open

    The flow may deliver data before the library has heard that the connection is open. *)
Record early_ok (c : Z) (k : flextcp_connection) (fs : flowst) (up : list atx) (down : list arx) : Prop := {
  eo_status : status k = CONN_OPEN_REQUESTED \/ status k = CONN_ACCEPT_REQUESTED;
  eo_zero : rxb_bump k = 0 /\ txb_head k = 0 /\ txb_sent k = 0 /\ txb_allocated k = 0 /\ txb_bump k = 0 /\ bump_seq k = 0 /\
    flags k = 0;
  eo_len : 0 < fs_rx_len fs < 1073741824 /\ fs_tx_len fs = fs_rx_len fs;
  eo_flow : 0 <= fs_rx_avail fs /\ fs_tx_avail fs = 0 /\ fs_tx_sent fs = 0 /\ txfin fs = false /\ fs_bump_seq fs = 0 /\ tx_end fs = 0;
  eo_up : up = [];
  eo_down : Forall (fun e => arx_opaque e = c /\ 0 <= arx_rx_bump e /\ arx_tx_bump e = 0) down;
  eo_head : rxb_head k = rxb_used k /\ 0 <= rxb_used k;
  eo_space : fs_rx_len fs = fs_rx_avail fs + zsum arx_rx_bump down + rxb_used k;
  eo_pos : (rxb_head k + zsum arx_rx_bump down) mod fs_rx_len fs = fs_rx_next_pos fs mod fs_rx_len fs
}.

Lemma early_ok_core c k k' fs up down : core k' = core k -> early_ok c k fs up down -> early_ok c k' fs up down.
Proof.
  assert (Hc : forall k, early_ok c (core k) fs up down <-> early_ok c k fs up down)
    by (intros x; split; intros []; by constructor).
  intros E Hk. apply Hc. rewrite E. by apply Hc.
Qed.

Lemma early_flow_ok c k fs fs' up down rx tx fin : early_ok c k fs up down -> flow_moves fs fs' rx tx ->
  early_ok c k fs' up (down ++ notify c rx (fs_rx_next_pos fs) tx fin).
Proof.
  intros [] []. destruct (zsum_notify c rx (fs_rx_next_pos fs) tx fin) as [Z1 Z2]. destruct eo_flow0 as (F1&F2&F3&F4&F5&F6), eo_len0.
  assert (tx = 0) as -> by lia.
  constructor; rewrite ?zsum_app, ?Z1, ?fm_seq0, ?fm_fin0, ?fm_rx_len0, ?fm_tx_len0, ?fm_tx_end0; try done; try lia.
  - split_and!; (done || lia).
  - apply Forall_app. split; [done|]. unfold notify. destruct (_ || _ || _)%bool; [|done]. constructor; [cbn; lia|done].
  - rewrite fm_rx_pos0, Z.add_assoc, <-Zplus_mod_idemp_l, eo_pos0, Zplus_mod_idemp_l. done.
Qed.

Lemma early_event_ok c k fs up e down s outn q : early_ok c k fs up (e :: down) -> holds s c k ->
  exists s', event_arx_connupdate s e outn q = Done (Some [], s') /\ early_ok c (l_conns s' c) fs up down.
Proof.
  intros Hk Hs. pose proof (early_ok_core _ _ _ _ _ _ Hs Hk) as []. apply Forall_cons in eo_down0 as [(Ho & Hr & Ht) Hd].
  set (k0 := l_conns s c) in *. unfold event_arx_connupdate. rewrite Ho, set_conn_same. fold k0.
  change (status (k0 <| fn_core := q |>)) with (status k0). rewrite Ht, Z.eqb_refl.
  assert (Hn : 0 <= zsum arx_rx_bump down) by (apply zsum_nonneg; eapply Forall_impl; [done|cbn; naive_solver]).
  cbn in eo_space0, eo_pos0. fold (zsum arx_rx_bump down) in *. destruct eo_flow0 as (F1&F2&F3&F4&F5&F6), eo_zero0 as (Z1&Z2&Z3&Z4&Z5&Z6&Z7), eo_len0, eo_head0.
  destruct eo_status0 as [Est|Est]; rewrite Est; eexists; (split; [reflexivity|]); rewrite set_conn_same;
    cbn [rxb_head rxb_used setter]; rewrite !u32_small by lia; 
    (constructor; cbn; try done; try lia; [rewrite Est; auto|rewrite <-eo_pos0; f_equal; lia]).
Qed.

(** The connection becomes open, with the buffers of the flow; the rest of it is as it was. *)
Record now_open (k k' : flextcp_connection) (fs : flowst) : Prop := {
  no_status : status k' = CONN_OPEN;
  no_lens : rxb_len k' = fs_rx_len fs /\ txb_len k' = fs_tx_len fs;
  no_rx : rxb_head k' = rxb_head k /\ rxb_used k' = rxb_used k /\ rxb_bump k' = rxb_bump k;
  no_tx : txb_head k' = txb_head k /\ txb_sent k' = txb_sent k /\ txb_allocated k' = txb_allocated k /\ txb_bump k' = txb_bump k;
  no_rest : bump_seq k' = bump_seq k /\ flags k' = flags k
}.

Lemma now_open_ok c k k' fs up down : early_ok c k fs up down -> now_open k k' fs -> open_ok c k' fs up down.
Proof.
  intros [] []. destruct eo_flow0 as (F1&F2&F3&F4&F5&F6), eo_zero0 as (Z1&Z2&Z3&Z4&Z5&Z6&Z7), eo_len0 as [L1 L2], eo_head0,
    no_lens0 as [L3 L4], no_rx0 as (R1&R2&R3), no_tx0 as (T1&T2&T3&T4), no_rest0 as (B1&B2). subst up.
  assert (Hn : 0 <= zsum arx_rx_bump down) by (apply zsum_nonneg; eapply Forall_impl; [done|cbn; naive_solver]).
  assert (Ht : zsum arx_tx_bump down = 0).
  { clear -eo_down0. induction eo_down0 as [|e l He _ IH]; [done|]. cbn. fold (zsum arx_tx_bump l). lia. }
  assert (Hf : eos k' = false /\ eos_alloc k' = false /\ eos_ack k' = false) by (unfold eos, eos_alloc, eos_ack; by rewrite B2, Z7).
  destruct Hf as (Hf1 & Hf2 & Hf3).
  constructor; rewrite ?L3, ?L4, ?R1, ?R2, ?R3, ?T1, ?T2, ?T3, ?T4, ?Ht; cbn; try done; try lia.
  - constructor; rewrite ?L3, ?R1, ?R2, ?R3; lia.
  - constructor; rewrite ?Hf1, ?Hf2, ?Hf3; try done; lia.
  - eapply Forall_impl; [done|]. cbn. intros e (? & ? & ?). split_and!; [done|lia|lia].
  - rewrite F6, Z2, Z5. cbn. by rewrite Z.mod_small by lia.
  - rewrite B1, Z6, F5. cbn. split; [lia|left; done].
  - change (fin_ok (txfin fs) [] (eos_alloc k') (txb_bump k)). by rewrite F4, Hf2.
Qed.

Lemma inject_early_rest k c fs k1 : now_open k k1 fs -> now_open k (snd (inject_early k1 c)) fs.
Proof. intros []. unfold inject_early. destruct (0 <? rxb_used k1); by constructor. Qed.

Lemma opened_ok c k fs up down s d lport avail evs s' : early_ok c k fs up down -> holds s c k ->
  ai_rx_len d = fs_rx_len fs -> ai_tx_len d = fs_tx_len fs ->
  event_kappin_conn_opened s c 0 d lport avail = (Some evs, s') -> open_ok c (l_conns s' c) fs up down.
Proof.
  intros Hk Hs Hr Ht. unfold event_kappin_conn_opened. cbn [Z.eqb negb]. destruct (early_no_room _ _); [done|].
  set (k1 := opened_conn _ d). destruct (inject_early k1 c) as [l k2] eqn:E. intros [= _ <-]. rewrite set_conn_same.
  apply (now_open_ok c (l_conns s c)); [by apply (early_ok_core _ k)|].
  change k2 with (snd (l, k2)). rewrite <-E. by apply inject_early_rest.
Qed.

Lemma accepted_ok c k fs up down s d rip rport avail evs s' : early_ok c k fs up down -> holds s c k ->
  ai_rx_len d = fs_rx_len fs -> ai_tx_len d = fs_tx_len fs ->
  event_kappin_accept_conn s c 0 d rip rport avail = (Some evs, s') -> open_ok c (l_conns s' c) fs up down.
Proof.
  intros Hk Hs Hr Ht. unfold event_kappin_accept_conn. cbn [Z.eqb negb]. destruct (early_no_room _ _); [done|].
  set (k1 := opened_conn _ d). destruct (inject_early k1 c) as [l k2] eqn:E. intros [= _ <-]. rewrite set_conn_same.
  apply (now_open_ok c (l_conns s c)); [by apply (early_ok_core _ k)|].
  change k2 with (snd (l, k2)). rewrite <-E. by apply inject_early_rest.
Qed.

(** ** Reachable states *)

Definition wire_ok (c : Z) (w : wire) : Prop :=
  early_ok c (w_conn w) (w_fs w) (w_up w) (w_down w) \/ open_ok c (w_conn w) (w_fs w) (w_up w) (w_down w).

Lemma wstep_ok c w w' : wstep c w w' -> wire_ok c w -> wire_ok c w'.
Proof.
  unfold wire_ok.
  intros [k fs up down s s' Hst Hs Hop|k fs up down Hst|k fs a up down|k fs fs' up down rx tx fin Hm|k fs up e down s outn q evs s' Hs E
    |k fs up down s d lport avail evs s' Hst Hs Hr Ht E|k fs up down s d rip rport avail evs s' Hst Hs Hr Ht E];
    cbn; (intros [Hk|Hk]; pose proof Hk as []).
  - exfalso. destruct eo_status0; congruence.
  - right. eapply app_op_ok; [exact Hop|]. by eapply open_ok_core.
  - exfalso. destruct eo_status0; congruence.
  - right. by apply flush_ok.
  - done.
  - right. by apply (bump_ok c k fs a up down).
  - left. by eapply early_flow_ok.
  - right. by eapply flow_ok.
  - left. destruct (early_event_ok _ _ _ _ _ _ s outn q Hk Hs) as (s1 & E' & Hk'). rewrite E' in E. by injection E as _ <-.
  - right. by eapply event_ok.
  - right. by eapply opened_ok.
  - congruence.
  - right. by eapply accepted_ok.
  - congruence.
Qed.

(** A connection that has been requested, and the flow that is set up for it. *)
Definition fresh (k : flextcp_connection) (fs : flowst) : Prop := exists st ip port lp,
  (st = CONN_OPEN_REQUESTED \/ st = CONN_ACCEPT_REQUESTED) /\
  core k = core (connection_init <| status := st |> <| remote_ip := ip |> <| remote_port := port |> <| local_port := lp |>) /\
  0 < fs_rx_len fs < 1073741824 /\ fs_tx_len fs = fs_rx_len fs /\ fs_rx_avail fs = fs_rx_len fs /\ fs_tx_avail fs = 0 /\
  fs_tx_sent fs = 0 /\ txfin fs = false /\ fs_bump_seq fs = 0 /\ fs_rx_next_pos fs = 0 /\ fs_tx_next_pos fs = 0.

Lemma fresh_ok c k fs : fresh k fs -> wire_ok c (mk_wire k fs [] []).
Proof.
  intros (st & ip & port & lp & Hst & E & L1 & L2 & F1 & F2 & F3 & F4 & F5 & F6 & F7). left. cbn.
  apply (early_ok_core _ _ _ _ _ _ E). constructor; cbn; try done; try lia.
  - unfold tx_end. rewrite F7, F2. split_and!; (done || lia).
  - by rewrite F6.
Qed.

Lemma reachable_ok c k fs w : fresh k fs -> rtc (wstep c) (mk_wire k fs [] []) w -> wire_ok c w.
Proof.
  intros Hf Hr. pose proof (fresh_ok c k fs Hf) as H0. induction Hr as [|w w1 w2 Hs _ IH]; [done|]. apply IH. by eapply wstep_ok.
Qed.

Lemma evs_needed_bound k a b f : evs_needed k a b f <= 5.
Proof. unfold evs_needed. repeat match goal with |- context [if ?c then _ else _] => destruct c end; lia. Qed.

(** C8: An application and the fast path never disagree ([lib/tas/conn.c],
    [lib/tas/init.c] against [fast_flows.c]), for buffers of equal lengths.  In every state that a new connection can
    reach by operations of the application, updates in both directions and packets:
    - the next update for the fast path is in order, and it is accepted with all bytes it
      announces;
    - the next update for the application is processed without a failing assertion, and
      delivered when there is room for five events;
    - once the connection is open, its counts are within the buffers; every byte of the
      transmit buffer is free, allocated, announced, in flight or acknowledged on exactly
      one side, and likewise for the receive buffer; both sides agree where the next bytes
      lie; and the application can close its stream without an abort. *)
Theorem wire_safe c k fs w : fresh k fs -> rtc (wstep c) (mk_wire k fs [] []) w ->
  let k' := w_conn w in let fs' := w_fs w in
  (forall a, head (w_up w) = Some a ->
    bump_out_of_order (fs_bump_seq fs') (atx_bump_seq a) = false /\
    bump_validate fs' (atx_rx_bump a) (atx_tx_bump a) (atx_flags a) = Some (atx_tx_bump a, fs_tx_avail fs' + atx_tx_bump a) /\
    fs_rx_avail (flow_bump fs' a) = fs_rx_avail fs' + atx_rx_bump a) /\
  (forall e s outn q, head (w_down w) = Some e -> holds s c k' ->
    exists r s', event_arx_connupdate s e outn q = Done (r, s') /\ (5 <= outn -> r <> None)) /\
  (status k' = CONN_OPEN ->
    rx_ok k' /\ tx_ok k' /\
    txb_sent k' = txb_bump k' + zsum atx_tx_bump (w_up w) + (fs_tx_avail fs' + fs_tx_sent fs') + zsum arx_tx_bump (w_down w) /\
    rxb_len k' = fs_rx_avail fs' + zsum arx_rx_bump (w_down w) + (rxb_used k' + rxb_bump k') + zsum atx_rx_bump (w_up w) /\
    txb_head k' = (fs_tx_next_pos fs' + fs_tx_avail fs' + zsum atx_tx_bump (w_up w) + txb_bump k') mod fs_tx_len fs' /\
    (rxb_head k' + zsum arx_rx_bump (w_down w)) mod fs_rx_len fs' = fs_rx_next_pos fs' mod fs_rx_len fs' /\
    forall s, holds s c k' -> exists ok s', flextcp_connection_tx_close s c = Done (ok, s')).
Proof.
  intros Hf Hr k' fs'. pose proof (reachable_ok c k fs w Hf Hr) as Hw. unfold wire_ok in Hw. fold k' fs' in Hw. 
  split; [|split].
  - intros a Ha. destruct Hw as [[]|Hk]; [by rewrite eo_up0 in Ha|]. destruct (w_up w) as [|b up]; [done|]. injection Ha as ->.
    destruct (head_accepted _ _ _ _ _ _ Hk) as [H1 H2]. split; [done|]. split; [done|].
    destruct (bump_ok _ _ _ _ _ _ Hk) as [-> H3]. destruct (bumped_fields fs' (up_eos a) (atx_bump_seq a) (atx_rx_bump a)
      (fs_tx_avail fs' + atx_tx_bump a)) as (_&_&_&_&_&_&_&->&_). apply u32_small. by eapply rx_credit_small.
  - intros e s outn q He Hs. destruct (w_down w) as [|e' down]; [done|]. injection He as ->. destruct Hw as [Hk|Hk].
    + destruct (early_event_ok _ _ _ _ _ _ s outn q Hk Hs) as (s' & E & _). by exists (Some []), s'.
    + pose proof (open_ok_core _ _ _ _ _ _ Hs Hk) as H0. destruct (event_fits _ _ _ _ _ _ H0) as [Hfit Ho]. destruct H0.
      pose proof (connupdate_ok s e outn q) as Hu. rewrite Ho in Hu. specialize (Hu oo_status0 oo_rx0 oo_tx0 Hfit).
      destruct (Z.ltb_spec outn (evs_needed (l_conns s c) (arx_rx_bump e) (arx_tx_bump e) (arx_eos e))) as [Hn|Hn].
      * destruct Hu as (s' & E & _). exists None, s'. split; [done|].
        pose proof (evs_needed_bound (l_conns s c) (arx_rx_bump e) (arx_tx_bump e) (arx_eos e)). lia.
      * destruct Hu as (erx & h & sq & s' & E & _). by exists (Some (erx ++ tx_events (l_conns s c) e c)), s'.
  - intros Hst. destruct Hw as [[[?|?]]|Hk]; [congruence..|]. pose proof Hk as []. destruct oo_len0 as (L1 & L2 & _).
    split_and!; try done; try lia.
    + rewrite oo_tx_head0, L2. unfold tx_end. by rewrite <-!Z.add_assoc, Zplus_mod_idemp_l, !Z.add_assoc.
    + by rewrite <-L1.
    + intros s Hs. pose proof (open_ok_core _ _ _ _ _ _ Hs Hk) as []. destruct (tx_close_ok s c oo_tx1) as (s' & E & _).
      eexists _, s'. exact E.
Qed.

(** The flow that the slow path sets up ([nicif_connection_add]) for a requested connection
    satisfies the hypothesis. *)
Lemma new_flow_fresh k old db mac lip lp rip rp rx_base tx_base len rseq lseq op rate fg st ip port l :
  st = CONN_OPEN_REQUESTED \/ st = CONN_ACCEPT_REQUESTED ->
  core k = core (connection_init <| status := st |> <| remote_ip := ip |> <| remote_port := port |> <| local_port := l |>) ->
  0 < len < 1073741824 -> Z.testbit rx_base 4 = false ->
  fresh k (Nicif.new_flowst old db mac lip lp rip rp rx_base len tx_base len rseq lseq op rate fg).
Proof. intros Hst Hk Hl Hb. exists st, ip, port, l. split_and!; (done || apply Hl). Qed.

(** ** An example

    A connection is opened; 100 bytes are allocated, 60 of them are sent, and the update is queued. *)
Definition ex_req : flextcp_connection := connection_init <| status := CONN_OPEN_REQUESTED |>.
Definition ex_flow : flowst :=
  mk_flowst 100 4096 8192 1024 1024 0 0 0 0 0 0 0 0 1024 0 500 1024 0 0 0 0 0 0 900 0 0 0 0 0 0 0.
Definition ex_open : lib :=
  snd (event_kappin_conn_opened (set_conn ex_lib 100 ex_req) 100 0 (mk_appin_conn 4096 8192 1024 1024 499 899 1 7 0) 4000 4).
Definition ex_alloc : lib := snd (flextcp_connection_tx_alloc ex_open 100 100).
Definition ex_sent : lib := snd (flextcp_connection_tx_send ex_alloc 100 60).
Definition ex_wire : wire :=
  mk_wire (conn_bumped (l_conns ex_sent 100)) ex_flow [conn_update (l_conns ex_sent 100)] [].

Lemma ex_fresh : fresh ex_req ex_flow.
Proof. exists CONN_OPEN_REQUESTED, 0, 0, 0. split_and!; try done. by left. Qed.

Lemma ex_steps : rtc (wstep 100) (mk_wire ex_req ex_flow [] []) ex_wire.
Proof.
  eapply rtc_l.
  { refine (W_opened 100 ex_req ex_flow [] [] (set_conn ex_lib 100 ex_req) (mk_appin_conn 4096 8192 1024 1024 499 899 1 7 0) 4000 4
      [EV_CONN_OPEN 0 100] ex_open _ _ _ _ _); [done|unfold holds; by rewrite set_conn_same|done..|by vm_compute]. }
  eapply rtc_l; [apply (W_app 100 (l_conns ex_open 100) ex_flow [] [] ex_open ex_alloc); [done|done|by apply op_tx_alloc]|].
  eapply rtc_l; [apply (W_app 100 (l_conns ex_alloc 100) ex_flow [] [] ex_alloc ex_sent); [done|done|by apply op_tx_send]|].
  eapply rtc_l; [apply (W_flush 100 (l_conns ex_sent 100) ex_flow [] []); done|]. apply rtc_refl.
Qed.

Lemma wire_safe_witness : exists a, head (w_up ex_wire) = Some a /\ atx_tx_bump a = 60 /\
  bump_validate ex_flow (atx_rx_bump a) (atx_tx_bump a) (atx_flags a) = Some (60, 60).
Proof.
  destruct (wire_safe 100 ex_req ex_flow ex_wire ex_fresh ex_steps) as [Hup _].
  exists (conn_update (l_conns ex_sent 100)). destruct (Hup _ eq_refl) as (_ & H & _). split_and!; [done|done|exact H].
Defined.

End WireProps.
