(* ===== verification/Appif.v ===== *)
(** * Requests of applications ([tas/slow/appif_ctx.c], [tas/slow/appif.c])

    The slow path polls the queues of all contexts of all applications, and hands every
    request to the TCP module or to the interface to the fast path.  The notifications of the TCP module,
    which are in the same file, are in [Tcp].  The Unix socket on which an application asks
    for contexts is not modelled: contexts are added by it, and are data here. *)
From S2P Require Import Prelude Packet Timers Arp Routing Conn Nicif Cc Tcp KernelIf Loadmon.
#[local] Open Scope Z_scope.

Module Appif.
Import Packet Conn Nicif Cc Tcp KernelIf.

(** [struct app_context] without its queue of replies. *)
Record app_context : Type := mk_app_context { ac_kin_len : Z; ac_kin_pos : Z; ac_doorbell : Z; ac_ready : bool }.
#[export] Instance eta_app_context : Eta app_context := fun x =>
  mk_app_context (ac_kin_len x) (ac_kin_pos x) (ac_doorbell x) (ac_ready x).

(** A context that waits to be registered with the fast path ([need_reg_ctx]), with what
    its [struct kernel_uxsock_response] and [struct kernel_uxsock_request] say. *)
Record reg_request : Type := mk_reg { rq_ctx : Z; rq_rx_off : Z -> Z; rq_tx_off : Z -> Z; rq_rx_len : Z; rq_tx_len : Z; rq_evfd : Z }.

(** The module's state: contexts with their queues of requests, applications (the list, the contexts,
    the listeners and their links, the id), the target of scaling in [tas.c], applications whose context has been registered
    ([poll_to_ux]) or refused; the connections of an application are in [tcp]. *)
Record appif_state (M : Type) : Type := mk_appif {
  tcp : tcp_state M;
  ctxs : Z -> app_context;
  kin : Z -> Z -> appout;
  applications : list Z;
  contexts : Z -> list Z;
  need_reg_ctx : Z -> option reg_request;
  app_id : Z -> Z;
  app_listeners : Z -> Z;
  listener_next : Z -> Z;
  fp_scale_to : Z;
  reg_done : list Z;
  reg_error : list Z
}.
Arguments mk_appif {M}. Arguments tcp {M}. Arguments ctxs {M}. Arguments kin {M}. Arguments applications {M}.
Arguments contexts {M}. Arguments need_reg_ctx {M}. Arguments app_id {M}. Arguments app_listeners {M}.
Arguments listener_next {M}. Arguments fp_scale_to {M}. Arguments reg_done {M}. Arguments reg_error {M}.
#[export] Instance eta_appif {M} : Eta (appif_state M) := fun s =>
  mk_appif (tcp s) (ctxs s) (kin s) (applications s) (contexts s) (need_reg_ctx s) (app_id s) (app_listeners s) (listener_next s)
    (fp_scale_to s) (reg_done s) (reg_error s).

(** [flexnic_scale_to] of [tas.c]. *)
Definition scale_to {M} (s : appif_state M) (cores : Z) : bool * appif_state M :=
  let '(ok, st) := Loadmon.Loadmon.flexnic_scale_to (fp_scale_to s) cores in (ok, s <| fp_scale_to := st |>).

Section Appif.
(** The parameters of [Tcp]. *)
Context (config : configuration) (cfg_ip eth_addr arp_to : Z) (table : list Routing.entry).
Context (crc32c_u32 crc32c_u64 crc32c_sse42_u32 crc32c_sse42_u64 : Z -> Z -> Z).
Context (rte_ipv4_cksum rte_ipv4_udptcp_cksum : pkt_tcp -> Z).
Context (rxq_len txq_len : Z) (txq_bufs : Z -> Z -> Z) (arp_tx_alloc : Z -> list Arp.Arp.pkt_arp -> bool).
Context (comp_offset to_offset mac_offset conn_async_q : Z) (kout_room : Z -> list event -> bool).
Context (fn_cores : Z) {M : Type} `{Timers M}.
Context (fuel : nat) (cur_ts ts : Z) (buffer_contents : Z -> pkt_tcp).

Abbreviation tcp_open := (tcp_open config cfg_ip eth_addr arp_to table crc32c_sse42_u32 crc32c_sse42_u64 rte_ipv4_cksum
  rte_ipv4_udptcp_cksum rxq_len txq_len txq_bufs arp_tx_alloc comp_offset to_offset mac_offset conn_async_q fuel ts buffer_contents).
Abbreviation tcp_close := (tcp_close cfg_ip eth_addr crc32c_u32 crc32c_u64 rte_ipv4_cksum
  rte_ipv4_udptcp_cksum rxq_len txq_len txq_bufs to_offset mac_offset fuel ts buffer_contents).
Abbreviation tcp_accept := (tcp_accept config cfg_ip crc32c_u32 crc32c_u64 crc32c_sse42_u32 crc32c_sse42_u64
  comp_offset mac_offset conn_async_q fuel cur_ts).

Implicit Types (s : appif_state M) (app ctx : Z).

Definition set_tcp s (t : tcp_state M) : appif_state M := s <| tcp := t |>.
(** A reply in the entry that [appif_ctx_poll] has found free. *)
Definition reply s (ctx : Z) (e : event) : appif_state M := set_tcp s (notify_app (tcp s) ctx e).

(** The search of [kin_conn_move] and [kin_conn_close] on the connections of the
    application; 0 when there is none. *)
Fixpoint find_conn (n : nat) (t : tcp_state M) (c opaque' rip lip rport lport : Z) : outcome Z :=
  match n with
  | O => NoFuel
  | S n =>
    if c =? NULL then Done NULL
    else
      let k := conn_of t c in
      if (local_ip k =? lip) && (remote_ip k =? rip) && (local_port k =? lport) && (remote_port k =? rport) && (opaque k =? opaque')
      then Done c else find_conn n t (app_next t c) opaque' rip lip rport lport
  end.

(** The results are the number of entries of the reply queue that have been used. *)
Definition kin_conn_open s app ctx (a : mallocs) (opaque rip rport : Z) : outcome (Z * appif_state M) :=
  '(ret, c, t) ← tcp_open (tcp s) a ctx opaque rip rport (ac_doorbell (ctxs s ctx));
  let s := set_tcp s t in
  match c with
  | Some c =>
    if ret =? 0 then
      let t := t <| app_next := <[c := app_conns t app]> (app_next t) |> in
      Done (0, set_tcp s (t <| app_conns := <[app := c]> (app_conns t) |>))
    else Done (1, reply s ctx (CONN_OPENED ctx opaque (-1) None))
  | None => Done (1, reply s ctx (CONN_OPENED ctx opaque (-1) None))
  end.

(** The first context of the application with the doorbell [db]. *)
Definition find_ctx s app (db : Z) : option Z := find (fun x => ac_doorbell (ctxs s x) =? db) (contexts s app).

Definition kin_conn_move s app ctx (opaque rip lip rport lport db : Z) : outcome (Z * appif_state M) :=
  let error := Done (1, reply s ctx (CONN_MOVE ctx opaque (-1))) in
  c ← find_conn fuel (tcp s) (app_conns (tcp s) app) opaque rip lip rport lport;
  if c =? NULL then error
  else match find_ctx s app db with
  | None => error
  | Some new_ctx =>
    if negb (bool_decide (status (conn_of (tcp s) c) = CONN_OPEN)) then error
    else
      let n := nicif_connection_move (nic_of (tcp s)) (ac_doorbell (ctxs s new_ctx)) (flow_id (conn_of (tcp s) c)) in
      Done (1, reply (set_tcp s (set_nic (tcp s) n)) ctx (CONN_MOVE ctx opaque 0))
  end.

Definition kin_conn_close s app ctx (opaque rip lip rport lport : Z) : outcome (Z * appif_state M) :=
  c ← find_conn fuel (tcp s) (app_conns (tcp s) app) opaque rip lip rport lport;
  if c =? NULL then Done (1, reply s ctx (CONN_CLOSE ctx opaque (-1)))
  else
    '(ok, t) ← tcp_close (tcp s) c;
    let s := set_tcp s t in
    if (ok : bool) then Done (0, s) else Done (1, reply s ctx (CONN_CLOSE ctx opaque (-1))).

Definition kin_listen_open s app ctx (mem_lm mem_l : option Z) (opaque backlog port fl : Z) : Z * appif_state M :=
  let '(l, t) := tcp_listen (tcp s) mem_lm mem_l ctx opaque port backlog (has fl KERNEL_APPOUT_LISTEN_REUSEPORT) in
  let s := set_tcp s t in
  match l with
  | None => (1, reply s ctx (LISTEN_OPEN ctx opaque (-1)))
  | Some l =>
    let s := s <| listener_next := <[l := app_listeners s app]> (listener_next s) |> in
    let s := s <| app_listeners := <[app := l]> (app_listeners s) |> in
    (1, reply s ctx (LISTEN_OPEN ctx opaque 0))
  end.

(** The search of [kin_accept_conn]. *)
Fixpoint find_listener (n : nat) s (l opaque port : Z) : outcome Z :=
  match n with
  | O => NoFuel
  | S n =>
    if l =? NULL then Done NULL
    else if (l_port (listeners (tcp s) l) =? port) && (l_opaque (listeners (tcp s) l) =? opaque) then Done l
    else find_listener n s (listener_next s l) opaque port
  end.

(** A listener that is not found is a null pointer, which [tcp_accept] dereferences once it
    has allocated the connection. *)
Definition kin_accept_conn s app ctx (a : mallocs) (lst_opaque conn_opaque port : Z) : outcome (Z * appif_state M) :=
  l ← find_listener fuel s (app_listeners s app) lst_opaque port;
  let error t := Done (1, reply (set_tcp s t) ctx (CONN_ACCEPTED ctx conn_opaque (-1) None)) in
  if l =? NULL then
    '(c, t) ← conn_alloc config fuel (tcp s) a;
    match c with Some _ => Aborted | None => error t end
  else
    '(ok, t) ← tcp_accept (tcp s) a ctx conn_opaque l (ac_doorbell (ctxs s ctx));
    if (ok : bool) then Done (0, set_tcp s t) else error t.

Definition kin_req_scale s (num_cores : Z) : Z * appif_state M := (0, snd (scale_to s num_cores)).

(** What the calls of [malloc] for a request return. *)
Record memory : Type := mk_memory { mem_conn : mallocs; mem_lm : option Z; mem_l : option Z }.

(** One request. *)
Definition kin_request s app ctx (m : memory) (e : appout) : outcome (Z * appif_state M) :=
  match e with
  | APPOUT_INVALID => Done (0, s)
  | APPOUT_CONN_OPEN opaque rip rport _ => kin_conn_open s app ctx (mem_conn m) opaque rip rport
  | APPOUT_CONN_MOVE opaque rip lip rport lport db => kin_conn_move s app ctx opaque rip lip rport lport db
  | APPOUT_CONN_CLOSE opaque rip lip rport lport _ => kin_conn_close s app ctx opaque rip lip rport lport
  | APPOUT_LISTEN_OPEN opaque backlog lport fl => Done (kin_listen_open s app ctx (mem_lm m) (mem_l m) opaque backlog lport fl)
  | APPOUT_ACCEPT_CONN lst conn lport => kin_accept_conn s app ctx (mem_conn m) lst conn lport
  | APPOUT_REQ_SCALE n => Done (kin_req_scale s n)
  | APPOUT_LISTEN_CLOSE _ _ | APPOUT_OTHER _ => Done (0, s)
  end.

(** The entry of a request is given back. *)
Definition kin_done s ctx : appif_state M :=
  let x := ctxs s ctx in
  let s := s <| kin := <[ctx := <[ac_kin_pos x := APPOUT_INVALID]> (kin s ctx)]> (kin s) |> in
  s <| ctxs := <[ctx := x <| ac_kin_pos := queue_next (ac_kin_pos x) (ac_kin_len x) |>]> (ctxs s) |>.

(** [appif_ctx_poll]. *)
Definition appif_ctx_poll s app ctx (m : memory) : outcome (Z * appif_state M) :=
  if negb (kout_room ctx (events (tcp s))) then Done (0, s)
  else
    let e := kin s ctx (ac_kin_pos (ctxs s ctx)) in
    if appout_free e then Done (0, s)
    else
      '(_, s) ← kin_request s app ctx m e;
      Done (1, kin_done s ctx).

(** The contexts of an application in [appif_poll]; [m] is the memory for each. *)
Fixpoint poll_contexts (l : list Z) s app (m : Z -> memory) (n : Z) : outcome (Z * appif_state M) :=
  match l with
  | [] => Done (n, s)
  | ctx :: l =>
    if negb (ac_ready (ctxs s ctx)) then poll_contexts l s app m n
    else
      '(k, s) ← appif_ctx_poll s app ctx (m ctx);
      poll_contexts l s app m (n + k)
  end.

(** The registration of a context; [true] when the application can be polled. *)
Definition register_context s app : bool * appif_state M :=
  match need_reg_ctx s app with
  | None => (true, s)
  | Some r =>
    let s := s <| need_reg_ctx := <[app := None]> (need_reg_ctx s) |> in
    let '(ok, n) := nicif_appctx_add fn_cores (nic_of (tcp s)) (app_id s app) (ac_doorbell (ctxs s (rq_ctx r)))
      (rq_rx_off r) (rq_tx_off r) (rq_rx_len r) (rq_tx_len r) (rq_evfd r) in
    let s := set_tcp s (set_nic (tcp s) n) in
    if (ok : bool) then (true, s <| reg_done := reg_done s ++ [app] |>) else (false, s <| reg_error := reg_error s ++ [app] |>)
  end.

(** The applications in [appif_poll]. *)
Fixpoint poll_apps (l : list Z) s (m : Z -> memory) (n : Z) : outcome (Z * appif_state M) :=
  match l with
  | [] => Done (n, s)
  | app :: l =>
    let '(ok, s) := register_context s app in
    if negb ok then poll_apps l s m n
    else '(n, s) ← poll_contexts (contexts s app) s app m n; poll_apps l s m n
  end.

(** [appif_poll]; [new] are the applications on the queue [ux_to_poll]. *)
Definition appif_poll s (new : list Z) (m : Z -> memory) : outcome (Z * appif_state M) :=
  let s := s <| applications := rev new ++ applications s |> in
  poll_apps (applications s) s m 0.

End Appif.
End Appif.
