(* ===== verification/AppifSpec.v ===== *)
(** * Proofs about the requests of applications

    What a request changes and how it is answered; the lookup of connections and the
    move of a connection to another context; what a failed connection leaves behind. *)
From S2P Require Import Prelude Chain Memif Packet Timeout Timers TimeoutSpec Arp Routing Conn Nicif Cc Tcp TcpSpec TcpProps KernelIf Appif.
From stdpp Require Import gmap.
#[local] Open Scope Z_scope.

Module AppifSpec.
Import Packet Conn Nicif Cc Tcp TcpSpec KernelIf Appif.

(** ** The lookup of connections *)
Section Lookup.
Context {M : Type} (fuel : nat).
Implicit Types (s : appif_state M) (t : tcp_state M).

(** The connection is the one a request names. *)
Definition named t (op rip lip rport lport c : Z) : bool :=
  let k := conn_of t c in
  (local_ip k =? lip) && (remote_ip k =? rip) && (local_port k =? lport) && (remote_port k =? rport) && (opaque k =? op).

Lemma find_conn_ok t op rip lip rport lport : forall L n h, chain NULL (app_next t) h L -> (length L < n)%nat ->
  find_conn n t h op rip lip rport lport = Done (default NULL (find (named t op rip lip rport lport) L)).
Proof.
  induction L as [|c L IH]; intros [|n] h Hc Hn; cbn [length] in Hn; try lia; cbn [find_conn].
  - cbn in Hc. by rewrite Hc.
  - apply chain_cons in Hc as (-> & H0 & Hc). rewrite (proj2 (Z.eqb_neq c NULL)) by done. cbv zeta. cbn [find].
    fold (named t op rip lip rport lport c). destruct (named _ _ _ _ _ _ c); [done|]. apply IH; [done|lia].
Qed.

Lemma find_null t f h L : chain NULL (app_next t) h L -> find f L = Some NULL -> False.
Proof. intros Hc Hf. apply find_some in Hf as [Hf _]. apply seg_notin_null in Hc. apply Hc. by apply list_elem_of_In. Qed.

(** What a move of the connection [found] to the doorbell [db] changes in the flow states. *)
Definition move_effect s (app : Z) (found : option Z) (db : Z) (f0 : Z -> Memif.flowst) (ok : bool) (f1 : Z -> Memif.flowst) : Prop :=
  (ok = true <-> exists c x, found = Some c /\ status (conn_of (tcp s) c) = CONN_OPEN /\ x ∈ contexts s app /\ ac_doorbell (ctxs s x) = db) /\
  (ok = false -> f1 = f0) /\
  (ok = true -> forall c, found = Some c -> let f := flow_id (conn_of (tcp s) c) in
    f1 f = (f0 f) <| Memif.fs_db_id := db |> /\ forall g, g <> f -> f1 g = f0 g).

(** C31: as long as the connections of the application are a list that ends ([L]; the list can become a cycle when the slow
    path reuses the memory of a connection that failed, see [reused_connection_cycle], and then the search need not end), [kin_conn_move]
    ends, and answers the application with one status.  It is 0 exactly when the first connection of the application with the addresses, the ports and
    the handle of the request is open and one of its contexts has the doorbell asked for.  Then
    the notifications of that connection's flow go to the doorbell; nothing else
    changes, and nothing at all on failure. *)
Theorem kin_conn_move_correct s app ctx op rip lip rport lport db L :
  chain NULL (app_next (tcp s)) (app_conns (tcp s) app) L -> (length L < fuel)%nat ->
  let f0 := flowst (nic_of (tcp s)) in let found := find (named (tcp s) op rip lip rport lport) L in
  exists (ok : bool) f1, kin_conn_move fuel s app ctx op rip lip rport lport db =
      Done (1, reply (set_tcp s (set_nic (tcp s) ((nic_of (tcp s)) <| flowst := f1 |>))) ctx (CONN_MOVE ctx op (if ok then 0 else -1))) /\
    move_effect s app found db f0 ok f1.
Proof.
  intros Hc Hf f0 found. unfold kin_conn_move. rewrite (find_conn_ok _ _ _ _ _ _ _ _ _ Hc Hf). fold found. cbn [mbind outcome_bind].
  assert (Hsame : set_tcp s (set_nic (tcp s) ((nic_of (tcp s)) <| flowst := f0 |>)) = s).
  { unfold f0, nic_of. destruct s as [t]. destruct t as [????????? cs]. by destruct cs as [?????? n], n. }
  assert (Hfail : (forall c x, found = Some c -> status (conn_of (tcp s) c) = CONN_OPEN ->
    x ∈ contexts s app -> ac_doorbell (ctxs s x) = db -> False) ->
    exists (ok : bool) f1, Done (1, reply s ctx (CONN_MOVE ctx op (-1))) =
      Done (1, reply (set_tcp s (set_nic (tcp s) ((nic_of (tcp s)) <| flowst := f1 |>))) ctx (CONN_MOVE ctx op (if ok then 0 else -1))) /\
    move_effect s app found db f0 ok f1).
  { intros Hn. exists false, f0. rewrite Hsame. unfold move_effect. naive_solver. }
  destruct found as [c|] eqn:Efound; cbn [from_option]; unfold id; [|by apply Hfail].
  destruct (Z.eqb_spec c NULL) as [->|_]; [by destruct (find_null _ _ _ _ Hc Efound)|].
  destruct (find_ctx s app db) as [x|] eqn:Ex; unfold find_ctx in Ex.
  - apply find_some in Ex as [Hx%list_elem_of_In Hdb%Z.eqb_eq]. case_bool_decide as Hs; cbn [negb]; [|apply Hfail; naive_solver].
    exists true, (<[flow_id (conn_of (tcp s) c) := (f0 (flow_id (conn_of (tcp s) c))) <| Memif.fs_db_id := db |>]> f0).
    rewrite Hdb. split; [done|]. split; [naive_solver|]. split; [done|].
    intros _ c' [= <-] f. unfold f.
    split; [apply fn_lookup_insert|]. intros g Hg. by rewrite fn_lookup_insert_ne.
  - apply Hfail. intros c' x _ _ Hx%list_elem_of_In Hdb. eapply find_none in Ex; [|exact Hx]. by apply Z.eqb_neq in Ex.
Qed.

End Lookup.

(** ** Requests only change the TCP module and what belongs to listeners *)
Section Frames.
Context (config : configuration) (cfg_ip eth_addr arp_to : Z) (table : list Routing.entry).
Context (crc32c_u32 crc32c_u64 crc32c_sse42_u32 crc32c_sse42_u64 : Z -> Z -> Z).
Context (rte_ipv4_cksum rte_ipv4_udptcp_cksum : pkt_tcp -> Z).
Context (rxq_len txq_len : Z) (txq_bufs : Z -> Z -> Z) (arp_tx_alloc : Z -> list Arp.Arp.pkt_arp -> bool).
Context (comp_offset to_offset mac_offset conn_async_q : Z) (kout_room : Z -> list event -> bool).
Context {M : Type} `{Timers M} (fuel : nat) (cur_ts ts : Z) (buffer_contents : Z -> pkt_tcp).
Implicit Types (s : appif_state M) (t : tcp_state M).

#[local] Abbreviation tcp_open := (tcp_open config cfg_ip eth_addr arp_to table crc32c_sse42_u32 crc32c_sse42_u64 rte_ipv4_cksum
  rte_ipv4_udptcp_cksum rxq_len txq_len txq_bufs arp_tx_alloc comp_offset to_offset mac_offset conn_async_q fuel ts buffer_contents).
#[local] Abbreviation tcp_close := (tcp_close cfg_ip eth_addr crc32c_u32 crc32c_u64 rte_ipv4_cksum
  rte_ipv4_udptcp_cksum rxq_len txq_len txq_bufs to_offset mac_offset fuel ts buffer_contents).
#[local] Abbreviation tcp_accept := (tcp_accept config cfg_ip crc32c_u32 crc32c_u64 crc32c_sse42_u32 crc32c_sse42_u64
  comp_offset mac_offset conn_async_q fuel cur_ts).
#[local] Abbreviation kin_request := (kin_request config cfg_ip eth_addr arp_to table crc32c_u32 crc32c_u64 crc32c_sse42_u32
  crc32c_sse42_u64 rte_ipv4_cksum rte_ipv4_udptcp_cksum rxq_len txq_len txq_bufs arp_tx_alloc comp_offset to_offset mac_offset
  conn_async_q fuel cur_ts ts buffer_contents).

(** Nothing is written to a queue of an application and no list of connections changes. *)
Record app_same t t' : Prop := {
  as_events : events t' = events t; as_conns : app_conns t' = app_conns t; as_next : app_next t' = app_next t
}.
#[local] Instance app_same_preorder : PreOrder app_same.
Proof. split; [done|]. intros x y z [] []. split; congruence. Qed.

Lemma conn_alloc_frame t a c t' : conn_alloc config fuel t a = Done (c, t') -> app_same t t'.
Proof. unfold conn_alloc. run_handler. Qed.

Lemma free_frame t c t' : conn_free fuel t c = Done t' -> app_same t t'.
Proof. unfold conn_free, free_buffers. run_handler. Qed.

Lemma port_search_frame n : forall t q start r t', port_search n t q start = Done (r, t') -> app_same t t'.
Proof. induction n as [|n IH]; cbn [port_search]; intros t q start r t'; run_handler. by eapply IH. Qed.

Lemma send_control_raw_frame t mac ip rp lp ls rs fl b e m r t' : send_control_raw cfg_ip eth_addr rte_ipv4_cksum
  rte_ipv4_udptcp_cksum rxq_len txq_len txq_bufs buffer_contents t mac ip rp lp ls rs fl b e m = (r, t') -> app_same t t'.
Proof. unfold send_control_raw. intros E. repeat case_match; simplify_eq; done. Qed.

Lemma send_control_frame t c fl b e m : app_same t (snd (send_control cfg_ip eth_addr rte_ipv4_cksum
  rte_ipv4_udptcp_cksum rxq_len txq_len txq_bufs mac_offset buffer_contents t c fl b e m)).
Proof. unfold send_control. destruct (send_control_raw _ _ _ _ _ _ _ _ _ _ _ _ _ _ _ _ _ _ _) eqn:E. by eapply send_control_raw_frame. Qed.

Lemma conn_arp_done_frame t c t' : conn_arp_done config cfg_ip eth_addr rte_ipv4_cksum rte_ipv4_udptcp_cksum rxq_len txq_len
  txq_bufs to_offset mac_offset fuel ts buffer_contents t c = Done t' -> app_same t t'.
Proof.
  unfold conn_arp_done. intros E. apply outcome_bind_Done in E as (t1 & E1 & [= <-]).
  transitivity t1; [|apply send_control_frame]. revert E1. unfold conn_timeout_arm. run_handler.
Qed.

Lemma tcp_open_frame t a x op rip rp db r c t' : tcp_open t a x op rip rp db = Done (r, c, t') -> app_same t t'.
Proof.
  unfold Tcp.tcp_open. intros E. apply outcome_bind_Done in E as ([c1 t1] & E1%conn_alloc_frame & E).
  transitivity t1; [done|]. clear E1. destruct c1 as [c1|]; [|by simplify_eq].
  apply outcome_bind_Done in E as ([q t2] & E2%port_search_frame & E). transitivity t2; [done|]. clear E2.
  destruct (q =? 0).
  { apply outcome_bind_Done in E as (t3 & E3%free_frame & E). by simplify_eq. }
  apply outcome_bind_Done in E as ([[ret tm'] arp'] & _ & E). destruct (ret <? 0).
  { apply outcome_bind_Done in E as (t3 & E3%free_frame & E). simplify_eq. etrans; [|exact E3]. done. }
  apply outcome_bind_Done in E as (t3 & E3 & E). simplify_eq. transitivity t3; [|done].
  destruct (ret =? 0); [apply conn_arp_done_frame in E3; etrans; [|exact E3]; done|]. by simplify_eq.
Qed.

Lemma listener_accept_frame t l t' : listener_accept config cfg_ip crc32c_u32 crc32c_u64 crc32c_sse42_u32 crc32c_sse42_u64
  comp_offset mac_offset conn_async_q fuel cur_ts t l = Done t' -> app_same t t'.
Proof. unfold listener_accept, register_flow. run_handler. Qed.

Lemma tcp_accept_frame t a x op l db r t' : tcp_accept t a x op l db = Done (r, t') -> app_same t t'.
Proof.
  unfold Tcp.tcp_accept. intros E. apply outcome_bind_Done in E as ([c1 t1] & E1%conn_alloc_frame & E).
  transitivity t1; [done|]. clear E1. destruct c1 as [c1|]; [|by simplify_eq].
  apply outcome_bind_Done in E as (t2 & E2 & E). simplify_eq.
  destruct (0 <? _); [apply listener_accept_frame in E2; etrans; [|exact E2]; done|by simplify_eq].
Qed.

Lemma tcp_close_frame t c r t' : tcp_close t c = Done (r, t') -> app_same t t'.
Proof.
  unfold Tcp.tcp_close. intros E. destruct (negb _); [by simplify_eq|]. destruct (nicif_connection_disable _ _ _ _) as [y n].
  cbv zeta in E. set (t1 := if _ || _ then _ else _) in E.
  assert (H1 : app_same t t1) by (unfold t1; destruct (_ || _); [|done]; etrans; [|apply send_control_frame]; done).
  clearbody t1. transitivity t1; [done|]. revert E. run_handler.
Qed.

(** A request leaves the queues of requests and the contexts alone; the number it returns is the number of
    replies it has written to its context. *)
Definition replies s s' (ctx k : Z) : Prop :=
  exists R, events (tcp s') = events (tcp s) ++ R /\ Z.of_nat (length R) = k /\
    Forall (fun e => match e with
                     | CONN_OPENED x _ st None | CONN_ACCEPTED x _ st None => x = ctx /\ st = -1
                     | CONN_CLOSE x _ st => x = ctx /\ st = -1
                     | CONN_MOVE x _ st | LISTEN_OPEN x _ st => x = ctx /\ (st = 0 \/ st = -1)
                     | _ => False
                     end) R.

Lemma replies_0 s s' ctx : events (tcp s') = events (tcp s) -> replies s s' ctx 0.
Proof. intros E. exists []. split; [by rewrite app_nil_r|by split]. Qed.

Lemma replies_1 s s' ctx e : events (tcp s') = events (tcp s) ++ [e] ->
  match e with
  | CONN_OPENED x _ st None | CONN_ACCEPTED x _ st None => x = ctx /\ st = -1
  | CONN_CLOSE x _ st => x = ctx /\ st = -1
  | CONN_MOVE x _ st | LISTEN_OPEN x _ st => x = ctx /\ (st = 0 \/ st = -1)
  | _ => False
  end -> replies s s' ctx 1.
Proof. intros E He. exists [e]. split; [done|]. split; [done|]. by constructor. Qed.

Lemma tcp_listen_frame t lm l x op port bl re r t' : tcp_listen t lm l x op port bl re = (r, t') -> events t' = events t.
Proof. unfold tcp_listen. intros E. repeat case_match; simplify_eq; done. Qed.

Lemma kin_request_replies s app ctx m e k s' : kin_request s app ctx m e = Done (k, s') ->
  replies s s' ctx k /\ kin s' = kin s /\ ctxs s' = ctxs s.
Proof.
  unfold Appif.kin_request. intros E. destruct e.
  - simplify_eq. by split; [apply replies_0|].
  - unfold kin_conn_open in E. apply outcome_bind_Done in E as ([[r c] t] & [Ee _ _]%tcp_open_frame & E).
    destruct c as [c|]; [destruct (r =? 0)|]; simplify_eq; (split; [|done]).
    1: by apply replies_0.
    all: (eapply replies_1; [cbn; by rewrite Ee|done]).
  - unfold kin_conn_close in E. apply outcome_bind_Done in E as (c & _ & E). destruct (c =? NULL).
    { simplify_eq. split; [|done]. by eapply replies_1. }
    apply outcome_bind_Done in E as ([r t] & [Ee _ _]%tcp_close_frame & E).
    destruct r; simplify_eq; (split; [|done]); [by apply replies_0|]. eapply replies_1; [cbn; by rewrite Ee|done].
  - unfold kin_conn_move in E. apply outcome_bind_Done in E as (c & _ & E).
    repeat case_match; simplify_eq; (split; [|done]); (eapply replies_1; [done|]); (split; [done|]); auto.
  - unfold kin_listen_open in E. destruct (tcp_listen _ _ _ _ _ _ _ _) as [r t] eqn:El. apply tcp_listen_frame in El.
    destruct r; simplify_eq; (split; [|done]); (eapply replies_1; [cbn; by rewrite El|]); (split; [done|]); auto.
  - simplify_eq. by split; [apply replies_0|].
  - unfold kin_accept_conn in E. apply outcome_bind_Done in E as (l & _ & E). cbv zeta in E. destruct (l =? NULL).
    + apply outcome_bind_Done in E as ([c t] & [Ee _ _]%conn_alloc_frame & E). destruct c; [done|]. simplify_eq. split; [|done].
      eapply replies_1; [cbn; by rewrite Ee|done].
    + apply outcome_bind_Done in E as ([r t] & [Ee _ _]%tcp_accept_frame & E). destruct r; simplify_eq; (split; [|done]).
      * by apply replies_0.
      * eapply replies_1; [cbn; by rewrite Ee|done].
  - unfold kin_req_scale, scale_to in E. destruct (Loadmon.Loadmon.flexnic_scale_to _ _); simplify_eq; by split; [apply replies_0|].
  - simplify_eq. by split; [apply replies_0|].
Qed.

(** ** Connections that failed *)

Lemma tcp_open_conn t a x op rip rp db r c t' : tcp_open t a x op rip rp db = Done (r, Some c, t') -> m_conn a = Some c.
Proof.
  unfold Tcp.tcp_open. intros E. apply outcome_bind_Done in E as ([c1 t1] & E1 & E).
  assert (H1 : is_Some c1 -> m_conn a = c1) by (clear E; revert E1; unfold conn_alloc; run_handler; intros []; congruence).
  destruct c1 as [c1|]; [|by simplify_eq]. rewrite H1 by done. clear E1 H1. revert E. run_handler.
Qed.

(** [conn_failed] frees a connection, but leaves it on the list of its application. *)
Lemma conn_failed_listed t c st t' : conn_failed cfg_ip crc32c_sse42_u32 crc32c_sse42_u64 to_offset kout_room fuel t c st = Done t' ->
  app_conns t' = app_conns t /\ app_next t' = app_next t.
Proof.
  unfold conn_failed, conn_unregister, conn_timeout_disarm, appif_conn_opened, tcp_destroy, conn_free, free_buffers.
  run_handler.
Qed.

(** A failed connection stays first on the list of its application, and its memory is
    free.  When the next connection is put into the same memory, the list is a cycle of one
    element, and no search for another connection ends. *)
Theorem reused_connection_cycle s app ctx a op rip rport s' c : c <> NULL -> m_conn a = Some c -> app_conns (tcp s) app = c ->
  kin_conn_open config cfg_ip eth_addr arp_to table crc32c_sse42_u32 crc32c_sse42_u64 rte_ipv4_cksum rte_ipv4_udptcp_cksum
    rxq_len txq_len txq_bufs arp_tx_alloc comp_offset to_offset mac_offset conn_async_q fuel ts buffer_contents s app ctx a op rip rport = Done (0, s') ->
  app_conns (tcp s') app = c /\ app_next (tcp s') c = c /\
  forall n op' rip' lip' rp' lp', named (tcp s') op' rip' lip' rp' lp' c = false -> find_conn n (tcp s') c op' rip' lip' rp' lp' = NoFuel.
Proof.
  intros H0 Ha Hc E. unfold kin_conn_open in E. apply outcome_bind_Done in E as ([[r c1] t] & Et & E).
  pose proof (tcp_open_frame _ _ _ _ _ _ _ _ _ _ Et) as [_ Ec _].
  destruct c1 as [c1|]; [|by simplify_eq]. pose proof (tcp_open_conn _ _ _ _ _ _ _ _ _ _ Et) as Ha'.
  destruct (r =? 0); [|by simplify_eq]. assert (c1 = c) as -> by congruence. injection E as <-. cbn. rewrite !fn_lookup_insert, Ec, Hc.
  split; [done|]. split; [done|]. intros n op' rip' lip' rp' lp'. set (t2 := _ <| app_conns := _ |>).
  intros Hn. induction n as [|n IH]; [done|]. cbn [find_conn]. rewrite (proj2 (Z.eqb_neq c NULL) H0).
  change (app_next t2 c) with ((<[c := c]> (app_next t)) c). rewrite fn_lookup_insert. cbv zeta.
  unfold named in Hn. cbv zeta in Hn. by rewrite Hn.
Qed.

End Frames.

(** ** An example *)

(** An application with one open connection and two contexts. *)
Definition ex_appif : appif_state Timeout.Timeout.tmgr :=
  mk_appif ((ex_tcp (ex_connection CONN_OPEN false) ex_listener) <| app_conns := fun _ => 100 |>)
    (fun x => mk_app_context 4 0 (50 + x) true) (fun _ _ => APPOUT_INVALID) [0] (fun _ => [1; 2]) (fun _ => None) (fun a => a)
    (fun _ => NULL) (fun _ => NULL) 0 [] [].

Lemma kin_conn_move_correct_witness : exists s', kin_conn_move 2 ex_appif 0 1 7 167772162 167772161 4000 80 52 = Done (1, s') /\
  Memif.fs_db_id (flowst (nic_of (tcp s')) 0) = 52 /\ events (tcp s') = [CONN_MOVE 1 7 0].
Proof.
  destruct (kin_conn_move_correct 2 ex_appif 0 1 7 167772162 167772161 4000 80 52 [100]) as (ok & f1 & -> & Hok & _ & Hf).
  - by split.
  - cbn. lia.
  - assert (ok = true) as -> by (apply Hok; exists 100, 2; split; [reflexivity|]; split; [reflexivity|]; split; [cbn; set_solver|reflexivity]).
    eexists. split; [reflexivity|]. destruct (Hf eq_refl 100 eq_refl) as [Hf0 _]. split; [|reflexivity].
    change (Memif.fs_db_id (f1 0) = 52). change (flow_id _) with 0 in Hf0. by rewrite Hf0.
Defined.

End AppifSpec.
