(* ===== verification/AppifQueue.v ===== *)
(** * The queue of requests of an application

    Requests travel from the library ([Libtas]) to the slow path ([Appif]) in a ring in
    shared memory.  Whatever both sides do, and in whatever order, it is a bounded
    first-in-first-out queue. *)
From S2P Require Import Prelude Packet Timeout Timers TimeoutSpec Arp Routing Conn Nicif Cc Tcp KernelIf Libtas LibtasSpec Appif AppifSpec TcpProps.
From stdpp Require Import gmap.
#[local] Open Scope Z_scope.

Module AppifQueue.
Import Packet Conn Nicif Cc Tcp KernelIf Appif AppifSpec TcpProps.

(** ** The ring *)

(** The entries [L] wait in a ring of [n] entries between the reader's position [pos] and
    the writer's position [head]; all other entries are free. *)
Record queued (n : Z) (ring : Z -> appout) (pos head : Z) (L : list appout) : Prop := {
  q_len : 0 < n < 4294967296;
  q_pos : 0 <= pos < n;
  q_fit : Z.of_nat (length L) <= n;
  q_head : head = (pos + Z.of_nat (length L)) mod n;
  q_at i e : L !! i = Some e -> ring ((pos + Z.of_nat i) mod n) = e /\ appout_free e = false;
  q_free i : Z.of_nat (length L) <= i < n -> ring ((pos + i) mod n) = APPOUT_INVALID
}.

Lemma queue_next_mod pos n : 0 < n < 4294967296 -> 0 <= pos < n -> queue_next pos n = (pos + 1) mod n.
Proof.
  intros Hn Hp. unfold queue_next. rewrite u32_small by lia. destruct (Z.leb_spec n (pos + 1)).
  - replace (pos + 1) with n by lia. by rewrite Z_mod_same_full.
  - by rewrite Z.mod_small by lia.
Qed.

(** There is room exactly when fewer than [n] requests wait. *)
Lemma queued_room n ring pos head L : queued n ring pos head L ->
  appout_free (ring head) = bool_decide (Z.of_nat (length L) < n).
Proof.
  intros Hq. rewrite (q_head _ _ _ _ _ Hq). case_bool_decide.
  - rewrite (q_free _ _ _ _ _ Hq) by lia. done.
  - pose proof (q_fit _ _ _ _ _ Hq). pose proof (q_len _ _ _ _ _ Hq). pose proof (q_pos _ _ _ _ _ Hq).
    replace (Z.of_nat (length L)) with n by lia. destruct L as [|e L]; [cbn in *; lia|].
    destruct (q_at _ _ _ _ _ Hq 0%nat e eq_refl) as [E He]. rewrite Z.add_0_r in E.
    rewrite Z.add_mod, Z_mod_same_full, Z.add_0_r, Z.mod_mod by lia. by rewrite E.
Qed.

Lemma queued_put n ring pos head L e : queued n ring pos head L -> appout_free (ring head) = true -> appout_free e = false ->
  queued n (<[head := e]> ring) pos (queue_next head n) (L ++ [e]).
Proof.
  intros Hq Hr He. rewrite (queued_room _ _ _ _ _ Hq) in Hr. apply bool_decide_eq_true in Hr.
  pose proof (q_len _ _ _ _ _ Hq) as Hn. pose proof (q_pos _ _ _ _ _ Hq) as Hp. pose proof (q_head _ _ _ _ _ Hq) as Eh.
  assert (Hne : forall i, 0 <= i < n -> i <> Z.of_nat (length L) -> (pos + i) mod n <> head).
  { intros i Hi Hne E. rewrite Eh in E. apply mod_shift_inj in E; lia. }
  split; rewrite ?length_app; cbn [length]; try lia.
  - rewrite Eh, queue_next_mod by (try apply Z.mod_pos_bound; lia). rewrite Zplus_mod_idemp_l. f_equal. lia.
  - intros i x Hx. destruct (decide (i = length L)) as [->|Hi].
    + rewrite lookup_app_r, Nat.sub_diag in Hx by done. injection Hx as <-. by rewrite <-Eh, fn_lookup_insert.
    + apply lookup_lt_Some in Hx as Hl. rewrite length_app in Hl. cbn in Hl. rewrite lookup_app_l in Hx by lia.
      rewrite fn_lookup_insert_ne by (intros E; symmetry in E; revert E; apply Hne; lia). by apply (q_at _ _ _ _ _ Hq).
  - intros i Hi. rewrite fn_lookup_insert_ne by (intros E; symmetry in E; revert E; apply Hne; lia).
    apply (q_free _ _ _ _ _ Hq). lia.
Qed.

Lemma queued_front n ring pos head L : queued n ring pos head L -> ring pos = hd APPOUT_INVALID L /\ appout_free (ring pos) = bool_decide (L = []).
Proof.
  intros Hq. pose proof (q_pos _ _ _ _ _ Hq). destruct L as [|e L]; cbn [hd].
  - pose proof (q_free _ _ _ _ _ Hq 0) as E. cbn in E. rewrite Z.add_0_r, Z.mod_small in E by lia. by rewrite E by lia.
  - destruct (q_at _ _ _ _ _ Hq 0%nat e eq_refl) as [E He]. cbn in E. rewrite Z.add_0_r, Z.mod_small in E by lia. by rewrite E.
Qed.

Lemma queued_get n ring pos head e L : queued n ring pos head (e :: L) ->
  queued n (<[pos := APPOUT_INVALID]> ring) (queue_next pos n) head L.
Proof.
  intros Hq. pose proof (q_len _ _ _ _ _ Hq) as Hn. pose proof (q_pos _ _ _ _ _ Hq) as Hp.
  pose proof (q_fit _ _ _ _ _ Hq) as Hf. cbn [length] in Hf. rewrite queue_next_mod by done.
  assert (Hne : forall i, 0 < i < n -> (pos + i) mod n <> pos).
  { intros i Hi E. rewrite <-(Z.mod_small pos n) in E at 2 by done. rewrite <-(Z.add_0_r pos) in E at 2.
    apply mod_shift_inj in E; lia. }
  split; try lia.
  - apply Z.mod_pos_bound. lia.
  - rewrite (q_head _ _ _ _ _ Hq), Zplus_mod_idemp_l. f_equal. cbn [length]. lia.
  - intros i x Hx. rewrite Zplus_mod_idemp_l. apply lookup_lt_Some in Hx as Hl.
    rewrite fn_lookup_insert_ne by (intros E; symmetry in E; revert E; rewrite <-Z.add_assoc; apply Hne; lia).
    destruct (q_at _ _ _ _ _ Hq (S i) x Hx) as [<- He]. split; [|done]. f_equal. f_equal. lia.
  - intros i Hi. rewrite Zplus_mod_idemp_l. destruct (decide (i = n - 1)) as [->|Hi'].
    + replace (pos + 1 + (n - 1)) with (pos + 1 * n) by lia. rewrite Z_mod_plus_full, Z.mod_small by lia. apply fn_lookup_insert.
    + rewrite fn_lookup_insert_ne by (intros E; symmetry in E; revert E; rewrite <-Z.add_assoc; apply Hne; lia).
      rewrite <-Z.add_assoc. apply (q_free _ _ _ _ _ Hq). cbn [length]. lia.
Qed.

(** ** The ring under all interleavings *)
Section Queue.
Context (config : configuration) (cfg_ip eth_addr arp_to : Z) (table : list Routing.entry).
Context (crc32c_u32 crc32c_u64 crc32c_sse42_u32 crc32c_sse42_u64 : Z -> Z -> Z).
Context (rte_ipv4_cksum rte_ipv4_udptcp_cksum : pkt_tcp -> Z).
Context (rxq_len txq_len : Z) (txq_bufs : Z -> Z -> Z) (arp_tx_alloc : Z -> list Arp.Arp.pkt_arp -> bool).
Context (comp_offset to_offset mac_offset conn_async_q : Z) (kout_room : Z -> list event -> bool).
Context {M : Type} `{Timers M}.
Implicit Types (s : appif_state M) (t : tcp_state M).

(** The clock and what is left in transmit buffers differ from poll to poll. *)
#[local] Abbreviation kin_request fuel cur_ts ts buffer_contents := (kin_request config cfg_ip eth_addr arp_to table crc32c_u32 crc32c_u64 crc32c_sse42_u32
  crc32c_sse42_u64 rte_ipv4_cksum rte_ipv4_udptcp_cksum rxq_len txq_len txq_bufs arp_tx_alloc comp_offset to_offset mac_offset
  conn_async_q fuel cur_ts ts buffer_contents).

#[local] Abbreviation appif_ctx_poll fuel cur_ts ts buffer_contents := (appif_ctx_poll config cfg_ip eth_addr arp_to table crc32c_u32 crc32c_u64 crc32c_sse42_u32
  crc32c_sse42_u64 rte_ipv4_cksum rte_ipv4_udptcp_cksum rxq_len txq_len txq_bufs arp_tx_alloc comp_offset to_offset mac_offset
  conn_async_q kout_room fuel cur_ts ts buffer_contents).
#[local] Existing Instance Libtas.eta_lib.
Implicit Types (l : Libtas.lib).

(** The calls of the library that send a request. *)
Inductive lib_call : Libtas.lib -> bool -> Libtas.lib -> Prop :=
  | Call_listen l lst port backlog fl ok l' : Libtas.flextcp_listen_open l lst port backlog fl = (ok, l') -> lib_call l ok l'
  | Call_accept l lst conn ok l' : Libtas.flextcp_listen_accept l lst conn = (ok, l') -> lib_call l ok l'
  | Call_open l conn ip port ok l' : Libtas.flextcp_connection_open l conn ip port = (ok, l') -> lib_call l ok l'
  | Call_close l n conn ok l' : Libtas.flextcp_connection_close n l conn = Done (ok, l') -> lib_call l ok l'
  | Call_move l conn ok l' : Libtas.flextcp_connection_move l conn = (ok, l') -> lib_call l ok l'.

(** The library's end of the queue of requests. *)
Definition kin_end l : (Z -> appout) * Z * Z := (Libtas.l_kin l, Libtas.kin_head (Libtas.l_ctx l), Libtas.kin_len (Libtas.l_ctx l)).

Lemma kin_put_end l e : kin_end (Libtas.kin_put l e) =
  (<[Libtas.kin_head (Libtas.l_ctx l) := e]> (Libtas.l_kin l), queue_next (Libtas.kin_head (Libtas.l_ctx l)) (Libtas.kin_len (Libtas.l_ctx l)),
   Libtas.kin_len (Libtas.l_ctx l)).
Proof. done. Qed.

(** A call writes one entry, when there is room and the call succeeds, or nothing. *)
Lemma lib_call_end l ok l' : lib_call l ok l' -> let '(ring, head, len) := kin_end l in
  if ok then exists e, appout_free (ring head) = true /\ appout_free e = false /\ kin_end l' = (<[head := e]> ring, queue_next head len, len)
  else kin_end l' = kin_end l.
Proof.
  assert (Hb : forall n l conn l', Libtas.bump_remove n l conn = Done l' -> kin_end l' = kin_end l).
  { intros n l0 conn l1. unfold Libtas.bump_remove. run_handler. unfold Libtas.set_conn, Libtas.set_ctx; by case_match. }
  unfold kin_end at 1. intros Hc. destruct Hc as [l lst port bl fl ok l' E|l lst conn ok l' E|l conn ip port ok l' E|l n conn ok l' E|l conn ok l' E].
  - unfold Libtas.flextcp_listen_open in E. destruct (negb (_ =? 0)); [by simplify_eq|].
    destruct (Libtas.kin_room _) eqn:Er; cbn [negb] in E; simplify_eq; [|done]. eexists. split; [exact Er|]. split; [|reflexivity]. done.
  - unfold Libtas.flextcp_listen_accept in E. destruct (Libtas.kin_room _) eqn:Er; cbn [negb] in E; simplify_eq; [|done]. eexists. split; [exact Er|]. split; [|reflexivity]. done.
  - unfold Libtas.flextcp_connection_open in E. destruct (Libtas.kin_room _) eqn:Er; cbn [negb] in E; simplify_eq; [|done]. eexists. split; [exact Er|]. split; [|reflexivity]. done.
  - unfold Libtas.flextcp_connection_close in E. apply outcome_bind_Done in E as (l1 & E1%Hb & E). injection E1 as Ek Eh El.
    destruct (Libtas.kin_room l1) eqn:Er; unfold Libtas.kin_room in Er; cbn [negb] in E; simplify_eq.
    + rewrite Ek, Eh in Er. rewrite kin_put_end. cbn. rewrite Ek, Eh, El. eexists. split; [exact Er|]. split; [|reflexivity]. done.
    + unfold kin_end. by rewrite Ek, Eh, El.
  - unfold Libtas.flextcp_connection_move in E. destruct (Libtas.kin_room _) eqn:Er; cbn [negb] in E; simplify_eq; [|done]. eexists. split; [exact Er|]. split; [|reflexivity]. done.
Qed.

(** The library of one application with one context [ctx], and the slow path; the requests
    the library has sent, and those the slow path has handled. *)
Record world : Type := mk_world { w_lib : Libtas.lib; w_slow : appif_state M; w_sent : list appout; w_handled : list appout }.

(** The queue is memory that both sides share: a step of one side is seen by the other.  Steps of
    both that do not concern the queue are arbitrary. *)
Definition see_slow l s (ctx : Z) : Libtas.lib := l <| Libtas.l_kin := kin s ctx |>.
Definition see_lib s l (ctx : Z) : appif_state M := s <| kin := <[ctx := Libtas.l_kin l]> (kin s) |>.

Inductive kstep (app ctx : Z) : world -> world -> Prop :=
  | K_call l s sent handled ok l' : lib_call l ok l' ->
      kstep app ctx (mk_world l s sent handled)
        (mk_world l' (see_lib s l' ctx) (if ok : bool then sent ++ [Libtas.l_kin l' (Libtas.kin_head (Libtas.l_ctx l))] else sent) handled)
  | K_poll l s sent handled fuel cur_ts ts buffer_contents m n s' : appif_ctx_poll fuel cur_ts ts buffer_contents s app ctx m = Done (n, s') ->
      kstep app ctx (mk_world l s sent handled)
        (mk_world (see_slow l s' ctx) s' sent (if n =? 1 then handled ++ [kin s ctx (ac_kin_pos (ctxs s ctx))] else handled))
  | K_lib l s sent handled l' : kin_end l' = kin_end l -> kstep app ctx (mk_world l s sent handled) (mk_world l' s sent handled)
  | K_slow l s sent handled s' : kin s' ctx = kin s ctx -> ctxs s' ctx = ctxs s ctx ->
      kstep app ctx (mk_world l s sent handled) (mk_world l s' sent handled).

(** Both ends of the queue agree, and what has been sent is what has been handled and what
    waits. *)
Record kin_inv (ctx : Z) (w : world) (L : list appout) : Prop := {
  ki_shared : kin (w_slow w) ctx = Libtas.l_kin (w_lib w);
  ki_len : ac_kin_len (ctxs (w_slow w) ctx) = Libtas.kin_len (Libtas.l_ctx (w_lib w));
  ki_queued : queued (ac_kin_len (ctxs (w_slow w) ctx)) (Libtas.l_kin (w_lib w)) (ac_kin_pos (ctxs (w_slow w) ctx))
    (Libtas.kin_head (Libtas.l_ctx (w_lib w))) L;
  ki_sent : w_sent w = w_handled w ++ L
}.

(** A poll with room for a reply handles the first waiting request. *)
Lemma appif_ctx_poll_front fuel cur_ts ts buffer_contents s app ctx m head L : queued (ac_kin_len (ctxs s ctx)) (kin s ctx) (ac_kin_pos (ctxs s ctx)) head L ->
  appif_ctx_poll fuel cur_ts ts buffer_contents s app ctx m =
    if kout_room ctx (events (tcp s)) then
      match L with
      | [] => Done (0, s)
      | e :: _ => '(_, s) ← kin_request fuel cur_ts ts buffer_contents s app ctx m e; Done (1, kin_done s ctx)
      end
    else Done (0, s).
Proof.
  intros Hq. unfold Appif.appif_ctx_poll. destruct (kout_room _ _); cbn [negb]; [|done].
  destruct (queued_front _ _ _ _ _ Hq) as [Ee E]. rewrite E. destruct L as [|e L]; [done|]. cbn [hd] in Ee. by rewrite Ee.
Qed.

Lemma kstep_inv app ctx w w' L : kstep app ctx w w' -> kin_inv ctx w L -> exists L', kin_inv ctx w' L'.
Proof.
  intros Hs [Hsh Hl Hq Hse]. destruct Hs as [l s sent handled ok l' Hc|l s sent handled fuel cur_ts ts buf m n s' Ep|l s sent handled l' Ee|l s sent handled s' Ek Ex];
    cbn [w_lib w_slow w_sent w_handled] in *.
  - apply lib_call_end in Hc. unfold kin_end in Hc. destruct ok.
    + destruct Hc as (e & Hr & He & [= E1 E2 E3]). exists (L ++ [e]). split; cbn; rewrite ?fn_lookup_insert; try congruence.
      * rewrite E1, E2, <-Hl. by apply queued_put.
      * by rewrite E1, fn_lookup_insert, Hse, app_assoc.
    + injection Hc as E1 E2 E3. exists L. split; cbn; rewrite ?fn_lookup_insert; congruence.
  - rewrite <-Hsh in Hq. rewrite (appif_ctx_poll_front _ _ _ _ _ _ _ _ _ _ Hq) in Ep.
    assert (Hsame : s' = s -> n = 0 -> exists L', kin_inv ctx (mk_world (see_slow l s' ctx) s' sent
      (if n =? 1 then handled ++ [kin s ctx (ac_kin_pos (ctxs s ctx))] else handled)) L') by (intros -> ->; exists L; by split).
    destruct (kout_room _ _); [|simplify_eq; auto]. destruct L as [|e L]; [simplify_eq; auto|].
    apply outcome_bind_Done in Ep as ([k s1] & (_ & E1 & E2)%kin_request_replies & [= <- <-]). exists L.
    split; cbn; rewrite ?E1, ?E2, ?fn_lookup_insert; [done|done| |].
    + by apply (queued_get _ _ _ _ e).
    + rewrite (proj1 (queued_front _ _ _ _ _ Hq)). cbn. by rewrite <-app_assoc.
  - injection Ee as E1 E2 E3. exists L. split; cbn; congruence.
  - exists L. split; cbn; rewrite ?Ek, ?Ex; done.
Qed.

(** C9: the queue of requests between an application and the slow path, under every
    interleaving of the calls of the library that send requests, of the polls of the slow path and
    of anything else both do.  What the slow path has handled and what waits in the queue
    is what the library has sent, in that order: no request is lost, repeated or
    overtaken.  At most the length of the queue waits; a call finds room exactly when less waits; and
    a poll with room for a reply handles the request that has waited longest. *)
Theorem requests_fifo app ctx w w' : rtc (kstep app ctx) w w' -> kin_inv ctx w [] ->
  let s := w_slow w' in let l := w_lib w' in
  exists L, w_sent w' = w_handled w' ++ L /\ Z.of_nat (length L) <= Libtas.kin_len (Libtas.l_ctx l) /\
    Libtas.kin_room l = bool_decide (Z.of_nat (length L) < Libtas.kin_len (Libtas.l_ctx l)) /\
    forall fuel cur_ts ts buffer_contents m, appif_ctx_poll fuel cur_ts ts buffer_contents s app ctx m =
      if kout_room ctx (events (tcp s)) then
        match L with [] => Done (0, s) | e :: _ => '(_, s) ← kin_request fuel cur_ts ts buffer_contents s app ctx m e; Done (1, kin_done s ctx) end
      else Done (0, s).
Proof.
  intros Hs Hi. assert (Hi' : exists L, kin_inv ctx w L) by eauto. clear Hi.
  induction Hs as [w|w w1 w' Hs _ IH]; [|apply IH; destruct Hi' as [L Hi]; by eapply kstep_inv].
  destruct Hi' as (L & [Hsh Hl Hq Hse]). exists L. rewrite <-Hl. split; [done|]. split; [apply (q_fit _ _ _ _ _ Hq)|].
  split; [by apply (queued_room _ _ _ _ _ Hq)|]. intros fuel cur_ts ts buf m. eapply appif_ctx_poll_front. by rewrite Hsh.
Qed.

End Queue.

(** ** An example *)

(** A library and the slow path with an empty queue of eight entries. *)
Definition ex_link : appif_state Timeout.Timeout.tmgr := ex_appif <| ctxs := fun _ => mk_app_context 8 0 52 true |>.
Definition ex_world : world := mk_world LibtasSpec.LibtasSpec.ex_lib ex_link [] [].

Lemma ex_kin_inv : kin_inv 1 ex_world [].
Proof. split; [done|done| |done]. split; cbn; try done; lia. Qed.

(** The application asks for two connections, and the slow path has not polled yet. *)
Lemma requests_fifo_witness : exists l1 l2 L,
  Libtas.flextcp_connection_open LibtasSpec.LibtasSpec.ex_lib 100 167772162 80 = (true, l1) /\
  Libtas.flextcp_connection_open l1 200 167772163 81 = (true, l2) /\
  L = [APPOUT_CONN_OPEN 100 167772162 80 0; APPOUT_CONN_OPEN 200 167772163 81 0].
Proof.
  destruct (Libtas.flextcp_connection_open LibtasSpec.LibtasSpec.ex_lib 100 167772162 80) as [ok1 l1] eqn:E1.
  destruct (Libtas.flextcp_connection_open l1 200 167772163 81) as [ok2 l2] eqn:E2.
  pose proof (f_equal fst E1) as H1. vm_compute in H1. subst ok1.
  pose proof (f_equal fst E2) as H2. replace l1 with (snd (true, l1)) in H2 by done. rewrite <-E1 in H2. vm_compute in H2. subst ok2.
  set (g := fun _ : pkt_tcp => 0).
  destruct (requests_fifo ex_conf 0 0 0 [] (fun _ _ => 0) (fun _ _ => 0) (fun _ _ => 0) (fun _ _ => 0) g g 4 4 (fun _ _ => 0)
    (fun _ _ => true) 16 32 48 900 (fun _ _ => true) 0 1 ex_world
    (mk_world l2 (see_lib (see_lib ex_link l1 1) l2 1)
      (([] ++ [Libtas.l_kin l1 0]) ++ [Libtas.l_kin l2 (Libtas.kin_head (Libtas.l_ctx l1))]) [])) as (L & HL & _).
  - eapply rtc_l; [apply (K_call _ _ _ _ _ _ _ _ _ _ _ _ _ _ _ _ _ _ _ _ 0 1 _ _ [] [] true l1); by eapply Call_open|].
    apply rtc_once. apply (K_call _ _ _ _ _ _ _ _ _ _ _ _ _ _ _ _ _ _ _ _ 0 1 _ _ _ [] true l2). by eapply Call_open.
  - apply ex_kin_inv.
  - exists l1, l2, L. split; [done|]. split; [exact E2|]. cbn [w_sent w_handled app] in HL. rewrite <-HL.
    injection E1 as <-. vm_compute in E2. injection E2 as <-. reflexivity.
Defined.

End AppifQueue.
