(* ===== verification/Doorbell.v ===== *)
(** * Doorbell queues of Backdraft ([lib/bkdrft])

    A sender that has put packets into a queue of a port announces them in a control
    message, a doorbell, on one queue that the receiver polls; the receiver keeps count of what
    has been announced and reads the queues with packets only.  [packet.c] builds and
    parses control packets, [bkdrft.c] sends and receives over DPDK, [bkdrft_vport.c] over
    virtual ports. *)
From S2P Require Import Prelude.
#[local] Open Scope Z_scope.

Module Doorbell.

Definition ETHER_TYPE_IPV4 : Z := 2048.
Definition ETHER_TYPE_VLAN : Z := 33024.
Definition IPPROTO_UDP : Z := 17.
Definition IPPROTO_TCP : Z := 6.
Definition BKDRFT_PROTO_TYPE : Z := 253.
Definition BKDRFT_CTRL_QUEUE : Z := 0.
Definition BKDRFT_CTRL_MSG_TYPE : Z := 49.
Definition BD_PKT_SIZE : Z := 128.
Definition COUNT_PRIORITY : Z := 2.
Definition ETHER_SIZE : Z := 14.
Definition IPV4_SIZE : Z := 20.
Definition UDP_SIZE : Z := 8.
(** [payload_offset] of [send_pkt]. *)
Definition payload_offset : Z := ETHER_SIZE + IPV4_SIZE + UDP_SIZE.

(** ** Packets ([packet.c]) *)

(** A packet buffer: its bytes from the first header on, and its length. *)
Record mbuf : Type := mk_mbuf { m_data : Z -> Z; data_len : Z }.
#[export] Instance eta_mbuf : Eta mbuf := fun b => mk_mbuf (m_data b) (data_len b).

(** Fields in network order, and in the order of the host. *)
Definition be16 (b : Z -> Z) (off : Z) : Z := b off * 256 + b (off + 1).
Definition put_be16 (b : Z -> Z) (off v : Z) : Z -> Z := <[off + 1 := v mod 256]> (<[off := v / 256 mod 256]> b).
Definition le16 (b : Z -> Z) (off : Z) : Z := b off + 256 * b (off + 1).
Definition put_le16 (b : Z -> Z) (off v : Z) : Z -> Z := <[off + 1 := v / 256 mod 256]> (<[off := v mod 256]> b).
Definition le32 (b : Z -> Z) (off : Z) : Z := le16 b off + 65536 * le16 b (off + 2).
Definition put_le32 (b : Z -> Z) (off v : Z) : Z -> Z := put_le16 (put_le16 b off (v mod 65536)) (off + 2) (v / 65536 mod 65536).
(** Copying [n] bytes. *)
Definition copy (b : Z -> Z) (off : Z) (from : Z -> Z) (from_off n : Z) : Z -> Z :=
  fun i => if (off <=? i) && (i <? off + n) then from (from_off + (i - off)) else b i.

(** The offset of the IPv4 header behind the Ethernet header; [None] is the null pointer. *)
Definition get_ipv4_header (b : Z -> Z) : option Z :=
  let ether_type := be16 b 12 in
  if ether_type =? ETHER_TYPE_IPV4 then Some ETHER_SIZE
  else if ether_type =? ETHER_TYPE_VLAN then
    if be16 b (ETHER_SIZE + 2) =? ETHER_TYPE_IPV4 then Some (ETHER_SIZE + 4) else None
  else None.

Definition ihl (b : Z -> Z) (ip : Z) : Z := Z.land (b ip) 15 * 4.

Definition get_udp_header (b : Z -> Z) (ip : Z) : option Z :=
  if (b (ip + 9) =? IPPROTO_UDP) || (b (ip + 9) =? BKDRFT_PROTO_TYPE) then Some (ip + ihl b ip) else None.

Definition get_tcp_header (b : Z -> Z) (ip : Z) : option Z :=
  if b (ip + 9) =? IPPROTO_TCP then Some (ip + ihl b ip) else None.

Definition get_vlan_header (b : Z -> Z) : option Z := if be16 b 12 =? ETHER_TYPE_VLAN then Some ETHER_SIZE else None.

(** [get_payload]: the offset of the payload and its size. *)
Definition get_payload (b : Z -> Z) : option Z * Z :=
  match get_ipv4_header b with
  | None => (None, 0)
  | Some ip =>
    match get_udp_header b ip with
    | None => (None, 0)
    | Some udp => (Some (udp + UDP_SIZE), u64 (be16 b (udp + 4) - UDP_SIZE))
    end
  end.

(** [prepare_packet]: [None] is the return value -1.  [payload] is [None] for the null
    pointer, [sample_pkt] too. *)
Definition prepare_packet (buf : mbuf) (payload : option (Z -> Z)) (sample_pkt : option mbuf) (size : Z) : option mbuf :=
  match sample_pkt with
  | None => None
  | Some sample =>
    let s := m_data sample in
    let s_ipv4 := get_ipv4_header s in
    let s_udp := match s_ipv4 with Some ip => get_udp_header s ip | None => None end in
    let b := m_data buf in
    let b := copy b 6 s 6 6 in
    let b := copy b 0 s 0 6 in
    let b := put_be16 b 12 ETHER_TYPE_IPV4 in
    let ip := ETHER_SIZE in
    let b := <[ip := 69]> b in
    let b := <[ip + 1 := 0]> b in
    let b := put_be16 b (ip + 2) (u16 (IPV4_SIZE + UDP_SIZE + size)) in
    let b := put_be16 b (ip + 4) 0 in
    let b := put_be16 b (ip + 6) 0 in
    let b := <[ip + 8 := 64]> b in
    let b := <[ip + 9 := BKDRFT_PROTO_TYPE]> b in
    let b := put_be16 b (ip + 10) 0 in
    let b := match s_ipv4 with
             | Some sip => copy b (ip + 12) s (sip + 12) 8
             | None => put_be16 (put_be16 (put_be16 (put_be16 b (ip + 12) 2560) (ip + 14) 1) (ip + 16) 2560) (ip + 18) 2
             end in
    let udp := ip + IPV4_SIZE in
    let b := match s_udp with
             | Some su => copy b udp s su 4
             | None => put_be16 (put_be16 b udp 6500) (udp + 2) 6500
             end in
    let b := put_be16 b (udp + 4) (u16 (UDP_SIZE + size)) in
    let b := put_be16 b (udp + 6) 0 in
    let b := match payload with Some p => copy b (udp + UDP_SIZE) p 0 size | None => b end in
    Some (mk_mbuf b BD_PKT_SIZE)
  end.

(** [struct cdq_payload], written at [off]: the size and the bytes. *)
Definition create_bkdraft_ctrl_msg (qid nb_pkts : Z) (b : Z -> Z) (off : Z) : Z * (Z -> Z) :=
  let b := <[off := BKDRFT_CTRL_MSG_TYPE]> b in
  let b := put_le16 b (off + 1) qid in
  let b := put_le16 b (off + 3) 0 in
  let b := put_le32 b (off + 5) nb_pkts in
  (9, b).

(** ** Sending *)

(** [mark_data_queue]: [false] is the return value -1; the checksum is that of DPDK. *)
Definition mark_data_queue (rte_ipv4_cksum : (Z -> Z) -> Z) (pkt : mbuf) (qid : Z) : bool * mbuf :=
  let b := m_data pkt in
  if negb (be16 b 12 =? ETHER_TYPE_IPV4) then (false, pkt)
  else
    let b := <[ETHER_SIZE + 1 := u8 (Z.shiftl qid 2)]> b in
    let b := put_le16 b (ETHER_SIZE + 10) 0 in
    (true, pkt <| m_data := put_le16 b (ETHER_SIZE + 10) (rte_ipv4_cksum b) |>).

Definition bkdrft_mark_send_pkt (rte_ipv4_cksum : (Z -> Z) -> Z) (qid : Z) (pkts : list mbuf) : list mbuf :=
  map (fun p => snd (mark_data_queue rte_ipv4_cksum p qid)) pkts.

Section Send.
(** Transmission on a queue of the port, by DPDK or by a virtual port: the number of packets accepted. *)
Context {N : Type} (tx_burst : N -> Z -> list mbuf -> Z * N).

(** The doorbell for [nb_tx] packets: [ctrl] is the buffer allocated for it. *)
Definition doorbell (ctrl : mbuf) (qid nb_tx : Z) (sample : option mbuf) : option mbuf :=
  let '(size, b) := create_bkdraft_ctrl_msg qid nb_tx (m_data ctrl) payload_offset in
  prepare_packet (ctrl <| m_data := b |>) None sample size.

(** [send_pkt]; [pool] is what [rte_pktmbuf_alloc] returns. *)
Definition send_pkt (n : N) (qid : Z) (tx_pkts : list mbuf) (send_ctrl_pkt : bool) (pool : option mbuf) : Z * N :=
  let '(nb_tx, n) := tx_burst n qid tx_pkts in
  if nb_tx =? 0 then (nb_tx, n)
  else if send_ctrl_pkt then
    match pool with
    | None => (nb_tx, n)
    | Some ctrl =>
      match doorbell ctrl qid nb_tx (head tx_pkts) with
      | None => (nb_tx, snd (tx_burst n BKDRFT_CTRL_QUEUE [ctrl]))
      | Some ctrl => (nb_tx, snd (tx_burst n BKDRFT_CTRL_QUEUE [ctrl]))
      end
    end
  else (nb_tx, n).

(** The loop of [vport_send_pkt] that sends the doorbell. *)
Fixpoint send_doorbell (fuel : nat) (n : N) (q : Z) (ctrl : mbuf) : outcome N :=
  match fuel with
  | O => NoFuel
  | S fuel => let '(nb, n) := tx_burst n q [ctrl] in if negb (nb =? 1) then send_doorbell fuel n q ctrl else Done n
  end.

Definition vport_send_pkt (fuel : nat) (n : N) (qid : Z) (pkts : list mbuf) (send_ctrl_pkt : bool) (queue : Z) (pool : option mbuf)
    : outcome (Z * N) :=
  let '(nb_tx, n) := tx_burst n qid pkts in
  if nb_tx =? 0 then Done (nb_tx, n)
  else if send_ctrl_pkt then
    match pool with
    | None => Done (nb_tx, n)
    | Some ctrl =>
      match doorbell ctrl qid nb_tx (head pkts) with
      | None => Done (nb_tx, n)
      | Some ctrl => n ← send_doorbell fuel n queue ctrl; Done (nb_tx, n)
      end
    end
  else Done (nb_tx, n).
End Send.

(** ** Receiving over DPDK ([bkdrft.c]) *)

Record queue_status : Type := mk_queue_status { nb_pkts : Z; prio : Z }.
#[export] Instance eta_queue_status : Eta queue_status := fun s => mk_queue_status (nb_pkts s) (prio s).

Definition count_queue : Z := 8.
Definition ctrl_burst : Z := 512.

(** What a control packet announces, queue and number; [None] for other packets. *)
Definition announces (b : Z -> Z) : option (Z * Z) :=
  match fst (get_payload b) with
  | None => None
  | Some msg => if b msg =? BKDRFT_CTRL_MSG_TYPE then Some (u8 (le16 b (msg + 1)), u16 (le32 b (msg + 5))) else None
  end.

(** The loops of [_select_queue] over the queues, from [i] on with [n] left, and over the
    priorities. *)
Fixpoint select_prio (n : nat) (i : Z) (st : Z -> queue_status) (p : Z) : option Z :=
  match n with
  | O => None
  | S n => if (prio (st i) =? p) && (0 <? nb_pkts (st i)) then Some i else select_prio n (i + 1) st p
  end.
Fixpoint select_from (n : nat) (p : Z) (st : Z -> queue_status) : option Z :=
  match n with
  | O => None
  | S n => match select_prio (Z.to_nat count_queue) 0 st p with Some i => Some i | None => select_from n (p + 1) st end
  end.
Definition _select_queue (st : Z -> queue_status) : option Z := select_from (Z.to_nat COUNT_PRIORITY) 0 st.

(** The loop over the control packets; a queue out of the array is an error. *)
Fixpoint count_announced (l : list mbuf) (st : Z -> queue_status) : outcome (Z -> queue_status) :=
  match l with
  | [] => Done st
  | b :: l =>
    match announces (m_data b) with
    | None => count_announced l st
    | Some (dqid, dq_burst) =>
      assert_ (dqid <? count_queue);;
      count_announced l (<[dqid := (st dqid) <| nb_pkts := s64 (nb_pkts (st dqid) + dq_burst) |>]> st)
    end
  end.

Section Receive.
(** Reception of up to so many packets from a queue. *)
Context {N : Type} (rx_burst : N -> Z -> Z -> list mbuf * N).

(** [poll_ctrl_queue_expose_qid], whose static variable is [st]: the packets, the queue they are
    from, and the new state.  Both loops are one: [fuel] bounds the times the control queue is read. *)
Fixpoint poll_ctrl_queue_expose_qid (fuel : nat) (n : N) (st : Z -> queue_status) (ctrl_qid burst : Z) (blocking : bool)
    : outcome (list mbuf * option Z * N * (Z -> queue_status)) :=
  match fuel with
  | O => NoFuel
  | S fuel =>
    let '(ctrl, n) := rx_burst n ctrl_qid ctrl_burst in
    match ctrl with
    | [] => if blocking then poll_ctrl_queue_expose_qid fuel n st ctrl_qid burst blocking else Done ([], None, n, st)
    | _ =>
      st ← count_announced ctrl st;
      match _select_queue st with
      | None => poll_ctrl_queue_expose_qid fuel n st ctrl_qid burst blocking
      | Some dqid =>
        let '(bufs, n) := rx_burst n dqid burst in
        match bufs with
        | [] => poll_ctrl_queue_expose_qid fuel n st ctrl_qid burst blocking
        | _ =>
          let st := <[dqid := (st dqid) <| nb_pkts := s64 (nb_pkts (st dqid) - Z.of_nat (length bufs)) |>]> st in
          Done (bufs, Some dqid, n, st)
        end
      end
    end
  end.

Definition poll_ctrl_queue (fuel : nat) (n : N) (st : Z -> queue_status) (ctrl_qid burst : Z) (blocking : bool) :=
  poll_ctrl_queue_expose_qid fuel n st ctrl_qid burst blocking.

(** ** Receiving over virtual ports ([bkdrft_vport.c]) *)

(** [MAX_QUEUES_PER_DIR], and [dpdk_net_perf__ctrl__unpack], which the build generates: the
    queue and the number in a message of so many bytes. *)
Context (MAX_QUEUES_PER_DIR : Z) (unpack : Z -> (Z -> Z) -> option (Z * Z)).
Definition count_overview_seg : Z := MAX_QUEUES_PER_DIR / 64.

(** The static variables. *)
Record vport_status : Type := mk_vport_status { overview_segment : Z -> Z; v_status : Z -> Z }.
#[local] Instance eta_vport_status : Eta vport_status := fun s => mk_vport_status (overview_segment s) (v_status s).

(** [overview_segment[i]]: an access out of the array is an error. *)
Definition overview (s : vport_status) (i : Z) : outcome Z :=
  assert_ ((0 <=? i) && (i <? count_overview_seg));; Done (overview_segment s i).
Definition set_overview (s : vport_status) (i v : Z) : outcome vport_status :=
  assert_ ((0 <=? i) && (i <? count_overview_seg));; Done (s <| overview_segment := <[i := v]> (overview_segment s) |>).

(** [__builtin_ffsl - 1] on a mask of 64 bits: the first bit that is set, or -1. *)
Fixpoint ffs_from (n : nat) (i mask : Z) : Z :=
  match n with
  | O => -1
  | S n => if Z.testbit mask i then i else ffs_from n (i + 1) mask
  end.

(** The loop of [_select_queue] from segment [j] on; the division by zero is an error. *)
Fixpoint vport_select (fuel : nat) (s : vport_status) (j : Z) : outcome (option Z) :=
  match fuel with
  | O => NoFuel
  | S fuel =>
    seg ← overview s j;
    let bit := ffs_from 64 0 seg in
    if (0 <? seg) && (0 <=? bit) then Done (Some (u16 (bit + j * 64)))
    else
      assert_ (negb (count_overview_seg =? 0));;
      let j := (j + 1) mod count_overview_seg in
      if j =? 0 then Done None else vport_select fuel s j
  end.

Definition vport_announces (b : Z -> Z) : option (Z * Z) :=
  let '(data, size) := get_payload b in
  match data with
  | None => None
  | Some msg =>
    if b msg =? BKDRFT_CTRL_MSG_TYPE then
      (fun '(q, k) => (u16 q, u16 k)) <$> unpack (u64 (size - 2)) (fun i => b (msg + 1 + i))
    else None
  end.

Fixpoint vport_count (l : list mbuf) (s : vport_status) : outcome vport_status :=
  match l with
  | [] => Done s
  | b :: l =>
    match vport_announces (m_data b) with
    | None => vport_count l s
    | Some (dqid, dq_burst) =>
      assert_ (dqid <? MAX_QUEUES_PER_DIR);;
      let s := s <| v_status := <[dqid := s32 (v_status s dqid + dq_burst)]> (v_status s) |> in
      s ← (if 0 <? v_status s dqid then
             seg ← overview s (dqid / 64);
             set_overview s (dqid / 64) (Z.lor seg (Z.shiftl 1 (dqid mod 64)))
           else Done s);
      vport_count l s
    end
  end.

Fixpoint vport_poll_ctrl_queue_expose_qid (fuel : nat) (n : N) (s : vport_status) (ctrl_qid burst : Z) (blocking : bool)
    : outcome (list mbuf * option Z * N * vport_status) :=
  match fuel with
  | O => NoFuel
  | S fuel' =>
    let '(ctrl, n) := rx_burst n ctrl_qid ctrl_burst in
    s ← vport_count ctrl s;
    r ← vport_select fuel s 0;
    match r with
    | None => if blocking then vport_poll_ctrl_queue_expose_qid fuel' n s ctrl_qid burst blocking else Done ([], None, n, s)
    | Some dqid =>
      let '(bufs, n) := rx_burst n dqid burst in
      match bufs with
      | [] => vport_poll_ctrl_queue_expose_qid fuel' n s ctrl_qid burst blocking
      | _ =>
        assert_ (dqid <? MAX_QUEUES_PER_DIR);;
        let s := s <| v_status := <[dqid := s32 (v_status s dqid - Z.of_nat (length bufs))]> (v_status s) |> in
        s ← (if v_status s dqid <=? 0 then
               seg ← overview s (dqid / 64);
               set_overview s (dqid / 64) (Z.land seg (u64 (Z.lnot (Z.shiftl 1 (dqid mod 64)))))
             else Done s);
        Done (bufs, Some dqid, n, s)
      end
    end
  end.

Definition vport_poll_ctrl_queue (fuel : nat) (n : N) (s : vport_status) (ctrl_qid burst : Z) (blocking : bool) :=
  vport_poll_ctrl_queue_expose_qid fuel n s ctrl_qid burst blocking.

End Receive.
End Doorbell.
