(* ===== verification/DoorbellSpec.v ===== *)
(** * Proofs about the doorbell queues

    Control messages survive their packet; polling terminates, keeps exact count of what is
    announced and returns announced packets; what goes wrong between a poll and the next
    doorbell, and with the number of queues the virtual ports are built with. *)
From S2P Require Import Prelude Doorbell.
#[local] Open Scope Z_scope.

Module DoorbellSpec.
Import Doorbell.

#[local] Set Default Proof Using "Type*".

(** ** Control messages *)

Lemma le16_bytes q : 0 <= q < 65536 -> q mod 256 + 256 * (q / 256 mod 256) = q.
Proof. intros Hq. Z.div_mod_to_equations. lia. Qed.

(** What a sender puts into a doorbell is what the receiver of a packet with this doorbell reads, whatever
    the buffer contained before and whatever packet the headers are copied from: the queue in
    eight bits and the number of packets in sixteen.  The doorbell carries the link layer
    addresses of that packet. *)
Theorem control_message_roundtrip ctrl sample qid nb_tx : 0 <= qid < 65536 -> 0 <= nb_tx < 4294967296 ->
  exists b, doorbell ctrl qid nb_tx (Some sample) = Some b /\ data_len b = BD_PKT_SIZE /\
    get_payload (m_data b) = (Some payload_offset, 9) /\
    announces (m_data b) = Some (qid mod 256, nb_tx mod 65536) /\
    forall i, 0 <= i < 12 -> m_data b i = m_data sample i.
Proof.
  intros Hq Hn. unfold doorbell, create_bkdraft_ctrl_msg. cbv zeta. unfold prepare_packet.
  set (si := get_ipv4_header (m_data sample)). set (su := match si with Some ip => _ | None => _ end).
  eexists. split; [reflexivity|]. cbn [m_data data_len].
  match goal with |- _ /\ get_payload ?d = _ /\ _ => set (b := d) end. split; [done|].
  assert (Hp : get_payload b = (Some payload_offset, 9)).
  { unfold get_payload. replace (get_ipv4_header b) with (Some 14) by (destruct si, su; reflexivity).
    replace (get_udp_header b 14) with (Some 34) by (destruct si, su; reflexivity). destruct si, su; reflexivity. }
  split; [done|]. split.
  - unfold announces. rewrite Hp. cbn [fst].
    replace (b payload_offset =? BKDRFT_CTRL_MSG_TYPE) with true by (destruct si, su; reflexivity).
    replace (le16 b (payload_offset + 1)) with (qid mod 256 + 256 * (qid / 256 mod 256)) by (destruct si, su; reflexivity).
    replace (le32 b (payload_offset + 5)) with
      ((nb_tx mod 65536) mod 256 + 256 * ((nb_tx mod 65536) / 256 mod 256) + 65536 *
        ((nb_tx / 65536 mod 65536) mod 256 + 256 * ((nb_tx / 65536 mod 65536) / 256 mod 256))) by (destruct si, su; reflexivity).
    rewrite !le16_bytes by (done || apply Z.mod_pos_bound; lia). unfold u8, u16.
    by rewrite (Z.mul_comm 65536), Z_mod_plus_full, Z.mod_mod.
  - intros i Hi. assert (i = 0 \/ i = 1 \/ i = 2 \/ i = 3 \/ i = 4 \/ i = 5 \/ i = 6 \/ i = 7 \/ i = 8 \/ i = 9 \/ i = 10 \/ i = 11) as Hc by lia.
    repeat (destruct Hc as [->|Hc]; [destruct si, su; reflexivity|]). subst i. destruct si, su; reflexivity.
Qed.

(** ** Counting what is announced *)

Definition COUNT_BOUND : Z := 4611686018427387904.

(** What control packets announce for the queue [q], all together. *)
Definition announced (l : list mbuf) (q : Z) : Z :=
  fold_right (fun b a => match announces (m_data b) with Some (d, k) => (if d =? q then k else 0) + a | None => a end) 0 l.

(** Every control packet names a queue of the array. *)
Definition in_array (b : mbuf) : Prop := forall d k, announces (m_data b) = Some (d, k) -> d < count_queue.

Lemma announces_range b d k : announces b = Some (d, k) -> 0 <= d /\ 0 <= k < 65536.
Proof.
  unfold announces. destruct (fst _); [|done]. destruct (_ =? _); [|done]. intros [= <- <-].
  split; [apply u8_range|apply u16_range].
Qed.

Lemma announced_app l1 l2 q : announced (l1 ++ l2) q = announced l1 q + announced l2 q.
Proof.
  induction l1 as [|b l1 IH]; [done|]. cbn [announced fold_right app]. fold (announced (l1 ++ l2) q) (announced l1 q).
  rewrite IH. destruct (announces _) as [[d k]|]; lia.
Qed.

Lemma announced_range l q : 0 <= announced l q <= 65535 * Z.of_nat (length l).
Proof.
  induction l as [|b l IH]; [done|]. cbn [announced fold_right length]. fold (announced l q).
  destruct (announces (m_data b)) as [[d k]|] eqn:E; [|lia]. apply announces_range in E. destruct (d =? q); lia.
Qed.

(** The counts [st'] are those of [st] and what [K] announces; the priorities are the same. *)
Definition counted (st st' : Z -> queue_status) (K : list mbuf) : Prop :=
  forall q, 0 <= q -> nb_pkts (st' q) = nb_pkts (st q) + announced K q /\ prio (st' q) = prio (st q).

Lemma s64_small x : - COUNT_BOUND * 2 <= x < COUNT_BOUND * 2 -> s64 x = x.
Proof. unfold COUNT_BOUND. intros Hx. wrap_lia. Qed.

Lemma count_announced_ok : forall l st, Forall in_array l ->
  (forall q, 0 <= q -> - COUNT_BOUND < nb_pkts (st q) /\ nb_pkts (st q) + 65535 * Z.of_nat (length l) < COUNT_BOUND) ->
  exists st', count_announced l st = Done st' /\ counted st st' l.
Proof.
  induction l as [|b l IH]; intros st Hl Hb; cbn [count_announced]; [exists st; split; [done|]; intros q _; cbn; lia|].
  apply Forall_cons in Hl as [Hin Hl]. cbn [length] in Hb. destruct (announces (m_data b)) as [[d k]|] eqn:E.
  - specialize (Hin d k E). apply announces_range in E as HE. rewrite (proj2 (Z.ltb_lt d count_queue)) by lia.
    cbn [assert_ mbind outcome_bind]. pose proof (Hb d ltac:(lia)) as Hd. rewrite s64_small by (unfold COUNT_BOUND in *; lia).
    destruct (IH (<[d := (st d) <| nb_pkts := nb_pkts (st d) + k |>]> st)) as (st' & Es & Hc); [done| |].
    { intros q Hq. specialize (Hb q Hq). destruct (decide (q = d)) as [->|Hne]; [rewrite fn_lookup_insert; cbn; lia|].
      rewrite fn_lookup_insert_ne by done. lia. }
    exists st'. split; [done|]. intros q Hq. destruct (Hc q Hq) as [E1 E2]. rewrite E1, E2.
    cbn [announced fold_right]. fold (announced l q). rewrite E.
    destruct (decide (q = d)) as [->|Hne]; [rewrite fn_lookup_insert, Z.eqb_refl; cbn; lia|].
    rewrite fn_lookup_insert_ne by done. rewrite (proj2 (Z.eqb_neq d q)) by done. lia.
  - destruct (IH st) as (st' & Es & Hc); [done|intros q Hq; specialize (Hb q Hq); lia|]. exists st'. split; [done|].
    intros q Hq. destruct (Hc q Hq) as [E1 E2]. rewrite E1, E2. cbn [announced fold_right]. by rewrite E.
Qed.

(** ** The choice of a queue *)

Lemma select_prio_ok st p : forall n i, match select_prio n i st p with
  | Some q => i <= q < i + Z.of_nat n /\ prio (st q) = p /\ 0 < nb_pkts (st q) /\ (forall r, i <= r < q -> prio (st r) = p -> nb_pkts (st r) <= 0)
  | None => forall r, i <= r < i + Z.of_nat n -> prio (st r) = p -> nb_pkts (st r) <= 0
  end.
Proof.
  induction n as [|n IH]; intros i; cbn [select_prio]; [lia|]. destruct (Z.eqb_spec (prio (st i)) p), (Z.ltb_spec 0 (nb_pkts (st i)));
    cbn [andb]; [split; [lia|]; split; [done|]; split; [done|]; lia|..].
  all: specialize (IH (i + 1)); destruct (select_prio n (i + 1) st p) as [q|].
  all: try (destruct IH as (? & ? & ? & Hr); split; [lia|]; split; [done|]; split; [done|]; intros r Hr1 Hr2;
    destruct (decide (r = i)) as [->|]; [lia|apply Hr; [lia|done]]).
  all: intros r Hr1 Hr2; destruct (decide (r = i)) as [->|]; [lia|apply IH; [lia|done]].
Qed.

(** While all priorities are 0, which no code changes: the first queue with packets that have been announced. *)
Lemma _select_queue_ok st : (forall q, 0 <= q < count_queue -> prio (st q) = 0) ->
  match _select_queue st with
  | Some q => 0 <= q < count_queue /\ 0 < nb_pkts (st q) /\ (forall r, 0 <= r < q -> nb_pkts (st r) <= 0)
  | None => forall r, 0 <= r < count_queue -> nb_pkts (st r) <= 0
  end.
Proof.
  intros Hp. unfold _select_queue, COUNT_PRIORITY, count_queue in *. change (Z.to_nat 2) with 2%nat. cbn [select_from].
  pose proof (select_prio_ok st 0 (Z.to_nat 8) 0) as H0. destruct (select_prio _ _ st 0) as [q|].
  { destruct H0 as (? & ? & ? & H0). split; [lia|]. split; [done|]. intros r Hr. apply H0; [lia|]. apply Hp. lia. }
  pose proof (select_prio_ok st (0 + 1) (Z.to_nat 8) 0) as H1. destruct (select_prio _ _ st (0 + 1)) as [q|].
  { destruct H1 as (? & E & _). rewrite Hp in E by lia. lia. }
  intros r Hr. apply H0; [lia|]. apply Hp. lia.
Qed.

(** ** Polling *)

(** What [rte_eth_rx_burst] promises, while packets keep arriving: [queue n q] holds the
    packets that have arrived in the queue [q], and [traffic n q] those and all that will
    arrive later.  A burst takes the first packets of its queue, at most as many as asked
    for, and it takes some when some have arrived before.  During a burst further packets
    may arrive in every queue; packets only leave a queue in a burst. *)
Class RxBurst {N} (rx_burst : N -> Z -> Z -> list mbuf * N) (queue traffic : N -> Z -> list mbuf) : Prop := {
  rx_takes n q k l n' : 0 < k -> rx_burst n q k = (l, n') -> traffic n q = l ++ traffic n' q /\ Z.of_nat (length l) <= k;
  rx_some n q k l n' : 0 < k -> rx_burst n q k = (l, n') -> l = [] -> queue n q = [];
  rx_others n q k l n' r : rx_burst n q k = (l, n') -> r <> q -> traffic n' r = traffic n r;
  rx_arrive n q k l n' r : 0 < k -> rx_burst n q k = (l, n') ->
    queue n r `prefix_of` (if decide (r = q) then l ++ queue n' r else queue n' r)
}.

Section Poll.
Context {N : Type} (rx_burst : N -> Z -> Z -> list mbuf * N) (queue traffic : N -> Z -> list mbuf).
Context `{!RxBurst rx_burst queue traffic}.
Context (ctrl_qid burst : Z) (ctrl_ok : 0 <= ctrl_qid) (burst_ok : 0 < burst < 65536).
Implicit Types (n : N) (st : Z -> queue_status).

(** The counts are far from overflow, whatever the control packets add. *)
Definition counts_ok st (waiting : nat) : Prop :=
  forall q, 0 <= q -> - COUNT_BOUND < nb_pkts (st q) /\ nb_pkts (st q) + 65535 * Z.of_nat waiting < COUNT_BOUND.

(** The outcome of a poll that has read the control packets [K]: packets of one queue, the
    first ones, or nothing, when all control packets that were there at the start have been
    read.  The counts are what they were, and what [K] announces, less what is returned. *)
Definition polled n st (l : list mbuf) (dq : option Z) n' st' : Prop :=
  exists K, traffic n ctrl_qid = K ++ traffic n' ctrl_qid /\
  (forall q, 0 <= q -> prio (st' q) = prio (st q) /\
     nb_pkts (st' q) = nb_pkts (st q) + announced K q - (if decide (dq = Some q) then Z.of_nat (length l) else 0)) /\
  match dq with
  | Some q => l <> [] /\ Z.of_nat (length l) <= burst /\ 0 <= q < count_queue /\ q <> ctrl_qid /\ traffic n q = l ++ traffic n' q /\
      0 < nb_pkts (st q) + announced K q /\ (forall r, 0 <= r < q -> nb_pkts (st r) + announced K r <= 0) /\
      forall r, r <> q -> r <> ctrl_qid -> traffic n' r = traffic n r
  | None => l = [] /\ queue n ctrl_qid `prefix_of` K /\ forall r, r <> ctrl_qid -> traffic n' r = traffic n r
  end.

(** Reading further control packets first changes nothing about the outcome. *)
Lemma polled_after n n1 st st1 K l dq n' st' : traffic n ctrl_qid = K ++ traffic n1 ctrl_qid -> counted st st1 K ->
  queue n ctrl_qid `prefix_of` K ++ queue n1 ctrl_qid ->
  (forall r, r <> ctrl_qid -> traffic n1 r = traffic n r) -> polled n1 st1 l dq n' st' -> polled n st l dq n' st'.
Proof.
  intros Hk Hc Hpre Ho (K1 & Hk1 & Hst & Hd). exists (K ++ K1). split; [by rewrite <-app_assoc, <-Hk1|]. split.
  - intros q Hq. destruct (Hst q Hq) as [-> ->], (Hc q Hq) as [-> ->]. rewrite announced_app. split; [done|lia].
  - destruct dq as [q|].
    + destruct Hd as (? & ? & Hr & Hne & Hq & Hpos & Hfirst & Hoth). do 3 (split; [done|]). split; [done|].
      split; [by rewrite <-(Ho q Hne)|]. split; [|split].
      * destruct (Hc q ltac:(lia)) as [E _]. rewrite announced_app. lia.
      * intros r Hr'. destruct (Hc r ltac:(lia)) as [E _]. specialize (Hfirst r Hr'). rewrite announced_app. lia.
      * intros r Hr1 Hr2. rewrite (Hoth r Hr1 Hr2). by apply Ho.
    + destruct Hd as (? & Hp & Hoth). split; [done|]. split; [etrans; [exact Hpre|by apply prefix_app]|].
      intros r Hr. rewrite (Hoth r Hr). by apply Ho.
Qed.

Lemma ctrl_burst_pos : 0 < ctrl_burst.
Proof. done. Qed.

(** The outcome of a poll: it ends, or it blocks and more than [fuel] reads of the control
    queue are needed. *)
Definition poll_outcome fuel n st (blocking : bool) : Prop :=
  (exists l dq n' st', poll_ctrl_queue_expose_qid rx_burst fuel n st ctrl_qid burst blocking = Done (l, dq, n', st') /\
    polled n st l dq n' st' /\ (blocking = true -> dq <> None)) \/
  (blocking = true /\ poll_ctrl_queue_expose_qid rx_burst fuel n st ctrl_qid burst blocking = NoFuel).

Lemma poll_outcome_after fuel fuel' n n1 st st1 K blocking :
  poll_ctrl_queue_expose_qid rx_burst fuel' n st ctrl_qid burst blocking =
    poll_ctrl_queue_expose_qid rx_burst fuel n1 st1 ctrl_qid burst blocking ->
  traffic n ctrl_qid = K ++ traffic n1 ctrl_qid -> counted st st1 K ->
  queue n ctrl_qid `prefix_of` K ++ queue n1 ctrl_qid ->
  (forall r, r <> ctrl_qid -> traffic n1 r = traffic n r) ->
  poll_outcome fuel n1 st1 blocking -> poll_outcome fuel' n st blocking.
Proof.
  intros E Hk Hc Hp Ho [(l & dq & n' & st' & E1 & Hpd & Hb)|[Hb E1]]; [left|right; by rewrite E].
  exists l, dq, n', st'. rewrite E. split; [done|]. split; [|done]. by eapply polled_after.
Qed.

Lemma counted_nil st : counted st st [].
Proof. intros q _. cbn. lia. Qed.

Lemma poll_ok blocking : forall fuel n st, (blocking = false -> length (traffic n ctrl_qid) < fuel)%nat ->
  Forall in_array (traffic n ctrl_qid) ->
  counts_ok st (length (traffic n ctrl_qid)) -> (forall q, 0 <= q < count_queue -> prio (st q) = 0) ->
  announced (traffic n ctrl_qid) ctrl_qid = 0 -> nb_pkts (st ctrl_qid) <= 0 -> poll_outcome fuel n st blocking.
Proof.
  induction fuel as [|fuel IH]; intros n st Hf Hin Hb Hp Ha Hz.
  { destruct blocking; [by right|]. specialize (Hf eq_refl). lia. }
  destruct (rx_burst n ctrl_qid ctrl_burst) as [K n1] eqn:E1.
  destruct (rx_takes _ _ _ _ _ ctrl_burst_pos E1) as [HK _].
  assert (Ho1 : forall r, r <> ctrl_qid -> traffic n1 r = traffic n r) by (intros r Hr; by eapply rx_others).
  pose proof (rx_arrive _ _ _ _ _ ctrl_qid ctrl_burst_pos E1) as Hpre. rewrite decide_True in Hpre by done.
  destruct K as [|b K].
  { pose proof (rx_some _ _ _ _ _ ctrl_burst_pos E1 eq_refl) as Hemp. destruct blocking.
    - apply (poll_outcome_after fuel (S fuel) n n1 st st []); try done; [|by apply counted_nil|].
      { cbn [poll_ctrl_queue_expose_qid]. by rewrite E1. }
      apply IH; rewrite ?HK in *; done.
    - left. exists [], None, n1, st. cbn [poll_ctrl_queue_expose_qid]. rewrite E1. split; [done|]. split; [|done].
      exists []. split; [done|]. split; [|split; [done|split; [by rewrite Hemp|done]]].
      intros q Hq. split; [done|]. change (announced [] q) with 0. destruct (decide _); [done|lia]. }
  set (K' := b :: K) in *. assert (Hlen : (length (traffic n1 ctrl_qid) < length (traffic n ctrl_qid))%nat).
  { rewrite HK, length_app. unfold K'. cbn. lia. }
  rewrite HK in Hin. apply Forall_app in Hin as [HinK Hin1]. rewrite HK, length_app in Hb. rewrite HK, announced_app in Ha.
  pose proof (announced_range K' ctrl_qid). pose proof (announced_range (traffic n1 ctrl_qid) ctrl_qid).
  destruct (count_announced_ok K' st HinK) as (st1 & Ec & Hc); [intros q Hq; specialize (Hb q Hq); lia|].
  (* the loop goes on from [m], where nothing has left the queues *)
  assert (Hafter : forall m, poll_ctrl_queue_expose_qid rx_burst (S fuel) n st ctrl_qid burst blocking =
      poll_ctrl_queue_expose_qid rx_burst fuel m st1 ctrl_qid burst blocking ->
    (forall r, traffic m r = traffic n1 r) -> queue n1 ctrl_qid `prefix_of` queue m ctrl_qid ->
    poll_outcome (S fuel) n st blocking).
  { intros m E Hm Hq1. apply (poll_outcome_after fuel (S fuel) n m st st1 K'); rewrite ?Hm; try done.
    - etrans; [exact Hpre|by apply prefix_app].
    - intros r Hr. by rewrite Hm, Ho1.
    - apply IH; rewrite ?Hm; [|done| |..].
      + intros Hbl. specialize (Hf Hbl). lia.
      + intros q Hq. destruct (Hc q Hq) as [-> _]. specialize (Hb q Hq). pose proof (announced_range K' q). lia.
      + intros q Hq. rewrite (proj2 (Hc q ltac:(lia))). by apply Hp.
      + lia.
      + destruct (Hc ctrl_qid ctrl_ok) as [-> _]. lia. }
  clear IH. pose proof (_select_queue_ok st1) as Hs. destruct (_select_queue st1) as [q|] eqn:Es.
  2:{ apply (Hafter n1); try done. cbn [poll_ctrl_queue_expose_qid]. rewrite E1. unfold K' in *. rewrite Ec.
      cbn [mbind outcome_bind]. by rewrite Es. }
  destruct Hs as (Hq & Hpos & Hfirst); [intros q' Hq'; rewrite (proj2 (Hc q' ltac:(lia))); by apply Hp|].
  assert (Hqc : q <> ctrl_qid) by (intros ->; destruct (Hc ctrl_qid ctrl_ok) as [E _]; lia).
  destruct (rx_burst n1 q burst) as [l n2] eqn:E2. destruct (rx_takes _ _ _ _ _ (proj1 burst_ok) E2) as [Hl Hlb].
  pose proof (rx_arrive _ _ _ _ _ ctrl_qid (proj1 burst_ok) E2) as Hpre2. rewrite decide_False in Hpre2 by done.
  assert (Ho2 : forall r, r <> q -> traffic n2 r = traffic n1 r) by (intros r Hr; by eapply rx_others).
  assert (Estep : poll_ctrl_queue_expose_qid rx_burst (S fuel) n st ctrl_qid burst blocking =
    match l with
    | [] => poll_ctrl_queue_expose_qid rx_burst fuel n2 st1 ctrl_qid burst blocking
    | _ => Done (l, Some q, n2, <[q := (st1 q) <| nb_pkts := s64 (nb_pkts (st1 q) - Z.of_nat (length l)) |>]> st1)
    end).
  { cbn [poll_ctrl_queue_expose_qid]. rewrite E1. unfold K' in *. rewrite Ec. cbn [mbind outcome_bind]. by rewrite Es, E2. }
  destruct l as [|p l]; [|clear Hafter].
  { apply (Hafter n2 Estep); [|done]. intros r. destruct (decide (r = q)) as [->|Hr]; [by rewrite Hl|by apply Ho2]. }
  set (l' := p :: l) in *. left. exists l', (Some q), n2. eexists. split; [exact Estep|]. split; [|done].
  exists K'. split; [by rewrite Ho2|]. split.
  - intros r Hr. destruct (Hc r Hr) as [E3 E4]. destruct (decide (Some q = Some r)) as [[= ->]|Hne].
    + rewrite fn_lookup_insert. cbn [nb_pkts prio]. split; [done|]. rewrite <-E3. apply s64_small.
      specialize (Hb r Hr). pose proof (announced_range K' r). unfold COUNT_BOUND in *. cbn [nb_pkts]. lia.
    + rewrite fn_lookup_insert_ne by congruence. split; [done|]. lia.
  - split; [done|]. split; [done|]. split; [done|]. split; [done|]. split; [by rewrite <-Ho1|].
    destruct (Hc q ltac:(lia)) as [E3 _]. split; [lia|]. split.
    + intros r Hr. destruct (Hc r ltac:(lia)) as [E4 _]. specialize (Hfirst r Hr). lia.
    + intros r Hr1 Hr2. by rewrite Ho2, Ho1.
Qed.

Lemma blocking_same : forall fuel n st l q n' st',
  poll_ctrl_queue_expose_qid rx_burst fuel n st ctrl_qid burst false = Done (l, Some q, n', st') ->
  poll_ctrl_queue_expose_qid rx_burst fuel n st ctrl_qid burst true = Done (l, Some q, n', st').
Proof.
  induction fuel as [|fuel IH]; intros n st l q n' st'; [done|]. cbn [poll_ctrl_queue_expose_qid].
  destruct (rx_burst n ctrl_qid ctrl_burst) as [[|b K] n1]; [done|]. destruct (count_announced _ st) as [st1| |]; [|done..].
  cbn [mbind outcome_bind]. destruct (_select_queue st1) as [d|]; [|apply IH]. destruct (rx_burst n1 d burst) as [[|? ?] n2]; [apply IH|done].
Qed.

(** C34: A poll of the doorbells ([poll_ctrl_queue_expose_qid]), while packets and doorbells
    keep arriving, as long as every doorbell names one of the eight queues and none the
    control queue.  It reads control packets in order and counts exactly what they
    announce; then it returns the first packets of the first queue for which more has been
    announced than taken, at most a burst and at least one, and counts them as taken; no
    other queue loses a packet.  Packets that are announced for a queue with nothing in it
    yet do not stop it.  A poll that does not block ends after at most as many reads as
    doorbells arrive, and returns nothing only when it has read all that were waiting at
    its start.  A poll that blocks does the same when that one returns packets; else
    it goes on and only ever returns packets, and that it ends is not promised (it does not,
    when no doorbell comes: [announced_packets_stranded]). *)
Theorem poll_ctrl_queue_correct blocking fuel n st : (blocking = false -> length (traffic n ctrl_qid) < fuel)%nat ->
  Forall in_array (traffic n ctrl_qid) -> counts_ok st (length (traffic n ctrl_qid)) ->
  (forall q, 0 <= q < count_queue -> prio (st q) = 0) ->
  announced (traffic n ctrl_qid) ctrl_qid = 0 -> nb_pkts (st ctrl_qid) <= 0 ->
  ((exists l dq n' st', poll_ctrl_queue_expose_qid rx_burst fuel n st ctrl_qid burst blocking = Done (l, dq, n', st') /\
    polled n st l dq n' st' /\ (blocking = true -> dq <> None)) \/
   (blocking = true /\ poll_ctrl_queue_expose_qid rx_burst fuel n st ctrl_qid burst blocking = NoFuel)) /\
  forall l q n' st', poll_ctrl_queue_expose_qid rx_burst fuel n st ctrl_qid burst false = Done (l, Some q, n', st') ->
    poll_ctrl_queue_expose_qid rx_burst fuel n st ctrl_qid burst true = Done (l, Some q, n', st').
Proof. intros Hf H1 H2 H3 H4 H5. split; [by apply poll_ok|apply blocking_same]. Qed.

(** When no doorbell comes, nothing is returned, however many packets have been announced and wait
    in their queue; and a poll that blocks never ends. *)
Theorem announced_packets_stranded n st : traffic n ctrl_qid = [] ->
  (forall fuel, exists n', poll_ctrl_queue_expose_qid rx_burst (S fuel) n st ctrl_qid burst false = Done ([], None, n', st) /\
    forall r, traffic n' r = traffic n r) /\
  forall fuel, poll_ctrl_queue_expose_qid rx_burst fuel n st ctrl_qid burst true = NoFuel.
Proof.
  assert (Hrx : forall m, traffic m ctrl_qid = [] ->
    exists m', rx_burst m ctrl_qid ctrl_burst = ([], m') /\ forall r, traffic m' r = traffic m r).
  { intros m Hm. destruct (rx_burst m ctrl_qid ctrl_burst) as [l m'] eqn:E. exists m'.
    destruct (rx_takes _ _ _ _ _ ctrl_burst_pos E) as [El _]. rewrite Hm in El. symmetry in El. apply app_nil in El as [-> El].
    split; [done|]. intros r. destruct (decide (r = ctrl_qid)) as [->|Hr]; [by rewrite El, Hm|]. by eapply rx_others. }
  intros Hn. split.
  - intros fuel. cbn [poll_ctrl_queue_expose_qid]. destruct (Hrx n Hn) as (n' & -> & Hq). by exists n'.
  - intros fuel. revert n Hn. induction fuel as [|fuel IH]; intros n Hn; [done|]. cbn [poll_ctrl_queue_expose_qid].
    destruct (Hrx n Hn) as (n' & -> & Hq). apply IH. by rewrite Hq.
Qed.
End Poll.

(** ** Virtual ports *)

(** With 32 queues per direction, as the ports are built, the overview has no segment: every poll
    accesses it out of bounds. *)
Theorem vport_poll_out_of_bounds {N} (rx_burst : N -> Z -> Z -> list mbuf * N) unpack fuel n s ctrl_qid burst blocking :
  vport_poll_ctrl_queue rx_burst 32 unpack (S fuel) n s ctrl_qid burst blocking = Aborted.
Proof.
  unfold vport_poll_ctrl_queue. cbn [vport_poll_ctrl_queue_expose_qid]. destruct (rx_burst n ctrl_qid ctrl_burst) as [l n1].
  assert (Hov : forall s i, overview 32 s i = Aborted).
  { intros s0 i. unfold overview, count_overview_seg. change (32 / 64) with 0.
    destruct (Z.leb_spec 0 i), (Z.ltb_spec i 0); cbn; done || lia. }
  assert (Hc : vport_count 32 unpack l s = Aborted \/ exists s', vport_count 32 unpack l s = Done s').
  { revert s. induction l as [|b l IH]; intros s; cbn [vport_count]; [by right; eexists|].
    destruct (vport_announces _ _) as [[d k]|]; [|apply IH]. destruct (d <? 32); cbn [assert_ mbind outcome_bind]; [|by left].
    destruct (0 <? _); cbn [mbind outcome_bind]; [left; by rewrite Hov|apply IH]. }
  destruct Hc as [->|[s' ->]]; [done|]. cbn [mbind outcome_bind vport_select]. by rewrite Hov.
Qed.

(** ** Examples *)

(** Queues that are lists. *)
Definition ex_rx (n : Z -> list mbuf) (q k : Z) : list mbuf * (Z -> list mbuf) :=
  (take (Z.to_nat k) (n q), <[q := drop (Z.to_nat k) (n q)]> n).

#[export] Instance ex_rx_burst : RxBurst ex_rx (fun n q => n q) (fun n q => n q).
Proof.
  split; unfold ex_rx.
  - intros n q k l n' Hk [= <- <-]. rewrite fn_lookup_insert, take_drop. split; [done|]. rewrite length_take. lia.
  - intros n q k l n' Hk [= <- <-] E. destruct (n q) as [|x L]; [done|]. destruct (Z.to_nat k) eqn:Ek; [lia|done].
  - intros n q k l n' r [= <- <-] Hr. by apply fn_lookup_insert_ne.
  - intros n q k l n' r _ [= <- <-]. destruct (decide (r = q)) as [->|Hr].
    + by rewrite fn_lookup_insert, take_drop.
    + by rewrite fn_lookup_insert_ne.
Qed.

(** Queues in which packets arrive: those of the second list are there after the next
    burst, whatever queue it is for. *)
Definition late_rx (n : Z -> list mbuf * list mbuf) (q k : Z) : list mbuf * (Z -> list mbuf * list mbuf) :=
  (take (Z.to_nat k) (n q).1,
   fun r => ((if decide (r = q) then drop (Z.to_nat k) (n q).1 else (n r).1) ++ (n r).2, [])).

#[export] Instance late_rx_burst : RxBurst late_rx (fun n q => (n q).1) (fun n q => (n q).1 ++ (n q).2).
Proof.
  split; unfold late_rx.
  - intros n q k l n' Hk [= <- <-]. rewrite decide_True by done. cbn. rewrite app_nil_r, app_assoc, take_drop.
    split; [done|]. rewrite length_take. lia.
  - intros n q k l n' Hk [= <- <-] E. destruct (n q).1 as [|x L]; [done|]. destruct (Z.to_nat k) eqn:Ek; [lia|done].
  - intros n q k l n' r [= <- <-] Hr. rewrite decide_False by done. cbn. by rewrite app_nil_r.
  - intros n q k l n' r _ [= <- <-]. cbn. destruct (decide (r = q)) as [->|Hr].
    + rewrite app_assoc, take_drop. by apply prefix_app_r.
    + by apply prefix_app_r.
Qed.

Definition ex_mbuf : mbuf := mk_mbuf (fun _ => 0) 128.
Definition ex_idle : Z -> queue_status := fun _ => mk_queue_status 0 0.
(** Three packets on queue 2, and a doorbell for them. *)
Definition ex_bell : mbuf := match doorbell ex_mbuf 2 3 (Some ex_mbuf) with Some b => b | None => ex_mbuf end.
Definition ex_net : Z -> list mbuf := <[2 := [ex_mbuf; ex_mbuf; ex_mbuf]]> (<[0 := [ex_bell]]> (fun _ => [])).

Lemma control_message_roundtrip_witness : announces (m_data ex_bell) = Some (2, 3).
Proof.
  destruct (control_message_roundtrip ex_mbuf ex_mbuf 2 3) as (b & E & _ & _ & Ha & _); [lia|lia|].
  unfold ex_bell. rewrite E. exact Ha.
Defined.

(** The packets the doorbell announces arrive after the poll has begun. *)
Definition ex_late : Z -> list mbuf * list mbuf :=
  <[2 := ([], [ex_mbuf; ex_mbuf; ex_mbuf])]> (<[0 := ([ex_bell], [])]> (fun _ => ([], []))).

Lemma poll_ctrl_queue_correct_witness : exists l dq n' st',
  poll_ctrl_queue_expose_qid late_rx 2 ex_late ex_idle 0 2 false = Done (l, dq, n', st') /\
  length l = 2%nat /\ dq = Some 2 /\ nb_pkts (st' 2) = 1.
Proof.
  destruct (poll_ctrl_queue_correct late_rx (fun n q => (n q).1) (fun n q => (n q).1 ++ (n q).2) 0 2 ltac:(lia) ltac:(lia)
    false 2 ex_late ex_idle) as [[(l & dq & n' & st' & E & _ & _)|[Hb _]] _].
  - intros _. apply Nat.ltb_lt. vm_compute. reflexivity.
  - constructor; [|constructor]. intros d k H. vm_compute in H. injection H as <- <-. reflexivity.
  - intros q _. split; [reflexivity|]. vm_compute. reflexivity.
  - done.
  - vm_compute. reflexivity.
  - done.
  - exists l, dq, n', st'. split; [exact E|]. vm_compute in E. injection E as <- <- <- <-. vm_compute. done.
  - discriminate Hb.
Defined.

(** The third packet is not returned by a second poll. *)
Lemma announced_packets_stranded_witness : exists n1 st1 n2 l,
  poll_ctrl_queue_expose_qid ex_rx 2 ex_net ex_idle 0 2 false = Done (l, Some 2, n1, st1) /\
  n1 2 = [ex_mbuf] /\ poll_ctrl_queue_expose_qid ex_rx 2 n1 st1 0 2 false = Done ([], None, n2, st1).
Proof.
  eexists _, _, _, _. split; [vm_compute; reflexivity|]. split; [vm_compute; reflexivity|].
  vm_compute. reflexivity.
Defined.

End DoorbellSpec.
