(* ===== verification/Sockepoll.v ===== *)
(** * Event polling of sockets ([lib/sockets/epoll.c])

    The emulation of epoll in the library for applications.  An entry connects a socket and an epoll instance; it is on
    the list of its socket, and on the active or the inactive list of its instance. *)
From S2P Require Import Prelude.
From stdpp Require Import gmap.
#[local] Open Scope Z_scope.

Module Sockepoll.

Definition NULL : Z := 0.
(** Constants of Linux. *)
Definition EPOLLIN : Z := 1.
Definition EPOLLOUT : Z := 4.
Definition EPOLLERR : Z := 8.
Definition EPOLLHUP : Z := 16.
Definition EPOLLRDHUP : Z := 8192.
Definition EPOLLET : Z := 2147483648.
Inductive epoll_op : Type := EPOLL_CTL_ADD | EPOLL_CTL_MOD | EPOLL_CTL_DEL | EPOLL_CTL_OTHER.

Record epoll_socket : Type := mk_es {
  es_ep : Z; es_s : Z; ep_next : Z; ep_prev : Z; so_prev : Z; so_next : Z; es_data : Z; mask : Z; active : bool
}.
#[export] Instance eta_es : Eta epoll_socket := fun e =>
  mk_es (es_ep e) (es_s e) (ep_next e) (ep_prev e) (so_prev e) (so_next e) (es_data e) (mask e) (active e).

Record epoll : Type := mk_epoll { inactive : Z; active_first : Z; active_last : Z; num_linux : Z; num_tas : Z; num_active : Z }.
#[export] Instance eta_epoll : Eta epoll := fun e =>
  mk_epoll (inactive e) (active_first e) (active_last e) (num_linux e) (num_tas e) (num_active e).

(** The entries, the instances, [ep_events] and [eps] of the sockets, and the allocated
    entries. *)
Record est : Type := mk_est { ess : Z -> epoll_socket; epolls : Z -> epoll; ep_events : Z -> Z; eps : Z -> Z; es_live : gset Z }.
#[export] Instance eta_est : Eta est := fun t => mk_est (ess t) (epolls t) (ep_events t) (eps t) (es_live t).

Implicit Types (t : est) (es ep s : Z).

(** Assignments to members. *)
Definition set_es t es (v : epoll_socket) : est := t <| ess := <[es := v]> (ess t) |>.
Definition set_ep t ep (v : epoll) : est := t <| epolls := <[ep := v]> (epolls t) |>.
Definition set_ep_next t es (v : Z) : est := set_es t es ((ess t es) <| ep_next := v |>).
Definition set_ep_prev t es (v : Z) : est := set_es t es ((ess t es) <| ep_prev := v |>).
Definition set_so_next t es (v : Z) : est := set_es t es ((ess t es) <| so_next := v |>).
Definition set_so_prev t es (v : Z) : est := set_es t es ((ess t es) <| so_prev := v |>).
Definition set_active t es (v : bool) : est := set_es t es ((ess t es) <| active := v |>).
Definition set_inactive_first t ep (v : Z) : est := set_ep t ep ((epolls t ep) <| inactive := v |>).
Definition set_active_first t ep (v : Z) : est := set_ep t ep ((epolls t ep) <| active_first := v |>).
Definition set_active_last t ep (v : Z) : est := set_ep t ep ((epolls t ep) <| active_last := v |>).
Definition set_num_active t ep (v : Z) : est := set_ep t ep ((epolls t ep) <| num_active := v |>).

(** ** The lists of an instance *)

Definition es_remove_inactive t es : outcome est :=
  let ep := es_ep (ess t es) in
  assert_ (negb (active (ess t es)));;
  let t := if negb (ep_prev (ess t es) =? NULL) then set_ep_next t (ep_prev (ess t es)) (ep_next (ess t es))
           else set_inactive_first t ep (ep_next (ess t es)) in
  let t := if negb (ep_next (ess t es) =? NULL) then set_ep_prev t (ep_next (ess t es)) (ep_prev (ess t es)) else t in
  Done t.

Definition es_add_inactive t es : est :=
  let ep := es_ep (ess t es) in
  let t := set_ep_prev t es NULL in
  let t := if inactive (epolls t ep) =? NULL then set_ep_next t es NULL
           else
             let t := set_ep_next t es (inactive (epolls t ep)) in
             set_ep_prev t (inactive (epolls t ep)) es in
  set_inactive_first t ep es.

Definition es_remove_active t es : outcome est :=
  let ep := es_ep (ess t es) in
  assert_ (active (ess t es));;
  assert_ (0 <? num_active (epolls t ep));;
  let t := if negb (ep_prev (ess t es) =? NULL) then set_ep_next t (ep_prev (ess t es)) (ep_next (ess t es))
           else set_active_first t ep (ep_next (ess t es)) in
  let t := if negb (ep_next (ess t es) =? NULL) then set_ep_prev t (ep_next (ess t es)) (ep_prev (ess t es))
           else set_active_last t ep (ep_prev (ess t es)) in
  Done (set_num_active t ep (u32 (num_active (epolls t ep) - 1))).

Definition es_add_active t es : est :=
  let ep := es_ep (ess t es) in
  let t :=
    if active_last (epolls t ep) =? NULL then
      let t := set_ep_prev t es NULL in
      let t := set_ep_next t es NULL in
      let t := set_active_first t ep es in
      set_active_last t ep es
    else
      let t := set_ep_next t es NULL in
      let t := set_ep_prev t es (active_last (epolls t ep)) in
      let t := set_ep_next t (active_last (epolls t ep)) es in
      set_active_last t ep es in
  set_num_active t ep (u32 (num_active (epolls t ep) + 1)).

Definition es_activate t es : outcome est :=
  if active (ess t es) then Done t
  else t ← es_remove_inactive t es; Done (es_add_active (set_active t es true) es).

Definition es_deactivate t es : outcome est :=
  if negb (active (ess t es)) then Done t
  else t ← es_remove_active t es; Done (es_add_inactive (set_active t es false) es).

Definition es_active_pushback t es : outcome est :=
  assert_ (active (ess t es));;
  t ← es_remove_active t es;
  Done (es_add_active t es).

Definition es_remove_ep t es : outcome est := if active (ess t es) then es_remove_active t es else es_remove_inactive t es.

Definition es_remove_sock t es : est :=
  let s := es_s (ess t es) in
  let t := if so_prev (ess t es) =? NULL then t <| eps := <[s := so_next (ess t es)]> (eps t) |>
           else set_so_next t (so_prev (ess t es)) (so_next (ess t es)) in
  if negb (so_next (ess t es) =? NULL) then set_so_prev t (so_next (ess t es)) (so_prev (ess t es)) else t.

Definition es_free t es : est := t <| es_live := es_live t ∖ {[es]} |>.

(** ** Events of a socket *)

Definition flextcp_epoll_sockinit t s : est := t <| ep_events := <[s := 0]> (ep_events t) |> <| eps := <[s := NULL]> (eps t) |>.

(** The loop of [flextcp_epoll_set]. *)
Fixpoint activate_all (n : nat) t es (newevs : Z) : outcome est :=
  match n with
  | O => NoFuel
  | S n =>
    if es =? NULL then Done t
    else
      t ← (if Z.land newevs (mask (ess t es)) =? 0 then Done t else es_activate t es);
      activate_all n t (so_next (ess t es)) newevs
  end.

Definition flextcp_epoll_set (fuel : nat) t s (evts : Z) : outcome est :=
  let newevs := Z.land (u32 (Z.lnot (ep_events t s))) evts in
  if newevs =? 0 then Done t
  else
    let t := t <| ep_events := <[s := Z.lor (ep_events t s) evts]> (ep_events t) |> in
    activate_all fuel t (eps t s) newevs.

Definition flextcp_epoll_clear t s (evts : Z) : est :=
  t <| ep_events := <[s := Z.ldiff (ep_events t s) evts]> (ep_events t) |>.

(** An entry leaves both lists and is freed. *)
Definition es_drop t es : outcome est :=
  let t := es_remove_sock t es in
  t ← es_remove_ep t es;
  Done (es_free t es).

Fixpoint flextcp_epoll_sockclose (n : nat) t s : outcome est :=
  match n with
  | O => NoFuel
  | S n => if eps t s =? NULL then Done t else t ← es_drop t (eps t s); flextcp_epoll_sockclose n t s
  end.

(** [flextcp_epoll_destroy], without freeing the instance; the number of references is 0. *)
Fixpoint drop_active (n : nat) t ep : outcome est :=
  match n with
  | O => NoFuel
  | S n => if active_first (epolls t ep) =? NULL then Done t else t ← es_drop t (active_first (epolls t ep)); drop_active n t ep
  end.
Fixpoint drop_inactive (n : nat) t ep : outcome est :=
  match n with
  | O => NoFuel
  | S n => if inactive (epolls t ep) =? NULL then Done t else t ← es_drop t (inactive (epolls t ep)); drop_inactive n t ep
  end.
Definition flextcp_epoll_destroy (fuel : nat) t ep : outcome est :=
  t ← drop_active fuel t ep; drop_inactive fuel t ep.

(** ** Calls of the application *)

(** The lists and numbers of a new instance, in [tas_epoll_create1]. *)
Definition epoll_create t ep : est := set_ep t ep (mk_epoll NULL NULL NULL 0 0 (num_active (epolls t ep))).

(** The search for the entry of a socket on an instance. *)
Fixpoint find_es (n : nat) t es ep : outcome Z :=
  match n with
  | O => NoFuel
  | S n => if (es =? NULL) || (es_ep (ess t es) =? ep) then Done es else find_es n t (so_next (ess t es)) ep
  end.

Inductive ctl_result : Type := CTL_OK | CTL_EINVAL | CTL_EEXIST | CTL_ENOMEM | CTL_ENOENT.

Definition event_mask : Z := Z.lor (Z.lor (Z.lor (Z.lor EPOLLIN EPOLLOUT) EPOLLERR) EPOLLHUP) EPOLLRDHUP.

(** The new entry of [EPOLL_CTL_ADD] on both its lists. *)
Definition es_add t es ep s (events data : Z) : est :=
  let t := t <| es_live := {[es]} ∪ es_live t |> in
  let t := set_es t es (mk_es ep s NULL NULL NULL NULL data (Z.lor events EPOLLERR) false) in
  let t := if eps t s =? NULL then t <| eps := <[s := es]> (eps t) |>
           else
             let t := set_so_next t es (eps t s) in
             let t := set_so_prev t (eps t s) es in
             t <| eps := <[s := es]> (eps t) |> in
  es_add_inactive t es.

(** [tas_epoll_ctl] for a socket; [m] is what [calloc] returns. *)
Definition epoll_ctl (fuel : nat) t ep (op : epoll_op) s (events data : Z) (m : option Z) : outcome (ctl_result * est) :=
  es ← find_es fuel t (eps t s) ep;
  let events := match op with EPOLL_CTL_ADD | EPOLL_CTL_MOD => Z.ldiff events EPOLLET | _ => events end in
  let invalid := match op with EPOLL_CTL_ADD | EPOLL_CTL_MOD => negb (Z.ldiff events event_mask =? 0) | _ => false end in
  let set_num_tas t d := set_ep t ep ((epolls t ep) <| num_tas := u32 (num_tas (epolls t ep) + d) |>) in
  if (invalid : bool) then Done (CTL_EINVAL, t)
  else match op with
  | EPOLL_CTL_ADD =>
    let t := set_num_tas t 1 in
    if negb (es =? NULL) then Done (CTL_EEXIST, t)
    else match m with
    | None => Done (CTL_ENOMEM, t)
    | Some es =>
      let t := es_add t es ep s events data in
      t ← (if negb (Z.land (ep_events t s) (mask (ess t es)) =? 0) then es_activate t es else Done t);
      Done (CTL_OK, t)
    end
  | EPOLL_CTL_MOD =>
    if es =? NULL then Done (CTL_ENOENT, t)
    else
      let t := set_es t es ((ess t es) <| mask := Z.lor events EPOLLERR |>) in
      t ← (if negb (Z.land (ep_events t s) (mask (ess t es)) =? 0) then es_activate t es else Done t);
      Done (CTL_OK, t)
  | EPOLL_CTL_DEL =>
    let t := set_num_tas t (-1) in
    if es =? NULL then Done (CTL_ENOENT, t)
    else t ← es_drop t es; Done (CTL_OK, t)
  | EPOLL_CTL_OTHER => Done (CTL_EINVAL, t)
  end.

(** The loop of [ep_poll_tas], with [n] of the active entries left: the events found, each
    with its data. *)
Fixpoint poll_loop (n : nat) t ep (maxevents : Z) : outcome (list (Z * Z) * est) :=
  match n with
  | O => Done ([], t)
  | S n =>
    if 0 <? maxevents then
      let es := active_first (epolls t ep) in
      if es =? NULL then Done ([], t)
      else
        let ev := Z.land (ep_events t (es_s (ess t es))) (mask (ess t es)) in
        if negb (ev =? 0) then
          let r := (ev, es_data (ess t es)) in
          t ← es_active_pushback t es;
          '(l, t) ← poll_loop n t ep (maxevents - 1);
          Done (r :: l, t)
        else t ← es_deactivate t es; poll_loop n t ep maxevents
    else Done ([], t)
  end.

(** [ep_poll_tas] behind its first step, [flextcp_sockctx_poll_n], which polls the context without the lock of the instance: the
    events of that poll are calls of [flextcp_epoll_set] and [flextcp_epoll_clear] before this one. *)
Definition ep_poll_tas t ep (maxevents : Z) : outcome (list (Z * Z) * est) :=
  poll_loop (Z.to_nat (num_active (epolls t ep))) t ep maxevents.

End Sockepoll.
