(* ===== verification/SockepollSpec.v ===== *)
(** * Proofs about the event polling of sockets

    The lists of an epoll instance and of a socket stay well formed, every entry with pending
    events is on the active list of its instance, and a poll reports exactly these, in turn. *)
From S2P Require Import Prelude Chain Sockepoll.
From stdpp Require Import gmap.
#[local] Open Scope Z_scope.

Module SockepollSpec.
Import Sockepoll.

Implicit Types (t : est) (A I S : Z -> list Z) (x y e s : Z) (L : list Z).

(** ** The lists of the instances *)

Abbreviation nx t := (fun y => ep_next (ess t y)).
Abbreviation pv t := (fun y => ep_prev (ess t y)).

(** [A e] and [I e] are the active and the inactive list of the instance [e]. *)
Record ep_lists t A I : Prop := {
  el_active e : dlist NULL (nx t) (pv t) (active_first (epolls t e)) (active_last (epolls t e)) (A e);
  el_inactive e : dlist NULL (nx t) (pv t) (inactive (epolls t e)) (lastd NULL (I e)) (I e);
  el_nodup e : NoDup (A e ++ I e);
  el_apart e e' x : x ∈ A e ++ I e -> x ∈ A e' ++ I e' -> e = e'
}.

(** Everything but the lists of the instances is the same. *)
Record ep_frame t t' : Prop := {
  ef_es y : es_ep (ess t' y) = es_ep (ess t y) /\ es_s (ess t' y) = es_s (ess t y) /\ so_prev (ess t' y) = so_prev (ess t y) /\
    so_next (ess t' y) = so_next (ess t y) /\ es_data (ess t' y) = es_data (ess t y) /\ mask (ess t' y) = mask (ess t y);
  ef_num e : num_linux (epolls t' e) = num_linux (epolls t e) /\ num_tas (epolls t' e) = num_tas (epolls t e);
  ef_events : ep_events t' = ep_events t;
  ef_eps : eps t' = eps t;
  ef_live : es_live t' = es_live t
}.
#[export] Instance ep_frame_preorder : PreOrder ep_frame.
Proof.
  split; [by split|]. intros a b c [H1 H2 H3 H4 H5] [G1 G2 G3 G4 G5]. split; [| |congruence..].
  - intros y. destruct (H1 y) as (?&?&?&?&?&?), (G1 y) as (?&?&?&?&?&?). repeat split; congruence.
  - intros e. destruct (H2 e), (G2 e). split; congruence.
Qed.

(** Members of updated records. *)
Ltac members := unfold set_ep_next, set_ep_prev, set_active, set_inactive_first, set_active_first, set_active_last, set_num_active,
  set_es, set_ep, insert, fn_insert in *; cbn -[u32] in *; repeat (case_decide; simplify_eq; cbn -[u32] in * ); try done.

Lemma ep_frame_links t (g : est -> Z -> Z -> est) a v : (g = set_ep_next \/ g = set_ep_prev \/ g = set_inactive_first \/
  g = set_active_first \/ g = set_active_last \/ g = set_num_active) -> ep_frame t (g t a v).
Proof.
  intros Hg. split; [| |by destruct Hg as [->|[->|[->|[->|[->| ->]]]]]..].
  - intros y. destruct Hg as [->|[->|[->|[->|[->| ->]]]]]; by members.
  - intros y. destruct Hg as [->|[->|[->|[->|[->| ->]]]]]; by members.
Qed.

(** The lists other than the one that changes. *)
Lemma ep_lists_elem t A I x e : ep_lists t A I -> x ∈ A e ++ I e -> forall e', e' <> e -> x ∉ A e' ++ I e'.
Proof. intros Hl Hx e' Hne Hx'. apply Hne. by eapply el_apart. Qed.

(** The links after [x] is taken out between [P] and [Q], and after it is put there. *)
Definition unlinked t t' (P Q : list Z) : Prop :=
  (forall y, nx t' y = if decide (last P = Some y) then hd NULL Q else nx t y) /\
  (forall y, pv t' y = if decide (head Q = Some y) then lastd NULL P else pv t y).
Definition linked t t' (P : list Z) x (Q : list Z) : Prop :=
  (forall y, nx t' y = if decide (y = x) then hd NULL Q else if decide (last P = Some y) then x else nx t y) /\
  (forall y, pv t' y = if decide (y = x) then lastd NULL P else if decide (head Q = Some y) then x else pv t y).

Lemma unlinked_other t t' P Q f l L : unlinked t t' P Q -> (forall y, y ∈ P ++ Q -> y ∉ L) ->
  dlist NULL (nx t) (pv t) f l L -> dlist NULL (nx t') (pv t') f l L.
Proof.
  intros [Hn Hp] Hd. apply dlist_ext. intros y Hy. rewrite Hn, Hp. split.
  - rewrite decide_False; [done|]. intros Hl%last_Some_elem_of. eapply Hd; [|exact Hy]. set_solver.
  - rewrite decide_False; [done|]. intros Hl%head_Some_elem_of. eapply Hd; [|exact Hy]. set_solver.
Qed.

Lemma linked_other t t' P x Q f l L : linked t t' P x Q -> (forall y, y ∈ P ++ x :: Q -> y ∉ L) ->
  dlist NULL (nx t) (pv t) f l L -> dlist NULL (nx t') (pv t') f l L.
Proof.
  intros [Hn Hp] Hd. apply dlist_ext. intros y Hy. rewrite Hn, Hp.
  rewrite !(decide_False (P := y = x)) by (intros ->; eapply Hd; [|exact Hy]; set_solver). split.
  - rewrite decide_False; [done|]. intros Hl%last_Some_elem_of. eapply Hd; [|exact Hy]. set_solver.
  - rewrite decide_False; [done|]. intros Hl%head_Some_elem_of. eapply Hd; [|exact Hy]. set_solver.
Qed.

Lemma unlinked_same t t' P x Q f l f' l' : unlinked t t' P Q -> NoDup (P ++ x :: Q) ->
  dlist NULL (nx t) (pv t) f l (P ++ x :: Q) ->
  f' = (if decide (P = []) then hd NULL Q else f) -> l' = (if decide (Q = []) then lastd NULL P else l) ->
  dlist NULL (nx t') (pv t') f' l' (P ++ Q).
Proof.
  intros [Hn Hp] Hnd Hd Ef El. eapply dlist_remove; [exact Hd| | | |exact Ef|exact El].
  - apply NoDup_app in Hnd as (? & Hd' & [? ?]%NoDup_cons). apply NoDup_app. split; [done|]. split; [|done]. set_solver.
  - intros y _. apply Hn.
  - intros y _. apply Hp.
Qed.

Lemma linked_same t t' P x Q f l f' l' : linked t t' P x Q -> NoDup (P ++ Q) -> x ∉ P ++ Q -> x <> NULL ->
  dlist NULL (nx t) (pv t) f l (P ++ Q) ->
  f' = (if decide (P = []) then x else f) -> l' = (if decide (Q = []) then x else l) ->
  dlist NULL (nx t') (pv t') f' l' (P ++ x :: Q).
Proof.
  intros [Hn Hp] Hnd Hx H0 Hd Ef El. eapply dlist_insert; [exact Hd|done|done|done| | | | |exact Ef|exact El].
  - by rewrite Hn, decide_True.
  - by rewrite Hp, decide_True.
  - intros y Hy. rewrite Hn, decide_False; [done|]. by intros ->.
  - intros y Hy. rewrite Hp, decide_False; [done|]. by intros ->.
Qed.

(** Setting the head or the end of a list in an instance. *)
Definition heads_only (g : est -> Z -> est) : Prop := forall t v, ess (g t v) = ess t /\ ep_frame t (g t v).

Lemma heads_setter f e : f = set_inactive_first \/ f = set_active_first \/ f = set_active_last \/ f = set_num_active ->
  heads_only (fun t v => f t e v).
Proof. intros Hf t v. split; [by destruct Hf as [->|[->|[->| ->]]]|]. apply ep_frame_links. tauto. Qed.

Lemma heads_id : heads_only (fun t _ => t).
Proof. by split. Qed.

(** Both halves of a removal: the link of the predecessor, or the head, and the link of the successor, or the end. *)
Lemma unlink_eff t x P Q f l (g h : est -> Z -> est) : dlist NULL (nx t) (pv t) f l (P ++ x :: Q) -> NoDup (P ++ x :: Q) ->
  heads_only g -> heads_only h ->
  let t1 := if negb (ep_prev (ess t x) =? NULL) then set_ep_next t (ep_prev (ess t x)) (ep_next (ess t x)) else g t (ep_next (ess t x)) in
  let t2 := if negb (ep_next (ess t1 x) =? NULL) then set_ep_prev t1 (ep_next (ess t1 x)) (ep_prev (ess t1 x)) else h t1 (ep_prev (ess t1 x)) in
  ep_frame t t2 /\ unlinked t t2 P Q /\ (forall y, active (ess t2 y) = active (ess t y)) /\
  let t1' := if decide (P = []) then g t (hd NULL Q) else set_ep_next t (lastd NULL P) (hd NULL Q) in
  epolls t2 = epolls (if decide (Q = []) then h t1' (lastd NULL P) else t1').
Proof.
  intros Hd Hnd Hg Hh t1. destruct (dlist_next _ _ _ _ _ _ _ _ Hd) as [En Ep]. cbn in En, Ep.
  assert (Hnull : NULL ∉ P ++ x :: Q) by (destruct Hd as [Hc _]; by eapply seg_notin_null).
  apply NoDup_app in Hnd as (_ & HPQ & [HxQ _]%NoDup_cons).
  assert (H1 : ep_frame t t1 /\ (forall y, ep_next (ess t1 y) = if decide (last P = Some y) then hd NULL Q else ep_next (ess t y)) /\
    (forall y, ep_prev (ess t1 y) = ep_prev (ess t y)) /\ (forall y, active (ess t1 y) = active (ess t y)) /\
    t1 = if decide (P = []) then g t (hd NULL Q) else set_ep_next t (lastd NULL P) (hd NULL Q)).
  { unfold t1. rewrite Ep, En. destruct (lastd_cases NULL P) as [[-> ->]|(P' & p & -> & ->)].
    - cbn [negb Z.eqb NULL]. destruct (Hg t (hd NULL Q)) as [Eg Fg]. rewrite Eg. by split.
    - rewrite (proj2 (Z.eqb_neq p NULL)) by (intros ->; set_solver). cbn [negb].
      split; [apply (ep_frame_links t set_ep_next); tauto|]. rewrite last_snoc. split; [intros y; members|].
      split; [intros y; members|]. split; [intros y; members|]. rewrite decide_False; [done|]. by destruct P'. }
  clearbody t1. destruct H1 as (Hf1 & Hn1 & Hp1 & Ha1 & E1).
  assert (Ex : ep_next (ess t1 x) = hd NULL Q).
  { rewrite Hn1, decide_False; [done|]. intros Hx%last_Some_elem_of. eapply HPQ; [exact Hx|set_solver]. }
  rewrite Ex, Hp1, Ep. cbv zeta. rewrite <-E1. destruct Q as [|q Q]; cbn [hd].
  - cbn [negb Z.eqb NULL]. destruct (Hh t1 (lastd NULL P)) as [Eh Fh]. split; [by etrans|]. split; [split; intros y; rewrite Eh; [apply Hn1|by rewrite Hp1]|].
    split; [intros y; by rewrite Eh|]. done.
  - rewrite (proj2 (Z.eqb_neq q NULL)) by (intros ->; set_solver). cbn [negb].
    split; [etrans; [exact Hf1|apply (ep_frame_links t1 set_ep_prev); tauto]|].
    split; [split; intros y; specialize (Hn1 y); specialize (Hp1 y); members; congruence|].
    split; [intros y; specialize (Ha1 y); members; congruence|]. by rewrite decide_False.
Qed.

Lemma es_remove_inactive_eff t x P Q f l : dlist NULL (nx t) (pv t) f l (P ++ x :: Q) -> NoDup (P ++ x :: Q) ->
  active (ess t x) = false -> exists t', es_remove_inactive t x = Done t' /\ ep_frame t t' /\ unlinked t t' P Q /\
  (forall y, active (ess t' y) = active (ess t y)) /\
  forall e, epolls t' e = if decide (e = es_ep (ess t x)) then
      (epolls t e) <| inactive := if decide (P = []) then hd NULL Q else inactive (epolls t e) |> else epolls t e.
Proof.
  intros Hd Hnd Ha. destruct (unlink_eff t x P Q f l (fun t0 v => set_inactive_first t0 (es_ep (ess t x)) v) (fun t0 _ => t0) Hd Hnd)
    as (Hf & Hu & Hac & Hep); [apply heads_setter; tauto|apply heads_id|].
  unfold es_remove_inactive. rewrite Ha. cbn [negb assert_ mbind outcome_bind]. eexists. split; [reflexivity|].
  split; [exact Hf|]. split; [exact Hu|]. split; [exact Hac|]. intros e. cbv zeta in Hep. rewrite Hep. clear.
  destruct (decide (Q = [])), (decide (P = [])); members; by destruct (epolls t _).
Qed.

Lemma es_remove_active_eff t x P Q f l : dlist NULL (nx t) (pv t) f l (P ++ x :: Q) -> NoDup (P ++ x :: Q) ->
  active (ess t x) = true -> 0 < num_active (epolls t (es_ep (ess t x))) ->
  exists t', es_remove_active t x = Done t' /\ ep_frame t t' /\ unlinked t t' P Q /\
  (forall y, active (ess t' y) = active (ess t y)) /\
  forall e, epolls t' e = if decide (e = es_ep (ess t x)) then
      (epolls t e) <| active_first := if decide (P = []) then hd NULL Q else active_first (epolls t e) |>
                   <| active_last := if decide (Q = []) then lastd NULL P else active_last (epolls t e) |>
                   <| num_active := u32 (num_active (epolls t e) - 1) |>
    else epolls t e.
Proof.
  intros Hd Hnd Ha H0. destruct (unlink_eff t x P Q f l (fun t0 v => set_active_first t0 (es_ep (ess t x)) v)
    (fun t0 v => set_active_last t0 (es_ep (ess t x)) v) Hd Hnd) as (Hf & Hu & Hac & Hep); [apply heads_setter; tauto..|].
  unfold es_remove_active. rewrite Ha, (proj2 (Z.ltb_lt 0 _)) by done. cbn [negb assert_ mbind outcome_bind].
  eexists. split; [reflexivity|]. cbv zeta in *. set (t2 := if negb _ then set_ep_prev _ _ _ else _) in *. clearbody t2.
  split; [etrans; [exact Hf|apply (ep_frame_links t2 set_num_active); tauto]|]. split; [exact Hu|]. split; [exact Hac|].
  intros e. cbn. rewrite Hep. clear. destruct (decide (Q = [])), (decide (P = [])); members; by destruct (epolls t _).
Qed.

Lemma es_add_inactive_eff t x L : let e0 := es_ep (ess t x) in inactive (epolls t e0) = hd NULL L -> x ∉ L -> NULL ∉ L ->
  ep_frame t (es_add_inactive t x) /\ linked t (es_add_inactive t x) [] x L /\
  (forall y, active (ess (es_add_inactive t x) y) = active (ess t y)) /\
  forall e, epolls (es_add_inactive t x) e = if decide (e = e0) then (epolls t e) <| inactive := x |> else epolls t e.
Proof.
  intros e0 Ef Hx H0. unfold es_add_inactive. fold e0. cbv zeta. change (epolls (set_ep_prev t x NULL) e0) with (epolls t e0).
  rewrite Ef. destruct L as [|q L]; cbn [hd].
  - cbn [Z.eqb NULL]. split; [etrans; [|apply (ep_frame_links _ set_inactive_first); tauto];
      etrans; [|apply (ep_frame_links _ set_ep_next); tauto]; apply (ep_frame_links _ set_ep_prev); tauto|].
    split; [split; intros y; members|]. split; [intros y; members|]. intros e. members.
  - rewrite (proj2 (Z.eqb_neq q NULL)) by (intros ->; set_solver).
    change (epolls (set_ep_next (set_ep_prev t x NULL) x q) e0) with (epolls t e0). rewrite Ef. cbn [hd].
    assert (x <> q) by (intros ->; set_solver).
    split; [etrans; [|apply (ep_frame_links _ set_inactive_first); tauto]; etrans; [|apply (ep_frame_links _ set_ep_prev); tauto];
      etrans; [|apply (ep_frame_links _ set_ep_next); tauto]; apply (ep_frame_links _ set_ep_prev); tauto|].
    split; [split; intros y; members|]. split; [intros y; members|]. intros e. members.
Qed.

Lemma es_add_active_eff t x L : let e0 := es_ep (ess t x) in active_last (epolls t e0) = lastd NULL L -> x ∉ L -> NULL ∉ L ->
  ep_frame t (es_add_active t x) /\ linked t (es_add_active t x) L x [] /\
  (forall y, active (ess (es_add_active t x) y) = active (ess t y)) /\
  forall e, epolls (es_add_active t x) e = if decide (e = e0) then
      (epolls t e) <| active_first := if decide (L = []) then x else active_first (epolls t e) |> <| active_last := x |>
                   <| num_active := u32 (num_active (epolls t e) + 1) |>
    else epolls t e.
Proof.
  intros e0 Ef Hx H0. unfold es_add_active. fold e0. cbv zeta. rewrite Ef.
  destruct (lastd_cases NULL L) as [[-> El]|(L' & q & -> & El)]; rewrite El in *.
  - cbn [Z.eqb NULL]. split; [etrans; [|apply (ep_frame_links _ set_num_active); tauto]; etrans; [|apply (ep_frame_links _ set_active_last); tauto];
      etrans; [|apply (ep_frame_links _ set_active_first); tauto]; etrans; [|apply (ep_frame_links _ set_ep_next); tauto];
      apply (ep_frame_links _ set_ep_prev); tauto|].
    split; [split; intros y; members|]. split; [intros y; members|]. intros e. members.
  - rewrite (proj2 (Z.eqb_neq q NULL)) by (intros ->; set_solver).
    change (epolls (set_ep_next t x NULL) e0) with (epolls t e0).
    change (epolls (set_ep_prev _ x _) e0) with (epolls t e0). rewrite Ef. 
    assert (x <> q) by (intros ->; set_solver).
    split; [etrans; [|apply (ep_frame_links _ set_num_active); tauto]; etrans; [|apply (ep_frame_links _ set_active_last); tauto];
      etrans; [|apply (ep_frame_links _ set_ep_next); tauto]; etrans; [|apply (ep_frame_links _ set_ep_prev); tauto];
      apply (ep_frame_links _ set_ep_next); tauto|].
    split; [split; intros y; rewrite ?last_snoc, ?El; members|]. split; [intros y; members|]. intros e. rewrite (decide_False (P := L' ++ [q] = [])) by (by destruct L').
    members; by destruct (epolls t _).
Qed.

(** The four operations on the lists of all instances. *)
Lemma ep_lists_null t A I e : ep_lists t A I -> NULL ∉ A e ++ I e.
Proof.
  intros Hl. destruct (el_active _ _ _ Hl e) as [H1 _], (el_inactive _ _ _ Hl e) as [H2 _].
  apply seg_notin_null in H1, H2. set_solver.
Qed.

(** A change of the instance [e], where only elements of [L] get other links. *)
Lemma ep_lists_change t t' A I A' I' e L : ep_lists t A I ->
  (forall y, y ∈ L -> forall e', e' <> e -> y ∉ A e' ++ I e') ->
  (forall f l K, (forall y, y ∈ L -> y ∉ K) -> dlist NULL (nx t) (pv t) f l K -> dlist NULL (nx t') (pv t') f l K) ->
  (forall e', e' <> e -> A' e' = A e' /\ I' e' = I e' /\ epolls t' e' = epolls t e') ->
  dlist NULL (nx t') (pv t') (active_first (epolls t' e)) (active_last (epolls t' e)) (A' e) ->
  dlist NULL (nx t') (pv t') (inactive (epolls t' e)) (lastd NULL (I' e)) (I' e) ->
  NoDup (A' e ++ I' e) -> (forall y, y ∈ A' e ++ I' e -> y ∈ A e ++ I e \/ y ∈ L) -> ep_lists t' A' I'.
Proof.
  intros Hl Hout Hother Hsame Ha Hi Hnd Hin.
  assert (Hcase : forall e', e' = e \/ (e' <> e /\ A' e' = A e' /\ I' e' = I e' /\ epolls t' e' = epolls t e')).
  { intros e'. destruct (decide (e' = e)); [by left|right; split; [done|by apply Hsame]]. }
  assert (Hdis : forall e', e' <> e -> forall y, y ∈ L -> (y ∉ A e') /\ (y ∉ I e')).
  { intros e' Hne y Hy. specialize (Hout y Hy e' Hne). set_solver. }
  split.
  - intros e'. destruct (Hcase e') as [->|(Hne & -> & _ & ->)]; [done|]. apply Hother; [|apply Hl].
    intros y Hy. by apply (Hdis e' Hne).
  - intros e'. destruct (Hcase e') as [->|(Hne & _ & -> & ->)]; [done|]. apply Hother; [|apply Hl].
    intros y Hy. by apply (Hdis e' Hne).
  - intros e'. destruct (Hcase e') as [->|(_ & -> & -> & _)]; [done|apply Hl].
  - assert (Hone : forall e' x, e' <> e -> x ∈ A' e ++ I' e -> x ∈ A e' ++ I e' -> False).
    { intros e' x Hne H1 H2. apply Hin in H1 as [H1|H1]; [|by eapply Hout]. apply Hne. by eapply el_apart. }
    intros e1 e2 x H1 H2. destruct (Hcase e1) as [->|(N1 & E1 & E1' & _)], (Hcase e2) as [->|(N2 & E2 & E2' & _)]; [done|..].
    + rewrite E2, E2' in H2. exfalso. by eapply (Hone e2 x).
    + rewrite E1, E1' in H1. exfalso. by eapply (Hone e1 x).
    + rewrite E1, E1' in H1. rewrite E2, E2' in H2. by eapply el_apart.
Qed.

Lemma remove_inactive_lists t A I x e P Q : ep_lists t A I -> I e = P ++ x :: Q -> es_ep (ess t x) = e -> active (ess t x) = false ->
  exists t', es_remove_inactive t x = Done t' /\ ep_lists t' A (<[e := P ++ Q]> I) /\ ep_frame t t' /\
  (forall y, active (ess t' y) = active (ess t y)) /\ forall e', num_active (epolls t' e') = num_active (epolls t e').
Proof.
  intros Hl EI Ee Ha. pose proof (el_inactive _ _ _ Hl e) as Hd. rewrite EI in Hd.
  pose proof (el_nodup _ _ _ Hl e) as Hnd. rewrite EI in Hnd. apply NoDup_app in Hnd as (HA & HAI & Hnd).
  destruct (es_remove_inactive_eff t x P Q _ _ Hd Hnd Ha) as (t' & E & Hf & Hu & Hac & Hep). rewrite Ee in Hep.
  exists t'. split; [done|]. split; [|split; [done|split; [done|]]].
  2: { intros e'. rewrite Hep. by destruct (decide (e' = e)). }
  apply (ep_lists_change t t' A I A _ e (P ++ Q) Hl).
  - intros y Hy e' Hne. apply (ep_lists_elem t A I y e Hl); [rewrite EI; set_solver|done].
  - intros f l K HK. by apply (unlinked_other t t' P Q).
  - intros e' Hne. rewrite fn_lookup_insert_ne by done. by rewrite Hep, decide_False.
  - rewrite Hep, decide_True by done. cbn. apply (unlinked_other t t' P Q); [done| |apply Hl]. intros y Hy Hy'. eapply HAI; [exact Hy'|set_solver].
  - rewrite fn_lookup_insert, Hep, decide_True by done. cbn. eapply unlinked_same; [exact Hu|exact Hnd|exact Hd|done|].
    clear. destruct Q as [|q Q]; [by rewrite app_nil_r|]. by rewrite !lastd_app, lastd_cons.
  - rewrite fn_lookup_insert. apply NoDup_app. split; [done|]. split; [set_solver|].
    apply NoDup_app in Hnd as (? & Hd' & [? ?]%NoDup_cons). apply NoDup_app. split; [done|]. split; [set_solver|done].
  - rewrite fn_lookup_insert, EI. set_solver.
Qed.

Lemma remove_active_lists t A I x e P Q : ep_lists t A I -> A e = P ++ x :: Q -> es_ep (ess t x) = e -> active (ess t x) = true ->
  0 < num_active (epolls t e) ->
  exists t', es_remove_active t x = Done t' /\ ep_lists t' (<[e := P ++ Q]> A) I /\ ep_frame t t' /\
  (forall y, active (ess t' y) = active (ess t y)) /\
  forall e', num_active (epolls t' e') = if decide (e' = e) then u32 (num_active (epolls t e) - 1) else num_active (epolls t e').
Proof.
  intros Hl EA Ee Ha H0. pose proof (el_active _ _ _ Hl e) as Hd. rewrite EA in Hd.
  pose proof (el_nodup _ _ _ Hl e) as Hnd'. rewrite EA in Hnd'. pose proof Hnd' as (Hnd & HAI & HI)%NoDup_app.
  rewrite <-Ee in H0. destruct (es_remove_active_eff t x P Q _ _ Hd Hnd Ha H0) as (t' & E & Hf & Hu & Hac & Hep). rewrite Ee in Hep.
  exists t'. split; [done|]. split; [|split; [done|split; [done|]]].
  2: { intros e'. rewrite Hep. by destruct (decide (e' = e)) as [->|]. }
  apply (ep_lists_change t t' A I _ I e (P ++ Q) Hl).
  - intros y Hy e' Hne. apply (ep_lists_elem t A I y e Hl); [rewrite EA; set_solver|done].
  - intros f l K HK. by apply (unlinked_other t t' P Q).
  - intros e' Hne. rewrite fn_lookup_insert_ne by done. by rewrite Hep, decide_False.
  - rewrite fn_lookup_insert, Hep, decide_True by done. cbn. by eapply unlinked_same; [exact Hu|exact Hnd|exact Hd| |].
  - rewrite Hep, decide_True by done. cbn. apply (unlinked_other t t' P Q); [done| |apply Hl]. intros y Hy. apply HAI. set_solver.
  - rewrite fn_lookup_insert. apply NoDup_app in Hnd as (? & Hd' & [? ?]%NoDup_cons). apply NoDup_app.
    split; [apply NoDup_app; split; [done|]; split; [set_solver|done]|]. split; [set_solver|done].
  - rewrite fn_lookup_insert, EA. set_solver.
Qed.

Lemma add_inactive_lists t A I x e : ep_lists t A I -> (forall e', x ∉ A e' ++ I e') -> x <> NULL -> es_ep (ess t x) = e ->
  ep_lists (es_add_inactive t x) A (<[e := x :: I e]> I) /\ ep_frame t (es_add_inactive t x) /\
  (forall y, active (ess (es_add_inactive t x) y) = active (ess t y)) /\
  forall e', num_active (epolls (es_add_inactive t x) e') = num_active (epolls t e').
Proof.
  intros Hl Hx H0 Ee. pose proof (ep_lists_null t A I e Hl) as Hnull. pose proof (el_nodup _ _ _ Hl e) as (HA & HAI & HI)%NoDup_app.
  pose proof (Hx e) as Hxe. destruct (dlist_first _ _ _ _ _ _ (el_inactive _ _ _ Hl e)) as [Ei _].
  destruct (es_add_inactive_eff t x (I e)) as (Hf & Hli & Hac & Hep); rewrite ?Ee; [done|set_solver|set_solver|]. rewrite Ee in Hep.
  set (t' := es_add_inactive t x) in *. clearbody t'. split; [|split; [done|split; [done|]]].
  2: { intros e'. rewrite Hep. by destruct (decide (e' = e)). }
  apply (ep_lists_change t t' A I A _ e (x :: I e) Hl).
  - intros y [->|Hy]%elem_of_cons e' Hne; [apply Hx|]. apply (ep_lists_elem t A I y e Hl); [set_solver|done].
  - intros f l K HK. by apply (linked_other t t' [] x (I e)).
  - intros e' Hne. rewrite fn_lookup_insert_ne by done. by rewrite Hep, decide_False.
  - rewrite Hep, decide_True by done. cbn. apply (linked_other t t' [] x (I e)); [done|set_solver|apply Hl].
  - rewrite fn_lookup_insert, Hep, decide_True by done. cbn. eapply (linked_same t t' [] x (I e)); [exact Hli|done|set_solver|done|apply Hl|done|].
    destruct (I e) as [|q L]; [done|]. by rewrite !lastd_cons.
  - rewrite fn_lookup_insert. apply NoDup_app. split; [done|]. split; [set_solver|]. apply NoDup_cons. split; [set_solver|done].
  - rewrite fn_lookup_insert. set_solver.
Qed.

Lemma add_active_lists t A I x e : ep_lists t A I -> (forall e', x ∉ A e' ++ I e') -> x <> NULL -> es_ep (ess t x) = e ->
  ep_lists (es_add_active t x) (<[e := A e ++ [x]]> A) I /\ ep_frame t (es_add_active t x) /\
  (forall y, active (ess (es_add_active t x) y) = active (ess t y)) /\
  forall e', num_active (epolls (es_add_active t x) e') = if decide (e' = e) then u32 (num_active (epolls t e) + 1) else num_active (epolls t e').
Proof.
  intros Hl Hx H0 Ee. pose proof (ep_lists_null t A I e Hl) as Hnull. pose proof (el_nodup _ _ _ Hl e) as (HA & HAI & HI)%NoDup_app.
  pose proof (Hx e) as Hxe. destruct (dlist_first _ _ _ _ _ _ (el_active _ _ _ Hl e)) as [_ Ei].
  destruct (es_add_active_eff t x (A e)) as (Hf & Hli & Hac & Hep); rewrite ?Ee; [done|set_solver|set_solver|]. rewrite Ee in Hep.
  set (t' := es_add_active t x) in *. clearbody t'. split; [|split; [done|split; [done|]]].
  2: { intros e'. rewrite Hep. by destruct (decide (e' = e)) as [->|]. }
  apply (ep_lists_change t t' A I _ I e (A e ++ [x]) Hl).
  - intros y Hy e' Hne. apply elem_of_app in Hy as [Hy|Hy%list_elem_of_singleton]; [|subst; apply Hx].
    apply (ep_lists_elem t A I y e Hl); [set_solver|done].
  - intros f l K HK. by apply (linked_other t t' (A e) x []).
  - intros e' Hne. rewrite fn_lookup_insert_ne by done. by rewrite Hep, decide_False.
  - rewrite fn_lookup_insert, Hep, decide_True by done. cbn. eapply (linked_same t t' (A e) x []); rewrite ?app_nil_r; [exact Hli|done|set_solver|done|apply Hl|done|done].
  - rewrite Hep, decide_True by done. cbn. apply (linked_other t t' (A e) x []); [done| |apply Hl].
    intros y Hy. apply elem_of_app in Hy as [Hy|Hy%list_elem_of_singleton]; [by apply HAI|subst; set_solver].
  - rewrite fn_lookup_insert, <-app_assoc. cbn. apply NoDup_app. split; [done|]. split; [set_solver|]. apply NoDup_cons. split; [set_solver|done].
  - rewrite fn_lookup_insert. set_solver.
Qed.

(** ** The state of the polling *)

Abbreviation sn t := (fun y => so_next (ess t y)).
Abbreviation sp t := (fun y => so_prev (ess t y)).

(** Every allocated entry is on the lists of its instance and of its socket; the flag of an entry tells on which list of
    its instance it is, and an instance counts its active entries. *)
Record epoll_wf t A I S : Prop := {
  ew_lists : ep_lists t A I;
  ew_socks s : dlist NULL (sn t) (sp t) (eps t s) (lastd NULL (S s)) (S s) /\ NoDup (S s);
  ew_ep x e : x ∈ A e ++ I e <-> x ∈ es_live t /\ es_ep (ess t x) = e;
  ew_sock x s : x ∈ S s <-> x ∈ es_live t /\ es_s (ess t x) = s;
  ew_one x y : x ∈ es_live t -> y ∈ es_live t -> es_ep (ess t x) = es_ep (ess t y) -> es_s (ess t x) = es_s (ess t y) -> x = y;
  ew_active x : x ∈ es_live t -> active (ess t x) = true <-> x ∈ A (es_ep (ess t x));
  ew_num e : num_active (epolls t e) = Z.of_nat (length (A e));
  ew_size : Z.of_nat (size (es_live t)) < 2 ^ 32
}.

(** An event that the application asked for is pending. *)
Definition events t x : Z := Z.land (ep_events t (es_s (ess t x))) (mask (ess t x)).
Definition ready t x : Prop := events t x <> 0.
#[export] Instance ready_dec t x : Decision (ready t x) := _.

Lemma ep_lists_ext t t' A I : (forall y, nx t' y = nx t y /\ pv t' y = pv t y) -> (forall e, epolls t' e = epolls t e) ->
  ep_lists t A I -> ep_lists t' A I.
Proof.
  intros Hl He [H1 H2 H3 H4]. split; [| |done..]; intros e; rewrite He; (eapply dlist_ext; [intros y _; apply Hl|done]).
Qed.

Lemma ep_lists_fn t A A' I : (forall e, A' e = A e) -> ep_lists t A I -> ep_lists t A' I.
Proof. intros HA [H1 H2 H3 H4]. split; [intros e; by rewrite HA|done|intros e; by rewrite HA|]. intros e e' x. rewrite !HA. apply H4. Qed.

(** The lists of the instances change, no entry is added or freed. *)
Lemma epoll_wf_frame t t' A A' I I' S : epoll_wf t A I S -> ep_frame t t' -> ep_lists t' A' I' ->
  (forall e, A' e ++ I' e ≡ₚ A e ++ I e) ->
  (forall x, x ∈ es_live t -> active (ess t' x) = true <-> x ∈ A' (es_ep (ess t x))) ->
  (forall e, num_active (epolls t' e) = Z.of_nat (length (A' e))) -> epoll_wf t' A' I' S.
Proof.
  intros [Hl Hs He Hso Hone Ha Hn Hsz] [F1 F2 F3 F4 F5] Hl' Hp Ha' Hn'.
  assert (Fe : forall y, es_ep (ess t' y) = es_ep (ess t y)) by apply F1.
  assert (Fs : forall y, es_s (ess t' y) = es_s (ess t y)) by apply F1.
  split; try done; rewrite ?F4, ?F5; try done.
  - intros s. split; [|apply Hs]. eapply dlist_ext; [|apply Hs]. intros y _. split; apply F1.
  - intros x e. rewrite Hp, Fe. apply He.
  - intros x s. rewrite Fs. apply Hso.
  - intros x y. rewrite !Fe, !Fs. apply Hone.
  - intros x Hx. rewrite Fe. by apply Ha'.
Qed.

(** The active entries of an instance are allocated. *)
Lemma num_active_bound t A I S e : epoll_wf t A I S -> Z.of_nat (length (A e)) + Z.of_nat (length (I e)) < 2 ^ 32.
Proof.
  intros Hw. enough (length (A e ++ I e) <= size (es_live t))%nat by (pose proof (ew_size _ _ _ _ Hw); rewrite length_app in *; lia).
  pose proof (el_nodup _ _ _ (ew_lists _ _ _ _ Hw) e) as Hnd.
  rewrite <-(size_list_to_set (C := gset Z) (A e ++ I e) Hnd). apply subseteq_size. intros x Hx%elem_of_list_to_set.
  by apply (ew_ep _ _ _ _ Hw x e).
Qed.

Lemma active_frame t x b : ep_frame t (set_active t x b).
Proof. split; [| |done..]; intros y; by members. Qed.

Lemma elem_of_middle x L : x ∈ L -> exists P Q, L = P ++ x :: Q.
Proof. intros (P & Q & ->)%list_elem_of_split. by eauto. Qed.

(** An entry in the middle of a list of its instance is on no list once it is taken out. *)
Lemma out_of_lists t A I x e : ep_lists t A I -> x ∈ A e ++ I e -> forall L M, A e ++ I e ≡ₚ x :: L ++ M ->
  (forall e', x ∉ (<[e := L]> A) e' ++ (<[e := M]> I) e').
Proof.
  intros Hl Hx L M Hp e'. destruct (decide (e' = e)) as [->|Hne].
  - rewrite !fn_lookup_insert. pose proof (el_nodup _ _ _ Hl e) as Hnd. rewrite Hp in Hnd. by apply NoDup_cons in Hnd as [? _].
  - rewrite !fn_lookup_insert_ne by done. by eapply ep_lists_elem.
Qed.

Lemma insert_id {B} (f : Z -> B) e y : (<[e := f e]> f) y = f y.
Proof. unfold insert, fn_insert. by case_decide; subst. Qed.

Lemma es_activate_ok t A I S x : epoll_wf t A I S -> x ∈ es_live t ->
  exists t' A' I', es_activate t x = Done t' /\ epoll_wf t' A' I' S /\ ep_frame t t' /\
    (forall y, active (ess t' y) = true <-> y = x \/ active (ess t y) = true) /\
    forall e, A' e = if decide (e = es_ep (ess t x) /\ active (ess t x) = false) then A e ++ [x] else A e.
Proof.
  intros Hw Hx. unfold es_activate. destruct (active (ess t x)) eqn:Ha.
  { exists t, A, I. split; [done|]. split; [done|]. split; [done|]. split; [intros y; split; [by right|by intros [->|]]|].
    intros e. by rewrite decide_False by (by intros [_ ?]). }
  pose proof (ew_lists _ _ _ _ Hw) as Hl. set (e := es_ep (ess t x)).
  assert (HI : x ∈ I e).
  { assert (x ∈ A e ++ I e) as [H|H]%elem_of_app by (by apply (ew_ep _ _ _ _ Hw)); [|done].
    apply (ew_active _ _ _ _ Hw x Hx) in H. congruence. }
  destruct (elem_of_middle x _ HI) as (P & Q & EI).
  destruct (remove_inactive_lists t A I x e P Q Hl EI eq_refl Ha) as (t1 & -> & Hl1 & Hf1 & Ha1 & Hn1).
  cbn [mbind outcome_bind]. set (t2 := set_active t1 x true).
  assert (Hl2 : ep_lists t2 A (<[e := P ++ Q]> I)) by (eapply ep_lists_ext; [| |exact Hl1]; [intros y; unfold t2; by members|done]).
  assert (Hf2 : ep_frame t t2) by (etrans; [exact Hf1|apply active_frame]).
  assert (Hout : forall e', x ∉ A e' ++ (<[e := P ++ Q]> I) e').
  { intros e'. pose proof (out_of_lists t A I x e Hl (proj2 (elem_of_app _ _ _) (or_intror HI)) (A e) (P ++ Q)) as Ho.
    specialize (Ho ltac:(rewrite EI; solve_Permutation) e'). by rewrite (insert_id A e e') in Ho. }
  assert (x <> NULL). { intros ->. apply (ep_lists_null t A I e Hl). set_solver. }
  destruct (add_active_lists t2 A _ x e Hl2 Hout) as (Hl3 & Hf3 & Ha3 & Hn3); [done|apply Hf2|].
  exists (es_add_active t2 x), (<[e := A e ++ [x]]> A), (<[e := P ++ Q]> I). split; [done|].
  assert (Hact : forall y, active (ess (es_add_active t2 x) y) = true <-> y = x \/ active (ess t y) = true).
  { intros y. rewrite Ha3. unfold t2. specialize (Ha1 y). members; [tauto|rewrite Ha1; naive_solver]. }
  split; [|split; [by etrans|split; [exact Hact|]]].
  2: { intros e'. unfold insert, fn_insert. by repeat case_decide; naive_solver. }
  apply (epoll_wf_frame t _ A _ I _ S Hw); [by etrans|done|..].
  - intros e'. destruct (decide (e' = e)) as [->|]; [|by rewrite !fn_lookup_insert_ne]. rewrite !fn_lookup_insert, EI. solve_Permutation.
  - intros y Hy. rewrite Hact. destruct (decide (es_ep (ess t y) = e)) as [Ey|Ey].
    + rewrite Ey, fn_lookup_insert, (ew_active _ _ _ _ Hw y Hy), Ey. set_solver.
    + rewrite fn_lookup_insert_ne by done. rewrite (ew_active _ _ _ _ Hw y Hy). naive_solver.
  - intros e'. rewrite Hn3. change (epolls t2 e) with (epolls t1 e). change (epolls t2 e') with (epolls t1 e'). rewrite !Hn1, !(ew_num _ _ _ _ Hw).
    destruct (decide (e' = e)) as [->|]; [|by rewrite fn_lookup_insert_ne]. rewrite fn_lookup_insert, length_app. cbn.
    pose proof (num_active_bound _ _ _ _ e Hw) as Hb. rewrite EI, length_app in Hb. cbn in Hb. rewrite u32_small; lia.
Qed.

(** An active entry: where it is, and that the count of its instance is not 0. *)
Lemma active_split t A I S x e P Q : epoll_wf t A I S -> A e = P ++ x :: Q ->
  x ∈ es_live t /\ es_ep (ess t x) = e /\ active (ess t x) = true /\ 0 < num_active (epolls t e) /\ x <> NULL /\
  (forall e', x ∉ (<[e := P ++ Q]> A) e' ++ I e') /\ x ∉ P ++ Q.
Proof.
  intros Hw EA. pose proof (ew_lists _ _ _ _ Hw) as Hl.
  assert (HxA : x ∈ A e ++ I e) by (rewrite EA; set_solver).
  pose proof HxA as [Hx He]%(ew_ep _ _ _ _ Hw). split; [done|]. split; [done|].
  split; [apply (ew_active _ _ _ _ Hw x Hx); rewrite He, EA; set_solver|].
  split; [rewrite (ew_num _ _ _ _ Hw), EA, length_app; cbn; lia|].
  split; [intros ->; apply (ep_lists_null t A I e Hl HxA)|].
  assert (Ho : forall e', x ∉ (<[e := P ++ Q]> A) e' ++ I e').
  { intros e'. pose proof (out_of_lists t A I x e Hl HxA (P ++ Q) (I e) ltac:(rewrite EA; solve_Permutation) e') as Ho.
    by rewrite (insert_id I e e') in Ho. }
  split; [done|]. specialize (Ho e). rewrite fn_lookup_insert in Ho. set_solver.
Qed.

Lemma es_deactivate_ok t A I S x e P Q : epoll_wf t A I S -> A e = P ++ x :: Q ->
  exists t', es_deactivate t x = Done t' /\ epoll_wf t' (<[e := P ++ Q]> A) (<[e := x :: I e]> I) S /\ ep_frame t t' /\
    forall y, active (ess t' y) = true <-> y <> x /\ active (ess t y) = true.
Proof.
  intros Hw EA. destruct (active_split _ _ _ _ _ _ _ _ Hw EA) as (Hx & He & Ha & Hn & H0 & Hout & HPQ).
  unfold es_deactivate. rewrite Ha. cbn [negb].
  destruct (remove_active_lists t A I x e P Q (ew_lists _ _ _ _ Hw) EA He Ha Hn) as (t1 & -> & Hl1 & Hf1 & Ha1 & Hn1).
  cbn [mbind outcome_bind]. set (t2 := set_active t1 x false).
  assert (Hl2 : ep_lists t2 (<[e := P ++ Q]> A) I) by (eapply ep_lists_ext; [| |exact Hl1]; [intros y; unfold t2; by members|done]).
  assert (Hf2 : ep_frame t t2) by (etrans; [exact Hf1|apply active_frame]).
  destruct (add_inactive_lists t2 _ I x e Hl2 Hout H0) as (Hl3 & Hf3 & Ha3 & Hn3); [rewrite <-He; apply Hf2|].
  assert (Hact : forall y, active (ess (es_add_inactive t2 x) y) = true <-> y <> x /\ active (ess t y) = true).
  { intros y. rewrite Ha3. unfold t2. specialize (Ha1 y). members; [naive_solver|rewrite Ha1; naive_solver]. }
  eexists. split; [done|]. split; [|split; [by etrans|exact Hact]].
  apply (epoll_wf_frame t _ A _ I _ S Hw); [by etrans|done|..].
  - intros e'. destruct (decide (e' = e)) as [->|]; [|by rewrite !fn_lookup_insert_ne]. rewrite !fn_lookup_insert, EA. solve_Permutation.
  - intros y Hy. rewrite Hact, (ew_active _ _ _ _ Hw y Hy). destruct (decide (es_ep (ess t y) = e)) as [Ey|Ey].
    + rewrite Ey, fn_lookup_insert, EA. set_solver.
    + rewrite fn_lookup_insert_ne by done. naive_solver.
  - intros e'. rewrite Hn3. change (epolls t2 e') with (epolls t1 e'). rewrite Hn1, !(ew_num _ _ _ _ Hw).
    pose proof (num_active_bound _ _ _ _ e Hw) as Hb. destruct (decide (e' = e)) as [->|]; [|by rewrite fn_lookup_insert_ne].
    rewrite fn_lookup_insert. rewrite EA, !length_app in *. cbn in *. rewrite u32_small; lia.
Qed.

Lemma es_active_pushback_ok t A I S x e P Q : epoll_wf t A I S -> A e = P ++ x :: Q ->
  exists t', es_active_pushback t x = Done t' /\ epoll_wf t' (<[e := P ++ Q ++ [x]]> A) I S /\ ep_frame t t' /\
    forall y, active (ess t' y) = active (ess t y).
Proof.
  intros Hw EA. destruct (active_split _ _ _ _ _ _ _ _ Hw EA) as (Hx & He & Ha & Hn & H0 & Hout & HPQ).
  unfold es_active_pushback. rewrite Ha. cbn [assert_ mbind outcome_bind].
  destruct (remove_active_lists t A I x e P Q (ew_lists _ _ _ _ Hw) EA He Ha Hn) as (t1 & -> & Hl1 & Hf1 & Ha1 & Hn1).
  cbn [mbind outcome_bind].
  destruct (add_active_lists t1 _ I x e Hl1 Hout H0) as (Hl3 & Hf3 & Ha3 & Hn3); [rewrite <-He; apply Hf1|].
  assert (Hact : forall y, active (ess (es_add_active t1 x) y) = active (ess t y)) by (intros y; by rewrite Ha3, Ha1).
  assert (EA' : forall e', (<[e := P ++ Q ++ [x]]> A) e' = (<[e := (<[e := P ++ Q]> A) e ++ [x]]> (<[e := P ++ Q]> A)) e').
  { intros e'. unfold insert, fn_insert. repeat case_decide; try done. by rewrite <-app_assoc. }
  eexists. split; [done|]. split; [|split; [by etrans|exact Hact]].
  apply (epoll_wf_frame t _ A _ I _ S Hw); [by etrans| |..].
  - by eapply ep_lists_fn.
  - intros e'. destruct (decide (e' = e)) as [->|]; [|by rewrite !fn_lookup_insert_ne]. rewrite !fn_lookup_insert, EA. solve_Permutation.
  - intros y Hy. rewrite Hact, (ew_active _ _ _ _ Hw y Hy). destruct (decide (es_ep (ess t y) = e)) as [Ey|Ey].
    + rewrite Ey, fn_lookup_insert, EA. set_solver.
    + by rewrite fn_lookup_insert_ne by done.
  - intros e'. rewrite Hn3, !Hn1, !(ew_num _ _ _ _ Hw).
    pose proof (num_active_bound _ _ _ _ e Hw) as Hb. destruct (decide (e' = e)) as [->|]; [|by rewrite fn_lookup_insert_ne].
    rewrite decide_True by done. rewrite fn_lookup_insert. rewrite EA, !length_app in *. cbn in *. rewrite (u32_small (_ - 1)), u32_small; lia.
Qed.

(** ** Polling an instance *)

Lemma events_frame t t' x : ep_frame t t' -> events t' x = events t x.
Proof. intros Hf. unfold events. by rewrite (ef_events _ _ Hf), (proj1 (proj2 (ef_es _ _ Hf x))), (proj2 (proj2 (proj2 (proj2 (proj2 (ef_es _ _ Hf x)))))). Qed.

Lemma filter_ready_frame t t' L : ep_frame t t' -> filter (ready t') L = filter (ready t) L.
Proof. intros Hf. apply list_filter_iff. intros x. unfold ready. by rewrite (events_frame _ _ _ Hf). Qed.

(** What a poll reports for an entry. *)
Definition report t x : Z * Z := (events t x, es_data (ess t x)).

Lemma report_frame t t' L : ep_frame t t' -> map (report t') L = map (report t) L.
Proof.
  intros Hf. apply map_ext. intros x. unfold report. by rewrite (events_frame _ _ _ Hf), (proj1 (proj2 (proj2 (proj2 (proj2 (ef_es _ _ Hf x)))))).
Qed.

(** With [V] visited, the ready entries of [V] are reported and now at the end of the active list; the others
    have left it. *)
Record polled t t' A I S e (V W R : list Z) A' I' : Prop := {
  pl_wf : epoll_wf t' A' I' S;
  pl_frame : ep_frame t t';
  pl_list : A' e = W ++ R ++ filter (ready t) V;
  pl_others e' : e' <> e -> A' e' = A e';
  pl_active y : active (ess t' y) = true <-> active (ess t y) = true /\ (y ∈ V -> ready t y)
}.

Lemma ep_poll_loop_ok e : forall L R t A I S max, epoll_wf t A I S -> A e = L ++ R -> 0 <= max ->
  exists V W t' A' I', L = V ++ W /\ poll_loop (length L) t e max = Done (map (report t) (filter (ready t) V), t') /\
    polled t t' A I S e V W R A' I' /\
    Z.of_nat (length (filter (ready t) V)) <= max /\ (W = [] \/ Z.of_nat (length (filter (ready t) V)) = max).
Proof.
  induction L as [|x L IH]; intros R t A I S max Hw EA Hmax.
  { exists [], [], t, A, I. split; [done|]. split; [done|]. split; [|split; [done|by left]].
    split; [done|done|by rewrite filter_nil, app_nil_r|done|]. intros y. set_solver. }
  cbn [length poll_loop]. destruct (0 <? max) eqn:Hm; [apply Z.ltb_lt in Hm|apply Z.ltb_ge in Hm].
  2: { exists [], (x :: L), t, A, I. split; [done|]. split; [done|]. split; [|split; [done|right; cbn; lia]].
       split; [done|done|by rewrite filter_nil, app_nil_r|done|]. intros y. set_solver. }
  destruct (active_split t A I S x e [] (L ++ R) Hw) as (Hx & He & Ha & Hn & H0 & Hout & HPQ); [by rewrite EA|].
  destruct (dlist_first _ _ _ _ _ _ (el_active _ _ _ (ew_lists _ _ _ _ Hw) e)) as [Ef _]. rewrite EA in Ef. cbn in Ef.
  rewrite Ef, (proj2 (Z.eqb_neq x NULL)) by done. fold (events t x). destruct (decide (ready t x)) as [Hr|Hr].
  - rewrite (proj2 (Z.eqb_neq (events t x) 0)) by done. cbn [negb].
    destruct (es_active_pushback_ok t A I S x e [] (L ++ R) Hw) as (t1 & -> & Hw1 & Hf1 & Ha1); [by rewrite EA|].
    cbn [mbind outcome_bind app] in *.
    destruct (IH (R ++ [x]) t1 _ _ S (max - 1) Hw1) as (V & W & t' & A' & I' & -> & -> & Hp & Hle & Hor);
      [by rewrite fn_lookup_insert, app_assoc|lia|].
    destruct Hp as [P1 P2 P3 P4 P5]. rewrite (filter_ready_frame _ _ _ Hf1) in *. cbn [mbind outcome_bind].
    exists (x :: V), W, t', A', I'. rewrite filter_cons_True by done. split; [done|]. split; [by rewrite (report_frame _ _ _ Hf1)|].
    split; [|cbn [length]; split; [lia|destruct Hor; [by left|right; lia]]].
    split; [done|by etrans|by rewrite P3, filter_cons_True, <-!app_assoc by done|intros e' Hne; rewrite P4 by done; by rewrite fn_lookup_insert_ne|].
    intros y. rewrite P5, Ha1. unfold ready at 1. rewrite (events_frame _ _ _ Hf1). fold (ready t y). set_solver.
  - replace (events t x =? 0) with true by (symmetry; apply Z.eqb_eq; unfold ready in Hr; lia). cbn [negb].
    destruct (es_deactivate_ok t A I S x e [] (L ++ R) Hw) as (t1 & -> & Hw1 & Hf1 & Ha1); [by rewrite EA|].
    cbn [mbind outcome_bind app] in *.
    destruct (IH R t1 _ _ S max Hw1) as (V & W & t' & A' & I' & -> & -> & Hp & Hle & Hor); [by rewrite fn_lookup_insert|lia|].
    destruct Hp as [P1 P2 P3 P4 P5]. rewrite (filter_ready_frame _ _ _ Hf1) in *.
    exists (x :: V), W, t', A', I'. rewrite filter_cons_False by done. split; [done|]. split; [by rewrite (report_frame _ _ _ Hf1)|].
    split; [|done]. split; [done|by etrans|by rewrite P3, filter_cons_False by done|intros e' Hne; rewrite P4 by done; by rewrite fn_lookup_insert_ne|].
    intros y. rewrite P5, Ha1. unfold ready at 1. rewrite (events_frame _ _ _ Hf1). fold (ready t y). set_solver.
Qed.

(** ** Events of a socket *)

(** Every entry with a pending event is active, and on no instance is an entry twice. *)
Definition epoll_inv t : Prop :=
  exists A I S, epoll_wf t A I S /\ forall x, x ∈ es_live t -> ready t x -> active (ess t x) = true.

Lemma nonzero_bit z : z <> 0 -> 0 <= z -> exists i, 0 <= i /\ Z.testbit z i = true.
Proof.
  intros Hz H0. exists (Z.log2 z). split; [apply Z.log2_nonneg|]. apply Z.bit_log2. lia.
Qed.

Lemma bit_nonzero z i : Z.testbit z i = true -> z <> 0.
Proof. intros Hb ->. by rewrite Z.bits_0 in Hb. Qed.

Lemma new_events_bit ev evts i : 0 <= i < 32 ->
  Z.testbit (Z.land (u32 (Z.lnot ev)) evts) i = negb (Z.testbit ev i) && Z.testbit evts i.
Proof.
  intros Hi. rewrite Z.land_spec. unfold u32. change 4294967296 with (2 ^ 32). rewrite Z.mod_pow2_bits_low by lia.
  by rewrite Z.lnot_spec by lia.
Qed.

Lemma bit_in32 z i : in32 z -> Z.testbit z i = true -> i < 32.
Proof.
  intros Hz Hb. destruct (Z.lt_ge_cases i 32) as [|Hi]; [done|]. assert (Hlt : z < 2 ^ i).
  { apply Z.lt_le_trans with (2 ^ 32); [lia|]. by apply Z.pow_le_mono_r. }
  rewrite <-(Z.mod_small z (2 ^ i)), Z.mod_pow2_bits_high in Hb; [done|lia..].
Qed.

(** An event that a mask asks for is new, or was pending already. *)
Lemma new_event ev evts m : in32 evts -> Z.land (Z.lor ev evts) m <> 0 -> Z.land ev m <> 0 \/ Z.land (Z.land (u32 (Z.lnot ev)) evts) m <> 0.
Proof.
  intros He Hn. destruct (decide (Z.land ev m = 0)) as [E|]; [right|by left].
  rewrite Z.land_lor_distr_l, E, Z.lor_0_l in Hn. assert (0 <= Z.land evts m) by (apply Z.land_nonneg; lia).
  destruct (nonzero_bit _ Hn) as (i & Hi & Hb); [done|]. rewrite Z.land_spec in Hb. apply andb_prop in Hb as [Hb Hbm].
  pose proof (bit_in32 _ _ He Hb).
  assert (Hev : Z.testbit ev i = false).
  { destruct (Z.testbit ev i) eqn:Hev; [|done]. exfalso. apply (bit_nonzero (Z.land ev m) i); [|done]. by rewrite Z.land_spec, Hev, Hbm. }
  apply (bit_nonzero _ i). rewrite Z.land_spec, new_events_bit by lia. by rewrite Hev, Hb, Hbm.
Qed.

Lemma no_new_event ev evts i : in32 evts -> Z.land (u32 (Z.lnot ev)) evts = 0 -> 0 <= i -> Z.testbit evts i = true -> Z.testbit ev i = true.
Proof.
  intros He H0 Hi Hb. pose proof (bit_in32 _ _ He Hb).
  destruct (Z.testbit ev i) eqn:Hev; [done|]. exfalso. apply (bit_nonzero (Z.land (u32 (Z.lnot ev)) evts) i); [|exact H0].
  rewrite new_events_bit by lia. by rewrite Hev, Hb.
Qed.

Lemma chain_step t t' x L : ep_frame t t' -> chain NULL (sn t) x L -> chain NULL (sn t') x L.
Proof. intros Hf. apply seg_ext. intros y _. apply (ef_es _ _ Hf). Qed.

Lemma activate_all_ok newevs : forall L n t A I S x, epoll_wf t A I S -> chain NULL (sn t) x L -> (forall y, y ∈ L -> y ∈ es_live t) ->
  (length L < n)%nat -> exists t' A' I', activate_all n t x newevs = Done t' /\ epoll_wf t' A' I' S /\ ep_frame t t' /\
    (forall e, A e `prefix_of` A' e) /\
    forall y, active (ess t' y) = true <-> active (ess t y) = true \/ (y ∈ L /\ Z.land newevs (mask (ess t y)) <> 0).
Proof.
  induction L as [|q L IH]; intros n t A I S x Hw Hc Hlive Hn; (destruct n as [|n]; [cbn in Hn; lia|]); cbn [activate_all].
  { cbn in Hc. subst x. exists t, A, I. split; [done|]. split; [done|]. split; [done|]. split; [done|]. intros y. set_solver. }
  apply chain_cons in Hc as (<- & H0 & Hc). rewrite (proj2 (Z.eqb_neq x NULL)) by done.
  assert (Hstep : exists t1 A1 I1, (if Z.land newevs (mask (ess t x)) =? 0 then Done t else es_activate t x) = Done t1 /\
    epoll_wf t1 A1 I1 S /\ ep_frame t t1 /\ (forall e, A e `prefix_of` A1 e) /\
    forall y, active (ess t1 y) = true <-> active (ess t y) = true \/ (y = x /\ Z.land newevs (mask (ess t y)) <> 0)).
  { destruct (Z.land newevs (mask (ess t x)) =? 0) eqn:Hm; [apply Z.eqb_eq in Hm|apply Z.eqb_neq in Hm].
    - exists t, A, I. split; [done|]. split; [done|]. split; [done|]. split; [done|]. intros y. split; [by left|].
      intros [?|[-> ?]]; [done|by destruct Hm].
    - destruct (es_activate_ok t A I S x Hw) as (t1 & A1 & I1 & -> & Hw1 & Hf1 & Ha1 & HA1); [apply Hlive; set_solver|].
      exists t1, A1, I1. split; [done|]. split; [done|]. split; [done|]. split; [intros e; rewrite HA1; destruct (decide _); [by exists [x]|done]|].
      intros y. rewrite Ha1. naive_solver. }
  destruct Hstep as (t1 & A1 & I1 & -> & Hw1 & Hf1 & HA1 & Ha1). cbn [mbind outcome_bind].
  destruct (IH n t1 A1 I1 S (so_next (ess t1 x)) Hw1) as (t' & A' & I' & E & Hw' & Hf' & HA' & Ha').
  - rewrite (proj1 (proj2 (proj2 (proj2 (ef_es _ _ Hf1 x))))). by eapply chain_step.
  - intros y Hy. rewrite (ef_live _ _ Hf1). apply Hlive. set_solver.
  - cbn in Hn. lia.
  - exists t', A', I'. split; [done|]. split; [done|]. split; [by etrans|]. split; [intros e; etrans; [apply HA1|apply HA']|]. intros y. rewrite Ha', Ha1.
    replace (mask (ess t1 y)) with (mask (ess t y)) by (symmetry; apply (ef_es _ _ Hf1 y)). set_solver.
Qed.

(** ** Entries that come and go *)

(** Everything but the lists of the sockets is the same. *)
Record so_frame t t' : Prop := {
  sf_es y : es_ep (ess t' y) = es_ep (ess t y) /\ es_s (ess t' y) = es_s (ess t y) /\ ep_prev (ess t' y) = ep_prev (ess t y) /\
    ep_next (ess t' y) = ep_next (ess t y) /\ es_data (ess t' y) = es_data (ess t y) /\ mask (ess t' y) = mask (ess t y) /\
    active (ess t' y) = active (ess t y);
  sf_epolls : epolls t' = epolls t;
  sf_events : ep_events t' = ep_events t;
  sf_live : es_live t' = es_live t
}.

Ltac so_members := unfold set_so_next, set_so_prev, set_es, insert, fn_insert in *; cbn -[u32] in *;
  repeat (case_decide; simplify_eq; cbn -[u32] in * ); try done.

Lemma es_remove_sock_eff t x P Q l : let s := es_s (ess t x) in
  dlist NULL (sn t) (sp t) (eps t s) l (P ++ x :: Q) -> NoDup (P ++ x :: Q) ->
  so_frame t (es_remove_sock t x) /\
  (forall y, sn (es_remove_sock t x) y = if decide (last P = Some y) then hd NULL Q else sn t y) /\
  (forall y, sp (es_remove_sock t x) y = if decide (head Q = Some y) then lastd NULL P else sp t y) /\
  forall s', eps (es_remove_sock t x) s' = if decide (s' = s) then (if decide (P = []) then hd NULL Q else eps t s) else eps t s'.
Proof.
  intros s Hd Hnd. destruct (dlist_next _ _ _ _ _ _ _ _ Hd) as [En Ep]. cbn in En, Ep.
  assert (Hnull : NULL ∉ P ++ x :: Q) by (destruct Hd as [Hc _]; by eapply seg_notin_null).
  apply NoDup_app in Hnd as (_ & HPQ & [HxQ _]%NoDup_cons). unfold es_remove_sock. fold s. cbv zeta. rewrite Ep, En.
  set (t1 := if lastd NULL P =? NULL then t <| eps := <[s := hd NULL Q]> (eps t) |> else set_so_next t (lastd NULL P) (hd NULL Q)).
  assert (H1 : so_frame t t1 /\ (forall y, sn t1 y = if decide (last P = Some y) then hd NULL Q else sn t y) /\
    (forall y, sp t1 y = sp t y) /\
    forall s', eps t1 s' = if decide (s' = s) then (if decide (P = []) then hd NULL Q else eps t s) else eps t s').
  { unfold t1. destruct (lastd_cases NULL P) as [[-> ->]|(P' & p & -> & ->)].
    - cbn [Z.eqb NULL]. split; [by split|]. split; [done|]. split; [done|]. intros s'. by so_members.
    - rewrite (proj2 (Z.eqb_neq p NULL)) by (intros ->; set_solver). split; [split; try done; intros y; by so_members|].
      rewrite last_snoc. split; [intros y; by so_members|]. split; [intros y; by so_members|]. intros s'.
      rewrite (decide_False (P := P' ++ [p] = [])) by (by destruct P'). case_decide; by subst. }
  clearbody t1. destruct H1 as (Hf & Hn1 & Hp1 & He1).
  assert (En1 : so_next (ess t1 x) = hd NULL Q).
  { rewrite Hn1, decide_False; [done|]. intros Hx%last_Some_elem_of. eapply HPQ; [exact Hx|set_solver]. }
  rewrite En1, Hp1, Ep. destruct Q as [|q Q]; cbn [hd].
  - cbn [negb Z.eqb NULL]. split; [done|]. split; [done|]. split; [intros y; by rewrite Hp1|done].
  - rewrite (proj2 (Z.eqb_neq q NULL)) by (intros ->; set_solver). cbn [negb].
    split; [destruct Hf as [F1 F2 F3 F4]; split; try done; intros y; specialize (F1 y); by so_members|].
    split; [intros y; specialize (Hn1 y); so_members; congruence|].
    split; [intros y; specialize (Hp1 y); so_members; congruence|done].
Qed.

(** An entry leaves the list of its instance it is on. *)
Lemma es_remove_ep_ok t A I x : let e := es_ep (ess t x) in ep_lists t A I -> x ∈ A e ++ I e ->
  (active (ess t x) = true <-> x ∈ A e) -> num_active (epolls t e) = Z.of_nat (length (A e)) -> Z.of_nat (length (A e)) < 2 ^ 32 ->
  exists t' A' I', es_remove_ep t x = Done t' /\ ep_lists t' A' I' /\ ep_frame t t' /\
    (forall y, active (ess t' y) = active (ess t y)) /\
    (forall y e', (y ∈ A' e' <-> y ∈ A e' /\ y <> x) /\ (y ∈ I' e' <-> y ∈ I e' /\ y <> x)) /\
    (forall e', num_active (epolls t' e') = if decide (e' = e) then Z.of_nat (length (A' e)) else num_active (epolls t e')) /\
    (forall e', e' <> e -> A' e' = A e').
Proof.
  intros e Hl Hx Ha Hn Hb. unfold es_remove_ep. pose proof (el_nodup _ _ _ Hl e) as Hnd.
  assert (Hoth : forall y e', e' <> e -> y ∈ A e' ++ I e' -> y <> x).
  { intros y e' Hne Hy ->. by eapply (ep_lists_elem t A I x e Hl Hx e'). }
  destruct (active (ess t x)) eqn:Hac.
  - destruct (elem_of_middle x (A e) (proj1 Ha eq_refl)) as (P & Q & EA). rewrite EA in Hnd.
    assert (Hnx : x ∉ P ++ Q ++ I e).
    { rewrite <-!app_assoc in Hnd. cbn in Hnd. rewrite <-Permutation_middle in Hnd. by apply NoDup_cons in Hnd as [? _]. }
    destruct (remove_active_lists t A I x e P Q Hl EA eq_refl Hac) as (t' & E & Hl' & Hf' & Ha' & Hn').
    { rewrite Hn, EA, length_app. cbn. lia. }
    exists t', (<[e := P ++ Q]> A), I. split; [done|]. split; [done|]. split; [done|]. split; [done|]. split; [|split].
    + intros y e'. destruct (decide (e' = e)) as [->|Hne]; [rewrite fn_lookup_insert, EA; set_solver|].
      rewrite fn_lookup_insert_ne by done. specialize (Hoth y e' Hne). set_solver.
    + intros e'. rewrite Hn'. case_decide; [|done]. rewrite fn_lookup_insert, Hn, EA, !length_app in *. cbn in *. rewrite u32_small; lia.
    + intros e' Hne. by rewrite fn_lookup_insert_ne.
  - assert (HI : x ∈ I e) by (apply elem_of_app in Hx as [Hx|Hx]; [by apply Ha in Hx|done]).
    destruct (elem_of_middle x (I e) HI) as (P & Q & EI). rewrite EI in Hnd.
    assert (Hnx : x ∉ A e ++ P ++ Q).
    { rewrite app_assoc, <-Permutation_middle, <-app_assoc in Hnd. by apply NoDup_cons in Hnd as [? _]. }
    destruct (remove_inactive_lists t A I x e P Q Hl EI eq_refl Hac) as (t' & E & Hl' & Hf' & Ha' & Hn').
    exists t', A, (<[e := P ++ Q]> I). split; [done|]. split; [done|]. split; [done|]. split; [done|]. split; [|split; [|done]].
    + intros y e'. destruct (decide (e' = e)) as [->|Hne]; [rewrite fn_lookup_insert, EI; set_solver|].
      rewrite fn_lookup_insert_ne by done. specialize (Hoth y e' Hne). set_solver.
    + intros e'. rewrite Hn'. case_decide; by subst.
Qed.

(** The entries that stay keep their members. *)
Record es_kept t t' : Prop := {
  ek_es y : y ∈ es_live t' -> es_ep (ess t' y) = es_ep (ess t y) /\ es_s (ess t' y) = es_s (ess t y) /\
    es_data (ess t' y) = es_data (ess t y) /\ mask (ess t' y) = mask (ess t y) /\ active (ess t' y) = active (ess t y);
  ek_events : ep_events t' = ep_events t
}.
#[export] Instance es_kept_refl : Reflexive es_kept.
Proof. by split. Qed.

Lemma es_kept_trans t1 t2 t3 : es_live t3 ⊆ es_live t2 -> es_kept t1 t2 -> es_kept t2 t3 -> es_kept t1 t3.
Proof.
  intros Hs [H1 H2] [G1 G2]. split; [|congruence]. intros y Hy. specialize (G1 y Hy). specialize (H1 y (Hs y Hy)). naive_solver congruence.
Qed.

Lemma sock_lists_drop t t1 S x P Q : (forall s, dlist NULL (sn t) (sp t) (eps t s) (lastd NULL (S s)) (S s) /\ NoDup (S s)) ->
  let s := es_s (ess t x) in S s = P ++ x :: Q -> (forall s', s' <> s -> forall y, y ∈ P ++ Q -> y ∉ S s') ->
  (forall y, sn t1 y = if decide (last P = Some y) then hd NULL Q else sn t y) ->
  (forall y, sp t1 y = if decide (head Q = Some y) then lastd NULL P else sp t y) ->
  (forall s', eps t1 s' = if decide (s' = s) then (if decide (P = []) then hd NULL Q else eps t s) else eps t s') ->
  forall s', dlist NULL (sn t1) (sp t1) (eps t1 s') (lastd NULL ((<[s := P ++ Q]> S) s')) ((<[s := P ++ Q]> S) s') /\ NoDup ((<[s := P ++ Q]> S) s').
Proof.
  intros HS s ES Hdis Hn1 Hp1 He1 s'. destruct (HS s) as [Hd Hnd]. rewrite ES in Hd, Hnd. destruct (decide (s' = s)) as [->|Hne].
  - assert (Hnd' : NoDup (P ++ Q)) by (rewrite <-Permutation_middle in Hnd; by apply NoDup_cons in Hnd as [_ ?]).
    rewrite fn_lookup_insert. split; [|done]. rewrite He1, decide_True by done.
    eapply dlist_remove; [exact Hd|done|intros y _; apply Hn1|intros y _; apply Hp1|done|].
    clear. destruct Q as [|q Q]; [by rewrite app_nil_r|]. by rewrite !lastd_app, lastd_cons.
  - rewrite fn_lookup_insert_ne by done. destruct (HS s') as [Hd' Hnd'']. split; [|done]. rewrite He1, decide_False by done.
    eapply dlist_ext; [|exact Hd']. intros y Hy. cbn. rewrite Hn1, Hp1. split; (rewrite decide_False; [done|]).
    + intros Hl%last_Some_elem_of. eapply (Hdis s' Hne y); [set_solver|done].
    + intros Hl%head_Some_elem_of. eapply (Hdis s' Hne y); [set_solver|done].
Qed.

Lemma es_drop_ok t A I S x : epoll_wf t A I S -> x ∈ es_live t ->
  exists t' A' I' S', es_drop t x = Done t' /\ epoll_wf t' A' I' S' /\ es_live t' = es_live t ∖ {[x]} /\ es_kept t t'.
Proof.
  intros Hw Hx. set (s := es_s (ess t x)). assert (HxS : x ∈ S s) by (by apply (ew_sock _ _ _ _ Hw)).
  destruct (elem_of_middle x _ HxS) as (P & Q & ES). destruct (ew_socks _ _ _ _ Hw s) as [Hd Hnd]. pose proof Hd as Hd'. rewrite ES in Hd', Hnd.
  destruct (es_remove_sock_eff t x P Q _ Hd' Hnd) as (Hf1 & Hn1 & Hp1 & He1). fold s in He1.
  unfold es_drop. set (t1 := es_remove_sock t x) in *. clearbody t1. cbv zeta.
  assert (Hl1 : ep_lists t1 A I).
  { eapply ep_lists_ext; [| |exact (ew_lists _ _ _ _ Hw)]; [intros y; cbn; split; apply Hf1|intros e; by rewrite (sf_epolls _ _ Hf1)]. }
  destruct (es_remove_ep_ok t1 A I x) as (t2 & A' & I' & -> & Hl2 & Hf2 & Ha2 & Hin & Hn2 & Hoth).
  { done. } { apply (ew_ep _ _ _ _ Hw). split; [done|]. symmetry. apply Hf1. }
  { replace (active (ess t1 x)) with (active (ess t x)) by (symmetry; apply Hf1). replace (es_ep (ess t1 x)) with (es_ep (ess t x)) by (symmetry; apply Hf1).
    by apply (ew_active _ _ _ _ Hw). }
  { rewrite (sf_epolls _ _ Hf1). exact (ew_num _ _ _ _ Hw _). } { pose proof (num_active_bound _ _ _ _ (es_ep (ess t1 x)) Hw). lia. }
  cbn [mbind outcome_bind].
  assert (Hkeep : forall y, es_ep (ess t2 y) = es_ep (ess t y) /\ es_s (ess t2 y) = es_s (ess t y) /\ es_data (ess t2 y) = es_data (ess t y) /\
    mask (ess t2 y) = mask (ess t y) /\ active (ess t2 y) = active (ess t y)).
  { intros y. pose proof (sf_es _ _ Hf1 y). pose proof (ef_es _ _ Hf2 y). specialize (Ha2 y). naive_solver congruence. }
  assert (Hlive : es_live t2 = es_live t) by (rewrite (ef_live _ _ Hf2); apply Hf1).
  exists (es_free t2 x), A', I', (<[s := P ++ Q]> S). split; [done|]. split; [|split; [cbn; by rewrite Hlive|]].
  2: { split; [intros y _; apply Hkeep|]. cbn. rewrite (ef_events _ _ Hf2). apply Hf1. }
  assert (HnPQ : x ∉ P ++ Q) by (rewrite <-Permutation_middle in Hnd; by apply NoDup_cons in Hnd as [? _]).
  split; cbn; rewrite ?Hlive.
  - apply (ep_lists_ext t2); [done|done|exact Hl2].
  - apply (sock_lists_drop t _ S x P Q); [apply Hw|done| | | |].
    + intros s' Hne y Hy Hy'. apply Hne. apply (ew_sock _ _ _ _ Hw) in Hy' as [_ <-]. apply (ew_sock _ _ _ _ Hw y s). fold s. rewrite ES. set_solver.
    + intros y. rewrite <-Hn1. apply (ef_es _ _ Hf2).
    + intros y. rewrite <-Hp1. apply (ef_es _ _ Hf2).
    + intros s'. rewrite <-He1. cbn. by rewrite (ef_eps _ _ Hf2).
  - intros y e. replace (es_ep (ess t2 y)) with (es_ep (ess t y)) by (symmetry; apply Hkeep).
    pose proof (ew_ep _ _ _ _ Hw y e) as Hew. destruct (Hin y e) as [H1 H2]. rewrite elem_of_app in *. set_solver.
  - intros y s'. replace (es_s (ess t2 y)) with (es_s (ess t y)) by (symmetry; apply Hkeep).
    pose proof (ew_sock _ _ _ _ Hw y s') as Hews. destruct (decide (s' = s)) as [->|Hne].
    + rewrite fn_lookup_insert. rewrite ES in Hews. set_solver.
    + rewrite fn_lookup_insert_ne by done. rewrite Hews. set_solver.
  - intros y z Hy Hz. replace (es_ep (ess t2 y)) with (es_ep (ess t y)) by (symmetry; apply Hkeep).
    replace (es_s (ess t2 y)) with (es_s (ess t y)) by (symmetry; apply Hkeep).
    replace (es_ep (ess t2 z)) with (es_ep (ess t z)) by (symmetry; apply Hkeep).
    replace (es_s (ess t2 z)) with (es_s (ess t z)) by (symmetry; apply Hkeep). apply Hw; set_solver.
  - intros y Hy. replace (es_ep (ess t2 y)) with (es_ep (ess t y)) by (symmetry; apply Hkeep).
    replace (active (ess t2 y)) with (active (ess t y)) by (symmetry; apply Hkeep).
    rewrite (proj1 (Hin y _)). rewrite (ew_active _ _ _ _ Hw) by set_solver. set_solver.
  - intros e. rewrite Hn2. destruct (decide (e = es_ep (ess t1 x))) as [->|He]; [done|]. rewrite (sf_epolls _ _ Hf1), (Hoth e He). exact (ew_num _ _ _ _ Hw _).
  - pose proof (ew_size _ _ _ _ Hw). pose proof (subseteq_size (es_live t ∖ {[x]}) (es_live t) ltac:(set_solver)). lia.
Qed.

End SockepollSpec.
