(* ===== verification/SockepollProps.v ===== *)
(** * Properties of the event polling of sockets

    The calls of the application and the events that the library reports for a socket, in any order: no call fails, and
    no event is lost. *)
From S2P Require Import Prelude Chain Sockepoll SockepollSpec.
From stdpp Require Import gmap.
#[local] Open Scope Z_scope.

Module SockepollProps.
Import Sockepoll SockepollSpec.

Implicit Types (t : est) (A I S : Z -> list Z) (x y e s : Z) (L : list Z).

(** ** A new entry *)

(** The state before the new entry joins its instance. *)
Definition es_new t x ep s (evs data : Z) : est :=
  let t := t <| es_live := {[x]} ∪ es_live t |> in
  let t := set_es t x (mk_es ep s NULL NULL NULL NULL data (Z.lor evs EPOLLERR) false) in
  if eps t s =? NULL then t <| eps := <[s := x]> (eps t) |>
  else
    let t := set_so_next t x (eps t s) in
    let t := set_so_prev t (eps t s) x in
    t <| eps := <[s := x]> (eps t) |>.

Lemma es_new_eff t x ep s evs data L : x <> NULL -> x ∉ L -> NULL ∉ L -> eps t s = hd NULL L -> let t' := es_new t x ep s evs data in
  (forall y, y <> x -> es_ep (ess t' y) = es_ep (ess t y) /\ es_s (ess t' y) = es_s (ess t y) /\ ep_prev (ess t' y) = ep_prev (ess t y) /\
    ep_next (ess t' y) = ep_next (ess t y) /\ es_data (ess t' y) = es_data (ess t y) /\ mask (ess t' y) = mask (ess t y) /\
    active (ess t' y) = active (ess t y)) /\
  (es_ep (ess t' x) = ep /\ es_s (ess t' x) = s /\ es_data (ess t' x) = data /\ mask (ess t' x) = Z.lor evs EPOLLERR /\ active (ess t' x) = false) /\
  (forall y, so_next (ess t' y) = if decide (y = x) then hd NULL L else so_next (ess t y)) /\
  (forall y, so_prev (ess t' y) = if decide (y = x) then NULL else if decide (head L = Some y) then x else so_prev (ess t y)) /\
  (forall s', eps t' s' = if decide (s' = s) then x else eps t s') /\
  epolls t' = epolls t /\ ep_events t' = ep_events t /\ es_live t' = {[x]} ∪ es_live t.
Proof.
  intros H0 Hx Hnull Ef t'. unfold t', es_new. clear t'. cbv zeta. change (eps (set_es _ x _) s) with (eps t s). rewrite Ef.
  destruct L as [|q L]; cbn [hd].
  - cbn [Z.eqb NULL]. split; [intros y Hne; by so_members|]. split; [by so_members|]. split; [intros y; by so_members|].
    split; [intros y; by so_members|]. split; [intros s'; by so_members|]. done.
  - rewrite (proj2 (Z.eqb_neq q NULL)) by (intros ->; set_solver). cbn [eps set_so_next set_so_prev set_es].
    change (eps (set_so_next _ x _) s) with (eps t s). rewrite ?Ef. cbn [hd]. assert (q <> x) by (intros ->; set_solver).
    split; [intros y Hne; by so_members|]. split; [by so_members|]. split; [intros y; by so_members|].
    split; [intros y; by so_members|]. split; [intros s'; by so_members|]. done.
Qed.

Lemma sock_lists_add t t' S s x : (forall s', dlist NULL (sn t) (sp t) (eps t s') (lastd NULL (S s')) (S s') /\ NoDup (S s')) ->
  (forall s', x ∉ S s') -> x <> NULL -> (forall s' y, s' <> s -> y ∈ S s -> y ∉ S s') ->
  (forall y, sn t' y = if decide (y = x) then hd NULL (S s) else sn t y) ->
  (forall y, sp t' y = if decide (y = x) then NULL else if decide (head (S s) = Some y) then x else sp t y) ->
  (forall s', eps t' s' = if decide (s' = s) then x else eps t s') ->
  forall s', dlist NULL (sn t') (sp t') (eps t' s') (lastd NULL ((<[s := x :: S s]> S) s')) ((<[s := x :: S s]> S) s') /\ NoDup ((<[s := x :: S s]> S) s').
Proof.
  intros HS HxS H0 Hdis Hsn Hsp He s'. rewrite He. destruct (decide (s' = s)) as [->|Hne].
  - destruct (HS s) as [Hd Hnd]. rewrite fn_lookup_insert. split; [|by apply NoDup_cons].
    apply (dlist_insert NULL (sn t) (sp t) _ _ (eps t s) (lastd NULL (S s)) _ _ [] x (S s)); try done.
    + apply HxS.
    + by rewrite Hsn, decide_True.
    + by rewrite Hsp, decide_True.
    + intros y Hy. by rewrite Hsn, decide_False by (intros ->; by apply (HxS s)).
    + intros y Hy. by rewrite Hsp, decide_False by (intros ->; by apply (HxS s)).
    + destruct (S s) as [|q Q]; [done|]. cbn [decide]. by rewrite !lastd_cons.
  - destruct (HS s') as [Hd' Hnd']. rewrite fn_lookup_insert_ne by done. split; [|done].
    eapply dlist_ext; [|exact Hd']. intros y Hy. rewrite Hsn, Hsp, !(decide_False (P := y = x)) by (intros ->; by apply (HxS s')).
    split; [done|]. rewrite decide_False; [done|]. intros Hh%head_Some_elem_of. by apply (Hdis s' y Hne).
Qed.

(** Everything but the lists of a well formed state with one more entry. *)
Lemma epoll_wf_add t t' A I S S' x ep s : epoll_wf t A I S -> x ∉ es_live t -> Z.of_nat (size (es_live t)) + 1 < 2 ^ 32 ->
  (forall y, y ∈ es_live t -> es_ep (ess t y) = ep -> es_s (ess t y) <> s) ->
  ep_lists t' A (<[ep := x :: I ep]> I) ->
  (forall s', dlist NULL (sn t') (sp t') (eps t' s') (lastd NULL (S' s')) (S' s') /\ NoDup (S' s')) -> (forall s', S' s' = (<[s := x :: S s]> S) s') ->
  (forall y, y <> x -> es_ep (ess t' y) = es_ep (ess t y) /\ es_s (ess t' y) = es_s (ess t y) /\ active (ess t' y) = active (ess t y)) ->
  es_ep (ess t' x) = ep -> es_s (ess t' x) = s -> active (ess t' x) = false -> (forall e, num_active (epolls t' e) = num_active (epolls t e)) ->
  es_live t' = {[x]} ∪ es_live t -> epoll_wf t' A (<[ep := x :: I ep]> I) S'.
Proof.
  intros Hw Hx Hsz Hone Hl HS HS' Hk K1 K2 K3 Hn Hlive.
  assert (HxS : forall s', x ∉ S s') by (intros s' [? _]%(ew_sock _ _ _ _ Hw); done).
  assert (HxA : forall e, x ∉ A e ++ I e) by (intros e [? _]%(ew_ep _ _ _ _ Hw); done).
  assert (Hcase : forall y, y ∈ es_live t' -> y = x \/ (y <> x /\ y ∈ es_live t)) by (intros y; rewrite Hlive; destruct (decide (y = x)); set_solver).
  split; try done.
  - intros y e. rewrite Hlive. destruct (decide (y = x)) as [->|Hne].
    + rewrite K1. destruct (decide (e = ep)) as [->|He']; [rewrite fn_lookup_insert; set_solver|].
      rewrite fn_lookup_insert_ne by done. specialize (HxA e). naive_solver.
    + rewrite (proj1 (Hk y Hne)). pose proof (ew_ep _ _ _ _ Hw y e).
      destruct (decide (e = ep)) as [->|He']; [rewrite fn_lookup_insert|rewrite fn_lookup_insert_ne by done]; set_solver.
  - intros y s'. rewrite Hlive, HS'. destruct (decide (y = x)) as [->|Hne].
    + rewrite K2. destruct (decide (s' = s)) as [->|He']; [rewrite fn_lookup_insert; set_solver|].
      rewrite fn_lookup_insert_ne by done. specialize (HxS s'). naive_solver.
    + rewrite (proj1 (proj2 (Hk y Hne))). pose proof (ew_sock _ _ _ _ Hw y s').
      destruct (decide (s' = s)) as [->|He']; [rewrite fn_lookup_insert|rewrite fn_lookup_insert_ne by done]; set_solver.
  - intros y z [->|[Hy Hy']]%Hcase [->|[Hz Hz']]%Hcase; [done|..].
    + rewrite K1, K2. destruct (Hk z Hz) as (-> & -> & _). intros E1 E2. by destruct (Hone z Hz').
    + rewrite K1, K2. destruct (Hk y Hy) as (-> & -> & _). intros E1 E2. by destruct (Hone y Hy').
    + destruct (Hk z Hz) as (-> & -> & _), (Hk y Hy) as (-> & -> & _). by apply (ew_one _ _ _ _ Hw).
  - intros y [->|[Hy Hy']]%Hcase; [rewrite K3, K1; specialize (HxA ep); set_solver|].
    destruct (Hk y Hy) as (-> & _ & ->). by apply (ew_active _ _ _ _ Hw).
  - intros e. rewrite Hn. exact (ew_num _ _ _ _ Hw e).
  - rewrite Hlive, size_union, size_singleton by set_solver. lia.
Qed.

Lemma es_add_ok t A I S x ep s evs data : epoll_wf t A I S -> x ∉ es_live t -> x <> NULL ->
  Z.of_nat (size (es_live t)) + 1 < 2 ^ 32 -> (forall y, y ∈ es_live t -> es_ep (ess t y) = ep -> es_s (ess t y) <> s) ->
  let t' := es_add t x ep s evs data in
  exists I' S', epoll_wf t' A I' S' /\ es_live t' = {[x]} ∪ es_live t /\ ep_events t' = ep_events t /\
  (forall y, y <> x -> es_ep (ess t' y) = es_ep (ess t y) /\ es_s (ess t' y) = es_s (ess t y) /\ es_data (ess t' y) = es_data (ess t y) /\
    mask (ess t' y) = mask (ess t y) /\ active (ess t' y) = active (ess t y)) /\
  es_ep (ess t' x) = ep /\ es_s (ess t' x) = s /\ es_data (ess t' x) = data /\ mask (ess t' x) = Z.lor evs EPOLLERR /\ active (ess t' x) = false.
Proof.
  intros Hw Hx H0 Hsz Hone t'. destruct (ew_socks _ _ _ _ Hw s) as [Hd Hnd].
  assert (HxS : forall s', x ∉ S s') by (intros s' [? _]%(ew_sock _ _ _ _ Hw); done).
  assert (HxA : forall e, x ∉ A e ++ I e) by (intros e [? _]%(ew_ep _ _ _ _ Hw); done).
  destruct (dlist_first _ _ _ _ _ _ Hd) as [Ef _].
  assert (Hnull : NULL ∉ S s) by (destruct Hd as [Hc _]; by eapply seg_notin_null).
  destruct (es_new_eff t x ep s evs data (S s) H0 (HxS s) Hnull Ef) as (Ho & Hn & Hsn & Hsp & He & Hepolls & Hev & Hlive).
  change t' with (es_add_inactive (es_new t x ep s evs data) x). set (t1 := es_new t x ep s evs data) in *. clearbody t1. clear t'.
  assert (Hl1 : ep_lists t1 A I).
  { destruct (ew_lists _ _ _ _ Hw) as [H1 H2 H3 H4]. split; [| |done..]; intros e; rewrite Hepolls;
      (eapply dlist_ext; [intros y Hy; cbn; split; apply Ho; intros ->; apply (HxA e); set_solver|done]). }
  destruct Hn as (N1 & N2 & N3 & N4 & N5).
  destruct (add_inactive_lists t1 A I x ep Hl1 HxA H0 N1) as (Hl2 & Hf2 & Ha2 & Hn2).
  set (t' := es_add_inactive t1 x) in *. clearbody t'.
  assert (Hk : forall y, es_ep (ess t' y) = es_ep (ess t1 y) /\ es_s (ess t' y) = es_s (ess t1 y) /\ es_data (ess t' y) = es_data (ess t1 y) /\
    mask (ess t' y) = mask (ess t1 y) /\ active (ess t' y) = active (ess t1 y)) by (intros y; specialize (Ha2 y); pose proof (ef_es _ _ Hf2 y); tauto).
  assert (Hlive' : es_live t' = {[x]} ∪ es_live t) by (by rewrite (ef_live _ _ Hf2)).
  exists (<[ep := x :: I ep]> I), (<[s := x :: S s]> S).
  split; [|split; [done|split; [by rewrite (ef_events _ _ Hf2)|split; [|destruct (Hk x) as (-> & -> & -> & -> & ->); done]]]].
  2: { intros y Hne. specialize (Hk y). specialize (Ho y Hne). naive_solver congruence. }
  apply (epoll_wf_add t t' A I S _ x ep s); try done.
  - apply (sock_lists_add t t' S s x (ew_socks _ _ _ _ Hw) HxS H0).
    + intros s' y Hne [_ Hs]%(ew_sock _ _ _ _ Hw) [_ Hs']%(ew_sock _ _ _ _ Hw). congruence.
    + intros y. rewrite <-Hsn. apply (ef_es _ _ Hf2 y).
    + intros y. rewrite <-Hsp. apply (ef_es _ _ Hf2 y).
    + intros s'. by rewrite (ef_eps _ _ Hf2).
  - intros y Hne. specialize (Hk y). specialize (Ho y Hne). naive_solver congruence.
  - destruct (Hk x) as (-> & _). done.
  - destruct (Hk x) as (_ & -> & _). done.
  - destruct (Hk x) as (_ & _ & _ & _ & ->). done.
  - intros e. by rewrite Hn2, Hepolls.
Qed.

(** ** The calls *)

(** Members that the lists do not depend on. *)
Lemma epoll_wf_same t t' A I S : epoll_wf t A I S ->
  (forall y, es_ep (ess t' y) = es_ep (ess t y) /\ es_s (ess t' y) = es_s (ess t y) /\ ep_prev (ess t' y) = ep_prev (ess t y) /\
    ep_next (ess t' y) = ep_next (ess t y) /\ so_prev (ess t' y) = so_prev (ess t y) /\ so_next (ess t' y) = so_next (ess t y) /\
    active (ess t' y) = active (ess t y)) ->
  (forall e, inactive (epolls t' e) = inactive (epolls t e) /\ active_first (epolls t' e) = active_first (epolls t e) /\
    active_last (epolls t' e) = active_last (epolls t e) /\ num_active (epolls t' e) = num_active (epolls t e)) ->
  (forall s, eps t' s = eps t s) -> es_live t' = es_live t -> epoll_wf t' A I S.
Proof.
  intros [[L1 L2 L3 L4] Hs He Hso Hone Ha Hn Hsz] Hy Hep Heps Hlive.
  assert (Ee : forall y, es_ep (ess t' y) = es_ep (ess t y)) by apply Hy.
  assert (Es : forall y, es_s (ess t' y) = es_s (ess t y)) by apply Hy.
  assert (Ea : forall y, active (ess t' y) = active (ess t y)) by apply Hy.
  split; rewrite ?Hlive; try done.
  - split; [| |done..]; intros e; destruct (Hep e) as (E1 & E2 & E3 & _); rewrite ?E1, ?E2, ?E3; (eapply dlist_ext; [intros y _; cbn; split; apply Hy|done]).
  - intros s. rewrite Heps. split; [|apply Hs]. eapply dlist_ext; [intros y _; cbn; split; apply Hy|apply Hs].
  - intros x e. by rewrite Ee.
  - intros x s. by rewrite Es.
  - intros x y. rewrite !Ee, !Es. apply Hone.
  - intros x. rewrite Ea, Ee. apply Ha.
  - intros e. destruct (Hep e) as (_ & _ & _ & ->). apply Hn.
Qed.

Lemma sock_list_size t A I S s : epoll_wf t A I S -> (length (S s) <= size (es_live t))%nat.
Proof.
  intros Hw. destruct (ew_socks _ _ _ _ Hw s) as [_ Hnd]. rewrite <-(size_list_to_set (C := gset Z) (S s) Hnd).
  apply subseteq_size. intros x Hx%elem_of_list_to_set. by apply (ew_sock _ _ _ _ Hw x s).
Qed.

Lemma find_es_ok t ep : forall L n x, chain NULL (sn t) x L -> (length L < n)%nat ->
  exists r, find_es n t x ep = Done r /\
    ((r = NULL /\ forall y, y ∈ L -> es_ep (ess t y) <> ep) \/ (r <> NULL /\ r ∈ L /\ es_ep (ess t r) = ep)).
Proof.
  induction L as [|q L IH]; intros n x Hc Hn; (destruct n as [|n]; [cbn in Hn; lia|]); cbn [find_es].
  { cbn in Hc. subst x. exists NULL. split; [done|]. left. split; [done|set_solver]. }
  apply chain_cons in Hc as (<- & H0 & Hc). rewrite (proj2 (Z.eqb_neq x NULL)) by done. cbn [orb].
  destruct (es_ep (ess t x) =? ep) eqn:E; [apply Z.eqb_eq in E|apply Z.eqb_neq in E].
  - exists x. split; [done|]. right. split; [done|]. split; [set_solver|done].
  - destruct (IH n _ Hc) as (r & -> & Hr); [cbn in Hn; lia|]. exists r. split; [done|].
    destruct Hr as [[-> Hr]|(Hr0 & Hr1 & Hr2)]; [left|right]; set_solver.
Qed.

Lemma flextcp_epoll_set_ok t s evts fuel : epoll_inv t -> in32 evts -> (size (es_live t) < fuel)%nat ->
  exists t', flextcp_epoll_set fuel t s evts = Done t' /\ epoll_inv t' /\
    forall s', ep_events t' s' = if decide (s' = s) then Z.lor (ep_events t s) evts else ep_events t s'.
Proof.
  intros (A & I & S & Hw & Hr) He Hf. unfold flextcp_epoll_set. case_match eqn:Hnew.
  { apply Z.eqb_eq in Hnew. exists t. split; [done|]. split; [by exists A, I, S|]. intros s'. case_decide as E; [subst s'|done].
    apply Z.bits_inj'. intros i Hi. rewrite Z.lor_spec. destruct (Z.testbit evts i) eqn:Hb; [|by rewrite orb_false_r].
    by rewrite (no_new_event _ _ _ He Hnew Hi Hb). }
  set (t0 := t <| ep_events := _ |>).
  assert (Hw0 : epoll_wf t0 A I S) by (by apply (epoll_wf_same t)).
  destruct (ew_socks _ _ _ _ Hw s) as [[Hc _] _]. pose proof (sock_list_size _ _ _ _ s Hw).
  destruct (activate_all_ok (Z.land (u32 (Z.lnot (ep_events t s))) evts) (S s) fuel t0 A I S (eps t s) Hw0 Hc) as (t' & A' & I' & E & Hw' & Hf' & _ & Ha').
  { intros y Hy. by apply (ew_sock _ _ _ _ Hw y s). } { lia. }
  exists t'. split; [done|]. split.
  2: { intros s'. rewrite (ef_events _ _ Hf'). unfold t0, insert, fn_insert. cbn. by repeat case_decide. }
  exists A', I', S. split; [done|]. intros x Hx Hready. rewrite (ef_live _ _ Hf') in Hx. rewrite Ha'.
  unfold ready in Hready. rewrite (events_frame _ _ _ Hf') in Hready. unfold events in Hready. unfold t0 in Hready. cbn in Hready.
  unfold insert, fn_insert in Hready. case_decide as Hs.
  - destruct (new_event _ _ _ He Hready) as [Hold|Hn]; [left; apply Hr; [done|by unfold ready, events; rewrite <-Hs]|right].
    split; [by apply (ew_sock _ _ _ _ Hw)|done].
  - left. by apply Hr.
Qed.

Lemma flextcp_epoll_clear_ok t s evts : epoll_inv t -> epoll_inv (flextcp_epoll_clear t s evts).
Proof.
  intros (A & I & S & Hw & Hr). exists A, I, S. split; [by apply (epoll_wf_same t)|]. intros x Hx Hready. apply Hr; [done|].
  unfold ready, events, flextcp_epoll_clear in *. cbn in Hready. unfold insert, fn_insert in Hready. case_decide as Hs; [|done].
  intros H0. apply Hready. rewrite Z.ldiff_land, <-Z.land_assoc, (Z.land_comm (Z.lnot _)), Z.land_assoc, Hs, H0. apply Z.land_0_l.
Qed.

(** Activating an entry if it has events, as [epoll_ctl] does at its end. *)
Lemma activate_if_ready t A I S x : epoll_wf t A I S -> x ∈ es_live t ->
  (forall y, y ∈ es_live t -> y <> x -> ready t y -> active (ess t y) = true) ->
  exists t', (if negb (events t x =? 0) then es_activate t x else Done t) = Done t' /\ epoll_inv t'.
Proof.
  intros Hw Hx Hr. destruct (events t x =? 0) eqn:E; cbn [negb].
  - apply Z.eqb_eq in E. exists t. split; [done|]. exists A, I, S. split; [done|]. intros y Hy Hready.
    apply Hr; [done| |done]. intros ->. by apply Hready.
  - destruct (es_activate_ok t A I S x Hw Hx) as (t' & A' & I' & -> & Hw' & Hf' & Ha' & _). exists t'. split; [done|].
    exists A', I', S. split; [done|]. intros y Hy Hready. apply Ha'. destruct (decide (y = x)) as [->|Hne]; [by left|right].
    rewrite (ef_live _ _ Hf') in Hy. apply Hr; [done|done|]. unfold ready in *. by rewrite (events_frame _ _ _ Hf') in Hready.
Qed.

Lemma es_drop_inv t x : epoll_inv t -> x ∈ es_live t ->
  exists t', es_drop t x = Done t' /\ epoll_inv t' /\ es_live t' = es_live t ∖ {[x]} /\ es_kept t t'.
Proof.
  intros (A & I & S & Hw & Hr) Hx. destruct (es_drop_ok t A I S x Hw Hx) as (t' & A' & I' & S' & E & Hw' & Hlive & Hk).
  exists t'. split; [done|]. split; [|done]. exists A', I', S'. split; [done|]. intros y Hy Hready.
  destruct (ek_es _ _ Hk y Hy) as (_ & Es & _ & Em & ->). apply Hr; [set_solver|].
  unfold ready, events in *. by rewrite Es, Em, (ek_events _ _ Hk) in Hready.
Qed.

(** An epoll instance has at most one entry for a socket: the one that [find_es] returns. *)
Lemma find_es_inv t ep s fuel : epoll_inv t -> (size (es_live t) < fuel)%nat -> exists r, find_es fuel t (eps t s) ep = Done r /\
  ((r = NULL /\ forall y, y ∈ es_live t -> es_ep (ess t y) = ep -> es_s (ess t y) <> s) \/
   (r <> NULL /\ r ∈ es_live t /\ es_ep (ess t r) = ep /\ es_s (ess t r) = s)).
Proof.
  intros (A & I & S & Hw & _) Hf. destruct (ew_socks _ _ _ _ Hw s) as [[Hc _] _]. pose proof (sock_list_size _ _ _ _ s Hw).
  destruct (find_es_ok t ep (S s) fuel _ Hc) as (r & -> & Hr); [lia|]. exists r. split; [done|].
  destruct Hr as [[-> Hr]|(H0 & Hin & He)]; [left|right].
  - split; [done|]. intros y Hy Ey Es. apply (Hr y); [|done]. by apply (ew_sock _ _ _ _ Hw).
  - apply (ew_sock _ _ _ _ Hw) in Hin as [? ?]. done.
Qed.

(** The result of [epoll_ctl], by the operation, the entry found and the allocation. *)
Definition ctl_answer (op : epoll_op) (evs : Z) (found : bool) (m : option Z) : ctl_result :=
  match op with
  | EPOLL_CTL_ADD => if negb (Z.ldiff (Z.ldiff evs EPOLLET) event_mask =? 0) then CTL_EINVAL
                     else if found then CTL_EEXIST else if m is Some _ then CTL_OK else CTL_ENOMEM
  | EPOLL_CTL_MOD => if negb (Z.ldiff (Z.ldiff evs EPOLLET) event_mask =? 0) then CTL_EINVAL else if found then CTL_OK else CTL_ENOENT
  | EPOLL_CTL_DEL => if found then CTL_OK else CTL_ENOENT
  | EPOLL_CTL_OTHER => CTL_EINVAL
  end.

(** What [calloc] returns is not allocated, and not all of memory is full of entries. *)
Definition fresh_entry t (m : option Z) : Prop :=
  forall x, m = Some x -> (x ∉ es_live t) /\ x <> NULL /\ Z.of_nat (size (es_live t)) + 1 < 2 ^ 32.

Lemma set_num_tas_inv t ep n : epoll_inv t -> epoll_inv (set_ep t ep ((epolls t ep) <| num_tas := n |>)).
Proof.
  intros (A & I & S & Hw & Hr). exists A, I, S. split; [|done]. apply (epoll_wf_same t); [done|done| |done|done]. intros e. by members.
Qed.

Ltac answer := eexists; split; [reflexivity|split; done].

Lemma epoll_ctl_ok t ep op s evs data m fuel : epoll_inv t -> fresh_entry t m -> (size (es_live t) < fuel)%nat ->
  exists found t', epoll_ctl fuel t ep op s evs data m = Done (ctl_answer op evs found m, t') /\ epoll_inv t' /\
    (found = true <-> exists x, x ∈ es_live t /\ es_ep (ess t x) = ep /\ es_s (ess t x) = s).
Proof.
  intros Hinv Hm Hf. destruct (find_es_inv t ep s fuel Hinv Hf) as (r & Er & Hr). exists (negb (r =? NULL)).
  assert (Hfound : negb (r =? NULL) = true <-> exists x, x ∈ es_live t /\ es_ep (ess t x) = ep /\ es_s (ess t x) = s).
  { destruct Hr as [[-> Hr]|(H0 & Hr)]; [cbn; split; [done|]; intros (x & ? & ? & ?); by destruct (Hr x)|].
    rewrite (proj2 (Z.eqb_neq r NULL)) by done. split; [by exists r|done]. }
  unfold epoll_ctl. rewrite Er. cbn [mbind outcome_bind]. clear Er. destruct op; cbn [ctl_answer].
  - set (ev := Z.ldiff evs EPOLLET). destruct (negb (Z.ldiff ev event_mask =? 0)); [answer|].
    pose proof (set_num_tas_inv t ep (u32 (num_tas (epolls t ep) + 1)) Hinv) as Hinv1.
    destruct Hr as [[-> Hr]|(H0 & Hr)]; [|rewrite (proj2 (Z.eqb_neq r NULL)) in * by done; answer]. cbn [negb Z.eqb NULL].
    destruct m as [x|]; [|answer]. destruct (Hm x eq_refl) as (Hx & H0 & Hsz).
    set (t1 := set_ep t ep _) in *. destruct Hinv1 as (A & I & S & Hw & Hready).
    destruct (es_add_ok t1 A I S x ep s ev data Hw Hx H0 Hsz Hr) as (I' & S' & Hw' & Hlive & Hev & Hk & K1 & K2 & K3 & K4 & K5).
    set (t2 := es_add t1 x ep s ev data) in *. clearbody t2.
    destruct (activate_if_ready t2 A I' S' x Hw') as (t' & E & Hinv').
    + rewrite Hlive. set_solver.
    + intros y Hy Hne Hry. destruct (Hk y Hne) as (_ & Es & _ & Em & ->). apply Hready; [set_solver|].
      unfold ready, events in *. by rewrite Es, Em, Hev in Hry.
    + unfold events in E. rewrite K2 in E. rewrite E. cbn [mbind outcome_bind]. answer.
  - set (ev := Z.ldiff evs EPOLLET). destruct (negb (Z.ldiff ev event_mask =? 0)); [answer|].
    destruct Hr as [[-> Hr]|(H0 & Hx & He & Hs)]; [answer|]. rewrite (proj2 (Z.eqb_neq r NULL)) in * by done. cbn [negb] in *.
    set (t1 := set_es t r _). destruct Hinv as (A & I & S & Hw & Hready).
    assert (Hw1 : epoll_wf t1 A I S) by (apply (epoll_wf_same t); [done| |done..]; intros y; unfold t1; by members).
    destruct (activate_if_ready t1 A I S r Hw1 Hx) as (t' & E & Hinv').
    + intros y Hy Hne Hry. unfold ready, events, t1, set_es in *. cbn in *. rewrite fn_lookup_insert_ne in * by done. by apply Hready.
    + unfold events in E. replace (es_s (ess t1 r)) with s in E by (unfold t1, set_es; cbn; rewrite fn_lookup_insert; by rewrite <-Hs).
      rewrite E. cbn [mbind outcome_bind]. answer.
  - pose proof (set_num_tas_inv t ep (u32 (num_tas (epolls t ep) + -1)) Hinv) as Hinv1.
    destruct Hr as [[-> Hr]|(H0 & Hx & He & Hs)]; [answer|]. rewrite (proj2 (Z.eqb_neq r NULL)) in * by done. cbn [negb] in *.
    destruct (es_drop_inv _ r Hinv1 Hx) as (t' & -> & Hinv' & _). cbn [mbind outcome_bind]. answer.
  - answer.
Qed.

(** The loops that free entries from the head of a list: [K] tells which ones. *)
Section Drop_loop.
Context (loop : nat -> est -> outcome est) (h : est -> Z) (K : Z -> Z -> bool -> Prop).
Context (loop_step : forall n t, loop (Datatypes.S n) t = if h t =? NULL then Done t else t' ← es_drop t (h t); loop n t').
Abbreviation Kt t y := (K (es_ep (ess t y)) (es_s (ess t y)) (active (ess t y))).
Context (head_entry : forall t, epoll_inv t -> (h t = NULL /\ forall y, y ∈ es_live t -> ~ Kt t y) \/
  (h t <> NULL /\ h t ∈ es_live t /\ Kt t (h t))).

Lemma drop_loop : forall n t, epoll_inv t -> (size (es_live t) < n)%nat -> exists t', loop n t = Done t' /\ epoll_inv t' /\
  es_kept t t' /\ forall y, y ∈ es_live t' <-> y ∈ es_live t /\ ~ Kt t y.
Proof.
  induction n as [|n IH]; intros t Hinv Hn; [lia|]. rewrite loop_step. destruct (head_entry t Hinv) as [[-> Hnone]|(H0 & Hx & HK)].
  { exists t. split; [done|]. split; [done|]. split; [done|]. intros y. naive_solver. }
  rewrite (proj2 (Z.eqb_neq (h t) NULL)) by done. destruct (es_drop_inv t _ Hinv Hx) as (t1 & -> & Hinv1 & Hlive & Hk).
  cbn [mbind outcome_bind]. destruct (IH t1 Hinv1) as (t' & E & Hinv' & Hk' & Hin).
  { rewrite Hlive, size_difference, size_singleton by set_solver. assert (size (es_live t) <> 0)%nat; [|lia].
    intros Hs%size_empty_inv. set_solver. }
  exists t'. split; [done|]. split; [done|]. split; [eapply es_kept_trans; [|exact Hk|exact Hk']; intros y; rewrite Hin; tauto|].
  intros y. rewrite Hin. assert (Hsame : y ∈ es_live t1 -> Kt t1 y <-> Kt t y).
  { intros Hy. destruct (ek_es _ _ Hk y Hy) as (-> & -> & _ & _ & ->). done. }
  rewrite Hlive in *. destruct (decide (y = h t)) as [->|]; set_solver.
Qed.
End Drop_loop.

Lemma flextcp_epoll_sockclose_ok t s n : epoll_inv t -> (size (es_live t) < n)%nat ->
  exists t', flextcp_epoll_sockclose n t s = Done t' /\ epoll_inv t' /\ es_kept t t' /\
    forall y, y ∈ es_live t' <-> y ∈ es_live t /\ es_s (ess t y) <> s.
Proof.
  apply (drop_loop (fun n t => flextcp_epoll_sockclose n t s) (fun t => eps t s) (fun _ s' _ => s' = s)); [done|].
  clear. intros t (A & I & S & Hw & _). destruct (ew_socks _ _ _ _ Hw s) as [Hd _]. destruct (dlist_first _ _ _ _ _ _ Hd) as [Ef _].
  pose proof (ew_sock _ _ _ _ Hw) as Hin. destruct Hd as [Hc%seg_notin_null _]. specialize (fun y => Hin y s) as Hin'.
  destruct (S s) as [|q L]; cbn [hd] in Ef; [left|right]; rewrite Ef; set_solver.
Qed.

Lemma drop_active_ok t ep n : epoll_inv t -> (size (es_live t) < n)%nat ->
  exists t', drop_active n t ep = Done t' /\ epoll_inv t' /\ es_kept t t' /\
    forall y, y ∈ es_live t' <-> y ∈ es_live t /\ ~ (es_ep (ess t y) = ep /\ active (ess t y) = true).
Proof.
  apply (drop_loop (fun n t => drop_active n t ep) (fun t => active_first (epolls t ep)) (fun ep' _ a => ep' = ep /\ a = true)); [done|].
  clear. intros t (A & I & S & Hw & _). pose proof (ew_lists _ _ _ _ Hw) as Hl. pose proof (ep_lists_null _ _ _ ep Hl) as H0.
  destruct (dlist_first _ _ _ _ _ _ (el_active _ _ _ Hl ep)) as [Ef _]. pose proof (ew_active _ _ _ _ Hw) as Ha.
  pose proof (fun y => ew_ep _ _ _ _ Hw y ep) as Hin.
  destruct (A ep) as [|q L] eqn:EA; cbn [hd] in Ef; rewrite Ef; [left|right].
  - split; [done|]. intros y Hy [He Hac]. apply Ha in Hac; [|done]. rewrite He, EA in Hac. set_solver.
  - destruct (Hin q) as [[Hq He] _]; [set_solver|]. split; [set_solver|]. split; [done|]. split; [done|]. apply Ha; [done|]. rewrite He, EA. set_solver.
Qed.

Lemma drop_inactive_ok t ep n : epoll_inv t -> (size (es_live t) < n)%nat ->
  exists t', drop_inactive n t ep = Done t' /\ epoll_inv t' /\ es_kept t t' /\
    forall y, y ∈ es_live t' <-> y ∈ es_live t /\ ~ (es_ep (ess t y) = ep /\ active (ess t y) = false).
Proof.
  apply (drop_loop (fun n t => drop_inactive n t ep) (fun t => inactive (epolls t ep)) (fun ep' _ a => ep' = ep /\ a = false)); [done|].
  clear. intros t (A & I & S & Hw & _). pose proof (ew_lists _ _ _ _ Hw) as Hl. pose proof (ep_lists_null _ _ _ ep Hl) as H0.
  destruct (dlist_first _ _ _ _ _ _ (el_inactive _ _ _ Hl ep)) as [Ef _]. pose proof (ew_active _ _ _ _ Hw) as Ha.
  pose proof (fun y => ew_ep _ _ _ _ Hw y ep) as Hin. pose proof (el_nodup _ _ _ Hl ep) as (_ & Hnd & _)%NoDup_app.
  destruct (I ep) as [|q L] eqn:EI; cbn [hd] in Ef; rewrite Ef; [left|right].
  - split; [done|]. intros y Hy [He Hac]. assert (HA : y ∈ A ep) by (assert (y ∈ A ep ++ []) by (by apply Hin); set_solver).
    rewrite <-He in HA at 1. apply Ha in HA; [|done]. congruence.
  - destruct (Hin q) as [[Hq He] _]; [set_solver|]. split; [set_solver|]. split; [done|]. split; [done|].
    destruct (active (ess t q)) eqn:Hac; [|done]. apply Ha in Hac; [|done]. rewrite He in Hac. exfalso. eapply Hnd; [exact Hac|set_solver].
Qed.

Lemma flextcp_epoll_destroy_ok t ep n : epoll_inv t -> (size (es_live t) < n)%nat ->
  exists t', flextcp_epoll_destroy n t ep = Done t' /\ epoll_inv t' /\ es_kept t t' /\
    forall y, y ∈ es_live t' <-> y ∈ es_live t /\ es_ep (ess t y) <> ep.
Proof.
  intros Hinv Hn. unfold flextcp_epoll_destroy. destruct (drop_active_ok t ep n Hinv Hn) as (t1 & -> & Hinv1 & Hk1 & H1). cbn [mbind outcome_bind].
  destruct (drop_inactive_ok t1 ep n Hinv1) as (t2 & -> & Hinv2 & Hk2 & H2).
  { assert (es_live t1 ⊆ es_live t) as Hs%subseteq_size by (intros y; rewrite H1; tauto). lia. }
  exists t2. split; [done|]. split; [done|]. split; [eapply es_kept_trans; [|exact Hk1|exact Hk2]; intros y; rewrite H2; tauto|].
  intros y. rewrite H2. split.
  - intros [Hy Hn2]. pose proof (ek_es _ _ Hk1 y Hy) as (E1 & _ & _ & _ & E2). rewrite E1, E2 in Hn2. rewrite H1 in Hy.
    destruct (active (ess t y)); naive_solver.
  - intros [Hy Hne]. assert (Hy1 : y ∈ es_live t1) by (rewrite H1; naive_solver). pose proof (ek_es _ _ Hk1 y Hy1) as (E1 & _ & _ & _ & E2).
    rewrite E1, E2. naive_solver.
Qed.

Lemma sockinit_ok t s : epoll_inv t -> (forall y, y ∈ es_live t -> es_s (ess t y) <> s) -> epoll_inv (flextcp_epoll_sockinit t s).
Proof.
  intros (A & I & S & Hw & Hr) Hs. exists A, I, S. split.
  - apply (epoll_wf_same t); [done|done|done| |done]. intros s'. unfold flextcp_epoll_sockinit, insert, fn_insert. cbn.
    case_decide as E; [subst s'|done]. destruct (ew_socks _ _ _ _ Hw s) as [Hd _]. destruct (dlist_first _ _ _ _ _ _ Hd) as [-> _].
    pose proof (fun y => ew_sock _ _ _ _ Hw y s) as Hin. destruct (S s) as [|q L]; [done|]. destruct (Hin q) as [[Hq Hqs] _]; [set_solver|]. by destruct (Hs q).
  - intros y Hy Hry. apply Hr; [done|]. unfold ready, events, flextcp_epoll_sockinit in *. cbn in *. rewrite fn_lookup_insert_ne in Hry; [done|].
    intros E. by apply (Hs y).
Qed.

Lemma epoll_create_ok t ep : epoll_inv t -> (forall y, y ∈ es_live t -> es_ep (ess t y) <> ep) -> epoll_inv (epoll_create t ep).
Proof.
  intros (A & I & S & Hw & Hr) Hep. exists A, I, S. split; [|done]. apply (epoll_wf_same t); [done|done| |done|done].
  intros e. unfold epoll_create, set_ep, insert, fn_insert. cbn. case_decide as E; [subst e|done]. cbn.
  pose proof (ew_lists _ _ _ _ Hw) as Hl. destruct (dlist_first _ _ _ _ _ _ (el_active _ _ _ Hl ep)) as [-> ->].
  destruct (dlist_first _ _ _ _ _ _ (el_inactive _ _ _ Hl ep)) as [-> _]. pose proof (fun y => ew_ep _ _ _ _ Hw y ep) as Hin.
  destruct (A ep ++ I ep) as [|q L] eqn:EL; [by apply app_eq_nil in EL as [-> ->]|].
  destruct (Hin q) as [[Hq Hqs] _]; [set_solver|]. by destruct (Hep q).
Qed.

(** The active list of an instance, from its head. *)
Fixpoint walk (n : nat) t x : list Z :=
  match n with O => [] | Datatypes.S n => if x =? NULL then [] else x :: walk n t (ep_next (ess t x)) end.
Definition active_list t e : list Z := walk (Z.to_nat (num_active (epolls t e))) t (active_first (epolls t e)).

Lemma walk_chain t : forall L x, chain NULL (nx t) x L -> walk (length L) t x = L.
Proof.
  induction L as [|q L IH]; intros x Hc; [done|]. apply chain_cons in Hc as (<- & H0 & Hc). cbn.
  rewrite (proj2 (Z.eqb_neq x NULL)) by done. f_equal. by apply IH.
Qed.

Lemma active_list_wf t A I S e : epoll_wf t A I S -> active_list t e = A e.
Proof.
  intros Hw. unfold active_list. rewrite (ew_num _ _ _ _ Hw), Nat2Z.id. apply walk_chain. apply (el_active _ _ _ (ew_lists _ _ _ _ Hw) e).
Qed.

Lemma ep_poll_tas_ok t e max : epoll_inv t -> 0 <= max ->
  exists V W t', active_list t e = V ++ W /\ ep_poll_tas t e max = Done (map (report t) (filter (ready t) V), t') /\
    epoll_inv t' /\ active_list t' e = W ++ filter (ready t) V /\ NoDup (V ++ W) /\
    (forall x, x ∈ V ++ W <-> x ∈ es_live t /\ es_ep (ess t x) = e /\ active (ess t x) = true) /\
    Z.of_nat (length (filter (ready t) V)) <= max /\
    (W = [] \/ Z.of_nat (length (filter (ready t) V)) = max).
Proof.
  intros (A & I & S & Hw & Hr) Hmax. destruct (ep_poll_loop_ok e (A e) [] t A I S max Hw) as (V & W & t' & A' & I' & EV & E & Hp & Hle & Hor);
    [by rewrite app_nil_r|done|].
  exists V, W, t'. rewrite (active_list_wf _ _ _ _ _ Hw). split; [done|]. unfold ep_poll_tas.
  rewrite (ew_num _ _ _ _ Hw), Nat2Z.id. split; [done|]. destruct Hp as [P1 P2 P3 P4 P5].
  split; [|split; [by rewrite (active_list_wf _ _ _ _ _ P1)|]].
  - exists A', I', S. split; [done|]. intros x Hx Hry. unfold ready in Hry. rewrite (events_frame _ _ _ P2) in Hry.
    rewrite (ef_live _ _ P2) in Hx. apply P5. split; [by apply Hr|done].
  - rewrite <-EV. pose proof (el_nodup _ _ _ (ew_lists _ _ _ _ Hw) e) as [Hnd _]%NoDup_app. split; [done|]. split; [|done].
    intros x. split.
    + intros Hx. destruct (ew_ep _ _ _ _ Hw x e) as [[Hl He] _]; [set_solver|]. split; [done|]. split; [done|].
      apply (ew_active _ _ _ _ Hw); [done|]. by rewrite He.
    + intros (Hl & <- & Ha). by apply (ew_active _ _ _ _ Hw).
Qed.

(** ** Sequences of calls *)

(** The calls of an application, and the calls of the library when the state of a socket changes. *)
Inductive call : Type :=
| Set_events (s evts : Z) | Clear_events (s evts : Z) | Ctl (ep : Z) (op : epoll_op) (s evs data : Z) (m : option Z)
| Poll (ep maxevents : Z) | Close (s : Z) | Destroy (ep : Z) | New_socket (s : Z) | New_epoll (ep : Z).

(** Obligations of the caller, and of the allocator. *)
Definition call_ok t (c : call) : Prop :=
  match c with
  | Set_events _ evts => in32 evts
  | Ctl _ _ _ _ _ m => fresh_entry t m
  | Poll _ maxevents => 0 <= maxevents
  | New_socket s => set_Forall (fun y => es_s (ess t y) <> s) (es_live t)
  | New_epoll ep => set_Forall (fun y => es_ep (ess t y) <> ep) (es_live t)
  | _ => True
  end.

(** The loops follow lists of allocated entries. *)
Definition exec t (c : call) : outcome est :=
  let fuel := Datatypes.S (size (es_live t)) in
  match c with
  | Set_events s evts => flextcp_epoll_set fuel t s evts
  | Clear_events s evts => Done (flextcp_epoll_clear t s evts)
  | Ctl ep op s evs data m => '(_, t) ← epoll_ctl fuel t ep op s evs data m; Done t
  | Poll ep maxevents => '(_, t) ← ep_poll_tas t ep maxevents; Done t
  | Close s => flextcp_epoll_sockclose fuel t s
  | Destroy ep => flextcp_epoll_destroy fuel t ep
  | New_socket s => Done (flextcp_epoll_sockinit t s)
  | New_epoll ep => Done (epoll_create t ep)
  end.

Lemma exec_ok t c : epoll_inv t -> call_ok t c -> exists t', exec t c = Done t' /\ epoll_inv t'.
Proof.
  intros Hinv Hc. assert (Hf : (size (es_live t) < Datatypes.S (size (es_live t)))%nat) by lia.
  destruct c; cbn in Hc; cbv beta iota zeta delta [exec].
  - destruct (flextcp_epoll_set_ok t s evts _ Hinv Hc Hf) as (t' & -> & Hinv' & _). by exists t'.
  - eexists. split; [done|]. by apply flextcp_epoll_clear_ok.
  - destruct (epoll_ctl_ok t ep op s evs data m _ Hinv Hc Hf) as (found & t' & -> & Hinv' & _). by exists t'.
  - destruct (ep_poll_tas_ok t ep maxevents Hinv Hc) as (V & W & t' & _ & -> & Hinv' & _). by exists t'.
  - destruct (flextcp_epoll_sockclose_ok t s _ Hinv Hf) as (t' & -> & Hinv' & _). by exists t'.
  - destruct (flextcp_epoll_destroy_ok t ep _ Hinv Hf) as (t' & -> & Hinv' & _). by exists t'.
  - eexists. split; [done|]. by apply sockinit_ok.
  - eexists. split; [done|]. by apply epoll_create_ok.
Qed.

(** No entries: the state in which the library starts. *)
Definition epoll_init : est :=
  mk_est (fun _ => mk_es NULL NULL NULL NULL NULL NULL 0 0 false) (fun _ => mk_epoll NULL NULL NULL 0 0 0) (fun _ => 0) (fun _ => NULL) ∅.

Lemma epoll_init_inv : epoll_inv epoll_init.
Proof.
  exists (fun _ => []), (fun _ => []), (fun _ => []). split; [|intros x Hx; cbn in Hx; set_solver]. split; cbn; try done.
  - split; cbn; [done|done|intros _; apply NoDup_nil_2|set_solver].
  - intros s. split; [done|apply NoDup_nil_2].
  - set_solver.
  - set_solver.
Qed.

Definition run t (cs : list call) : outcome est := foldl (fun r c => t ← r; exec t c) (Done t) cs.

Fixpoint calls_ok t (cs : list call) : Prop :=
  match cs with
  | [] => True
  | c :: cs => call_ok t c /\ match exec t c with Done t' => calls_ok t' cs | _ => True end
  end.

Lemma run_ok cs : forall t, epoll_inv t -> calls_ok t cs -> exists t', run t cs = Done t' /\ epoll_inv t'.
Proof.
  unfold run. induction cs as [|c cs IH]; intros t Hinv Hok; [by exists t|]. destruct Hok as [Hc Hok]. cbn [foldl].
  destruct (exec_ok t c Hinv Hc) as (t' & E & Hinv'). rewrite E in Hok. cbn [mbind outcome_bind]. rewrite E. by apply IH.
Qed.

(** ** Properties *)

(** C36: Polling an instance goes through its active list from the front. It reports exactly the entries with pending events
    that their masks ask for, in the order of the list and at most as many as the caller asked for; those go to the end
    of the list, behind the ones not visited, and the idle entries that were visited leave it. If fewer events are returned than asked for,
    every entry of the instance with pending events was reported. No entry is lost from the lists. *)
Theorem ep_poll_tas_correct t e max : epoll_inv t -> 0 <= max ->
  exists V W t', active_list t e = V ++ W /\ ep_poll_tas t e max = Done (map (report t) (filter (ready t) V), t') /\
    epoll_inv t' /\ active_list t' e = W ++ filter (ready t) V /\
    Z.of_nat (length (filter (ready t) V)) <= max /\
    (Z.of_nat (length (filter (ready t) V)) < max ->
     forall x, x ∈ filter (ready t) V <-> x ∈ es_live t /\ es_ep (ess t x) = e /\ ready t x).
Proof.
  intros Hinv Hmax. destruct (ep_poll_tas_ok t e max Hinv Hmax) as (V & W & t' & EL & E & Hinv' & EL' & Hnd & Hin & Hle & Hor).
  exists V, W, t'. do 5 (split; [done|]). intros Hlt x. destruct Hor as [->|]; [|lia]. rewrite app_nil_r in Hin.
  rewrite list_elem_of_filter, Hin. destruct Hinv as (A & I & S & Hw & Hr). naive_solver.
Qed.

(** C35: No event is lost by the lists. After any calls that set and clear events of sockets, add, change and remove entries, poll, and
    close sockets and instances, each of which returns without a failed assertion, every entry that waits for a pending event of its socket is on
    the active list of its instance, once, and a poll for at least that many events reports it. *)
Theorem epoll_never_loses_events cs : calls_ok epoll_init cs ->
  exists t, run epoll_init cs = Done t /\
  forall x, x ∈ es_live t -> ready t x -> let e := es_ep (ess t x) in
    x ∈ active_list t e /\ NoDup (active_list t e) /\
    forall max, Z.of_nat (length (active_list t e)) <= max ->
      exists l t', ep_poll_tas t e max = Done (l, t') /\ report t x ∈ l.
Proof.
  intros Hok. destruct (run_ok cs _ epoll_init_inv Hok) as (t & E & Hinv). exists t. split; [done|]. intros x Hx Hr e.
  assert (Hpoll : forall max, 0 <= max -> exists V W t', active_list t e = V ++ W /\ x ∈ V ++ W /\ NoDup (V ++ W) /\
    ep_poll_tas t e max = Done (map (report t) (filter (ready t) V), t') /\
    (W = [] \/ Z.of_nat (length (filter (ready t) V)) = max)).
  { intros max Hmax. destruct (ep_poll_tas_ok t e max Hinv Hmax) as (V & W & t' & EL & E' & _ & _ & Hnd & Hin & _ & Hor).
    exists V, W, t'. split; [done|]. split; [|done]. apply Hin. split; [done|]. split; [done|].
    destruct Hinv as (A & I & S & Hw & Hact). by apply Hact. }
  split; [|split; [|intros max Hmax]].
  - destruct (Hpoll 0) as (V & W & t' & -> & ? & _); [done..].
  - destruct (Hpoll 0) as (V & W & t' & -> & _ & ? & _); [done..].
  - destruct (Hpoll max) as (V & W & t' & EL & Hin & _ & E' & Hor); [lia|]. eexists _, t'. split; [exact E'|].
    apply list_elem_of_fmap. exists x. split; [done|]. apply list_elem_of_filter. split; [done|].
    assert (W = []) as ->; [|by rewrite app_nil_r in Hin]. destruct Hor as [|Hor]; [done|].
    rewrite EL, length_app in Hmax. pose proof (length_filter (ready t) V). destruct W; [done|cbn in Hmax; lia].
Qed.

(** Two sockets on one instance; the first becomes readable. *)
Definition demo_calls : list call :=
  [New_epoll 1; New_socket 5; New_socket 6; Ctl 1 EPOLL_CTL_ADD 5 EPOLLIN 50 (Some 11); Ctl 1 EPOLL_CTL_ADD 6 EPOLLIN 60 (Some 12);
   Set_events 6 EPOLLIN; Set_events 5 (Z.lor EPOLLIN EPOLLOUT); Poll 1 1; Clear_events 6 EPOLLIN; Ctl 1 EPOLL_CTL_MOD 5 EPOLLOUT 0 None].

#[export] Instance fresh_entry_dec t m : Decision (fresh_entry t m).
Proof.
  destruct m as [x|]; [|left; by intros x].
  destruct (decide ((x ∉ es_live t) /\ x <> NULL /\ Z.of_nat (size (es_live t)) + 1 < 2 ^ 32)) as [H|H];
    [left; by intros ? [= <-]|right; intros Hm; by apply H, Hm].
Defined.
#[export] Instance call_ok_dec t c : Decision (call_ok t c).
Proof. destruct c; cbn; apply _. Defined.
#[export] Instance calls_ok_dec : forall cs t, Decision (calls_ok t cs).
Proof.
  fix go 1. intros [|c cs] t; cbn; [left; exact I|]. apply and_dec; [apply _|]. destruct (exec t c); [apply go|left; exact I..].
Defined.

Lemma demo_calls_ok : calls_ok epoll_init demo_calls.
Proof. apply (bool_decide_unpack _). vm_compute. exact I. Qed.

(** Entry 11 waits for its socket to be writable, which it is; the event of entry 12 has been cleared. *)
Definition demo_state t : bool :=
  bool_decide (11 ∈ es_live t) && bool_decide (ready t 11) && bool_decide (es_ep (ess t 11) = 1) && bool_decide (active_list t 1 = [11; 12]).

Lemma demo_runs t : run epoll_init demo_calls = Done t ->
  11 ∈ es_live t /\ ready t 11 /\ es_ep (ess t 11) = 1 /\ active_list t 1 = [11; 12].
Proof.
  intros E. assert (H : match run epoll_init demo_calls with Done t => demo_state t | _ => false end = true) by (vm_compute; reflexivity).
  rewrite E in H. clear E. unfold demo_state in H. rewrite !andb_true_iff, !bool_decide_eq_true in H. tauto.
Qed.

Lemma epoll_never_loses_events_witness : calls_ok epoll_init demo_calls /\ exists t, run epoll_init demo_calls = Done t /\
  exists l t', ep_poll_tas t 1 2 = Done (l, t') /\ report t 11 ∈ l.
Proof.
  split; [exact demo_calls_ok|]. destruct (epoll_never_loses_events demo_calls demo_calls_ok) as (t & E & H). exists t. split; [exact E|].
  destruct (demo_runs t E) as (Hx & Hr & He & EL). destruct (H 11 Hx Hr) as (_ & _ & Hp). rewrite He, EL in Hp. apply Hp. cbn. lia.
Defined.

Lemma ep_poll_tas_correct_witness : exists t, run epoll_init demo_calls = Done t /\ epoll_inv t /\ 0 <= 5 /\
  exists V W t', active_list t 1 = V ++ W /\ ep_poll_tas t 1 5 = Done (map (report t) (filter (ready t) V), t') /\ epoll_inv t'.
Proof.
  destruct (run_ok demo_calls _ epoll_init_inv demo_calls_ok) as (t & E & Hinv). exists t. split; [exact E|]. split; [exact Hinv|]. clear E.
  split; [lia|]. destruct (ep_poll_tas_correct t 1 5 Hinv) as (V & W & t' & H1 & H2 & H3 & _); [lia|]. by exists V, W, t'.
Defined.

(** A removal that fails counts all the same: with a socket on the instance whose event is pending, [num_tas] is 0, and
    [tas_epoll_wait] does not look at the sockets. *)
Example failed_removal_counts : match run epoll_init [New_epoll 1; New_socket 5; New_socket 6; Ctl 1 EPOLL_CTL_ADD 5 EPOLLIN 50 (Some 11);
    Ctl 1 EPOLL_CTL_DEL 6 0 0 None; Set_events 5 EPOLLIN] with
  | Done t => num_tas (epolls t 1) = 0 /\ active_list t 1 = [11] /\ events t 11 = EPOLLIN
  | _ => False
  end.
Proof. vm_compute. done. Qed.

End SockepollProps.
