(* ===== verification/Sockstream.v ===== *)
(** * Sockets over connections ([lib/sockets/context.c], [lib/sockets/transfer.c])

    What the library for sockets does with the events of the low level library, and the two
    byte streams of a connected socket.  A socket begins with the connection or listener of the
    low level library, so they have one address.  Received bytes that have not been read yet are in at most two pieces of the
    circular receive buffer.  A connection is at the context of the thread that uses it, where
    [tas_sock_move] does nothing. *)
From S2P Require Import Prelude Memif KernelIf Libtas Sockepoll.
From stdpp Require Import gmap.
#[local] Open Scope Z_scope.

Module Sockstream.
Import Libtas.

(** [enum filehandle_type], [enum conn_status], [enum listen_status]. *)
Inductive filehandle_type : Type := SOCK_UNUSED | SOCK_SOCKET | SOCK_CONNECTION | SOCK_LISTENER.
Inductive sock_status : Type := SOC_CONNECTING | SOC_CONNECTED | SOC_FAILED | SOC_CLOSED.
Inductive listen_status : Type := SOL_OPENING | SOL_OPEN | SOL_FAILED.
#[export] Instance filehandle_type_eq : EqDecision filehandle_type.
Proof. solve_decision. Defined.
#[export] Instance sock_status_eq : EqDecision sock_status.
Proof. solve_decision. Defined.
#[export] Instance listen_status_eq : EqDecision listen_status.
Proof. solve_decision. Defined.

Definition SOF_NONBLOCK : Z := 1.
Definition CSTF_RXCLOSED : Z := 1.
Definition CSTF_TXCLOSED : Z := 2.
Definition CSTF_TXCLOSED_ACK : Z := 4.

(** [struct socket] without what the low level library and the event polling keep in it. *)
Record socket : Type := mk_socket {
  so_type : filehandle_type; so_flags : Z; so_status : sock_status; st_flags : Z; so_listener : Z;
  rx_buf_1 : Z; rx_len_1 : Z; rx_buf_2 : Z; rx_len_2 : Z; move_status : Z; lst_state : listen_status
}.
#[export] Instance eta_socket : Eta socket := fun k =>
  mk_socket (so_type k) (so_flags k) (so_status k) (st_flags k) (so_listener k) (rx_buf_1 k) (rx_len_1 k) (rx_buf_2 k) (rx_len_2 k)
    (move_status k) (lst_state k).

(** The sockets, the low level library, the epoll state, and the memory that the process shares with the fast path. *)
Record sstate : Type := mk_sstate { socks : Z -> socket; s_lib : lib; s_es : Sockepoll.est; s_mem : Z -> Z; s_freed : gset Z }.
#[export] Instance eta_sstate : Eta sstate := fun s => mk_sstate (socks s) (s_lib s) (s_es s) (s_mem s) (s_freed s).

Implicit Types (s : sstate) (x : Z) (k : socket).

Definition set_sock s x k : sstate := s <| socks := <[x := k]> (socks s) |>.
Definition rx_closed k : bool := negb (Z.land (st_flags k) CSTF_RXCLOSED =? 0).
Definition nonblock k : bool := Z.land (so_flags k) SOF_NONBLOCK =? SOF_NONBLOCK.

Definition epoll_set s x (evs : Z) : outcome sstate :=
  t ← Sockepoll.flextcp_epoll_set (S (size (Sockepoll.es_live (s_es s)))) (s_es s) x evs;
  Done (s <| s_es := t |>).
Definition epoll_clear s x (evs : Z) : sstate := s <| s_es := Sockepoll.flextcp_epoll_clear (s_es s) x evs |>.

Section Sockets.

(** Bounds for the loops of the low level library; what other processes and threads do before a
    poll. *)
Context (fuel : nat) (others : sstate -> sstate).

(** ** Events of the low level library *)

Definition ev_listen_open s x (stat : Z) : outcome sstate :=
  let k := socks s x in
  assert_ (bool_decide (so_type k = SOCK_LISTENER));;
  assert_ (bool_decide (lst_state k = SOL_OPENING));;
  Done (set_sock s x (k <| lst_state := if stat =? 0 then SOL_OPEN else SOL_FAILED |>)).

Definition ev_listen_newconn s x : outcome sstate :=
  assert_ (bool_decide (so_type (socks s x) = SOCK_LISTENER));;
  epoll_set s x Sockepoll.EPOLLIN.

(** The end of [ev_listen_accept] and [ev_conn_open]. *)
Definition connected s x (stat : Z) : outcome sstate :=
  if stat =? 0 then epoll_set (set_sock s x ((socks s x) <| so_status := SOC_CONNECTED |>)) x Sockepoll.EPOLLOUT
  else epoll_set (set_sock s x ((socks s x) <| so_status := SOC_FAILED |>)) x Sockepoll.EPOLLERR.

Definition ev_listen_accept s x (stat : Z) : outcome sstate :=
  let k := socks s x in
  assert_ (bool_decide (so_type k = SOCK_CONNECTION));;
  assert_ (bool_decide (so_status k = SOC_CONNECTING));;
  let sl := so_listener k in
  assert_ (negb (sl =? NULL));;
  s ← epoll_set s sl Sockepoll.EPOLLIN;
  connected s x stat.

Definition ev_conn_open s x (stat : Z) : outcome sstate :=
  let k := socks s x in
  assert_ (bool_decide (so_type k = SOCK_CONNECTION));;
  assert_ (bool_decide (so_status k = SOC_CONNECTING));;
  connected s x stat.

(** The pieces with [len] more bytes at [buf]; [Aborted] for a third piece. *)
Definition add_piece k (buf len : Z) : outcome socket :=
  if rx_len_1 k =? 0 then Done (k <| rx_len_1 := len |> <| rx_buf_1 := buf |> <| rx_len_2 := 0 |>)
  else if (rx_len_2 k =? 0) && (buf =? rx_buf_1 k + rx_len_1 k) then Done (k <| rx_len_1 := rx_len_1 k + len |>)
  else if buf =? rx_buf_2 k + rx_len_2 k then Done (k <| rx_len_2 := rx_len_2 k + len |>)
  else if negb (rx_len_2 k =? 0) then Aborted
  else Done (k <| rx_len_2 := len |> <| rx_buf_2 := buf |>).

Definition ev_conn_received s x (buf len : Z) : outcome sstate :=
  let k := socks s x in
  if bool_decide (so_status k = SOC_CLOSED) then Done s
  else
    assert_ (bool_decide (so_type k = SOCK_CONNECTION));;
    assert_ (bool_decide (so_status k = SOC_CONNECTED));;
    k ← add_piece k buf len;
    epoll_set (set_sock s x k) x Sockepoll.EPOLLIN.

Definition ev_conn_sendbuf s x : outcome sstate :=
  let k := socks s x in
  assert_ (bool_decide (so_type k = SOCK_CONNECTION));;
  assert_ (bool_decide (so_status k = SOC_CONNECTED));;
  epoll_set s x Sockepoll.EPOLLOUT.

Definition ev_conn_moved s x (stat : Z) : outcome sstate :=
  let k := socks s x in
  assert_ (bool_decide (so_type k = SOCK_CONNECTION));;
  assert_ (bool_decide (so_status k = SOC_CONNECTED));;
  Done (set_sock s x (k <| move_status := stat |>)).

(** A request that cannot be sent is lost. *)
Definition flextcp_sockclose_finish s x : outcome sstate :=
  '(_, l) ← flextcp_connection_close fuel (s_lib s) x;
  Done (s <| s_lib := l |>).

Definition connected_or_closed k : bool := bool_decide (so_status k = SOC_CONNECTED) || bool_decide (so_status k = SOC_CLOSED).

Definition ev_conn_rxclosed s x : outcome sstate :=
  let k := socks s x in
  assert_ (bool_decide (so_type k = SOCK_CONNECTION));;
  assert_ (connected_or_closed k);;
  let s := set_sock s x (k <| st_flags := Z.lor (st_flags k) CSTF_RXCLOSED |>) in
  s ← epoll_set s x (Z.lor Sockepoll.EPOLLIN Sockepoll.EPOLLRDHUP);
  if bool_decide (so_status k = SOC_CLOSED) && negb (Z.land (st_flags (socks s x)) CSTF_TXCLOSED_ACK =? 0)
  then flextcp_sockclose_finish s x else Done s.

Definition ev_conn_txclosed s x : outcome sstate :=
  let k := socks s x in
  assert_ (bool_decide (so_type k = SOCK_CONNECTION));;
  assert_ (connected_or_closed k);;
  let s := set_sock s x (k <| st_flags := Z.lor (st_flags k) CSTF_TXCLOSED_ACK |>) in
  if bool_decide (so_status k = SOC_CLOSED) && rx_closed (socks s x) then flextcp_sockclose_finish s x else Done s.

Definition ev_conn_closed s x : outcome sstate :=
  let k := socks s x in
  assert_ (bool_decide (so_type k = SOCK_CONNECTION));;
  assert_ (bool_decide (so_status k = SOC_CLOSED));;
  Done (s <| s_freed := {[x]} ∪ s_freed s |>).

Definition handle_event s (ev : flextcp_event) : outcome sstate :=
  match ev with
  | EV_LISTEN_OPEN stat x => ev_listen_open s x stat
  | EV_LISTEN_NEWCONN _ _ x => ev_listen_newconn s x
  | EV_LISTEN_ACCEPT stat x => ev_listen_accept s x stat
  | EV_CONN_OPEN stat x => ev_conn_open s x stat
  | EV_CONN_RECEIVED buf len x => ev_conn_received s x buf len
  | EV_CONN_SENDBUF x => ev_conn_sendbuf s x
  | EV_CONN_MOVED stat x => ev_conn_moved s x stat
  | EV_CONN_RXCLOSED x => ev_conn_rxclosed s x
  | EV_CONN_TXCLOSED x => ev_conn_txclosed s x
  | EV_CONN_CLOSED _ x => ev_conn_closed s x
  end.

(** The loop of [flextcp_sockctx_poll]. *)
Fixpoint handle_events s (evs : list flextcp_event) : outcome sstate :=
  match evs with [] => Done s | ev :: evs => s ← handle_event s ev; handle_events s evs end.

Definition flextcp_sockctx_poll s : outcome sstate :=
  let s := others s in
  '(evs, l) ← flextcp_context_poll fuel (s_lib s) 16;
  handle_events (s <| s_lib := l |>) evs.

(** ** Receiving *)

Inductive sock_error : Type := ENOTCONN | EAGAIN.

(** What [memcpy] reads. *)
Definition bytes (m : Z -> Z) (a n : Z) : list Z := map (fun i => m (a + i)) (seqZ 0 n).

(** Waiting for data: [false] if a call that must not block gives up.  A poll follows a wait from the second round on. *)
Fixpoint recv_wait (n : nat) s x : outcome (bool * sstate) :=
  match n with
  | O => NoFuel
  | S n =>
    if (rx_len_1 (socks s x) =? 0) && negb (rx_closed (socks s x)) then
      s ← flextcp_sockctx_poll (epoll_clear s x Sockepoll.EPOLLIN);
      let k := socks s x in
      if nonblock k && (rx_len_1 k =? 0) && negb (rx_closed k) then Done (false, s) else recv_wait n s x
    else Done (true, s)
  end.

(** The second piece becomes the first. *)
Definition next_piece k : socket := k <| rx_buf_1 := rx_buf_2 k |> <| rx_len_1 := rx_len_2 k |> <| rx_buf_2 := NULL |> <| rx_len_2 := 0 |>.

(** One element of the vector, of length [l]. *)
Definition recv_one (m : Z -> Z) k (l : Z) : list Z * socket :=
  let '(d, off, k) := if rx_len_1 k <=? l then (bytes m (rx_buf_1 k) (rx_len_1 k), rx_len_1 k, next_piece k) else ([], 0, k) in
  let len := Z.min (l - off) (rx_len_1 k) in
  (d ++ bytes m (rx_buf_1 k) len, k <| rx_buf_1 := rx_buf_1 k + len |> <| rx_len_1 := rx_len_1 k - len |>).

(** The loop over the vector: what is written to its elements. *)
Fixpoint recv_iov (m : Z -> Z) k (iov : list Z) : list (list Z) * socket :=
  match iov with
  | [] => ([], k)
  | l :: iov =>
    if 0 <? rx_len_1 k then let '(d, k) := recv_one m k l in let '(ds, k) := recv_iov m k iov in (d :: ds, k) else ([], k)
  end.

(** The end of both calls, after [ret] bytes have been copied. *)
Definition recv_end s x (ret : Z) : sstate :=
  if 0 <? ret then
    let k := socks s x in
    let s := if (rx_len_1 k =? 0) && negb (rx_closed k) then epoll_clear s x Sockepoll.EPOLLIN else s in
    s <| s_lib := snd (flextcp_connection_rx_done (s_lib s) x ret) |>
  else s.

Definition is_connected k : bool := bool_decide (so_type k = SOCK_CONNECTION) && bool_decide (so_status k = SOC_CONNECTED).

Definition tas_recvmsg (n : nat) s x (iov : list Z) : outcome ((sock_error + list (list Z)) * sstate) :=
  if negb (is_connected (socks s x)) then Done (inl ENOTCONN, s)
  else if fold_right Z.add 0 iov =? 0 then Done (inr [], s)
  else
    '(ok, s) ← recv_wait n s x;
    if negb ok then Done (inl EAGAIN, s)
    else
      let '(ds, k) := recv_iov (s_mem s) (socks s x) iov in
      Done (inr ds, recv_end (set_sock s x k) x (Z.of_nat (length (concat ds)))).

Definition recv_simple (n : nat) s x (len : Z) : outcome ((sock_error + list Z) * sstate) :=
  if negb (is_connected (socks s x)) then Done (inl ENOTCONN, s)
  else if len =? 0 then Done (inr [], s)
  else
    '(ok, s) ← recv_wait n s x;
    if negb ok then Done (inl EAGAIN, s)
    else
      let k := socks s x in
      let '(d, off, k) := if rx_len_1 k <=? len then (bytes (s_mem s) (rx_buf_1 k) (rx_len_1 k), rx_len_1 k, next_piece k) else ([], 0, k) in
      let len_2 := Z.min (rx_len_1 k) (len - off) in
      let d := d ++ bytes (s_mem s) (rx_buf_1 k) len_2 in
      let k := k <| rx_buf_1 := rx_buf_1 k + len_2 |> <| rx_len_1 := rx_len_1 k - len_2 |> in
      Done (inr d, recv_end (set_sock s x k) x (Z.of_nat (length d))).

(** ** Sending *)

(** [memcpy] of bytes to an address. *)
Definition write_bytes (m : Z -> Z) (a : Z) (l : list Z) : Z -> Z :=
  fun i => if (a <=? i) && (i <? a + Z.of_nat (length l)) then nth (Z.to_nat (i - a)) l 0 else m i.

Definition split_write (m : Z -> Z) (src : list Z) (buf_1 len_1 buf_2 len_2 off : Z) : outcome (Z -> Z) :=
  let len := Z.of_nat (length src) in
  assert_ (len + off <=? len_1 + len_2);;
  if off + len <=? len_1 then Done (write_bytes m (buf_1 + off) src)
  else if len_1 <=? off then Done (write_bytes m (buf_2 + (off - len_1)) src)
  else
    let l := Z.to_nat (len_1 - off) in
    Done (write_bytes (write_bytes m (buf_1 + off) (take l src)) buf_2 (drop l src)).

(** The loop over the vector, with [len] bytes of room left from offset [off] on. *)
Fixpoint send_iov (m : Z -> Z) (iov : list (list Z)) (buf_1 len_1 buf_2 len_2 len off : Z) : outcome (Z -> Z) :=
  match iov with
  | [] => Done m
  | d :: iov =>
    if 0 <? len then
      let l := Z.min len (Z.of_nat (length d)) in
      m ← split_write m (take (Z.to_nat l) d) buf_1 len_1 buf_2 len_2 off;
      send_iov m iov buf_1 len_1 buf_2 len_2 (len - l) (off + l)
    else Done m
  end.

(** Allocating room in the transmit buffer: [None] if a call that must not block gives up. *)
Fixpoint send_alloc (n : nat) s x (len : Z) : outcome (option (Z * Z * Z * Z) * sstate) :=
  match n with
  | O => NoFuel
  | S n =>
    s ← flextcp_sockctx_poll s;
    match flextcp_connection_tx_alloc2 (s_lib s) x len with
    | (None, _) => Aborted
    | (Some (ret, b1, l1, b2), l) =>
      let s := s <| s_lib := l |> in
      if negb (ret =? 0) then Done (Some (ret, b1, l1, b2), s)
      else if nonblock (socks s x) then Done (None, s)
      else send_alloc n s x len
    end
  end.

Fixpoint send_out (n : nat) s x (len : Z) : outcome sstate :=
  match n with
  | O => NoFuel
  | S n =>
    let '(ok, l) := flextcp_connection_tx_send (s_lib s) x len in
    let s := s <| s_lib := l |> in
    if ok : bool then Done s else s ← flextcp_sockctx_poll s; send_out n s x len
  end.

(** Both calls that send [len] bytes; [copy] writes as many as there is room for into the two parts of the transmit buffer.
    [flextcp_connection_tx_possible] is always 0. *)
Definition send_with (n : nat) s x (len : Z) (copy : (Z -> Z) -> Z -> Z -> Z -> Z -> outcome (Z -> Z)) : outcome ((sock_error + Z) * sstate) :=
  let k := socks s x in
  if negb (is_connected k) || (Z.land (st_flags k) CSTF_TXCLOSED =? CSTF_TXCLOSED) then Done (inl ENOTCONN, s)
  else if len =? 0 then Done (inr 0, s)
  else
    match flextcp_connection_tx_alloc2 (s_lib s) x len with
    | (None, _) => Aborted
    | (Some (ret, b1, l1, b2), l) =>
      let s := s <| s_lib := l |> in
      '(r, s) ← (if ret =? 0 then send_alloc n s x len else Done (Some (ret, b1, l1, b2), s));
      match r with
      | None => Done (inl EAGAIN, s)
      | Some (ret, b1, l1, b2) =>
        m ← copy (s_mem s) ret b1 l1 b2;
        s ← send_out n (s <| s_mem := m |>) x ret;
        Done (inr ret, s)
      end
    end.

Definition tas_sendmsg (n : nat) s x (iov : list (list Z)) : outcome ((sock_error + Z) * sstate) :=
  send_with n s x (Z.of_nat (length (concat iov))) (fun m ret b1 l1 b2 => send_iov m iov b1 l1 b2 (ret - l1) ret 0).

Definition send_simple (n : nat) s x (buf : list Z) : outcome ((sock_error + Z) * sstate) :=
  send_with n s x (Z.of_nat (length buf)) (fun m ret b1 l1 b2 =>
    Done (write_bytes (write_bytes m b1 (take (Z.to_nat l1) buf)) b2 (take (Z.to_nat (ret - l1)) (drop (Z.to_nat l1) buf)))).

(** ** Closing *)

(** [tas_sock_close] and [conn_close] for a connection without references. *)
Definition sock_close s x : outcome sstate :=
  t ← Sockepoll.flextcp_epoll_sockclose (S (size (Sockepoll.es_live (s_es s)))) (s_es s) x;
  let k := (socks s x) <| so_status := SOC_CLOSED |> in
  let s := set_sock (s <| s_es := t |>) x k in
  if negb (Z.land (st_flags k) CSTF_TXCLOSED_ACK =? 0) && rx_closed k then flextcp_sockclose_finish s x
  else if Z.land (st_flags k) CSTF_TXCLOSED =? 0 then
    '(ok, l) ← flextcp_connection_tx_close (s_lib s) x;
    if negb ok then Aborted
    else Done (set_sock (s <| s_lib := l |>) x (k <| st_flags := Z.lor (st_flags k) CSTF_TXCLOSED |>))
  else Done s.

End Sockets.
End Sockstream.
