(* ===== verification/SockstreamSpec.v ===== *)
(** * Proofs about the byte streams of a socket

    The pieces of the receive buffer that a socket keeps, and what a call copies out of them and
    into the transmit buffer. *)
From S2P Require Import Prelude Chain Memif Libtas Sockepoll SockepollSpec SockepollProps Sockstream.
From stdpp Require Import gmap.
#[local] Open Scope Z_scope.

Module SockstreamSpec.
Import Libtas Sockstream.

Implicit Types (s : sstate) (x : Z) (k : socket) (T m : Z -> Z).

(** Positions in a circular buffer of [L] bytes. *)
Lemma mod_near L r a : 0 < L -> 0 <= a <= L -> (r + a) mod L = if decide (r mod L + a < L) then r mod L + a else r mod L + a - L.
Proof.
  intros HL Ha. pose proof (Z.mod_pos_bound r L HL). rewrite <-Z.add_mod_idemp_l by lia. case_decide.
  - apply Z.mod_small. lia.
  - rewrite <-(Z.mod_add _ (-1)) by lia. apply Z.mod_small. lia.
Qed.

(** The [n] bytes of the stream [T] from position [r] on. *)
Definition stream T (r n : Z) : list Z := map T (seqZ r n).

Lemma stream_length T r n : length (stream T r n) = Z.to_nat n.
Proof. unfold stream. by rewrite length_map, length_seqZ. Qed.

Lemma stream_app T r a b : 0 <= a -> 0 <= b -> stream T r (a + b) = stream T r a ++ stream T (r + a) b.
Proof. intros Ha Hb. unfold stream. rewrite seqZ_app by done. apply map_app. Qed.

Lemma stream_take T r n a : 0 <= a -> take (Z.to_nat a) (stream T r n) = stream T r (Z.min a n).
Proof.
  intros Ha. destruct (Z.le_gt_cases a n) as [Hn|Hn].
  - replace n with (a + (n - a)) at 1 by lia. rewrite stream_app by lia. rewrite take_app_length'; [|by rewrite stream_length]. by rewrite Z.min_l by lia.
  - rewrite take_ge; [by rewrite Z.min_r by lia|]. rewrite stream_length. lia.
Qed.

Lemma stream_drop T r n a : 0 <= a -> drop (Z.to_nat a) (stream T r n) = stream T (r + Z.min a n) (n - Z.min a n).
Proof.
  intros Ha. destruct (Z.le_gt_cases a n) as [Hn|Hn].
  - rewrite Z.min_l by lia. replace n with (a + (n - a)) at 1 by lia. rewrite stream_app by lia. rewrite drop_app_length'; [done|by rewrite stream_length].
  - rewrite drop_ge; [|rewrite stream_length; lia]. unfold stream. by rewrite seqZ_nil by lia.
Qed.

Lemma stream_nil T r n : n <= 0 -> stream T r n = [].
Proof. intros Hn. unfold stream. by rewrite seqZ_nil. Qed.

(** Memory that holds the stream from [r] on in the circular buffer at [base]. *)
Definition holds m T (base L r n : Z) : Prop := forall i, 0 <= i < n -> m (base + (r + i) mod L) = T (r + i).

Lemma bytes_stream m T a r n : (forall i, 0 <= i < n -> m (a + i) = T (r + i)) -> bytes m a n = stream T r n.
Proof.
  intros H. unfold bytes, stream. apply list_eq. intros i. rewrite !list_lookup_fmap.
  destruct (decide (Z.of_nat i < n)) as [Hi|Hi].
  - rewrite !lookup_seqZ_lt by lia. cbn. f_equal. apply H. lia.
  - by rewrite !lookup_seqZ_ge by lia.
Qed.

(** ** The pieces *)

(** The pieces of a socket are the [n] bytes from position [r] on. *)
Record rx_pieces (base L : Z) k (r n : Z) : Prop := {
  rp_none : n = 0 -> rx_len_1 k = 0 /\ rx_len_2 k = 0;
  rp_some : 0 < n -> rx_buf_1 k = base + r mod L /\ rx_len_1 k = Z.min n (L - r mod L) /\ rx_len_2 k = n - rx_len_1 k /\
    (0 < rx_len_2 k -> rx_buf_2 k = base)
}.

(** Everything but the pieces. *)
Definition pieces_only k k' : Prop := so_type k' = so_type k /\ so_flags k' = so_flags k /\ so_status k' = so_status k /\
  st_flags k' = st_flags k /\ so_listener k' = so_listener k /\ move_status k' = move_status k /\ lst_state k' = lst_state k.
#[export] Instance pieces_only_preorder : PreOrder pieces_only.
Proof. split; [by repeat split|]. unfold pieces_only. intros a b c H1 H2. naive_solver congruence. Qed.

Lemma add_piece_ok base L k r n len : 0 < L -> 0 <= n -> 0 < len -> (r + n) mod L + len <= L -> n + len <= L -> rx_pieces base L k r n ->
  exists k', add_piece k (base + (r + n) mod L) len = Done k' /\ rx_pieces base L k' r (n + len) /\ pieces_only k k'.
Proof.
  intros HL Hn Hlen Hend Hfit [H0 H1]. pose proof (Z.mod_pos_bound r L HL). pose proof (mod_near L r n HL ltac:(lia)) as Hm. unfold add_piece.
  destruct (decide (n = 0)) as [->|Hne].
  - destruct (H0 eq_refl) as [E1 E2]. rewrite E1. cbn [Z.eqb]. eexists. split; [done|]. split; [|done].
    rewrite Z.add_0_r in *. split; [lia|]. intros _. cbn. split; [done|]. split; [lia|]. split; lia.
  - destruct (H1 ltac:(lia)) as (E1 & E2 & E3 & E4). rewrite (proj2 (Z.eqb_neq (rx_len_1 k) 0)) by lia.
    destruct ((rx_len_2 k =? 0) && (base + (r + n) mod L =? rx_buf_1 k + rx_len_1 k)) eqn:C1.
    { apply andb_prop in C1 as [C1 C2]. apply Z.eqb_eq in C1, C2. case_decide; [|lia].
      eexists. split; [done|]. split; [|done]. split; [lia|]. intros _. cbn. split; [done|]. split; [lia|]. split; [lia|done]. }
    assert (Hfull : L <= r mod L + n).
    { destruct (Z.le_gt_cases L (r mod L + n)); [done|]. rewrite decide_True in Hm by lia. rewrite Hm in C1.
      rewrite (proj2 (Z.eqb_eq (rx_len_2 k) 0)), (proj2 (Z.eqb_eq (base + _) _)) in C1 by lia. done. }
    rewrite decide_False in Hm by lia.
    destruct (base + (r + n) mod L =? rx_buf_2 k + rx_len_2 k) eqn:C2; [apply Z.eqb_eq in C2|apply Z.eqb_neq in C2].
    + eexists. split; [done|]. split; [|done]. split; [lia|]. intros _. cbn. split; [done|]. split; [lia|]. split; [lia|].
      intros _. destruct (Z.lt_ge_cases 0 (rx_len_2 k)); [by apply E4|lia].
    + assert (E2' : rx_len_2 k = 0). { destruct (Z.lt_ge_cases 0 (rx_len_2 k)); [|lia]. rewrite E4 in C2 by done. lia. }
      rewrite E2'. cbn [negb Z.eqb]. eexists. split; [done|]. split; [|done]. split; [lia|]. intros _. cbn. split; [done|]. split; [lia|].
      split; lia.
Qed.

(** One element of the vector gets the first bytes of the stream. *)
Lemma recv_one_ok m T base L k r n l : 0 < L -> 0 <= n <= L -> 0 <= l -> rx_pieces base L k r n -> holds m T base L r n ->
  exists k', recv_one m k l = (take (Z.to_nat l) (stream T r n), k') /\ rx_pieces base L k' (r + Z.min l n) (n - Z.min l n) /\ pieces_only k k'.
Proof.
  intros HL Hn Hl [H0 H1] Hm. pose proof (Z.mod_pos_bound r L HL) as Hr. unfold recv_one. rewrite stream_take by done.
  destruct (decide (n = 0)) as [->|Hne].
  { destruct (H0 eq_refl) as [E1 E2]. rewrite E1, (proj2 (Z.leb_le 0 l)) by done. cbn -[bytes]. rewrite E2. rewrite !(Z.min_r _ 0) by lia.
    eexists. split; [by rewrite stream_nil by lia|]. split; [|done]. split; [done|lia]. }
  destruct (H1 ltac:(lia)) as (E1 & E2 & E3 & E4).
  assert (B1 : forall a, 0 <= a <= rx_len_1 k -> bytes m (rx_buf_1 k) a = stream T r a).
  { intros a Ha. apply bytes_stream. intros i Hi. rewrite <-Hm by lia. f_equal. rewrite E1, mod_near, decide_True by lia. lia. }
  destruct (rx_len_1 k <=? l) eqn:Hc; [apply Z.leb_le in Hc|apply Z.leb_gt in Hc].
  - cbn -[bytes]. remember (Z.min (l - rx_len_1 k) (rx_len_2 k)) as len eqn:Elen. rewrite B1 by lia.
    assert (B2 : bytes m (rx_buf_2 k) len = stream T (r + rx_len_1 k) len).
    { apply bytes_stream. intros i Hi. rewrite <-Z.add_assoc, <-Hm by lia. f_equal. rewrite E4, mod_near, decide_False by lia. lia. }
    rewrite B2, <-stream_app by lia. eexists. split; [f_equal; f_equal; lia|]. split; [|done].
    replace (Z.min l n) with (rx_len_1 k + len) by lia. split; cbn; [lia|]. intros Hpos. rewrite mod_near, decide_False by lia. rewrite E4 by lia.
    split; [lia|]. split; [lia|]. split; lia.
  - cbn -[bytes]. rewrite Z.sub_0_r, !(Z.min_l l) by lia. rewrite B1 by lia. eexists. split; [done|]. split; [|done].
    split; cbn; [lia|]. intros Hpos. rewrite mod_near, decide_True by lia. split; [lia|]. split; [lia|]. split; [lia|done].
Qed.

(** The data spread over a vector. *)
Fixpoint chop (iov : list Z) (d : list Z) : list (list Z) :=
  match iov with
  | [] => []
  | l :: iov => match d with [] => [] | _ => take (Z.to_nat l) d :: chop iov (drop (Z.to_nat l) d) end
  end.

Definition total (iov : list Z) : Z := fold_right Z.add 0 iov.

Lemma total_nonneg iov : Forall (fun l => 0 <= l) iov -> 0 <= total iov.
Proof. unfold total. induction 1; cbn; lia. Qed.

Lemma chop_concat : forall iov d, Forall (fun l => 0 <= l) iov -> concat (chop iov d) = take (Z.to_nat (total iov)) d.
Proof.
  induction iov as [|l iov IH]; intros d Hl; [done|]. apply Forall_cons in Hl as [Hl Hiov]. cbn.
  destruct d as [|c d]; [by rewrite take_nil|]. set (d' := c :: d). cbn [concat]. rewrite IH by done. clearbody d'.
  pose proof (total_nonneg iov Hiov). fold (total iov). rewrite Z2Nat.inj_add by lia. by rewrite <-take_take_drop.
Qed.

Lemma recv_iov_ok T base L m : 0 < L -> forall iov k r n, Forall (fun l => 0 <= l) iov -> 0 <= n <= L -> rx_pieces base L k r n ->
  holds m T base L r n -> exists k', recv_iov m k iov = (chop iov (stream T r n), k') /\
    rx_pieces base L k' (r + Z.min (total iov) n) (n - Z.min (total iov) n) /\ pieces_only k k'.
Proof.
  intros HL. induction iov as [|l iov IH]; intros k r n Hl Hn Hp Hm.
  { exists k. split; [done|]. split; [|done]. cbn. rewrite Z.min_l by lia. by rewrite Z.add_0_r, Z.sub_0_r. }
  apply Forall_cons in Hl as [Hl Hiov]. pose proof (total_nonneg iov Hiov) as Ht.
  cbn [recv_iov chop]. assert (Hpos : (0 <? rx_len_1 k) = (0 <? n)).
  { destruct Hp as [H0 H1]. pose proof (Z.mod_pos_bound r L HL). destruct (decide (n = 0)) as [->|]; [by rewrite (proj1 (H0 eq_refl))|].
    destruct (H1 ltac:(lia)) as (_ & E & _). apply eq_true_iff_eq. rewrite !Z.ltb_lt. lia. }
  rewrite Hpos. destruct (0 <? n) eqn:Hc; [apply Z.ltb_lt in Hc|apply Z.ltb_ge in Hc].
  - destruct (recv_one_ok m T base L k r n l HL Hn Hl Hp Hm) as (k1 & -> & Hp1 & Ho1).
    destruct (IH k1 (r + Z.min l n) (n - Z.min l n) Hiov ltac:(lia) Hp1) as (k2 & E2 & Hp2 & Ho2).
    { intros i Hi. rewrite <-Z.add_assoc. apply Hm. lia. }
    rewrite E2. exists k2. split.
    + rewrite <-stream_drop by done. destruct (stream T r n) eqn:Es; [|done]. apply (f_equal length) in Es. rewrite stream_length in Es. cbn in Es. lia.
    + split; [|by etrans]. cbn. fold (total iov). replace (Z.min (l + total iov) n) with (Z.min l n + Z.min (total iov) (n - Z.min l n)) by lia.
      by rewrite Z.add_assoc, Z.sub_add_distr.
  - exists k. rewrite stream_nil by lia. split; [done|]. split; [|done]. rewrite Z.min_r by (cbn; fold (total iov); lia).
    replace n with 0 by lia. replace n with 0 in Hp by lia. by rewrite Z.add_0_r.
Qed.

End SockstreamSpec.
