(* ===== verification/SockstreamProps.v ===== *)
(** * Properties of the byte streams of a socket

    A connected socket on top of the low level library: what an application receives is the stream of
    the peer, an unread byte is an event, and what it sends is in the transmit buffer. *)
From S2P Require Import Prelude Chain Memif KernelIf Libtas LibtasPoll Sockepoll SockepollSpec SockepollProps Sockstream SockstreamSpec.
From stdpp Require Import gmap.
#[local] Open Scope Z_scope.

Module SockstreamProps.
Import KernelIf Libtas LibtasPoll Sockstream SockstreamSpec.

Implicit Types (s : sstate) (x : Z) (k : socket) (T m : Z -> Z).

Section Receive.
Context (fuel : nat) (T : Z -> Z) (x base L : Z) (Hfuel : (7 <= fuel)%nat) (HL : 0 < L < 1073741824).

Definition readable s : bool := Z.testbit (Sockepoll.ep_events (s_es s) x) 0.

(** The application has read [r] bytes of the stream, and [n] more bytes are in the receive buffer. *)
Record sinv s (r n : Z) : Prop := {
  si_conn : is_connected (socks s x) = true;
  si_n : 0 <= r /\ 0 <= n <= L;
  si_pieces : rx_pieces base L (socks s x) r n;
  si_lib : let k := l_conns (s_lib s) x in rxb_base k = base /\ rxb_len k = L /\ rxb_head k = (r + n) mod L /\ rxb_used k = n;
  si_mem : holds (s_mem s) T base L r n;
  si_epoll : SockepollSpec.epoll_inv (s_es s);
  si_ctx : ctx_inv fuel x (s_lib s);
  si_event : 0 < n \/ rx_closed (socks s x) = true -> readable s = true
}.

(** What [set_sock] and the calls on the event polling leave alone. *)
Lemma epoll_set_ok s evts : SockepollSpec.epoll_inv (s_es s) -> in32 evts -> exists t, epoll_set s x evts = Done (s <| s_es := t |>) /\
  SockepollSpec.epoll_inv t /\ forall y, Sockepoll.ep_events t y =
    if decide (y = x) then Z.lor (Sockepoll.ep_events (s_es s) x) evts else Sockepoll.ep_events (s_es s) y.
Proof.
  intros Hi He. unfold epoll_set.
  destruct (SockepollProps.flextcp_epoll_set_ok (s_es s) x evts (S (size (Sockepoll.es_live (s_es s)))) Hi He) as (t & -> & Ht); [lia|].
  by exists t.
Qed.

(** ** Data arrives *)

(** One event. *)
Lemma ev_conn_received_ok s r n len : is_connected (socks s x) = true -> 0 <= n -> 0 < len -> (r + n) mod L + len <= L -> n + len <= L ->
  rx_pieces base L (socks s x) r n -> SockepollSpec.epoll_inv (s_es s) ->
  exists s', ev_conn_received s x (base + (r + n) mod L) len = Done s' /\ rx_pieces base L (socks s' x) r (n + len) /\
    pieces_only (socks s x) (socks s' x) /\ s_lib s' = s_lib s /\ s_mem s' = s_mem s /\ SockepollSpec.epoll_inv (s_es s') /\ readable s' = true.
Proof.
  intros Hc Hn Hlen Hend Hfit Hp Hi. unfold ev_conn_received. apply andb_prop in Hc as [Ht Hs]. rewrite Ht, Hs. apply bool_decide_eq_true in Hs.
  rewrite bool_decide_false by (by rewrite Hs). cbn [assert_ mbind outcome_bind].
  destruct (add_piece_ok base L (socks s x) r n len) as (k' & -> & Hp' & Ho); [lia..|done|]. cbn [mbind outcome_bind].
  destruct (epoll_set_ok (set_sock s x k') Sockepoll.EPOLLIN Hi) as (t & -> & Ht' & Hev); [done|].
  eexists. split; [done|]. assert (Ek : socks ((set_sock s x k') <| s_es := t |>) x = k') by apply fn_lookup_insert.
  rewrite Ek. split; [done|]. split; [done|]. split; [done|]. split; [done|]. split; [done|].
  unfold readable. cbn -[Z.testbit]. rewrite Hev, decide_True, Z.lor_spec by done. apply orb_true_r.
Qed.

Lemma is_connected_only k k' : pieces_only k k' -> is_connected k' = is_connected k.
Proof. intros (E1 & _ & E2 & _). unfold is_connected. by rewrite E1, E2. Qed.
Lemma rx_closed_only k k' : pieces_only k k' -> rx_closed k' = rx_closed k.
Proof. intros (_ & _ & _ & E & _). unfold rx_closed. by rewrite E. Qed.

(** The events of one update of the fast path. *)
Lemma update_events_ok s r n len c : is_connected (socks s x) = true -> 0 <= n -> 0 <= len -> n + len <= L ->
  rx_pieces base L (socks s x) r n -> SockepollSpec.epoll_inv (s_es s) -> rx_side c = (base, L, (r + n) mod L, n) ->
  (exists s', handle_events fuel s (fst (update_rx c x len)) = Done s' /\ rx_pieces base L (socks s' x) r (n + len) /\
    pieces_only (socks s x) (socks s' x) /\ s_lib s' = s_lib s /\ s_mem s' = s_mem s /\ SockepollSpec.epoll_inv (s_es s') /\
    (0 < len \/ readable s = true -> readable s' = true)) /\ rx_side (snd (update_rx c x len)) = (base, L, (r + (n + len)) mod L, n + len).
Proof.
  intros Hc Hn Hlen Hfit Hp Hi [= Eb El Eh Eu]. unfold update_rx. rewrite Eb, El, Eh.
  pose proof (Z.mod_pos_bound (r + n) L ltac:(lia)) as Hb. pose proof (mod_near L (r + n) len ltac:(lia) ltac:(lia)) as Hnew.
  rewrite <-Z.add_assoc in Hnew. destruct (0 <? len) eqn:Hl; [apply Z.ltb_lt in Hl|apply Z.ltb_ge in Hl].
  2: { assert (len = 0) as -> by lia. rewrite Z.add_0_r in *. cbn [fst snd handle_events]. split.
       - exists s. do 6 (split; [done|]). by intros [?|?]; [lia|].
       - unfold rx_side. by rewrite Eb, El, Eh, Eu. }
  rewrite !(u32_small ((r + n) mod L + len)) by lia. cbn [fst snd]. split.
  2: { unfold rx_side. cbn. rewrite ?Eb, ?El, ?Eh, ?Eu, Hnew, ?(u32_small ((r + n) mod L + len)), (u32_small (n + len)) by lia.
       destruct (L <=? (r + n) mod L + len) eqn:E; [apply Z.leb_le in E|apply Z.leb_gt in E].
       - by rewrite decide_False, u32_small by lia.
       - by rewrite decide_True by lia. }
  destruct (L <? (r + n) mod L + len) eqn:E; [apply Z.ltb_lt in E|apply Z.ltb_ge in E]; cbn [handle_events handle_event].
  - rewrite (u32_small (L - _)), (u32_small (len - _)) by lia. rewrite decide_False in Hnew by lia.
    destruct (ev_conn_received_ok s r n (L - (r + n) mod L)) as (s2 & -> & P2 & O2 & El2 & Em2 & Hi2 & _); [done|lia|lia|lia|lia|done|done|].
    cbn [mbind outcome_bind].
    destruct (ev_conn_received_ok s2 r (n + (L - (r + n) mod L)) (len - (L - (r + n) mod L))) as (s3 & E3 & P3 & O3 & El3 & Em3 & Hi3 & R3);
      [by rewrite (is_connected_only _ _ O2)|lia|lia| |lia|done|done|].
    { rewrite Z.add_assoc, mod_near, decide_False by lia. lia. }
    rewrite Z.add_assoc, mod_near, decide_False in E3 by lia. replace (base + ((r + n) mod L + (L - (r + n) mod L) - L)) with base in E3 by lia.
    rewrite E3. cbn [mbind outcome_bind]. exists s3. split; [done|]. replace (n + len) with (n + (L - (r + n) mod L) + (len - (L - (r + n) mod L))) by lia.
    split; [done|]. split; [by etrans|]. split; [congruence|]. split; [congruence|]. done.
  - destruct (ev_conn_received_ok s r n len) as (s2 & -> & P2 & O2 & El2 & Em2 & Hi2 & R2); [done|lia|lia|lia|lia|done|done|].
    cbn [mbind outcome_bind]. by exists s2.
Qed.

Lemma handle_events_app evs evs' : forall s, handle_events fuel s (evs ++ evs') = (s ← handle_events fuel s evs; handle_events fuel s evs').
Proof.
  induction evs as [|ev evs IH]; intros s; [done|]. cbn [app handle_events]. destruct (handle_event fuel s ev); [|done..]. cbn [mbind outcome_bind]. apply IH.
Qed.

(** The events of several. *)
Lemma updates_events_ok lens : forall s r n c, is_connected (socks s x) = true -> 0 <= n -> Forall (fun l => 0 <= l) lens -> n + total lens <= L ->
  rx_pieces base L (socks s x) r n -> SockepollSpec.epoll_inv (s_es s) -> rx_side c = (base, L, (r + n) mod L, n) ->
  (exists s', handle_events fuel s (fst (rx_updates x c lens)) = Done s' /\ rx_pieces base L (socks s' x) r (n + total lens) /\
    pieces_only (socks s x) (socks s' x) /\ s_lib s' = s_lib s /\ s_mem s' = s_mem s /\ SockepollSpec.epoll_inv (s_es s') /\
    (0 < total lens \/ readable s = true -> readable s' = true)) /\
  rx_side (snd (rx_updates x c lens)) = (base, L, (r + (n + total lens)) mod L, n + total lens).
Proof.
  induction lens as [|len lens IH]; intros s r n c Hc Hn Hall Hfit Hp Hi Hside.
  { cbn in *. rewrite Z.add_0_r. split; [|done]. exists s. do 6 (split; [done|]). by intros [?|?]; [lia|]. }
  apply Forall_cons in Hall as [Hlen Hall]. pose proof (total_nonneg lens Hall). cbn [rx_updates total fold_right] in *. fold (total lens) in *.
  destruct (update_events_ok s r n len c Hc Hn Hlen ltac:(lia) Hp Hi Hside) as [(s1 & E1 & P1 & O1 & L1 & M1 & I1 & R1) Side1].
  destruct (update_rx c x len) as [e c1]. cbn [fst snd] in E1, Side1.
  destruct (IH s1 r (n + len) c1) as [(s2 & E2 & P2 & O2 & L2 & M2 & I2 & R2) Side2]; [by rewrite (is_connected_only _ _ O1)|lia|done|lia|done|done|done|].
  destruct (rx_updates x c1 lens) as [es c2]. cbn [fst snd] in *. rewrite <-Z.add_assoc in *. split; [|done].
  exists s2. rewrite handle_events_app, E1. cbn [mbind outcome_bind]. split; [done|]. split; [done|]. split; [by etrans|].
  split; [congruence|]. split; [congruence|]. split; [done|]. intros Hr. apply R2. destruct (decide (0 < total lens)); [by left|right]. apply R1.
  destruct Hr; [left; lia|by right].
Qed.

(** What the fast path and the other processes have done at a poll: [lens] bytes of the stream, for which there is room, are behind the [n]
    bytes of the receive buffer, and the updates about them are in a queue of the context. *)
Record placed (others : sstate -> sstate) s (r n : Z) (lens : list Z) : Prop := {
  pl_frame : socks (others s) = socks s /\ s_es (others s) = s_es s;
  pl_lib : l_conns (s_lib (others s)) = l_conns (s_lib s) /\ l_ctx (s_lib (others s)) = l_ctx (s_lib s);
  pl_updates : exists q, delivered x (s_lib (others s)) q lens;
  pl_few : (length lens <= 5)%nat;
  pl_fit : Forall (fun l => 0 <= l) lens /\ n + total lens <= L;
  pl_bytes : holds (s_mem (others s)) T base L r (n + total lens)
}.

Lemma ctx_inv_frame (l l' : lib) : l_conns l' = l_conns l -> l_ctx l' = l_ctx l -> ctx_inv fuel x l -> ctx_inv fuel x l'.
Proof. intros E1 E2 Hi. apply (ctx_inv_ext _ _ l); rewrite ?E1, ?E2; try done; [by intros y; auto|apply Hi]. Qed.

Lemma sock_poll_ok others s r n lens : sinv s r n -> placed others s r n lens ->
  exists s', flextcp_sockctx_poll fuel others s = Done s' /\ sinv s' r (n + total lens) /\ pieces_only (socks s x) (socks s' x) /\
    s_mem s' = s_mem (others s).
Proof.
  intros [Hc [Hr Hn] Hp (Eb & El & Eh & Eu) Hm Hi Hctx Hev] [[Fs Fe] [Fc Fx] [q Hd] Hfew [Hall Hfit] Hm']. unfold flextcp_sockctx_poll.
  set (s0 := others s) in *. assert (Hctx0 : ctx_inv fuel x (s_lib s0)) by by apply (ctx_inv_frame (s_lib s)).
  destruct (context_poll_ok fuel x (s_lib s0) q lens Hctx0 Hd Hfew Hfuel) as (l1 & -> & Hctx1 & Hside1). cbn [mbind outcome_bind]. rewrite Fc.
  pose proof (total_nonneg lens Hall).
  destruct (updates_events_ok lens (s0 <| s_lib := l1 |>) r n (l_conns (s_lib s) x)) as [(s' & -> & P & O & Els & Ems & I & R) Hside];
    try (cbn; by rewrite ?Fs, ?Fe); [lia|unfold rx_side; by rewrite Eb, El, Eh, Eu|].
  rewrite Fc, Hside in Hside1. cbn in O, Els, Ems. rewrite Fs in O. exists s'. split; [done|]. split; [|by split].
  split; rewrite ?Els, ?Ems; try done; [by rewrite (is_connected_only _ _ O)|lia|by injection Hside1|].
  rewrite (rx_closed_only _ _ O). intros Hdata. apply R. destruct (decide (0 < total lens)); [by left|right]. unfold readable. cbn. rewrite Fe. apply Hev.
  destruct Hdata; [left; lia|by right].
Qed.

(** ** The application reads *)

Lemma mark_bump_rx (l : lib) c y : let k := l_conns l y in let k' := l_conns (conn_mark_bump l c) y in
  rxb_base k' = rxb_base k /\ rxb_len k' = rxb_len k /\ rxb_head k' = rxb_head k /\ rxb_used k' = rxb_used k /\ rxb_bump k' = rxb_bump k.
Proof.
  unfold conn_mark_bump, set_conn, set_ctx. destruct (bump_pending _); [done|]. cbv zeta. unfold insert, fn_insert.
  destruct (negb _); cbn; repeat (case_decide; subst; cbn); done.
Qed.

Lemma sock_rx_done_ok (l : lib) t : let k := l_conns l x in 0 <= t <= rxb_used k -> rxb_used k < 4294967296 ->
  let k' := l_conns (snd (flextcp_connection_rx_done l x t)) x in
  rxb_base k' = rxb_base k /\ rxb_len k' = rxb_len k /\ rxb_head k' = rxb_head k /\ rxb_used k' = rxb_used k - t /\
  rxb_bump k' = u32 (rxb_bump k + t).
Proof.
  intros k Ht Hb. unfold flextcp_connection_rx_done. fold k. rewrite (proj2 (Z.ltb_ge _ _)) by lia. cbv zeta. cbn [snd].
  set (k1 := _ <| rxb_bump := _ |>). assert (Ek : l_conns (set_conn l x k1) x = k1) by apply fn_lookup_insert.
  assert (E1 : rxb_base k1 = rxb_base k /\ rxb_len k1 = rxb_len k /\ rxb_head k1 = rxb_head k /\ rxb_used k1 = rxb_used k - t /\
    rxb_bump k1 = u32 (rxb_bump k + t)) by (unfold k1; cbn; rewrite (u32_small (_ - t)) by lia; done).
  clearbody k1. destruct (_ <? rxb_bump k1); [|by rewrite Ek].
  destruct (mark_bump_rx (set_conn l x k1) x x) as (-> & -> & -> & -> & ->). by rewrite Ek.
Qed.

Lemma pieces_empty k r n : 0 <= n <= L -> rx_pieces base L k r n -> (rx_len_1 k =? 0) = (n =? 0).
Proof.
  intros Hn [H0 H1]. pose proof (Z.mod_pos_bound r L ltac:(lia)). apply eq_true_iff_eq. rewrite !Z.eqb_eq. split; [|intros ->; by apply H0].
  intros E. destruct (decide (n = 0)); [done|]. destruct (H1 ltac:(lia)) as (_ & E2 & _). lia.
Qed.

Lemma epoll_clear_other s : SockepollSpec.epoll_inv (s_es s) -> SockepollSpec.epoll_inv (s_es (epoll_clear s x Sockepoll.EPOLLIN)).
Proof. apply SockepollProps.flextcp_epoll_clear_ok. Qed.

Lemma recv_end_ok s r n t k' : sinv s r n -> 0 <= t <= n -> (t = 0 -> n = 0) -> rx_pieces base L k' (r + t) (n - t) -> pieces_only (socks s x) k' ->
  let s' := recv_end (set_sock s x k') x t in sinv s' (r + t) (n - t) /\ pieces_only (socks s x) (socks s' x) /\ s_mem s' = s_mem s /\
    (0 < t -> rxb_bump (l_conns (s_lib s') x) = u32 (rxb_bump (l_conns (s_lib s) x) + t)).
Proof.
  intros [Hc [Hr Hn] Hp (Eb & El & Eh & Eu) Hm Hi Hctx Hev] Ht Ht0 Hp' Ho s'. set (s1 := set_sock s x k') in *.
  assert (Ek : socks s1 x = k') by apply fn_lookup_insert.
  assert (Hm' : holds (s_mem s) T base L (r + t) (n - t)) by (intros i Hij; rewrite <-Z.add_assoc; apply Hm; lia).
  unfold s', recv_end. destruct (0 <? t) eqn:Hpos; [apply Z.ltb_lt in Hpos|apply Z.ltb_ge in Hpos].
  2: { assert (t = 0) as -> by lia. rewrite Ek. split; [|split; [done|split; [done|lia]]]. rewrite Z.add_0_r, Z.sub_0_r in *.
       split; rewrite ?Ek; try done; [by rewrite (is_connected_only _ _ Ho)|by rewrite (rx_closed_only _ _ Ho)]. }
  rewrite Ek, (pieces_empty k' (r + t) (n - t)), (rx_closed_only _ _ Ho) by (done || lia).
  destruct (sock_rx_done_ok (s_lib s) t) as (D1 & D2 & D3 & D4 & D5); [rewrite Eu; lia..|]. rewrite Eb in D1. rewrite El in D2. rewrite Eh in D3. rewrite Eu in D4.
  set (s2 := if (n - t =? 0) && negb (rx_closed (socks s x)) then epoll_clear s1 x Sockepoll.EPOLLIN else s1).
  assert (F2 : socks s2 = socks s1 /\ s_lib s2 = s_lib s /\ s_mem s2 = s_mem s /\ SockepollSpec.epoll_inv (s_es s2) /\
    (0 < n - t \/ rx_closed (socks s x) = true -> readable s2 = true)).
  { unfold s2. destruct ((n - t =? 0) && negb (rx_closed (socks s x))) eqn:E.
    - do 3 (split; [done|]). split; [by apply epoll_clear_other|]. apply andb_prop in E as [E1 E2]. apply Z.eqb_eq in E1.
      intros [?|Hcl]; [lia|]. by rewrite Hcl in E2.
    - do 3 (split; [done|]). split; [done|]. intros [?|?]; apply Hev; [left; lia|by right]. }
  clearbody s2. destruct F2 as (G1 & G2 & G3 & G4 & G5). rewrite G2. cbn.
  split; [|split; [by rewrite G1, Ek|split; [done|intros _; exact D5]]].
  split; cbn; rewrite ?G1, ?Ek, ?G3; try done; [by rewrite (is_connected_only _ _ Ho)|lia| |by apply ctx_inv_rx_done|by rewrite (rx_closed_only _ _ Ho)].
  replace (r + t + (n - t)) with (r + n) by lia. done.
Qed.

Definition unread s : Z := rxb_used (l_conns (s_lib s) x).

(** A call that receives finds data or the end of the stream within [f] polls, or it must not block and polls once.  In each poll the
    other processes do what [placed] says; in all but the last one they may have nothing for this connection. *)
Fixpoint finds_data (others : sstate -> sstate) (r : Z) (f : nat) s : Prop :=
  0 < unread s \/ rx_closed (socks s x) = true \/
  match f with
  | O => False
  | S f => let s := epoll_clear s x Sockepoll.EPOLLIN in
      (exists lens, placed others s r 0 lens) /\
      (nonblock (socks s x) = true \/ forall s', flextcp_sockctx_poll fuel others s = Done s' -> finds_data others r f s')
  end.

Lemma sinv_clear s r : sinv s r 0 -> rx_closed (socks s x) = false -> sinv (epoll_clear s x Sockepoll.EPOLLIN) r 0.
Proof. intros [] Hcl. split; try done; [by apply epoll_clear_other|]. cbn. intros [?|E]; [lia|congruence]. Qed.

Lemma has_data s r n : sinv s r n -> (rx_len_1 (socks s x) =? 0) && negb (rx_closed (socks s x)) = false <-> 0 < n \/ rx_closed (socks s x) = true.
Proof.
  intros [_ [_ Hn] Hp _ _ _ _ _]. rewrite (pieces_empty _ r n), andb_false_iff, negb_false_iff, Z.eqb_neq by done. split; (intros [?|?]; [left; lia|by right]).
Qed.

Lemma recv_wait_S others f s : recv_wait fuel others (S f) s x =
  if (rx_len_1 (socks s x) =? 0) && negb (rx_closed (socks s x)) then
    s ← flextcp_sockctx_poll fuel others (epoll_clear s x Sockepoll.EPOLLIN);
    if nonblock (socks s x) && (rx_len_1 (socks s x) =? 0) && negb (rx_closed (socks s x)) then Done (false, s) else recv_wait fuel others f s x
  else Done (true, s).
Proof. done. Qed.

Lemma recv_wait_ok others f : forall s r n, sinv s r n -> finds_data others r f s -> exists ok s1 n1, recv_wait fuel others (S f) s x = Done (ok, s1) /\
  sinv s1 r n1 /\ (0 < n -> s1 = s /\ n1 = n) /\ (ok = true -> 0 < n1 \/ rx_closed (socks s1 x) = true) /\
  (ok = false -> n = 0 /\ n1 = 0 /\ rx_closed (socks s1 x) = false /\ nonblock (socks s1 x) = true).
Proof.
  induction f as [|f IH]; intros s r n Hs Hfind; rewrite recv_wait_S; cbn [finds_data] in Hfind;
    rewrite (proj2 (proj2 (proj2 (si_lib _ _ _ Hs))) : unread s = n) in Hfind; pose proof (has_data s r n Hs) as Hd;
    (destruct (_ && _) eqn:E; [|exists true, s, n; split_and!; try done; intros _; by apply Hd]);
    (assert (Hnot : ~ (0 < n \/ rx_closed (socks s x) = true)) by by intros H%Hd).
  { exfalso. tauto. }
  assert (Hcl : rx_closed (socks s x) = false) by (destruct (rx_closed (socks s x)); tauto).
  assert (n = 0) as -> by (pose proof (proj2 (si_n _ _ _ Hs)); destruct (decide (0 < n)); [tauto|lia]).
  destruct Hfind as [H|[H|[[lens Hpl] Hnext]]]; [lia|congruence|].
  destruct (sock_poll_ok others _ r 0 lens (sinv_clear s r Hs Hcl) Hpl) as (s1 & E1 & Hs1 & Ho & _). rewrite E1. cbn [mbind outcome_bind].
  pose proof (has_data s1 r _ Hs1) as Hd1.
  destruct (decide (nonblock (socks s1 x) && (rx_len_1 (socks s1 x) =? 0) && negb (rx_closed (socks s1 x)) = true)) as [E2|E2].
  - rewrite E2. rewrite <-andb_assoc in E2. apply andb_prop in E2 as [Hnb E2]. exists false, s1, (0 + total lens). split; [done|]. split; [done|].
    split; [lia|]. split; [done|]. intros _. split; [done|].
    assert (Hno : ~ (0 < 0 + total lens \/ rx_closed (socks s1 x) = true)) by (intros H; by rewrite (proj2 Hd1 H) in E2).
    pose proof (proj2 (si_n _ _ _ Hs1)). split; [destruct (decide (0 < 0 + total lens)); [tauto|lia]|]. split; [|done]. destruct (rx_closed (socks s1 x)); tauto.
  - apply not_true_is_false in E2. rewrite E2.
    assert (Hfind : finds_data others r f s1).
    { destruct (decide (0 < 0 + total lens \/ rx_closed (socks s1 x) = true)) as [[H|H]|H].
      - destruct f; left; by rewrite (proj2 (proj2 (proj2 (si_lib _ _ _ Hs1))) : unread s1 = _).
      - destruct f; right; by left.
      - destruct Hnext as [Hnb|Hnext]; [|by apply Hnext]. destruct Ho as (_ & Hfl & _). unfold nonblock in *. rewrite <-Hfl in Hnb. exfalso.
        rewrite Hnb in E2. cbn [andb] in E2. by apply H, Hd1. }
    destruct (IH s1 r _ Hs1 Hfind) as (ok & s2 & n2 & -> & Hs2 & Hsame & Hok & Hno). exists ok, s2, n2. split; [done|]. split; [done|].
    split; [lia|]. split; [done|]. intros Hf. destruct (Hno Hf) as (_ & ?). done.
Qed.

(** What a call that receives leaves behind, with [n1] bytes in the buffer when it copies. *)
Definition received s' (r n1 t : Z) : Prop :=
  sinv s' (r + t) (n1 - t) /\ exists s1, sinv s1 r n1 /\ (0 < t -> rxb_bump (l_conns (s_lib s') x) = u32 (rxb_bump (l_conns (s_lib s1) x) + t)).

(** The result of a call that asks for [want] bytes and finds [n1]: as many as there are, and [EAGAIN] only if there are none and the call must not block. *)
Definition read_result s' (r n want n1 : Z) (d : option (list Z)) : Prop := 0 <= n1 /\ (0 < n -> n1 = n) /\
  match d with
  | Some d => d = stream T r (Z.min want n1) /\ received s' r n1 (Z.min want n1) /\ (n1 = 0 -> rx_closed (socks s' x) = true)
  | None => n = 0 /\ n1 = 0 /\ sinv s' r 0 /\ rx_closed (socks s' x) = false /\ nonblock (socks s' x) = true
  end.

Lemma tas_recvmsg_ok others f s r n iov : sinv s r n -> finds_data others r f s -> Forall (fun l => 0 <= l) iov -> 0 < total iov ->
  exists res s' n1, tas_recvmsg fuel others (S f) s x iov = Done (res, s') /\
    match res with
    | inr ds => ds = chop iov (stream T r n1) /\ read_result s' r n (total iov) n1 (Some (concat ds))
    | inl e => e = EAGAIN /\ read_result s' r n (total iov) n1 None
    end.
Proof.
  intros Hs Hfind Hiov Htot. unfold tas_recvmsg. fold (total iov). rewrite (si_conn _ _ _ Hs), (proj2 (Z.eqb_neq (total iov) 0)) by lia. cbn [negb].
  destruct (recv_wait_ok others f s r n Hs Hfind) as (ok & s1 & n1 & -> & Hs1 & Hsame & Hok & Hno). cbn [mbind outcome_bind].
  pose proof Hs1 as [_ [_ Hn1] Hp1 _ Hm1 _ _ _]. destruct ok; cbn [negb].
  - destruct (recv_iov_ok T base L (s_mem s1) ltac:(lia) iov (socks s1 x) r n1 Hiov Hn1 Hp1 Hm1) as (k' & -> & Hp' & Ho').
    eexists _, _, n1. split; [reflexivity|]. assert (Ec : concat (chop iov (stream T r n1)) = stream T r (Z.min (total iov) n1)).
    { by rewrite chop_concat, stream_take by (done || lia). }
    rewrite Ec, stream_length, Z2Nat.id by lia. split; [done|]. split; [lia|]. split; [by intros [_ ->]%Hsame|].
    destruct (recv_end_ok s1 r n1 (Z.min (total iov) n1) k' Hs1) as (H1 & H3 & _ & H2); [lia|lia|done|done|]. split; [done|].
    split; [by split; [|exists s1]|]. intros ->. rewrite (rx_closed_only _ _ H3). destruct (Hok eq_refl); [lia|done].
  - destruct (Hno eq_refl) as (-> & -> & ? & ?). exists (inl EAGAIN), s1, 0. split; [done|]. by split.
Qed.

(** Reading into one buffer is receiving into a vector of one element. *)
Lemma recv_simple_ok others f s r n len : sinv s r n -> finds_data others r f s -> 0 < len ->
  exists res s' n1, recv_simple fuel others (S f) s x len = Done (res, s') /\
    match res with inr d => read_result s' r n len n1 (Some d) | inl e => e = EAGAIN /\ read_result s' r n len n1 None end.
Proof.
  intros Hs Hfind Hlen. unfold recv_simple. rewrite (si_conn _ _ _ Hs), (proj2 (Z.eqb_neq len 0)) by lia. cbn [negb].
  destruct (recv_wait_ok others f s r n Hs Hfind) as (ok & s1 & n1 & -> & Hs1 & Hsame & Hok & Hno). cbn [mbind outcome_bind].
  pose proof Hs1 as [_ [_ Hn1] Hp1 _ Hm1 _ _ _]. destruct ok; cbn [negb].
  - destruct (recv_one_ok (s_mem s1) T base L (socks s1 x) r n1 len ltac:(lia) Hn1 ltac:(lia) Hp1 Hm1) as (k' & E & Hp' & Ho').
    unfold recv_one in E. destruct (if rx_len_1 _ <=? len then _ else _) as [[d off] k1]. rewrite Z.min_comm in E. injection E as Ed Ek. rewrite Ek, Ed.
    eexists _, _, n1. split; [reflexivity|]. split; [lia|]. split; [by intros [_ ->]%Hsame|].
    rewrite stream_take, stream_length, Z2Nat.id by lia. split; [done|].
    destruct (recv_end_ok s1 r n1 (Z.min len n1) k' Hs1) as (H1 & H3 & _ & H2); [lia|lia|done|done|]. split; [by split; [|exists s1]|].
    intros ->. rewrite (rx_closed_only _ _ H3). destruct (Hok eq_refl); [lia|done].
  - destruct (Hno eq_refl) as (-> & -> & ? & ?). exists (inl EAGAIN), s1, 0. split; [done|]. by split.
Qed.

(** ** Sequences of polls and reads *)

(** Each with what the other processes do before a poll, and how often a call that blocks polls at most. *)
Inductive action : Type := Poll (others : sstate -> sstate) | Recvmsg (others : sstate -> sstate) (f : nat) (iov : list Z) | Recv (others : sstate -> sstate) (f : nat) (len : Z).

(** The bytes the application gets. *)
Definition act s (a : action) : outcome (list Z * sstate) :=
  match a with
  | Poll others => s ← flextcp_sockctx_poll fuel others s; Done ([], s)
  | Recvmsg others f iov => '(r, s) ← tas_recvmsg fuel others (S f) s x iov; Done (match r with inr ds => concat ds | inl _ => [] end, s)
  | Recv others f len => '(r, s) ← recv_simple fuel others (S f) s x len; Done (match r with inr d => d | inl _ => [] end, s)
  end.

(** What the fast path promises (bytes of the stream, in order, no more than there is room), and that a call that blocks finds data. *)
Definition act_ok s (r : Z) (a : action) : Prop :=
  match a with
  | Poll others => exists lens, placed others s r (unread s) lens
  | Recvmsg others f iov => Forall (fun l => 0 <= l) iov /\ 0 < total iov /\ finds_data others r f s
  | Recv others f len => 0 < len /\ finds_data others r f s
  end.

(** What is read, and how much data there is when an action ends. *)
Definition act_result s s' (r n : Z) (d : list Z) (a : action) : Prop :=
  match a with
  | Poll others => d = [] /\ exists lens, placed others s r n lens /\ sinv s' r (n + total lens)
  | Recvmsg _ _ iov => exists n1, read_result s' r n (total iov) n1 (Some d) \/ d = [] /\ read_result s' r n (total iov) n1 None
  | Recv _ _ len => exists n1, read_result s' r n len n1 (Some d) \/ d = [] /\ read_result s' r n len n1 None
  end.

Fixpoint acts s (l : list action) : outcome (list Z * sstate) :=
  match l with [] => Done ([], s) | a :: l => '(d, s) ← act s a; '(d', s) ← acts s l; Done (d ++ d', s) end.

Fixpoint acts_ok s (r : Z) (l : list action) : Prop :=
  match l with
  | [] => True
  | a :: l => act_ok s r a /\ match act s a with Done (d, s) => acts_ok s (r + Z.of_nat (length d)) l | _ => True end
  end.

Lemma read_stream s' r n want n1 d : 0 <= want -> read_result s' r n want n1 d ->
  exists t n', match d with Some d => d | None => [] end = stream T r t /\ 0 <= t /\ sinv s' (r + t) n'.
Proof.
  intros Hw (Hn1 & _ & H). destruct d as [d|].
  - destruct H as (-> & [H _] & _). exists (Z.min want n1), (n1 - Z.min want n1). split; [done|]. split; [lia|done].
  - destruct H as (_ & _ & H & _). exists 0, 0. rewrite stream_nil, Z.add_0_r by lia. done.
Qed.

Lemma act_step s r n a : sinv s r n -> act_ok s r a ->
  exists t s' n', act s a = Done (stream T r t, s') /\ 0 <= t /\ sinv s' (r + t) n' /\ act_result s s' r n (stream T r t) a.
Proof.
  intros Hs Ha. pose proof (si_lib _ _ _ Hs) as (_ & _ & _ & Eu). fold (unread s) in Eu.
  destruct a as [others|others f iov|others f len]; cbn [act act_ok act_result] in *.
  - rewrite Eu in Ha. destruct Ha as (lens & Hpl). destruct (sock_poll_ok others s r n lens Hs Hpl) as (s' & -> & Hs' & _). cbn [mbind outcome_bind].
    exists 0, s', (n + total lens). rewrite stream_nil, Z.add_0_r by lia. split_and!; try done. by exists lens.
  - destruct Ha as (Hiov & Htot & Hfind). destruct (tas_recvmsg_ok others f s r n iov Hs Hfind Hiov Htot) as (res & s' & n1 & -> & Hres).
    cbn [mbind outcome_bind]. destruct res as [e|ds]; destruct Hres as [_ Hres]; destruct (read_stream s' r n (total iov) n1 _ ltac:(lia) Hres) as (t & n' & E & Ht & Hs');
      exists t, s', n'; rewrite <-E; (split; [done|]); (split; [done|]); (split; [done|]); exists n1; [by right|by left].
  - destruct Ha as (Hlen & Hfind). destruct (recv_simple_ok others f s r n len Hs Hfind Hlen) as (res & s' & n1 & -> & Hres).
    cbn [mbind outcome_bind]. destruct res as [e|d]; [destruct Hres as [_ Hres]|]; destruct (read_stream s' r n len n1 _ ltac:(lia) Hres) as (t & n' & E & Ht & Hs');
      exists t, s', n'; rewrite <-E; (split; [done|]); (split; [done|]); (split; [done|]); exists n1; [by right|by left].
Qed.

Lemma acts_steps l : forall s r n, sinv s r n -> acts_ok s r l ->
  exists t s' n', acts s l = Done (stream T r t, s') /\ 0 <= t /\ sinv s' (r + t) n'.
Proof.
  induction l as [|a l IH]; intros s r n Hs Hok; cbn [acts].
  { exists 0, s, n. rewrite stream_nil, Z.add_0_r by lia. done. }
  destruct Hok as [Ha Hok]. destruct (act_step s r n a Hs Ha) as (t & s1 & n1 & E & Ht & Hs1 & _). rewrite E in Hok |- *.
  rewrite stream_length, Z2Nat.id in Hok by done. cbn [mbind outcome_bind].
  destruct (IH s1 (r + t) n1 Hs1 Hok) as (t' & s2 & n2 & -> & Ht' & Hs2). cbn [mbind outcome_bind].
  exists (t + t'), s2, n2. rewrite stream_app, Z.add_assoc by done. split; [done|]. split; [lia|done].
Qed.

End Receive.

(** ** The application writes *)
Section Send.
Context (fuel : nat) (others : sstate -> sstate) (x base L h ret : Z) (HL : 0 < L < 1073741824) (Hh : 0 <= h < L) (Hret : 0 <= ret <= L).

(** The room of [ret] bytes from position [h] of the transmit buffer on, and its two parts. *)
Definition slot (j : Z) : Z := base + (h + j) mod L.
Definition part_1 : Z := if L <? h + ret then L - h else ret.
Definition part_2 : Z := if L <? h + ret then base else NULL.

Lemma part_1_range : 0 <= part_1 <= ret /\ part_1 <= L - h.
Proof. unfold part_1. destruct (L <? h + ret) eqn:E; lia. Qed.

Lemma slot_part j : 0 <= j < ret -> slot j = if j <? part_1 then base + h + j else part_2 + (j - part_1).
Proof.
  intros Hj. unfold slot, part_1, part_2. rewrite mod_near by lia. rewrite (Z.mod_small h) by lia.
  destruct (L <? h + ret) eqn:E; [apply Z.ltb_lt in E|apply Z.ltb_ge in E].
  - destruct (j <? L - h) eqn:E2; [apply Z.ltb_lt in E2|apply Z.ltb_ge in E2]; case_decide; lia.
  - rewrite (proj2 (Z.ltb_lt _ _)) by lia. case_decide; lia.
Qed.

(** [m'] is [m] with [src] written from offset [off] of the room on. *)
Record written m m' (off : Z) (src : list Z) : Prop := {
  wr_in j : 0 <= j < ret -> m' (slot j) = if (off <=? j) && (j <? off + Z.of_nat (length src)) then nth (Z.to_nat (j - off)) src 0 else m (slot j);
  wr_out a : (forall j, 0 <= j < ret -> a <> slot j) -> m' a = m a
}.

Lemma written_nil m off : written m m off [].
Proof. split; [|done]. intros j Hj. cbn. destruct (off <=? j) eqn:E; [|done]. apply Z.leb_le in E. by rewrite (proj2 (Z.ltb_ge _ _)) by lia. Qed.

Lemma written_app m1 m2 m3 off a b : 0 <= off -> written m1 m2 off a -> written m2 m3 (off + Z.of_nat (length a)) b -> written m1 m3 off (a ++ b).
Proof.
  intros Hoff [H1 H2] [G1 G2]. split; [|intros c Hc; by rewrite G2, H2]. intros j Hj. rewrite G1, H1 by done. rewrite length_app, Nat2Z.inj_add.
  destruct (off <=? j) eqn:E1; [apply Z.leb_le in E1|apply Z.leb_gt in E1]; cbn [andb].
  2: { by rewrite (proj2 (Z.leb_gt _ _)) by lia. }
  destruct (j <? off + Z.of_nat (length a)) eqn:E2; [apply Z.ltb_lt in E2|apply Z.ltb_ge in E2].
  - rewrite (proj2 (Z.leb_gt _ _)) by lia. cbn [andb]. rewrite (proj2 (Z.ltb_lt j _)) by lia. rewrite app_nth1; [done|lia].
  - rewrite (proj2 (Z.leb_le _ _)) by lia. cbn [andb]. rewrite Z.add_assoc. destruct (j <? _); [|done].
    rewrite app_nth2 by lia. f_equal. lia.
Qed.

Lemma write_bytes_in m a l i : a <= i < a + Z.of_nat (length l) -> write_bytes m a l i = nth (Z.to_nat (i - a)) l 0.
Proof. intros Hi. unfold write_bytes. by rewrite (proj2 (Z.leb_le _ _)), (proj2 (Z.ltb_lt _ _)) by lia. Qed.
Lemma write_bytes_out m a l i : ~ a <= i < a + Z.of_nat (length l) -> write_bytes m a l i = m i.
Proof.
  intros Hi. unfold write_bytes. destruct (a <=? i) eqn:E; [apply Z.leb_le in E|done]. by rewrite (proj2 (Z.ltb_ge _ _)) by lia.
Qed.

(** A write to one of the two parts. *)
Lemma written_1 m off src : 0 <= off -> off + Z.of_nat (length src) <= part_1 -> written m (write_bytes m (base + h + off) src) off src.
Proof.
  intros Hoff Hfit. pose proof part_1_range. split.
  - intros j Hj. rewrite slot_part by done. destruct ((off <=? j) && (j <? off + Z.of_nat (length src))) eqn:E.
    + apply andb_prop in E as [E1%Z.leb_le E2%Z.ltb_lt]. rewrite (proj2 (Z.ltb_lt j _)) by lia. rewrite write_bytes_in by lia. f_equal. lia.
    + rewrite write_bytes_out; [done|]. apply andb_false_iff in E. rewrite Z.leb_gt, Z.ltb_ge in E.
      destruct (j <? part_1) eqn:E1; [lia|]. apply Z.ltb_ge in E1. unfold part_1, part_2 in *. destruct (L <? h + ret) eqn:E2; [|lia].
      apply Z.ltb_lt in E2. lia.
  - intros a Ha. rewrite write_bytes_out; [done|]. intros Hin. apply (Ha (a - base - h)); [lia|]. rewrite slot_part by lia.
    rewrite (proj2 (Z.ltb_lt _ _)) by lia. lia.
Qed.

Lemma written_2 m off src : part_1 <= off -> off + Z.of_nat (length src) <= ret -> written m (write_bytes m (part_2 + (off - part_1)) src) off src.
Proof.
  intros Hoff Hfit. pose proof part_1_range. split.
  - intros j Hj. rewrite slot_part by done. destruct ((off <=? j) && (j <? off + Z.of_nat (length src))) eqn:E.
    + apply andb_prop in E as [E1%Z.leb_le E2%Z.ltb_lt]. rewrite (proj2 (Z.ltb_ge j _)) by lia. rewrite write_bytes_in by lia. f_equal. lia.
    + destruct (decide (length src = 0)%nat) as [E0|E0]; [rewrite write_bytes_out by lia; done|].
      rewrite write_bytes_out; [done|]. apply andb_false_iff in E. rewrite Z.leb_gt, Z.ltb_ge in E.
      destruct (j <? part_1) eqn:E1; [|lia]. apply Z.ltb_lt in E1. unfold part_1, part_2 in *. destruct (L <? h + ret) eqn:E2; [|lia].
      apply Z.ltb_lt in E2. lia.
  - intros a Ha. rewrite write_bytes_out; [done|]. intros Hin. apply (Ha (a - part_2 + part_1)); [lia|]. rewrite slot_part by lia.
    rewrite (proj2 (Z.ltb_ge _ _)) by lia. lia.
Qed.

Lemma split_write_ok m src off : 0 <= off -> off + Z.of_nat (length src) <= ret ->
  exists m', split_write m src (base + h) part_1 part_2 (ret - part_1) off = Done m' /\ written m m' off src.
Proof.
  intros Hoff Hfit. pose proof part_1_range. unfold split_write.
  rewrite (proj2 (Z.leb_le (_ + off) _)) by lia. cbn [assert_ mbind outcome_bind].
  destruct (off + Z.of_nat (length src) <=? part_1) eqn:E1; [apply Z.leb_le in E1|apply Z.leb_gt in E1].
  { eexists. split; [done|]. by apply written_1. }
  destruct (part_1 <=? off) eqn:E2; [apply Z.leb_le in E2|apply Z.leb_gt in E2].
  { eexists. split; [done|]. by apply written_2. }
  eexists. split; [done|]. set (l := Z.to_nat (part_1 - off)). rewrite <-(take_drop l src) at 3.
  apply (written_app _ (write_bytes m (base + h + off) (take l src))); [done|..].
  - apply written_1; [done|]. rewrite length_take. lia.
  - rewrite length_take. replace part_2 with (part_2 + (off + Z.of_nat (l `min` length src) - part_1)) by lia. apply written_2; [lia|]. rewrite length_drop. lia.
Qed.

Lemma written_enough m m' off a b : off + Z.of_nat (length a) = ret -> written m m' off a -> written m m' off (a ++ b).
Proof.
  intros Hret' [H1 H2]. split; [|done]. intros j Hj. rewrite H1 by done. rewrite length_app, Nat2Z.inj_add.
  rewrite !(proj2 (Z.ltb_lt j _)) by lia. destruct (off <=? j) eqn:E; [|done]. apply Z.leb_le in E. cbn [andb]. by rewrite app_nth1 by lia.
Qed.

Lemma send_iov_ok : forall iov m off, 0 <= off <= ret ->
  exists m', send_iov m iov (base + h) part_1 part_2 (ret - part_1) (ret - off) off = Done m' /\ written m m' off (concat iov).
Proof.
  induction iov as [|d iov IH]; intros m off Hoff; cbn [send_iov concat]; [exists m; split; [done|apply written_nil]|].
  destruct (0 <? ret - off) eqn:E; [apply Z.ltb_lt in E|apply Z.ltb_ge in E].
  2: { exists m. split; [done|]. apply (written_enough m m off []); [cbn; lia|apply written_nil]. }
  set (l := Z.min (ret - off) (Z.of_nat (length d))).
  assert (Hlt : Z.of_nat (length (take (Z.to_nat l) d)) = l) by (rewrite length_take; lia).
  destruct (split_write_ok m (take (Z.to_nat l) d) off) as (m1 & -> & Hw1); [lia|lia|]. cbn [mbind outcome_bind].
  destruct (IH m1 (off + l)) as (m' & E' & Hw'); [lia|]. rewrite Z.sub_add_distr in E'. rewrite E'. exists m'. split; [done|].
  destruct (decide (l = Z.of_nat (length d))) as [El|El].
  - rewrite take_ge in Hw1 by lia. apply (written_app m m1); [lia|done|]. by rewrite <-El.
  - rewrite <-(take_drop (Z.to_nat l) d), <-app_assoc. apply written_enough; [lia|].
    rewrite <-(app_nil_r (take _ d)). apply (written_app m m1); [lia|done|]. rewrite Hlt.
    destruct Hw' as [H1 H2]. split; [|done]. intros j Hj. rewrite H1 by done. cbn.
    destruct (off + l <=? j) eqn:E2; [apply Z.leb_le in E2; lia|]. done.
Qed.
End Send.

(** The transmit buffer of a connection: [h] is where the next byte goes, [sent] bytes have not been acknowledged, and nothing is
    allocated. *)
Record tx_room (l : lib) x base L h sent : Prop := {
  tr_len : 0 < L < 1073741824; tr_head : 0 <= h < L; tr_sent : 0 <= sent <= L;
  tr_base : txb_base (l_conns l x) = base; tr_L : txb_len (l_conns l x) = L; tr_h : txb_head (l_conns l x) = h;
  tr_used : txb_sent (l_conns l x) = sent; tr_alloc : txb_allocated (l_conns l x) = 0;
  tr_open : Z.land (flags (l_conns l x)) CONN_FLAG_TXEOS = 0
}.

Lemma sock_tx_alloc2_ok l x base L h sent len : tx_room l x base L h sent -> 0 <= len -> let ret := Z.min len (L - sent) in
  flextcp_connection_tx_alloc2 l x len =
    (Some (ret, base + h, part_1 L h ret, part_2 base L h ret), set_conn l x ((l_conns l x) <| txb_allocated := ret |>)).
Proof.
  intros [] Hlen ret. unfold flextcp_connection_tx_alloc2. cbv zeta. rewrite tr_open0. cbn [Z.eqb CONN_FLAG_TXEOS].
  assert (Ea : conn_tx_allocbytes (l_conns l x) = L - sent) by (unfold conn_tx_allocbytes; rewrite tr_L0, tr_used0, tr_alloc0, u32_small; lia).
  assert (Eh : alloc_head (l_conns l x) = h).
  { unfold alloc_head. rewrite tr_L0, tr_h0, tr_alloc0, u32_small by lia. rewrite (proj2 (Z.leb_gt _ _)) by lia. lia. }
  rewrite Ea, Eh, tr_base0, tr_L0, tr_alloc0. assert (Er : (if L - sent <? len then L - sent else len) = ret) by (destruct (_ <? _) eqn:E; lia).
  rewrite Er. unfold part_1, part_2. rewrite (u32_small (0 + ret)), (u32_small (L - h)) by lia. by destruct (L <? h + ret).
Qed.

Lemma mark_bump_tx (l : lib) c y : let k := l_conns l y in let k' := l_conns (conn_mark_bump l c) y in
  txb_head k' = txb_head k /\ txb_sent k' = txb_sent k /\ txb_allocated k' = txb_allocated k /\ txb_bump k' = txb_bump k /\
  (y = c -> bump_pending k' = true).
Proof.
  unfold conn_mark_bump, set_conn, set_ctx. destruct (bump_pending _) eqn:Hb; [split_and!; try done; by intros ->|]. cbv zeta. unfold insert, fn_insert.
  destruct (negb _); cbn; repeat (case_decide; subst; cbn); done.
Qed.

Lemma sock_tx_send_ok l x base L h sent ret : tx_room l x base L h sent -> 0 <= ret <= L - sent ->
  exists l', flextcp_connection_tx_send (set_conn l x ((l_conns l x) <| txb_allocated := ret |>)) x ret = (true, l') /\
    let k' := l_conns l' x in txb_head k' = (h + ret) mod L /\ txb_sent k' = sent + ret /\ txb_allocated k' = 0 /\
      txb_bump k' = u32 (txb_bump (l_conns l x) + ret) /\ bump_pending k' = true.
Proof.
  intros [] Hret. unfold flextcp_connection_tx_send. set (k0 := (l_conns l x) <| txb_allocated := ret |>).
  assert (E0 : l_conns (set_conn l x k0) x = k0) by apply fn_lookup_insert. rewrite E0. cbv zeta.
  change (conn_tx_sendbytes k0) with ret. rewrite Z.ltb_irrefl. eexists. split; [reflexivity|].
  set (l1 := set_conn (set_conn l x k0) x _). destruct (mark_bump_tx l1 x x) as (-> & -> & -> & -> & Hp).
  split_and!; try (by apply Hp); unfold l1, set_conn; cbn; rewrite fn_lookup_insert; cbn; rewrite ?tr_L0, ?tr_h0, ?tr_used0, ?Z.sub_diag; try done.
  - rewrite mod_near, (Z.mod_small h), !(u32_small (h + ret)) by lia.
    destruct (L <=? h + ret) eqn:E; [apply Z.leb_le in E; rewrite decide_False, u32_small by lia|apply Z.leb_gt in E; rewrite decide_True by lia]; done.
  - rewrite u32_small; lia.
Qed.

(** What a call that sends leaves behind. *)
Record sent_bytes s s' x base L h sent ret (data : list Z) : Prop := {
  sd_in j : 0 <= j < ret -> s_mem s' (base + (h + j) mod L) = nth (Z.to_nat j) data 0;
  sd_out a : (forall j, 0 <= j < ret -> a <> base + (h + j) mod L) -> s_mem s' a = s_mem s a;
  sd_lib : let k' := l_conns (s_lib s') x in txb_head k' = (h + ret) mod L /\ txb_sent k' = sent + ret /\ txb_allocated k' = 0 /\
    txb_bump k' = u32 (txb_bump (l_conns (s_lib s) x) + ret) /\ bump_pending k' = true
}.

Lemma send_with_ok fuel others f s x base L h sent data copy : let len := Z.of_nat (length data) in let ret := Z.min len (L - sent) in
  is_connected (socks s x) = true -> Z.land (st_flags (socks s x)) CSTF_TXCLOSED = 0 -> tx_room (s_lib s) x base L h sent -> 0 < len -> sent < L ->
  (exists m, copy (s_mem s) ret (base + h) (part_1 L h ret) (part_2 base L h ret) = Done m /\ written base L h ret (s_mem s) m 0 data) ->
  exists s', send_with fuel others (S f) s x len copy = Done (inr ret, s') /\ 0 < ret /\ sent_bytes s s' x base L h sent ret data.
Proof.
  intros len ret Hc Hst Hroom Hlen Hsent (m & E & [Hin Hout]). pose proof (tr_sent _ _ _ _ _ _ Hroom). unfold send_with. rewrite Hc, Hst.
  cbn [negb orb Z.eqb CSTF_TXCLOSED]. rewrite (proj2 (Z.eqb_neq len 0)), (sock_tx_alloc2_ok _ _ _ _ _ _ _ Hroom) by lia. fold ret. cbv zeta.
  rewrite (proj2 (Z.eqb_neq ret 0)) by lia. cbn [mbind outcome_bind]. change (s_mem (s <| s_lib := _ |>)) with (s_mem s). rewrite E.
  cbn [mbind outcome_bind send_out]. destruct (sock_tx_send_ok _ _ _ _ _ _ ret Hroom ltac:(lia)) as (l' & E' & Hk').
  change (s_lib ((s <| s_lib := ?l |>) <| s_mem := m |>)) with l. rewrite E'. cbn [mbind outcome_bind]. eexists. split; [reflexivity|]. split; [lia|].
  split; [intros j Hj|intros a Ha; by apply Hout|exact Hk']. cbn -[nth]. fold (slot base L h j). rewrite Hin by done. cbn -[nth].
  rewrite (proj2 (Z.leb_le 0 j)), (proj2 (Z.ltb_lt _ _)) by lia. cbn [andb]. by rewrite Z.sub_0_r.
Qed.

(** One buffer, as by [write] and [send]. *)
Lemma send_simple_ok fuel others f s x base L h sent buf : let len := Z.of_nat (length buf) in let ret := Z.min len (L - sent) in
  is_connected (socks s x) = true -> Z.land (st_flags (socks s x)) CSTF_TXCLOSED = 0 -> tx_room (s_lib s) x base L h sent -> 0 < len -> sent < L ->
  exists s', send_simple fuel others (S f) s x buf = Done (inr ret, s') /\ 0 < ret /\ sent_bytes s s' x base L h sent ret buf.
Proof.
  intros len ret Hc Hst Hroom Hlen Hsent. apply send_with_ok; try done. fold len ret. pose proof (tr_sent _ _ _ _ _ _ Hroom).
  pose proof (tr_len _ _ _ _ _ _ Hroom) as HL. pose proof (tr_head _ _ _ _ _ _ Hroom) as Hh.
  assert (Hp : 0 <= part_1 L h ret <= ret /\ part_1 L h ret <= L - h) by (apply part_1_range; lia). set (l1 := Z.to_nat (part_1 L h ret)). eexists. split; [done|].
  rewrite <-(take_drop (Z.to_nat ret) buf). apply written_enough; [rewrite length_take; lia|].
  rewrite take_app_le by (rewrite length_take; lia). rewrite drop_app_le by (rewrite length_take; lia).
  rewrite <-(take_drop l1 (take (Z.to_nat ret) buf)) at 3. rewrite take_app_le by (rewrite length_drop, length_take; lia).
  assert (Hl1 : length (take l1 (take (Z.to_nat ret) buf)) = l1) by (rewrite !length_take; lia).
  apply (written_app base L h ret) with (write_bytes (s_mem s) (base + h) (take l1 (take (Z.to_nat ret) buf))); [lia| |].
  - replace (base + h) with (base + h + 0) by lia. apply written_1; try lia; rewrite Hl1; lia.
  - rewrite (take_ge (drop l1 _)) by (rewrite length_drop, length_take; lia). rewrite Hl1.
    replace (part_2 base L h ret) with (part_2 base L h ret + (0 + Z.of_nat l1 - part_1 L h ret)) by lia.
    apply written_2; try lia; rewrite length_drop, length_take; lia.
Qed.

(** ** Properties *)

(** C37: A connected socket delivers the stream of its peer. The application polls its context and reads, with vectors or single buffers
    of any sizes, in any order; before each poll, also before those of a call that finds no data, the fast path has put some more bytes of the stream
    behind those in the circular receive buffer, around its end or not, and the updates about them in a queue of the context ([placed]). Then the
    bytes the application gets are, one after the other, exactly the stream from its beginning, no call fails an assertion or finds a third
    piece, and while unread bytes are in the buffer the socket is readable. In the state reached, another poll returns with all bytes it
    found unread ([act_result]), and another read gets as many bytes as are there and fit, and tells the library about exactly these; it gets none only
    at the end of the stream, or if the socket must not block and the poll found nothing.  A read on a socket that blocks returns when a poll has found data; one for
    which data never comes is excluded ([finds_data]). *)
Theorem socket_stream_correct fuel T x base L s l : (7 <= fuel)%nat -> 0 < L < 1073741824 -> sinv fuel T x base L s 0 0 ->
  acts_ok fuel T x base L s 0 l -> exists t s' n, acts fuel x s l = Done (stream T 0 t, s') /\ 0 <= t /\ sinv fuel T x base L s' t n /\
    unread x s' = n /\ (0 < n -> readable x s' = true) /\
    forall a, act_ok fuel T x base L s' t a -> exists t' s'', act fuel x s' a = Done (stream T t t', s'') /\ act_result fuel T x base L s' s'' t n (stream T t t') a.
Proof.
  intros Hfuel HL Hs Hok. destruct (acts_steps fuel T x base L Hfuel HL l s 0 0 Hs Hok) as (t & s' & n & E & Ht & Hs').
  exists t, s', n. split; [done|]. split; [done|]. split; [done|]. split; [apply (si_lib _ _ _ _ _ _ _ _ Hs')|]. split.
  - intros Hn. apply (si_event _ _ _ _ _ _ _ _ Hs'). by left.
  - intros a Ha. destruct (act_step fuel T x base L Hfuel HL s' t n a Hs' Ha) as (t' & s'' & _ & E' & _ & _ & H). by exists t', s''.
Qed.

(** C38: Sending on a connected socket with room in the transmit buffer takes the first bytes of the vector, as many as there is
    room for, and returns their number. They are in the transmit buffer from the next free position on, around its end if needed; nothing else in
    memory changes, and they are announced to the fast path. *)
Theorem tas_sendmsg_correct fuel others f s x base L h sent iov : let data := concat iov in
  let len := Z.of_nat (length data) in let ret := Z.min len (L - sent) in
  is_connected (socks s x) = true -> Z.land (st_flags (socks s x)) CSTF_TXCLOSED = 0 -> tx_room (s_lib s) x base L h sent ->
  0 < len -> sent < L ->
  exists s', tas_sendmsg fuel others (S f) s x iov = Done (inr ret, s') /\ 0 < ret /\ sent_bytes s s' x base L h sent ret data.
Proof.
  intros data len ret Hc Hst Hroom Hlen Hsent. apply send_with_ok; try done. fold data len ret. pose proof (tr_sent _ _ _ _ _ _ Hroom).
  destruct (send_iov_ok base L h ret (tr_len _ _ _ _ _ _ Hroom) (tr_head _ _ _ _ _ _ Hroom) ltac:(lia) iov (s_mem s) 0) as (m & E & Hw); [lia|].
  rewrite Z.sub_0_r in E. by exists m.
Qed.

(** ** Examples *)

(** A buffer that holds the stream from position [p] on. *)
Definition window T (base L p : Z) : Z -> Z := fun a => T (p + (a - base - p) mod L).

Lemma window_holds T base L p r n : 0 < L -> p <= r -> r + n <= p + L -> holds (window T base L p) T base L r n.
Proof.
  intros HL Hp Hn i Hi. unfold window. f_equal. replace (base + (r + i) mod L - base - p) with ((r + i) mod L - p) by lia.
  rewrite Zminus_mod_idemp_l, Z.mod_small by lia. lia.
Qed.

Definition ex_stream : Z -> Z := fun i => 3 * i + 1.
(** A connected socket 50 that blocks, with two buffers of eight bytes, nothing received, and seven bytes sent. *)
Definition ex_conn : flextcp_connection :=
  connection_init <| rxb_base := 100 |> <| rxb_len := 8 |> <| txb_base := 200 |> <| txb_len := 8 |> <| txb_head := 7 |> <| status := CONN_OPEN |>.
Definition ex_sock : socket := mk_socket SOCK_CONNECTION 0 SOC_CONNECTED 0 0 0 0 0 0 0 SOL_OPENING.
Definition ex_lib (sent : Z) : lib :=
  mk_lib (fun _ => ex_conn <| txb_sent := sent |>) (fun _ => mk_listener 0 0 0)
    (mk_context 4 0 4 0 128 16 (fun _ => mk_ctx_queue 0 0 16) 0 0 0 0 1 0 0) (fun _ => APPOUT_INVALID) (fun _ => APPIN_INVALID)
    (fun _ _ => mk_arx 0 0 0 0 0 0) (fun _ _ => mk_atx 0 0 0 0 0 0).
Definition ex_state (sent : Z) : sstate := mk_sstate (fun _ => ex_sock) (ex_lib sent) SockepollProps.epoll_init (fun _ => 0) ∅.

Lemma ex_sinv sent : sinv 9 ex_stream 50 100 8 (ex_state sent) 0 0.
Proof.
  split; try done.
  - intros i Hi. lia.
  - apply SockepollProps.epoll_init_inv.
  - split; try done. exists []. split; [constructor; try done; [constructor|set_solver]|]. split; [cbn; lia|set_solver].
  - intros [?|H]; [lia|]. by vm_compute in H.
Qed.

(** Updates in queue 0 of a context, and what the fast path does with the stream from position [p] on. *)
Fixpoint ex_entries (l : lib) (pos : Z) (lens : list Z) : Z -> arx :=
  match lens with [] => fun _ => mk_arx 0 0 0 0 0 0 | n :: lens => <[pos := mk_arx 1 50 n 0 0 0]> (ex_entries l (rxq_next l pos) lens) end.
Definition ex_place (p : Z) (lens : list Z) (s : sstate) : sstate :=
  s <| s_mem := window ex_stream 100 8 p |> <| s_lib := (s_lib s) <| l_kout := fun _ => APPIN_INVALID |>
    <| l_arx := fun q => if q =? 0 then ex_entries (s_lib s) (arx_head (s_lib s) 0) lens else fun _ => mk_arx 0 0 0 0 0 0 |> |>.
(** Nothing at the first poll, seven bytes at the second. *)
Definition ex_late (s : sstate) : sstate :=
  if s_mem s 0 =? 0 then ex_place 6 [7] s else (ex_place 6 [] s) <| s_mem := fun _ => 0 |>.

Definition ex_acts : list action := [Poll (ex_place 0 [2; 4]); Recv id 0 4; Recvmsg id 0 [9]; Recvmsg ex_late 2 [3; 0; 9]].

Lemma acts_ok_app fuel T x base L l l' : forall s r, acts_ok fuel T x base L s r l ->
  match acts fuel x s l with Done (d, s') => acts_ok fuel T x base L s' (r + Z.of_nat (length d)) l' | _ => True end ->
  acts_ok fuel T x base L s r (l ++ l').
Proof.
  induction l as [|a l IH]; intros s r Hok Hok'; cbn [acts acts_ok app length] in *; [by rewrite Z.add_0_r in Hok'|].
  destruct Hok as [Ha Hok]. split; [done|]. destruct (act fuel x s a) as [[d s1]| |]; [|done..]. apply IH; [done|]. cbn [mbind outcome_bind] in Hok'.
  destruct (acts fuel x s1 l) as [[d' s']| |]; [|done..]. cbn [mbind outcome_bind] in Hok'. by rewrite length_app, Nat2Z.inj_add, Z.add_assoc in Hok'.
Qed.

(** In a concrete state with one queue, what [placed] says of it is checked by evaluation. *)
Lemma ex_placed others s r n lens : socks (others s) = socks s /\ s_es (others s) = s_es s ->
  l_conns (s_lib (others s)) = l_conns (s_lib s) /\ l_ctx (s_lib (others s)) = l_ctx (s_lib s) -> num_queues (l_ctx (s_lib s)) = 1 ->
  appin_free (l_kout (s_lib (others s)) (kout_head (l_ctx (s_lib s)))) = true -> holds_updates 50 (s_lib (others s)) 0 (arx_head (s_lib s) 0) lens ->
  bool_decide (NoDup (places (s_lib (others s)) (arx_head (s_lib s) 0) lens)) && forallb (Z.leb 0) lens && (Nat.leb (length lens) 5) && (n + total lens <=? 8) = true ->
  s_mem (others s) = window ex_stream 100 8 r \/ n + total lens = 0 -> 0 <= n -> placed ex_stream 50 100 8 others s r n lens.
Proof.
  intros Hf [Hc Hx] Hn Hk Hu Hb Hm Hn0. apply andb_prop in Hb as [[[Hnd%bool_decide_eq_true Hall]%andb_prop Hlen%Nat.leb_le]%andb_prop Hfit%Z.leb_le].
  split; [done|done| |done| |].
  - exists 0. assert (Eh : arx_head (s_lib (others s)) 0 = arx_head (s_lib s) 0) by (unfold arx_head; by rewrite Hx).
    split; rewrite ?Eh, ?Hx, ?Hn; [done|lia|done|done|]. intros p Hp Hne. lia.
  - split; [|done]. apply Forall_forall. intros y Hy. apply list_elem_of_In in Hy. apply (proj1 (forallb_forall _ _) Hall) in Hy. lia.
  - destruct Hm as [->| ->]; [apply window_holds; lia|]. intros i Hi. lia.
Qed.

Lemma ex_late_frame (s : sstate) : (socks (ex_late s) = socks s /\ s_es (ex_late s) = s_es s) /\
  (l_conns (s_lib (ex_late s)) = l_conns (s_lib s) /\ l_ctx (s_lib (ex_late s)) = l_ctx (s_lib s)) /\ l_kout (s_lib (ex_late s)) = fun _ => APPIN_INVALID.
Proof. unfold ex_late. by destruct (_ =? _). Qed.

(** The state after the first three actions. *)
Definition ex_read : sstate := match acts 9 50 (ex_state 0) (take 3 ex_acts) with Done (_, s) => s | _ => ex_state 0 end.

Lemma ex_read_some fuel T x base L s s' r n d a : sinv fuel T x base L s r n -> 0 < n -> act_result fuel T x base L s s' r n d a ->
  match a with
  | Poll _ => True
  | Recvmsg _ _ iov => let t := Z.min (total iov) n in d = stream T r t /\ sinv fuel T x base L s' (r + t) (n - t)
  | Recv _ _ len => let t := Z.min len n in d = stream T r t /\ sinv fuel T x base L s' (r + t) (n - t)
  end.
Proof.
  intros Hs Hn. destruct a as [|others f iov|others f len]; cbn [act_result]; [done|..];
    (intros (n1 & [(_ & Hsame & Ed & [H _] & _)|(_ & _ & _ & E & _)]); [|lia]); by rewrite (Hsame Hn) in H, Ed.
Qed.

Lemma ex_first_ok : acts_ok 9 ex_stream 50 100 8 (ex_state 0) 0 (take 3 ex_acts).
Proof.
  assert (HL : 0 < 8 < 1073741824) by lia. assert (Hf : (7 <= 9)%nat) by lia. pose proof (ex_sinv 0) as H0.
  assert (P0 : placed ex_stream 50 100 8 (ex_place 0 [2; 4]) (ex_state 0) 0 0 [2; 4]).
  { apply ex_placed; try done; [|by left]. split; [by exists 0|]. split; [by exists 0|done]. }
  unfold ex_acts. cbn [take acts_ok]. split; [by exists [2; 4]|].
  destruct (sock_poll_ok 9 ex_stream 50 100 8 Hf HL _ _ _ _ _ H0 P0) as (s1 & E1 & H1 & _). cbn [act]. rewrite E1. cbn [mbind outcome_bind length].
  assert (A1 : act_ok 9 ex_stream 50 100 8 s1 0 (Recv id 0 4)).
  { split; [lia|]. left. by rewrite (proj2 (proj2 (proj2 (si_lib _ _ _ _ _ _ _ _ H1))) : unread 50 s1 = 6). }
  split; [exact A1|]. destruct (act_step 9 ex_stream 50 100 8 Hf HL s1 0 6 _ H1 A1) as (t1 & s2 & n2 & E2 & Ht1 & _ & R2).
  pose proof (ex_read_some 9 ex_stream 50 100 8 s1 s2 0 6 _ _ H1 ltac:(lia) R2) as [Ed H2]. cbn [act] in E2. rewrite E2, Ed, stream_length.
  assert (A2 : act_ok 9 ex_stream 50 100 8 s2 4 (Recvmsg id 0 [9])).
  { split; [by repeat constructor|]. split; [done|]. left. by rewrite (proj2 (proj2 (proj2 (si_lib _ _ _ _ _ _ _ _ H2))) : unread 50 s2 = 2). }
  split; [exact A2|]. by destruct (tas_recvmsg _ _ _ _ _ _) as [[? ?]| |].
Qed.

Lemma ex_place_arx p lens (s : sstate) : l_arx (s_lib (ex_place p lens s)) 0 = ex_entries (s_lib s) (arx_head (s_lib s) 0) lens.
Proof. done. Qed.

(** What is evaluated about a state in which a poll finds [lens]. *)
Definition ex_polled (s : sstate) lens : bool := let l := s_lib (ex_late s) in
  (num_queues (l_ctx (s_lib s)) =? 1) && Bool.eqb (s_mem s 0 =? 0) (0 <? total lens) &&
  match lens with
  | [] => true
  | [n] => (arx_rx_bump (l_arx l 0 (arx_head (s_lib s) 0)) =? n) && negb (rxq_next l (arx_head (s_lib s) 0) =? arx_head (s_lib s) 0)
  | _ => false
  end.

Lemma ex_late_placed fuel (s : sstate) lens : sinv fuel ex_stream 50 100 8 s 6 0 -> ex_polled s lens = true -> lens = [] \/ lens = [7] ->
  placed ex_stream 50 100 8 ex_late s 6 0 lens.
Proof.
  intros Hs Hp Hlens. unfold ex_polled in Hp. destruct (ex_late_frame s) as (F1 & F2 & F3). set (h := arx_head (s_lib s) 0) in *.
  apply andb_prop in Hp as [[Hn%Z.eqb_eq Hz%eqb_prop]%andb_prop Hp].
  apply ex_placed; [exact F1|exact F2|exact Hn|by rewrite F3| | | |lia]; fold h.
  - destruct Hlens as [-> | ->]; cbn [total fold_right] in Hz.
    + unfold holds_updates, is_update, ex_late. by rewrite Hz.
    + apply andb_prop in Hp as [_ Hp]. assert (El : ex_late s = ex_place 6 [7] s) by (unfold ex_late; by rewrite Hz). rewrite El in Hp |- *. split.
      * exists 0. rewrite ex_place_arx. fold h. cbn [ex_entries]. by rewrite fn_lookup_insert.
      * unfold holds_updates, is_update. apply negb_true_iff, Z.eqb_neq in Hp. revert Hp. generalize (rxq_next (s_lib (ex_place 6 [7] s)) h) as h'. intros h' Hp.
        rewrite ex_place_arx. fold h. cbn [ex_entries]. by rewrite fn_lookup_insert_ne.
  - by destruct Hlens as [-> | ->].
  - destruct Hlens as [-> | ->]; [by right|left]. unfold ex_late. by rewrite Hz.
Qed.

(** A call that finds nothing at its first poll. *)
Lemma ex_late_finds s : sinv 9 ex_stream 50 100 8 s 6 0 -> Sockstream.rx_closed (socks s 50) = false ->
  ex_polled (epoll_clear s 50 Sockepoll.EPOLLIN) [] = true ->
  match flextcp_sockctx_poll 9 ex_late (epoll_clear s 50 Sockepoll.EPOLLIN) with
  | Done s => ex_polled (epoll_clear s 50 Sockepoll.EPOLLIN) [7]
  | _ => false
  end = true -> finds_data 9 ex_stream 50 100 8 ex_late 6 2 s.
Proof.
  assert (HL : 0 < 8 < 1073741824) by lia. assert (Hf : (7 <= 9)%nat) by lia.
  intros Hs Hcl Hp1 Hp2. right. right. cbv zeta. pose proof (sinv_clear 9 ex_stream 50 100 8 Hf s 6 Hs Hcl) as Hs0.
  pose proof (ex_late_placed _ _ _ Hs0 Hp1 (or_introl eq_refl)) as P. split; [by exists []|]. right. intros s1 E1.
  destruct (sock_poll_ok 9 ex_stream 50 100 8 Hf HL _ _ _ _ _ Hs0 P) as (s1' & E1' & H1 & Ho & _). rewrite E1' in E1, Hp2. injection E1 as <-.
  right. right. cbv zeta. assert (Hcl1 : Sockstream.rx_closed (socks s1' 50) = false) by by rewrite (rx_closed_only _ _ Ho).
  pose proof (sinv_clear 9 ex_stream 50 100 8 Hf s1' 6 H1 Hcl1) as Hs1. pose proof (ex_late_placed _ _ _ Hs1 Hp2 (or_intror eq_refl)) as P'.
  split; [by exists [7]|]. right. intros s2 E2.
  destruct (sock_poll_ok 9 ex_stream 50 100 8 Hf HL _ _ _ _ _ Hs1 P') as (s2' & E2' & H2 & _). rewrite E2' in E2. injection E2 as <-.
  left. by rewrite (proj2 (proj2 (proj2 (si_lib _ _ _ _ _ _ _ _ H2))) : unread 50 s2' = 7).
Qed.

Lemma ex_last_evaluated : (unread 50 ex_read =? 0) && negb (Sockstream.rx_closed (socks ex_read 50)) &&
  ex_polled (epoll_clear ex_read 50 Sockepoll.EPOLLIN) [] &&
  match flextcp_sockctx_poll 9 ex_late (epoll_clear ex_read 50 Sockepoll.EPOLLIN) with
  | Done s => ex_polled (epoll_clear s 50 Sockepoll.EPOLLIN) [7]
  | _ => false
  end = true.
Proof. vm_compute. reflexivity. Qed.

Lemma ex_acts_ok : acts_ok 9 ex_stream 50 100 8 (ex_state 0) 0 ex_acts.
Proof.
  assert (HL : 0 < 8 < 1073741824) by lia. assert (Hf : (7 <= 9)%nat) by lia.
  apply (acts_ok_app _ _ _ _ _ (take 3 ex_acts) [Recvmsg ex_late 2 [3; 0; 9]]); [exact ex_first_ok|].
  destruct (acts_steps 9 ex_stream 50 100 8 Hf HL _ _ 0 0 (ex_sinv 0) ex_first_ok) as (t & s3 & n & E & Ht & H3).
  pose proof ex_last_evaluated as Hev. assert (Es : ex_read = s3) by (unfold ex_read; by rewrite E). rewrite Es in Hev.
  assert (Hlen : match acts 9 50 (ex_state 0) (take 3 ex_acts) with Done (d, _) => length d | _ => 0%nat end = 6%nat) by (vm_compute; reflexivity).
  rewrite E, stream_length in *. assert (t = 6) as -> by lia. clear E Es Hlen.
  apply andb_prop in Hev as [[[U%Z.eqb_eq Hcl%negb_true_iff]%andb_prop Hp1]%andb_prop Hp2].
  assert (n = 0) as ->. { rewrite <-U. symmetry. exact (proj2 (proj2 (proj2 (si_lib _ _ _ _ _ _ _ _ H3)))). }
  cbn [acts_ok act_ok]. split; [|by destruct (act _ _ _ _) as [[? ?]| |]]. split; [by repeat constructor|]. split; [done|].
  by apply ex_late_finds.
Qed.

Lemma socket_stream_correct_witness : acts_ok 9 ex_stream 50 100 8 (ex_state 0) 0 ex_acts /\
  exists t s' n, acts 9 50 (ex_state 0) ex_acts = Done (stream ex_stream 0 t, s') /\ sinv 9 ex_stream 50 100 8 s' t n.
Proof.
  split; [exact ex_acts_ok|].
  destruct (socket_stream_correct 9 ex_stream 50 100 8 (ex_state 0) ex_acts ltac:(lia) ltac:(lia) (ex_sinv 0) ex_acts_ok) as (t & s' & n & E & _ & H & _).
  exists t, s', n. split; [exact E|exact H].
Defined.

(** All thirteen bytes are read, the last seven by a call that waits. *)
Example ex_acts_bytes : match acts 9 50 (ex_state 0) ex_acts with Done (d, _) => d | _ => [] end = stream ex_stream 0 13.
Proof. vm_compute. reflexivity. Qed.

Lemma ex_tx_room : tx_room (ex_lib 3) 50 200 8 7 3.
Proof. by split. Qed.

(** Five of six bytes fit; they wrap around the end of the buffer. *)
Lemma tas_sendmsg_correct_witness : exists s', tas_sendmsg 9 id 1 (ex_state 3) 50 [[1; 2]; [3]; [4; 5; 6]] = Done (inr 5, s') /\
  s_mem s' 207 = 1 /\ s_mem s' 200 = 2 /\ s_mem s' 203 = 5 /\ s_mem s' 204 = 0.
Proof.
  destruct (tas_sendmsg_correct 9 id 0 (ex_state 3) 50 200 8 7 3 [[1; 2]; [3]; [4; 5; 6]] eq_refl eq_refl ex_tx_room ltac:(done) ltac:(lia))
    as (s' & E & _ & [Hin Hout _]). exists s'. split; [exact E|]. split; [exact (Hin 0 ltac:(done))|]. split; [exact (Hin 1 ltac:(done))|].
  split; [exact (Hin 4 ltac:(done))|]. refine (Hout 204 _). intros j Hj E'. change (Z.min _ _) with 5 in Hj.
  rewrite mod_near in E' by lia. change (7 mod 8) with 7 in E'. case_decide; lia.
Defined.

(** When a socket with a full transmit buffer is closed, the next acknowledgement makes the low level library report room in the
    buffer, and the assertion that the socket is connected fails. *)
Example sendbuf_after_close_aborts : match sock_close 9 (ex_state 8) 50 with
  | Done s =>
    match event_arx_connupdate (s_lib s) (mk_arx FLEXTCP_PL_ARX_CONNUPDATE 50 0 0 4 0) 16 0 with
    | Done (Some evs, l) => evs = [EV_CONN_SENDBUF 50] /\ handle_events 9 (s <| s_lib := l |>) evs = Aborted
    | _ => False
    end
  | _ => False
  end.
Proof. vm_compute. done. Qed.

End SockstreamProps.
